(* ===== verification/_CoqProject ===== *)
-Q . S2P
Prelude.v
Fcntl.v
Memory.v
State.v
Spinlock.v
SleepWakeup.v
Kalloc.v
PageTable.v
Vm.v
VmSpec.v
UserMem.v
UserCopy.v
FreeWalk.v
VmTheorems.v
VmWitness.v
Sched.v
SchedSpec.v
Sleeplock.v
Virtio.v
VirtioSpec.v
Bio.v
BioSpec.v
Codec.v
Log.v
LogSpec.v
LogCrash.v
Txn.v
Recovery.v
DiskTheorems.v
DiskWitness.v
Fs.v
Uart.v
Printf.v
Console.v
Pipe.v
File.v
Trapframe.v
Kvm.v
Proc.v
Exec.v
Syscall.v
Sysproc.v
Sysfile.v
Trap.v
FsCodec.v
FsSpec.v
FsAlloc.v
FsInode.v
FsTheorems.v
FsWrite.v
FsTrunc.v
FsDir.v
FsPath.v
FsUpdate.v
FsWitness.v
Mkfs.v
MkfsSpec.v
MkfsRun.v
MkfsTheorems.v
PipeSpec.v
PipeTheorems.v
ConsoleSpec.v
MmapSpec.v
MmapTheorems.v
MmapWitness.v
ProcMem.v
Fork.v
ForkTheorems.v
Wait.v
ProcTheorems.v
Umalloc.v
UmallocSpec.v
UmallocTheorems.v
Ulib.v
Grep.v
Shell.v
UserSys.v
UserProgs.v
UserTheorems.v
ShellRun.v
