(* ===== verification/Prelude.v ===== *)
(** * xv6-riscv with memory-mapped files: a verification library

    ** The program

    The sources are the xv6 kernel for RISC-V as changed for the mmap lab
    (src/kernel), its user programs (src/user) and the builder of the disk image
    (src/mkfs).  From the bottom up the kernel has: byte memory and string
    primitives (string.c); spinlocks (spinlock.c); the page allocator (kalloc.c)
    and page tables (vm.c); processes, the scheduler, sleep and wakeup (proc.c)
    and sleep locks (sleeplock.c); the disk driver (virtio_disk.c), the buffer
    cache over it (bio.c), the redo log over that (log.c) and the file system
    over the log (fs.c); the open-file table and pipes (file.c, pipe.c); the
    serial port, console and printf (uart.c, console.c, printf.c); program
    loading (exec.c); system calls (syscall.c, sysproc.c, sysfile.c); traps,
    interrupts and boot (trap.c, plic.c, main.c, start.c).  Memory-mapped files
    are in sysfile.c (sys_mmap, sys_munmap), proc.c (vma_fault, vma_unmap) and
    trap.c.

    ** How the code is modelled

    [Prelude] has machine integers (Z with the wrap-around of their width written
    out) and the monad of the kernel's C code.  A computation [K S A] maps a state
    to an [outcome]: it returns, panics, switches to the scheduler and goes on
    from whatever state it is resumed in, or hangs.  Loops run through [loop],
    which has 2^64 rounds of fuel and hangs when they are used up; the code has
    no loop that runs longer, and no theorem is about the case: [wpc R C m Q s] is
    total correctness, that is, [m] run from [s] returns in a state satisfying
    [Q], without panic or hang, whatever the scheduler does at a switch within
    the rely [R], and the crash condition [C] holds at every switch.  [wp] is the
    case without switches.  A C undefined behaviour (a null pointer used, a page
    that holds no pipe) is a panic of the model.

    [Memory] is byte memory and string.c.  [State] has one record [kstate] of the
    kernel's global variables and the C structs as records; pointers between
    kernel tables are indices, a page is its address, a lock is a name in the
    list [k_held] of the locks the running thread holds.  [acquire] and [release]
    of [State] are atomic on that list; [Spinlock] justifies them.

    - Locks: [Spinlock] (spinlock.c, with harts interleaved between memory
      accesses), [SleepWakeup] (sleep and wakeup of proc.c, interleaved between
      lock operations), [Sleeplock] (sleeplock.c).
    - Memory: [Kalloc] (kalloc.c); [Vm] (vm.c), with [PageTable], [VmSpec],
      [UserMem], [UserCopy], [FreeWalk] for what it means; [Kvm] (kvmmake,
      kvminit, kvminithart, proc_mapstacks).
    - Processes: [Sched] and [SchedSpec] (scheduling part of proc.c), [Proc] (the
      rest of proc.c), [Exec] (exec.c), [Trapframe] (struct trapframe and
      usertrapret), with [ProcMem], [Fork] and [Wait] for what fork, freeproc and
      wait do to the memory of processes.
    - Disk: [Virtio] (virtio_disk.c), [Bio] (bio.c), [Codec] (little-endian fields
      of blocks), [Log] (log.c), [Fs] (fs.c), with [VirtioSpec], [BioSpec],
      [LogSpec], [LogCrash], [Txn], [Recovery], [FsCodec], [FsSpec], [FsAlloc],
      [FsInode], [FsWrite], [FsTrunc], [FsDir] and [FsPath] for what they mean.
    - Files and devices: [File] (file.c and pipealloc), [Pipe] (pipe.c), [Uart],
      [Printf], [Console]; [PipeSpec], [ConsoleSpec] and [MmapSpec] carry the
      proofs on pipes, the console and mapped areas.
    - System calls, traps, boot: [Syscall], [Sysproc], [Sysfile], [Trap] (trap.c,
      plic.c, main.c, start.c and the system call table).
    - [Fcntl] has the constants of fcntl.h, which kernel and user programs share.
    - The builder of the disk image: [Mkfs] (mkfs.c), on the image as a map of
      sectors, with [MkfsSpec] and [MkfsRun] for the image while it grows.
    - User side: [Ulib], [UserSys] (ulib.c and printf.c), [Umalloc] (umalloc.c, with
      [UmallocSpec] for the ring of free blocks), [Grep] (the matcher of grep.c),
      [Shell] (the parser of sh.c; its fuel, four per byte and four, is proved
      enough), [ShellRun] (the rest of sh.c), [UserProgs] (the other programs).
      A user program is an interaction tree whose events are the system calls
      ([UserSys]); loops are those of the tree and need no fuel.  [must] is total
      correctness of such a program against all answers of a kernel; what the
      programs rely on is a class, [StreamLaws] for those that read and write and
      [TableLaws] for the shell, each with a concrete instance.

    Definitions have the names of the C functions; a helper such as
    [pipewrite_round] is the loop body of the function it names.

    What is not under src/ is a parameter.  [KernelImage] gives the addresses the
    linker chooses (the end of the kernel, the trampoline), with
    [KernelImageOk] saying they are aligned and ordered; [VirtioDevice] is the
    disk device, with [VirtioDeviceOk] saying that it serves the next request of
    the avail ring as the virtio specification says; [Host] gives mkfs the files
    and the disk of the machine it runs on.  [State], [DiskWitness] and
    [MkfsTheorems] have concrete instances.

    ** What the theorems show

    - [Memory], [Kalloc]: memmove is right for every overlap, strncpy and strncmp
      agree on names, safestrcpy stays in bounds; the allocator hands out each
      page once, and kfree panics on anything else.
    - [VmTheorems]: mappages, uvmunmap, uvmalloc, uvmcopy, freewalk, copyin,
      copyout and copyinstr do exactly what their comments say to translations,
      user bytes, physical pages and the free list, on success and on failure,
      in terms of how the MMU reads the tables.
    - [Spinlock]: mutual exclusion, interrupts off while a lock is held, matching
      push_off and pop_off, and refinement of the atomic acquire and release.
      [SleepWakeup]: no wakeup is lost.  [ProcTheorems]: kill and wakeup.
    - [DiskTheorems]: the driver moves one block and restores its rings; the cache
      is a map of blocks; a transaction is atomic with respect to crashes at every
      switch, also crashes during recovery.
    - [FsTheorems]: readi delivers the bytes of the file, dirlookup is the
      directory's map, balloc and bfree keep the free map, iupdate writes what
      ilock reads, skipelem splits paths.  [FsUpdate]: writei, dirlink and itrunc
      change the file, the directory or the tree as they should and keep the
      invariants of the disk; namex follows a path through the tree; what writei
      wrote readi reads.
    - [ForkTheorems], [Wait]: fork gives the child a copy of the parent's memory,
      registers and files, or undoes everything; wait collects a dead child and
      gives back every page of it; fork and wait together restore the free list.
    - [MkfsTheorems]: the image mkfs builds satisfies the invariants the file
      system theorems start from, and holds the source files under their names.
    - [PipeTheorems]: a pipe is a bounded queue, also when its counters wrap.
    - [ConsoleSpec]: the serial interrupt edits and echoes every received byte as
      the line discipline says, and a read takes one line of the ready input.
    - [MmapTheorems]: sys_mmap keeps the areas disjoint and well placed; a page
      fault brings in the file's bytes; vma_unmap takes out exactly the pages
      that were there.
    - [UmallocTheorems]: malloc and free keep the ring of free blocks sorted and
      joined, lose no byte, give out disjoint blocks and leave their contents
      alone, for every program that uses its blocks properly.
    - [UserTheorems]: cat copies, wc counts, echo repeats and grep selects, for
      every way the kernel may cut the input, and they end; the matcher of grep
      agrees with the language of the pattern.
    - [Shell], [ShellRun]: the parser returns on every line and gives back every
      command that was printed; every process that runs a line ends, as a program
      of the command with exactly the descriptors the command prescribes, or with
      an exit.

    Theorems on one process against the rest of the kernel ([DiskTheorems],
    [FsTheorems], [MmapTheorems.vma_fault_correct]) rely, at a switch, on
    [seq_rely]: the device serves the request in its ring, its interrupt handler
    runs and wakes the process, and the process is resumed; no other process
    uses the disk, the cache or the log meanwhile.  [DiskWitness],
    [FsWitness], [FsUpdate], [MmapWitness], [VmWitness] and [UserTheorems] have
    machines on which the hypotheses of the theorems hold.  Four faults the
    model showed are proved as well: kill(0) marks a free slot as killed
    ([ProcTheorems]), sbrk into a mapped area panics ([MmapWitness]), mkfs leaves
    a hole in a root directory that fills whole blocks ([MkfsTheorems]), and
    malloc of 2 GB succeeds without memory ([UmallocTheorems]).

    ** Not modelled

    The assembly (entry.S, swtch.S, trampoline.S, kernelvec.S, initcode.S) is
    register saving and restoring; the switch and the trap entry of the model
    stand for its effect.  Weak memory: harts are sequentially consistent.  The
    name fields of locks, which only printf shows, and the feature negotiation of
    virtio_disk_init are not state.  ramdisk.c is not compiled.  The tests
    (usertests.c, grind.c, mmaptest.c) and the scripts exercise the system and are
    not part of it.  exec, exit, the trap handlers, consolewrite, procdump and
    most of sysfile.c are definitions without theorems of their own; so are ls, init and
    the smaller user programs.  The laws of the system calls that the theorems on
    user programs assume are not derived from the kernel's definitions: a kernel
    thread of the model runs against an arbitrary rest of the kernel, while a user
    program sees one call after another. *)

From Stdlib Require Export ZArith Lia.
From stdpp Require Export base numbers strings gmap.
From stdpp Require Export list.
Global Open Scope Z_scope.

(** ** Machine integers

    Integers of the C code are kept as [Z] with the wrap-around of their width
    written out where the source can overflow. *)
Definition wrap (w z : Z) : Z := z mod 2 ^ w.
Definition u8 (z : Z) : Z := wrap 8 z.
Definition u16 (z : Z) : Z := wrap 16 z.
Definition u32 (z : Z) : Z := wrap 32 z.
Definition u64 (z : Z) : Z := wrap 64 z.

(** Two's-complement reading of the low 32 bits (a C [int]). *)
Definition s32 (z : Z) : Z :=
  let x := u32 z in if x <? 2 ^ 31 then x else x - 2 ^ 32.

(** C truth of [x & f]. *)
Definition has (x f : Z) : bool := negb (Z.land x f =? 0).

Lemma wrap_small w z : 0 <= z < 2 ^ w -> wrap w z = z.
Proof. apply Z.mod_small. Qed.

Lemma wrap_range w z : 0 <= w -> 0 <= wrap w z < 2 ^ w.
Proof. intros. apply Z.mod_pos_bound. lia. Qed.

Lemma u64_small z : 0 <= z < 2 ^ 64 -> u64 z = z.
Proof. apply wrap_small. Qed.

Lemma u32_small z : 0 <= z < 2 ^ 32 -> u32 z = z.
Proof. apply wrap_small. Qed.

Lemma s32_small z : - 2 ^ 31 <= z < 2 ^ 31 -> s32 z = z.
Proof.
  intros H. unfold s32, u32, wrap. destruct (Z.ltb_spec (z mod 2 ^ 32) (2 ^ 31));
    (destruct (Z.lt_ge_cases z 0); [|rewrite Z.mod_small in *; lia]);
    rewrite <- (Z.mod_unique z (2 ^ 32) (-1) (z + 2 ^ 32)) in *; lia.
Qed.

Lemma u8_range z : 0 <= u8 z < 256.
Proof. apply (wrap_range 8). lia. Qed.

Lemma u8_idem z : u8 (u8 z) = u8 z.
Proof. apply wrap_small, (wrap_range 8). lia. Qed.

(** ** Lists updated by index *)
Lemma alter_alter {A} (f g : A -> A) i (l : list A) :
  alter f i (alter g i l) = alter (fun x => f (g x)) i l.
Proof.
  apply list_eq. intros j. destruct (decide (i = j)) as [<-|].
  - rewrite !list_lookup_alter_eq. by destruct (l !! i).
  - by rewrite !list_lookup_alter_ne.
Qed.

Lemma alter_ext_at {A} (f g : A -> A) i (l : list A) :
  (forall x, l !! i = Some x -> f x = g x) -> alter f i l = alter g i l.
Proof.
  intros H. apply list_eq. intros j. destruct (decide (i = j)) as [<-|].
  - rewrite !list_lookup_alter_eq. destruct (l !! i) as [x|] eqn:E; [|done]. simpl. f_equal. by apply H.
  - by rewrite !list_lookup_alter_ne.
Qed.

Lemma alter_insert {A} (f : A -> A) i (l : list A) x :
  l !! i = Some x -> alter f i l = <[i := f x]> l.
Proof.
  intros H. apply list_eq. intros j. destruct (decide (i = j)) as [<-|].
  - rewrite list_lookup_alter_eq, H, list_lookup_insert_eq; [done|]. by eapply lookup_lt_Some.
  - by rewrite list_lookup_alter_ne, list_lookup_insert_ne.
Qed.

(** ** The kernel-thread monad

    A kernel thread runs until it returns, panics, gives up the CPU through
    [swtch] (with the rest of the thread as the continuation that the scheduler
    resumes in some later state), or spins without end. *)
Inductive outcome (S A : Type) : Type :=
| Ret (a : A) (s : S)
| Panic (msg : string)
| Swtch (s : S) (k : S -> outcome S A)
| Hang.
Arguments Ret {S A} a s.
Arguments Panic {S A} msg.
Arguments Swtch {S A} s k.
Arguments Hang {S A}.

Definition K (S A : Type) : Type := S -> outcome S A.

Section Monad.
Context {S : Type}.

Fixpoint obind {A B : Type} (o : outcome S A) (f : A -> K S B) : outcome S B :=
  match o with
  | Ret a s => f a s
  | Panic m => Panic m
  | Swtch s k => Swtch s (fun s' => obind (k s') f)
  | Hang => Hang
  end.

Definition ret {A : Type} (a : A) : K S A := fun s => Ret a s.
Definition bind {A B : Type} (m : K S A) (f : A -> K S B) : K S B :=
  fun s => obind (m s) f.
Definition gets {A : Type} (f : S -> A) : K S A := fun s => Ret (f s) s.
Definition modify (f : S -> S) : K S unit := fun s => Ret tt (f s).
Definition panic {A : Type} (msg : string) : K S A := fun _ => Panic msg.
(** What the C standard leaves undefined (an array index out of bounds). *)
Definition ub {A : Type} : K S A := panic "undefined behaviour".
Definition hang {A : Type} : K S A := fun _ => Hang.
(** Switch to the scheduler; the thread goes on where it left off. *)
Definition swtch : K S unit := fun s => Swtch s (fun s' => Ret tt s').

Definition when (b : bool) (m : K S unit) : K S unit := if b then m else ret tt.

(** [loop body x]: run [body] from [x] until it answers [inr].  [iter2 n] runs
    at most [2^n] rounds; 64-bit loop variables cannot take more than [2^64]. *)
Fixpoint iter2 {A B : Type} (n : nat) (body : A -> K S (A + B)) (x : A) : K S (A + B) :=
  match n with
  | O => body x
  | Datatypes.S n' =>
      bind (iter2 n' body x)
        (fun r => match r with inl x' => iter2 n' body x' | inr b => ret (inr b) end)
  end.

Definition loop {A B : Type} (body : A -> K S (A + B)) (x : A) : K S B :=
  bind (iter2 64 body x)
    (fun r => match r with inl _ => hang | inr b => ret b end).

(** A [for] loop over a fixed table with early exit. *)
Fixpoint scan {A B : Type} (l : list A) (body : A -> K S (option B)) : K S (option B) :=
  match l with
  | [] => ret None
  | x :: l' =>
      bind (body x)
        (fun r => match r with Some b => ret (Some b) | None => scan l' body end)
  end.

(** A [for] loop over a fixed table without exit. *)
Fixpoint for_each {A : Type} (l : list A) (body : A -> K S unit) : K S unit :=
  match l with
  | [] => ret tt
  | x :: l' => bind (body x) (fun _ => for_each l' body)
  end.

(** ** Total-correctness weakest preconditions

    [wpc R C m Q s]: from [s] the thread returns, without panicking or spinning,
    in a state that satisfies [Q].  Each time it gives up the CPU, the rest of
    the system takes the state to one related by the rely [R], and [C] (what
    must survive a crash at that moment) holds before and after. *)
Section Wp.
Context {R : S -> S -> Prop} {C : S -> Prop}.

Fixpoint owpc {A : Type} (o : outcome S A) (Q : A -> S -> Prop) : Prop :=
  match o with
  | Ret a s => Q a s
  | Swtch s k => C s /\ forall s', R s s' -> C s' /\ owpc (k s') Q
  | Panic _ | Hang => False
  end.
Definition wpc {A : Type} (m : K S A) (Q : A -> S -> Prop) (s : S) : Prop := owpc (m s) Q.

Lemma wp_ret {A} (a : A) Q s : Q a s -> wpc (ret a) Q s.
Proof. done. Qed.

Lemma wp_gets {A} (f : S -> A) Q s : Q (f s) s -> wpc (gets f) Q s.
Proof. done. Qed.

Lemma wp_modify f Q s : Q tt (f s) -> wpc (modify f) Q s.
Proof. done. Qed.

Lemma wp_swtch Q s : C s -> (forall s', R s s' -> C s' /\ Q tt s') -> wpc swtch Q s.
Proof. done. Qed.

Lemma owpc_bind {A B} (o : outcome S A) (f : A -> K S B) Q :
  owpc o (fun a => wpc (f a) Q) -> owpc (obind o f) Q.
Proof.
  induction o as [a s|m|s k IH|]; simpl; try done.
  intros [HC Hk]. split; [done|]. intros s' HR. destruct (Hk s' HR). auto.
Qed.

Lemma wp_bind {A B} (m : K S A) (f : A -> K S B) Q s :
  wpc m (fun a => wpc (f a) Q) s -> wpc (bind m f) Q s.
Proof. apply owpc_bind. Qed.

Lemma owpc_mono {A} (o : outcome S A) (Q Q' : A -> S -> Prop) :
  owpc o Q -> (forall a s', Q a s' -> Q' a s') -> owpc o Q'.
Proof.
  intros Ho HQ. revert Ho. induction o as [a s|m|s k IH|]; simpl; auto.
  intros [HC Hk]. split; [done|]. intros s' HR. destruct (Hk s' HR). auto.
Qed.

Lemma wp_mono {A} (m : K S A) (Q Q' : A -> S -> Prop) s :
  wpc m Q s -> (forall a s', Q a s' -> Q' a s') -> wpc m Q' s.
Proof. apply owpc_mono. Qed.

Lemma wp_when (b : bool) m Q s :
  (b = true -> wpc m Q s) -> (b = false -> Q tt s) -> wpc (when b m) Q s.
Proof. intros. destruct b; [auto | apply wp_ret; auto]. Qed.

(** Loops: an invariant and a decreasing measure below [2^64]. *)
Section Loop.
Context {A B : Type}.
Variables (body : A -> K S (A + B)) (I : A -> S -> Prop) (mu : A -> S -> Z).
Variable Q : B -> S -> Prop.
Hypothesis Hbody : forall x s, I x s ->
  wpc (body x)
     (fun r s' => match r with
                  | inl x' => I x' s' /\ 0 <= mu x' s' < mu x s
                  | inr b => Q b s'
                  end) s.

Lemma wp_iter2 n x s :
  I x s ->
  wpc (iter2 n body x)
     (fun r s' => match r with
                  | inl x' => I x' s' /\ 0 <= mu x' s' <= mu x s - 2 ^ Z.of_nat n
                  | inr b => Q b s'
                  end) s.
Proof.
  revert x s. induction n as [|n IH]; intros x s HI; simpl iter2.
  - eapply wp_mono; [by apply Hbody|]. intros [x'|b] s'; [|done].
    intros [? ?]. split; [done|]. change (2 ^ Z.of_nat 0) with 1. lia.
  - apply wp_bind. eapply wp_mono; [by apply IH|]. intros [x'|b] s1; [|done].
    intros [HI' Hmu]. eapply wp_mono; [by apply IH|]. intros [x''|b] s2; [|done].
    intros [? ?]. split; [done|].
    rewrite Nat2Z.inj_succ, Z.pow_succ_r; lia.
Qed.

Lemma wp_loop x s : I x s -> mu x s < 2 ^ 64 -> wpc (loop body x) Q s.
Proof.
  intros HI Hmu. apply wp_bind. eapply wp_mono; [by apply wp_iter2|].
  intros [x'|b] s'; [|done]. intros [_ ?].
  change (2 ^ Z.of_nat 64) with (2 ^ 64) in *. lia.
Qed.
End Loop.

(** Table scans: [P l'] is what holds when [l'] is left to visit. *)
Lemma wp_scan {A B} (body : A -> K S (option B)) (P : list A -> S -> Prop) Q l s :
  P l s ->
  (forall x l' s', P (x :: l') s' ->
     wpc (body x) (fun r s'' => match r with
                               | Some b => Q (Some b) s''
                               | None => P l' s''
                               end) s') ->
  (forall s', P [] s' -> Q None s') ->
  wpc (scan l body) Q s.
Proof.
  intros HP Hstep Hend. revert s HP. induction l as [|x l IH]; intros s HP; simpl.
  - by apply Hend.
  - apply wp_bind. eapply wp_mono; [by apply Hstep|]. intros [b|] s'; [done|apply IH].
Qed.

Lemma wp_for_each {A} (body : A -> K S unit) (P : list A -> S -> Prop) Q l s :
  P l s ->
  (forall x l' s', P (x :: l') s' -> wpc (body x) (fun _ => P l') s') ->
  (forall s', P [] s' -> Q tt s') ->
  wpc (for_each l body) Q s.
Proof.
  intros HP Hstep Hend. revert s HP. induction l as [|x l IH]; intros s HP; simpl.
  - by apply Hend.
  - apply wp_bind. eapply wp_mono; [by apply Hstep|]. intros [] s'; apply IH.
Qed.

End Wp.

(** Runs that never give up the CPU need no rely. *)
Lemma wp_wpc R C {A} (m : K S A) Q s :
  @wpc (fun _ _ => False) (fun _ => False) A m Q s -> @wpc R C A m Q s.
Proof. unfold wpc. destruct (m s); simpl; tauto. Qed.

(** Weakening the crash condition. *)
Lemma wp_crash_mono R (C C' : S -> Prop) {A} (m : K S A) Q s :
  (forall s, C s -> C' s) -> @wpc R C A m Q s -> @wpc R C' A m Q s.
Proof.
  intros HC. unfold wpc. induction (m s) as [a s'|msg|s' k IH|]; simpl; try done.
  intros [H Hk]. split; [auto|]. intros s'' HR. destruct (Hk s'' HR). auto.
Qed.

(** What they say about a run. *)
Lemma wp_elim {A} (m : K S A) Q s :
  @wpc (fun _ _ => False) (fun _ => False) A m Q s -> exists a s', m s = Ret a s' /\ Q a s'.
Proof. unfold wpc. destruct (m s); simpl; [eauto | tauto..]. Qed.

End Monad.
#[global] Arguments owpc {S} R C {A} o Q.
#[global] Arguments wpc {S} R C {A} m Q s.

(** [wp]: the thread runs to its end on its own. *)
Abbreviation wp := (wpc (fun _ _ => False) (fun _ => False)).

Declare Scope k_scope.
Delimit Scope k_scope with K.
Notation "'let*' x := m 'in' k" := (bind m (fun x => k))
  (at level 10, x name, m at level 100, k at level 200,
   format "'let*'  x  :=  m  'in' '//' k") : k_scope.
Notation "'let*' ' p := m 'in' k" := (bind m (fun x => match x with p => k end))
  (at level 10, p pattern, m at level 100, k at level 200) : k_scope.
Notation "m ';;;' k" := (bind m (fun _ => k))
  (at level 199, right associativity, format "m ';;;' '//' k") : k_scope.
Global Open Scope k_scope.

(** One step of symbolic execution of a monadic program. *)
Ltac wp_step :=
  lazymatch goal with
  | |- wpc _ _ (bind _ _) _ _ => apply wp_bind
  | |- wpc _ _ (ret _) _ _ => apply wp_ret
  | |- wpc _ _ (gets _) _ _ => apply wp_gets
  | |- wpc _ _ (modify _) _ _ => apply wp_modify
  end; cbv beta.
Ltac wp_steps := repeat wp_step.

(** Linear arithmetic with division and remainder by constants. *)
Ltac zmod := Z.div_mod_to_equations; lia.
