(* ===== verification/Memory.v ===== *)
(** * Byte-addressed kernel memory and [kernel/string.c]

    Memory is a finite map from addresses to bytes; an address never written
    reads as 0.  Each function of string.c is the loop of the source over this
    memory; the theorems give the block-level meaning the rest of the kernel
    relies on. *)
From S2P Require Import Prelude.

Abbreviation mem := (gmap Z Z).

Implicit Types (m : mem) (a b d p q t x v c : Z).

(** ** Loads and stores *)
Definition ldb (m : mem) (a : Z) : Z := u8 (default 0 (m !! a)).
Definition stb (m : mem) (a v : Z) : mem := <[a := u8 v]> m.

(** [n] bytes from [a]. *)
Fixpoint bytes (m : mem) (a : Z) (n : nat) : list Z :=
  match n with O => [] | S n' => ldb m a :: bytes m (a + 1) n' end.

Fixpoint write_bytes (m : mem) (a : Z) (l : list Z) : mem :=
  match l with [] => m | v :: l' => write_bytes (stb m a v) (a + 1) l' end.

(** Little-endian encoding of a [n]-byte integer. *)
Fixpoint le_enc (n : nat) (v : Z) : list Z :=
  match n with O => [] | S n' => u8 v :: le_enc n' (v / 256) end.
Fixpoint le_dec (l : list Z) : Z :=
  match l with [] => 0 | b :: l' => u8 b + 256 * le_dec l' end.

Definition ld64 (m : mem) (a : Z) : Z := le_dec (bytes m a 8).
Definition st64 (m : mem) (a v : Z) : mem := write_bytes m a (le_enc 8 v).

(** ** string.c *)
Fixpoint memset (m : mem) (dst c : Z) (n : nat) : mem :=
  match n with O => m | S n' => memset (stb m dst c) (dst + 1) c n' end.

Fixpoint memcmp (m : mem) (s1 s2 : Z) (n : nat) : Z :=
  match n with
  | O => 0
  | S n' =>
      if negb (ldb m s1 =? ldb m s2) then ldb m s1 - ldb m s2
      else memcmp m (s1 + 1) (s2 + 1) n'
  end.

(** The two copy loops of memmove. *)
Fixpoint copy_fwd (m : mem) (d s : Z) (n : nat) : mem :=
  match n with O => m | S n' => copy_fwd (stb m d (ldb m s)) (d + 1) (s + 1) n' end.
Fixpoint copy_bwd (m : mem) (d s : Z) (n : nat) : mem :=
  match n with
  | O => m
  | S n' => copy_bwd (stb m (d - 1) (ldb m (s - 1))) (d - 1) (s - 1) n'
  end.

Definition memmove (m : mem) (dst src : Z) (n : nat) : mem :=
  match n with
  | O => m
  | _ =>
      if (src <? dst) && (dst <? src + Z.of_nat n)
      then copy_bwd m (dst + Z.of_nat n) (src + Z.of_nat n) n
      else copy_fwd m dst src n
  end.

Definition memcpy (m : mem) (dst src : Z) (n : nat) : mem := memmove m dst src n.

Fixpoint strncmp (m : mem) (p q : Z) (n : nat) : Z :=
  match n with
  | O => 0
  | S n' =>
      if negb (ldb m p =? 0) && (ldb m p =? ldb m q)
      then strncmp m (p + 1) (q + 1) n'
      else ldb m p - ldb m q
  end.

(** First loop of strncpy: copies up to and including the NUL; returns the
    memory, the next [s] and the number of bytes still to write. *)
Fixpoint strncpy_copy (m : mem) (s t : Z) (n : nat) : mem * Z * nat :=
  match n with
  | O => (m, s, O)
  | S n' =>
      let c := ldb m t in
      let m' := stb m s c in
      if negb (c =? 0) then strncpy_copy m' (s + 1) (t + 1) n' else (m', s + 1, n')
  end.

Fixpoint strncpy_pad (m : mem) (s : Z) (n : nat) : mem :=
  match n with O => m | S n' => strncpy_pad (stb m s 0) (s + 1) n' end.

Definition strncpy (m : mem) (s t : Z) (n : nat) : mem :=
  let '(m1, s1, n1) := strncpy_copy m s t n in strncpy_pad m1 s1 n1.

(** The loop of safestrcpy runs while [--n > 0]; [n] counts what is left. *)
Fixpoint safestrcpy_copy (m : mem) (s t : Z) (n : nat) : mem * Z :=
  match n with
  | O => (m, s)
  | S n' =>
      let c := ldb m t in
      let m' := stb m s c in
      if negb (c =? 0) then safestrcpy_copy m' (s + 1) (t + 1) n' else (m', s + 1)
  end.

Definition safestrcpy (m : mem) (s t n : Z) : mem :=
  if n <=? 0 then m
  else let '(m1, s1) := safestrcpy_copy m s t (Z.to_nat (n - 1)) in stb m1 s1 0.

Fixpoint strlen_from (fuel : nat) (m : mem) (s : Z) : option Z :=
  match fuel with
  | O => None
  | S f => if ldb m s =? 0 then Some 0 else (fun n => n + 1) <$> strlen_from f m (s + 1)
  end.

(** A byte that is not 0 is in the map, so the map's size bounds the string. *)
Definition strlen (m : mem) (s : Z) : option Z := strlen_from (S (size m)) m s.

#[global] Arguments ldb : simpl never.
#[global] Arguments stb : simpl never.
#[global] Arguments ld64 : simpl never.
#[global] Arguments st64 : simpl never.
#[global] Arguments memmove : simpl never.
#[global] Arguments strncpy : simpl never.

(** ** Laws of loads and stores *)
Lemma ldb_range m a : 0 <= ldb m a < 256.
Proof. apply u8_range. Qed.

Lemma ldb_stb m a v b : ldb (stb m a v) b = if b =? a then u8 v else ldb m b.
Proof.
  unfold ldb, stb. destruct (Z.eqb_spec b a) as [->|].
  - rewrite lookup_insert_eq. simpl. apply u8_idem.
  - by rewrite lookup_insert_ne.
Qed.

Lemma u8_ldb m a : u8 (ldb m a) = ldb m a.
Proof. apply u8_idem. Qed.

(** In-range test of block operations. *)
Definition inr_ (d n a : Z) : bool := (d <=? a) && (a <? d + n).

Ltac ranges :=
  repeat match goal with
  | |- context [inr_ ?d ?n ?a] => unfold inr_
  | H : context [inr_ ?d ?n ?a] |- _ => unfold inr_ in H
  | |- context [Z.leb ?x ?y] => destruct (Z.leb_spec x y)
  | |- context [Z.ltb ?x ?y] => destruct (Z.ltb_spec x y)
  | |- context [Z.eqb ?x ?y] => destruct (Z.eqb_spec x y)
  end; simpl; try lia; try done.

Lemma bytes_length m a n : length (bytes m a n) = n.
Proof. revert a. induction n; intros; simpl; auto. Qed.

Lemma bytes_lookup m a n i : (i < n)%nat -> bytes m a n !! i = Some (ldb m (a + Z.of_nat i)).
Proof.
  revert a i. induction n as [|n IH]; intros a i Hi; [lia|].
  destruct i as [|i]; simpl; [by rewrite Z.add_0_r|].
  rewrite IH by lia. do 2 f_equal. lia.
Qed.

Lemma bytes_ext m1 m2 a1 a2 n :
  (forall i, 0 <= i < Z.of_nat n -> ldb m1 (a1 + i) = ldb m2 (a2 + i)) ->
  bytes m1 a1 n = bytes m2 a2 n.
Proof.
  intros H. apply list_eq. intros i.
  destruct (decide (i < n)%nat) as [Hi|Hi].
  - rewrite !bytes_lookup by done. f_equal. apply H. lia.
  - rewrite !lookup_ge_None_2; [done | rewrite bytes_length; lia..].
Qed.

Lemma write_bytes_app a l l' : forall m, write_bytes (write_bytes m a l) (a + Z.of_nat (length l)) l' = write_bytes m a (l ++ l').
Proof.
  revert a. induction l as [|v l IH]; intros a m; cbn [write_bytes length app]; [by rewrite Z.add_0_r|].
  rewrite <- IH. f_equal. lia.
Qed.

Lemma ldb_write_bytes m a l b :
  ldb (write_bytes m a l) b =
  if inr_ a (Z.of_nat (length l)) b then u8 (default 0 (l !! Z.to_nat (b - a))) else ldb m b.
Proof.
  revert m a. induction l as [|v l IH]; intros m a; simpl.
  - ranges.
  - rewrite IH, ldb_stb. destruct (Z.eq_dec b a) as [->|Hne].
    + rewrite Z.eqb_refl, Z.sub_diag. ranges.
    + rewrite (proj2 (Z.eqb_neq b a)) by done. ranges; try done.
      replace (Z.to_nat (b - a)) with (S (Z.to_nat (b - (a + 1)))) by lia. done.
Qed.

Lemma le_enc_length n v : length (le_enc n v) = n.
Proof. revert v. induction n; intros; simpl; auto. Qed.

Lemma le_enc_bytes n v : Forall (fun b => 0 <= b < 256) (le_enc n v).
Proof. revert v. induction n; intros; simpl; constructor; auto using u8_range. Qed.

Lemma le_dec_enc n v : le_dec (le_enc n v) = v mod 256 ^ Z.of_nat n.
Proof.
  revert v. induction n as [|n IH]; intros v; [by rewrite Z.mod_1_r|].
  cbn [le_enc le_dec]. rewrite u8_idem, IH, Nat2Z.inj_succ, Z.pow_succ_r by lia.
  unfold u8, wrap. change (2 ^ 8) with 256.
  rewrite Z.rem_mul_r by lia. lia.
Qed.

Lemma le_dec_range l : 0 <= le_dec l < 256 ^ Z.of_nat (length l).
Proof.
  induction l as [|b l IH]; [simpl; lia|].
  cbn [le_dec length]. rewrite Nat2Z.inj_succ, Z.pow_succ_r by lia.
  pose proof (u8_range b). lia.
Qed.

(** Two memories that read alike. *)
Definition mem_eq (m1 m2 : mem) : Prop := forall a, ldb m1 a = ldb m2 a.

#[global] Instance mem_eq_equiv : Equivalence mem_eq.
Proof.
  split; unfold mem_eq; [done | by intros ??? ? | intros ??? H1 H2 a; by rewrite H1].
Qed.

#[global] Instance ldb_proper : Proper (mem_eq ==> eq ==> eq) ldb.
Proof. intros m1 m2 H a ? <-. apply H. Qed.

#[global] Instance bytes_proper : Proper (mem_eq ==> eq ==> eq ==> eq) bytes.
Proof. intros m1 m2 H a ? <- n ? <-. apply bytes_ext. intros. apply H. Qed.

#[global] Instance ld64_proper : Proper (mem_eq ==> eq ==> eq) ld64.
Proof. intros m1 m2 H a ? <-. unfold ld64. by rewrite H. Qed.

#[global] Instance stb_proper : Proper (mem_eq ==> eq ==> eq ==> mem_eq) stb.
Proof. intros m1 m2 H a ? <- v ? <- b. by rewrite !ldb_stb, H. Qed.

Lemma ld64_range m a : 0 <= ld64 m a < 2 ^ 64.
Proof. pose proof (le_dec_range (bytes m a 8)) as H. by rewrite bytes_length in H. Qed.

(** A word read depends on its eight bytes only. *)
Lemma ld64_ext m1 m2 a1 a2 :
  (forall i, 0 <= i < 8 -> ldb m1 (a1 + i) = ldb m2 (a2 + i)) -> ld64 m1 a1 = ld64 m2 a2.
Proof. intros H. unfold ld64. f_equal. by apply bytes_ext. Qed.

Lemma bytes_write_same m a l :
  Forall (fun b => 0 <= b < 256) l -> bytes (write_bytes m a l) a (length l) = l.
Proof.
  intros Hl. apply list_eq. intros i.
  destruct (decide (i < length l)%nat) as [Hi|Hi].
  - rewrite bytes_lookup by done. rewrite ldb_write_bytes.
    destruct (lookup_lt_is_Some_2 l i Hi) as [v Hv].
    rewrite Z.add_simpl_l, Nat2Z.id, Hv. ranges. f_equal.
    apply (wrap_small 8). by apply (Forall_lookup_1 _ _ _ _ Hl Hv).
  - rewrite !lookup_ge_None_2; [done | lia | rewrite bytes_length; lia].
Qed.

Lemma ldb_st64 m a v b : ~ (a <= b < a + 8) -> ldb (st64 m a v) b = ldb m b.
Proof. intros. unfold st64. rewrite ldb_write_bytes, le_enc_length. ranges. Qed.

Lemma ldb_st64_0 m a b : a <= b < a + 8 -> ldb (st64 m a 0) b = 0.
Proof.
  intros H. unfold st64. rewrite ldb_write_bytes. change (le_enc 8 0) with (replicate 8 0). rewrite length_replicate.
  rewrite lookup_replicate_2 by lia. ranges.
Qed.

Lemma ld64_st64_eq m a v : 0 <= v < 2 ^ 64 -> ld64 (st64 m a v) a = v.
Proof.
  intros Hv. unfold ld64, st64.
  replace 8%nat with (length (le_enc 8 v)) at 2 by apply le_enc_length.
  rewrite bytes_write_same by apply le_enc_bytes.
  rewrite le_dec_enc. by apply Z.mod_small.
Qed.

Lemma ld64_st64_ne m a v b : a + 8 <= b \/ b + 8 <= a -> ld64 (st64 m a v) b = ld64 m b.
Proof. intros. apply ld64_ext. intros. apply ldb_st64. lia. Qed.

(** ** Meaning of memset and memmove *)

(** The bytes of the block are set, every other byte is kept. *)
Lemma ldb_memset m d c n a :
  ldb (memset m d c n) a = if inr_ d (Z.of_nat n) a then u8 c else ldb m a.
Proof.
  revert m d. induction n as [|n IH]; intros; simpl memset; [ranges|].
  rewrite IH, ldb_stb. destruct (Z.eq_dec a d) as [->|].
  - rewrite Z.eqb_refl. ranges.
  - rewrite (proj2 (Z.eqb_neq a d)) by done. ranges; done.
Qed.

Lemma ld64_memset_in m d n a :
  d <= a -> a + 8 <= d + Z.of_nat n -> ld64 (memset m d 0 n) a = 0.
Proof.
  intros. transitivity (ld64 ∅ 0); [|done]. apply ld64_ext. intros i Hi.
  rewrite ldb_memset. ranges.
Qed.

Lemma ld64_memset_out m d c n a :
  a + 8 <= d \/ d + Z.of_nat n <= a -> ld64 (memset m d c n) a = ld64 m a.
Proof. intros. apply ld64_ext. intros i Hi. rewrite ldb_memset. ranges. Qed.

Lemma ldb_copy_fwd m d s n a :
  d <= s \/ s + Z.of_nat n <= d ->
  ldb (copy_fwd m d s n) a = if inr_ d (Z.of_nat n) a then ldb m (s + (a - d)) else ldb m a.
Proof.
  revert m d s. induction n as [|n IH]; intros m d s H; simpl copy_fwd; [ranges|].
  rewrite IH by lia. destruct (Z.eq_dec a d) as [->|].
  - rewrite !ldb_stb, Z.eqb_refl, u8_ldb. ranges; f_equal; lia.
  - rewrite !ldb_stb, (proj2 (Z.eqb_neq a d)) by done.
    destruct (Z.eqb_spec (s + 1 + (a - (d + 1))) d); ranges; f_equal; lia.
Qed.

Lemma ldb_copy_bwd m d s n a :
  s <= d \/ d + Z.of_nat n <= s ->
  ldb (copy_bwd m (d + Z.of_nat n) (s + Z.of_nat n) n) a =
  if inr_ d (Z.of_nat n) a then ldb m (s + (a - d)) else ldb m a.
Proof.
  revert m. induction n as [|n IH]; intros m H; cbn [copy_bwd]; [ranges|].
  replace (d + Z.of_nat (S n) - 1) with (d + Z.of_nat n) by lia.
  replace (s + Z.of_nat (S n) - 1) with (s + Z.of_nat n) by lia.
  rewrite IH by lia. destruct (Z.eq_dec a (d + Z.of_nat n)) as [->|].
  - rewrite !ldb_stb, Z.eqb_refl, u8_ldb. ranges; f_equal; lia.
  - rewrite !ldb_stb, (proj2 (Z.eqb_neq a _)) by done.
    destruct (Z.eqb_spec (s + (a - d)) (d + Z.of_nat n)); ranges; done.
Qed.

Lemma ldb_memmove m d s n a :
  ldb (memmove m d s n) a = if inr_ d (Z.of_nat n) a then ldb m (s + (a - d)) else ldb m a.
Proof.
  destruct n as [|n]; [simpl; ranges|]. unfold memmove.
  destruct (Z.ltb_spec s d), (Z.ltb_spec d (s + Z.of_nat (S n))); simpl andb; cbv iota;
    (apply ldb_copy_bwd || apply ldb_copy_fwd); lia.
Qed.

(** ** C strings *)

(** The string a buffer holds: its bytes up to the first NUL. *)
Fixpoint cut0 (l : list Z) : list Z :=
  match l with [] => [] | c :: l' => if c =? 0 then [] else c :: cut0 l' end.

Lemma cut0_length l : (length (cut0 l) <= length l)%nat.
Proof. induction l as [|c l IH]; simpl; [done|]. destruct (c =? 0); simpl; lia. Qed.

Lemma cut0_nonzero l : Forall (fun c => c <> 0) (cut0 l).
Proof.
  induction l as [|c l IH]; simpl; [done|]. destruct (Z.eqb_spec c 0); auto.
Qed.

Lemma cut0_app_zero l r : Forall (fun c => c <> 0) l -> cut0 (l ++ 0 :: r) = l.
Proof.
  induction 1 as [|c l Hc _ IH]; simpl; [done|].
  rewrite (proj2 (Z.eqb_neq c 0)) by done. by rewrite IH.
Qed.

Lemma strncmp_zero m p q n :
  strncmp m p q n = 0 <-> cut0 (bytes m p n) = cut0 (bytes m q n).
Proof.
  revert p q. induction n as [|n IH]; intros p q; [done|]. cbn [strncmp bytes cut0].
  destruct (Z.eqb_spec (ldb m p) 0) as [Hp|Hp]; cbn [negb andb].
  - rewrite Hp. destruct (Z.eqb_spec (ldb m q) 0); split; intros; try lia; done.
  - destruct (Z.eqb_spec (ldb m p) (ldb m q)) as [Heq|Hne].
    + rewrite IH, <- Heq, (proj2 (Z.eqb_neq _ 0)) by done. split; congruence.
    + destruct (Z.eqb_spec (ldb m q) 0); split; intros H; try lia; try done; congruence.
Qed.

Lemma ldb_strncpy_pad m s n a :
  ldb (strncpy_pad m s n) a = if inr_ s (Z.of_nat n) a then 0 else ldb m a.
Proof.
  revert m s. induction n as [|n IH]; intros; simpl strncpy_pad; [ranges|].
  rewrite IH, ldb_stb. destruct (Z.eqb_spec a s); ranges; done.
Qed.

Lemma ldb_strncpy m s t n a :
  s + Z.of_nat n <= t \/ t + Z.of_nat n <= s ->
  ldb (strncpy m s t n) a =
  if inr_ s (Z.of_nat n) a then default 0 (cut0 (bytes m t n) !! Z.to_nat (a - s)) else ldb m a.
Proof.
  revert m s t. induction n as [|n IH]; intros m s t Hd; [simpl; ranges|].
  unfold strncpy. cbn [strncpy_copy bytes cut0].
  destruct (Z.eqb_spec (ldb m t) 0) as [Hz|Hz]; cbn [negb].
  - rewrite ldb_strncpy_pad, ldb_stb, Hz, lookup_nil. simpl default.
    destruct (Z.eqb_spec a s); ranges; done.
  - fold (strncpy (stb m s (ldb m t)) (s + 1) (t + 1) n). rewrite IH by lia.
    rewrite ldb_stb, u8_ldb.
    replace (bytes (stb m s (ldb m t)) (t + 1) n) with (bytes m (t + 1) n).
    2: { apply bytes_ext. intros. rewrite ldb_stb. ranges. }
    destruct (Z.eqb_spec a s) as [->|]; [rewrite Z.sub_diag; ranges|].
    unfold inr_. destruct (Z.leb_spec s a), (Z.leb_spec (s + 1) a),
      (Z.ltb_spec a (s + 1 + Z.of_nat n)), (Z.ltb_spec a (s + Z.of_nat (S n)));
      simpl andb; cbv iota; try lia; try done.
    replace (Z.to_nat (a - s)) with (S (Z.to_nat (a - (s + 1)))) by lia. done.
Qed.

(** Reading the buffer back gives the string, NUL-padded. *)
Lemma bytes_strncpy m s t n :
  s + Z.of_nat n <= t \/ t + Z.of_nat n <= s ->
  bytes (strncpy m s t n) s n =
  let l := cut0 (bytes m t n) in l ++ replicate (n - length l) 0.
Proof.
  intros Hd. cbv zeta. set (l := cut0 (bytes m t n)).
  assert (Hl : (length l <= n)%nat) by (pose proof (cut0_length (bytes m t n)) as H; by rewrite bytes_length in H).
  apply list_eq. intros i. destruct (decide (i < n)%nat) as [Hi|Hi].
  - rewrite bytes_lookup, ldb_strncpy by done. fold l.
    replace (Z.to_nat (s + Z.of_nat i - s)) with i by lia.
    unfold inr_. ranges. destruct (decide (i < length l)%nat).
    + rewrite lookup_app_l by done. destruct (lookup_lt_is_Some_2 l i) as [v ->]; done.
    + rewrite lookup_app_r, lookup_replicate_2 by lia. by rewrite lookup_ge_None_2 by lia.
  - rewrite !lookup_ge_None_2; [done|..].
    + rewrite length_app, length_replicate. lia.
    + rewrite bytes_length. lia.
Qed.

Lemma cut0_pad l n : Forall (fun c => c <> 0) l -> cut0 (l ++ replicate n 0) = l.
Proof.
  intros Hl. destruct n as [|n]; [|by apply cut0_app_zero].
  rewrite app_nil_r. induction Hl as [|c l Hc _ IH]; simpl; [done|].
  rewrite (proj2 (Z.eqb_neq c 0)) by done. by rewrite IH.
Qed.

Lemma safestrcpy_copy_spec m s t n m' s' :
  s + Z.of_nat n < t \/ t + Z.of_nat n <= s ->
  safestrcpy_copy m s t n = (m', s') ->
  s <= s' <= s + Z.of_nat n /\
  cut0 (bytes (stb m' s' 0) s (S n)) = cut0 (bytes m t n) /\
  (forall a, ~ (s <= a < s + Z.of_nat n) -> ldb m' a = ldb m a).
Proof.
  revert m s t. induction n as [|n IH]; intros m s t Hd.
  - intros [= <- <-]. split; [lia|]. split; [|done]. simpl. by rewrite ldb_stb, Z.eqb_refl.
  - cbn [safestrcpy_copy]. destruct (Z.eqb_spec (ldb m t) 0) as [Hz|Hz]; cbn [negb].
    + intros [= <- <-]. split; [lia|]. split.
      * cbn [bytes cut0]. rewrite !ldb_stb, Hz, Z.eqb_refl.
        rewrite (proj2 (Z.eqb_neq s (s + 1))) by lia. done.
      * intros a Ha. rewrite ldb_stb. ranges.
    + intros H. apply IH in H as (Hs & Hc & Ho); [|lia]. split; [lia|]. split.
      * cbn [bytes cut0] in Hc |- *. 
        rewrite ldb_stb, (proj2 (Z.eqb_neq s s')) by lia.
        rewrite Ho, ldb_stb, Z.eqb_refl, u8_ldb by lia.
        rewrite (proj2 (Z.eqb_neq (ldb m t) 0)) by done. f_equal.
        etransitivity; [exact Hc|]. f_equal. apply bytes_ext. intros.
        rewrite ldb_stb. ranges.
      * intros a Ha. rewrite Ho by lia. rewrite ldb_stb. ranges.
Qed.

(** [cstr m a l]: the NUL-terminated string [l] is at [a]. *)
Definition cstr (m : mem) (a : Z) (l : list Z) : Prop :=
  bytes m a (length l) = l /\ Forall (fun c => c <> 0) l /\ ldb m (a + Z.of_nat (length l)) = 0.

Lemma cstr_cons m a c l : cstr m a (c :: l) <-> ldb m a = c /\ c <> 0 /\ cstr m (a + 1) l.
Proof.
  unfold cstr. cbn [length bytes]. rewrite Forall_cons.
  replace (a + 1 + Z.of_nat (length l)) with (a + Z.of_nat (S (length l))) by lia.
  split; [intros ([= ? ?] & [? ?] & ?); auto|].
  intros (<- & ? & Hb & ? & ?). by rewrite Hb.
Qed.

Lemma strlen_from_cstr m a l fuel :
  cstr m a l -> (length l < fuel)%nat -> strlen_from fuel m a = Some (Z.of_nat (length l)).
Proof.
  revert a fuel. induction l as [|c l IH]; intros a [|fuel] Hc Hf; simpl in Hf; try lia.
  - destruct Hc as (_ & _ & H). simpl in H. rewrite Z.add_0_r in H. simpl. by rewrite H.
  - apply cstr_cons in Hc as (Hc & Hnz & Hl). cbn [strlen_from].
    rewrite Hc, (proj2 (Z.eqb_neq c 0)) by done. rewrite (IH (a + 1) fuel) by (done || lia). simpl. f_equal. lia.
Qed.

(** The bytes of a string are distinct keys of the memory map. *)
Lemma cstr_size m a l : cstr m a l -> (length l <= size m)%nat.
Proof.
  intros Hc.
  assert (Hsub : list_to_set (map (fun i => a + Z.of_nat i) (seq 0 (length l))) ⊆ dom m).
  { intros x Hx. apply elem_of_list_to_set, list_elem_of_In, in_map_iff in Hx as (i & <- & Hi).
    apply in_seq in Hi. apply elem_of_dom. destruct (m !! (a + Z.of_nat i)) eqn:E; [done|].
    destruct Hc as (Hb & Hnz & _). exfalso.
    assert (Hl : l !! i = Some (ldb m (a + Z.of_nat i)))
      by (rewrite <- Hb at 1; apply bytes_lookup; lia).
    apply (Forall_lookup_1 _ _ _ _ Hnz Hl). unfold ldb. by rewrite E. }
  apply subseteq_size in Hsub. rewrite size_dom in Hsub.
  rewrite size_list_to_set in Hsub.
  - by rewrite length_map, length_seq in Hsub.
  - apply NoDup_ListNoDup, Finite.Injective_map_NoDup; [intros ???; lia | apply seq_NoDup].
Qed.

(** ** Properties of string.c *)

(** Memmove copies the source block as it was before the call, whichever
    way the two blocks overlap, and writes no byte outside the destination. *)
Theorem memmove_correct m dst src n :
  bytes (memmove m dst src n) dst n = bytes m src n /\
  forall a, ~ (dst <= a < dst + Z.of_nat n) -> ldb (memmove m dst src n) a = ldb m a.
Proof.
  split; [apply bytes_ext | intros a Ha]; intros; rewrite ldb_memmove; ranges; f_equal; lia.
Qed.

(** A name stored with strncpy (as dirlink stores a directory entry's name)
    compares equal under strncmp with the name it was copied from (as dirlookup
    compares them), for every n and whatever follows the strings, and a third
    string matches the stored name exactly when it matches the original. *)
Theorem strncpy_strncmp_roundtrip m s t n q :
  s + Z.of_nat n <= t \/ t + Z.of_nat n <= s ->
  s + Z.of_nat n <= q \/ q + Z.of_nat n <= s ->
  strncmp (strncpy m s t n) t s n = 0 /\
  (strncmp (strncpy m s t n) q s n = 0 <-> strncmp m q t n = 0).
Proof.
  intros Ht Hq.
  assert (Hs : cut0 (bytes (strncpy m s t n) s n) = cut0 (bytes m t n))
    by (rewrite bytes_strncpy by done; apply cut0_pad, cut0_nonzero).
  assert (Hother : forall p, s + Z.of_nat n <= p \/ p + Z.of_nat n <= s ->
                   bytes (strncpy m s t n) p n = bytes m p n).
  { intros p Hp. apply bytes_ext. intros i Hi. rewrite ldb_strncpy by done. ranges. }
  by rewrite !strncmp_zero, Hs, !Hother.
Qed.

Definition strncpy_example : mem := write_bytes ∅ 100 [97; 98; 0; 99].
Lemma strncpy_strncmp_roundtrip_witness :
  strncmp (strncpy strncpy_example 200 100 14) 100 200 14 = 0 /\
  (strncmp (strncpy strncpy_example 200 100 14) 150 200 14 = 0 <->
   strncmp strncpy_example 150 100 14 = 0).
Proof. apply strncpy_strncmp_roundtrip; simpl; lia. Defined.

(** Safestrcpy leaves a NUL-terminated string in the destination, which is
    the source truncated to n-1 bytes, and writes no byte outside the n bytes
    of the destination. *)
Theorem safestrcpy_correct m s t n :
  0 < n -> s + n <= t \/ t + n <= s ->
  cut0 (bytes (safestrcpy m s t n) s (Z.to_nat n)) = cut0 (bytes m t (Z.to_nat (n - 1))) /\
  (exists i, 0 <= i < n /\ ldb (safestrcpy m s t n) (s + i) = 0) /\
  forall a, ~ (s <= a < s + n) -> ldb (safestrcpy m s t n) a = ldb m a.
Proof.
  intros Hn Hd. unfold safestrcpy. rewrite (proj2 (Z.leb_gt n 0)) by done.
  destruct (safestrcpy_copy _ _ _ _) as [m' s'] eqn:E.
  apply safestrcpy_copy_spec in E as (Hs & Hc & Ho); [|lia].
  replace (S (Z.to_nat (n - 1))) with (Z.to_nat n) in Hc by lia.
  split; [done|]. split.
  - exists (s' - s). split; [lia|]. rewrite ldb_stb. ranges.
  - intros a Ha. rewrite ldb_stb. ranges. apply Ho. lia.
Qed.

Lemma safestrcpy_correct_witness :
  cut0 (bytes (safestrcpy strncpy_example 200 100 2) 200 2) = [97].
Proof.
  destruct (safestrcpy_correct strncpy_example 200 100 2) as [H _]; [lia | lia |].
  etransitivity; [exact H | reflexivity].
Defined.

(** Every NUL-terminated string has its length computed: the loop of strlen ends. *)
Lemma strlen_cstr m a l : cstr m a l -> strlen m a = Some (Z.of_nat (length l)).
Proof. intros H. apply strlen_from_cstr; [done|]. apply cstr_size in H. lia. Qed.

(** Other files reason with the laws above. *)
#[global] Opaque ldb stb ld64 st64 bytes write_bytes memset memmove strncpy strncmp safestrcpy.
