(* ===== verification/State.v ===== *)
(** * Kernel data structures and global state

    The structs of the kernel's headers (proc.h, file.h, buf.h, fs.h,
    sleeplock.h, pipe.c, log.c, bio.c) as records, the globals of the kernel as
    one record [kstate], and the thread-level view of spinlocks.  A pointer to
    an element of a static table ([proc], [ftable.file], [itable.inode],
    [bcache.buf]) is its index; a pointer into physical memory is an address. *)
From S2P Require Import Prelude Memory.

(** ** param.h, riscv.h, memlayout.h, fs.h *)
Definition NPROC : nat := 64.
Definition NCPU : nat := 8.
Definition NOFILE : nat := 16.
Definition NFILE : nat := 100.
Definition NINODE : nat := 50.
Definition NDEV : Z := 10.
Definition ROOTDEV : Z := 1.
Definition MAXARG : nat := 32.
Definition MAXOPBLOCKS : Z := 10.
Definition LOGSIZE : Z := MAXOPBLOCKS * 3.
Definition NBUF : nat := 30.
Definition FSSIZE : Z := 1000.
Definition MAXPATH : nat := 128.
Definition NVMA : nat := 16.

Definition PGSIZE : Z := 4096.
Definition PGROUNDUP (sz : Z) : Z := Z.land (u64 (sz + PGSIZE - 1)) (Z.lnot (PGSIZE - 1)).
Definition PGROUNDDOWN (a : Z) : Z := Z.land a (Z.lnot (PGSIZE - 1)).
Definition PTE_V : Z := 1.
Definition PTE_R : Z := 2.
Definition PTE_W : Z := 4.
Definition PTE_X : Z := 8.
Definition PTE_U : Z := 16.
Definition PA2PTE (pa : Z) : Z := u64 (Z.shiftl (Z.shiftr pa 12) 10).
Definition PTE2PA (pte : Z) : Z := u64 (Z.shiftl (Z.shiftr pte 10) 12).
Definition PTE_FLAGS (pte : Z) : Z := Z.land pte 0x3FF.
Definition PXSHIFT (level : Z) : Z := 12 + 9 * level.
Definition PX (level va : Z) : Z := Z.land (Z.shiftr va (PXSHIFT level)) 0x1FF.
Definition MAXVA : Z := 2 ^ 38.

Definition KERNBASE : Z := 0x80000000.
Definition PHYSTOP : Z := KERNBASE + 128 * 1024 * 1024.
Definition TRAMPOLINE : Z := MAXVA - PGSIZE.
Definition KSTACK (p : Z) : Z := TRAMPOLINE - (p + 1) * 2 * PGSIZE.
Definition TRAPFRAME : Z := TRAMPOLINE - PGSIZE.

Definition UART0 : Z := 0x10000000.
Definition UART0_IRQ : Z := 10.
Definition VIRTIO0 : Z := 0x10001000.
Definition VIRTIO0_IRQ : Z := 1.
Definition PLIC : Z := 0x0c000000.

Definition BSIZE : Z := 1024.
Definition PIPESIZE : Z := 512.

(** Addresses the linker fixes: the end of the kernel image, the end of its
    text, the trampoline page with its two entry points, and the functions
    whose address the code stores. *)
Class KernelImage := {
  kend : Z;
  etext : Z;
  trampoline : Z;
  uservec : Z;
  userret : Z;
  a_forkret : Z;
  a_usertrap : Z;
  a_kernelvec : Z
}.

(** What kernel.ld guarantees of them: the image lies in RAM, the text and the
    trampoline page inside it, on page boundaries. *)
Class KernelImageOk `{KernelImage} : Prop := {
  kend_range : KERNBASE < kend <= PHYSTOP;
  etext_range : KERNBASE < etext <= kend;
  etext_aligned : etext mod PGSIZE = 0;
  trampoline_range : KERNBASE <= trampoline < etext;
  trampoline_aligned : trampoline mod PGSIZE = 0
}.

(** ** Locks and sleep channels *)
Inductive lockid :=
| L_kmem | L_pid | L_wait | L_proc (i : nat) | L_bcache | L_log | L_itable
| L_ftable | L_tick | L_cons | L_uart | L_vdisk | L_pr | L_pipe (pi : Z)
| L_buf (i : nat) | L_inode (i : nat).
#[global] Instance lockid_eq_dec : EqDecision lockid.
Proof. solve_decision. Defined.

Inductive channel :=
| Ch_zero | Ch_proc (i : nat) | Ch_log | Ch_ticks | Ch_pipe_nread (pi : Z)
| Ch_pipe_nwrite (pi : Z) | Ch_buflock (i : nat) | Ch_inodelock (i : nat)
| Ch_cons_r | Ch_uart_tx_r | Ch_disk_free | Ch_buf (i : nat).
#[global] Instance channel_eq_dec : EqDecision channel.
Proof. solve_decision. Defined.

(** [zblock] is a block of zeros. *)
Abbreviation block := (list Z).
Definition zblock : block := replicate 1024 0.

(** sleeplock.h; the inner spinlock is named by [lockid]. *)
#[projections(primitive)]
Record sleeplock := mkSleeplock {
  sl_locked : bool; sl_pid : Z
}.
Definition set_sl_locked (x : bool) (r : sleeplock) : sleeplock := mkSleeplock x (sl_pid r).
Definition set_sl_pid (x : Z) (r : sleeplock) : sleeplock := mkSleeplock (sl_locked r) x.

(** ** proc.h *)
Inductive procstate := UNUSED | USED | SLEEPING | RUNNABLE | RUNNING | ZOMBIE.
#[global] Instance procstate_eq_dec : EqDecision procstate.
Proof. solve_decision. Defined.

(** struct context; the callee-saved registers s0 to s11 as a list. *)
#[projections(primitive)]
Record context := mkContext {
  c_ra : Z; c_sp : Z; c_saved : list Z
}.
Definition set_c_ra (x : Z) (r : context) : context := mkContext x (c_sp r) (c_saved r).
Definition set_c_sp (x : Z) (r : context) : context := mkContext (c_ra r) x (c_saved r).
Definition set_c_saved (x : list Z) (r : context) : context := mkContext (c_ra r) (c_sp r) x.

(** struct vma. *)
#[projections(primitive)]
Record vma := mkVma {
  v_used : bool; v_addr : Z; v_length : Z; v_prot : Z; v_flags : Z; v_file : option nat;
  v_offset : Z
}.
Definition set_v_used (x : bool) (r : vma) : vma := mkVma x (v_addr r) (v_length r) (v_prot r)
  (v_flags r) (v_file r) (v_offset r).
Definition set_v_addr (x : Z) (r : vma) : vma := mkVma (v_used r) x (v_length r) (v_prot r)
  (v_flags r) (v_file r) (v_offset r).
Definition set_v_length (x : Z) (r : vma) : vma := mkVma (v_used r) (v_addr r) x (v_prot r)
  (v_flags r) (v_file r) (v_offset r).
Definition set_v_prot (x : Z) (r : vma) : vma := mkVma (v_used r) (v_addr r) (v_length r) x
  (v_flags r) (v_file r) (v_offset r).
Definition set_v_flags (x : Z) (r : vma) : vma := mkVma (v_used r) (v_addr r) (v_length r)
  (v_prot r) x (v_file r) (v_offset r).
Definition set_v_file (x : option nat) (r : vma) : vma := mkVma (v_used r) (v_addr r)
  (v_length r) (v_prot r) (v_flags r) x (v_offset r).
Definition set_v_offset (x : Z) (r : vma) : vma := mkVma (v_used r) (v_addr r) (v_length r)
  (v_prot r) (v_flags r) (v_file r) x.
Definition vma0 : vma := mkVma false 0 0 0 0 None 0.

(** struct proc; the lock is named by [lockid], the trapframe lives in
    physical memory. *)
#[projections(primitive)]
Record proc := mkProc {
  p_state : procstate; p_chan : channel; p_killed : bool; p_xstate : Z; p_pid : Z;
  p_parent : option nat; p_kstack : Z; p_sz : Z; p_pagetable : Z; p_trapframe : Z;
  p_context : context; p_ofile : list (option nat); p_vmas : list vma; p_cwd : option nat;
  p_name : list Z
}.
Definition set_p_state (x : procstate) (r : proc) : proc := mkProc x (p_chan r) (p_killed r)
  (p_xstate r) (p_pid r) (p_parent r) (p_kstack r) (p_sz r) (p_pagetable r) (p_trapframe r)
  (p_context r) (p_ofile r) (p_vmas r) (p_cwd r) (p_name r).
Definition set_p_chan (x : channel) (r : proc) : proc := mkProc (p_state r) x (p_killed r)
  (p_xstate r) (p_pid r) (p_parent r) (p_kstack r) (p_sz r) (p_pagetable r) (p_trapframe r)
  (p_context r) (p_ofile r) (p_vmas r) (p_cwd r) (p_name r).
Definition set_p_killed (x : bool) (r : proc) : proc := mkProc (p_state r) (p_chan r) x
  (p_xstate r) (p_pid r) (p_parent r) (p_kstack r) (p_sz r) (p_pagetable r) (p_trapframe r)
  (p_context r) (p_ofile r) (p_vmas r) (p_cwd r) (p_name r).
Definition set_p_xstate (x : Z) (r : proc) : proc := mkProc (p_state r) (p_chan r) (p_killed r)
  x (p_pid r) (p_parent r) (p_kstack r) (p_sz r) (p_pagetable r) (p_trapframe r) (p_context r)
  (p_ofile r) (p_vmas r) (p_cwd r) (p_name r).
Definition set_p_pid (x : Z) (r : proc) : proc := mkProc (p_state r) (p_chan r) (p_killed r)
  (p_xstate r) x (p_parent r) (p_kstack r) (p_sz r) (p_pagetable r) (p_trapframe r)
  (p_context r) (p_ofile r) (p_vmas r) (p_cwd r) (p_name r).
Definition set_p_parent (x : option nat) (r : proc) : proc := mkProc (p_state r) (p_chan r)
  (p_killed r) (p_xstate r) (p_pid r) x (p_kstack r) (p_sz r) (p_pagetable r) (p_trapframe r)
  (p_context r) (p_ofile r) (p_vmas r) (p_cwd r) (p_name r).
Definition set_p_kstack (x : Z) (r : proc) : proc := mkProc (p_state r) (p_chan r) (p_killed r)
  (p_xstate r) (p_pid r) (p_parent r) x (p_sz r) (p_pagetable r) (p_trapframe r) (p_context r)
  (p_ofile r) (p_vmas r) (p_cwd r) (p_name r).
Definition set_p_sz (x : Z) (r : proc) : proc := mkProc (p_state r) (p_chan r) (p_killed r)
  (p_xstate r) (p_pid r) (p_parent r) (p_kstack r) x (p_pagetable r) (p_trapframe r)
  (p_context r) (p_ofile r) (p_vmas r) (p_cwd r) (p_name r).
Definition set_p_pagetable (x : Z) (r : proc) : proc := mkProc (p_state r) (p_chan r)
  (p_killed r) (p_xstate r) (p_pid r) (p_parent r) (p_kstack r) (p_sz r) x (p_trapframe r)
  (p_context r) (p_ofile r) (p_vmas r) (p_cwd r) (p_name r).
Definition set_p_trapframe (x : Z) (r : proc) : proc := mkProc (p_state r) (p_chan r)
  (p_killed r) (p_xstate r) (p_pid r) (p_parent r) (p_kstack r) (p_sz r) (p_pagetable r) x
  (p_context r) (p_ofile r) (p_vmas r) (p_cwd r) (p_name r).
Definition set_p_context (x : context) (r : proc) : proc := mkProc (p_state r) (p_chan r)
  (p_killed r) (p_xstate r) (p_pid r) (p_parent r) (p_kstack r) (p_sz r) (p_pagetable r)
  (p_trapframe r) x (p_ofile r) (p_vmas r) (p_cwd r) (p_name r).
Definition set_p_ofile (x : list (option nat)) (r : proc) : proc := mkProc (p_state r)
  (p_chan r) (p_killed r) (p_xstate r) (p_pid r) (p_parent r) (p_kstack r) (p_sz r)
  (p_pagetable r) (p_trapframe r) (p_context r) x (p_vmas r) (p_cwd r) (p_name r).
Definition set_p_vmas (x : list vma) (r : proc) : proc := mkProc (p_state r) (p_chan r)
  (p_killed r) (p_xstate r) (p_pid r) (p_parent r) (p_kstack r) (p_sz r) (p_pagetable r)
  (p_trapframe r) (p_context r) (p_ofile r) x (p_cwd r) (p_name r).
Definition set_p_cwd (x : option nat) (r : proc) : proc := mkProc (p_state r) (p_chan r)
  (p_killed r) (p_xstate r) (p_pid r) (p_parent r) (p_kstack r) (p_sz r) (p_pagetable r)
  (p_trapframe r) (p_context r) (p_ofile r) (p_vmas r) x (p_name r).
Definition set_p_name (x : list Z) (r : proc) : proc := mkProc (p_state r) (p_chan r)
  (p_killed r) (p_xstate r) (p_pid r) (p_parent r) (p_kstack r) (p_sz r) (p_pagetable r)
  (p_trapframe r) (p_context r) (p_ofile r) (p_vmas r) (p_cwd r) x.

(** ** file.h, pipe.c *)
Inductive filetype := FD_NONE | FD_PIPE | FD_INODE | FD_DEVICE.
#[global] Instance filetype_eq_dec : EqDecision filetype.
Proof. solve_decision. Defined.

(** struct file. *)
#[projections(primitive)]
Record file := mkFile {
  f_type : filetype; f_ref : Z; f_readable : bool; f_writable : bool; f_pipe : Z; f_ip :
  option nat; f_off : Z; f_major : Z
}.
Definition set_f_type (x : filetype) (r : file) : file := mkFile x (f_ref r) (f_readable r)
  (f_writable r) (f_pipe r) (f_ip r) (f_off r) (f_major r).
Definition set_f_ref (x : Z) (r : file) : file := mkFile (f_type r) x (f_readable r)
  (f_writable r) (f_pipe r) (f_ip r) (f_off r) (f_major r).
Definition set_f_readable (x : bool) (r : file) : file := mkFile (f_type r) (f_ref r) x
  (f_writable r) (f_pipe r) (f_ip r) (f_off r) (f_major r).
Definition set_f_writable (x : bool) (r : file) : file := mkFile (f_type r) (f_ref r)
  (f_readable r) x (f_pipe r) (f_ip r) (f_off r) (f_major r).
Definition set_f_pipe (x : Z) (r : file) : file := mkFile (f_type r) (f_ref r) (f_readable r)
  (f_writable r) x (f_ip r) (f_off r) (f_major r).
Definition set_f_ip (x : option nat) (r : file) : file := mkFile (f_type r) (f_ref r)
  (f_readable r) (f_writable r) (f_pipe r) x (f_off r) (f_major r).
Definition set_f_off (x : Z) (r : file) : file := mkFile (f_type r) (f_ref r) (f_readable r)
  (f_writable r) (f_pipe r) (f_ip r) x (f_major r).
Definition set_f_major (x : Z) (r : file) : file := mkFile (f_type r) (f_ref r) (f_readable r)
  (f_writable r) (f_pipe r) (f_ip r) (f_off r) x.

(** struct pipe. *)
#[projections(primitive)]
Record pipe := mkPipe {
  pi_data : list Z; pi_nread : Z; pi_nwrite : Z; pi_readopen : bool; pi_writeopen : bool
}.
Definition set_pi_data (x : list Z) (r : pipe) : pipe := mkPipe x (pi_nread r) (pi_nwrite r)
  (pi_readopen r) (pi_writeopen r).
Definition set_pi_nread (x : Z) (r : pipe) : pipe := mkPipe (pi_data r) x (pi_nwrite r)
  (pi_readopen r) (pi_writeopen r).
Definition set_pi_nwrite (x : Z) (r : pipe) : pipe := mkPipe (pi_data r) (pi_nread r) x
  (pi_readopen r) (pi_writeopen r).
Definition set_pi_readopen (x : bool) (r : pipe) : pipe := mkPipe (pi_data r) (pi_nread r)
  (pi_nwrite r) x (pi_writeopen r).
Definition set_pi_writeopen (x : bool) (r : pipe) : pipe := mkPipe (pi_data r) (pi_nread r)
  (pi_nwrite r) (pi_readopen r) x.

(** What a slot of devsw points to. *)
Inductive devfn := Dev_none | Dev_console.
(** struct devsw. *)
#[projections(primitive)]
Record devsw := mkDevsw {
  dv_read : devfn; dv_write : devfn
}.
Definition set_dv_read (x : devfn) (r : devsw) : devsw := mkDevsw x (dv_write r).
Definition set_dv_write (x : devfn) (r : devsw) : devsw := mkDevsw (dv_read r) x.

(** ** buf.h, bio.c, log.c, fs.h *)
(** struct buf, without the list links. *)
#[projections(primitive)]
Record buf := mkBuf {
  b_valid : bool; b_disk : bool; b_dev : Z; b_blockno : Z; b_lock : sleeplock; b_refcnt :
  Z; b_data : block
}.
Definition set_b_valid (x : bool) (r : buf) : buf := mkBuf x (b_disk r) (b_dev r) (b_blockno r)
  (b_lock r) (b_refcnt r) (b_data r).
Definition set_b_disk (x : bool) (r : buf) : buf := mkBuf (b_valid r) x (b_dev r) (b_blockno r)
  (b_lock r) (b_refcnt r) (b_data r).
Definition set_b_dev (x : Z) (r : buf) : buf := mkBuf (b_valid r) (b_disk r) x (b_blockno r)
  (b_lock r) (b_refcnt r) (b_data r).
Definition set_b_blockno (x : Z) (r : buf) : buf := mkBuf (b_valid r) (b_disk r) (b_dev r) x
  (b_lock r) (b_refcnt r) (b_data r).
Definition set_b_lock (x : sleeplock) (r : buf) : buf := mkBuf (b_valid r) (b_disk r) (b_dev r)
  (b_blockno r) x (b_refcnt r) (b_data r).
Definition set_b_refcnt (x : Z) (r : buf) : buf := mkBuf (b_valid r) (b_disk r) (b_dev r)
  (b_blockno r) (b_lock r) x (b_data r).
Definition set_b_data (x : block) (r : buf) : buf := mkBuf (b_valid r) (b_disk r) (b_dev r)
  (b_blockno r) (b_lock r) (b_refcnt r) x.

(** The buffers and the list threaded through prev/next from [head.next] (most
    recently used) to [head.prev]. *)
#[projections(primitive)]
Record bcache := mkBcache {
  bc_buf : list buf; bc_lru : list nat
}.
Definition set_bc_buf (x : list buf) (r : bcache) : bcache := mkBcache x (bc_lru r).
Definition set_bc_lru (x : list nat) (r : bcache) : bcache := mkBcache (bc_buf r) x.

(** struct log with its logheader. *)
#[projections(primitive)]
Record log := mkLog {
  lg_start : Z; lg_size : Z; lg_outstanding : Z; lg_committing : bool; lg_dev : Z; lh_n :
  Z; lh_block : list Z
}.
Definition set_lg_start (x : Z) (r : log) : log := mkLog x (lg_size r) (lg_outstanding r)
  (lg_committing r) (lg_dev r) (lh_n r) (lh_block r).
Definition set_lg_size (x : Z) (r : log) : log := mkLog (lg_start r) x (lg_outstanding r)
  (lg_committing r) (lg_dev r) (lh_n r) (lh_block r).
Definition set_lg_outstanding (x : Z) (r : log) : log := mkLog (lg_start r) (lg_size r) x
  (lg_committing r) (lg_dev r) (lh_n r) (lh_block r).
Definition set_lg_committing (x : bool) (r : log) : log := mkLog (lg_start r) (lg_size r)
  (lg_outstanding r) x (lg_dev r) (lh_n r) (lh_block r).
Definition set_lg_dev (x : Z) (r : log) : log := mkLog (lg_start r) (lg_size r)
  (lg_outstanding r) (lg_committing r) x (lh_n r) (lh_block r).
Definition set_lh_n (x : Z) (r : log) : log := mkLog (lg_start r) (lg_size r) (lg_outstanding r)
  (lg_committing r) (lg_dev r) x (lh_block r).
Definition set_lh_block (x : list Z) (r : log) : log := mkLog (lg_start r) (lg_size r)
  (lg_outstanding r) (lg_committing r) (lg_dev r) (lh_n r) x.

(** struct superblock. *)
#[projections(primitive)]
Record superblock := mkSb {
  sb_magic : Z; sb_size : Z; sb_nblocks : Z; sb_ninodes : Z; sb_nlog : Z; sb_logstart : Z;
  sb_inodestart : Z; sb_bmapstart : Z
}.
Definition set_sb_magic (x : Z) (r : superblock) : superblock := mkSb x (sb_size r)
  (sb_nblocks r) (sb_ninodes r) (sb_nlog r) (sb_logstart r) (sb_inodestart r) (sb_bmapstart r).
Definition set_sb_size (x : Z) (r : superblock) : superblock := mkSb (sb_magic r) x
  (sb_nblocks r) (sb_ninodes r) (sb_nlog r) (sb_logstart r) (sb_inodestart r) (sb_bmapstart r).
Definition set_sb_nblocks (x : Z) (r : superblock) : superblock := mkSb (sb_magic r) (sb_size r)
  x (sb_ninodes r) (sb_nlog r) (sb_logstart r) (sb_inodestart r) (sb_bmapstart r).
Definition set_sb_ninodes (x : Z) (r : superblock) : superblock := mkSb (sb_magic r) (sb_size r)
  (sb_nblocks r) x (sb_nlog r) (sb_logstart r) (sb_inodestart r) (sb_bmapstart r).
Definition set_sb_nlog (x : Z) (r : superblock) : superblock := mkSb (sb_magic r) (sb_size r)
  (sb_nblocks r) (sb_ninodes r) x (sb_logstart r) (sb_inodestart r) (sb_bmapstart r).
Definition set_sb_logstart (x : Z) (r : superblock) : superblock := mkSb (sb_magic r)
  (sb_size r) (sb_nblocks r) (sb_ninodes r) (sb_nlog r) x (sb_inodestart r) (sb_bmapstart r).
Definition set_sb_inodestart (x : Z) (r : superblock) : superblock := mkSb (sb_magic r)
  (sb_size r) (sb_nblocks r) (sb_ninodes r) (sb_nlog r) (sb_logstart r) x (sb_bmapstart r).
Definition set_sb_bmapstart (x : Z) (r : superblock) : superblock := mkSb (sb_magic r)
  (sb_size r) (sb_nblocks r) (sb_ninodes r) (sb_nlog r) (sb_logstart r) (sb_inodestart r) x.

(** struct inode. *)
#[projections(primitive)]
Record inode := mkInode {
  i_dev : Z; i_inum : Z; i_ref : Z; i_lock : sleeplock; i_valid : bool; i_type : Z;
  i_major : Z; i_minor : Z; i_nlink : Z; i_size : Z; i_addrs : list Z
}.
Definition set_i_dev (x : Z) (r : inode) : inode := mkInode x (i_inum r) (i_ref r) (i_lock r)
  (i_valid r) (i_type r) (i_major r) (i_minor r) (i_nlink r) (i_size r) (i_addrs r).
Definition set_i_inum (x : Z) (r : inode) : inode := mkInode (i_dev r) x (i_ref r) (i_lock r)
  (i_valid r) (i_type r) (i_major r) (i_minor r) (i_nlink r) (i_size r) (i_addrs r).
Definition set_i_ref (x : Z) (r : inode) : inode := mkInode (i_dev r) (i_inum r) x (i_lock r)
  (i_valid r) (i_type r) (i_major r) (i_minor r) (i_nlink r) (i_size r) (i_addrs r).
Definition set_i_lock (x : sleeplock) (r : inode) : inode := mkInode (i_dev r) (i_inum r)
  (i_ref r) x (i_valid r) (i_type r) (i_major r) (i_minor r) (i_nlink r) (i_size r) (i_addrs r).
Definition set_i_valid (x : bool) (r : inode) : inode := mkInode (i_dev r) (i_inum r) (i_ref r)
  (i_lock r) x (i_type r) (i_major r) (i_minor r) (i_nlink r) (i_size r) (i_addrs r).
Definition set_i_type (x : Z) (r : inode) : inode := mkInode (i_dev r) (i_inum r) (i_ref r)
  (i_lock r) (i_valid r) x (i_major r) (i_minor r) (i_nlink r) (i_size r) (i_addrs r).
Definition set_i_major (x : Z) (r : inode) : inode := mkInode (i_dev r) (i_inum r) (i_ref r)
  (i_lock r) (i_valid r) (i_type r) x (i_minor r) (i_nlink r) (i_size r) (i_addrs r).
Definition set_i_minor (x : Z) (r : inode) : inode := mkInode (i_dev r) (i_inum r) (i_ref r)
  (i_lock r) (i_valid r) (i_type r) (i_major r) x (i_nlink r) (i_size r) (i_addrs r).
Definition set_i_nlink (x : Z) (r : inode) : inode := mkInode (i_dev r) (i_inum r) (i_ref r)
  (i_lock r) (i_valid r) (i_type r) (i_major r) (i_minor r) x (i_size r) (i_addrs r).
Definition set_i_size (x : Z) (r : inode) : inode := mkInode (i_dev r) (i_inum r) (i_ref r)
  (i_lock r) (i_valid r) (i_type r) (i_major r) (i_minor r) (i_nlink r) x (i_addrs r).
Definition set_i_addrs (x : list Z) (r : inode) : inode := mkInode (i_dev r) (i_inum r)
  (i_ref r) (i_lock r) (i_valid r) (i_type r) (i_major r) (i_minor r) (i_nlink r) (i_size r) x.

(** ** virtio.h, virtio_disk.c *)

(** What a descriptor's address points to: a request header of [ops], the data
    of a buffer, or a status byte of [info]. *)
Inductive vaddr := A_null | A_op (i : nat) | A_data (b : nat) | A_status (i : nat).
(** struct virtq_desc. *)
#[projections(primitive)]
Record vdesc := mkVdesc {
  d_addr : vaddr; d_len : Z; d_flags : Z; d_next : nat
}.
Definition set_d_addr (x : vaddr) (r : vdesc) : vdesc := mkVdesc x (d_len r) (d_flags r)
  (d_next r).
Definition set_d_len (x : Z) (r : vdesc) : vdesc := mkVdesc (d_addr r) x (d_flags r) (d_next r).
Definition set_d_flags (x : Z) (r : vdesc) : vdesc := mkVdesc (d_addr r) (d_len r) x (d_next r).
Definition set_d_next (x : nat) (r : vdesc) : vdesc := mkVdesc (d_addr r) (d_len r) (d_flags r)
  x.
(** struct virtio_blk_req. *)
#[projections(primitive)]
Record vop := mkVop {
  op_type : Z; op_reserved : Z; op_sector : Z
}.
Definition set_op_type (x : Z) (r : vop) : vop := mkVop x (op_reserved r) (op_sector r).
Definition set_op_reserved (x : Z) (r : vop) : vop := mkVop (op_type r) x (op_sector r).
Definition set_op_sector (x : Z) (r : vop) : vop := mkVop (op_type r) (op_reserved r) x.
(** struct disk: descriptors, the avail ring (written by the driver), the used
    ring (written by the device), and the driver's books; [vd_seen] is the
    device's own position in the avail ring. *)
#[projections(primitive)]
Record vdisk := mkVdisk {
  vd_desc : list vdesc; vd_avail_idx : Z; vd_avail_ring : list nat; vd_used_didx : Z;
  vd_used_ring : list nat; vd_free : list bool; vd_used_idx : Z; vd_info_b : list (option
  nat); vd_info_status : list Z; vd_ops : list vop; vd_seen : Z
}.
Definition set_vd_desc (x : list vdesc) (r : vdisk) : vdisk := mkVdisk x (vd_avail_idx r)
  (vd_avail_ring r) (vd_used_didx r) (vd_used_ring r) (vd_free r) (vd_used_idx r) (vd_info_b r)
  (vd_info_status r) (vd_ops r) (vd_seen r).
Definition set_vd_avail_idx (x : Z) (r : vdisk) : vdisk := mkVdisk (vd_desc r) x
  (vd_avail_ring r) (vd_used_didx r) (vd_used_ring r) (vd_free r) (vd_used_idx r) (vd_info_b r)
  (vd_info_status r) (vd_ops r) (vd_seen r).
Definition set_vd_avail_ring (x : list nat) (r : vdisk) : vdisk := mkVdisk (vd_desc r)
  (vd_avail_idx r) x (vd_used_didx r) (vd_used_ring r) (vd_free r) (vd_used_idx r) (vd_info_b r)
  (vd_info_status r) (vd_ops r) (vd_seen r).
Definition set_vd_used_didx (x : Z) (r : vdisk) : vdisk := mkVdisk (vd_desc r) (vd_avail_idx r)
  (vd_avail_ring r) x (vd_used_ring r) (vd_free r) (vd_used_idx r) (vd_info_b r)
  (vd_info_status r) (vd_ops r) (vd_seen r).
Definition set_vd_used_ring (x : list nat) (r : vdisk) : vdisk := mkVdisk (vd_desc r)
  (vd_avail_idx r) (vd_avail_ring r) (vd_used_didx r) x (vd_free r) (vd_used_idx r)
  (vd_info_b r) (vd_info_status r) (vd_ops r) (vd_seen r).
Definition set_vd_free (x : list bool) (r : vdisk) : vdisk := mkVdisk (vd_desc r)
  (vd_avail_idx r) (vd_avail_ring r) (vd_used_didx r) (vd_used_ring r) x (vd_used_idx r)
  (vd_info_b r) (vd_info_status r) (vd_ops r) (vd_seen r).
Definition set_vd_used_idx (x : Z) (r : vdisk) : vdisk := mkVdisk (vd_desc r) (vd_avail_idx r)
  (vd_avail_ring r) (vd_used_didx r) (vd_used_ring r) (vd_free r) x (vd_info_b r)
  (vd_info_status r) (vd_ops r) (vd_seen r).
Definition set_vd_info_b (x : list (option nat)) (r : vdisk) : vdisk := mkVdisk (vd_desc r)
  (vd_avail_idx r) (vd_avail_ring r) (vd_used_didx r) (vd_used_ring r) (vd_free r)
  (vd_used_idx r) x (vd_info_status r) (vd_ops r) (vd_seen r).
Definition set_vd_info_status (x : list Z) (r : vdisk) : vdisk := mkVdisk (vd_desc r)
  (vd_avail_idx r) (vd_avail_ring r) (vd_used_didx r) (vd_used_ring r) (vd_free r)
  (vd_used_idx r) (vd_info_b r) x (vd_ops r) (vd_seen r).
Definition set_vd_ops (x : list vop) (r : vdisk) : vdisk := mkVdisk (vd_desc r) (vd_avail_idx r)
  (vd_avail_ring r) (vd_used_didx r) (vd_used_ring r) (vd_free r) (vd_used_idx r) (vd_info_b r)
  (vd_info_status r) x (vd_seen r).
Definition set_vd_seen (x : Z) (r : vdisk) : vdisk := mkVdisk (vd_desc r) (vd_avail_idx r)
  (vd_avail_ring r) (vd_used_didx r) (vd_used_ring r) (vd_free r) (vd_used_idx r) (vd_info_b r)
  (vd_info_status r) (vd_ops r) x.

(** ** console.c, uart.c, printf.c *)
(** cons. *)
#[projections(primitive)]
Record console := mkCons {
  cn_buf : list Z; cn_r : Z; cn_w : Z; cn_e : Z
}.
Definition set_cn_buf (x : list Z) (r : console) : console := mkCons x (cn_r r) (cn_w r) (cn_e r).
Definition set_cn_r (x : Z) (r : console) : console := mkCons (cn_buf r) x (cn_w r) (cn_e r).
Definition set_cn_w (x : Z) (r : console) : console := mkCons (cn_buf r) (cn_r r) x (cn_e r).
Definition set_cn_e (x : Z) (r : console) : console := mkCons (cn_buf r) (cn_r r) (cn_w r) x.

(** The transmit buffer of uart.c, and the device behind its registers: the
    bytes it has been given, the bytes waiting in RHR, and the answers to
    coming reads of LSR_TX_IDLE (idle once they run out). *)
#[projections(primitive)]
Record uart := mkUart {
  ua_buf : list Z; ua_w : Z; ua_r : Z; ua_sent : list Z; ua_rx : list Z; ua_busy : list
  bool
}.
Definition set_ua_buf (x : list Z) (r : uart) : uart := mkUart x (ua_w r) (ua_r r) (ua_sent r)
  (ua_rx r) (ua_busy r).
Definition set_ua_w (x : Z) (r : uart) : uart := mkUart (ua_buf r) x (ua_r r) (ua_sent r)
  (ua_rx r) (ua_busy r).
Definition set_ua_r (x : Z) (r : uart) : uart := mkUart (ua_buf r) (ua_w r) x (ua_sent r)
  (ua_rx r) (ua_busy r).
Definition set_ua_sent (x : list Z) (r : uart) : uart := mkUart (ua_buf r) (ua_w r) (ua_r r) x
  (ua_rx r) (ua_busy r).
Definition set_ua_rx (x : list Z) (r : uart) : uart := mkUart (ua_buf r) (ua_w r) (ua_r r)
  (ua_sent r) x (ua_busy r).
Definition set_ua_busy (x : list bool) (r : uart) : uart := mkUart (ua_buf r) (ua_w r) (ua_r r)
  (ua_sent r) (ua_rx r) x.

(** ** The globals *)
#[projections(primitive)]
Record kstate := mkK {
  k_held : list lockid;  (** spinlocks held by the running thread, last acquired first *)
  k_mem : mem;  (** physical memory *)
  k_freelist : Z;  (** kmem.freelist *)
  k_proc : list proc;  (** proc[NPROC] *)
  k_cur : option nat;  (** mycpu()->proc *)
  k_initproc : option nat;  (** initproc *)
  k_nextpid : Z;  (** nextpid *)
  k_ticks : Z;  (** ticks *)
  k_disk : gmap Z block;  (** the disk's blocks *)
  k_bcache : bcache;  (** bcache *)
  k_log : log;  (** log *)
  k_sb : superblock;  (** sb *)
  k_itable : list inode;  (** itable.inode *)
  k_ftable : list file;  (** ftable.file *)
  k_pipes : gmap Z pipe;  (** the pipes, by the address of their page *)
  k_kpgtbl : Z;  (** kernel_pagetable *)
  k_first : bool;  (** forkret's static first *)
  k_devsw : list devsw;  (** devsw *)
  k_vdisk : vdisk;  (** the virtio disk *)
  k_cons : console;  (** cons *)
  k_uart : uart;  (** the uart *)
  k_panicked : bool;  (** panicked *)
  k_prlock : bool  (** pr.locking *)
}.

Definition set_held (f : (list lockid) -> list lockid) (s : kstate) : kstate :=
  mkK (f (k_held s)) (k_mem s) (k_freelist s) (k_proc s) (k_cur s) (k_initproc s) (k_nextpid s)
    (k_ticks s) (k_disk s) (k_bcache s) (k_log s) (k_sb s) (k_itable s) (k_ftable s) (k_pipes s)
    (k_kpgtbl s) (k_first s) (k_devsw s) (k_vdisk s) (k_cons s) (k_uart s) (k_panicked s)
    (k_prlock s).
Definition set_mem (f : mem -> mem) (s : kstate) : kstate :=
  mkK (k_held s) (f (k_mem s)) (k_freelist s) (k_proc s) (k_cur s) (k_initproc s) (k_nextpid s)
    (k_ticks s) (k_disk s) (k_bcache s) (k_log s) (k_sb s) (k_itable s) (k_ftable s) (k_pipes s)
    (k_kpgtbl s) (k_first s) (k_devsw s) (k_vdisk s) (k_cons s) (k_uart s) (k_panicked s)
    (k_prlock s).
Definition set_freelist (f : Z -> Z) (s : kstate) : kstate :=
  mkK (k_held s) (k_mem s) (f (k_freelist s)) (k_proc s) (k_cur s) (k_initproc s) (k_nextpid s)
    (k_ticks s) (k_disk s) (k_bcache s) (k_log s) (k_sb s) (k_itable s) (k_ftable s) (k_pipes s)
    (k_kpgtbl s) (k_first s) (k_devsw s) (k_vdisk s) (k_cons s) (k_uart s) (k_panicked s)
    (k_prlock s).
Definition set_proc (f : (list proc) -> list proc) (s : kstate) : kstate :=
  mkK (k_held s) (k_mem s) (k_freelist s) (f (k_proc s)) (k_cur s) (k_initproc s) (k_nextpid s)
    (k_ticks s) (k_disk s) (k_bcache s) (k_log s) (k_sb s) (k_itable s) (k_ftable s) (k_pipes s)
    (k_kpgtbl s) (k_first s) (k_devsw s) (k_vdisk s) (k_cons s) (k_uart s) (k_panicked s)
    (k_prlock s).
Definition set_cur (f : (option nat) -> option nat) (s : kstate) : kstate :=
  mkK (k_held s) (k_mem s) (k_freelist s) (k_proc s) (f (k_cur s)) (k_initproc s) (k_nextpid s)
    (k_ticks s) (k_disk s) (k_bcache s) (k_log s) (k_sb s) (k_itable s) (k_ftable s) (k_pipes s)
    (k_kpgtbl s) (k_first s) (k_devsw s) (k_vdisk s) (k_cons s) (k_uart s) (k_panicked s)
    (k_prlock s).
Definition set_initproc (f : (option nat) -> option nat) (s : kstate) : kstate :=
  mkK (k_held s) (k_mem s) (k_freelist s) (k_proc s) (k_cur s) (f (k_initproc s)) (k_nextpid s)
    (k_ticks s) (k_disk s) (k_bcache s) (k_log s) (k_sb s) (k_itable s) (k_ftable s) (k_pipes s)
    (k_kpgtbl s) (k_first s) (k_devsw s) (k_vdisk s) (k_cons s) (k_uart s) (k_panicked s)
    (k_prlock s).
Definition set_nextpid (f : Z -> Z) (s : kstate) : kstate :=
  mkK (k_held s) (k_mem s) (k_freelist s) (k_proc s) (k_cur s) (k_initproc s) (f (k_nextpid s))
    (k_ticks s) (k_disk s) (k_bcache s) (k_log s) (k_sb s) (k_itable s) (k_ftable s) (k_pipes s)
    (k_kpgtbl s) (k_first s) (k_devsw s) (k_vdisk s) (k_cons s) (k_uart s) (k_panicked s)
    (k_prlock s).
Definition set_ticks (f : Z -> Z) (s : kstate) : kstate :=
  mkK (k_held s) (k_mem s) (k_freelist s) (k_proc s) (k_cur s) (k_initproc s) (k_nextpid s)
    (f (k_ticks s)) (k_disk s) (k_bcache s) (k_log s) (k_sb s) (k_itable s) (k_ftable s)
    (k_pipes s) (k_kpgtbl s) (k_first s) (k_devsw s) (k_vdisk s) (k_cons s) (k_uart s)
    (k_panicked s) (k_prlock s).
Definition set_disk (f : (gmap Z block) -> gmap Z block) (s : kstate) : kstate :=
  mkK (k_held s) (k_mem s) (k_freelist s) (k_proc s) (k_cur s) (k_initproc s) (k_nextpid s)
    (k_ticks s) (f (k_disk s)) (k_bcache s) (k_log s) (k_sb s) (k_itable s) (k_ftable s)
    (k_pipes s) (k_kpgtbl s) (k_first s) (k_devsw s) (k_vdisk s) (k_cons s) (k_uart s)
    (k_panicked s) (k_prlock s).
Definition set_bcache (f : bcache -> bcache) (s : kstate) : kstate :=
  mkK (k_held s) (k_mem s) (k_freelist s) (k_proc s) (k_cur s) (k_initproc s) (k_nextpid s)
    (k_ticks s) (k_disk s) (f (k_bcache s)) (k_log s) (k_sb s) (k_itable s) (k_ftable s)
    (k_pipes s) (k_kpgtbl s) (k_first s) (k_devsw s) (k_vdisk s) (k_cons s) (k_uart s)
    (k_panicked s) (k_prlock s).
Definition set_log (f : log -> log) (s : kstate) : kstate :=
  mkK (k_held s) (k_mem s) (k_freelist s) (k_proc s) (k_cur s) (k_initproc s) (k_nextpid s)
    (k_ticks s) (k_disk s) (k_bcache s) (f (k_log s)) (k_sb s) (k_itable s) (k_ftable s)
    (k_pipes s) (k_kpgtbl s) (k_first s) (k_devsw s) (k_vdisk s) (k_cons s) (k_uart s)
    (k_panicked s) (k_prlock s).
Definition set_sb (f : superblock -> superblock) (s : kstate) : kstate :=
  mkK (k_held s) (k_mem s) (k_freelist s) (k_proc s) (k_cur s) (k_initproc s) (k_nextpid s)
    (k_ticks s) (k_disk s) (k_bcache s) (k_log s) (f (k_sb s)) (k_itable s) (k_ftable s)
    (k_pipes s) (k_kpgtbl s) (k_first s) (k_devsw s) (k_vdisk s) (k_cons s) (k_uart s)
    (k_panicked s) (k_prlock s).
Definition set_itable (f : (list inode) -> list inode) (s : kstate) : kstate :=
  mkK (k_held s) (k_mem s) (k_freelist s) (k_proc s) (k_cur s) (k_initproc s) (k_nextpid s)
    (k_ticks s) (k_disk s) (k_bcache s) (k_log s) (k_sb s) (f (k_itable s)) (k_ftable s)
    (k_pipes s) (k_kpgtbl s) (k_first s) (k_devsw s) (k_vdisk s) (k_cons s) (k_uart s)
    (k_panicked s) (k_prlock s).
Definition set_ftable (f : (list file) -> list file) (s : kstate) : kstate :=
  mkK (k_held s) (k_mem s) (k_freelist s) (k_proc s) (k_cur s) (k_initproc s) (k_nextpid s)
    (k_ticks s) (k_disk s) (k_bcache s) (k_log s) (k_sb s) (k_itable s) (f (k_ftable s))
    (k_pipes s) (k_kpgtbl s) (k_first s) (k_devsw s) (k_vdisk s) (k_cons s) (k_uart s)
    (k_panicked s) (k_prlock s).
Definition set_pipes (f : (gmap Z pipe) -> gmap Z pipe) (s : kstate) : kstate :=
  mkK (k_held s) (k_mem s) (k_freelist s) (k_proc s) (k_cur s) (k_initproc s) (k_nextpid s)
    (k_ticks s) (k_disk s) (k_bcache s) (k_log s) (k_sb s) (k_itable s) (k_ftable s)
    (f (k_pipes s)) (k_kpgtbl s) (k_first s) (k_devsw s) (k_vdisk s) (k_cons s) (k_uart s)
    (k_panicked s) (k_prlock s).
Definition set_kpgtbl (f : Z -> Z) (s : kstate) : kstate :=
  mkK (k_held s) (k_mem s) (k_freelist s) (k_proc s) (k_cur s) (k_initproc s) (k_nextpid s)
    (k_ticks s) (k_disk s) (k_bcache s) (k_log s) (k_sb s) (k_itable s) (k_ftable s) (k_pipes s)
    (f (k_kpgtbl s)) (k_first s) (k_devsw s) (k_vdisk s) (k_cons s) (k_uart s) (k_panicked s)
    (k_prlock s).
Definition set_first (f : bool -> bool) (s : kstate) : kstate :=
  mkK (k_held s) (k_mem s) (k_freelist s) (k_proc s) (k_cur s) (k_initproc s) (k_nextpid s)
    (k_ticks s) (k_disk s) (k_bcache s) (k_log s) (k_sb s) (k_itable s) (k_ftable s) (k_pipes s)
    (k_kpgtbl s) (f (k_first s)) (k_devsw s) (k_vdisk s) (k_cons s) (k_uart s) (k_panicked s)
    (k_prlock s).
Definition set_devsw (f : (list devsw) -> list devsw) (s : kstate) : kstate :=
  mkK (k_held s) (k_mem s) (k_freelist s) (k_proc s) (k_cur s) (k_initproc s) (k_nextpid s)
    (k_ticks s) (k_disk s) (k_bcache s) (k_log s) (k_sb s) (k_itable s) (k_ftable s) (k_pipes s)
    (k_kpgtbl s) (k_first s) (f (k_devsw s)) (k_vdisk s) (k_cons s) (k_uart s) (k_panicked s)
    (k_prlock s).
Definition set_vdisk (f : vdisk -> vdisk) (s : kstate) : kstate :=
  mkK (k_held s) (k_mem s) (k_freelist s) (k_proc s) (k_cur s) (k_initproc s) (k_nextpid s)
    (k_ticks s) (k_disk s) (k_bcache s) (k_log s) (k_sb s) (k_itable s) (k_ftable s) (k_pipes s)
    (k_kpgtbl s) (k_first s) (k_devsw s) (f (k_vdisk s)) (k_cons s) (k_uart s) (k_panicked s)
    (k_prlock s).
Definition set_cons (f : console -> console) (s : kstate) : kstate :=
  mkK (k_held s) (k_mem s) (k_freelist s) (k_proc s) (k_cur s) (k_initproc s) (k_nextpid s)
    (k_ticks s) (k_disk s) (k_bcache s) (k_log s) (k_sb s) (k_itable s) (k_ftable s) (k_pipes s)
    (k_kpgtbl s) (k_first s) (k_devsw s) (k_vdisk s) (f (k_cons s)) (k_uart s) (k_panicked s)
    (k_prlock s).
Definition set_uart (f : uart -> uart) (s : kstate) : kstate :=
  mkK (k_held s) (k_mem s) (k_freelist s) (k_proc s) (k_cur s) (k_initproc s) (k_nextpid s)
    (k_ticks s) (k_disk s) (k_bcache s) (k_log s) (k_sb s) (k_itable s) (k_ftable s) (k_pipes s)
    (k_kpgtbl s) (k_first s) (k_devsw s) (k_vdisk s) (k_cons s) (f (k_uart s)) (k_panicked s)
    (k_prlock s).
Definition set_panicked (f : bool -> bool) (s : kstate) : kstate :=
  mkK (k_held s) (k_mem s) (k_freelist s) (k_proc s) (k_cur s) (k_initproc s) (k_nextpid s)
    (k_ticks s) (k_disk s) (k_bcache s) (k_log s) (k_sb s) (k_itable s) (k_ftable s) (k_pipes s)
    (k_kpgtbl s) (k_first s) (k_devsw s) (k_vdisk s) (k_cons s) (k_uart s) (f (k_panicked s))
    (k_prlock s).
Definition set_prlock (f : bool -> bool) (s : kstate) : kstate :=
  mkK (k_held s) (k_mem s) (k_freelist s) (k_proc s) (k_cur s) (k_initproc s) (k_nextpid s)
    (k_ticks s) (k_disk s) (k_bcache s) (k_log s) (k_sb s) (k_itable s) (k_ftable s) (k_pipes s)
    (k_kpgtbl s) (k_first s) (k_devsw s) (k_vdisk s) (k_cons s) (k_uart s) (k_panicked s)
    (f (k_prlock s)).

Abbreviation KM := (K kstate).

(** ** Locks as a kernel thread sees them

    [Spinlock] models spinlock.c itself and shows that its acquire and release
    act on the locks of a CPU as these do on [k_held]. *)
Definition held_rem (lk : lockid) (l : list lockid) : list lockid :=
  filter (fun x => x <> lk) l.

Definition holding (lk : lockid) (s : kstate) : bool := bool_decide (lk ∈ k_held s).

Definition acquire (lk : lockid) : KM unit :=
  let* h := gets (holding lk) in
  if h then panic "acquire" else modify (set_held (cons lk)).

Definition release (lk : lockid) : KM unit :=
  let* h := gets (holding lk) in
  if h then modify (set_held (held_rem lk)) else panic "release".

Lemma held_rem_cons lk l : lk ∉ l -> held_rem lk (lk :: l) = l.
Proof.
  intros H. unfold held_rem. rewrite filter_cons_False by naive_solver.
  induction l as [|x l IH]; [done|].
  apply not_elem_of_cons in H as [? ?].
  rewrite filter_cons_True by done. by rewrite IH.
Qed.

Lemma held_rem_cons_ne lk lk' l : lk <> lk' -> held_rem lk (lk' :: l) = lk' :: held_rem lk l.
Proof. intros H. unfold held_rem. by rewrite filter_cons_True. Qed.

Lemma wp_acquire {R C} lk Q s :
  lk ∉ k_held s -> Q tt (set_held (cons lk) s) -> wpc R C (acquire lk) Q s.
Proof.
  intros Hn HQ. unfold acquire. wp_steps. unfold holding.
  by rewrite bool_decide_eq_false_2 by done.
Qed.

Lemma wp_release {R C} lk Q s :
  lk ∈ k_held s -> Q tt (set_held (held_rem lk) s) -> wpc R C (release lk) Q s.
Proof.
  intros Hn HQ. unfold release. wp_steps. unfold holding.
  by rewrite bool_decide_eq_true_2 by done.
Qed.

(** Releasing the lock acquired last. *)
Lemma wp_release_last {R C} lk l Q s :
  k_held s = lk :: l -> lk ∉ l -> Q tt (set_held (fun _ => l) s) -> wpc R C (release lk) Q s.
Proof.
  intros Hl Hn HQ. apply wp_release; [rewrite Hl; left|].
  replace (set_held _ s) with (set_held (fun _ => l) s); [done|].
  unfold set_held. by rewrite Hl, held_rem_cons.
Qed.

(** A critical section that leaves [k_held] alone gives it back as it was. *)
Lemma set_held_id s l : k_held s = l -> set_held (fun _ => l) s = s.
Proof. intros <-. by destruct s. Qed.

(** Membership in [k_held] after acquires. *)
Ltac held :=
  simpl; try assumption; rewrite ?elem_of_cons, ?not_elem_of_cons;
  repeat split; try assumption; try done; try (left; reflexivity); tauto.

(** ** Page arithmetic *)
Lemma land_lnot_ones a n : 0 <= n -> Z.land a (Z.lnot (Z.ones n)) = a - a mod 2 ^ n.
Proof.
  intros Hn. rewrite <- Z.ldiff_land, Z.ldiff_ones_r, Z.shiftr_div_pow2, Z.shiftl_mul_pow2 by done.
  pose proof (Z.div_mod a (2 ^ n)). lia.
Qed.

Lemma PGROUNDDOWN_eq a : PGROUNDDOWN a = a - a mod PGSIZE.
Proof. apply (land_lnot_ones a 12). lia. Qed.

Lemma PGROUNDUP_eq sz :
  0 <= sz -> sz + PGSIZE <= 2 ^ 64 ->
  PGROUNDUP sz = (sz + PGSIZE - 1) - (sz + PGSIZE - 1) mod PGSIZE.
Proof.
  intros. unfold PGROUNDUP. rewrite u64_small by (unfold PGSIZE in *; lia).
  apply (land_lnot_ones _ 12). lia.
Qed.

(** ** A boot-time state, for concrete runs *)
Definition proc0 : proc :=
  mkProc UNUSED Ch_zero false 0 0 None 0 0 0 0 (mkContext 0 0 (replicate 12 0))
    (replicate NOFILE None) (replicate NVMA vma0) None (replicate 16 0).
Definition file0 : file := mkFile FD_NONE 0 false false 0 None 0 0.
Definition buf0 : buf := mkBuf false false 0 0 (mkSleeplock false 0) 0 zblock.
Definition inode0 : inode := mkInode 0 0 0 (mkSleeplock false 0) false 0 0 0 0 0 (replicate 13 0).
Definition log0 : log := mkLog 0 0 0 false 0 0 (replicate 30 0).
Definition sb0 : superblock := mkSb 0 0 0 0 0 0 0 0.
Definition vdisk0 : vdisk :=
  mkVdisk (replicate 8 (mkVdesc A_null 0 0 0)) 0 (replicate 8 0%nat) 0 (replicate 8 0%nat)
    (replicate 8 false) 0 (replicate 8 None) (replicate 8 0) (replicate 8 (mkVop 0 0 0)) 0.
Definition cons0 : console := mkCons (replicate 128 0) 0 0 0.
Definition uart0 : uart := mkUart (replicate 32 0) 0 0 [] [] [].

(** The globals as the boot loader leaves them: .bss is zero, [nextpid] and
    forkret's [first] are 1. *)
Definition k0 : kstate :=
  mkK [] ∅ 0 (replicate NPROC proc0) None None 1 0 ∅
    (mkBcache (replicate NBUF buf0) []) log0 sb0 (replicate NINODE inode0)
    (replicate NFILE file0) ∅ 0 true (replicate 10 (mkDevsw Dev_none Dev_none)) vdisk0 cons0 uart0
    false false.

(** A kernel image of 0x22000 bytes with one page of trampoline. *)
Definition demo_image : KernelImage :=
  {| kend := 0x80022000; etext := 0x80008000; trampoline := 0x80007000;
     uservec := 0x80007000; userret := 0x80007090;
     a_forkret := 0x80001a00; a_usertrap := 0x80002800; a_kernelvec := 0x80005c00 |}.
Lemma demo_image_ok : @KernelImageOk demo_image.
Proof. split; vm_compute; intuition discriminate. Qed.
