(* ===== verification/Spinlock.v ===== *)
(** * kernel/spinlock.c on a machine with several harts

    [push_off], [pop_off] and the steps of [acquire] and [release], one memory
    access at a time, interleaved in any way between the harts.  Mutual
    exclusion, interrupts off while a lock is held, and that a hart's list of
    held locks evolves as [State.acquire] and [State.release] have it. *)
From S2P Require Import Prelude Memory State.

(** ** Data *)

(** struct cpu of proc.h, with the interrupt-enable bit of the hart's sstatus. *)
#[projections(primitive)]
Record cpu := mkCpu { c_noff : Z; c_intena : bool; c_sie : bool }.

#[projections(primitive)]
Record spinlock := mkSpin { lk_locked : bool; lk_cpu : option nat }.

(** Where a hart is: in other code, or before one of the memory accesses of
    acquire (holding's two reads, the swap, the store of lk->cpu) or of release
    (holding's two reads, the store of lk->cpu, the swap, pop_off). *)
Inductive pc :=
| Run
| Acq_locked (lk : lockid) | Acq_cpu (lk : lockid) | Acq_swap (lk : lockid) | Acq_set (lk : lockid)
| Rel_locked (lk : lockid) | Rel_cpu (lk : lockid) | Rel_clear (lk : lockid) | Rel_swap (lk : lockid)
| Rel_pop (lk : lockid)
| Stop (msg : string).

(** [h_held] records the locks whose acquire has finished and whose release has
    not yet taken effect, last acquired first. *)
#[projections(primitive)]
Record hart := mkHart { h_cpu : cpu; h_pc : pc; h_held : list lockid }.
#[projections(primitive)]
Record mach := mkMach { m_hart : nat -> hart; m_lock : lockid -> spinlock }.

Definition upd {A B : Type} `{EqDecision A} (f : A -> B) (a : A) (b : B) : A -> B :=
  fun x => if decide (x = a) then b else f x.

(** ** spinlock.c *)
Definition initlock : spinlock := mkSpin false None.

Definition push_off (c : cpu) : cpu :=
  let old := c_sie c in
  mkCpu (c_noff c + 1) (if c_noff c =? 0 then old else c_intena c) false.

(** The new state of the cpu, or the panic. *)
Definition pop_off (c : cpu) : cpu + string :=
  if c_sie c then inr "pop_off - interruptible"%string
  else if c_noff c <? 1 then inr "pop_off"%string
  else
    let noff := c_noff c - 1 in
    inl (mkCpu noff (c_intena c) ((noff =? 0) && c_intena c)).

(** What a hart that is running other code does next. *)
Inductive act := Call_acquire (lk : lockid) | Call_release (lk : lockid) | Intr_on | Intr_off | Go.

Definition go (c : nat) (h : hart) (k : cpu) (p : pc) (s : mach) : option mach :=
  Some (mkMach (upd (m_hart s) c (mkHart k p (h_held h))) (m_lock s)).

(** One step of hart [c].  The kernel turns interrupts on with intr_on only
    where it holds no lock (the scheduler, usertrap before a system call). *)
Definition step (c : nat) (a : act) (s : mach) : option mach :=
  let h := m_hart s c in
  let k := h_cpu h in
  match h_pc h, a with
  | Run, Call_acquire lk => go c h (push_off k) (Acq_locked lk) s
  | Run, Call_release lk => go c h k (Rel_locked lk) s
  | Run, Intr_on => if c_noff k =? 0 then go c h (mkCpu (c_noff k) (c_intena k) true) Run s else None
  | Run, Intr_off => go c h (mkCpu (c_noff k) (c_intena k) false) Run s
  | Acq_locked lk, Go => go c h k (if lk_locked (m_lock s lk) then Acq_cpu lk else Acq_swap lk) s
  | Acq_cpu lk, Go =>
      go c h k (if bool_decide (lk_cpu (m_lock s lk) = Some c) then Stop "acquire" else Acq_swap lk) s
  | Acq_swap lk, Go =>
      if lk_locked (m_lock s lk) then Some s
      else Some (mkMach (upd (m_hart s) c (mkHart k (Acq_set lk) (h_held h)))
                        (upd (m_lock s) lk (mkSpin true (lk_cpu (m_lock s lk)))))
  | Acq_set lk, Go =>
      Some (mkMach (upd (m_hart s) c (mkHart k Run (lk :: h_held h)))
                   (upd (m_lock s) lk (mkSpin (lk_locked (m_lock s lk)) (Some c))))
  | Rel_locked lk, Go => go c h k (if lk_locked (m_lock s lk) then Rel_cpu lk else Stop "release") s
  | Rel_cpu lk, Go =>
      go c h k (if bool_decide (lk_cpu (m_lock s lk) = Some c) then Rel_clear lk else Stop "release") s
  | Rel_clear lk, Go =>
      Some (mkMach (upd (m_hart s) c (mkHart k (Rel_swap lk) (held_rem lk (h_held h))))
                   (upd (m_lock s) lk (mkSpin (lk_locked (m_lock s lk)) None)))
  | Rel_swap lk, Go =>
      Some (mkMach (upd (m_hart s) c (mkHart k (Rel_pop lk) (h_held h)))
                   (upd (m_lock s) lk (mkSpin false (lk_cpu (m_lock s lk)))))
  | Rel_pop lk, Go =>
      match pop_off k with
      | inl k' => go c h k' Run s
      | inr msg => go c h k (Stop msg) s
      end
  | _, _ => None
  end.

Definition cpu0 : cpu := mkCpu 0 false false.
Definition mach0 : mach := mkMach (fun _ => mkHart cpu0 Run []) (fun _ => initlock).

Inductive reachable : mach -> Prop :=
| reach_init : reachable mach0
| reach_step c a s s' : reachable s -> step c a s = Some s' -> reachable s'.

(** A run, for examples. *)
Fixpoint run (l : list (nat * act)) (s : mach) : option mach :=
  match l with
  | [] => Some s
  | (c, a) :: l' => step c a s ≫= run l'
  end.

(** ** The invariant *)

(** Hart [h] has won the swap on [lk] and not yet given it back. *)
Definition owns (h : hart) (lk : lockid) : Prop :=
  lk ∈ h_held h \/ h_pc h = Acq_set lk \/ h_pc h = Rel_swap lk.

(** push_offs of an acquire or release under way. *)
Definition pending (p : pc) : Z :=
  match p with
  | Acq_locked _ | Acq_cpu _ | Acq_swap _ | Acq_set _ | Rel_swap _ | Rel_pop _ => 1
  | _ => 0
  end.

Definition stopped (p : pc) : bool := match p with Stop _ => true | _ => false end.

(** What a hart's own state satisfies. *)
Record hart_ok (h : hart) : Prop := {
  hk_nodup : NoDup (h_held h);
  hk_noff : stopped (h_pc h) = false -> c_noff (h_cpu h) = Z.of_nat (length (h_held h)) + pending (h_pc h);
  hk_sie : 0 < c_noff (h_cpu h) -> c_sie (h_cpu h) = false;
  hk_new : forall lk, h_pc h = Acq_swap lk \/ h_pc h = Acq_set lk \/ h_pc h = Rel_swap lk -> lk ∉ h_held h;
  hk_rel : forall lk, h_pc h = Rel_clear lk -> lk ∈ h_held h
}.

Record inv (s : mach) : Prop := {
  inv_hart : forall c, hart_ok (m_hart s c);
  inv_locked : forall c lk, owns (m_hart s c) lk -> lk_locked (m_lock s lk) = true;
  inv_unique : forall c c' lk, owns (m_hart s c) lk -> owns (m_hart s c') lk -> c = c';
  inv_cpu : forall c lk, lk_cpu (m_lock s lk) = Some c <-> lk ∈ h_held (m_hart s c)
}.

Lemma upd_same {A B} `{EqDecision A} (f : A -> B) a b : upd f a b a = b.
Proof. unfold upd. by rewrite decide_True. Qed.
Lemma upd_other {A B} `{EqDecision A} (f : A -> B) a b x : x <> a -> upd f a b x = f x.
Proof. intros. unfold upd. by rewrite decide_False. Qed.

(** A step that changes hart [c] alone, not its locks. *)
Lemma inv_go s c k p :
  inv s -> hart_ok (mkHart k p (h_held (m_hart s c))) ->
  (forall lk, p <> Acq_set lk /\ p <> Rel_swap lk) ->
  inv (mkMach (upd (m_hart s) c (mkHart k p (h_held (m_hart s c)))) (m_lock s)).
Proof.
  intros [Hh Hl Hu Hc] Hk Hp.
  assert (Ho : forall c' lk, owns (upd (m_hart s) c (mkHart k p (h_held (m_hart s c))) c') lk ->
                             owns (m_hart s c') lk).
  { intros c' lk. destruct (decide (c' = c)) as [->|]; [|by rewrite upd_other].
    rewrite upd_same. specialize (Hp lk). intros [?|[?|?]]; [by left|naive_solver..]. }
  split; cbn [m_hart m_lock].
  - intros c'. destruct (decide (c' = c)) as [->|]; [by rewrite upd_same|by rewrite upd_other].
  - intros c' lk H%Ho. by eapply Hl.
  - intros c1 c2 lk H1%Ho H2%Ho. by eapply Hu.
  - intros c' lk. rewrite Hc. destruct (decide (c' = c)) as [->|]; [by rewrite upd_same|by rewrite upd_other].
Qed.

(** A step that also writes lock [lk], whose ownership by others it does not change. *)
Lemma inv_lock s c h' lk l' :
  inv s -> hart_ok h' ->
  (forall c', c' <> c -> owns (m_hart s c') lk -> False) ->
  (owns h' lk -> lk_locked l' = true) ->
  (forall lk', lk' <> lk -> owns h' lk' -> owns (m_hart s c) lk') ->
  (forall lk', lk' <> lk -> lk' ∈ h_held h' <-> lk' ∈ h_held (m_hart s c)) ->
  (forall c', lk_cpu l' = Some c' <-> c' = c /\ lk ∈ h_held h') ->
  inv (mkMach (upd (m_hart s) c h') (upd (m_lock s) lk l')).
Proof.
  intros [Hh Hl Hu Hc] Hk Hex Hlk Ho Hheld Hcpu.
  assert (Ho' : forall c' lk', lk' <> lk -> owns (upd (m_hart s) c h' c') lk' -> owns (m_hart s c') lk').
  { intros c' lk' ?. destruct (decide (c' = c)) as [->|]; [rewrite upd_same; by apply Ho|by rewrite upd_other]. }
  split; cbn [m_hart m_lock].
  - intros c'. destruct (decide (c' = c)) as [->|]; [by rewrite upd_same|by rewrite upd_other].
  - intros c' lk' H. destruct (decide (lk' = lk)) as [->|].
    + rewrite upd_same. destruct (decide (c' = c)) as [->|]; [rewrite upd_same in H; by apply Hlk|].
      rewrite upd_other in H by done. by destruct (Hex c').
    + rewrite upd_other by done. eapply Hl. by eapply Ho'.
  - intros c1 c2 lk' H1 H2. destruct (decide (lk' = lk)) as [->|]; [|by eapply Hu; eapply Ho'].
    destruct (decide (c1 = c)) as [->|], (decide (c2 = c)) as [->|]; [done|..];
      rewrite ?upd_other in * by done; naive_solver.
  - intros c' lk'. destruct (decide (lk' = lk)) as [->|].
    + rewrite upd_same, Hcpu. destruct (decide (c' = c)) as [->|]; [rewrite upd_same; naive_solver|].
      rewrite upd_other by done. split; [naive_solver|]. intros H. destruct (Hex c'); [done|by left].
    + rewrite (upd_other (m_lock s)) by done. rewrite Hc.
      destruct (decide (c' = c)) as [->|]; [by rewrite upd_same, Hheld|by rewrite upd_other].
Qed.

Lemma NoDup_held_rem lk l : NoDup l -> NoDup (held_rem lk l).
Proof. apply NoDup_filter. Qed.
Lemma elem_held_rem lk lk' l : lk' ∈ held_rem lk l <-> lk' <> lk /\ lk' ∈ l.
Proof. unfold held_rem. by rewrite list_elem_of_filter. Qed.
Lemma length_held_rem lk l : NoDup l -> lk ∈ l -> S (length (held_rem lk l)) = length l.
Proof.
  induction l as [|x l IH]; [by rewrite elem_of_nil|].
  rewrite NoDup_cons, elem_of_cons. intros [Hx Hn] H. destruct (decide (x = lk)) as [->|].
  - by rewrite held_rem_cons.
  - rewrite held_rem_cons_ne by done. simpl. rewrite IH; naive_solver.
Qed.

Lemma inv_mach0 : inv mach0.
Proof.
  assert (Ho : forall c lk, ~ owns (m_hart mach0 c) lk).
  { intros c lk [H|[H|H]]; [by apply not_elem_of_nil in H|done..]. }
  split; [|intros c lk H; by destruct (Ho c lk)|intros c ? lk H; by destruct (Ho c lk)|].
  - intros c. split; cbn; [constructor|done|done|naive_solver|naive_solver].
  - intros c lk. cbn. rewrite elem_of_nil. naive_solver.
Qed.

(** ** Preservation *)

(** The cases of [hart_ok] of a step that leaves [h_held] alone. *)
Lemma hart_ok_pc h k p :
  hart_ok h ->
  (stopped p = false -> c_noff k = Z.of_nat (length (h_held h)) + pending p) ->
  (0 < c_noff k -> c_sie k = false) ->
  (forall lk, p = Acq_swap lk \/ p = Acq_set lk \/ p = Rel_swap lk -> lk ∉ h_held h) ->
  (forall lk, p = Rel_clear lk -> lk ∈ h_held h) ->
  hart_ok (mkHart k p (h_held h)).
Proof. intros [Hn _ _ _ _] ????. by split. Qed.

Lemma go_inv c k p s s' :
  inv s -> go c (m_hart s c) k p s = Some s' ->
  (stopped p = false -> c_noff k = Z.of_nat (length (h_held (m_hart s c))) + pending p) ->
  (0 < c_noff k -> c_sie k = false) ->
  (forall lk, p = Acq_swap lk -> lk ∉ h_held (m_hart s c)) ->
  (forall lk, p = Rel_clear lk -> lk ∈ h_held (m_hart s c)) ->
  (forall lk, p <> Acq_set lk /\ p <> Rel_swap lk) ->
  inv s'.
Proof.
  intros Hi [= <-] H1 H2 H3 H4 H5. apply inv_go; [done| |done].
  apply hart_ok_pc; [apply Hi|done|done| |done].
  intros lk. specialize (H5 lk). naive_solver.
Qed.

(** The two steps that end ownership of [lk], and the two that begin it. *)
Lemma acq_swap_inv c lk s :
  inv s -> h_pc (m_hart s c) = Acq_swap lk -> lk_locked (m_lock s lk) = false ->
  inv (mkMach (upd (m_hart s) c (mkHart (h_cpu (m_hart s c)) (Acq_set lk) (h_held (m_hart s c))))
              (upd (m_lock s) lk (mkSpin true (lk_cpu (m_lock s lk))))).
Proof.
  intros Hi Ep El. pose proof (inv_hart s Hi c) as [Hnd Hno Hsie Hnew Hrel].
  rewrite Ep in *. specialize (Hno eq_refl).
  assert (Hfree : forall c', ~ owns (m_hart s c') lk)
    by (intros c' Ho; apply (inv_locked s Hi) in Ho; congruence).
  apply inv_lock; cbn; [done| |intros c' _; apply Hfree|done|..|done|].
  - apply hart_ok_pc; cbn; [apply Hi|intros _; exact Hno|done| |done]. naive_solver.
  - intros lk' Hne [?|[?|?]]; [by left|naive_solver..].
  - intros c'. rewrite (inv_cpu s Hi). split; [|intros [-> ?]; done].
    intros H. destruct (Hfree c'). by left.
Qed.

Lemma acq_set_inv c lk s :
  inv s -> h_pc (m_hart s c) = Acq_set lk ->
  inv (mkMach (upd (m_hart s) c (mkHart (h_cpu (m_hart s c)) Run (lk :: h_held (m_hart s c))))
              (upd (m_lock s) lk (mkSpin (lk_locked (m_lock s lk)) (Some c)))).
Proof.
  intros Hi Ep. pose proof (inv_hart s Hi c) as [Hnd Hno Hsie Hnew Hrel].
  assert (Ho : owns (m_hart s c) lk) by (right; by left).
  rewrite Ep in *. specialize (Hno eq_refl). cbn [pending] in Hno.
  apply inv_lock; cbn; [done| | | |..].
  - split; cbn [h_held h_pc h_cpu pending length]; [|lia|done|naive_solver|naive_solver].
    constructor; [apply Hnew; naive_solver|done].
  - intros c' Hne Ho'. by apply Hne, (inv_unique s Hi c' c lk).
  - intros _. by apply (inv_locked s Hi c).
  - intros lk' Hne [H|[?|?]]; [|naive_solver..]. left. by apply elem_of_cons in H as [?|?].
  - intros lk' Hne. rewrite elem_of_cons. naive_solver.
  - intros c'. split; [intros [= <-]; split; [done|left]|by intros [-> _]].
Qed.

Lemma rel_clear_inv c lk s :
  inv s -> h_pc (m_hart s c) = Rel_clear lk ->
  inv (mkMach (upd (m_hart s) c (mkHart (h_cpu (m_hart s c)) (Rel_swap lk) (held_rem lk (h_held (m_hart s c)))))
              (upd (m_lock s) lk (mkSpin (lk_locked (m_lock s lk)) None))).
Proof.
  intros Hi Ep. pose proof (inv_hart s Hi c) as [Hnd Hno Hsie Hnew Hrel].
  specialize (Hrel lk Ep). assert (Ho : owns (m_hart s c) lk) by by left.
  rewrite Ep in *. specialize (Hno eq_refl). cbn [pending] in Hno.
  pose proof (length_held_rem lk _ Hnd Hrel) as Hlen.
  apply inv_lock; cbn; [done| | | |..].
  - split; cbn [h_held h_pc h_cpu pending]; [by apply NoDup_held_rem|lia|done| |naive_solver].
    intros lk' H. rewrite elem_held_rem. naive_solver.
  - intros c' Hne Ho'. by apply Hne, (inv_unique s Hi c' c lk).
  - intros _. by apply (inv_locked s Hi c).
  - intros lk' Hne [H|[?|?]]; [|naive_solver..]. left. by apply elem_held_rem in H as [_ ?].
  - intros lk' Hne. rewrite elem_held_rem. naive_solver.
  - intros c'. rewrite elem_held_rem. naive_solver.
Qed.

Lemma rel_swap_inv c lk s :
  inv s -> h_pc (m_hart s c) = Rel_swap lk ->
  inv (mkMach (upd (m_hart s) c (mkHart (h_cpu (m_hart s c)) (Rel_pop lk) (h_held (m_hart s c))))
              (upd (m_lock s) lk (mkSpin false (lk_cpu (m_lock s lk))))).
Proof.
  intros Hi Ep. pose proof (inv_hart s Hi c) as [Hnd Hno Hsie Hnew Hrel].
  assert (Ho : owns (m_hart s c) lk) by (right; by right).
  assert (Hex : forall c', owns (m_hart s c') lk -> c' = c) by (intros c' ?; by apply (inv_unique s Hi c' c lk)).
  rewrite Ep in *. specialize (Hno eq_refl). specialize (Hnew lk ltac:(naive_solver)).
  apply inv_lock; cbn; [done| | | |..].
  - apply hart_ok_pc; cbn; [apply Hi|intros _; exact Hno|done|naive_solver|naive_solver].
  - intros c' Hne Ho'. by apply Hne, Hex.
  - intros [?|[?|?]]; naive_solver.
  - intros lk' Hne [?|[?|?]]; [by left|naive_solver..].
  - done.
  - intros c'. rewrite (inv_cpu s Hi). split; [|naive_solver].
    intros H. assert (c' = c) as -> by (apply Hex; by left). done.
Qed.

Lemma inv_step c a s s' : inv s -> step c a s = Some s' -> inv s'.
Proof.
  intros Hi Hs. pose proof (inv_hart s Hi c) as [Hnd Hno Hsie Hnew Hrel].
  pose proof (inv_cpu s Hi c) as Hcpu. pose proof (inv_locked s Hi c) as Hl.
  unfold step in Hs.
  destruct (h_pc (m_hart s c)) as [|lk|lk|lk|lk|lk|lk|lk|lk|lk|msg] eqn:Ep; destruct a; try done;
    specialize (Hno eq_refl); cbn [pending] in Hno.
  - eapply go_inv; [done|exact Hs|..]; cbn; [intros _; lia|done|naive_solver..].
  - eapply go_inv; [done|exact Hs|..]; cbn; [intros _; lia|done|naive_solver..].
  - destruct (Z.eqb_spec (c_noff (h_cpu (m_hart s c))) 0) as [E|]; [|done].
    eapply go_inv; [done|exact Hs|..]; cbn; [intros _; lia|lia|naive_solver..].
  - eapply go_inv; [done|exact Hs|..]; cbn; [intros _; lia|done|naive_solver..].
  - eapply go_inv; [done|exact Hs|..]; destruct (lk_locked (m_lock s lk)) eqn:El; cbn; try done; try (by intros _; lia).
    intros lk' [= <-] H. rewrite Hl in El; [done|by left].
  - eapply go_inv; [done|exact Hs|..]; case_bool_decide as Eo; cbn; try done; try (by intros _; lia).
    intros lk' [= <-]. by rewrite <- Hcpu.
  - destruct (lk_locked (m_lock s lk)) eqn:El; simplify_eq; [done|by apply acq_swap_inv].
  - simplify_eq. by apply acq_set_inv.
  - eapply go_inv; [done|exact Hs|..]; destruct (lk_locked (m_lock s lk)) eqn:El; cbn; try done; by intros _; lia.
  - eapply go_inv; [done|exact Hs|..]; case_bool_decide as Eo; cbn; try done; try (by intros _; lia).
    intros lk' [= <-]. by apply Hcpu.
  - simplify_eq. by apply rel_clear_inv.
  - simplify_eq. by apply rel_swap_inv.
  - unfold pop_off in Hs. rewrite Hsie in Hs by lia.
    destruct (Z.ltb_spec (c_noff (h_cpu (m_hart s c))) 1); [lia|].
    eapply go_inv; [done|exact Hs|..]; cbn; [intros _; lia| |naive_solver..].
    intros ?. by destruct (Z.eqb_spec (c_noff (h_cpu (m_hart s c)) - 1) 0); [lia|].
Qed.

Lemma reachable_inv s : reachable s -> inv s.
Proof. induction 1; [apply inv_mach0|by eapply inv_step]. Qed.

(** ** Properties *)

(** C2: mutual exclusion.  However the harts' memory accesses interleave, at
    most one hart is between the swap of an acquire and the swap of the matching
    release, so at most one hart holds a lock; the lock's fields name it. *)
Theorem spinlock_mutual_exclusion s c c' lk :
  reachable s ->
  (owns (m_hart s c) lk -> owns (m_hart s c') lk -> c = c') /\
  (lk ∈ h_held (m_hart s c) -> m_lock s lk = mkSpin true (Some c)).
Proof.
  intros Hi%reachable_inv. split; [apply (inv_unique s Hi)|].
  intros H. pose proof (inv_locked s Hi c lk (or_introl H)) as E1.
  apply (inv_cpu s Hi) in H. destruct (m_lock s lk). cbn in *. congruence.
Qed.

(** Two harts after lock [L_kmem]: hart 0 has it, hart 1 spins. *)
Definition contended : list (nat * act) :=
  [(0, Intr_on); (0, Call_acquire L_kmem); (1, Call_acquire L_kmem); (0, Go); (0, Go); (1, Go); (0, Go); (1, Go);
   (1, Go)]%nat.
Lemma run_reachable l s s' : reachable s -> run l s = Some s' -> reachable s'.
Proof.
  revert s. induction l as [|[c a] l IH]; intros s H; [by intros [= <-]|].
  cbn [run]. intros (s1 & Hs & Hr)%bind_Some. eapply IH; [|exact Hr]. by eapply reach_step.
Qed.
Definition contended_state : mach := default mach0 (run contended mach0).
Lemma contended_reachable : reachable contended_state.
Proof. apply (run_reachable contended mach0); [constructor|]. vm_compute. reflexivity. Qed.

Lemma spinlock_mutual_exclusion_witness :
  (owns (m_hart contended_state 0) L_kmem -> owns (m_hart contended_state 1) L_kmem -> 0%nat = 1%nat) /\
  m_lock contended_state L_kmem = mkSpin true (Some 0%nat).
Proof.
  destruct (spinlock_mutual_exclusion contended_state 0 1 L_kmem contended_reachable) as [H1 H2].
  split; [exact H1|]. apply H2. vm_compute. left.
Defined.

(** While a hart holds a lock its interrupts are off, and in code outside
    acquire and release [noff] is the number of locks it holds. *)
Theorem spinlock_interrupts_off s c :
  reachable s -> stopped (h_pc (m_hart s c)) = false ->
  (h_held (m_hart s c) <> [] -> c_sie (h_cpu (m_hart s c)) = false) /\
  (h_pc (m_hart s c) = Run -> c_noff (h_cpu (m_hart s c)) = Z.of_nat (length (h_held (m_hart s c)))).
Proof.
  intros Hi%reachable_inv Hs. destruct (inv_hart s Hi c) as [_ Hno Hsie _ _]. specialize (Hno Hs). split.
  - intros Hh. apply Hsie. rewrite Hno. destruct (h_held (m_hart s c)); [done|]. cbn [length].
    destruct (h_pc (m_hart s c)); cbn [pending]; lia.
  - intros Hp. rewrite Hno, Hp. cbn [pending]. lia.
Qed.

Lemma spinlock_interrupts_off_witness :
  c_sie (h_cpu (m_hart contended_state 0)) = false /\ c_noff (h_cpu (m_hart contended_state 0)) = 1.
Proof.
  destruct (spinlock_interrupts_off contended_state 0 contended_reachable eq_refl) as [H1 H2].
  split; [apply H1; vm_compute; discriminate|exact (H2 eq_refl)].
Defined.

(** [n] calls of pop_off. *)
Fixpoint pop_offs (n : nat) (c : cpu) : cpu + string :=
  match n with
  | O => inl c
  | S n' => match pop_off c with inl c' => pop_offs n' c' | inr msg => inr msg end
  end.

(** Interrupts are off under a push_off. *)
Definition cpu_ok (c : cpu) : Prop := 0 <= c_noff c /\ (0 < c_noff c -> c_sie c = false).

Lemma push_offs k c :
  cpu_ok c ->
  Nat.iter (S k) push_off c =
  mkCpu (c_noff c + Z.of_nat (S k)) (if c_noff c =? 0 then c_sie c else c_intena c) false.
Proof.
  intros [H0 Hs]. induction k as [|k IH]; [done|].
  change (Nat.iter (S (S k)) push_off c) with (push_off (Nat.iter (S k) push_off c)).
  rewrite IH. unfold push_off. cbn [c_noff c_sie c_intena].
  rewrite (proj2 (Z.eqb_neq (c_noff c + Z.of_nat (S k)) 0)) by lia. f_equal. lia.
Qed.

Lemma pop_offs_inner m : forall k noff intena, 0 <= noff -> (m < k)%nat ->
  pop_offs m (mkCpu (noff + Z.of_nat k) intena false) = inl (mkCpu (noff + Z.of_nat (k - m)) intena false).
Proof.
  induction m as [|m IH]; intros k noff intena H0 Hm; cbn [pop_offs]; [by rewrite Nat.sub_0_r|].
  unfold pop_off. cbn. destruct (Z.ltb_spec (noff + Z.of_nat k) 1); [lia|].
  replace (noff + Z.of_nat k - 1) with (noff + Z.of_nat (k - 1)) by lia.
  rewrite (proj2 (Z.eqb_neq (noff + Z.of_nat (k - 1)) 0)) by lia. cbn [andb].
  rewrite IH by lia. by replace (k - 1 - m)%nat with (k - S m)%nat by lia.
Qed.

Lemma pop_offs_last n : forall c,
  pop_offs (S n) c = match pop_offs n c with inl c1 => pop_off c1 | inr msg => inr msg end.
Proof.
  induction n as [|n IH]; intros c; cbn [pop_offs]; [by destruct (pop_off c)|].
  destruct (pop_off c); [|done]. by rewrite <- IH.
Qed.

(** push_off and pop_off match.  After [n] push_offs, fewer than [n]
    pop_offs leave interrupts off; the [n]th restores the interrupt state there
    was before the first, and none of them panics. *)
Theorem push_off_pop_off_nested c n m :
  cpu_ok c -> (m <= n)%nat ->
  exists c', pop_offs m (Nat.iter n push_off c) = inl c' /\ cpu_ok c' /\
    c_noff c' = c_noff c + Z.of_nat (n - m) /\ c_sie c' = (if (m <? n)%nat then false else c_sie c).
Proof.
  intros Hc Hm. pose proof Hc as [H0 Hs]. destruct n as [|n].
  { assert (m = 0%nat) as -> by lia. exists c. cbn. split_and!; [done..|lia|done]. }
  rewrite push_offs by done. destruct (Nat.ltb_spec m (S n)).
  { rewrite pop_offs_inner by lia. eexists. split; [done|]. split_and!; [split|..]; cbn; [lia|done|lia|done]. }
  assert (m = S n) as -> by lia. rewrite pop_offs_last, pop_offs_inner by lia.
  unfold pop_off. cbn [c_noff c_sie c_intena].
  replace (S n - n)%nat with 1%nat by lia. rewrite Nat.sub_diag.
  destruct (Z.ltb_spec (c_noff c + Z.of_nat 1) 1); [lia|].
  replace (c_noff c + Z.of_nat 1 - 1) with (c_noff c) by lia.
  eexists. split; [done|]. unfold cpu_ok. cbn [c_noff c_sie].
  destruct (Z.eqb_spec (c_noff c) 0) as [E|]; cbn [andb].
  - split_and!; [lia|intros; lia|lia|done].
  - rewrite Hs by lia. split_and!; [lia|done|lia|done].
Qed.

Lemma push_off_pop_off_nested_witness :
  cpu_ok (mkCpu 0 false true) /\
  exists c', pop_offs 3 (Nat.iter 3 push_off (mkCpu 0 false true)) = inl c' /\ c_sie c' = true.
Proof.
  assert (Hc : cpu_ok (mkCpu 0 false true)) by (split; cbn; lia). split; [done|].
  destruct (push_off_pop_off_nested (mkCpu 0 false true) 3 3 Hc (le_n 3)) as (c' & H1 & _ & _ & H2).
  exists c'. split; [exact H1|exact H2].
Defined.

(** [m] on a thread that holds the locks [l] leaves it with [l']; or it panics. *)
Definition held_step (m : KM unit) (l l' : list lockid) : Prop :=
  forall k, k_held k = l -> m k = Ret tt (set_held (fun _ => l') k).
Definition held_panic (m : KM unit) (l : list lockid) (msg : string) : Prop :=
  forall k, k_held k = l -> m k = Panic msg.

Lemma held_step_acquire lk l : lk ∉ l -> held_step (acquire lk) l (lk :: l).
Proof.
  intros Hn k <-. unfold acquire, bind, gets, holding. cbn [obind].
  by rewrite bool_decide_eq_false_2.
Qed.
Lemma held_step_release lk l : lk ∈ l -> held_step (release lk) l (held_rem lk l).
Proof.
  intros Hn k <-. unfold release, bind, gets, holding. cbn [obind].
  by rewrite bool_decide_eq_true_2.
Qed.
Lemma held_panic_acquire lk l : lk ∈ l -> held_panic (acquire lk) l "acquire".
Proof.
  intros Hn k <-. unfold acquire, bind, gets, holding. cbn [obind].
  by rewrite bool_decide_eq_true_2.
Qed.
Lemma held_panic_release lk l : lk ∉ l -> held_panic (release lk) l "release".
Proof.
  intros Hn k <-. unfold release, bind, gets, holding. cbn [obind].
  by rewrite bool_decide_eq_false_2.
Qed.

(** A step of hart [c] as a thread of the kernel sees it. *)
Inductive view_step (s s' : mach) (c : nat) : Prop :=
| vs_same : h_held (m_hart s' c) = h_held (m_hart s c) ->
    (forall msg, h_pc (m_hart s' c) <> Stop msg) -> view_step s s' c
| vs_acquire lk : (forall c', lk ∉ h_held (m_hart s c')) ->
    held_step (acquire lk) (h_held (m_hart s c)) (h_held (m_hart s' c)) -> view_step s s' c
| vs_release lk : lk ∈ h_held (m_hart s c) ->
    held_step (release lk) (h_held (m_hart s c)) (h_held (m_hart s' c)) -> view_step s s' c
| vs_panic lk msg : h_pc (m_hart s' c) = Stop msg ->
    (h_pc (m_hart s c) = Acq_cpu lk /\ held_panic (acquire lk) (h_held (m_hart s c)) msg) \/
    ((h_pc (m_hart s c) = Rel_locked lk \/ h_pc (m_hart s c) = Rel_cpu lk) /\
     held_panic (release lk) (h_held (m_hart s c)) msg) -> view_step s s' c.

Lemma go_same c k p s s' :
  go c (m_hart s c) k p s = Some s' -> (forall msg, p <> Stop msg) -> view_step s s' c.
Proof. intros [= <-] Hp. apply vs_same; cbn; by rewrite upd_same. Qed.

(** C32: the concrete acquire and release refine the ones the rest of the kernel
    is modelled with.  Every step of a hart leaves the other harts' locks alone
    and is, for a thread of that hart, either invisible, or exactly
    [State.acquire] of a lock nobody holds, or exactly [State.release] of one it
    holds, or the panic these have; pop_off never panics. *)
Theorem spinlock_refines s c a s' :
  reachable s -> step c a s = Some s' ->
  (forall c', c' <> c -> m_hart s' c' = m_hart s c') /\ view_step s s' c.
Proof.
  intros Hi%reachable_inv Hs. pose proof (inv_hart s Hi c) as [Hnd Hno Hsie Hnew Hrel].
  pose proof (inv_cpu s Hi c) as Hcpu. pose proof (inv_locked s Hi) as Hl.
  pose proof (inv_unique s Hi) as Hu. unfold step in Hs. split.
  { intros c' Hne. destruct (h_pc (m_hart s c)), a; try done; unfold go in Hs; repeat case_match; simplify_eq;
      cbn; by rewrite ?upd_other. }
  destruct (h_pc (m_hart s c)) as [|lk|lk|lk|lk|lk|lk|lk|lk|lk|msg] eqn:Ep; destruct a; try done.
  - by eapply go_same.
  - by eapply go_same.
  - destruct (_ =? _); [|done]. by eapply go_same.
  - by eapply go_same.
  - eapply go_same; [exact Hs|]. by destruct (lk_locked _).
  - case_bool_decide as Eo; [|by eapply go_same].
    injection Hs as <-. eapply vs_panic; [cbn; by rewrite upd_same|]. left. split; [done|].
    apply held_panic_acquire. by apply Hcpu.
  - destruct (lk_locked _); simplify_eq; apply vs_same; cbn; rewrite ?upd_same; cbn; try done.
    intros msg. by rewrite Ep.
  - injection Hs as <-. assert (Ho : owns (m_hart s c) lk) by (right; by left).
    apply (vs_acquire _ _ _ lk); [|cbn; rewrite upd_same; apply held_step_acquire, Hnew; naive_solver].
    intros c' H. assert (c' = c) as -> by (apply (Hu c' c lk); [by left|done]).
    revert H. apply Hnew. naive_solver.
  - destruct (lk_locked (m_lock s lk)) eqn:El; [by eapply go_same|].
    injection Hs as <-. eapply (vs_panic _ _ _ lk); [cbn; by rewrite upd_same|]. right. split; [by left|].
    apply held_panic_release. intros H. rewrite (Hl c lk) in El; [done|by left].
  - case_bool_decide as Eo; [by eapply go_same|].
    injection Hs as <-. eapply (vs_panic _ _ _ lk); [cbn; by rewrite upd_same|]. right. split; [by right|].
    apply held_panic_release. by rewrite <- Hcpu.
  - injection Hs as <-. apply (vs_release _ _ _ lk); [by apply Hrel|].
    cbn. rewrite upd_same. by apply held_step_release, Hrel.
  - injection Hs as <-. apply vs_same; cbn; by rewrite upd_same.
  - unfold pop_off in Hs. specialize (Hno eq_refl). cbn [pending] in Hno. rewrite Hsie in Hs by lia.
    destruct (Z.ltb_spec (c_noff (h_cpu (m_hart s c))) 1); [lia|]. by eapply go_same.
Qed.

(** Hart 0 releases the lock hart 1 spins on. *)
Definition released_state : mach :=
  default mach0 (run [(0, Call_release L_kmem); (0, Go); (0, Go)]%nat contended_state).
Lemma released_reachable : reachable released_state.
Proof.
  apply (run_reachable [(0, Call_release L_kmem); (0, Go); (0, Go)]%nat contended_state);
    [apply contended_reachable|]. vm_compute. reflexivity.
Qed.
Lemma spinlock_refines_witness :
  exists s', step 0 Go released_state = Some s' /\
    h_held (m_hart released_state 0) = [L_kmem] /\ h_held (m_hart s' 0) = [] /\ view_step released_state s' 0.
Proof.
  destruct (step 0 Go released_state) as [s'|] eqn:E; [|vm_compute in E; discriminate].
  exists s'. split; [done|]. destruct (spinlock_refines released_state 0 Go s' released_reachable E) as [_ Hv].
  split; [vm_compute; reflexivity|]. split; [|exact Hv].
  vm_compute in E. injection E as <-. reflexivity.
Defined.
