(* ===== verification/SleepWakeup.v ===== *)
(** * sleep and wakeup of proc.c, interleaved

    Any number of processes that wait for a condition under a lock, in the
    pattern every caller of sleep uses,

      acquire(lk); while(!cond) sleep(chan, lk); cond = 0; release(lk);

    and of processes that make it true, [acquire(lk); cond = 1; wakeup(chan);
    release(lk);].  The steps of sleep, of wakeup's scan and of the scheduler
    are those between two lock operations.  No wakeup is lost. *)
From S2P Require Import Prelude Memory State Spinlock.

(** Where a process is.  [C_]: the waiting pattern; [Z_]: in sleep, with
    [Z_off] in sched's switch and [Z_on] back from it; [P_]: the waking pattern,
    [P_scan j] before the lock of process [j] in wakeup's loop. *)
Inductive wpc :=
| Out | C_acq | C_test | C_rel
| Z_acq | Z_rel | Z_set | Z_sched | Z_off | Z_on | Z_unl | Z_lk
| P_acq | P_set | P_scan (j : nat) | P_chk (j : nat) | P_un (j : nat) | P_rel.

#[projections(primitive)]
Record swst := mkSw {
  sw_pc : nat -> wpc; sw_lk : bool; sw_cond : bool;
  sw_plock : nat -> bool; sw_state : nat -> procstate; sw_chan : nat -> bool }.

(** [N] processes. *)
Section SleepWakeup.
Context (N : nat).

Definition at_pc (i : nat) (p : wpc) (s : swst) : swst :=
  mkSw (upd (sw_pc s) i p) (sw_lk s) (sw_cond s) (sw_plock s) (sw_state s) (sw_chan s).
Definition with_lk (b : bool) (s : swst) : swst :=
  mkSw (sw_pc s) b (sw_cond s) (sw_plock s) (sw_state s) (sw_chan s).
Definition with_cond (b : bool) (s : swst) : swst :=
  mkSw (sw_pc s) (sw_lk s) b (sw_plock s) (sw_state s) (sw_chan s).
Definition with_plock (j : nat) (b : bool) (s : swst) : swst :=
  mkSw (sw_pc s) (sw_lk s) (sw_cond s) (upd (sw_plock s) j b) (sw_state s) (sw_chan s).
Definition with_state (j : nat) (st : procstate) (s : swst) : swst :=
  mkSw (sw_pc s) (sw_lk s) (sw_cond s) (sw_plock s) (upd (sw_state s) j st) (sw_chan s).
Definition with_chan (j : nat) (b : bool) (s : swst) : swst :=
  mkSw (sw_pc s) (sw_lk s) (sw_cond s) (sw_plock s) (sw_state s) (upd (sw_chan s) j b).

(** Acquire of the lock [lk], or of a process lock: waits until it is free. *)
Definition take_lk (s : swst) : option swst := if sw_lk s then None else Some (with_lk true s).
Definition take_plock (j : nat) (s : swst) : option swst :=
  if sw_plock s j then None else Some (with_plock j true s).

(** One step of process [i]; [b] chooses what it does next from [Out]. *)
Definition sw_step (i : nat) (b : bool) (s : swst) : option swst :=
  if negb (i <? N)%nat then None
  else
    match sw_pc s i with
    | Out => Some (at_pc i (if b then C_acq else P_acq) s)
    | C_acq => at_pc i C_test <$> take_lk s
    | C_test => Some (if sw_cond s then at_pc i C_rel (with_cond false s) else at_pc i Z_acq s)
    | C_rel => Some (at_pc i Out (with_lk false s))
    (* sleep *)
    | Z_acq => at_pc i Z_rel <$> take_plock i s
    | Z_rel => Some (at_pc i Z_set (with_lk false s))
    | Z_set => Some (at_pc i Z_sched (with_state i SLEEPING (with_chan i true s)))
    | Z_sched => Some (at_pc i Z_off (with_plock i false s))
    (* the scheduler takes the lock of a RUNNABLE process and switches to it *)
    | Z_off =>
        if bool_decide (sw_state s i = RUNNABLE)
        then (fun s => at_pc i Z_on (with_state i RUNNING s)) <$> take_plock i s
        else None
    | Z_on => Some (at_pc i Z_unl (with_chan i false s))
    | Z_unl => Some (at_pc i Z_lk (with_plock i false s))
    | Z_lk => at_pc i C_test <$> take_lk s
    (* wakeup *)
    | P_acq => at_pc i P_set <$> take_lk s
    | P_set => Some (at_pc i (P_scan 0) (with_cond true s))
    | P_scan j =>
        if (j <? N)%nat then
          if (j =? i)%nat then Some (at_pc i (P_scan (S j)) s)
          else at_pc i (P_chk j) <$> take_plock j s
        else Some (at_pc i P_rel s)
    | P_chk j =>
        Some (at_pc i (P_un j)
          (if bool_decide (sw_state s j = SLEEPING) && sw_chan s j then with_state j RUNNABLE s else s))
    | P_un j => Some (at_pc i (P_scan (S j)) (with_plock j false s))
    | P_rel => Some (at_pc i Out (with_lk false s))
    end.

Definition sw0 : swst :=
  mkSw (fun _ => Out) false false (fun _ => false) (fun _ => RUNNING) (fun _ => false).

Inductive sw_reach : swst -> Prop :=
| sw_init : sw_reach sw0
| sw_next i b s s' : sw_reach s -> sw_step i b s = Some s' -> sw_reach s'.

(** ** The invariant *)
Definition holds_lk (p : wpc) : bool :=
  match p with
  | C_test | C_rel | Z_acq | Z_rel | P_set | P_scan _ | P_chk _ | P_un _ | P_rel => true
  | _ => false
  end.
(** Process [i] at [p] holds the lock of process [j]. *)
Definition holds_pl (i : nat) (p : wpc) (j : nat) : bool :=
  match p with
  | Z_rel | Z_set | Z_sched | Z_on | Z_unl => (i =? j)%nat
  | P_chk k | P_un k => (k =? j)%nat
  | _ => false
  end.
(** Process [j] is on its way to sleep, or asleep. *)
Definition committed (s : swst) (j : nat) : Prop :=
  sw_pc s j = Z_set \/ sw_pc s j = Z_sched \/ (sw_pc s j = Z_off /\ sw_state s j = SLEEPING).
(** A process at [p] is still to visit [j] in its wakeup. *)
Definition visits (p : wpc) (j : nat) : Prop :=
  match p with P_scan k | P_chk k => (k <= j)%nat | P_un k => (k < j)%nat | _ => False end.
Definition will_visit (s : swst) (j : nat) : Prop := exists i, visits (sw_pc s i) j.

Record sw_inv (s : swst) : Prop := {
  si_lk : forall i, holds_lk (sw_pc s i) = true -> sw_lk s = true;
  si_lk1 : forall i i', holds_lk (sw_pc s i) = true -> holds_lk (sw_pc s i') = true -> i = i';
  si_pl : forall i j, holds_pl i (sw_pc s i) j = true -> sw_plock s j = true;
  si_pl1 : forall i i' j, holds_pl i (sw_pc s i) j = true -> holds_pl i' (sw_pc s i') j = true -> i = i';
  si_own : forall j, sw_plock s j = true -> exists i, holds_pl i (sw_pc s i) j = true;
  si_sleep : forall j, sw_state s j = SLEEPING -> (sw_pc s j = Z_sched \/ sw_pc s j = Z_off) /\ sw_chan s j = true;
  si_sched : forall j, sw_pc s j = Z_sched -> sw_state s j = SLEEPING;
  si_off : forall j, sw_pc s j = Z_off -> sw_state s j = SLEEPING \/ sw_state s j = RUNNABLE;
  si_tested : forall j, sw_pc s j = Z_acq \/ sw_pc s j = Z_rel -> sw_cond s = false;
  si_cond : forall j, (j < N)%nat -> sw_cond s = true -> committed s j -> will_visit s j
}.

Lemma sw_inv0 : sw_inv sw0.
Proof. split; cbn; try done; naive_solver. Qed.

(** Case analysis on the process a statement is about. *)
Ltac sw_cases :=
  repeat match goal with
  | H : context [upd _ ?i _ ?j] |- _ =>
      destruct (decide (j = i)) as [?|?]; [subst; rewrite upd_same in H|rewrite (upd_other _ i _ j) in H by done]
  | |- context [upd _ ?i _ ?j] =>
      destruct (decide (j = i)) as [?|?]; [subst; rewrite upd_same|rewrite (upd_other _ i _ j) by done]
  end.

(** The steps of process [i], with what it sees. *)
Ltac sw_steps i s :=
  intros Hs; unfold sw_step in Hs;
  destruct (Nat.ltb_spec i N) as [Hi|]; [|done]; cbn [negb] in Hs;
  destruct (sw_pc s i) as [| | | | | | | | | | | | | |j0|j0|j0|] eqn:Ep;
  unfold take_lk, take_plock in Hs; repeat case_match; cbn in Hs; try done; injection Hs as <-.

Lemma step_lk i b s s' : sw_inv s -> sw_step i b s = Some s' ->
  (forall k, holds_lk (sw_pc s' k) = true -> sw_lk s' = true) /\
  (forall k k', holds_lk (sw_pc s' k) = true -> holds_lk (sw_pc s' k') = true -> k = k').
Proof.
  intros [H1 H2 _ _ _ _ _ _ _ _].
  assert (Hme : holds_lk (sw_pc s i) = true -> forall k, holds_lk (sw_pc s k) = true -> k = i) by eauto.
  pose proof (H1 i) as Hl. sw_steps i s; cbn in Hme, Hl; split; intros; cbn in *; sw_cases; cbn in *;
    first [by apply Hl | idtac]; first [done | by eauto 2 | by apply Hme | by symmetry; apply Hme
      | match goal with H : holds_lk (sw_pc s ?k) = true |- _ => pose proof (H1 k H); congruence end
      | match goal with H : holds_lk (sw_pc s ?k) = true |- _ => pose proof (Hme eq_refl k H); congruence end].
Qed.

Lemma step_pl i b s s' : sw_inv s -> sw_step i b s = Some s' ->
  (forall k j, holds_pl k (sw_pc s' k) j = true -> sw_plock s' j = true) /\
  (forall k k' j, holds_pl k (sw_pc s' k) j = true -> holds_pl k' (sw_pc s' k') j = true -> k = k').
Proof.
  intros [_ _ H1 H2 _ _ _ _ _ _].
  assert (Hme : forall j, holds_pl i (sw_pc s i) j = true -> forall k, holds_pl k (sw_pc s k) j = true -> k = i) by eauto.
  pose proof (H1 i) as Hl. sw_steps i s; cbn in Hme, Hl; split; intros; cbn in *; sw_cases; cbn in *;
    rewrite ?Nat.eqb_eq in *; subst; try done;
    first [by eauto 2 | by apply Hl, Nat.eqb_eq | by eapply Hme | by symmetry; eapply Hme
      | match goal with H : holds_pl ?k (sw_pc s ?k) ?j = true |- _ => pose proof (H1 k j H); congruence end
      | match goal with H : holds_pl ?k (sw_pc s ?k) ?j = true |- _ =>
          pose proof (Hme j ltac:(by apply Nat.eqb_eq) k H); congruence end].
Qed.
Lemma step_own i b s s' : sw_inv s -> sw_step i b s = Some s' ->
  forall j, sw_plock s' j = true -> exists k, holds_pl k (sw_pc s' k) j = true.
Proof.
  intros [_ _ _ _ Ho _ _ _ _ _].
  sw_steps i s; intros j Hj; cbn in Hj; sw_cases; try done;
    try (exists i; cbn; rewrite upd_same; cbn; by apply Nat.eqb_eq);
    (destruct (Ho _ Hj) as [k Hk]; destruct (decide (k = i)) as [->|];
     [rewrite Ep in Hk; cbn in Hk; try done; try (apply Nat.eqb_eq in Hk; congruence);
      exists i; cbn; by rewrite upd_same
     |exists k; cbn; by rewrite upd_other]).
Qed.

Lemma step_sleep i b s s' : sw_inv s -> sw_step i b s = Some s' ->
  forall j, sw_state s' j = SLEEPING -> (sw_pc s' j = Z_sched \/ sw_pc s' j = Z_off) /\ sw_chan s' j = true.
Proof.
  intros [_ _ _ _ _ H5 _ _ _ _].
  sw_steps i s; intros k Hk; cbn in *; sw_cases; cbn in *; try done;
    try (by split; [left|]); try (by apply H5);
    try (match goal with H : sw_state s ?k = SLEEPING |- _ =>
           destruct (H5 k H) as [[?|?] ?]; first [congruence | by split; [right|]] end).
Qed.

Lemma step_sched i b s s' : sw_inv s -> sw_step i b s = Some s' ->
  (forall j, sw_pc s' j = Z_sched -> sw_state s' j = SLEEPING) /\
  (forall j, sw_pc s' j = Z_off -> sw_state s' j = SLEEPING \/ sw_state s' j = RUNNABLE).
Proof.
  intros [_ _ _ Hpl _ H5 H6 H7 _ _].
  sw_steps i s; split; intros k Hk; cbn in *; sw_cases; cbn in *; try done;
    try (by apply H6); try (by apply H7); try (by left; apply H6); try (by right).
  assert (j0 = i); [|done]. apply (Hpl j0 i j0); [rewrite Hk|rewrite Ep]; cbn; by apply Nat.eqb_eq.
Qed.

Lemma step_tested i b s s' : sw_inv s -> sw_step i b s = Some s' ->
  forall j, sw_pc s' j = Z_acq \/ sw_pc s' j = Z_rel -> sw_cond s' = false.
Proof.
  intros [_ H2 _ _ _ _ _ _ H8 _].
  sw_steps i s; intros k Hk; cbn in *; sw_cases; cbn in *;
    try (by destruct Hk); try (by apply (H8 k)); try (by apply (H8 i); rewrite Ep; auto).
  all: assert (k = i) by (apply (H2 k i); [destruct Hk as [->| ->]|rewrite Ep]; done); congruence.
Qed.
(** A visit of [j] is still due after a step of [i] that does not end it. *)
Lemma will_visit_step i p s s' j :
  will_visit s j -> sw_pc s' = upd (sw_pc s) i p -> (visits (sw_pc s i) j -> visits p j) -> will_visit s' j.
Proof.
  intros [i0 Hv] E Hp. exists i0. rewrite E. destruct (decide (i0 = i)) as [->|].
  - rewrite upd_same. by apply Hp.
  - by rewrite upd_other.
Qed.

(** Going to sleep, or asleep, after a step of another process. *)
Lemma committed_other i p s s' j :
  committed s' j -> sw_pc s' = upd (sw_pc s) i p -> j <> i -> (sw_state s' j = SLEEPING -> sw_state s j = SLEEPING) ->
  committed s j.
Proof.
  unfold committed. intros Hc E Hne Hs. rewrite E, upd_other in Hc by done. naive_solver.
Qed.

Lemma committed_self p s s' i :
  committed s' i -> sw_pc s' = upd (sw_pc s) i p -> p = Z_set \/ p = Z_sched \/ p = Z_off.
Proof. unfold committed. intros Hc E. rewrite E, upd_same in Hc. naive_solver. Qed.

(** When [i] looks at process [j], it is either asleep on the channel or awake. *)
Lemma chk_committed i j s :
  sw_inv s -> sw_pc s i = P_chk j -> committed s j ->
  bool_decide (sw_state s j = SLEEPING) && sw_chan s j = true.
Proof.
  intros [_ _ _ Hpl _ H5 _ _ _ _] Ep Hc.
  assert (Hno : sw_pc s j <> Z_set /\ sw_pc s j <> Z_sched).
  { split; intros E; assert (j = i) as -> by (apply (Hpl j i j); [rewrite E|rewrite Ep]; cbn; by apply Nat.eqb_eq);
      congruence. }
  destruct Hc as [?|[?|[_ Hs]]]; [naive_solver..|].
  rewrite bool_decide_eq_true_2 by done. by apply H5.
Qed.

Lemma chk_visit i j s s' k :
  sw_inv s -> sw_pc s i = P_chk j -> sw_cond s = true -> (k < N)%nat ->
  sw_pc s' = upd (sw_pc s) i (P_un j) ->
  (forall k, sw_state s' k = SLEEPING -> sw_state s k = SLEEPING) ->
  (bool_decide (sw_state s j = SLEEPING) && sw_chan s j = true -> sw_state s' j = RUNNABLE) ->
  committed s' k -> will_visit s' k.
Proof.
  intros Hinv Ep Hc HkN E Hst Hrun Hk.
  assert (Hne : k <> i).
  { intros ->. destruct (committed_self _ _ _ _ Hk E) as [?|[?|?]]; done. }
  pose proof (committed_other i _ s s' k Hk E Hne (Hst k)) as Hks.
  eapply (will_visit_step i _ s); [by apply (si_cond s Hinv)|done|].
  rewrite Ep. cbn. intros Hle. destruct (decide (k = j)) as [->|]; [|lia].
  pose proof (chk_committed i j s Hinv Ep Hks) as Hb. specialize (Hrun Hb).
  pose proof Hb as [Hs _]%andb_true_iff. apply bool_decide_eq_true in Hs.
  destruct (si_sleep s Hinv j Hs) as [[H|H] _].
  - destruct Hk as [Hk|[_|[_ Hk]]]; [rewrite E, upd_other in Hk by done; congruence| |congruence].
    exfalso. apply Hne. apply (si_pl1 s Hinv j i j); [rewrite H|rewrite Ep]; cbn; by apply Nat.eqb_eq.
  - destruct Hk as [Hk|[Hk|[_ Hk]]]; [rewrite E, upd_other in Hk by done; congruence..|congruence].
Qed.

Lemma step_cond i b s s' : sw_inv s -> sw_step i b s = Some s' ->
  forall j, (j < N)%nat -> sw_cond s' = true -> committed s' j -> will_visit s' j.
Proof.
  intros Hinv. pose proof Hinv as [_ _ _ _ _ _ H6 _ H8 H9].
  sw_steps i s; intros k HkN Hc Hk; cbn in Hc; try done.
  all: try congruence.
  all: lazymatch goal with
    | |- will_visit (at_pc _ (P_un _) _) _ => idtac
    | _ => destruct (decide (k = i)) as [->|Hne];
         [destruct (committed_self _ _ _ _ Hk eq_refl) as [?|[?|?]]; try done
         |pose proof (committed_other i _ s _ k Hk eq_refl Hne ltac:(cbn; rewrite ?upd_other by done; done)) as Hks;
          try (eapply (will_visit_step i _ s); [by apply H9|reflexivity|]; rewrite Ep; cbn; try done; lia)]
    end.
  - rewrite (H8 i) in Hc by auto. done.
  - eapply (will_visit_step i _ s); [apply H9; [done..|by left]|reflexivity|by rewrite Ep].
  - eapply (will_visit_step i _ s); [apply H9; [done..|by right; left]|reflexivity|by rewrite Ep].
  - exists i. cbn. rewrite upd_same. cbn. lia.
  - eapply (will_visit_step i _ s); [by apply H9|reflexivity|]. rewrite Ep. cbn.
    match goal with H : (j0 =? i)%nat = true |- _ => apply Nat.eqb_eq in H end. lia.
  - destruct (will_visit_step i P_rel s (at_pc i P_rel s) k) as [i0 Hv]; [by apply H9|reflexivity| |by exists i0].
    rewrite Ep. cbn. match goal with H : (j0 <? N)%nat = false |- _ => apply Nat.ltb_ge in H end. lia.
  - apply (chk_visit i j0 s _ k Hinv Ep); [done..| |cbn; by rewrite upd_same|done].
    intros k0. cbn. sw_cases; done.
  - apply (chk_visit i j0 s _ k Hinv Ep); [done..|congruence|done].
Qed.

Lemma sw_inv_step i b s s' : sw_inv s -> sw_step i b s = Some s' -> sw_inv s'.
Proof.
  intros Hi Hs. destruct (step_lk i b s s' Hi Hs), (step_pl i b s s' Hi Hs), (step_sched i b s s' Hi Hs).
  split; [done..| | |done|done| |]; [by eapply step_own|by eapply step_sleep|by eapply step_tested|by eapply step_cond].
Qed.

Lemma sw_reach_inv s : sw_reach s -> sw_inv s.
Proof. induction 1; [apply sw_inv0|by eapply sw_inv_step]. Qed.

(** ** No lost wakeup *)

(** [k] steps of process [j] alone. *)
Fixpoint sw_run (k : nat) (j : nat) (s : swst) : option swst :=
  match k with O => Some s | S k' => sw_step j true s ≫= sw_run k' j end.

(** Process [j] is inside sleep. *)
Definition in_sleep (p : wpc) : bool :=
  match p with Z_set | Z_sched | Z_off | Z_on | Z_unl | Z_lk => true | _ => false end.
(** [j] gets out of sleep in [k] steps of its own, to find the condition true. *)
Definition comes_out (k j : nat) (s : swst) : Prop :=
  exists s', sw_run k j s = Some s' /\ sw_pc s' j = C_test /\ sw_cond s' = true.

Lemma comes_out_step k j s s1 : sw_step j true s = Some s1 -> comes_out k j s1 -> comes_out (S k) j s.
Proof. intros E (s' & Hr & H). exists s'. split; [|done]. cbn [sw_run]. by rewrite E. Qed.

Section Out.
Context (j : nat) (s : swst) (Hj : (j < N)%nat) (Hc : sw_cond s = true) (Hlk : sw_lk s = false).

Lemma step_lt (m : option swst) : (if negb (j <? N)%nat then None else m) = m.
Proof. apply Nat.ltb_lt in Hj. by rewrite Hj. Qed.

Lemma out_lk : sw_pc s j = Z_lk -> comes_out 1 j s.
Proof.
  intros Ep. eapply comes_out_step.
  - unfold sw_step. rewrite step_lt, Ep. unfold take_lk. by rewrite Hlk.
  - eexists. split; [done|]. cbn. by rewrite upd_same.
Qed.
End Out.

Lemma out_unl j s : (j < N)%nat -> sw_cond s = true -> sw_lk s = false -> sw_pc s j = Z_unl -> comes_out 2 j s.
Proof.
  intros Hj Hc Hlk Ep. eapply comes_out_step; [unfold sw_step; by rewrite step_lt, Ep|].
  apply out_lk; [done..|]. cbn. by rewrite upd_same.
Qed.
Lemma out_on j s : (j < N)%nat -> sw_cond s = true -> sw_lk s = false -> sw_pc s j = Z_on -> comes_out 3 j s.
Proof.
  intros Hj Hc Hlk Ep. eapply comes_out_step; [unfold sw_step; by rewrite step_lt, Ep|].
  apply out_unl; [done..|]. cbn. by rewrite upd_same.
Qed.
Lemma out_off j s :
  (j < N)%nat -> sw_cond s = true -> sw_lk s = false -> sw_pc s j = Z_off ->
  sw_state s j = RUNNABLE -> sw_plock s j = false -> comes_out 4 j s.
Proof.
  intros Hj Hc Hlk Ep Hst Hpl. eapply comes_out_step.
  - unfold sw_step. rewrite step_lt, Ep, bool_decide_eq_true_2 by done. unfold take_plock. by rewrite Hpl.
  - apply out_on; [done..|]. cbn. by rewrite upd_same.
Qed.

(** C3: no wakeup is lost.  Whenever the condition is true and the lock is free,
    no process is asleep or on its way to sleep waiting for it: a process inside
    sleep comes back out of it, and finds the condition true, in at most four
    steps of its own. *)
Theorem sleep_no_lost_wakeup s j :
  sw_reach s -> (j < N)%nat -> sw_cond s = true -> sw_lk s = false -> in_sleep (sw_pc s j) = true ->
  exists k, (k <= 4)%nat /\ comes_out k j s.
Proof.
  intros Hi%sw_reach_inv Hj Hc Hlk Hin.
  assert (Hfree : forall i, holds_lk (sw_pc s i) = true -> False).
  { intros i H. apply (si_lk s Hi) in H. congruence. }
  assert (Hnc : ~ committed s j).
  { intros [i Hv]%(si_cond s Hi j Hj Hc). apply (Hfree i). by destruct (sw_pc s i). }
  destruct (sw_pc s j) eqn:Ep; try done; [destruct Hnc; by left|destruct Hnc; right; by left|..].
  - exists 4%nat. split; [lia|]. apply out_off; [done..| |].
    + destruct (si_off s Hi j Ep); [|done]. destruct Hnc. right; by right.
    + apply not_true_is_false. intros [i H]%(si_own s Hi). apply (Hfree i).
      destruct (sw_pc s i) eqn:Ei; try done; cbn in H; apply Nat.eqb_eq in H; congruence.
  - exists 3%nat. split; [lia|by apply out_on].
  - exists 2%nat. split; [lia|by apply out_unl].
  - exists 1%nat. split; [lia|by apply out_lk].
Qed.
End SleepWakeup.

(** Two processes: 0 goes to sleep, and 1 passes it its wakeup. *)
Fixpoint sw_sched (N : nat) (l : list (nat * bool)) (s : swst) : option swst :=
  match l with [] => Some s | (i, b) :: l' => sw_step N i b s ≫= sw_sched N l' end.
Definition sw_trace : list (nat * bool) :=
  replicate 7 (0%nat, true) ++ replicate 9 (1%nat, false).
Definition sw_woken : swst := default sw0 (sw_sched 2 sw_trace sw0).
Lemma sw_sched_reach N l s s' : sw_reach N s -> sw_sched N l s = Some s' -> sw_reach N s'.
Proof.
  revert s. induction l as [|[i b] l IH]; intros s H; [by intros [= <-]|].
  cbn [sw_sched]. intros (s1 & Hs & Hr)%bind_Some. eapply IH; [|exact Hr]. by eapply sw_next.
Qed.
Lemma sw_woken_reach : sw_reach 2 sw_woken.
Proof. apply (sw_sched_reach 2 sw_trace sw0); [constructor|]. vm_compute. reflexivity. Qed.
Lemma sleep_no_lost_wakeup_witness :
  sw_pc sw_woken 0 = Z_off /\ exists k, (k <= 4)%nat /\ comes_out 2 k 0 sw_woken.
Proof.
  split; [vm_compute; reflexivity|].
  apply (sleep_no_lost_wakeup 2 sw_woken 0 sw_woken_reach); [lia|vm_compute; reflexivity..].
Defined.
