(* ===== verification/Kalloc.v ===== *)
(** * kernel/kalloc.c: the physical page allocator

    Free pages form a list threaded through their own first words, with its
    head in [kmem.freelist]. *)
From S2P Require Import Prelude Memory State.

(** [PGSIZE] as a count of bytes. *)
Definition PGSZ : nat := Z.to_nat PGSIZE.
Lemma PGSZ_Z : Z.of_nat PGSZ = PGSIZE.
Proof. reflexivity. Qed.
#[global] Opaque PGSZ.

Section Kalloc.
Context `{KI : KernelImage}.

Definition kfree (pa : Z) : KM unit :=
  if negb (pa mod PGSIZE =? 0) || (pa <? kend) || (PHYSTOP <=? pa) then panic "kfree"
  else
    (* Fill with junk to catch dangling refs. *)
    modify (set_mem (fun m => memset m pa 1 PGSZ));;;
    acquire L_kmem;;;
    let* h := gets k_freelist in
    modify (set_mem (fun m => st64 m pa h));;;
    modify (set_freelist (fun _ => pa));;;
    release L_kmem.

Definition kalloc : KM Z :=
  acquire L_kmem;;;
  let* r := gets k_freelist in
  when (negb (r =? 0))
    (let* nxt := gets (fun s => ld64 (k_mem s) r) in
     modify (set_freelist (fun _ => nxt)));;;
  release L_kmem;;;
  when (negb (r =? 0)) (modify (set_mem (fun m => memset m r 5 PGSZ)));;;
  ret r.

Definition freerange (pa_start pa_end : Z) : KM unit :=
  loop (fun p =>
          if p + PGSIZE <=? pa_end
          then kfree p;;; ret (inl (p + PGSIZE))
          else ret (inr tt))
       (PGROUNDUP pa_start).

Definition kinit : KM unit := freerange kend PHYSTOP.

(** ** The free list *)

(** The allocator manages page-aligned addresses between the kernel image and
    the end of RAM. *)
Definition page_ok (p : Z) : Prop := p mod PGSIZE = 0 /\ kend <= p < PHYSTOP.

Fixpoint chain (m : mem) (h : Z) (l : list Z) : Prop :=
  match l with
  | [] => h = 0
  | p :: l' => h = p /\ chain m (ld64 m p) l'
  end.

(** Memory [m] with head [h] holds the free list [l]. *)
Definition fl_inv (m : mem) (h : Z) (l : list Z) : Prop :=
  chain m h l /\ NoDup l /\ Forall page_ok l.
Definition kmem_inv (s : kstate) (l : list Z) : Prop := fl_inv (k_mem s) (k_freelist s) l.

Lemma chain_ext m m' h l :
  (forall p, p ∈ l -> ld64 m' p = ld64 m p) -> chain m h l -> chain m' h l.
Proof.
  revert h. induction l as [|p l IH]; intros h He; [done|]. simpl.
  intros [-> Hc]. split; [done|]. rewrite He by set_solver. apply IH; [set_solver|done].
Qed.

(** The state [s] with another memory and another head of the free list. *)
Definition upd (s : kstate) (m : mem) (h : Z) : kstate :=
  set_mem (fun _ => m) (set_freelist (fun _ => h) s).

Lemma upd_id s : upd s (k_mem s) (k_freelist s) = s.
Proof. by destruct s. Qed.

Lemma set_mem_upd s m h f : set_mem f (upd s m h) = upd s (f m) h.
Proof. reflexivity. Qed.

Lemma upd_upd s m h m' h' : upd (upd s m h) m' h' = upd s m' h'.
Proof. reflexivity. Qed.

(** Runs that only change memory and the free list. *)
Lemma wp_elim_upd {A} (f : KM A) s (P : A -> mem -> Z -> Prop) :
  wp f (fun r s' => exists m h, s' = upd s m h /\ P r m h) s ->
  exists r m h, f s = Ret r (upd s m h) /\ P r m h.
Proof. intros H. apply wp_elim in H as (r & s' & E & m & h & -> & HP). eauto. Qed.

(** The updates of one kalloc and of one kfree, in normal form. *)
Lemma kalloc_state s f h c :
  set_mem f (set_held (fun _ => k_held s) (set_freelist (fun _ => h) (set_held c s))) =
  upd s (f (k_mem s)) h.
Proof. reflexivity. Qed.

Lemma kfree_state s f g h c :
  set_held (fun _ => k_held (set_mem g s))
    (set_freelist (fun _ => h) (set_mem f (set_held c (set_mem g s)))) =
  upd s (f (g (k_mem s))) h.
Proof. reflexivity. Qed.

Context `{KOK : !KernelImageOk}.

Lemma page_ok_pos p : page_ok p -> 0 < p < PHYSTOP.
Proof. intros [_ ?]. pose proof kend_range. unfold KERNBASE in *. lia. Qed.

(** Distinct page addresses are a page apart. *)
Lemma pages_apart p q :
  p mod PGSIZE = 0 -> q mod PGSIZE = 0 -> p <> q -> p + PGSIZE <= q \/ q + PGSIZE <= p.
Proof. unfold PGSIZE. intros. zmod. Qed.

Lemma wp_kalloc l s (Q : Z -> kstate -> Prop) :
  kmem_inv s l -> L_kmem ∉ k_held s ->
  (l = [] -> Q 0 s) ->
  (forall p l', l = p :: l' -> page_ok p -> p ∉ l' ->
     let m' := memset (k_mem s) p 5 PGSZ in
     let h' := ld64 (k_mem s) p in
     fl_inv m' h' l' -> Q p (upd s m' h')) ->
  wp kalloc Q s.
Proof.
  intros (Hc & Hnd & Hok) Hh Hnil Hcons. unfold kalloc. wp_step.
  apply wp_acquire; [done|]. wp_steps. simpl k_freelist.
  destruct l as [|p l'].
  - simpl in Hc. rewrite Hc. simpl. wp_steps. eapply wp_release_last; [reflexivity | done |].
    wp_steps. replace (set_held _ _) with s by (destruct s; reflexivity). auto.
  - destruct Hc as [Hp Hc]. apply NoDup_cons in Hnd as [Hni Hnd].
    apply Forall_cons in Hok as [Hpo Hok]. pose proof (page_ok_pos p Hpo).
    rewrite Hp, (proj2 (Z.eqb_neq p 0)) by lia. simpl. wp_steps.
    eapply wp_release_last; [reflexivity | done |]. wp_steps.
    rewrite kalloc_state. cbv beta.
    apply (Hcons p l'); try done.
    split; [|done]. simpl. eapply chain_ext; [|exact Hc].
    intros q Hq. apply ld64_memset_out. rewrite PGSZ_Z.
    destruct (proj1 (Forall_forall _ _) Hok q Hq) as [Hq0 _].
    destruct (pages_apart p q) as [?|?]; [apply Hpo | done | by intros -> | | ];
      unfold PGSIZE in *; lia.
Qed.

Lemma wp_kfree l pa s (Q : unit -> kstate -> Prop) :
  kmem_inv s l -> page_ok pa -> pa ∉ l -> L_kmem ∉ k_held s ->
  (let m' := st64 (memset (k_mem s) pa 1 PGSZ) pa (k_freelist s) in
   fl_inv m' pa (pa :: l) -> Q tt (upd s m' pa)) ->
  wp (kfree pa) Q s.
Proof.
  intros (Hc & Hnd & Hok) [Hal Hr] Hni Hh HQ. unfold kfree.
  rewrite Hal, Z.eqb_refl, (proj2 (Z.ltb_ge pa kend)), (proj2 (Z.leb_gt PHYSTOP pa)) by lia.
  simpl. wp_steps. apply wp_acquire; [done|]. wp_steps. eapply wp_release_last; [reflexivity | done |].
  rewrite kfree_state. cbv beta.
  apply HQ. split; [|split; [by constructor | by constructor]].
  simpl. split; [done|].
  assert (Hfl : 0 <= k_freelist s < 2 ^ 64).
  { destruct l as [|p l']; simpl in Hc; [lia|]. destruct Hc as [-> _].
    apply Forall_cons in Hok as [Hp _]. apply page_ok_pos in Hp. unfold PHYSTOP, KERNBASE in *. lia. }
  rewrite ld64_st64_eq by done. eapply chain_ext; [|exact Hc].
  intros q Hq.
  destruct (proj1 (Forall_forall _ _) Hok q Hq) as [Hq0 _].
  destruct (pages_apart pa q) as [?|?]; [done | done | by intros -> | | ];
    rewrite ld64_st64_ne, ld64_memset_out by (rewrite ?PGSZ_Z; unfold PGSIZE in *; lia); done.
Qed.

(** The pages of [n] page sizes from [p], last one first: what [n] calls of
    kfree from [p] upwards leave in front of the list. *)
Fixpoint pages_from (p : Z) (n : nat) : list Z :=
  match n with O => [] | S n' => pages_from (p + PGSIZE) n' ++ [p] end.

Lemma elem_of_pages_from p n q :
  q ∈ pages_from p n <-> exists i, 0 <= i < Z.of_nat n /\ q = p + i * PGSIZE.
Proof.
  revert p. induction n as [|n IH]; intros p; cbn [pages_from].
  - rewrite elem_of_nil. split; [done|]. intros (i & ? & _). lia.
  - rewrite elem_of_app, IH, list_elem_of_singleton. split.
    + intros [(i & Hi & ->) | ->]; [exists (i + 1) | exists 0]; lia.
    + intros (i & Hi & ->). destruct (Z.eq_dec i 0) as [->|]; [right; lia|].
      left. exists (i - 1). lia.
Qed.

Lemma wp_freerange l s p e (Q : unit -> kstate -> Prop) :
  let n := Z.to_nat ((e - p) / PGSIZE) in
  kmem_inv s l -> L_kmem ∉ k_held s -> p mod PGSIZE = 0 -> kend <= p -> e <= PHYSTOP ->
  (forall q, q ∈ l -> q < p) ->
  (forall s', kmem_inv s' (pages_from p n ++ l) -> k_held s' = k_held s -> Q tt s') ->
  wp (loop (fun p => if p + PGSIZE <=? e then kfree p;;; ret (inl (p + PGSIZE))
                     else ret (inr tt)) p) Q s.
Proof.
  intros n Hinv Hh Hp Hk He Hl HQ.
  set (I := fun p' s' => exists l', kmem_inv s' l' /\ k_held s' = k_held s /\
    p' mod PGSIZE = 0 /\ kend <= p' /\ (forall q, q ∈ l' -> q < p') /\
    pages_from p n ++ l = pages_from p' (Z.to_nat ((e - p') / PGSIZE)) ++ l').
  eapply (wp_loop _ I (fun p' _ => Z.max 0 (e - p'))).
  2: { exists l. split_and!; auto. }
  2: { pose proof kend_range. unfold PHYSTOP, KERNBASE in *. lia. }
  intros p' s' (l' & Hi & Hs & Hal & Hke & Hlt & Heq).
  destruct (Z.leb_spec (p' + PGSIZE) e).
  - wp_step. eapply (wp_kfree l'); [done | split; [done|]; unfold PGSIZE in *; lia | | by rewrite Hs |].
    { intros Hin. apply Hlt in Hin. lia. }
    intros m'' Hi'. wp_steps. split; [|unfold PGSIZE in *; lia].
    exists (p' :: l'). split_and!; [done | done | unfold PGSIZE in *; zmod | unfold PGSIZE in *; lia | |].
    { intros q. rewrite elem_of_cons. intros [->|Hq]; [unfold PGSIZE; lia|].
      apply Hlt in Hq. unfold PGSIZE. lia. }
    rewrite Heq.
    replace (Z.to_nat ((e - p') / PGSIZE)) with (S (Z.to_nat ((e - (p' + PGSIZE)) / PGSIZE)))
      by (unfold PGSIZE in *; zmod).
    cbn [pages_from]. by rewrite <- app_assoc.
  - wp_steps. apply HQ; [|done].
    replace (Z.to_nat ((e - p') / PGSIZE)) with O in Heq by (unfold PGSIZE in *; zmod).
    by rewrite Heq.
Qed.

(** ** Properties *)

(** Kfree accepts exactly the page-aligned addresses between the end of the
    kernel image and the end of RAM; for any other argument it panics before
    touching memory or the list. *)
Theorem kfree_panics pa s :
  ~ page_ok pa -> kfree pa s = Panic "kfree".
Proof.
  intros Hn. unfold kfree, page_ok in *.
  destruct (Z.eqb_spec (pa mod PGSIZE) 0), (Z.ltb_spec pa kend), (Z.leb_spec PHYSTOP pa);
    try done. exfalso. apply Hn. lia.
Qed.

(** On an allocator whose free list is [l], kalloc returns 0 and changes
    nothing when [l] is empty; otherwise it returns a page of the managed range
    that leaves the list (so no later kalloc can return it again), fills exactly
    that page with 5s, keeps every byte of the other pages, releases its lock
    and keeps the list well formed. *)
Theorem kalloc_correct l s :
  kmem_inv s l -> L_kmem ∉ k_held s ->
  exists r s', kalloc s = Ret r s' /\ k_held s' = k_held s /\
  match l with
  | [] => r = 0 /\ s' = s
  | p :: l' =>
      r = p /\ page_ok p /\ (p ∉ l') /\ kmem_inv s' l' /\
      (forall a, p <= a < p + PGSIZE -> ldb (k_mem s') a = 5) /\
      (forall a, ~ (p <= a < p + PGSIZE) -> ldb (k_mem s') a = ldb (k_mem s) a)
  end.
Proof.
  intros Hi Hh. apply (wp_elim kalloc (fun r s' => k_held s' = k_held s /\ _)).
  apply (wp_kalloc l); [done | done | by intros -> |].
  intros p l' -> Hok Hni m' h' Hi'. split; [done|]. split_and!; try done;
    intros a Ha; unfold m'; simpl; rewrite ldb_memset, PGSZ_Z; ranges.
Qed.

(** A page given back with kfree is the one the next kalloc returns, the
    list is then as before, and both calls only write inside the page. *)
Theorem kfree_kalloc_roundtrip l pa s :
  kmem_inv s l -> page_ok pa -> pa ∉ l -> L_kmem ∉ k_held s ->
  exists s', bind (kfree pa) (fun _ => kalloc) s = Ret pa s' /\ kmem_inv s' l /\
    k_freelist s' = k_freelist s /\
    forall a, ~ (pa <= a < pa + PGSIZE) -> ldb (k_mem s') a = ldb (k_mem s) a.
Proof.
  intros Hi Hok Hni Hh.
  destruct (wp_elim (bind (kfree pa) (fun _ => kalloc))
    (fun r s' => r = pa /\ kmem_inv s' l /\ k_freelist s' = k_freelist s /\
       forall a, ~ (pa <= a < pa + PGSIZE) -> ldb (k_mem s') a = ldb (k_mem s) a) s)
    as (r & s' & E & -> & H); [|eauto].
  wp_step. apply (wp_kfree l); [done..|]. intros m1 Hi1.
  apply (wp_kalloc (pa :: l)); [done | done | done |].
  intros p l' [= <- <-] _ _ m2 h2 Hi2. split_and!; [done | done | |].
  - unfold h2, m1. simpl. rewrite ld64_st64_eq; [done|]. destruct Hi as (Hc & _ & Hf).
    destruct l as [|q l]; simpl in Hc; [lia|]. destruct Hc as [-> _].
    apply Forall_cons in Hf as [Hq _]. apply page_ok_pos in Hq.
    unfold PHYSTOP, KERNBASE in Hq. lia.
  - intros a Ha. unfold m2, m1. simpl. rewrite ldb_memset, PGSZ_Z.
    rewrite ldb_st64 by (unfold PGSIZE in *; lia). rewrite ldb_memset, PGSZ_Z. ranges.
Qed.

(** Kinit puts every page between the end of the kernel image (rounded up to
    a page) and PHYSTOP on the free list exactly once, whatever memory held. *)
Theorem kinit_correct s :
  k_freelist s = 0 -> L_kmem ∉ k_held s ->
  exists s' l, kinit s = Ret tt s' /\ kmem_inv s' l /\
    forall q, q ∈ l <-> page_ok q.
Proof.
  intros Hf Hh. pose proof kend_range as Hk. unfold PHYSTOP, KERNBASE in Hk.
  assert (Hup : PGROUNDUP kend = (kend + PGSIZE - 1) - (kend + PGSIZE - 1) mod PGSIZE)
    by (apply PGROUNDUP_eq; unfold PGSIZE; lia).
  set (p0 := PGROUNDUP kend) in *. set (n := Z.to_nat ((PHYSTOP - p0) / PGSIZE)).
  destruct (wp_elim kinit (fun _ s' => kmem_inv s' (pages_from p0 n)) s) as ([] & s' & E & Hi).
  { apply (wp_freerange []); try (unfold PGSIZE in *; zmod).
    - split; [done|]. split; constructor.
    - done.
    - intros q Hq. by apply elem_of_nil in Hq.
    - intros s'. by rewrite app_nil_r. }
  exists s', (pages_from p0 n). split; [done|]. split; [done|].
  intros q. rewrite elem_of_pages_from. unfold page_ok, n. split.
  - intros (i & Hi' & ->). unfold PHYSTOP, KERNBASE, PGSIZE in *. zmod.
  - intros [Hq Hr]. exists ((q - p0) / PGSIZE). unfold PHYSTOP, KERNBASE, PGSIZE in *. zmod.
Qed.

End Kalloc.

(** ** Witnesses: an allocator with two free pages *)
#[local] Existing Instance demo_image.
#[local] Existing Instance demo_image_ok.

Definition k_two : kstate :=
  set_freelist (fun _ => 0x80030000)
    (set_mem (fun _ => st64 ∅ 0x80030000 0x80040000) k0).

Lemma k_two_inv : kmem_inv k_two [0x80030000; 0x80040000].
Proof.
  split; [vm_compute; auto|]. split.
  - apply (bool_decide_unpack _). vm_compute. done.
  - repeat constructor; vm_compute; intuition discriminate.
Qed.

Lemma kfree_panics_witness : kfree 0x80021000 k0 = Panic "kfree".
Proof. apply kfree_panics. intros [_ H]. revert H. vm_compute. intuition discriminate. Defined.

Lemma kalloc_correct_witness :
  exists r s', kalloc k_two = Ret r s' /\ r = 0x80030000 /\ ldb (k_mem s') 0x80030fff = 5.
Proof.
  destruct (kalloc_correct [0x80030000; 0x80040000] k_two k_two_inv) as (r & s' & E & _ & H);
    [apply not_elem_of_nil|].
  exists r, s'. destruct H as (-> & _ & _ & _ & H5 & _). split_and!; [done | done |].
  apply H5. unfold PGSIZE. lia.
Defined.

Lemma kfree_kalloc_roundtrip_witness :
  exists s', bind (kfree 0x80050000) (fun _ => kalloc) k_two = Ret 0x80050000 s'.
Proof.
  destruct (kfree_kalloc_roundtrip [0x80030000; 0x80040000] 0x80050000 k_two) as (s' & E & _).
  - apply k_two_inv.
  - vm_compute; intuition discriminate.
  - apply (bool_decide_unpack _). vm_compute. done.
  - apply not_elem_of_nil.
  - by exists s'.
Defined.

Lemma kinit_correct_witness : exists s' l, kinit k0 = Ret tt s' /\ kmem_inv s' l /\ 0x80022000 ∈ l.
Proof.
  destruct (kinit_correct k0) as (s' & l & E & Hi & Hl); [done | apply not_elem_of_nil |].
  exists s', l. split; [done|]. split; [done|]. apply Hl. vm_compute; intuition discriminate.
Defined.
