(* ===== verification/PageTable.v ===== *)
(** * Sv39 page tables in memory: well-formed trees and their laws

    [pt_wf m T root]: in memory [m] the pages of [T] (each with its level, 2 for
    the root and 0 for the tables of leaf entries) form a tree rooted at [root].
    The laws say how looking up a virtual address reacts to storing a leaf entry
    and to linking a fresh table page, the two ways vm.c writes page tables. *)
From S2P Require Import Prelude Memory State Kalloc.

(** ** Arithmetic of addresses and entries *)
Lemma PX_eq level va : 0 <= level -> PX level va = (va / 2 ^ (12 + 9 * level)) mod 512.
Proof.
  intros. unfold PX, PXSHIFT. rewrite Z.shiftr_div_pow2 by lia.
  change 0x1FF with (Z.ones 9). by rewrite Z.land_ones by lia.
Qed.

Lemma PX_range level va : 0 <= level -> 0 <= PX level va < 512.
Proof. intros. rewrite PX_eq by done. apply Z.mod_pos_bound. lia. Qed.

(** The addresses the three indices tell apart; MAXVA, half of it, bounds those in use. *)
Definition VATOP : Z := 2 ^ 39.

Lemma va_vatop va : 0 <= va < MAXVA -> 0 <= va < VATOP.
Proof. unfold MAXVA, VATOP. lia. Qed.

(** The three indices determine the page of an address below VATOP. *)
Lemma PX_inj va va' :
  0 <= va < VATOP -> 0 <= va' < VATOP ->
  PX 2 va = PX 2 va' -> PX 1 va = PX 1 va' -> PX 0 va = PX 0 va' ->
  va / PGSIZE = va' / PGSIZE.
Proof.
  unfold VATOP, PGSIZE. intros Hv Hv'. rewrite !PX_eq by lia.
  change (12 + 9 * 2) with 30. change (12 + 9 * 1) with 21. change (12 + 9 * 0) with 12.
  change (2 ^ 39) with 549755813888 in *. change (2 ^ 30) with 1073741824.
  change (2 ^ 21) with 2097152. change (2 ^ 12) with 4096.
  assert (H3 : forall x, 0 <= x < 549755813888 ->
    x / 4096 = 262144 * (x / 1073741824 mod 512) + 512 * (x / 2097152 mod 512) + x / 4096 mod 512)
    by (intros; zmod).
  intros H2 H1 H0. rewrite (H3 va), (H3 va') by done. by rewrite H2, H1, H0.
Qed.

Lemma PX_page level va : 0 <= level -> PX level (PGROUNDDOWN va) = PX level va.
Proof.
  intros. rewrite !PX_eq, PGROUNDDOWN_eq by done. f_equal.
  replace (2 ^ (12 + 9 * level)) with (PGSIZE * 2 ^ (9 * level)) by (unfold PGSIZE; rewrite Z.pow_add_r by lia; lia).
  rewrite <- !Z.div_div by (unfold PGSIZE; lia). f_equal. unfold PGSIZE. zmod.
Qed.

Lemma lor_low x y n : 0 <= n -> 0 <= y < 2 ^ n -> Z.lor (x * 2 ^ n) y = x * 2 ^ n + y.
Proof.
  intros Hn Hy. rewrite <- (Z.add_lor_land (x * 2 ^ n) y).
  enough (H : Z.land (x * 2 ^ n) y = 0) by lia.
  apply Z.bits_inj'. intros i Hi. rewrite Z.bits_0, Z.land_spec.
  destruct (Z.lt_ge_cases i n).
  - by rewrite <- Z.shiftl_mul_pow2, Z.shiftl_spec_low.
  - destruct (Z.eq_dec y 0) as [->|]; [by rewrite Z.bits_0, andb_false_r|].
    rewrite (Z.bits_above_log2 y i); [by rewrite andb_false_r | lia |].
    apply Z.log2_lt_pow2; [lia|]. eapply Z.lt_le_trans; [apply Hy|]. apply Z.pow_le_mono_r; lia.
Qed.

(** An entry for page [pa] with flag bits [f]. *)
Lemma mkpte_eq pa f :
  0 <= pa < 2 ^ 56 -> pa mod PGSIZE = 0 -> 0 <= f < 1024 ->
  Z.lor (PA2PTE pa) f = pa / PGSIZE * 1024 + f.
Proof.
  intros Hpa Hal Hf. unfold PA2PTE, PGSIZE in *.
  rewrite Z.shiftr_div_pow2, Z.shiftl_mul_pow2 by lia. change (2 ^ 12) with 4096.
  rewrite u64_small.
  - apply (lor_low _ _ 10); lia.
  - change (2 ^ 56) with 72057594037927936 in *. change (2 ^ 64) with 18446744073709551616.
    change (2 ^ 10) with 1024. zmod.
Qed.

Lemma PTE2PA_eq x f :
  0 <= x < 2 ^ 44 -> 0 <= f < 1024 -> PTE2PA (x * 1024 + f) = x * PGSIZE.
Proof.
  intros Hx Hf. unfold PTE2PA, PGSIZE. rewrite Z.shiftr_div_pow2, Z.shiftl_mul_pow2 by lia.
  change (2 ^ 10) with 1024. replace ((x * 1024 + f) / 1024) with x by zmod.
  apply u64_small. change (2 ^ 44) with 17592186044416 in *.
  change (2 ^ 12) with 4096. change (2 ^ 64) with 18446744073709551616. lia.
Qed.

Lemma has_V e : has e PTE_V = Z.odd e.
Proof.
  unfold has, PTE_V. change 1 with (Z.ones 1) at 1. rewrite Z.land_ones by lia.
  change (2 ^ 1) with 2. rewrite Zmod_odd. by destruct (Z.odd e).
Qed.

Lemma PTE_FLAGS_eq x f : 0 <= f < 1024 -> PTE_FLAGS (x * 1024 + f) = f.
Proof.
  intros. unfold PTE_FLAGS. change 0x3FF with (Z.ones 10). rewrite Z.land_ones by lia.
  change (2 ^ 10) with 1024. zmod.
Qed.

(** [has] for the flag bits only looks at the flag bits. *)
Lemma has_low e f : 0 <= f < 1024 -> has (PTE_FLAGS e) f = has e f.
Proof.
  intros Hf. unfold has, PTE_FLAGS. do 2 f_equal. rewrite <- Z.land_assoc. f_equal.
  change 0x3FF with (Z.ones 10). rewrite Z.land_comm, Z.land_ones by lia. by apply Z.mod_small.
Qed.

(** ** Trees of table pages *)
Section Tree.
Context `{KI : KernelImage} `{KOK : !KernelImageOk}.
Implicit Types (m : mem) (T : gmap Z Z).

Definition pte_at (m : mem) (pt i : Z) : Z := ld64 m (pt + 8 * i).
Definition next_pt (m : mem) (pt i : Z) : option Z :=
  let e := pte_at m pt i in if has e PTE_V then Some (PTE2PA e) else None.

(** Address of the leaf entry of [va], where the tables on its path exist. *)
Definition leaf_addr (m : mem) (root va : Z) : option Z :=
  match next_pt m root (PX 2 va) with
  | None => None
  | Some p1 =>
      match next_pt m p1 (PX 1 va) with
      | None => None
      | Some p0 => Some (p0 + 8 * PX 0 va)
      end
  end.

(** The entry the MMU finds for [va]; 0 (invalid) where a table is missing. *)
Definition pte_of (m : mem) (root va : Z) : Z :=
  match leaf_addr m root va with Some a => ld64 m a | None => 0 end.

Record pt_wf (m : mem) (T : gmap Z Z) (root : Z) : Prop := {
  wf_root p : T !! p = Some 2 <-> p = root;
  wf_page p l : T !! p = Some l -> page_ok p /\ 0 <= l <= 2;
  wf_next p l i q : T !! p = Some l -> 1 <= l -> 0 <= i < 512 ->
    next_pt m p i = Some q -> T !! q = Some (l - 1);
  wf_inj p l i p' l' i' q : T !! p = Some l -> 1 <= l -> 0 <= i < 512 ->
    T !! p' = Some l' -> 1 <= l' -> 0 <= i' < 512 ->
    next_pt m p i = Some q -> next_pt m p' i' = Some q -> p = p' /\ i = i';
  wf_ptr p l i : T !! p = Some l -> 1 <= l -> 0 <= i < 512 ->
    has (pte_at m p i) PTE_V = true ->
    has (pte_at m p i) (Z.lor (Z.lor PTE_R PTE_W) PTE_X) = false;
  wf_reach p l : T !! p = Some l -> l < 2 ->
    exists q i, T !! q = Some (l + 1) /\ 0 <= i < 512 /\ next_pt m q i = Some p
}.

Lemma ld64_pte_at m pt i : ld64 m (pt + 8 * i) = pte_at m pt i.
Proof. reflexivity. Qed.

(** Slots of distinct tables, or distinct slots, do not overlap. *)
Lemma pte_at_st64 m p i v q j :
  page_ok p -> page_ok q -> 0 <= i < 512 -> 0 <= j < 512 -> 0 <= v < 2 ^ 64 ->
  pte_at (st64 m (p + 8 * i) v) q j = if decide (p = q /\ i = j) then v else pte_at m q j.
Proof.
  intros [Hp _] [Hq _] Hi Hj Hv. unfold pte_at. case_decide as H.
  - destruct H as [-> ->]. by apply ld64_st64_eq.
  - apply ld64_st64_ne. destruct (Z.eq_dec p q) as [->|Hne]; [lia|].
    destruct (pages_apart p q) as [?|?]; [done..| |]; unfold PGSIZE in *; lia.
Qed.

Lemma pte_at_memset m p n q j :
  page_ok p -> page_ok q -> 0 <= j < 512 ->
  pte_at (memset m p n PGSZ) q j =
  if decide (p = q) then (if decide (n = 0) then 0 else pte_at (memset m p n PGSZ) q j)
  else pte_at m q j.
Proof.
  intros [Hp _] [Hq _] Hj. unfold pte_at. case_decide as H.
  - subst. case_decide; [subst|done]. apply ld64_memset_in; rewrite ?PGSZ_Z; unfold PGSIZE; lia.
  - apply ld64_memset_out. rewrite PGSZ_Z.
    destruct (pages_apart p q) as [?|?]; [done..| |]; unfold PGSIZE in *; lia.
Qed.

(** Interior entries of two memories agree. *)
Definition same_interior T m m' : Prop :=
  forall p l i, T !! p = Some l -> 1 <= l -> 0 <= i < 512 -> pte_at m' p i = pte_at m p i.

Lemma same_interior_next T m m' p l i :
  same_interior T m m' -> T !! p = Some l -> 1 <= l -> 0 <= i < 512 ->
  next_pt m' p i = next_pt m p i.
Proof. intros H ???. unfold next_pt. by rewrite (H p l i). Qed.

Lemma pt_wf_ext T m m' root : same_interior T m m' -> pt_wf m T root -> pt_wf m' T root.
Proof.
  intros He [H1 H2 H3 H4 H5 H6]. split; try done.
  - intros p l i q Hp Hl Hi. rewrite (same_interior_next T m m' p l i) by done. eauto.
  - intros p l i p' l' i' q Hp Hl Hi Hp' Hl' Hi'.
    rewrite (same_interior_next T m m' p l i), (same_interior_next T m m' p' l' i') by done. eauto.
  - intros p l i Hp Hl Hi. rewrite (He p l i) by done. eauto.
  - intros p l Hp Hl. destruct (H6 p l Hp Hl) as (q & i & Hq & Hi & Hn).
    exists q, i. rewrite (same_interior_next T m m' q (l + 1) i); try done.
    destruct (H2 p l Hp). lia.
Qed.

Lemma next_pt_root T m root va p1 :
  pt_wf m T root -> next_pt m root (PX 2 va) = Some p1 -> T !! p1 = Some 1.
Proof.
  intros Hw Hn. apply (wf_next _ _ _ Hw root 2 (PX 2 va) p1);
    [by apply (wf_root _ _ _ Hw) | lia | by apply PX_range | done].
Qed.

Lemma leaf_addr_spec T m root va a :
  pt_wf m T root -> leaf_addr m root va = Some a ->
  exists p1 p0, next_pt m root (PX 2 va) = Some p1 /\ next_pt m p1 (PX 1 va) = Some p0 /\
    T !! p1 = Some 1 /\ T !! p0 = Some 0 /\ a = p0 + 8 * PX 0 va.
Proof.
  intros Hw Ha. unfold leaf_addr in Ha.
  destruct (next_pt m root (PX 2 va)) as [p1|] eqn:E1; [|done].
  destruct (next_pt m p1 (PX 1 va)) as [p0|] eqn:E0; [|done].
  injection Ha as <-. exists p1, p0.
  assert (H1 : T !! p1 = Some 1) by (by eapply next_pt_root).
  split_and!; try done.
  apply (wf_next _ _ _ Hw p1 1 (PX 1 va) p0); [done | lia | by apply PX_range | done].
Qed.

Lemma leaf_addr_intro m root va p1 p0 :
  next_pt m root (PX 2 va) = Some p1 -> next_pt m p1 (PX 1 va) = Some p0 ->
  leaf_addr m root va = Some (p0 + 8 * PX 0 va).
Proof. intros H1 H0. unfold leaf_addr. by rewrite H1, H0. Qed.

Lemma leaf_addr_none m root va :
  next_pt m root (PX 2 va) = None \/
  (exists p1, next_pt m root (PX 2 va) = Some p1 /\ next_pt m p1 (PX 1 va) = None) ->
  leaf_addr m root va = None.
Proof. unfold leaf_addr. intros [->|(p1 & -> & ->)]; done. Qed.

Lemma leaf_addr_ext T m m' root va :
  pt_wf m T root -> same_interior T m m' -> leaf_addr m' root va = leaf_addr m root va.
Proof.
  intros Hw He. unfold leaf_addr.
  rewrite (same_interior_next T m m' root 2);
    [| done | by apply (wf_root _ _ _ Hw) | lia | by apply PX_range].
  destruct (next_pt m root (PX 2 va)) as [p1|] eqn:E1; [|done].
  rewrite (same_interior_next T m m' p1 1); [done | done | | lia | by apply PX_range].
  by eapply next_pt_root.
Qed.

(** Memories that agree on every entry of the tree denote the same lookup. *)
Definition same_tables T m m' : Prop :=
  forall p l i, T !! p = Some l -> 0 <= i < 512 -> pte_at m' p i = pte_at m p i.

Lemma same_tables_interior T m m' : same_tables T m m' -> same_interior T m m'.
Proof. intros H p l i Hp _ Hi. by apply (H p l i). Qed.

Lemma pte_of_ext T m m' root va :
  pt_wf m T root -> same_tables T m m' -> pte_of m' root va = pte_of m root va.
Proof.
  intros Hw He. unfold pte_of.
  rewrite (leaf_addr_ext T m m') by (done || by apply same_tables_interior).
  destruct (leaf_addr m root va) as [a|] eqn:Ha; [|done].
  destruct (leaf_addr_spec _ _ _ _ _ Hw Ha) as (p1 & p0 & _ & _ & _ & T0 & ->).
  apply (He p0 0 (PX 0 va) T0). by apply PX_range.
Qed.

(** Entries only depend on the bytes of their page. *)
Lemma pte_at_ext m m' p i :
  0 <= i < 512 -> (forall a, p <= a < p + PGSIZE -> ldb m' a = ldb m a) ->
  pte_at m' p i = pte_at m p i.
Proof. intros Hi H. apply ld64_ext. intros j Hj. apply H. unfold PGSIZE. lia. Qed.

Lemma next_pt_same m m' p i : pte_at m' p i = pte_at m p i -> next_pt m' p i = next_pt m p i.
Proof. intros H. unfold next_pt. by rewrite H. Qed.

Lemma next_pt_valid m p i :
  has (pte_at m p i) PTE_V = true -> next_pt m p i = Some (PTE2PA (pte_at m p i)).
Proof. intros H. unfold next_pt. by rewrite H. Qed.

Lemma next_pt_invalid m p i : has (pte_at m p i) PTE_V = false -> next_pt m p i = None.
Proof. intros H. unfold next_pt. by rewrite H. Qed.

(** Two addresses with the same leaf entry are on the same page. *)
Lemma leaf_addr_inj T m root va va' a :
  pt_wf m T root -> 0 <= va < VATOP -> 0 <= va' < VATOP ->
  leaf_addr m root va = Some a -> leaf_addr m root va' = Some a -> va / PGSIZE = va' / PGSIZE.
Proof.
  intros Hw Hv Hv' Ha Ha'.
  destruct (leaf_addr_spec _ _ _ _ _ Hw Ha) as (p1 & p0 & N1 & N0 & T1 & T0 & Ea).
  destruct (leaf_addr_spec _ _ _ _ _ Hw Ha') as (q1 & q0 & N1' & N0' & T1' & T0' & Ea').
  destruct (wf_page _ _ _ Hw _ _ T0) as [[Hal _] _].
  destruct (wf_page _ _ _ Hw _ _ T0') as [[Hal' _] _].
  pose proof (PX_range 0 va ltac:(lia)). pose proof (PX_range 0 va' ltac:(lia)).
  assert (p0 = q0) as <-.
  { destruct (Z.eq_dec p0 q0); [done|].
    destruct (pages_apart p0 q0) as [?|?]; [done..| |]; unfold PGSIZE in *; lia. }
  assert (HR : T !! root = Some 2) by (by apply (wf_root _ _ _ Hw)).
  destruct (wf_inj _ _ _ Hw p1 1 (PX 1 va) q1 1 (PX 1 va') p0) as [<- E1];
    [done | lia | by apply PX_range | done | lia | by apply PX_range | done | done |].
  destruct (wf_inj _ _ _ Hw root 2 (PX 2 va) root 2 (PX 2 va') p1) as [_ E2];
    [done | lia | by apply PX_range | done | lia | by apply PX_range | done | done |].
  apply PX_inj; try done. lia.
Qed.

Lemma pte_of_range m root va : 0 <= pte_of m root va < 2 ^ 64.
Proof. unfold pte_of. destruct (leaf_addr _ _ _); [apply ld64_range | lia]. Qed.

Lemma pte_of_leaf m root va a : leaf_addr m root va = Some a -> pte_of m root va = ld64 m a.
Proof. intros H. unfold pte_of. by rewrite H. Qed.

Lemma pte_of_no_leaf m root va : leaf_addr m root va = None -> pte_of m root va = 0.
Proof. intros H. unfold pte_of. by rewrite H. Qed.

(** Two addresses of one page share their entry. *)
Lemma leaf_addr_page m root va : leaf_addr m root (PGROUNDDOWN va) = leaf_addr m root va.
Proof. unfold leaf_addr. by rewrite !PX_page by lia. Qed.

Lemma pte_of_page m root va : pte_of m root (PGROUNDDOWN va) = pte_of m root va.
Proof. unfold pte_of. by rewrite leaf_addr_page. Qed.

Lemma pte_of_same_page m root va va' :
  va / PGSIZE = va' / PGSIZE -> pte_of m root va = pte_of m root va'.
Proof.
  intros H. rewrite <- (pte_of_page m root va), <- (pte_of_page m root va'). f_equal.
  rewrite !PGROUNDDOWN_eq. unfold PGSIZE in *. zmod.
Qed.

Lemma leaf_addr_nonzero T m root va a :
  pt_wf m T root -> leaf_addr m root va = Some a -> a <> 0.
Proof.
  intros Hw Ha. destruct (leaf_addr_spec _ _ _ _ _ Hw Ha) as (p1 & p0 & _ & _ & _ & T0 & ->).
  destruct (wf_page _ _ _ Hw _ _ T0) as [Hp0 _]. pose proof (page_ok_pos _ Hp0).
  pose proof (PX_range 0 va). lia.
Qed.

(** Storing a leaf entry changes the lookup of its page and no other. *)
Lemma store_leaf T m root va a v :
  pt_wf m T root -> 0 <= va < MAXVA -> leaf_addr m root va = Some a -> 0 <= v < 2 ^ 64 ->
  pt_wf (st64 m a v) T root /\
  (forall va', leaf_addr (st64 m a v) root va' = leaf_addr m root va') /\
  (forall va', 0 <= va' < VATOP ->
     pte_of (st64 m a v) root va' =
     if decide (va / PGSIZE = va' / PGSIZE) then v else pte_of m root va').
Proof.
  intros Hw Hva Ha Hv.
  destruct (leaf_addr_spec _ _ _ _ _ Hw Ha) as (p1 & p0 & N1 & N0 & T1 & T0 & Ea).
  assert (He : same_interior T m (st64 m a v)).
  { intros p l i Hp Hl Hi. subst a. rewrite pte_at_st64; try done.
    - rewrite decide_False; [done|]. intros [-> _]. rewrite T0 in Hp. injection Hp as <-. lia.
    - by apply (wf_page _ _ _ Hw _ _ T0).
    - by apply (wf_page _ _ _ Hw _ _ Hp).
    - by apply PX_range. }
  assert (Hl : forall va', leaf_addr (st64 m a v) root va' = leaf_addr m root va')
    by (intros; by apply (leaf_addr_ext T)).
  split; [by apply (pt_wf_ext T m)|]. split; [done|].
  intros va' Hva'. unfold pte_of at 1. rewrite Hl. case_decide as Hd.
  - rewrite <- (leaf_addr_page m root va'), <- (leaf_addr_page m root va) in *.
    replace (PGROUNDDOWN va') with (PGROUNDDOWN va).
    2: { rewrite !PGROUNDDOWN_eq. unfold PGSIZE in *. zmod. }
    rewrite Ha. by apply ld64_st64_eq.
  - unfold pte_of. destruct (leaf_addr m root va') as [a'|] eqn:Ha'; [|done].
    destruct (leaf_addr_spec _ _ _ _ _ Hw Ha') as (q1 & q0 & M1 & M0 & U1 & U0 & Ea').
    pose proof (PX_range 0 va ltac:(lia)). pose proof (PX_range 0 va' ltac:(lia)).
    assert (Hp0 : page_ok p0) by (by apply (wf_page _ _ _ Hw _ _ T0)).
    assert (Hq0 : page_ok q0) by (by apply (wf_page _ _ _ Hw _ _ U0)).
    subst a a'. change (pte_at (st64 m (p0 + 8 * PX 0 va) v) q0 (PX 0 va') = pte_at m q0 (PX 0 va')).
    rewrite pte_at_st64 by done. rewrite decide_False; [done|].
    intros [-> Heq]. apply Hd. apply va_vatop in Hva. rewrite Heq in Ha. by apply (leaf_addr_inj T m root _ _ (q0 + 8 * PX 0 va')).
Qed.

(** ** Linking a fresh, zeroed table page *)
Section Link.
Variables (T : gmap Z Z) (m : mem) (root p l i q : Z).
Hypotheses (Hw : pt_wf m T root) (Hp : T !! p = Some l) (Hl : 1 <= l) (Hi : 0 <= i < 512)
  (Hnone : next_pt m p i = None) (Hq : page_ok q) (Hfresh : T !! q = None).

Let m' := st64 (memset m q 0 PGSZ) (p + 8 * i) (Z.lor (PA2PTE q) PTE_V).
Let T' := <[q := l - 1]> T.

Lemma link_pte : Z.lor (PA2PTE q) PTE_V = q / PGSIZE * 1024 + 1.
Proof.
  pose proof (page_ok_pos q Hq). destruct Hq as [Hal _].
  apply mkpte_eq; [unfold PHYSTOP, KERNBASE in *; lia | done | unfold PTE_V; lia].
Qed.

Lemma link_p_ne_q : p <> q.
Proof. intros ->. by rewrite Hfresh in Hp. Qed.

Lemma link_pte_at r j :
  page_ok r -> 0 <= j < 512 ->
  pte_at m' r j =
  if decide (p = r /\ i = j) then q / PGSIZE * 1024 + 1
  else if decide (q = r) then 0 else pte_at m r j.
Proof.
  intros Hr Hj. assert (Hpo : page_ok p) by (by apply (wf_page _ _ _ Hw _ _ Hp)).
  unfold m'. rewrite link_pte, pte_at_st64; try done.
  - case_decide; [done|]. rewrite pte_at_memset by done.
    rewrite (decide_True (P := 0 = 0)) by done. done.
  - pose proof (page_ok_pos q Hq). unfold PHYSTOP, KERNBASE, PGSIZE in *.
    change (2 ^ 64) with 18446744073709551616. zmod.
Qed.

Lemma link_next_q : next_pt m' p i = Some q.
Proof.
  pose proof (page_ok_pos q Hq) as Hq1. assert (Hpo : page_ok p) by (by apply (wf_page _ _ _ Hw _ _ Hp)).
  unfold next_pt. rewrite link_pte_at, decide_True by done.
  rewrite has_V, Z.odd_add, Z.odd_mul. rewrite andb_false_r. simpl. f_equal.
  destruct Hq as [Hal _]. unfold PHYSTOP, KERNBASE in *.
  rewrite PTE2PA_eq by (unfold PGSIZE in *; change (2 ^ 44) with 17592186044416; zmod).
  unfold PGSIZE in *. zmod.
Qed.

Lemma link_next r j :
  page_ok r -> 0 <= j < 512 ->
  next_pt m' r j =
  if decide (p = r /\ i = j) then Some q else if decide (q = r) then None else next_pt m r j.
Proof.
  intros Hr Hj. case_decide as Hd; [destruct Hd as [<- <-]; apply link_next_q|].
  unfold next_pt. rewrite link_pte_at, decide_False by done. by case_decide.
Qed.

Lemma link_lookup r : r <> q -> T' !! r = T !! r.
Proof. intros. by apply lookup_insert_ne. Qed.

Lemma link_old r k : T !! r = Some k -> r <> q.
Proof. intros H ->. by rewrite Hfresh in H. Qed.

Lemma link_page r k : T' !! r = Some k -> page_ok r /\ 0 <= k <= 2.
Proof.
  destruct (Z.eq_dec r q) as [->|Hne].
  - unfold T'. rewrite lookup_insert_eq. intros [= <-]. split; [done|].
    destruct (wf_page _ _ _ Hw _ _ Hp). lia.
  - rewrite link_lookup by done. apply (wf_page _ _ _ Hw).
Qed.

(** A valid interior entry afterwards is the new one or an old one. *)
Lemma link_next_inv r k j x :
  T' !! r = Some k -> 1 <= k -> 0 <= j < 512 -> next_pt m' r j = Some x ->
  (r = p /\ j = i /\ x = q /\ k = l) \/
  (T !! r = Some k /\ next_pt m r j = Some x /\ T !! x = Some (k - 1)).
Proof.
  intros Hr Hk Hj. destruct (link_page _ _ Hr) as [Hrp _]. rewrite link_next by done.
  case_decide as Hd.
  - destruct Hd as [<- <-]. intros [= <-]. left. rewrite link_lookup in Hr by apply link_p_ne_q.
    split_and!; congruence.
  - case_decide as Hd'; [done|]. intros Hx. right.
    rewrite link_lookup in Hr by done. split_and!; [done..|]. by apply (wf_next _ _ _ Hw r k j x).
Qed.

Lemma link_wf : pt_wf m' T' root.
Proof.
  assert (Hr2 : T !! root = Some 2) by (by apply (wf_root _ _ _ Hw)).
  split.
  - intros r. destruct (Z.eq_dec r q) as [->|Hne].
    + unfold T'. rewrite lookup_insert_eq. destruct (wf_page _ _ _ Hw _ _ Hp).
      split; [intros [= ?]; lia | intros ->; by rewrite Hfresh in Hr2].
    + rewrite link_lookup by done. apply (wf_root _ _ _ Hw).
  - apply link_page.
  - intros r k j x Hr Hk Hj Hx.
    destruct (link_next_inv _ _ _ _ Hr Hk Hj Hx) as [(-> & -> & -> & ->)|(_ & _ & H)].
    + unfold T'. by rewrite lookup_insert_eq.
    + rewrite link_lookup; [done|]. by eapply link_old.
  - intros r k j r' k' j' x Hr Hk Hj Hr' Hk' Hj' Hx Hx'.
    destruct (link_next_inv _ _ _ _ Hr Hk Hj Hx) as [(-> & -> & -> & _)|(Hr1 & Hx1 & H)],
      (link_next_inv _ _ _ _ Hr' Hk' Hj' Hx') as [(-> & -> & E & _)|(Hr1' & Hx1' & H')].
    + split; reflexivity.
    + rewrite Hfresh in H'. discriminate H'.
    + rewrite E, Hfresh in H. discriminate H.
    + by apply (wf_inj _ _ _ Hw r k j r' k' j' x).
  - intros r k j Hr Hk Hj. destruct (link_page _ _ Hr) as [Hrp _].
    rewrite link_pte_at by done. case_decide.
    + intros _. rewrite <- has_low, PTE_FLAGS_eq by (vm_compute; intuition discriminate). done.
    + case_decide; [done|]. rewrite link_lookup in Hr by done. by apply (wf_ptr _ _ _ Hw r k j).
  - intros r k Hr Hk. destruct (Z.eq_dec r q) as [->|Hne].
    + unfold T' in Hr. rewrite lookup_insert_eq in Hr. injection Hr as <-.
      exists p, i. rewrite link_lookup by apply link_p_ne_q. rewrite link_next_q.
      split_and!; [by rewrite Z.sub_add | lia..| done].
    + rewrite link_lookup in Hr by done.
      destruct (wf_reach _ _ _ Hw r k Hr Hk) as (r' & j & Hr' & Hj & Hx).
      exists r', j. rewrite link_lookup by (by eapply link_old). split_and!; [done | lia..|].
      rewrite link_next, decide_False, decide_False; try done.
      * intros E. rewrite <- E, Hfresh in Hr'. discriminate.
      * intros [E1 E2]. rewrite <- E1, <- E2, Hnone in Hx. discriminate.
      * by apply (wf_page _ _ _ Hw _ _ Hr').
Qed.

Lemma link_pte_of va : pte_of m' root va = pte_of m root va.
Proof.
  assert (Hr2 : T !! root = Some 2) by (by apply (wf_root _ _ _ Hw)).
  assert (Hrp : page_ok root) by (by apply (wf_page _ _ _ Hw _ _ Hr2)).
  pose proof (PX_range 0 va ltac:(lia)) as P0. pose proof (PX_range 1 va ltac:(lia)) as P1.
  pose proof (PX_range 2 va ltac:(lia)) as P2.
  assert (Hqq : forall j, 0 <= j < 512 -> pte_at m' q j = 0).
  { intros j Hj. rewrite link_pte_at by done. rewrite decide_False, decide_True; [done..|].
    intros [E _]. by apply link_p_ne_q. }
  unfold pte_of, leaf_addr. rewrite link_next by done. case_decide as Hd.
  - assert (Hn : next_pt m root (PX 2 va) = None)
      by (destruct Hd as [E1 E2]; rewrite <- E1, <- E2; exact Hnone).
    rewrite Hn.
    unfold next_pt. rewrite Hqq by done. reflexivity.
  - rewrite (decide_False (P := q = root)) by (intros E; rewrite <- E, Hfresh in Hr2; discriminate).
    destruct (next_pt m root (PX 2 va)) as [p1|] eqn:E1; [|reflexivity].
    assert (H1 : T !! p1 = Some 1) by (by eapply next_pt_root).
    rewrite link_next; [| by apply (wf_page _ _ _ Hw _ _ H1) | done]. case_decide as Hd1.
    + assert (Hn : next_pt m p1 (PX 1 va) = None)
        by (destruct Hd1 as [E2 E3]; rewrite <- E2, <- E3; exact Hnone).
      rewrite Hn. rewrite ld64_pte_at. by apply Hqq.
    + rewrite decide_False by (intros E; rewrite <- E, Hfresh in H1; discriminate).
      destruct (next_pt m p1 (PX 1 va)) as [p0|] eqn:E0; [|reflexivity].
      assert (H0 : T !! p0 = Some 0) by (by apply (wf_next _ _ _ Hw p1 1 (PX 1 va) p0)).
      rewrite !ld64_pte_at.
      rewrite link_pte_at; [| by apply (wf_page _ _ _ Hw _ _ H0) | done].
      rewrite decide_False, decide_False; try done.
      * intros E. rewrite <- E, Hfresh in H0. discriminate.
      * intros [E _]. assert (l = 0) by congruence. lia.
Qed.
End Link.
End Tree.

#[global] Opaque next_pt pte_at leaf_addr pte_of.
