(* ===== verification/Vm.v ===== *)
(** * kernel/vm.c: Sv39 page tables and user memory

    Page tables live in byte memory, as the MMU sees them.  [PageTable] says
    when a memory holds a well-formed tree, and [VmSpec], [UserMem], [UserCopy]
    and [FreeWalk] what the operations mean. *)
From S2P Require Import Prelude Memory State Kalloc.

Section Vm.
Context `{KI : KernelImage}.

(** ** The code *)
Definition ld (a : Z) : KM Z := gets (fun s => ld64 (k_mem s) a).
Definition st (a v : Z) : KM unit := modify (set_mem (fun m => st64 m a v)).
Definition zero_page (pa : Z) : KM unit := modify (set_mem (fun m => memset m pa 0 PGSZ)).

(** One round of walk's loop: the table of the next level, or [None] if it
    is missing and not (or cannot be) allocated. *)
Definition walk_level (alloc : bool) (va level pagetable : Z) : KM (option Z) :=
  let pte := pagetable + 8 * PX level va in
  let* e := ld pte in
  if has e PTE_V then ret (Some (PTE2PA e))
  else if negb alloc then ret None
  else
    let* pg := kalloc in
    if pg =? 0 then ret None
    else
      zero_page pg;;;
      st pte (Z.lor (PA2PTE pg) PTE_V);;;
      ret (Some pg).

Definition walk (pagetable va : Z) (alloc : bool) : KM Z :=
  if MAXVA <=? va then panic "walk"
  else
    let* r := walk_level alloc va 2 pagetable in
    match r with
    | None => ret 0
    | Some p1 =>
        let* r := walk_level alloc va 1 p1 in
        match r with
        | None => ret 0
        | Some p0 => ret (p0 + 8 * PX 0 va)
        end
    end.

Definition walkaddr (pagetable va : Z) : KM Z :=
  if MAXVA <=? va then ret 0
  else
    let* pte := walk pagetable va false in
    if pte =? 0 then ret 0
    else
      let* e := ld pte in
      if negb (has e PTE_V) then ret 0
      else if negb (has e PTE_U) then ret 0
      else ret (PTE2PA e).

(** One round of mappages' loop, on [a] and [pa]. *)
Definition map_page (pagetable perm last : Z) (x : Z * Z) : KM (Z * Z + Z) :=
  let '(a, pa) := x in
  let* pte := walk pagetable a true in
  if pte =? 0 then ret (inr (-1))
  else
    let* e := ld pte in
    if has e PTE_V then panic "mappages: remap"
    else
      st pte (Z.lor (Z.lor (PA2PTE pa) perm) PTE_V);;;
      if a =? last then ret (inr 0)
      else ret (inl (u64 (a + PGSIZE), u64 (pa + PGSIZE))).

Definition mappages (pagetable va size pa perm : Z) : KM Z :=
  if size =? 0 then panic "mappages: size"
  else
    let last := PGROUNDDOWN (u64 (va + size - 1)) in
    loop (map_page pagetable perm last) (PGROUNDDOWN va, pa).

Definition kvmmap (kpgtbl va pa sz perm : Z) : KM unit :=
  let* r := mappages kpgtbl va sz pa perm in
  if r =? 0 then ret tt else panic "kvmmap".

(** One round of uvmunmap's loop, on [a] below [lim]. *)
Definition unmap_page (pagetable : Z) (do_free : bool) (lim a : Z) : KM (Z + unit) :=
  if a <? lim then
    let* pte := walk pagetable a false in
    if pte =? 0 then panic "uvmunmap: walk"
    else
      let* e := ld pte in
      if negb (has e PTE_V) then panic "uvmunmap: not mapped"
      else if PTE_FLAGS e =? PTE_V then panic "uvmunmap: not a leaf"
      else
        when do_free (kfree (PTE2PA e));;;
        st pte 0;;;
        ret (inl (u64 (a + PGSIZE)))
  else ret (inr tt).

Definition uvmunmap (pagetable va npages : Z) (do_free : bool) : KM unit :=
  if negb (va mod PGSIZE =? 0) then panic "uvmunmap: not aligned"
  else loop (unmap_page pagetable do_free (u64 (va + npages * PGSIZE))) va.

Definition uvmcreate : KM Z :=
  let* pagetable := kalloc in
  if pagetable =? 0 then ret 0
  else zero_page pagetable;;; ret pagetable.

(** The source does not check kalloc's result here: with no free page it would
    use page 0. *)
Definition uvminit (pagetable : Z) (src : list Z) : KM unit :=
  if PGSIZE <=? Z.of_nat (length src) then panic "inituvm: more than a page"
  else
    let* pg := kalloc in
    zero_page pg;;;
    mappages pagetable 0 PGSIZE pg (Z.lor (Z.lor (Z.lor PTE_W PTE_R) PTE_X) PTE_U);;;
    modify (set_mem (fun m => write_bytes m pg src)).

Definition uvmdealloc (pagetable oldsz newsz : Z) : KM Z :=
  if oldsz <=? newsz then ret oldsz
  else
    when (PGROUNDUP newsz <? PGROUNDUP oldsz)
      (let npages := s32 ((PGROUNDUP oldsz - PGROUNDUP newsz) / PGSIZE) in
       uvmunmap pagetable (PGROUNDUP newsz) (u64 npages) true);;;
    ret newsz.

(** One round of uvmalloc's loop, on [a]. *)
Definition alloc_page (pagetable oldsz newsz a : Z) : KM (Z + Z) :=
  if a <? newsz then
    let* pg := kalloc in
    if pg =? 0 then uvmdealloc pagetable a oldsz;;; ret (inr 0)
    else
      zero_page pg;;;
      let* r := mappages pagetable a PGSIZE pg
                  (Z.lor (Z.lor (Z.lor PTE_W PTE_X) PTE_R) PTE_U) in
      if negb (r =? 0) then kfree pg;;; uvmdealloc pagetable a oldsz;;; ret (inr 0)
      else ret (inl (u64 (a + PGSIZE)))
  else ret (inr newsz).

Definition uvmalloc (pagetable oldsz newsz : Z) : KM Z :=
  if newsz <? oldsz then ret oldsz
  else loop (alloc_page pagetable (PGROUNDUP oldsz) newsz) (PGROUNDUP oldsz).

(** One round of freewalk's loop, with the recursive call as a parameter. *)
Definition free_slot (freewalk : Z -> KM unit) (pagetable i : Z) : KM unit :=
  let* pte := ld (pagetable + 8 * i) in
  if has pte PTE_V && negb (has pte (Z.lor (Z.lor PTE_R PTE_W) PTE_X)) then
    freewalk (PTE2PA pte);;; st (pagetable + 8 * i) 0
  else if has pte PTE_V then panic "freewalk: leaf"
  else ret tt.

(** The recursion of freewalk, to a depth no page table reaches. *)
Fixpoint freewalk_depth (n : nat) (pagetable : Z) : KM unit :=
  match n with
  | O => hang
  | S n' =>
      for_each (map Z.of_nat (seq 0 512)) (free_slot (freewalk_depth n') pagetable);;;
      kfree pagetable
  end.
Definition freewalk (pagetable : Z) : KM unit := freewalk_depth 64 pagetable.

Definition uvmfree (pagetable sz : Z) : KM unit :=
  when (0 <? sz) (uvmunmap pagetable 0 (PGROUNDUP sz / PGSIZE) true);;;
  freewalk pagetable.

(** One round of uvmcopy's loop, on [i]. *)
Definition copy_page (old new sz i : Z) : KM (Z + Z) :=
  if i <? sz then
    let* pte := walk old i false in
    if pte =? 0 then panic "uvmcopy: pte should exist"
    else
      let* e := ld pte in
      if negb (has e PTE_V) then panic "uvmcopy: page not present"
      else
        let pa := PTE2PA e in
        let flags := PTE_FLAGS e in
        let* pg := kalloc in
        if pg =? 0 then uvmunmap new 0 (i / PGSIZE) true;;; ret (inr (-1))
        else
          modify (set_mem (fun m => memmove m pg pa PGSZ));;;
          let* r := mappages new i PGSIZE pg flags in
          if negb (r =? 0) then
            kfree pg;;; uvmunmap new 0 (i / PGSIZE) true;;; ret (inr (-1))
          else ret (inl (u64 (i + PGSIZE)))
  else ret (inr 0).

Definition uvmcopy (old new sz : Z) : KM Z := loop (copy_page old new sz) 0.

Definition uvmclear (pagetable va : Z) : KM unit :=
  let* pte := walk pagetable va false in
  if pte =? 0 then panic "uvmclear"
  else let* e := ld pte in st pte (Z.land e (Z.lnot PTE_U)).

(** One round of copyout's loop; [src] is what is left of the kernel buffer. *)
Definition copyout_page (pagetable : Z) (x : Z * list Z) : KM (Z * list Z + Z) :=
  let '(dstva, src) := x in
  if (length src =? 0)%nat then ret (inr 0)
  else
    let va0 := PGROUNDDOWN dstva in
    let* pa0 := walkaddr pagetable va0 in
    if pa0 =? 0 then ret (inr (-1))
    else
      let n := Z.to_nat (Z.min (PGSIZE - (dstva - va0)) (Z.of_nat (length src))) in
      modify (set_mem (fun m => write_bytes m (pa0 + (dstva - va0)) (take n src)));;;
      ret (inl (u64 (va0 + PGSIZE), drop n src)).

(** [src] is the kernel buffer's contents; the result is the return value. *)
Definition copyout (pagetable dstva : Z) (src : list Z) : KM Z :=
  loop (copyout_page pagetable) (dstva, src).

(** One round of copyin's loop: [len] bytes to go, [dst] stored so far. *)
Definition copyin_page (pagetable : Z) (x : Z * Z * list Z) : KM (Z * Z * list Z + Z * list Z) :=
  let '(srcva, len, dst) := x in
  if len =? 0 then ret (inr (0, dst))
  else
    let va0 := PGROUNDDOWN srcva in
    let* pa0 := walkaddr pagetable va0 in
    if pa0 =? 0 then ret (inr (-1, dst))
    else
      let n := Z.min (PGSIZE - (srcva - va0)) len in
      let* bs := gets (fun s => bytes (k_mem s) (pa0 + (srcva - va0)) (Z.to_nat n)) in
      ret (inl (u64 (va0 + PGSIZE), len - n, dst ++ bs)).

(** The return value and the bytes stored at [dst] (all [len] of them on
    success, those before the first bad page on failure). *)
Definition copyin (pagetable srcva len : Z) : KM (Z * list Z) :=
  loop (copyin_page pagetable) (srcva, len, []).

(** The inner loop of copyinstr over one page: the bytes stored and whether the
    NUL was reached. *)
Fixpoint copyinstr_page (m : mem) (p : Z) (n : nat) : list Z * bool :=
  match n with
  | O => ([], false)
  | S n' =>
      if ldb m p =? 0 then ([0], true)
      else let '(l, nul) := copyinstr_page m (p + 1) n' in (ldb m p :: l, nul)
  end.

Definition copyinstr_round (pagetable : Z) (x : Z * Z * list Z)
    : KM (Z * Z * list Z + Z * list Z) :=
  let '(srcva, max, dst) := x in
  if max =? 0 then ret (inr (-1, dst))
  else
    let va0 := PGROUNDDOWN srcva in
    let* pa0 := walkaddr pagetable va0 in
    if pa0 =? 0 then ret (inr (-1, dst))
    else
      let n := Z.min (PGSIZE - (srcva - va0)) max in
      let* r := gets (fun s => copyinstr_page (k_mem s) (pa0 + (srcva - va0)) (Z.to_nat n)) in
      let '(bs, got_null) := r in
      if got_null then ret (inr (0, dst ++ bs))
      else ret (inl (u64 (va0 + PGSIZE), max - n, dst ++ bs)).

Definition copyinstr (pagetable srcva max : Z) : KM (Z * list Z) :=
  loop (copyinstr_round pagetable) (srcva, max, []).

End Vm.
