(* ===== verification/VmSpec.v ===== *)
(** * Meaning of the page-table operations of vm.c

    The theorems are stated against the address space a table denotes, the map
    [pte_of] from virtual addresses to entries, and against the ownership of
    physical pages: every page is on the free list, a table of the tree, or
    data. *)
From S2P Require Import Prelude Memory State Kalloc Vm PageTable.

Section Spec.
Context `{KI : KernelImage} `{KOK : !KernelImageOk}.
Implicit Types (s : kstate) (m : mem) (h : Z) (T : gmap Z Z) (fl : list Z).

(** ** Invariants and frames *)

(** A well-formed allocator and a well-formed tree on disjoint pages. *)
Record vm_inv m h (root : Z) T fl : Prop := {
  vi_free : fl_inv m h fl;
  vi_tree : pt_wf m T root;
  vi_disj p : p ∈ fl -> T !! p = None
}.

Definition in_page (p a : Z) : Prop := p <= a < p + PGSIZE.
Definition owned T fl (p : Z) : Prop := p ∈ fl \/ is_Some (T !! p).

(** No byte outside the pages that [T] and [fl] own changed. *)
Definition keeps T fl m m' : Prop :=
  forall a, (forall p, owned T fl p -> ~ in_page p a) -> ldb m' a = ldb m a.

Lemma keeps_trans T fl T1 fl1 m m1 m2 :
  (forall p, owned T1 fl1 p -> owned T fl p) ->
  keeps T fl m m1 -> keeps T1 fl1 m1 m2 -> keeps T fl m m2.
Proof. intros Ho H1 H2 a Ha. rewrite H2; [by apply H1 | eauto]. Qed.

Lemma keeps_grow T fl T1 fl1 m m1 m2 :
  (forall p, owned T fl p -> owned T1 fl1 p) ->
  keeps T fl m m1 -> keeps T1 fl1 m1 m2 -> keeps T1 fl1 m m2.
Proof. intros Ho H1 H2 a Ha. rewrite H2 by done. apply H1. eauto. Qed.

Lemma owned_page_ok m h root T fl p : vm_inv m h root T fl -> owned T fl p -> page_ok p.
Proof.
  intros [(_ & _ & Hf) Hw _] [Hp|[l Hp]].
  - by apply (proj1 (Forall_forall _ _) Hf).
  - by apply (wf_page _ _ _ Hw p l).
Qed.

Lemma in_page_apart p q a :
  p mod PGSIZE = 0 -> q mod PGSIZE = 0 -> p <> q -> in_page p a -> ~ in_page q a.
Proof.
  unfold in_page. intros Hp Hq Hne H1 H2.
  destruct (pages_apart p q Hp Hq Hne); unfold PGSIZE in *; lia.
Qed.

(** A page that is not owned is not touched. *)
Lemma keeps_page m h root T fl m' q a :
  vm_inv m h root T fl -> keeps T fl m m' -> page_ok q -> ~ owned T fl q -> in_page q a ->
  ldb m' a = ldb m a.
Proof.
  intros Hi Hk [Hq _] Hno Ha. apply Hk. intros p Hp.
  destruct (owned_page_ok _ _ _ _ _ _ Hi Hp) as [Hpa _].
  apply (in_page_apart q p); [done..| by intros -> | done].
Qed.

(** Growing a tree: pages move from the free list to the tree, no lookup and no
    data changes. *)
Record pt_grow m h m' h' (root : Z) T T' fl fl' : Prop := {
  gr_inv : vm_inv m' h' root T' fl';
  gr_pte va : pte_of m' root va = pte_of m root va;
  gr_free : exists new, fl = new ++ fl' /\ forall p, is_Some (T' !! p) <-> is_Some (T !! p) \/ p ∈ new;
  gr_sub : T ⊆ T';
  gr_next p l i q : T !! p = Some l -> 1 <= l -> 0 <= i < 512 ->
    next_pt m p i = Some q -> next_pt m' p i = Some q;
  gr_keeps : keeps T fl m m'
}.

Lemma pt_grow_refl m h root T fl : vm_inv m h root T fl -> pt_grow m h m h root T T fl fl.
Proof.
  intros H. split; try done. exists []. split; [done|]. intros p. rewrite elem_of_nil. tauto.
Qed.

Lemma pt_grow_owned m h m' h' root T T' fl fl' p :
  pt_grow m h m' h' root T T' fl fl' -> owned T' fl' p <-> owned T fl p.
Proof.
  intros [_ _ (new & -> & HT) _ _ _]. unfold owned. rewrite HT, elem_of_app. tauto.
Qed.

Lemma pt_grow_trans m1 h1 m2 h2 m3 h3 root T1 T2 T3 fl1 fl2 fl3 :
  pt_grow m1 h1 m2 h2 root T1 T2 fl1 fl2 -> pt_grow m2 h2 m3 h3 root T2 T3 fl2 fl3 ->
  pt_grow m1 h1 m3 h3 root T1 T3 fl1 fl3.
Proof.
  intros H1 H2. pose proof (fun p => proj1 (pt_grow_owned _ _ _ _ _ _ _ _ _ p H1)) as Ho.
  destruct H1 as [I1 P1 (n1 & -> & HT1) S1 N1 K1], H2 as [I2 P2 (n2 & -> & HT2) S2 N2 K2].
  split; [done | intros; by rewrite P2 | | by etransitivity | | by eapply keeps_trans].
  2: { intros p l i q Hp Hl Hi Hq. apply (N2 p l); eauto using lookup_weaken. }
  exists (n1 ++ n2). split; [by rewrite app_assoc|].
  intros p. rewrite HT2, HT1, elem_of_app. tauto.
Qed.

(** ** walk *)
Lemma walk_noalloc root va s :
  0 <= va < MAXVA -> walk root va false s = Ret (default 0 (leaf_addr (k_mem s) root va)) s.
Proof.
  Transparent leaf_addr next_pt pte_at.
  intros Hva. unfold walk. rewrite (proj2 (Z.leb_gt MAXVA va)) by lia.
  unfold leaf_addr, next_pt, pte_at, walk_level, bind, ld, gets. simpl.
  destruct (has (ld64 (k_mem s) (root + 8 * PX 2 va)) PTE_V); simpl; [|reflexivity].
  destruct (has (ld64 (k_mem s) _) PTE_V); reflexivity.
  Opaque leaf_addr next_pt pte_at.
Qed.

Lemma wp_walk_noalloc root va Q s :
  0 <= va < MAXVA -> Q (default 0 (leaf_addr (k_mem s) root va)) s -> wp (walk root va false) Q s.
Proof. intros. unfold wpc. by rewrite walk_noalloc. Qed.

(** Storing inside a table keeps the links of the free list. *)
Lemma fl_inv_store m root T fl m' h' p l i v :
  pt_wf m T root -> (forall p, p ∈ fl -> T !! p = None) -> fl_inv m' h' fl ->
  T !! p = Some l -> 0 <= i < 512 -> fl_inv (st64 m' (p + 8 * i) v) h' fl.
Proof.
  intros Hw Hd (Hc & Hnd & Hf) Hp Hi. split; [|done].
  eapply chain_ext; [|exact Hc]. intros q Hq.
  destruct (wf_page _ _ _ Hw _ _ Hp) as [[Hpa _] _].
  destruct (proj1 (Forall_forall _ _) Hf q Hq) as [Hqa _].
  apply ld64_st64_ne. assert (p <> q) by (intros ->; by rewrite Hd in Hp).
  destruct (pages_apart p q); [done..| |]; unfold PGSIZE in *; lia.
Qed.

(** A change inside one page outside the tree keeps its tables. *)
Lemma same_tables_outside m root T q m' :
  pt_wf m T root -> page_ok q -> T !! q = None ->
  (forall a, ~ in_page q a -> ldb m' a = ldb m a) -> same_tables T m m'.
Proof.
  intros Hw [Hq _] Hfr He p l i Hp Hi. apply pte_at_ext; [done|].
  intros a Ha. apply He. destruct (wf_page _ _ _ Hw _ _ Hp) as [[Hpa _] _].
  apply (in_page_apart p q); try done. intros ->. by rewrite Hfr in Hp.
Qed.

Lemma memset_page_out m q c a : ~ in_page q a -> ldb (memset m q c PGSZ) a = ldb m a.
Proof. intros Ha. rewrite ldb_memset, PGSZ_Z. unfold in_page in Ha. ranges. Qed.

(** Changing a page outside the list keeps the list. *)
Lemma fl_inv_outside m h fl q m' :
  fl_inv m h fl -> page_ok q -> q ∉ fl ->
  (forall a, ~ in_page q a -> ldb m' a = ldb m a) -> fl_inv m' h fl.
Proof.
  intros (Hc & Hnd & Hf) [Hq _] Hni He. split; [|done].
  eapply chain_ext; [|exact Hc]. intros p Hp. apply ld64_ext. intros i Hi. apply He.
  destruct (proj1 (Forall_forall _ _) Hf p Hp) as [Hpa _].
  apply (in_page_apart p q); [done..| by intros -> |]. unfold in_page, PGSIZE. lia.
Qed.

Section LinkGrow.
Variables (m : mem) (h h' root : Z) (T : gmap Z Z) (q : Z) (fl : list Z) (pt l i : Z).
Hypotheses (Hinv : vm_inv m h root T (q :: fl)) (Hpt : T !! pt = Some l) (Hl : 1 <= l)
  (Hi : 0 <= i < 512) (Hn : next_pt m pt i = None) (Hq : page_ok q) (Hni : q ∉ fl).
Let m1 := memset m q 5 PGSZ.
Let m2 := st64 (memset m1 q 0 PGSZ) (pt + 8 * i) (Z.lor (PA2PTE q) PTE_V).
Hypothesis Hk1 : fl_inv m1 h' fl.

Lemma lg_fresh : T !! q = None.
Proof. apply (vi_disj _ _ _ _ _ Hinv). left. Qed.

Lemma lg_same : same_tables T m m1.
Proof.
  eapply same_tables_outside; [apply Hinv | exact Hq | apply lg_fresh |].
  intros a. apply memset_page_out.
Qed.

Lemma lg_wf1 : pt_wf m1 T root.
Proof. eapply pt_wf_ext; [apply same_tables_interior, lg_same | apply Hinv]. Qed.

Lemma lg_none1 : next_pt m1 pt i = None.
Proof. rewrite (next_pt_same m); [done|]. by apply (lg_same pt l). Qed.

Lemma lg_free : fl_inv m2 h' fl.
Proof.
  eapply (fl_inv_store m root T); [apply Hinv | | | exact Hpt | done].
  - intros p Hp. apply (vi_disj _ _ _ _ _ Hinv). by right.
  - apply (fl_inv_outside m1 _ _ q); [done..|]. intros a. apply memset_page_out.
Qed.

Lemma lg_keeps : keeps T (q :: fl) m m2.
Proof.
  intros a Ha. assert (~ in_page q a) by (apply Ha; left; left).
  assert (~ in_page pt a) by (apply Ha; right; by exists l).
  unfold m2, m1. rewrite ldb_st64 by (unfold in_page, PGSIZE in *; lia).
  by rewrite !memset_page_out.
Qed.

Lemma link_grow :
  pt_grow m h m2 h' root T (<[q := l - 1]> T) (q :: fl) fl /\ next_pt m2 pt i = Some q.
Proof.
  pose proof lg_fresh as Hfr. pose proof lg_wf1 as Hw1. pose proof lg_none1 as Hn1.
  split; [|by eapply link_next_q]. split.
  - split; [apply lg_free | by apply link_wf |].
    intros p Hp. rewrite lookup_insert_ne by (intros E; apply Hni; rewrite E; exact Hp).
    apply (vi_disj _ _ _ _ _ Hinv). by right.
  - intros va. rewrite <- (pte_of_ext T m m1 root va); [| apply Hinv | apply lg_same].
    by apply (link_pte_of T m1 root pt l).
  - exists [q]. split; [done|]. intros p. rewrite list_elem_of_singleton.
    destruct (Z.eq_dec p q) as [E|Hne].
    + rewrite E, lookup_insert_eq. split; [tauto | by eexists].
    + rewrite lookup_insert_ne by congruence. tauto.
  - by apply insert_subseteq.
  - intros p k j x Hp Hk Hj Hx.
    assert (Hx1 : next_pt m1 p j = Some x)
      by (rewrite (next_pt_same m); [done | by apply (lg_same p k)]).
    unfold m2. rewrite (link_next T m1 root pt l i q);
      [| done.. | by apply (wf_page _ _ _ Hw1 _ _ Hp) | done].
    rewrite decide_False, decide_False; [done | |].
    + intros E. rewrite <- E, Hfr in Hp. discriminate Hp.
    + intros [E1 E2]. rewrite <- E1, <- E2, Hn in Hx. discriminate Hx.
  - apply lg_keeps.
Qed.
End LinkGrow.

(** One round of walk with allocation. *)
Lemma wp_walk_level va level root pt l T fl s (Q : option Z -> kstate -> Prop) :
  vm_inv (k_mem s) (k_freelist s) root T fl -> L_kmem ∉ k_held s ->
  T !! pt = Some l -> 1 <= l -> 0 <= level ->
  (fl = [] -> Q None s) ->
  (forall q m' h' T' fl', pt_grow (k_mem s) (k_freelist s) m' h' root T T' fl fl' ->
     next_pt m' pt (PX level va) = Some q -> T' !! q = Some (l - 1) -> Q (Some q) (upd s m' h')) ->
  wp (walk_level true va level pt) Q s.
Proof.
  intros Hinv Hh Hpt Hl Hlev HN HS. pose proof (PX_range level va Hlev) as Hi.
  unfold walk_level, ld. wp_steps. rewrite ld64_pte_at.
  destruct (has (pte_at (k_mem s) pt (PX level va)) PTE_V) eqn:EV.
  - wp_steps. rewrite <- (upd_id s).
    eapply HS; [by apply pt_grow_refl | by apply next_pt_valid |].
    apply (wf_next _ _ _ (vi_tree _ _ _ _ _ Hinv) pt l (PX level va)); try done.
    by apply next_pt_valid.
  - cbn [negb]. wp_step. apply (wp_kalloc fl); [apply Hinv | done | |].
    + intros ->. simpl. wp_steps. by apply HN.
    + intros q fl' -> Hq Hni m1 h1 Hk1. pose proof (page_ok_pos q Hq).
      rewrite (proj2 (Z.eqb_neq q 0)) by lia. unfold zero_page, st. wp_steps.
      destruct (link_grow _ _ _ _ _ _ _ _ _ _ Hinv Hpt Hl Hi (next_pt_invalid _ _ _ EV) Hq Hni Hk1)
        as [Hg Hnx].
      rewrite !set_mem_upd. eapply (HS q _ _ _ _ Hg Hnx). apply lookup_insert_eq.
Qed.

(** walk with allocation finds the entry's address, and answers 0 only when it
    needed a page and the free list was empty. *)
Lemma wp_walk_alloc root va T fl s (Q : Z -> kstate -> Prop) :
  vm_inv (k_mem s) (k_freelist s) root T fl -> L_kmem ∉ k_held s -> 0 <= va < MAXVA ->
  (forall r m' h' T' fl', pt_grow (k_mem s) (k_freelist s) m' h' root T T' fl fl' ->
     (r = 0 /\ fl' = []) \/ (r <> 0 /\ leaf_addr m' root va = Some r) -> Q r (upd s m' h')) ->
  wp (walk root va true) Q s.
Proof.
  intros Hinv Hh Hva HQ. unfold walk. rewrite (proj2 (Z.leb_gt MAXVA va)) by lia. wp_step.
  assert (Hr : T !! root = Some 2) by (by apply (wf_root _ _ _ (vi_tree _ _ _ _ _ Hinv))).
  apply (wp_walk_level va 2 root root 2 T fl); [done..| |].
  { intros ->. wp_steps. rewrite <- (upd_id s). eapply HQ; [by apply pt_grow_refl | by left]. }
  intros p1 m1 h1 T1 fl1 G1 N1 L1. wp_step.
  apply (wp_walk_level va 1 root p1 1 T1 fl1); [apply G1 | done | done | lia | lia | |].
  { intros ->. wp_steps. eapply HQ; [done | by left]. }
  intros p0 m2 h2 T2 fl2 G2 N2 L2. wp_steps.
  assert (Hr1 : T1 !! root = Some 2) by (eapply lookup_weaken, G1; done).
  apply (HQ _ m2 h2 T2 fl2); [by eapply pt_grow_trans|]. right. split.
  - destruct (wf_page _ _ _ (vi_tree _ _ _ _ _ (gr_inv _ _ _ _ _ _ _ _ _ G2)) _ _ L2) as [Hp0 _].
    pose proof (page_ok_pos _ Hp0). pose proof (PX_range 0 va). lia.
  - apply leaf_addr_intro with p1; [|done].
    apply (gr_next _ _ _ _ _ _ _ _ _ G2 root 2); [done | lia | by apply PX_range | done].
Qed.

(** ** Updates of a tree: as [pt_grow], with leaf entries changed *)
Record pt_step m h m' h' (root : Z) T T' fl fl' : Prop := {
  ps_inv : vm_inv m' h' root T' fl';
  ps_free : exists new, fl = new ++ fl' /\ forall p, is_Some (T' !! p) <-> is_Some (T !! p) \/ p ∈ new;
  ps_sub : T ⊆ T';
  ps_keeps : keeps T fl m m'
}.

Lemma pt_step_grow m h m' h' root T T' fl fl' :
  pt_grow m h m' h' root T T' fl fl' -> pt_step m h m' h' root T T' fl fl'.
Proof. by intros []. Qed.

Lemma pt_step_owned m h m' h' root T T' fl fl' p :
  pt_step m h m' h' root T T' fl fl' -> owned T' fl' p <-> owned T fl p.
Proof.
  intros [_ (new & -> & HT) _ _]. unfold owned. rewrite HT, elem_of_app. tauto.
Qed.

Lemma pt_step_trans m1 h1 m2 h2 m3 h3 root T1 T2 T3 fl1 fl2 fl3 :
  pt_step m1 h1 m2 h2 root T1 T2 fl1 fl2 -> pt_step m2 h2 m3 h3 root T2 T3 fl2 fl3 ->
  pt_step m1 h1 m3 h3 root T1 T3 fl1 fl3.
Proof.
  intros H1 H2. pose proof (fun p => proj1 (pt_step_owned _ _ _ _ _ _ _ _ _ p H1)) as Ho.
  destruct H1 as [I1 (n1 & -> & HT1) S1 K1], H2 as [I2 (n2 & -> & HT2) S2 K2].
  split; [done | | by etransitivity | by eapply keeps_trans].
  exists (n1 ++ n2). split; [by rewrite app_assoc|].
  intros p. rewrite HT2, HT1, elem_of_app. tauto.
Qed.

Lemma pt_step_refl m h root T fl : vm_inv m h root T fl -> pt_step m h m h root T T fl fl.
Proof. intros H. by apply pt_step_grow, pt_grow_refl. Qed.

(** Storing a leaf entry. *)
Lemma pt_step_store m h root T fl va a v :
  vm_inv m h root T fl -> 0 <= va < MAXVA -> leaf_addr m root va = Some a -> 0 <= v < 2 ^ 64 ->
  pt_step m h (st64 m a v) h root T T fl fl.
Proof.
  intros Hinv Hva Ha Hv. pose proof (vi_tree _ _ _ _ _ Hinv) as Hw.
  destruct (leaf_addr_spec _ _ _ _ _ Hw Ha) as (p1 & p0 & _ & _ & _ & T0 & ->).
  pose proof (PX_range 0 va) as Hi. split.
  - split.
    + eapply (fl_inv_store m root T); [done | apply Hinv | apply Hinv | exact T0 | by apply Hi].
    + by apply (store_leaf T m root va).
    + apply Hinv.
  - exists []. split; [done|]. intros p. rewrite elem_of_nil. tauto.
  - done.
  - intros b Hb. apply ldb_st64. assert (~ in_page p0 b) by (apply Hb; right; by exists 0).
    unfold in_page, PGSIZE in *. lia.
Qed.

(** ** mappages *)
Definition mkpte (pa perm : Z) : Z := Z.lor (Z.lor (PA2PTE pa) perm) PTE_V.

(** Address space [f] with [k] pages from [a0] mapped to those from [pa]. *)
Definition map_range (f : Z -> Z) (a0 k pa perm : Z) (va : Z) : Z :=
  if (a0 <=? va) && (va <? a0 + k * PGSIZE)
  then mkpte (pa + (PGROUNDDOWN va - a0)) perm else f va.

Lemma mkpte_val pa perm :
  0 <= pa < 2 ^ 56 -> pa mod PGSIZE = 0 -> 0 <= perm < 1024 ->
  mkpte pa perm = pa / PGSIZE * 1024 + Z.lor perm PTE_V /\ 0 <= Z.lor perm PTE_V < 1024.
Proof.
  intros Hpa Hal Hp. unfold mkpte. rewrite <- Z.lor_assoc.
  assert (H0 : 0 <= Z.lor perm PTE_V) by (apply Z.lor_nonneg; unfold PTE_V; lia).
  assert (Hr : 0 <= Z.lor perm PTE_V < 1024).
  { split; [done|]. destruct (Z.eq_dec (Z.lor perm PTE_V) 0) as [->|]; [lia|].
    apply (Z.log2_lt_pow2 _ 10); [lia|]. rewrite Z.log2_lor by (unfold PTE_V; lia).
    apply Z.max_lub_lt; [|reflexivity]. destruct (Z.eq_dec perm 0) as [->|]; [done|].
    apply Z.log2_lt_pow2; lia. }
  split; [|done]. by apply mkpte_eq.
Qed.

Lemma mkpte_range pa perm :
  0 <= pa < 2 ^ 56 -> pa mod PGSIZE = 0 -> 0 <= perm < 1024 -> 0 <= mkpte pa perm < 2 ^ 64.
Proof.
  intros Hpa Hal Hp. destruct (mkpte_val pa perm Hpa Hal Hp) as [-> ?].
  unfold PGSIZE in *. change (2 ^ 56) with 72057594037927936 in *.
  change (2 ^ 64) with 18446744073709551616. zmod.
Qed.

Lemma map_range_0 f a0 pa perm va : map_range f a0 0 pa perm va = f va.
Proof. unfold map_range. destruct (Z.leb_spec a0 va), (Z.ltb_spec va (a0 + 0 * PGSIZE)); simpl; done || lia. Qed.

(** Mapping one more page. *)
Lemma map_range_S f a0 k pa perm va :
  a0 mod PGSIZE = 0 -> 0 <= k ->
  map_range f a0 (k + 1) pa perm va =
  if decide ((a0 + k * PGSIZE) / PGSIZE = va / PGSIZE) then mkpte (pa + k * PGSIZE) perm
  else map_range f a0 k pa perm va.
Proof.
  intros Ha Hk. unfold map_range. case_decide as Hd.
  - rewrite (proj2 (Z.leb_le a0 va)), (proj2 (Z.ltb_lt va _)) by (unfold PGSIZE in *; zmod). simpl.
    f_equal. rewrite PGROUNDDOWN_eq. unfold PGSIZE in *. zmod.
  - destruct (Z.leb_spec a0 va), (Z.ltb_spec va (a0 + (k + 1) * PGSIZE)),
      (Z.ltb_spec va (a0 + k * PGSIZE)); simpl; try done; unfold PGSIZE in *; zmod.
Qed.

(** The first and the number of pages that [va .. va+size-1] touches. *)
Definition first_page (va : Z) : Z := PGROUNDDOWN va.
Definition num_pages (va size : Z) : Z := (PGROUNDDOWN (va + size - 1) - PGROUNDDOWN va) / PGSIZE + 1.

(** The tree [T] in [m] has become [T'] in [m'], with lookups [f]. *)
Definition maps_to m h m' h' root T T' fl fl' (f : Z -> Z) : Prop :=
  pt_step m h m' h' root T T' fl fl' /\ forall va, 0 <= va < VATOP -> pte_of m' root va = f va.

(** One round of mappages: the page of [a] gets its entry. *)
Lemma wp_map_page root a pa perm last T fl s R :
  vm_inv (k_mem s) (k_freelist s) root T fl -> L_kmem ∉ k_held s -> 0 <= a < MAXVA ->
  0 <= mkpte pa perm < 2 ^ 64 -> has (pte_of (k_mem s) root a) PTE_V = false ->
  (forall m' h' T', maps_to (k_mem s) (k_freelist s) m' h' root T T' fl [] (pte_of (k_mem s) root) ->
     R (inr (-1)) (upd s m' h')) ->
  (forall m' h' T' fl',
     maps_to (k_mem s) (k_freelist s) m' h' root T T' fl fl'
       (fun va => if decide (a / PGSIZE = va / PGSIZE) then mkpte pa perm else pte_of (k_mem s) root va) ->
     R (if a =? last then inr 0 else inl (u64 (a + PGSIZE), u64 (pa + PGSIZE))) (upd s m' h')) ->
  wp (map_page root perm last (a, pa)) R s.
Proof.
  intros Hinv Hh Ha Hv Hn HF HS. unfold map_page. wp_step. eapply wp_walk_alloc; [exact Hinv | done | done |].
  intros r m1 h1 T1 fl1 G [[-> ->]|[Hr Hl]].
  - simpl. wp_steps. apply (HF m1 h1 T1). split; [by apply pt_step_grow | intros; apply G].
  - rewrite (proj2 (Z.eqb_neq r 0)) by done. unfold ld. wp_steps. simpl k_mem.
    assert (Hp : ld64 m1 r = pte_of m1 root a) by (by rewrite (pte_of_leaf _ _ _ _ Hl)).
    rewrite Hp, (gr_pte _ _ _ _ _ _ _ _ _ G), Hn. unfold st. do 2 wp_step. fold (mkpte pa perm).
    enough (HR : R (if a =? last then inr 0 else inl (u64 (a + PGSIZE), u64 (pa + PGSIZE)))
      (upd s (st64 m1 r (mkpte pa perm)) h1)) by (by destruct (a =? last)).
    apply (HS (st64 m1 r (mkpte pa perm)) h1 T1 fl1). split.
    + eapply pt_step_trans; [by apply pt_step_grow|].
      eapply pt_step_store; [apply G | exact Ha | done | done].
    + intros va Hva.
      destruct (store_leaf T1 m1 root a r (mkpte pa perm)) as (_ & _ & ->); try done; [apply G|].
      by rewrite (gr_pte _ _ _ _ _ _ _ _ _ G).
Qed.

Section Mappages.
Variables (root va size pa perm : Z) (T : gmap Z Z) (fl : list Z) (s : kstate).
Hypotheses (Hinv : vm_inv (k_mem s) (k_freelist s) root T fl) (Hh : L_kmem ∉ k_held s)
  (Hva : 0 <= va) (Hsz : 0 < size) (Hend : va + size <= MAXVA)
  (Hal : pa mod PGSIZE = 0) (Hpa : 0 <= pa) (Hpe : pa + size + PGSIZE <= 2 ^ 56)
  (Hperm : 0 <= perm < 1024)
  (Hfree : forall a, PGROUNDDOWN va <= a < va + size -> has (pte_of (k_mem s) root a) PTE_V = false).

Lemma wp_mappages (Q : Z -> kstate -> Prop) :
  (forall m' h' T' fl',
     maps_to (k_mem s) (k_freelist s) m' h' root T T' fl fl'
       (map_range (pte_of (k_mem s) root) (PGROUNDDOWN va) (num_pages va size) pa perm) ->
     Q 0 (upd s m' h')) ->
  (forall m' h' T' k, 0 <= k < num_pages va size ->
     maps_to (k_mem s) (k_freelist s) m' h' root T T' fl []
       (map_range (pte_of (k_mem s) root) (PGROUNDDOWN va) k pa perm) ->
     Q (-1) (upd s m' h')) ->
  wp (mappages root va size pa perm) Q s.
Proof.
  intros HS HF. unfold mappages. rewrite (proj2 (Z.eqb_neq size 0)) by lia.
  assert (Hlast : PGROUNDDOWN (u64 (va + size - 1)) = PGROUNDDOWN va + (num_pages va size - 1) * PGSIZE).
  { rewrite u64_small by (unfold MAXVA in *; lia). unfold num_pages. rewrite !PGROUNDDOWN_eq.
    unfold PGSIZE. zmod. }
  rewrite Hlast. set (n := num_pages va size) in *. set (a0 := PGROUNDDOWN va) in *.
  assert (Ha0 : a0 = va - va mod PGSIZE) by apply PGROUNDDOWN_eq.
  assert (Ha1 : 0 <= a0 /\ a0 mod PGSIZE = 0) by (unfold PGSIZE in *; zmod).
  assert (Hn : a0 + (n - 1) * PGSIZE < va + size).
  { unfold n, num_pages. fold a0. rewrite PGROUNDDOWN_eq. unfold PGSIZE in *. zmod. }
  assert (Hn1 : 1 <= n).
  { unfold n, num_pages. fold a0. rewrite PGROUNDDOWN_eq. unfold PGSIZE in *. zmod. }
  set (f := pte_of (k_mem s) root).
  set (I := fun (x : Z * Z) s' => exists k m' h' T' fl', s' = upd s m' h' /\ 0 <= k < n /\
    x = (a0 + k * PGSIZE, pa + k * PGSIZE) /\
    maps_to (k_mem s) (k_freelist s) m' h' root T T' fl fl' (map_range f a0 k pa perm)).
  eapply (wp_loop _ I (fun x _ => a0 + n * PGSIZE - fst x)).
  2: { exists 0, (k_mem s), (k_freelist s), T, fl. rewrite upd_id. split_and!; try (done || lia).
       - f_equal; lia.
       - split; [by apply pt_step_refl|]. intros. by rewrite map_range_0. }
  2: { simpl. unfold MAXVA, PGSIZE in *. lia. }
  intros x s' (k & m' & h' & T' & fl' & -> & Hk & -> & Hst & Hf). cbv beta iota.
  set (a := a0 + k * PGSIZE). assert (Hak : a0 <= a < va + size) by (unfold a, PGSIZE in *; lia).
  assert (Hkp : 0 <= k * PGSIZE < size + PGSIZE) by (unfold a, PGSIZE in *; zmod).
  assert (Hfa : has (pte_of m' root a) PTE_V = false).
  { rewrite Hf by (apply va_vatop; lia). unfold map_range. rewrite (proj2 (Z.ltb_ge _ _)), andb_false_r by (unfold a; lia).
    by apply Hfree. }
  apply (wp_map_page root a (pa + k * PGSIZE) perm _ T' fl').
  - apply Hst.
  - done.
  - lia.
  - apply mkpte_range; [lia | unfold PGSIZE in *; zmod | done].
  - done.
  - intros m1 h1 T1 [Hst1 Hf1]. apply (HF m1 h1 T1 k); [done|].
    split; [by eapply pt_step_trans|]. intros b Hb. by rewrite Hf1, Hf.
  - intros m1 h1 T1 fl1 [Hst1 Hf1].
    assert (HM : maps_to (k_mem s) (k_freelist s) m1 h1 root T T1 fl fl1 (map_range f a0 (k + 1) pa perm)).
    { split; [by eapply pt_step_trans|]. intros b Hb. rewrite Hf1 by done.
      rewrite map_range_S by (unfold PGSIZE in *; zmod). fold a.
      case_decide; [done|]. by apply Hf. }
    destruct (Z.eqb_spec a (a0 + (n - 1) * PGSIZE)) as [He|Hne].
    + apply (HS m1 h1 T1 fl1). replace n with (k + 1) by (unfold a, PGSIZE in *; lia). done.
    + unfold a in *. rewrite !u64_small by (unfold MAXVA, PGSIZE in *; lia).
      split; [|simpl; unfold PGSIZE in *; lia].
      exists (k + 1), m1, h1, T1, fl1. split_and!; try done; try (unfold PGSIZE in *; lia).
      f_equal; lia.
Qed.
End Mappages.
End Spec.
