(* ===== verification/UserMem.v ===== *)
(** * Meaning of the user-memory operations of vm.c

    [user_inv m h root T fl L]: the table at [root] maps each page [va] of [L]
    to the physical page [L !! va], which belongs to this address space alone.
    uvmunmap, uvmalloc, uvmdealloc and uvmcopy move pages between the free list,
    the tree [T] and [L], and lose none. *)
From S2P Require Import Prelude Memory State Kalloc Vm PageTable VmSpec.

(** [L] without the [n] pages from [va]. *)
Definition cut (L : gmap Z Z) (va n : Z) : gmap Z Z :=
  filter (fun kv => ~ (va <= kv.1 < va + n * PGSIZE)) L.

Lemma cut_lookup L va n k :
  cut L va n !! k = if decide (va <= k < va + n * PGSIZE) then None else L !! k.
Proof.
  unfold cut. case_decide as H.
  - apply map_lookup_filter_None. right. intros x _ Hn. by apply Hn.
  - destruct (L !! k) as [x|] eqn:E.
    + apply map_lookup_filter_Some. by split.
    + apply map_lookup_filter_None. by left.
Qed.

Lemma cut_0 L va : cut L va 0 = L.
Proof. apply map_eq. intros k. rewrite cut_lookup. case_decide; [lia|done]. Qed.

(** Cutting one page more, from an address space of page-aligned addresses. *)
Lemma cut_S L va k :
  va mod PGSIZE = 0 -> 0 <= k -> (forall v p, L !! v = Some p -> v mod PGSIZE = 0) ->
  delete (va + k * PGSIZE) (cut L va k) = cut L va (k + 1).
Proof.
  intros Hva Hk HL. apply map_eq. intros v. rewrite cut_lookup.
  destruct (decide (va + k * PGSIZE = v)) as [<-|Hne].
  - rewrite lookup_delete_eq, decide_True; [done | unfold PGSIZE; lia].
  - rewrite lookup_delete_ne, cut_lookup by done. repeat case_decide; try done.
    + unfold PGSIZE in *; lia.
    + destruct (L !! v) eqn:E; [|done]. apply HL in E. unfold PGSIZE in *. zmod.
Qed.

Lemma cut_freed_S (L : gmap Z Z) va k pa freed :
  0 <= k -> L !! (va + k * PGSIZE) = Some pa ->
  (forall p, p ∈ freed <-> exists i, 0 <= i < k /\ L !! (va + i * PGSIZE) = Some p) ->
  forall p, p ∈ pa :: freed <-> exists i, 0 <= i < k + 1 /\ L !! (va + i * PGSIZE) = Some p.
Proof.
  intros Hk Hpa Hf p. rewrite elem_of_cons, Hf. split.
  - intros [->|(i & Hi & E)]; [exists k | exists i]; (split; [lia|done]).
  - intros (i & Hi & E). destruct (Z.eq_dec i k) as [->|]; [left; congruence|].
    right. exists i. split; [lia|done].
Qed.

(** An entry that uvmunmap accepts: valid, and with another flag. *)
Definition leaf_pte (e pa : Z) : Prop :=
  exists f, e = pa / PGSIZE * 1024 + f /\ 0 <= f < 1024 /\ Z.odd f = true /\ f <> 1.

Section User.
Context `{KI : KernelImage} `{KOK : !KernelImageOk}.
Implicit Types (s : kstate) (m : mem) (h : Z) (T L : gmap Z Z) (fl : list Z).

Lemma leaf_pte_V e pa : leaf_pte e pa -> has e PTE_V = true.
Proof.
  intros (f & -> & _ & Ho & _). rewrite has_V, Z.odd_add, Z.odd_mul, Ho. by rewrite andb_false_r.
Qed.

Lemma leaf_pte_flags e pa : leaf_pte e pa -> PTE_FLAGS e <> PTE_V.
Proof. intros (f & -> & Hf & _ & Hne). by rewrite PTE_FLAGS_eq. Qed.

Lemma leaf_pte_pa e pa : page_ok pa -> leaf_pte e pa -> PTE2PA e = pa.
Proof.
  intros Hp (f & -> & Hf & _). pose proof (page_ok_pos pa Hp). destruct Hp as [Hal _].
  rewrite PTE2PA_eq; [| | done].
  - unfold PGSIZE in *. zmod.
  - unfold PHYSTOP, KERNBASE, PGSIZE in *. change (2 ^ 44) with 17592186044416. zmod.
Qed.

Record user_inv m h (root : Z) T fl L : Prop := {
  ui_vm : vm_inv m h root T fl;
  ui_va va pa : L !! va = Some pa -> 0 <= va < MAXVA /\ va mod PGSIZE = 0;
  ui_pte va pa : L !! va = Some pa -> leaf_pte (pte_of m root va) pa;
  ui_ok va pa : L !! va = Some pa -> page_ok pa;
  ui_own va pa : L !! va = Some pa -> ~ owned T fl pa;
  ui_inj va1 va2 pa : L !! va1 = Some pa -> L !! va2 = Some pa -> va1 = va2
}.

(** Tree updates that leave the entries of [L] alone. *)
Lemma user_inv_step m h m' h' root T T' fl fl' L :
  user_inv m h root T fl L -> pt_step m h m' h' root T T' fl fl' ->
  (forall va pa, L !! va = Some pa -> pte_of m' root va = pte_of m root va) ->
  user_inv m' h' root T' fl' L.
Proof.
  intros [Hv Hva Hp Hok Ho Hj] Hst He. split; try done.
  - apply Hst.
  - intros va pa Hl. rewrite (He va pa) by done. eauto.
  - intros va pa Hl Hin. eapply Ho; [done|]. by apply (pt_step_owned _ _ _ _ _ _ _ _ _ _ Hst).
Qed.

Lemma user_inv_sub m h root T fl L L' :
  L' ⊆ L -> user_inv m h root T fl L -> user_inv m h root T fl L'.
Proof. intros Hs [Hv Hva Hp Hok Ho Hj]. split; eauto using lookup_weaken. Qed.

(** The entry of a mapped page. *)
Lemma user_leaf m h root T fl L va pa :
  user_inv m h root T fl L -> L !! va = Some pa ->
  exists a, leaf_addr m root va = Some a /\ a <> 0 /\ ld64 m a = pte_of m root va.
Proof.
  intros Hi Hl. pose proof (leaf_pte_V _ _ (ui_pte _ _ _ _ _ _ Hi _ _ Hl)) as HV.
  destruct (leaf_addr m root va) as [a|] eqn:Ha.
  - exists a. split; [done|]. split; [|by rewrite (pte_of_leaf _ _ _ _ Ha)].
    eapply leaf_addr_nonzero; [apply Hi | exact Ha].
  - by rewrite (pte_of_no_leaf _ _ _ Ha) in HV.
Qed.

(** Writing inside a data page keeps the allocator and the tree. *)
Lemma vm_inv_data m h root T fl q m' :
  vm_inv m h root T fl -> page_ok q -> ~ owned T fl q ->
  (forall a, ~ in_page q a -> ldb m' a = ldb m a) ->
  vm_inv m' h root T fl /\ forall va, pte_of m' root va = pte_of m root va.
Proof.
  intros [Hf Hw Hd] Hq Hno He.
  assert (HT : T !! q = None).
  { destruct (T !! q) eqn:E; [|done]. exfalso. apply Hno. right. by eexists. }
  assert (Hst : same_tables T m m') by (by eapply same_tables_outside).
  split; [|intros va; by eapply pte_of_ext].
  split; [|by eapply pt_wf_ext, Hw; apply same_tables_interior | done].
  eapply fl_inv_outside; [done | done | | done]. intros Hin. apply Hno. by left.
Qed.

(** ** uvmunmap *)
Section UnmapFree.
Variables (m : mem) (h root : Z) (T : gmap Z Z) (fl : list Z) (L : gmap Z Z) (va pa a : Z).
Hypotheses (Hi : user_inv m h root T fl L) (Hl : L !! va = Some pa)
  (Ha : leaf_addr m root va = Some a).
Let m1 := st64 (memset m pa 1 PGSZ) pa h.
Hypothesis Hf1 : fl_inv m1 pa (pa :: fl).

Lemma uf_out b : ~ in_page pa b -> ldb m1 b = ldb m b.
Proof.
  intros Hb. unfold m1. rewrite ldb_st64 by (unfold in_page, PGSIZE in *; lia).
  by apply memset_page_out.
Qed.

Lemma uf_inv : vm_inv m1 pa root T (pa :: fl) /\ (forall v, pte_of m1 root v = pte_of m root v) /\
  leaf_addr m1 root va = Some a.
Proof.
  assert (Hok : page_ok pa) by (by eapply ui_ok).
  assert (Hno : ~ owned T fl pa) by (by eapply ui_own).
  pose proof (ui_vm _ _ _ _ _ _ Hi) as Hv.
  assert (HT : T !! pa = None).
  { destruct (T !! pa) eqn:E; [|done]. exfalso. apply Hno. right. by eexists. }
  assert (Hst : same_tables T m m1) by (eapply same_tables_outside; [apply Hv | done..| apply uf_out]).
  split_and!.
  - split; [done | eapply pt_wf_ext; [apply same_tables_interior, Hst | apply Hv] |].
    intros p. rewrite elem_of_cons. intros [E|Hp]; [by rewrite E | by apply Hv].
  - intros v. eapply pte_of_ext; [apply Hv | done].
  - rewrite (leaf_addr_ext T m); [done | apply Hv | by apply same_tables_interior].
Qed.

Lemma unmap_free_inv :
  user_inv (st64 m1 a 0) pa root T (pa :: fl) (delete va L) /\
  keeps T (pa :: fl) m (st64 m1 a 0) /\
  (forall v, 0 <= v < VATOP -> pte_of (st64 m1 a 0) root v =
     if decide (va / PGSIZE = v / PGSIZE) then 0 else pte_of m root v).
Proof.
  destruct uf_inv as (Hv1 & Hp1 & Ha1). destruct (ui_va _ _ _ _ _ _ Hi _ _ Hl) as [Hva Hal].
  assert (Hst : pt_step m1 pa (st64 m1 a 0) pa root T T (pa :: fl) (pa :: fl))
    by (apply (pt_step_store _ _ _ _ _ va); [exact Hv1 | exact Hva | exact Ha1 | lia]).
  destruct (store_leaf T m1 root va a 0) as (_ & _ & Hp); [apply Hv1 | exact Hva | exact Ha1 | lia |].
  split_and!.
  - assert (Hd : user_inv m1 pa root T (pa :: fl) (delete va L)).
    { pose proof Hi as [? Xva Xp Xok Xo Xj].
      assert (Hx : forall v q, delete va L !! v = Some q -> v <> va /\ L !! v = Some q)
        by (intros v q Hq; apply lookup_delete_Some in Hq as [Hn Hq]; split; [congruence | exact Hq]).
      split; [done|..].
      - intros v q [_ Hq]%Hx. eauto.
      - intros v q [_ Hq]%Hx. rewrite Hp1. eauto.
      - intros v q [_ Hq]%Hx. eauto.
      - intros v q [Hne Hq]%Hx [Hin|Hin]; [|by eapply Xo; [|right]].
        apply elem_of_cons in Hin as [E|Hin]; [|by eapply Xo; [|left]].
        apply Hne. eapply Xj; [exact Hq|]. by rewrite E.
      - intros v1 v2 q [_ Hq1]%Hx [_ Hq2]%Hx. eauto. }
    eapply user_inv_step; [exact Hd | exact Hst |]. intros v q Hq.
    apply lookup_delete_Some in Hq as [Hne Hq].
    destruct (ui_va _ _ _ _ _ _ Hi _ _ Hq) as [Hv%va_vatop Hvl].
    rewrite Hp by done. rewrite decide_False; [done|]. intros E. apply Hne. clear - E Hal Hvl.
    unfold PGSIZE in *. zmod.
  - intros b Hb. rewrite (ps_keeps _ _ _ _ _ _ _ _ _ Hst b Hb). apply uf_out.
    apply Hb. left. left.
  - intros v Hv. rewrite Hp by done. case_decide; [done|]. apply Hp1.
Qed.
End UnmapFree.

Lemma wp_unmap_page root T fl L va pa lim s R :
  user_inv (k_mem s) (k_freelist s) root T fl L -> L !! va = Some pa -> va < lim ->
  L_kmem ∉ k_held s ->
  (forall m' h', user_inv m' h' root T (pa :: fl) (delete va L) ->
     keeps T (pa :: fl) (k_mem s) m' ->
     (forall v, 0 <= v < VATOP -> pte_of m' root v =
        if decide (va / PGSIZE = v / PGSIZE) then 0 else pte_of (k_mem s) root v) ->
     R (inl (u64 (va + PGSIZE))) (upd s m' h')) ->
  wp (unmap_page root true lim va) R s.
Proof.
  intros Hi Hl Hlim Hh HR. unfold unmap_page. rewrite (proj2 (Z.ltb_lt va lim)) by done. wp_step.
  destruct (user_leaf _ _ _ _ _ _ _ _ Hi Hl) as (a & Ha & Hnz & He).
  pose proof (ui_pte _ _ _ _ _ _ Hi _ _ Hl) as Hp.
  apply wp_walk_noalloc; [by eapply ui_va|]. rewrite Ha. simpl default.
  rewrite (proj2 (Z.eqb_neq a 0)) by done. unfold ld. wp_step. wp_step. rewrite He.
  rewrite (leaf_pte_V _ _ Hp). cbn [negb].
  rewrite (proj2 (Z.eqb_neq _ _) (leaf_pte_flags _ _ Hp)).
  assert (Hok : page_ok pa) by (by eapply ui_ok).
  rewrite (leaf_pte_pa _ _ Hok Hp). unfold when. wp_step.
  apply (wp_kfree fl); [apply Hi | done | | done |].
  { intros Hin. eapply ui_own; [exact Hi | exact Hl | by left]. }
  intros m1 Hk1. unfold st. do 3 wp_step. rewrite set_mem_upd.
  destruct (unmap_free_inv _ _ _ _ _ _ _ _ _ Hi Hl Ha Hk1) as (H1 & H2 & H3).
  by apply (HR _ _ H1 H2 H3).
Qed.

(** uvmunmap with do_free: the pages leave the address space and go on the free
    list, nothing else changes. *)
Lemma wp_uvmunmap root T fl L va n s (Q : unit -> kstate -> Prop) :
  user_inv (k_mem s) (k_freelist s) root T fl L -> L_kmem ∉ k_held s ->
  va mod PGSIZE = 0 -> 0 <= n -> 0 <= va -> va + n * PGSIZE <= MAXVA ->
  (forall i, 0 <= i < n -> is_Some (L !! (va + i * PGSIZE))) ->
  (forall m' h' freed, user_inv m' h' root T (freed ++ fl) (cut L va n) ->
     (forall p, p ∈ freed <-> exists i, 0 <= i < n /\ L !! (va + i * PGSIZE) = Some p) ->
     keeps T (freed ++ fl) (k_mem s) m' ->
     (forall v, 0 <= v < VATOP -> pte_of m' root v =
        if decide (va <= v < va + n * PGSIZE) then 0 else pte_of (k_mem s) root v) ->
     Q tt (upd s m' h')) ->
  wp (uvmunmap root va n true) Q s.
Proof.
  intros Hi Hh Hal Hn Hva Hend HL HQ. unfold uvmunmap. rewrite Hal, Z.eqb_refl. cbn [negb].
  rewrite u64_small by (unfold MAXVA, PGSIZE in *; lia).
  set (I := fun a s' => exists k m' h' freed, s' = upd s m' h' /\ a = va + k * PGSIZE /\ 0 <= k <= n /\
    user_inv m' h' root T (freed ++ fl) (cut L va k) /\
    (forall p, p ∈ freed <-> exists i, 0 <= i < k /\ L !! (va + i * PGSIZE) = Some p) /\
    keeps T (freed ++ fl) (k_mem s) m' /\
    (forall v, 0 <= v < VATOP -> pte_of m' root v =
        if decide (va <= v < va + k * PGSIZE) then 0 else pte_of (k_mem s) root v)).
  eapply (wp_loop _ I (fun a _ => va + n * PGSIZE - a)).
  2: { exists 0, (k_mem s), (k_freelist s), []. rewrite upd_id, cut_0.
       split_and!; try done; try lia.
       - intros p. rewrite elem_of_nil. split; [done|]. intros (i & ? & _). lia.
       - intros v Hv. rewrite decide_False; [done | lia]. }
  2: { unfold MAXVA, PGSIZE in *. lia. }
  intros a s' (k & m' & h' & freed & -> & -> & Hk & Hi' & Hfr & Hke & Hp).
  destruct (Z.eq_dec k n) as [->|Hne].
  { unfold unmap_page. rewrite (proj2 (Z.ltb_ge _ _)) by lia. wp_step. by eapply HQ. }
  destruct (HL k) as [pa Hpa]; [lia|].
  assert (Hcut : cut L va k !! (va + k * PGSIZE) = Some pa)
    by (rewrite cut_lookup, decide_False; [done | lia]).
  apply (wp_unmap_page root T (freed ++ fl) (cut L va k) _ pa); [done | done | | done |].
  { unfold PGSIZE. lia. }
  intros m1 h1 Hi1 Hke1 Hp1. rewrite u64_small by (unfold MAXVA, PGSIZE in *; lia).
  split; [|unfold PGSIZE; lia].
  exists (k + 1), m1, h1, (pa :: freed). split_and!; try done; try lia.
  - replace (cut L va (k + 1)) with (delete (va + k * PGSIZE) (cut L va k)); [done|].
    apply cut_S; [done | lia |]. intros v p Hv. by apply (ui_va _ _ _ _ _ _ Hi v p).
  - apply cut_freed_S; [lia | done..].
  - eapply keeps_grow; [| exact Hke | exact Hke1]. intros p [Hin|Hin]; [left; by right | by right].
  - intros v Hv. rewrite Hp1 by done. rewrite Hp by done.
    repeat case_decide; try done; unfold PGSIZE in *; zmod.
Qed.

(** ** uvmdealloc *)
Definition up_pages (newsz oldsz : Z) : Z := (PGROUNDUP oldsz - PGROUNDUP newsz) / PGSIZE.

Lemma PGROUNDUP_le sz : 0 <= sz <= MAXVA ->
  PGROUNDUP sz mod PGSIZE = 0 /\ sz <= PGROUNDUP sz < sz + PGSIZE /\ PGROUNDUP sz <= MAXVA.
Proof.
  intros H. rewrite PGROUNDUP_eq by (unfold MAXVA, PGSIZE in *; lia).
  unfold MAXVA, PGSIZE in *. change (2 ^ 38) with 274877906944 in *. zmod.
Qed.

Lemma PGROUNDUP_id sz : 0 <= sz <= MAXVA -> sz mod PGSIZE = 0 -> PGROUNDUP sz = sz.
Proof. intros H1 H2. destruct (PGROUNDUP_le sz H1) as (? & ? & _). unfold PGSIZE in *. zmod. Qed.

Lemma PGROUNDUP_mono a b : 0 <= a <= b -> b <= MAXVA -> PGROUNDUP a <= PGROUNDUP b.
Proof.
  intros H1 H2. destruct (PGROUNDUP_le a) as (? & ? & _), (PGROUNDUP_le b) as (? & ? & _); try lia.
  unfold PGSIZE in *. zmod.
Qed.

Lemma wp_uvmdealloc root T fl L oldsz newsz s (Q : Z -> kstate -> Prop) :
  user_inv (k_mem s) (k_freelist s) root T fl L -> L_kmem ∉ k_held s ->
  0 <= newsz <= oldsz -> oldsz <= MAXVA ->
  (forall i, 0 <= i < up_pages newsz oldsz -> is_Some (L !! (PGROUNDUP newsz + i * PGSIZE))) ->
  (forall m' h' freed, user_inv m' h' root T (freed ++ fl) (cut L (PGROUNDUP newsz) (up_pages newsz oldsz)) ->
     (forall p, p ∈ freed <-> exists i, 0 <= i < up_pages newsz oldsz /\
        L !! (PGROUNDUP newsz + i * PGSIZE) = Some p) ->
     keeps T (freed ++ fl) (k_mem s) m' ->
     (forall v, 0 <= v < VATOP -> pte_of m' root v =
        if decide (PGROUNDUP newsz <= v < PGROUNDUP oldsz) then 0 else pte_of (k_mem s) root v) ->
     Q newsz (upd s m' h')) ->
  wp (uvmdealloc root oldsz newsz) Q s.
Proof.
  intros Hi Hh Hsz Hmax HL HQ. unfold uvmdealloc.
  destruct (PGROUNDUP_le oldsz) as (Ao & Ro & Mo); [lia|].
  destruct (PGROUNDUP_le newsz) as (An & Rn & _); [lia|].
  pose proof (PGROUNDUP_mono newsz oldsz Hsz Hmax) as Hmono.
  assert (Hn : 0 <= up_pages newsz oldsz /\
    PGROUNDUP newsz + up_pages newsz oldsz * PGSIZE = PGROUNDUP oldsz)
    by (unfold up_pages, PGSIZE in *; zmod).
  destruct Hn as [Hn0 Hn].
  assert (Hnone : PGROUNDUP newsz = PGROUNDUP oldsz -> Q newsz s).
  { intros E. rewrite <- (upd_id s). apply (HQ _ _ []).
    - replace (up_pages newsz oldsz) with 0 by (unfold PGSIZE in *; lia). by rewrite cut_0.
    - replace (up_pages newsz oldsz) with 0 by (unfold PGSIZE in *; lia).
      intros p. rewrite elem_of_nil. split; [done|]. intros (i & ? & _). lia.
    - done.
    - intros v Hv. rewrite decide_False; [done | lia]. }
  destruct (Z.leb_spec oldsz newsz).
  { wp_step. replace oldsz with newsz by lia. apply Hnone. f_equal. lia. }
  wp_step. apply wp_when; intros Hlt; wp_steps; [|apply Hnone; apply Z.ltb_ge in Hlt; lia].
  replace (u64 (s32 ((PGROUNDUP oldsz - PGROUNDUP newsz) / PGSIZE))) with (up_pages newsz oldsz).
  2: { fold (up_pages newsz oldsz). rewrite s32_small, u64_small; [done|..];
       unfold MAXVA, PGSIZE in *; lia. }
  apply (wp_uvmunmap root T fl L); try done; try lia.
  intros m' h' freed H1 H2 H3 H4. wp_step. apply (HQ m' h' freed); try done.
  intros v Hv. rewrite H4, Hn by done. done.
Qed.

(** ** Steps of an address space that allocate *)
Definition upage T fl L (p : Z) : Prop := owned T fl p \/ exists va, L !! va = Some p.

Record us_step m h m' h' (root : Z) T T' fl fl' L L' : Prop := {
  us_inv : user_inv m' h' root T' fl' L';
  us_pages p : upage T' fl' L' p <-> upage T fl L p;
  us_grow : L ⊆ L';
  us_sub : T ⊆ T';
  us_keeps : keeps T fl m m'
}.

Lemma us_owned m h m' h' root T T' fl fl' L L' p :
  us_step m h m' h' root T T' fl fl' L L' -> owned T' fl' p -> owned T fl p.
Proof.
  intros Hs Ho. destruct (proj1 (us_pages _ _ _ _ _ _ _ _ _ _ _ Hs p)) as [H|(va & H)];
    [by left | done |].
  exfalso. eapply ui_own; [apply Hs | | done]. eapply lookup_weaken; [done | apply Hs].
Qed.

(** New pages come from the free list. *)
Lemma us_new_owned m h m' h' root T T' fl fl' L L' va p :
  us_step m h m' h' root T T' fl fl' L L' -> L !! va = None -> L' !! va = Some p -> owned T fl p.
Proof.
  intros Hs HN Hl. destruct (proj1 (us_pages _ _ _ _ _ _ _ _ _ _ _ Hs p)) as [H|(v & Hv)];
    [right; by exists va | done |].
  exfalso. assert (Hv' : L' !! v = Some p) by (eapply lookup_weaken; [exact Hv | apply Hs]).
  assert (v = va) as -> by (eapply ui_inj; [apply Hs | exact Hv' | exact Hl]). congruence.
Qed.

Lemma us_refl m h root T fl L : user_inv m h root T fl L -> us_step m h m h root T T fl fl L L.
Proof. intros H. split; done. Qed.

Lemma us_trans m1 h1 m2 h2 m3 h3 root T1 T2 T3 fl1 fl2 fl3 L1 L2 L3 :
  us_step m1 h1 m2 h2 root T1 T2 fl1 fl2 L1 L2 -> us_step m2 h2 m3 h3 root T2 T3 fl2 fl3 L2 L3 ->
  us_step m1 h1 m3 h3 root T1 T3 fl1 fl3 L1 L3.
Proof.
  intros H1 H2. pose proof (fun p => us_owned _ _ _ _ _ _ _ _ _ _ _ p H1) as Ho.
  destruct H1 as [I1 P1 G1 S1 K1], H2 as [I2 P2 G2 S2 K2].
  split; [done | | by etransitivity | by etransitivity | by eapply keeps_trans].
  intros p. by rewrite P2.
Qed.

(** A tree update is such a step. *)
Lemma us_pt_step m h m' h' root T T' fl fl' L :
  user_inv m h root T fl L -> pt_step m h m' h' root T T' fl fl' ->
  (forall va pa, L !! va = Some pa -> pte_of m' root va = pte_of m root va) ->
  us_step m h m' h' root T T' fl fl' L L.
Proof.
  intros Hi Hs He. split; [by eapply user_inv_step | | done | apply Hs | apply Hs].
  intros p. unfold upage. by rewrite (pt_step_owned _ _ _ _ _ _ _ _ _ _ Hs).
Qed.

(** A fresh page enters the address space. *)
Lemma user_inv_insert m h root T fl L va q :
  user_inv m h root T fl L -> page_ok q -> ~ upage T fl L q ->
  0 <= va < MAXVA -> va mod PGSIZE = 0 -> leaf_pte (pte_of m root va) q ->
  user_inv m h root T fl (<[va := q]> L).
Proof.
  intros [Hv Hva Hp Hok Ho Hj] Hq Hno Hr Hal Hl.
  assert (Hx : forall v p, <[va := q]> L !! v = Some p -> (v = va /\ p = q) \/ L !! v = Some p)
    by (intros v p; rewrite lookup_insert_Some; naive_solver).
  split; [done|..].
  - intros v p [[-> ->]|H]%Hx; eauto.
  - intros v p [[-> ->]|H]%Hx; eauto.
  - intros v p [[-> ->]|H]%Hx; eauto.
  - intros v p [[-> ->]|H]%Hx; [|eauto]. intros H. apply Hno. by left.
  - intros v1 v2 p [[-> ->]|H1]%Hx [[-> E]|H2]%Hx; [done | | | by eapply Hj].
    + exfalso. apply Hno. right. by exists v2.
    + exfalso. apply Hno. right. exists v1. by rewrite <- E.
Qed.

Lemma page_ok_56 q : page_ok q -> 0 <= q < 2 ^ 56 /\ q + PGSIZE + PGSIZE <= 2 ^ 56.
Proof.
  intros H. pose proof (page_ok_pos q H). unfold PHYSTOP, KERNBASE, PGSIZE in *.
  change (2 ^ 56) with 72057594037927936. lia.
Qed.

Lemma leaf_mkpte_pa pa perm :
  0 <= pa < 2 ^ 56 -> pa mod PGSIZE = 0 -> 0 <= perm < 1024 -> Z.lor perm PTE_V <> 1 -> leaf_pte (mkpte pa perm) pa.
Proof.
  intros Hpa Hal Hp Hne. destruct (mkpte_val pa perm) as [-> Hr]; [done | done | done |].
  exists (Z.lor perm PTE_V). split_and!; try done; try lia.
  rewrite <- Z.bit0_odd, Z.lor_spec. by rewrite orb_true_r.
Qed.

Lemma leaf_mkpte q perm :
  page_ok q -> 0 <= perm < 1024 -> Z.lor perm PTE_V <> 1 -> leaf_pte (mkpte q perm) q.
Proof. intros Hq. apply leaf_mkpte_pa; [by apply page_ok_56|apply Hq]. Qed.

(** Writing inside a page that the address space does not own. *)
Lemma user_inv_outside m h root T fl L q m' :
  user_inv m h root T fl L -> page_ok q -> ~ owned T fl q ->
  (forall a, ~ in_page q a -> ldb m' a = ldb m a) -> user_inv m' h root T fl L.
Proof.
  intros Hi Hq Hno He.
  destruct (vm_inv_data _ _ _ _ _ _ _ (ui_vm _ _ _ _ _ _ Hi) Hq Hno He) as [Hv Hp].
  destruct Hi as [_ Hva Hpte Hok Ho Hj]. split; try done.
  intros va pa Hl. rewrite Hp. eauto.
Qed.

(** kalloc takes the head page out of the address space's pages. *)
Lemma take_page m h root T q fl L m1 h1 :
  user_inv m h root T (q :: fl) L -> page_ok q -> q ∉ fl -> fl_inv m1 h1 fl ->
  (forall a, ~ in_page q a -> ldb m1 a = ldb m a) ->
  user_inv m1 h1 root T fl L /\ ~ upage T fl L q /\ forall va, pte_of m1 root va = pte_of m root va.
Proof.
  intros [[_ Hw Hd] Hva Hp Hok Ho Hj] Hq Hni Hf He.
  assert (HT : T !! q = None) by (apply Hd; left).
  assert (Hst : same_tables T m m1) by (by eapply same_tables_outside).
  assert (Hpt : forall va, pte_of m1 root va = pte_of m root va) by (intros; by eapply pte_of_ext).
  split_and!; [split; try done | | done].
  - split; [done | by eapply pt_wf_ext, Hw; apply same_tables_interior |].
    intros p Hp'. apply Hd. by right.
  - intros va pa Hl. rewrite Hpt. eauto.
  - intros va pa Hl [Hin|Hin]; eapply Ho; [done | left; by right | done | by right].
  - intros [[Hin|[l Hin]]|(va & Hl)]; [done | congruence |]. eapply Ho; [done | left; left].
Qed.

Definition perm_ok (perm : Z) : Prop := 0 <= perm < 1024 /\ Z.lor perm PTE_V <> 1.

(** Mapping a page that the address space does not own yet. *)
Lemma wp_map_fresh root T fl L a q perm s (Q : Z -> kstate -> Prop) :
  user_inv (k_mem s) (k_freelist s) root T fl L -> L_kmem ∉ k_held s ->
  page_ok q -> ~ upage T fl L q -> 0 <= a -> a + PGSIZE <= MAXVA -> a mod PGSIZE = 0 ->
  perm_ok perm -> has (pte_of (k_mem s) root a) PTE_V = false ->
  (forall m' h' T' fl', pt_step (k_mem s) (k_freelist s) m' h' root T T' fl fl' ->
     user_inv m' h' root T' fl' (<[a := q]> L) ->
     (forall v, 0 <= v < VATOP -> pte_of m' root v =
        if decide (a <= v < a + PGSIZE) then mkpte q perm else pte_of (k_mem s) root v) ->
     Q 0 (upd s m' h')) ->
  (forall m' h' T', pt_step (k_mem s) (k_freelist s) m' h' root T T' fl [] ->
     user_inv m' h' root T' [] L ->
     (forall v, 0 <= v < VATOP -> pte_of m' root v = pte_of (k_mem s) root v) ->
     Q (-1) (upd s m' h')) ->
  wp (mappages root a PGSIZE q perm) Q s.
Proof.
  intros Hi Hh Hq Hno Ha Hend Hal [Hperm Hleaf] Hfree HS HF.
  assert (Hn : num_pages a PGSIZE = 1)
    by (unfold num_pages; rewrite !PGROUNDDOWN_eq; unfold PGSIZE in *; zmod).
  assert (Ha0 : PGROUNDDOWN a = a) by (rewrite PGROUNDDOWN_eq; unfold PGSIZE in *; zmod).
  assert (Hpg : forall v, a <= v < a + PGSIZE -> v / PGSIZE = a / PGSIZE)
    by (intros; unfold PGSIZE in *; zmod).
  destruct (page_ok_56 q Hq) as [Hq1 Hq2].
  assert (HL : L !! a = None).
  { destruct (L !! a) as [p|] eqn:E; [|done].
    apply (ui_pte _ _ _ _ _ _ Hi), leaf_pte_V in E. congruence. }
  apply (wp_mappages root a PGSIZE q perm T fl s); try done; try lia.
  - apply Hi.
  - apply Hq.
  - intros b Hb. rewrite Ha0 in Hb. by rewrite (pte_of_same_page _ _ b a) by (by apply Hpg).
  - rewrite Ha0, Hn. intros m' h' T' fl' [Hst Hp].
    assert (Hp' : forall v, 0 <= v < VATOP -> pte_of m' root v =
        if decide (a <= v < a + PGSIZE) then mkpte q perm else pte_of (k_mem s) root v).
    { intros v Hv. rewrite Hp by done. unfold map_range. case_decide as Hd.
      - rewrite (proj2 (Z.leb_le _ _)), (proj2 (Z.ltb_lt _ _)) by lia. simpl. f_equal.
        rewrite PGROUNDDOWN_eq. unfold PGSIZE in *. zmod.
      - destruct (Z.leb_spec a v), (Z.ltb_spec v (a + 1 * PGSIZE)); simpl; try done; lia. }
    apply (HS m' h' T' fl'); [done | | done]. apply user_inv_insert; try done; try (unfold PGSIZE in *; lia).
    + eapply user_inv_step; [exact Hi | done |]. intros v p Hv.
      destruct (ui_va _ _ _ _ _ _ Hi _ _ Hv) as [Hvr%va_vatop Hva].
      rewrite Hp' by done. rewrite decide_False; [done|]. intros Hd.
      replace v with a in Hv by (unfold PGSIZE in *; zmod). congruence.
    + intros [Hin|Hin]; apply Hno; [left | by right].
      by apply (pt_step_owned _ _ _ _ _ _ _ _ _ _ Hst).
    + rewrite Hp', decide_True by (apply va_vatop || idtac; unfold PGSIZE in *; lia). by apply leaf_mkpte.
  - rewrite Ha0, Hn. intros m' h' T' k Hk [Hst Hp]. replace k with 0 in * by lia.
    assert (Hp' : forall v, 0 <= v < VATOP -> pte_of m' root v = pte_of (k_mem s) root v)
      by (intros v Hv; rewrite Hp by done; apply map_range_0).
    apply (HF m' h' T'); [done | | done]. eapply user_inv_step; [exact Hi | done |].
    intros v p Hv. apply Hp', va_vatop. by eapply ui_va.
Qed.

(** kalloc, fill and map: one step of the address space. *)
Lemma us_fresh m h m2 h2 m' h' root T T' q fl fl' L a :
  user_inv m h root T (q :: fl) L -> (forall b, ~ in_page q b -> ldb m2 b = ldb m b) ->
  pt_step m2 h2 m' h' root T T' fl fl' -> user_inv m' h' root T' fl' (<[a := q]> L) -> L !! a = None ->
  us_step m h m' h' root T T' (q :: fl) fl' L (<[a := q]> L).
Proof.
  intros Hi He Hst Hi' HL. split; [done | | by apply insert_subseteq | apply Hst |].
  - intros p. unfold upage. rewrite (pt_step_owned _ _ _ _ _ _ _ _ _ _ Hst). unfold owned.
    rewrite elem_of_cons. split.
    + intros [H|(va & Hva)]; [tauto|]. apply lookup_insert_Some in Hva as [[_ <-]|[_ Hva]]; [tauto|].
      right. by exists va.
    + intros [[[->|H]|H]|(va & Hva)]; [| tauto | tauto |].
      * right. exists a. apply lookup_insert_eq.
      * right. exists va. rewrite lookup_insert_ne; [done | congruence].
  - intros b Hb. rewrite (ps_keeps _ _ _ _ _ _ _ _ _ Hst); [apply He, Hb; left; left|].
    intros p [Hp|Hp]; apply Hb; [left; by right | by right].
Qed.

(** kalloc, fill, and kfree because mapping failed. *)
Lemma us_back m h m2 h2 m' h' m3 h3 root T T' q fl fl' L :
  user_inv m h root T (q :: fl) L -> (forall b, ~ in_page q b -> ldb m2 b = ldb m b) ->
  pt_step m2 h2 m' h' root T T' fl fl' -> user_inv m' h' root T' fl' L -> page_ok q ->
  ~ upage T' fl' L q ->
  (forall b, ~ in_page q b -> ldb m3 b = ldb m' b) -> fl_inv m3 h3 (q :: fl') ->
  us_step m h m3 h3 root T T' (q :: fl) (q :: fl') L L /\
  forall v, pte_of m3 root v = pte_of m' root v.
Proof.
  intros Hi He Hst Hi' Hq Hno He3 Hf3.
  assert (Hno' : ~ owned T' fl' q) by (intros H; apply Hno; by left).
  destruct (vm_inv_data _ _ _ _ _ _ _ (ui_vm _ _ _ _ _ _ Hi') Hq Hno' He3) as [Hv3 Hp3].
  split; [|done]. split; [| | done | apply Hst |].
  - destruct Hi' as [Hv Hva Hp Hok Ho Hj]. split; try done.
    + split; [done | apply Hv3 |]. intros p. rewrite elem_of_cons.
      intros [E|Hp']; [|by apply Hv]. rewrite E.
      destruct (T' !! q) eqn:ET; [|done]. exfalso. apply Hno'. right. by eexists.
    + intros va pa Hl. rewrite Hp3. eauto.
    + intros va pa Hl [Hin|Hin]; [|eapply Ho; [done | by right]].
      apply elem_of_cons in Hin as [E|Hin]; [|eapply Ho; [done | by left]].
      apply Hno. right. exists va. by rewrite <- E.
  - intros p. unfold upage, owned. rewrite !elem_of_cons.
    pose proof (pt_step_owned _ _ _ _ _ _ _ _ _ p Hst) as Ho. unfold owned in Ho. tauto.
  - intros b Hb. assert (~ in_page q b) by (apply Hb; left; left).
    rewrite He3 by done. rewrite (ps_keeps _ _ _ _ _ _ _ _ _ Hst); [by apply He|].
    intros p [Hp|Hp]; apply Hb; [left; by right | by right].
Qed.

(** The code that uvmalloc, uvmcopy and the page-fault handler share: allocate a
    page, fill it, map it; give it back and clean up if that fails. *)
Definition fill_map (root a perm : Z) (fill : Z -> mem -> mem) (fail ok : KM (Z + Z)) : KM (Z + Z) :=
  let* pg := kalloc in
  if pg =? 0 then fail
  else
    modify (set_mem (fill pg));;;
    let* r := mappages root a PGSIZE pg perm in
    if negb (r =? 0) then kfree pg;;; fail else ok.

Lemma wp_fill_map root T fl L a perm fill fail ok s R :
  user_inv (k_mem s) (k_freelist s) root T fl L -> L_kmem ∉ k_held s ->
  0 <= a -> a + PGSIZE <= MAXVA -> a mod PGSIZE = 0 -> perm_ok perm ->
  has (pte_of (k_mem s) root a) PTE_V = false ->
  (forall q m b, ~ in_page q b -> ldb (fill q m) b = ldb m b) ->
  (forall m' h' T' fl' q, us_step (k_mem s) (k_freelist s) m' h' root T T' fl fl' L (<[a := q]> L) ->
     L !! a = None -> ~ upage T' fl' L q -> owned T fl q ->
     (forall b, in_page q b -> ldb m' b = ldb (fill q (memset (k_mem s) q 5 PGSZ)) b) ->
     (forall v, 0 <= v < VATOP -> pte_of m' root v =
        if decide (a <= v < a + PGSIZE) then mkpte q perm else pte_of (k_mem s) root v) ->
     wp ok R (upd s m' h')) ->
  (forall m' h' T' fl', us_step (k_mem s) (k_freelist s) m' h' root T T' fl fl' L L ->
     (forall v, 0 <= v < VATOP -> pte_of m' root v = pte_of (k_mem s) root v) ->
     wp fail R (upd s m' h')) ->
  wp (fill_map root a perm fill fail ok) R s.
Proof.
  intros Hi Hh Ha Hend Hal Hperm Hfree Hfill HS HF. unfold fill_map. wp_step.
  assert (HL : L !! a = None).
  { destruct (L !! a) as [p|] eqn:E; [|done].
    apply (ui_pte _ _ _ _ _ _ Hi), leaf_pte_V in E. congruence. }
  apply (wp_kalloc fl); [apply Hi | done | |].
  { intros ->. simpl. rewrite <- (upd_id s). apply (HF _ _ T []); [by apply us_refl | done]. }
  intros q fl1 -> Hq Hni m1 h1 Hf1. pose proof (page_ok_pos q Hq).
  rewrite (proj2 (Z.eqb_neq q 0)) by lia. wp_step. wp_step. rewrite set_mem_upd.
  wp_step. set (m2 := fill q m1).
  assert (He : forall b, ~ in_page q b -> ldb m2 b = ldb (k_mem s) b)
    by (intros b Hb; unfold m2, m1; rewrite Hfill by done; by apply memset_page_out).
  assert (Hf2 : fl_inv m2 h1 fl1)
    by (apply (fl_inv_outside m1 _ _ q); [done.. | intros b; apply Hfill]).
  destruct (take_page _ _ _ _ _ _ _ m2 h1 Hi Hq Hni Hf2 He) as (Hi2 & Hno & Hp2).
  fold m1 in HS. assert (Hc : forall b, ldb m2 b = ldb (fill q m1) b) by done.
  clearbody m2 h1. clear Hf1.
  apply (wp_map_fresh root T fl1 L a q); try done.
  - by rewrite Hp2.
  - intros m' h' T' fl' Hst Hi' Hp. simpl negb. cbv iota. rewrite upd_upd.
    apply (HS m' h' T' fl' q); [by eapply us_fresh | done | | left; left | | ].
    + intros [Ho|Ho]; apply Hno; [left | by right]. by apply (pt_step_owned _ _ _ _ _ _ _ _ _ _ Hst).
    + intros b Hb. rewrite <- Hc. apply (keeps_page m2 h1 root T fl1 m' q);
        [apply Hi2 | apply Hst | done | | done]. intros Ho. apply Hno. by left.
    + intros v Hv. rewrite Hp by done. case_decide; [done | apply Hp2].
  - intros m' h' T' Hst Hi' Hp. simpl negb. cbv iota. wp_step.
    assert (Hno' : ~ upage T' [] L q).
    { intros [Ho|Ho]; apply Hno; [left | by right]. by apply (pt_step_owned _ _ _ _ _ _ _ _ _ _ Hst). }
    apply (wp_kfree []); [apply Hi' | done | apply not_elem_of_nil | done |].
    intros m3 Hf3. simpl k_mem in *. simpl k_freelist in *. rewrite !upd_upd.
    destruct (us_back _ _ m2 h1 m' h' m3 q _ _ T' q fl1 [] L Hi He Hst Hi' Hq Hno') as [Hus Hp3]; [|done|].
    { intros b Hb. unfold m3. rewrite ldb_st64 by (unfold in_page, PGSIZE in *; lia). by apply memset_page_out. }
    clearbody m3. apply (HF m3 q T' [q]); [done|]. intros v Hv. by rewrite Hp3, Hp, Hp2.
Qed.

(** Undoing an allocation: the new pages go back to the free list. *)
Lemma us_cut m h m2 h2 m3 h3 root T T2 fl fl2 freed L L' :
  us_step m h m2 h2 root T T2 fl fl2 L L' -> user_inv m3 h3 root T2 (freed ++ fl2) L ->
  keeps T2 (freed ++ fl2) m2 m3 ->
  (forall p, p ∈ freed <-> exists v, L' !! v = Some p /\ L !! v = None) ->
  us_step m h m3 h3 root T T2 fl (freed ++ fl2) L L.
Proof.
  intros Hs Hi Hk Hf.
  assert (Hpg : forall p, upage T2 (freed ++ fl2) L p <-> upage T fl L p).
  { intros p. rewrite <- (us_pages _ _ _ _ _ _ _ _ _ _ _ Hs p). unfold upage, owned.
    rewrite elem_of_app, Hf. split.
    - intros [[[(v & Hv & _)|H]|H]|(v & Hv)]; [right; by exists v | tauto | tauto |].
      right. exists v. eapply lookup_weaken; [done | apply Hs].
    - intros [H|(v & Hv)]; [tauto|]. destruct (L !! v) as [p'|] eqn:E; [|left; left; left; by exists v].
      right. exists v. rewrite E. rewrite <- Hv. symmetry. eapply lookup_weaken; [done | apply Hs]. }
  split; [done | done | done | apply Hs |].
  eapply keeps_trans; [| apply Hs | exact Hk].
  intros p Ho. destruct (proj1 (Hpg p)) as [H|(v & Hv)]; [by left | done |].
  exfalso. by eapply (ui_own _ _ _ _ _ _ Hi).
Qed.

(** ** Filling a range of pages, and undoing it

    [fills k]: the address space of [s] has [k] new pages from [base] on; the
    page of [va] holds the bytes [g va] and has permissions [perm va]. *)
Section Fills.
Variables (root base : Z) (T : gmap Z Z) (fl : list Z) (L : gmap Z Z) (s : kstate).
Variables (g : Z -> Z -> Z) (perm : Z -> Z).
Hypotheses (Hi : user_inv (k_mem s) (k_freelist s) root T fl L)
  (Hb : base mod PGSIZE = 0) (Hb0 : 0 <= base).

Definition page_holds m (p : Z) (f : Z -> Z) : Prop := forall o, 0 <= o < PGSIZE -> ldb m (p + o) = f o.

Record fills (k : Z) (m' : mem) (h' : Z) T' (fl' : list Z) (L' : gmap Z Z) : Prop := {
  fi_step : us_step (k_mem s) (k_freelist s) m' h' root T T' fl fl' L L';
  fi_dom v : is_Some (L' !! v) <-> is_Some (L !! v) \/ exists i, 0 <= i < k /\ v = base + i * PGSIZE;
  fi_new i : 0 <= i < k -> L !! (base + i * PGSIZE) = None /\
    exists q, L' !! (base + i * PGSIZE) = Some q /\ page_holds m' q (g (base + i * PGSIZE)) /\
      pte_of m' root (base + i * PGSIZE) = mkpte q (perm (base + i * PGSIZE));
  fi_old v : 0 <= v < VATOP -> ~ (base <= v < base + k * PGSIZE) ->
    pte_of m' root v = pte_of (k_mem s) root v
}.

Lemma fills_next k m' h' T' fl' L' m1 h1 T1 fl1 q :
  0 <= k -> base + k * PGSIZE < MAXVA ->
  fills k m' h' T' fl' L' ->
  us_step m' h' m1 h1 root T' T1 fl' fl1 L' (<[base + k * PGSIZE := q]> L') ->
  L' !! (base + k * PGSIZE) = None -> page_holds m1 q (g (base + k * PGSIZE)) ->
  (forall v, 0 <= v < VATOP -> pte_of m1 root v =
     if decide (base + k * PGSIZE <= v < base + k * PGSIZE + PGSIZE) then mkpte q (perm (base + k * PGSIZE))
     else pte_of m' root v) ->
  fills (k + 1) m1 h1 T1 fl1 (<[base + k * PGSIZE := q]> L').
Proof.
  intros Hk Hlt [Hst Hdom Hnew Hold] Hst1 HNone Hz Hp.
  assert (HLn : L !! (base + k * PGSIZE) = None).
  { destruct (L !! (base + k * PGSIZE)) eqn:E; [|done].
    rewrite (lookup_weaken _ L' _ _ E) in HNone by apply Hst. discriminate HNone. }
  split.
  - by eapply us_trans.
  - intros v. rewrite lookup_insert_is_Some, Hdom. split.
    + intros [<-|[_ [H|(i & Hi' & ->)]]]; [right; exists k; lia | tauto | right; exists i; lia].
    + intros [H|(i & Hi' & ->)].
      * destruct (decide (base + k * PGSIZE = v)); tauto.
      * destruct (decide (i = k)) as [->|Hne]; [tauto|]. right. split; [unfold PGSIZE; lia|].
        right. exists i. lia.
  - intros i Hi'. destruct (decide (i = k)) as [->|Hne].
    + split; [done|]. exists q. rewrite lookup_insert_eq. split_and!; [done | done |].
      rewrite Hp by (unfold VATOP, MAXVA, PGSIZE in *; lia). rewrite decide_True; [done | unfold PGSIZE; lia].
    + destruct (Hnew i) as (HN & p & Hl & Hzp & Hpp); [lia|]. split; [done|]. exists p.
      rewrite lookup_insert_ne by (unfold PGSIZE; lia). split_and!; [done | |].
      * intros o Ho. rewrite (keeps_page m' h' root T' fl' m1 p);
          [by apply Hzp | | apply Hst1 | | | unfold in_page; lia].
        -- apply (us_inv _ _ _ _ _ _ _ _ _ _ _ Hst).
        -- eapply ui_ok; [apply (us_inv _ _ _ _ _ _ _ _ _ _ _ Hst) | exact Hl].
        -- eapply ui_own; [apply (us_inv _ _ _ _ _ _ _ _ _ _ _ Hst) | exact Hl].
      * rewrite Hp by (unfold VATOP, MAXVA, PGSIZE in *; lia). rewrite decide_False; [done | unfold PGSIZE; lia].
  - intros v Hv Hn. rewrite Hp by done. rewrite decide_False by (unfold PGSIZE in *; lia).
    apply Hold; [done | unfold PGSIZE in *; lia].
Qed.

(** Undoing [k] rounds. *)
Lemma fills_undo k m' h' T' fl' L' m2 h2 T2 fl2 m3 h3 freed :
  0 <= k -> fills k m' h' T' fl' L' -> us_step m' h' m2 h2 root T' T2 fl' fl2 L' L' ->
  user_inv m3 h3 root T2 (freed ++ fl2) (cut L' base k) ->
  (forall p, p ∈ freed <-> exists i, 0 <= i < k /\ L' !! (base + i * PGSIZE) = Some p) ->
  keeps T2 (freed ++ fl2) m2 m3 ->
  us_step (k_mem s) (k_freelist s) m3 h3 root T T2 fl (freed ++ fl2) L L.
Proof.
  intros Hk [Hst Hdom Hnew Hold] Hst2 Hi3 Hfr Hke.
  assert (HL : cut L' base k = L).
  { apply map_eq. intros v. rewrite cut_lookup. destruct (L !! v) as [p|] eqn:E.
    - rewrite decide_False; [eapply lookup_weaken; [done | apply Hst]|]. intros Hv.
      destruct (ui_va _ _ _ _ _ _ Hi _ _ E) as [_ Hal].
      destruct (Hnew ((v - base) / PGSIZE)) as [HN _]; [unfold PGSIZE in *; zmod|].
      replace (base + (v - base) / PGSIZE * PGSIZE) with v in HN by (unfold PGSIZE in *; zmod). congruence.
    - case_decide; [done|]. destruct (L' !! v) as [p|] eqn:E'; [|done]. exfalso.
      destruct (proj1 (Hdom v)) as [[? HH]|(i & Hi' & ->)]; [by eexists | congruence | unfold PGSIZE in *; lia]. }
  rewrite HL in Hi3. eapply us_cut; [by eapply us_trans | done | done |].
  intros p. rewrite Hfr. split.
  - intros (i & Hi' & Hl). exists (base + i * PGSIZE). split; [done | by apply Hnew].
  - intros (v & Hl & HN). destruct (proj1 (Hdom v)) as [[? HH]|(i & Hi' & ->)]; [by eexists | congruence |].
    by exists i.
Qed.
Lemma fills_0 : fills 0 (k_mem s) (k_freelist s) T fl L.
Proof.
  split; [by apply us_refl | | lia | done]. intros v. split; [tauto|].
  intros [H|(i & ? & _)]; [done | lia].
Qed.
End Fills.

(** ** uvmalloc *)
Definition RWXU : Z := Z.lor (Z.lor (Z.lor PTE_W PTE_X) PTE_R) PTE_U.

Lemma alloc_page_fill root oldsz newsz a :
  a < newsz ->
  alloc_page root oldsz newsz a =
  fill_map root a RWXU (fun pg m => memset m pg 0 PGSZ)
    (uvmdealloc root a oldsz;;; ret (inr 0)) (ret (inl (u64 (a + PGSIZE)))).
Proof. intros H. unfold alloc_page. by rewrite (proj2 (Z.ltb_lt a newsz) H). Qed.

Section Uvmalloc.
Variables (root oldsz newsz : Z) (T : gmap Z Z) (fl : list Z) (L : gmap Z Z) (s : kstate).
Hypotheses (Hi : user_inv (k_mem s) (k_freelist s) root T fl L) (Hh : L_kmem ∉ k_held s)
  (Hsz : 0 <= oldsz <= newsz) (Hmax : newsz <= MAXVA)
  (Hfree : forall v, PGROUNDUP oldsz <= v < PGROUNDUP newsz -> has (pte_of (k_mem s) root v) PTE_V = false).
Let base := PGROUNDUP oldsz.
Let allocated := fills root base T fl L s (fun _ _ => 0) (fun _ => RWXU).

Lemma wp_uvmalloc (Q : Z -> kstate -> Prop) :
  (forall m' h' T' fl' L', allocated (up_pages oldsz newsz) m' h' T' fl' L' -> Q newsz (upd s m' h')) ->
  (forall m' h' T' fl', us_step (k_mem s) (k_freelist s) m' h' root T T' fl fl' L L ->
     (forall v, 0 <= v < VATOP -> has (pte_of m' root v) PTE_V = has (pte_of (k_mem s) root v) PTE_V) ->
     (forall v, 0 <= v < VATOP -> ~ (base <= v < PGROUNDUP newsz) ->
        pte_of m' root v = pte_of (k_mem s) root v) ->
     Q 0 (upd s m' h')) ->
  wp (uvmalloc root oldsz newsz) Q s.
Proof.
  intros HS HF. unfold uvmalloc. rewrite (proj2 (Z.ltb_ge newsz oldsz)) by lia. fold base.
  destruct (PGROUNDUP_le oldsz) as (Ao & Ro & Mo); [lia|].
  destruct (PGROUNDUP_le newsz) as (An & Rn & Mn); [lia|].
  pose proof (PGROUNDUP_mono oldsz newsz Hsz Hmax) as Hmono. set (n := up_pages oldsz newsz) in *.
  assert (Hn : 0 <= n /\ base + n * PGSIZE = PGROUNDUP newsz)
    by (unfold n, up_pages, base, PGSIZE in *; zmod).
  fold base in Ao, Ro, Mo, Hmono.
  set (I := fun a s' => exists k m' h' T' fl' L', s' = upd s m' h' /\ a = base + k * PGSIZE /\
    0 <= k <= n /\ allocated k m' h' T' fl' L').
  eapply (wp_loop _ I (fun a _ => base + n * PGSIZE - a)).
  2: { exists 0, (k_mem s), (k_freelist s), T, fl, L. rewrite upd_id. split_and!; try done; try lia.
       by apply fills_0. }
  2: { unfold MAXVA, PGSIZE in *. lia. }
  intros a s' (k & m' & h' & T' & fl' & L' & -> & -> & Hk & Hua).
  destruct (Z.eq_dec k n) as [->|Hne].
  { unfold alloc_page. rewrite (proj2 (Z.ltb_ge _ _)) by lia. wp_step. by eapply HS. }
  pose proof (fi_step _ _ _ _ _ _ _ _ _ _ _ _ _ _ Hua) as Hst. set (a := base + k * PGSIZE) in *.
  assert (Ha : base <= a /\ a + PGSIZE <= PGROUNDUP newsz /\ a mod PGSIZE = 0)
    by (unfold a, PGSIZE in *; zmod).
  assert (Hanew : a < newsz) by (unfold PGSIZE in *; lia).
  assert (Hpa : pte_of m' root a = pte_of (k_mem s) root a)
    by (apply (fi_old _ _ _ _ _ _ _ _ _ _ _ _ _ _ Hua); unfold a, VATOP, MAXVA, PGSIZE in *; lia).
  rewrite alloc_page_fill by done. apply (wp_fill_map root T' fl' L').
  - apply Hst.
  - done.
  - lia.
  - lia.
  - lia.
  - vm_compute; intuition discriminate.
  - simpl. rewrite Hpa. apply Hfree. fold base. unfold PGSIZE in *. lia.
  - intros. by apply memset_page_out.
  - intros m1 h1 T1 fl1 q Hst1 HN _ _ Hz Hp. rewrite upd_upd. wp_step.
    rewrite u64_small by (unfold MAXVA, PGSIZE in *; lia).
    split; [|unfold a, PGSIZE in *; lia].
    exists (k + 1), m1, h1, T1, fl1, (<[a := q]> L'). split_and!; try done; try (unfold a; lia).
    assert (Hb0 : 0 <= base) by lia.
    apply (fills_next _ _ _ _ _ _ _ _ Hb0 k m' h' T' fl' L'); try done;
      try (unfold a, PGSIZE in *; lia).
    intros o Ho. rewrite Hz by (unfold in_page; lia). rewrite ldb_memset, PGSZ_Z. ranges.
  - intros m2 h2 T2 fl2 Hst2 Hp2. rewrite upd_upd. wp_step.
    assert (Hbid : PGROUNDUP base = base) by (apply PGROUNDUP_id; [lia | done]).
    assert (Haid : PGROUNDUP a = a) by (apply PGROUNDUP_id; lia).
    assert (Hup : up_pages base a = k) by (unfold up_pages; rewrite Hbid, Haid; unfold a, PGSIZE; zmod).
    apply (wp_uvmdealloc root T2 fl2 L'); rewrite ?Hbid, ?Haid, ?Hup; try done; try lia.
    + apply Hst2.
    + intros i Hi'. destruct (fi_new _ _ _ _ _ _ _ _ _ _ _ _ _ _ Hua i Hi') as (_ & q & Hq & _). by exists q.
    + intros m3 h3 freed Hi3 Hfr Hke Hp3. rewrite upd_upd. simpl k_mem in *. wp_step.
      assert (Hold : forall v, 0 <= v < VATOP -> ~ (base <= v < a) -> pte_of m3 root v = pte_of (k_mem s) root v).
      { intros v Hv Hn'. rewrite Hp3, decide_False, Hp2 by done. by apply (fi_old _ _ _ _ _ _ _ _ _ _ _ _ _ _ Hua). }
      apply (HF m3 h3 T2 (freed ++ fl2)).
      * eapply fills_undo; [exact Hi | exact Ao | | exact Hua | exact Hst2 | done..]. lia.
      * intros v Hv. destruct (decide (base <= v < a)) as [Hd|Hd]; [|by rewrite Hold].
        rewrite Hp3, decide_True by done. symmetry. apply Hfree. fold base. lia.
      * intros v Hv Hn'. apply Hold; [done | lia].
Qed.
End Uvmalloc.

End User.
