(* ===== verification/UserCopy.v ===== *)
(** * uvmcopy, copyout, copyin and copyinstr of vm.c *)
From S2P Require Import Prelude Memory State Kalloc Vm PageTable VmSpec UserMem.

Section Copy.
Context `{KI : KernelImage} `{KOK : !KernelImageOk}.

(** ** uvmcopy *)

(** The part of copy_page after the entry of the page has been read. *)
Lemma copy_page_fill new i pa flags :
  (let* pg := kalloc in
   if pg =? 0 then uvmunmap new 0 (i / PGSIZE) true;;; ret (inr (-1))
   else
     modify (set_mem (fun m => memmove m pg pa PGSZ));;;
     let* r := mappages new i PGSIZE pg flags in
     if negb (r =? 0) then
       kfree pg;;; uvmunmap new 0 (i / PGSIZE) true;;; ret (inr (-1))
     else ret (inl (u64 (i + PGSIZE)))) =
  fill_map new i flags (fun pg m => memmove m pg pa PGSZ)
    (uvmunmap new 0 (i / PGSIZE) true;;; ret (inr (-1))) (ret (inl (u64 (i + PGSIZE)))).
Proof. reflexivity. Qed.

Lemma leaf_pte_perm e pa : leaf_pte e pa -> perm_ok (PTE_FLAGS e).
Proof.
  intros (f & -> & Hf & Ho & Hne). rewrite PTE_FLAGS_eq by done. split; [done|].
  replace (Z.lor f PTE_V) with f; [done|]. apply Z.bits_inj'. intros n Hn.
  rewrite Z.lor_spec. destruct (Z.eq_dec n 0) as [->|].
  - by rewrite Z.bit0_odd, Ho.
  - unfold PTE_V. rewrite (Z.bits_above_log2 1 n) by (simpl; lia). by rewrite orb_false_r.
Qed.

Section Uvmcopy.
Variables (old new sz : Z) (T : gmap Z Z) (fl : list Z) (L : gmap Z Z) (s : kstate).
Variables (T0 P : gmap Z Z).

(** The parent: a tree [T0] and pages [P], apart from the child and the free list. *)
Record parent_ok (m : mem) : Prop := {
  pa_wf : pt_wf m T0 old;
  pa_tab p : is_Some (T0 !! p) -> ~ owned T fl p;
  pa_map va pa : P !! va = Some pa -> leaf_pte (pte_of m old va) pa /\ page_ok pa /\ ~ owned T fl pa
}.

Hypotheses (Hi : user_inv (k_mem s) (k_freelist s) new T fl L) (Hh : L_kmem ∉ k_held s)
  (Hpar : parent_ok (k_mem s))
  (Hsz : 0 <= sz <= MAXVA)
  (HP : forall va, 0 <= va < sz -> va mod PGSIZE = 0 -> is_Some (P !! va))
  (Hfree : forall v, 0 <= v < PGROUNDUP sz -> has (pte_of (k_mem s) new v) PTE_V = false).

(** The child's page at [va] is the parent's. *)
Let g va o := ldb (k_mem s) (default 0 (P !! va) + o).
Let perm va := PTE_FLAGS (pte_of (k_mem s) old va).
Let copied := fills new 0 T fl L s g perm.

Lemma parent_page m' va pa o :
  keeps T fl (k_mem s) m' -> P !! va = Some pa -> 0 <= o < PGSIZE -> ldb m' (pa + o) = g va o.
Proof.
  intros Hk Hv Ho. unfold g. rewrite Hv. simpl.
  destruct (pa_map _ Hpar _ _ Hv) as (_ & Hok & Hno).
  apply (keeps_page _ _ _ _ _ _ pa _ (ui_vm _ _ _ _ _ _ Hi)); try done. unfold in_page. lia.
Qed.

Lemma parent_pte m' va : keeps T fl (k_mem s) m' -> pte_of m' old va = pte_of (k_mem s) old va.
Proof.
  intros Hk. eapply pte_of_ext; [apply Hpar|]. intros p l i Hp Hi'. apply pte_at_ext; [done|].
  intros a Ha. apply (keeps_page _ _ _ _ _ _ p _ (ui_vm _ _ _ _ _ _ Hi)); try done.
  - by apply (wf_page _ _ _ (pa_wf _ Hpar) p l).
  - apply (pa_tab _ Hpar). by exists l.
Qed.

Lemma parent_leaf m' va pa :
  keeps T fl (k_mem s) m' -> P !! va = Some pa ->
  exists a, leaf_addr m' old va = Some a /\ a <> 0 /\ ld64 m' a = pte_of (k_mem s) old va.
Proof.
  intros Hk Hv. pose proof (parent_pte m' va Hk) as He.
  assert (Hw : pt_wf m' T0 old).
  { eapply pt_wf_ext, Hpar. intros p l i Hp _ Hi'. apply pte_at_ext; [done|].
    intros a Ha. apply (keeps_page _ _ _ _ _ _ p _ (ui_vm _ _ _ _ _ _ Hi)); try done.
    - by apply (wf_page _ _ _ (pa_wf _ Hpar) p l).
    - apply (pa_tab _ Hpar). by exists l. }
  destruct (pa_map _ Hpar _ _ Hv) as (Hl & _).
  destruct (leaf_addr m' old va) as [a|] eqn:Ha.
  - exists a. split; [done|]. split; [|by rewrite <- (pte_of_leaf _ _ _ _ Ha)].
    by eapply leaf_addr_nonzero.
  - rewrite (pte_of_no_leaf _ _ _ Ha) in He. apply leaf_pte_V in Hl. by rewrite <- He in Hl.
Qed.

(** One round, the [k]-th. *)
Lemma wp_copy_page k m' h' T' fl' L' R :
  0 <= k < PGROUNDUP sz / PGSIZE -> copied k m' h' T' fl' L' ->
  (forall m1 h1 T1 fl1 L1, copied (k + 1) m1 h1 T1 fl1 L1 ->
     R (inl ((k + 1) * PGSIZE)) (upd s m1 h1)) ->
  (forall m3 h3 T3 fl3, us_step (k_mem s) (k_freelist s) m3 h3 new T T3 fl fl3 L L ->
     (forall v, 0 <= v < VATOP -> has (pte_of m3 new v) PTE_V = has (pte_of (k_mem s) new v) PTE_V) ->
     (forall v, 0 <= v < VATOP -> PGROUNDUP sz <= v -> pte_of m3 new v = pte_of (k_mem s) new v) ->
     R (inr (-1)) (upd s m3 h3)) ->
  wp (copy_page old new sz (k * PGSIZE)) R (upd s m' h').
Proof.
  intros Hk Hua HS HF. destruct (PGROUNDUP_le sz Hsz) as (An & Rn & Mn).
  pose proof (fi_step _ _ _ _ _ _ _ _ _ _ _ _ _ _ Hua) as Hst.
  pose proof (us_keeps _ _ _ _ _ _ _ _ _ _ _ Hst) as Hke.
  set (a := k * PGSIZE) in *. assert (Ea : 0 + k * PGSIZE = a) by done.
  assert (Ha : 0 <= a /\ a + PGSIZE <= PGROUNDUP sz /\ a mod PGSIZE = 0 /\ a / PGSIZE = k)
    by (unfold a, PGSIZE in *; zmod).
  destruct Ha as (Ha0 & Ha1 & Hal & Hdiv).
  assert (Hasz : a < sz) by (unfold PGSIZE in *; lia).
  destruct (HP a) as [pa Hpa]; [lia | lia |].
  destruct (pa_map _ Hpar _ _ Hpa) as (Hleaf & Hok & Hnp). unfold copy_page.
  rewrite (proj2 (Z.ltb_lt _ _)) by done. wp_step.
  destruct (parent_leaf m' a pa Hke Hpa) as (r & Hr & Hr0 & He).
  apply wp_walk_noalloc; [lia|]. simpl k_mem. rewrite Hr. simpl default.
  rewrite (proj2 (Z.eqb_neq r 0)) by done. unfold ld. wp_step. wp_step. simpl k_mem. rewrite He.
  rewrite (leaf_pte_V _ _ Hleaf). cbn [negb]. cbv zeta. rewrite (leaf_pte_pa _ _ Hok Hleaf).
  rewrite copy_page_fill. fold (perm a).
  apply (wp_fill_map new T' fl' L'); [apply Hst | done | lia | lia | done | | | | |].
  - by apply (leaf_pte_perm _ pa).
  - simpl. rewrite (fi_old _ _ _ _ _ _ _ _ _ _ _ _ _ _ Hua); [apply Hfree; unfold PGSIZE in *; lia | apply va_vatop; lia |].
    unfold a, PGSIZE in *; lia.
  - intros q m b Hb. rewrite ldb_memmove, PGSZ_Z. unfold in_page in Hb. ranges.
  - intros m1 h1 T1 fl1 q Hst1 HN _ Hq Hz Hp. rewrite upd_upd. wp_step. simpl k_mem in *.
    rewrite u64_small by (unfold MAXVA, PGSIZE in *; lia).
    replace (a + PGSIZE) with ((k + 1) * PGSIZE) by (unfold a; lia).
    eapply HS. rewrite <- Ea in Hst1, HN, Hp.
    eapply (fills_next _ _ _ _ _ _ _ _ (Z.le_refl 0)); try done; try lia.
    intros o Ho. rewrite Hz by (unfold in_page; lia). rewrite ldb_memmove, PGSZ_Z, Ea.
    replace (inr_ q PGSIZE (q + o)) with true by (symmetry; unfold inr_; lia).
    replace (pa + (q + o - q)) with (pa + o) by lia. rewrite memset_page_out; [by apply parent_page|].
    assert (Hq' : owned T fl q) by (by eapply us_owned).
    assert (Hqok : page_ok q) by (eapply owned_page_ok; [apply Hi | done]).
    apply (in_page_apart pa q); [apply Hok | apply Hqok | by intros -> | unfold in_page; lia].
  - intros m2 h2 T2 fl2 Hst2 Hp2. rewrite upd_upd, Hdiv. wp_step. simpl k_mem in *.
    apply (wp_uvmunmap new T2 fl2 L'); try done; try lia; [apply Hst2 | |].
    + intros i Hi'. destruct (fi_new _ _ _ _ _ _ _ _ _ _ _ _ _ _ Hua i Hi') as (_ & q & Hq & _). by exists q.
    + intros m3 h3 freed Hi3 Hfr Hk3 Hp3. rewrite upd_upd. simpl k_mem in *. wp_step.
      apply (HF m3 h3 T2 (freed ++ fl2)).
      * eapply (fills_undo new 0); [exact Hi | done | | exact Hua | exact Hst2 | done..]. lia.
      * intros v Hv. rewrite Hp3 by done. case_decide as Hd; [symmetry; apply Hfree; unfold PGSIZE in *; lia|].
        rewrite Hp2 by done. by rewrite (fi_old _ _ _ _ _ _ _ _ _ _ _ _ _ _ Hua).
      * intros v Hv Hge. rewrite Hp3, decide_False, Hp2 by (done || (unfold a, PGSIZE in *; lia)).
        apply (fi_old _ _ _ _ _ _ _ _ _ _ _ _ _ _ Hua); [done|unfold a, PGSIZE in *; lia].
Qed.

Lemma wp_uvmcopy (Q : Z -> kstate -> Prop) :
  (forall m' h' T' fl' L', copied (PGROUNDUP sz / PGSIZE) m' h' T' fl' L' -> Q 0 (upd s m' h')) ->
  (forall m' h' T' fl', us_step (k_mem s) (k_freelist s) m' h' new T T' fl fl' L L ->
     (forall v, 0 <= v < VATOP -> has (pte_of m' new v) PTE_V = has (pte_of (k_mem s) new v) PTE_V) ->
     (forall v, 0 <= v < VATOP -> PGROUNDUP sz <= v -> pte_of m' new v = pte_of (k_mem s) new v) ->
     Q (-1) (upd s m' h')) ->
  wp (uvmcopy old new sz) Q s.
Proof.
  intros HS HF. unfold uvmcopy. destruct (PGROUNDUP_le sz Hsz) as (An & Rn & Mn).
  set (n := PGROUNDUP sz / PGSIZE) in *.
  assert (Hn : 0 <= n /\ n * PGSIZE = PGROUNDUP sz) by (unfold n, PGSIZE in *; zmod).
  set (I := fun a s' => exists k m' h' T' fl' L', s' = upd s m' h' /\ a = k * PGSIZE /\
    0 <= k <= n /\ copied k m' h' T' fl' L').
  eapply (wp_loop _ I (fun a _ => n * PGSIZE - a)).
  2: { exists 0, (k_mem s), (k_freelist s), T, fl, L. rewrite upd_id. split_and!; try done; try lia.
       by apply fills_0. }
  2: { unfold MAXVA, PGSIZE in *. lia. }
  intros a s' (k & m' & h' & T' & fl' & L' & -> & -> & Hk & Hua).
  destruct (Z.eq_dec k n) as [->|Hne].
  { unfold copy_page. rewrite (proj2 (Z.ltb_ge _ _)) by lia. wp_step. by eapply HS. }
  apply (wp_copy_page k m' h' T' fl' L'); [lia | done | | exact HF].
  intros m1 h1 T1 fl1 L1 H1. split; [|unfold PGSIZE in *; lia].
  exists (k + 1), m1, h1, T1, fl1, L1. split_and!; try done; lia.
Qed.
End Uvmcopy.

(** ** walkaddr *)

(** Physical page behind a user address, 0 if the user may not touch it. *)
Definition uaddr (m : mem) (root va : Z) : Z :=
  if MAXVA <=? va then 0
  else let e := pte_of m root va in
       if has e PTE_V && has e PTE_U then PTE2PA e else 0.

Lemma walkaddr_eq T root va s :
  pt_wf (k_mem s) T root -> 0 <= va -> walkaddr root va s = Ret (uaddr (k_mem s) root va) s.
Proof.
  intros Hw Hva. unfold walkaddr, uaddr. destruct (Z.leb_spec MAXVA va); [done|].
  unfold bind at 1. rewrite walk_noalloc by lia. simpl obind.
  destruct (leaf_addr (k_mem s) root va) as [a|] eqn:Ha; simpl.
  - rewrite (proj2 (Z.eqb_neq a 0)) by (by eapply leaf_addr_nonzero).
    rewrite (pte_of_leaf _ _ _ _ Ha). unfold bind, ld, gets. simpl.
    destruct (has _ PTE_V); simpl; [|done]. by destruct (has _ PTE_U).
  - by rewrite (pte_of_no_leaf _ _ _ Ha).
Qed.

Lemma wp_walkaddr T root va Q s :
  pt_wf (k_mem s) T root -> 0 <= va -> Q (uaddr (k_mem s) root va) s -> wp (walkaddr root va) Q s.
Proof. intros. unfold wpc. by erewrite walkaddr_eq. Qed.

Lemma uaddr_page m root va : uaddr m root (PGROUNDDOWN va) = uaddr m root va.
Proof.
  unfold uaddr. rewrite pte_of_page, PGROUNDDOWN_eq.
  destruct (Z.leb_spec MAXVA va), (Z.leb_spec MAXVA (va - va mod PGSIZE)); try done;
    unfold MAXVA, PGSIZE in *; change (2 ^ 38) with 274877906944 in *; zmod.
Qed.

Lemma uaddr_max m root va : uaddr m root va <> 0 -> va < MAXVA.
Proof. unfold uaddr. destruct (Z.leb_spec MAXVA va); [done|lia]. Qed.

(** The byte a user program reads at [va]. *)
Definition ubyte (m : mem) (root va : Z) : option Z :=
  let pa := uaddr m root va in if pa =? 0 then None else Some (ldb m (pa + va mod PGSIZE)).

(** ** copyin *)

(** The bytes copyin has stored are those at [srcva] on. *)
Definition ubytes (m : mem) (root va : Z) (l : list Z) : Prop :=
  forall i b, l !! i = Some b -> ubyte m root (va + Z.of_nat i) = Some b.

Lemma ubytes_app m root va l1 l2 :
  ubytes m root va l1 -> ubytes m root (va + Z.of_nat (length l1)) l2 -> ubytes m root va (l1 ++ l2).
Proof.
  intros H1 H2 i b. rewrite lookup_app_Some. intros [H|[Hl H]]; [by apply H1|].
  apply H2 in H. rewrite <- H. f_equal. lia.
Qed.

(** Bytes read inside one page. *)
Lemma ubytes_page m root va n :
  0 <= va -> 0 <= n -> va mod PGSIZE + n <= PGSIZE -> uaddr m root va <> 0 ->
  ubytes m root va (bytes m (uaddr m root va + va mod PGSIZE) (Z.to_nat n)).
Proof.
  intros Hva Hn Hle Hnz i b Hb.
  assert (Hi : (i < Z.to_nat n)%nat) by (apply lookup_lt_Some in Hb; by rewrite bytes_length in Hb).
  rewrite bytes_lookup in Hb by done. injection Hb as <-. unfold ubyte.
  assert (E : uaddr m root (va + Z.of_nat i) = uaddr m root va).
  { rewrite <- (uaddr_page _ _ va), <- (uaddr_page _ _ (va + _)). f_equal.
    rewrite !PGROUNDDOWN_eq. unfold PGSIZE in *. zmod. }
  rewrite E, (proj2 (Z.eqb_neq _ 0)) by done. do 2 f_equal. unfold PGSIZE in *. zmod.
Qed.

Section Copyin.
Variables (root srcva len : Z) (T : gmap Z Z) (s : kstate).
Hypotheses (Hw : pt_wf (k_mem s) T root) (Hva : 0 <= srcva < 2 ^ 64) (Hlen : 0 <= len < 2 ^ 64).

(** copyin reads exactly the user's bytes and changes nothing; it fails only at
    a page the user may not read. *)
Lemma wp_copyin (Q : Z * list Z -> kstate -> Prop) :
  (forall dst, Z.of_nat (length dst) = len -> ubytes (k_mem s) root srcva dst -> Q (0, dst) s) ->
  (forall dst, Z.of_nat (length dst) < len -> ubytes (k_mem s) root srcva dst ->
     ubyte (k_mem s) root (srcva + Z.of_nat (length dst)) = None -> Q (-1, dst) s) ->
  wp (copyin root srcva len) Q s.
Proof.
  intros HS HF. unfold copyin.
  set (I := fun (x : Z * Z * list Z) s' => s' = s /\ let '(va, n, dst) := x in
    0 <= va /\ 0 <= n /\ Z.of_nat (length dst) + n = len /\ (n <> 0 -> va = srcva + Z.of_nat (length dst)) /\
    ubytes (k_mem s) root srcva dst).
  eapply (wp_loop _ I (fun x _ => snd (fst x))).
  2: { split; [done|]. split_and!; try done; try (simpl; lia). }
  2: { simpl. lia. }
  intros [[va n] dst] s' (-> & Hva' & Hn & Hl & Hv & Hd). unfold copyin_page.
  destruct (Z.eqb_spec n 0) as [->|Hn0]; [wp_step; apply HS; [lia|done]|].
  rewrite Hv in * by done. clear Hv va. set (va := srcva + Z.of_nat (length dst)) in *.
  wp_step. apply (wp_walkaddr T); [done | rewrite PGROUNDDOWN_eq; unfold PGSIZE; zmod |].
  rewrite uaddr_page. destruct (Z.eqb_spec (uaddr (k_mem s) root va) 0) as [E|E].
  { wp_step. apply HF; [lia | done |]. fold va. unfold ubyte. by rewrite E. }
  wp_step. wp_step. wp_step.
  assert (Hoff : va - PGROUNDDOWN va = va mod PGSIZE) by (rewrite PGROUNDDOWN_eq; lia).
  assert (Hdn : 0 <= PGROUNDDOWN va <= va) by (rewrite PGROUNDDOWN_eq; unfold PGSIZE; zmod).
  pose proof (uaddr_max _ _ _ E) as Hmax. set (k := Z.min (PGSIZE - (va - PGROUNDDOWN va)) n).
  assert (Hk : 0 < k <= n /\ va mod PGSIZE + k <= PGSIZE)
    by (unfold k; rewrite Hoff; unfold PGSIZE; zmod).
  split; [split; [done|] | simpl; lia].
  rewrite u64_small by (unfold MAXVA, PGSIZE in *; lia).
  rewrite length_app, bytes_length. split_and!.
  - unfold PGSIZE. lia.
  - lia.
  - lia.
  - intros Hne. assert (k = PGSIZE - (va - PGROUNDDOWN va)) by lia.
    assert (va = srcva + Z.of_nat (length dst)) by done. lia.
  - apply ubytes_app; [done|]. fold va. rewrite Hoff. apply ubytes_page; try done; lia.
Qed.
End Copyin.

(** ** copyout *)

(** Every page the user may touch is one of [L]. *)
Definition complete (m : mem) (root : Z) (L : gmap Z Z) : Prop :=
  forall va, 0 <= va -> uaddr m root va <> 0 -> is_Some (L !! PGROUNDDOWN va).

Lemma user_page m h root T fl L va :
  user_inv m h root T fl L -> complete m root L -> 0 <= va -> uaddr m root va <> 0 ->
  L !! PGROUNDDOWN va = Some (uaddr m root va).
Proof.
  intros Hi HU Hva Hnz. destruct (HU va Hva Hnz) as [pa Hl]. rewrite Hl. f_equal.
  pose proof (ui_pte _ _ _ _ _ _ Hi _ _ Hl) as Hp. pose proof (ui_ok _ _ _ _ _ _ Hi _ _ Hl) as Hok.
  rewrite pte_of_page in Hp. revert Hnz. unfold uaddr.
  destruct (MAXVA <=? va); [done|]. destruct (has _ PTE_V && has _ PTE_U); [|done].
  intros _. symmetry. by apply leaf_pte_pa.
Qed.

Section WriteUser.
Variables (m : mem) (h root : Z) (T : gmap Z Z) (fl : list Z) (L : gmap Z Z) (va : Z) (l : list Z).
Hypotheses (Hi : user_inv m h root T fl L) (HU : complete m root L) (Hva : 0 <= va)
  (Hnz : uaddr m root va <> 0) (Hle : va mod PGSIZE + Z.of_nat (length l) <= PGSIZE)
  (Hb : Forall (fun b => 0 <= b < 256) l).
Let pa := uaddr m root va.
Let m' := write_bytes m (pa + va mod PGSIZE) l.

Lemma wu_out a : ~ in_page pa a -> ldb m' a = ldb m a.
Proof.
  intros Ha. unfold m'. rewrite ldb_write_bytes. unfold in_page, inr_ in *.
  assert (0 <= va mod PGSIZE) by (unfold PGSIZE; zmod).
  destruct (Z.leb_spec (pa + va mod PGSIZE) a), (Z.ltb_spec a (pa + va mod PGSIZE + Z.of_nat (length l)));
    simpl; try done; lia.
Qed.

Lemma wu_inv : user_inv m' h root T fl L /\ forall v, pte_of m' root v = pte_of m root v.
Proof.
  pose proof (user_page _ _ _ _ _ _ _ Hi HU Hva Hnz) as Hl.
  assert (Hok : page_ok pa) by (by eapply ui_ok). assert (Hno : ~ owned T fl pa) by (by eapply ui_own).
  split; [eapply user_inv_outside; [exact Hi | exact Hok | done | apply wu_out]|].
  eapply vm_inv_data; [apply Hi | exact Hok | done | apply wu_out].
Qed.

Lemma wu_uaddr v : uaddr m' root v = uaddr m root v.
Proof. unfold uaddr. by rewrite (proj2 wu_inv). Qed.

Lemma wu_byte v :
  0 <= v ->
  ubyte m' root v = if decide (va <= v < va + Z.of_nat (length l)) then l !! Z.to_nat (v - va) else ubyte m root v.
Proof.
  intros Hv. unfold ubyte. rewrite wu_uaddr. case_decide as Hd.
  - assert (E : uaddr m root v = pa).
    { unfold pa. rewrite <- (uaddr_page _ _ va), <- (uaddr_page _ _ v). f_equal.
      rewrite !PGROUNDDOWN_eq. unfold PGSIZE in *. zmod. }
    rewrite E. rewrite (proj2 (Z.eqb_neq pa 0)) by done.
    unfold m'. rewrite ldb_write_bytes.
    assert (Em : v mod PGSIZE = va mod PGSIZE + (v - va)) by (unfold PGSIZE in *; zmod).
    rewrite Em. replace (inr_ _ _ _) with true by (symmetry; unfold inr_; lia).
    replace (pa + (va mod PGSIZE + (v - va)) - (pa + va mod PGSIZE)) with (v - va) by lia.
    destruct (lookup_lt_is_Some_2 l (Z.to_nat (v - va))) as [b Hlb]; [lia|]. rewrite Hlb. simpl.
    f_equal. apply wrap_small. change (2 ^ 8) with 256. by apply (proj1 (Forall_lookup _ _) Hb _ _ Hlb).
  - destruct (Z.eqb_spec (uaddr m root v) 0) as [|Hvn]; [done|]. f_equal.
    pose proof (user_page _ _ _ _ _ _ _ Hi HU Hva Hnz) as Hl.
    pose proof (user_page _ _ _ _ _ _ _ Hi HU Hv Hvn) as Hlv.
    destruct (Z.eq_dec (uaddr m root v) pa) as [E|Hne].
    + assert (Ep : PGROUNDDOWN v = PGROUNDDOWN va).
      { eapply ui_inj; [exact Hi | exact Hlv | by rewrite E]. }
      rewrite E. unfold m'. rewrite ldb_write_bytes.
      replace (inr_ _ _ _) with false; [done|]. symmetry. rewrite !PGROUNDDOWN_eq in Ep.
      unfold inr_. apply andb_false_iff. rewrite Z.leb_gt, Z.ltb_ge.
      unfold PGSIZE in *. clear - Ep Hd Hle. zmod.
    + apply wu_out.
      destruct (ui_ok _ _ _ _ _ _ Hi _ _ Hl) as [Ha1 _], (ui_ok _ _ _ _ _ _ Hi _ _ Hlv) as [Ha2 _].
      apply (in_page_apart (uaddr m root v) pa); try done. unfold in_page, PGSIZE. zmod.
Qed.
End WriteUser.

(** [n] bytes of [src] have been stored at [dstva] on. *)
Record wrote (m : mem) h root T fl L (dstva : Z) (src : list Z) (n : nat) (m' : mem) : Prop := {
  wr_inv : user_inv m' h root T fl L;
  wr_pte va : pte_of m' root va = pte_of m root va;
  wr_byte va : 0 <= va -> ubyte m' root va =
    if decide (dstva <= va < dstva + Z.of_nat n) then src !! Z.to_nat (va - dstva) else ubyte m root va;
  wr_frame a : (forall va pa, L !! va = Some pa -> ~ in_page pa a) -> ldb m' a = ldb m a
}.

Section Copyout.
Variables (root dstva : Z) (src : list Z) (T : gmap Z Z) (fl : list Z) (L : gmap Z Z) (s : kstate).
Hypotheses (Hi : user_inv (k_mem s) (k_freelist s) root T fl L) (HU : complete (k_mem s) root L)
  (Hva : 0 <= dstva < 2 ^ 64) (Hlen : Z.of_nat (length src) < 2 ^ 64)
  (Hb : Forall (fun b => 0 <= b < 256) src).
Let done_ := wrote (k_mem s) (k_freelist s) root T fl L dstva src.

Lemma wrote_next n m' k :
  done_ n m' -> uaddr (k_mem s) root (dstva + Z.of_nat n) <> 0 ->
  (dstva + Z.of_nat n) mod PGSIZE + Z.of_nat k <= PGSIZE -> (n + k <= length src)%nat ->
  done_ (n + k) (write_bytes m' (uaddr (k_mem s) root (dstva + Z.of_nat n) + (dstva + Z.of_nat n) mod PGSIZE)
                  (take k (drop n src))).
Proof.
  intros [Wi Wp Wb Wf] Hnz Hk Hle. set (va := dstva + Z.of_nat n) in *.
  assert (Eu : forall v, uaddr m' root v = uaddr (k_mem s) root v) by (intros v; unfold uaddr; by rewrite Wp).
  assert (HU' : complete m' root L) by (intros v Hv; rewrite Eu; by apply HU).
  assert (Hl : length (take k (drop n src)) = k) by (rewrite length_take, length_drop; lia).
  assert (Hb' : Forall (fun b => 0 <= b < 256) (take k (drop n src))) by (by apply Forall_take, Forall_drop).
  rewrite <- Eu in Hnz |- *. assert (Hv0 : 0 <= va) by (unfold va; lia).
  rewrite <- Hl in Hk.
  destruct (wu_inv m' _ root T fl L va _ Wi HU' Hv0 Hnz Hk) as [Xi Xp].
  split; [done | intros v; by rewrite Xp | |].
  - intros v Hv. rewrite (wu_byte m' _ root T fl L va _ Wi HU' Hv0 Hnz Hk Hb' v Hv), Hl, Wb by done.
    unfold va. repeat case_decide; try done; try lia.
    rewrite lookup_take_lt, lookup_drop by lia. f_equal. lia.
  - intros a Ha. rewrite (wu_out m' root va _ Hk); [by apply Wf|]. eapply Ha. by eapply user_page.
Qed.

Lemma wp_copyout (Q : Z -> kstate -> Prop) :
  (forall m', done_ (length src) m' -> Q 0 (upd s m' (k_freelist s))) ->
  (forall m' n, (n < length src)%nat -> ubyte (k_mem s) root (dstva + Z.of_nat n) = None ->
     done_ n m' -> Q (-1) (upd s m' (k_freelist s))) ->
  wp (copyout root dstva src) Q s.
Proof.
  intros HS HF. unfold copyout.
  set (I := fun (x : Z * list Z) s' => exists n m', s' = upd s m' (k_freelist s) /\
    (n <= length src)%nat /\ x.2 = drop n src /\ ((n < length src)%nat -> x.1 = dstva + Z.of_nat n) /\ done_ n m').
  eapply (wp_loop _ I (fun x _ => Z.of_nat (length x.2))).
  2: { exists 0%nat, (k_mem s). rewrite upd_id. split_and!; try done; [lia | simpl; lia |].
       split; try done. intros va Hv. rewrite decide_False; [done | lia]. }
  2: { done. }
  intros [va rest] s' (n & m' & -> & Hn & Hr & Hv & Hd). simpl in Hr, Hv. unfold copyout_page.
  assert (Hl : length rest = (length src - n)%nat) by (by rewrite Hr, length_drop).
  destruct (Nat.eqb_spec (length rest) 0) as [E|Hne].
  { wp_step. apply HS. by replace (length src) with n by lia. }
  rewrite Hv in * by lia. clear Hv va. set (va := dstva + Z.of_nat n) in *. cbv zeta.
  assert (Eu : uaddr m' root va = uaddr (k_mem s) root va) by (unfold uaddr; by rewrite (wr_pte _ _ _ _ _ _ _ _ _ _ Hd)).
  wp_step. apply (wp_walkaddr T);
    [apply (wr_inv _ _ _ _ _ _ _ _ _ _ Hd) | rewrite PGROUNDDOWN_eq; unfold va, PGSIZE; zmod |].
  simpl k_mem. rewrite uaddr_page, Eu.
  destruct (Z.eqb_spec (uaddr (k_mem s) root va) 0) as [E|E].
  { wp_step. apply (HF m' n); [lia | | done]. fold va. unfold ubyte. by rewrite E. }
  wp_step. wp_step. wp_step. rewrite set_mem_upd.
  assert (Hoff : va - PGROUNDDOWN va = va mod PGSIZE) by (rewrite PGROUNDDOWN_eq; lia).
  assert (Hdn : 0 <= PGROUNDDOWN va <= va) by (rewrite PGROUNDDOWN_eq; unfold va, PGSIZE; zmod).
  assert (Hmod : 0 <= va mod PGSIZE < PGSIZE) by (unfold PGSIZE; zmod).
  pose proof (uaddr_max _ _ _ E) as Hmax. rewrite Hoff.
  set (k := Z.to_nat (Z.min (PGSIZE - va mod PGSIZE) (Z.of_nat (length rest)))).
  split; [|cbn [snd]; rewrite length_drop; lia].
  exists (n + k)%nat. eexists. split; [reflexivity|]. split_and!.
  - lia.
  - cbn [snd]. by rewrite Hr, drop_drop.
  - intros Hlt. cbn [fst]. rewrite u64_small by (unfold MAXVA, PGSIZE in *; lia).
    assert (va = dstva + Z.of_nat n) by done. lia.
  - rewrite Hr. apply wrote_next; [done | done | fold va; lia | lia].
Qed.
End Copyout.

(** ** copyinstr *)
Lemma copyinstr_page_spec m p n l nul :
  copyinstr_page m p n = (l, nul) ->
  if nul then exists l', l = l' ++ [0] /\ Forall (fun c => c <> 0) l' /\ (length l <= n)%nat /\ l = bytes m p (length l)
  else l = bytes m p n /\ Forall (fun c => c <> 0) l.
Proof.
  Transparent bytes. revert p l nul. induction n as [|n IH]; intros p l nul; simpl.
  { intros [= <- <-]. done. }
  destruct (Z.eqb_spec (ldb m p) 0) as [E|E].
  - intros [= <- <-]. exists []. split_and!; try done; [simpl; lia|]. simpl. by rewrite E.
  - destruct (copyinstr_page m (p + 1) n) as [l1 nul1] eqn:E1. intros [= <- <-].
    apply IH in E1. destruct nul1.
    + destruct E1 as (l' & -> & Hf & Hle & Hb). exists (ldb m p :: l').
      split_and!; [done | by constructor | simpl in *; lia | simpl; by rewrite <- Hb].
    + destruct E1 as [-> Hf]. split; [done | by constructor].
  Opaque bytes.
Qed.

Section Copyinstr.
Variables (root srcva max : Z) (T : gmap Z Z) (s : kstate).
Hypotheses (Hw : pt_wf (k_mem s) T root) (Hva : 0 <= srcva < 2 ^ 64) (Hmax : 0 <= max < 2 ^ 64).

Lemma wp_copyinstr (Q : Z * list Z -> kstate -> Prop) :
  (forall str, Forall (fun c => c <> 0) str -> Z.of_nat (length str) < max ->
     ubytes (k_mem s) root srcva (str ++ [0]) -> Q (0, str ++ [0]) s) ->
  (forall dst, Forall (fun c => c <> 0) dst -> ubytes (k_mem s) root srcva dst ->
     Z.of_nat (length dst) = max \/
     (Z.of_nat (length dst) < max /\ ubyte (k_mem s) root (srcva + Z.of_nat (length dst)) = None) ->
     Q (-1, dst) s) ->
  wp (copyinstr root srcva max) Q s.
Proof.
  intros HS HF. unfold copyinstr.
  set (I := fun (x : Z * Z * list Z) s' => s' = s /\ let '(va, n, dst) := x in
    0 <= va /\ 0 <= n /\ Z.of_nat (length dst) + n = max /\ (n <> 0 -> va = srcva + Z.of_nat (length dst)) /\
    ubytes (k_mem s) root srcva dst /\ Forall (fun c => c <> 0) dst).
  eapply (wp_loop _ I (fun x _ => snd (fst x))).
  2: { split; [done|]. split_and!; try done; try (simpl; lia). }
  2: { simpl. lia. }
  intros [[va n] dst] s' (-> & Hva' & Hn & Hl & Hv & Hd & Hz). unfold copyinstr_round.
  destruct (Z.eqb_spec n 0) as [->|Hn0]; [wp_step; apply HF; [done | done | left; lia]|].
  rewrite Hv in * by done. clear Hv va. set (va := srcva + Z.of_nat (length dst)) in *.
  wp_step. apply (wp_walkaddr T); [done | rewrite PGROUNDDOWN_eq; unfold PGSIZE; zmod |].
  rewrite uaddr_page. destruct (Z.eqb_spec (uaddr (k_mem s) root va) 0) as [E|E].
  { wp_step. apply HF; [done | done | right]. fold va. split; [lia|]. unfold ubyte. by rewrite E. }
  assert (Hoff : va - PGROUNDDOWN va = va mod PGSIZE) by (rewrite PGROUNDDOWN_eq; lia).
  assert (Hdn : 0 <= PGROUNDDOWN va <= va) by (rewrite PGROUNDDOWN_eq; unfold PGSIZE; zmod).
  pose proof (uaddr_max _ _ _ E) as Hmx. set (k := Z.min (PGSIZE - (va - PGROUNDDOWN va)) n).
  assert (Hk : 0 < k <= n /\ va mod PGSIZE + k <= PGSIZE)
    by (unfold k; rewrite Hoff; unfold PGSIZE; zmod).
  wp_step. wp_step. destruct (copyinstr_page _ _ _) as [bs nul] eqn:Ec.
  apply copyinstr_page_spec in Ec. rewrite Hoff in Ec.
  assert (Hub : forall j, 0 <= j <= k ->
    ubytes (k_mem s) root va (bytes (k_mem s) (uaddr (k_mem s) root va + va mod PGSIZE) (Z.to_nat j)))
    by (intros j Hj; apply ubytes_page; try done; lia).
  assert (Eva : va = srcva + Z.of_nat (length dst)) by done.
  destruct nul; wp_step.
  - destruct Ec as (l' & -> & Hf & Hle & Hb). rewrite app_assoc. apply HS.
    + by apply Forall_app.
    + rewrite length_app in *. simpl in Hle. lia.
    + rewrite <- app_assoc. apply ubytes_app; [done|]. fold va. rewrite Hb.
      specialize (Hub (Z.of_nat (length (l' ++ [0])))). rewrite Nat2Z.id in Hub. apply Hub. lia.
  - destruct Ec as [-> Hf]. split; [split; [done|] | simpl; lia].
    rewrite u64_small by (unfold MAXVA, PGSIZE in *; lia).
    rewrite length_app, bytes_length. split_and!.
    + unfold PGSIZE. lia.
    + lia.
    + lia.
    + intros Hne. assert (k = PGSIZE - (va - PGROUNDDOWN va)) by lia. lia.
    + apply ubytes_app; [done|]. fold va. apply Hub. lia.
    + by apply Forall_app.
Qed.
End Copyinstr.

End Copy.
