(* ===== verification/FreeWalk.v ===== *)
(** * freewalk and uvmcreate of vm.c: giving back and making a page table *)
From S2P Require Import Prelude Memory State Kalloc Vm PageTable VmSpec UserMem.

Section FreeWalk.
Context `{KI : KernelImage} `{KOK : !KernelImageOk}.
Implicit Types (m : mem) (p q : Z) (fl : list Z).

Definition slots : list Z := map Z.of_nat (seq 0 512).

Lemma elem_of_slots i : i ∈ slots <-> 0 <= i < 512.
Proof.
  unfold slots. rewrite list_elem_of_fmap. split.
  - intros (k & -> & Hk). apply elem_of_seq in Hk. lia.
  - intros Hi. exists (Z.to_nat i). split; [lia|]. apply elem_of_seq. lia.
Qed.

Lemma elem_of_rev (x : Z) (l : list Z) : x ∈ rev l <-> x ∈ l.
Proof. by rewrite !list_elem_of_In, <- in_rev. Qed.

(** The table pages below [p], in the order freewalk frees them. *)
Fixpoint pages_of (n : nat) m p : list Z :=
  match n with
  | O => []
  | S n' =>
      concat (map (fun i => match next_pt m p i with Some q => pages_of n' m q | None => [] end) slots) ++ [p]
  end.
Definition kids (n : nat) m p (i : Z) : list Z :=
  match next_pt m p i with Some q => pages_of n m q | None => [] end.

(** A tree of at most [n] levels whose valid entries all point to tables. *)
Fixpoint no_leaf (n : nat) m p : Prop :=
  match n with
  | O => False
  | S n' => forall i, 0 <= i < 512 ->
      match next_pt m p i with
      | None => True
      | Some q => has (pte_at m p i) (Z.lor (Z.lor PTE_R PTE_W) PTE_X) = false /\ no_leaf n' m q
      end
  end.

Definition agree m m' (l : list Z) : Prop :=
  forall q a, q ∈ l -> in_page q a -> ldb m' a = ldb m a.

Lemma pages_of_S n m p : pages_of (S n) m p = concat (map (kids n m p) slots) ++ [p].
Proof. reflexivity. Qed.

Lemma elem_of_kids n m p i q l :
  i ∈ l -> q ∈ kids n m p i -> q ∈ concat (map (kids n m p) l).
Proof.
  intros Hi Hq. apply list_elem_of_In, in_concat. exists (kids n m p i).
  split; [by apply in_map, list_elem_of_In | by apply list_elem_of_In].
Qed.

(** What freewalk visits only depends on the pages it visits. *)
Lemma pages_of_ext n m m' p :
  agree m m' (pages_of n m p) ->
  pages_of n m' p = pages_of n m p /\ (no_leaf n m p -> no_leaf n m' p).
Proof.
  revert p. induction n as [|n IH]; intros p Ha; [done|]. rewrite !pages_of_S in *.
  assert (Hp : forall i, 0 <= i < 512 -> pte_at m' p i = pte_at m p i).
  { intros i Hi. apply pte_at_ext; [done|]. intros a Hin. apply (Ha p); [|done].
    apply elem_of_app. right. left. }
  assert (Hk : forall i q, 0 <= i < 512 -> next_pt m p i = Some q -> agree m m' (pages_of n m q)).
  { intros i q Hi Hq r a Hr. apply Ha. apply elem_of_app. left.
    apply (elem_of_kids n m p i); [by apply elem_of_slots|]. unfold kids. by rewrite Hq. }
  split.
  - f_equal. f_equal. apply map_ext_in. intros i Hi. apply list_elem_of_In, elem_of_slots in Hi.
    unfold kids. rewrite (next_pt_same _ _ _ _ (Hp i Hi)).
    destruct (next_pt m p i) as [q|] eqn:E; [|done]. by apply IH, (Hk i).
  - intros Hn i Hi. specialize (Hn i Hi). rewrite (next_pt_same _ _ _ _ (Hp i Hi)), (Hp i Hi).
    destruct (next_pt m p i) as [q|] eqn:E; [|done]. destruct Hn as [H1 H2]. split; [done|].
    apply (IH q); [by apply (Hk i) | done].
Qed.

(** The pages [l] went to the free list and nothing outside them changed. *)
Definition freed m m' h' (l fl : list Z) : Prop :=
  fl_inv m' h' (rev l ++ fl) /\ forall a, (forall q, q ∈ l -> ~ in_page q a) -> ldb m' a = ldb m a.

Lemma page_agree m m' (l r : list Z) :
  Forall page_ok l -> Forall page_ok r -> (forall q, q ∈ l -> q ∈ r -> False) ->
  (forall a, (forall q, q ∈ l -> ~ in_page q a) -> ldb m' a = ldb m a) -> agree m m' r.
Proof.
  intros Hl Hr Hd He q a Hq Ha. apply He. intros q' Hq' Ha'.
  destruct (proj1 (Forall_forall _ _) Hl q' Hq') as [A1 _], (proj1 (Forall_forall _ _) Hr q Hq) as [A2 _].
  apply (in_page_apart q q' a); try done. intros ->. by eapply Hd.
Qed.

(** State of the loop over the slots of [p] when [l] has been visited. *)
Record walked (n : nat) m p fl (l r : list Z) m' h' : Prop := {
  wk_free : fl_inv m' h' (rev (concat (map (kids n m p) l)) ++ fl);
  wk_out a : (forall q, q ∈ p :: concat (map (kids n m p) l) -> ~ in_page q a) -> ldb m' a = ldb m a;
  wk_rest i : i ∈ r -> pte_at m' p i = pte_at m p i
}.

(** What freewalk on a tree of [n] levels does. *)
Definition frees (n : nat) (fw : Z -> KM unit) : Prop :=
  forall p s fl (Q : unit -> kstate -> Prop),
  let m := k_mem s in
  no_leaf n m p -> NoDup (pages_of n m p) -> Forall page_ok (pages_of n m p) ->
  fl_inv m (k_freelist s) fl -> (forall q, q ∈ pages_of n m p -> q ∈ fl -> False) -> L_kmem ∉ k_held s ->
  (forall m' h', freed m m' h' (pages_of n m p) fl -> Q tt (upd s m' h')) ->
  wp (fw p) Q s.

Section Slot.
Variables (n : nat) (fw : Z -> KM unit) (p : Z) (s : kstate) (fl : list Z).
Let m := k_mem s.
Hypotheses (IH : frees n fw) (Hn : no_leaf (S n) m p) (Hnd : NoDup (pages_of (S n) m p))
  (Hok : Forall page_ok (pages_of (S n) m p)) (Hh : L_kmem ∉ k_held s)
  (Hfl : forall q, q ∈ pages_of (S n) m p -> q ∈ fl -> False).

Lemma concat_kids l i r : concat (map (kids n m p) (l ++ i :: r)) =
  concat (map (kids n m p) l) ++ kids n m p i ++ concat (map (kids n m p) r).
Proof. by rewrite map_app, concat_app. Qed.

Lemma wp_free_slot l i r m' h' (Q : unit -> kstate -> Prop) :
  slots = l ++ i :: r -> walked n m p fl l (i :: r) m' h' ->
  (forall m1 h1, walked n m p fl (l ++ [i]) r m1 h1 -> Q tt (upd s m1 h1)) ->
  wp (free_slot fw p i) Q (upd s m' h').
Proof.
  intros Hs [Wf Wo Wr] HQ. rewrite pages_of_S, Hs, concat_kids in Hnd, Hok, Hfl.
  assert (Hi : 0 <= i < 512) by (apply elem_of_slots; rewrite Hs; set_solver).
  assert (Hir : i ∉ r).
  { assert (Hd : NoDup slots) by (apply (NoDup_fmap_2 Z.of_nat), NoDup_seq).
    rewrite Hs in Hd. apply NoDup_app in Hd as (_ & _ & Hd). by apply NoDup_cons in Hd as [? _]. }
  unfold free_slot, ld. wp_step. wp_step. simpl k_mem. rewrite ld64_pte_at, Wr by left.
  specialize (Hn i Hi). destruct (has (pte_at m p i) PTE_V) eqn:EV; simpl andb; cbv iota.
  2: { wp_step. apply HQ. apply next_pt_invalid in EV.
       assert (E : concat (map (kids n m p) (l ++ [i])) = concat (map (kids n m p) l)).
       { rewrite concat_kids. unfold kids at 2. rewrite EV. simpl. by rewrite app_nil_r. }
       split; rewrite ?E; [done | done |]. intros j Hj. apply Wr. by right. }
  apply next_pt_valid in EV. rewrite EV in Hn. destruct Hn as [Hrwx Hsub]. rewrite Hrwx. simpl negb. cbv iota.
  set (q := PTE2PA (pte_at m p i)) in *.
  assert (Ek : kids n m p i = pages_of n m q) by (unfold kids; by rewrite EV).
  rewrite Ek in *. set (A := concat (map (kids n m p) l)) in *. set (B := pages_of n m q) in *.
  set (C := concat (map (kids n m p) r)) in *.
  assert (HAB : forall x, x ∈ p :: A -> x ∈ B -> False).
  { intros x Hx HB. rewrite <- app_assoc in Hnd. apply NoDup_app in Hnd as (_ & HA & Hnd).
    apply elem_of_cons in Hx as [->|Hx]; [|by apply (HA x Hx); set_solver].
    rewrite <- app_assoc in Hnd. apply NoDup_app in Hnd as (_ & HBp & _). apply (HBp p HB). set_solver. }
  assert (HokP : Forall page_ok (p :: A)) by (rewrite !Forall_app in Hok; destruct Hok as ((? & _) & ?); constructor; [by apply Forall_singleton | done]).
  assert (HokB : Forall page_ok B) by (rewrite !Forall_app in Hok; tauto).
  assert (Hag : agree m m' B) by exact (page_agree m m' (p :: A) B HokP HokB HAB Wo).
  destruct (pages_of_ext n m m' q Hag) as [Ep Hnl]. fold B in Ep.
  wp_step. apply (IH q (upd s m' h') (rev A ++ fl)); simpl k_mem; rewrite ?Ep; try done.
  - by apply Hnl.
  - rewrite <- app_assoc in Hnd. apply NoDup_app in Hnd as (_ & _ & Hnd).
    rewrite <- app_assoc in Hnd. by apply NoDup_app in Hnd as (? & _).
  - intros x Hx. rewrite elem_of_app, elem_of_rev. intros [HA|HF].
    + apply (HAB x); [by right | done].
    + apply (Hfl x); [|done]. rewrite !elem_of_app. tauto.
  - intros m1 h1 [Ff Fo]. rewrite upd_upd. simpl k_mem in *. unfold st. wp_step. rewrite set_mem_upd.
    assert (Hpok : page_ok p) by (by apply Forall_cons in HokP as [? _]).
    assert (E1 : rev (concat (map (kids n m p) (l ++ [i]))) ++ fl = rev B ++ rev A ++ fl).
    { rewrite concat_kids. simpl. rewrite !app_nil_r, Ek. fold A B. by rewrite rev_app_distr, app_assoc. }
    assert (Hpn : p ∉ rev B ++ rev A ++ fl).
    { rewrite !elem_of_app, !elem_of_rev. intros [HB|[HA|HF]].
      - by apply (HAB p); [left|].
      - apply NoDup_app in Hnd as (_ & HH & _). apply (HH p); [apply elem_of_app; by left | left].
      - apply (Hfl p); [|done]. rewrite !elem_of_app. right. left. }
    assert (Eo : forall a, ~ in_page p a -> ldb (st64 m1 (p + 8 * i) 0) a = ldb m1 a).
    { intros a Ha. apply ldb_st64. unfold in_page, PGSIZE in Ha. lia. }
    apply HQ. split.
    + rewrite E1. apply (fl_inv_outside m1 _ _ p); done.
    + intros a Ha. rewrite Eo by (apply Ha; left). rewrite Fo, Wo; [done | |].
      * intros x Hx. apply Ha. rewrite concat_kids. simpl. rewrite elem_of_cons, elem_of_app in *. tauto.
      * intros x Hx. apply Ha. rewrite concat_kids, Ek. simpl. rewrite elem_of_cons, !elem_of_app. tauto.
    + intros j Hj. assert (0 <= j < 512) by (apply elem_of_slots; rewrite Hs; set_solver).
      rewrite pte_at_st64 by done. rewrite decide_False by (intros [_ ->]; done).
      rewrite <- Wr by (by right). apply pte_at_ext; [done|].
      intros a Ha. apply Fo. intros x Hx Hxa.
      destruct (proj1 (Forall_forall _ _) HokB x Hx) as [A1 _], Hpok as [A2 _].
      apply (in_page_apart p x a); try done. intros ->. by apply (HAB x); [left|].
Qed.

Lemma frees_S_slots (Q : unit -> kstate -> Prop) :
  fl_inv m (k_freelist s) fl ->
  (forall m' h', walked n m p fl slots [] m' h' -> Q tt (upd s m' h')) ->
  wp (for_each slots (free_slot fw p)) Q s.
Proof.
  intros Hf HQ.
  apply (wp_for_each _ (fun r s' => exists l m' h', s' = upd s m' h' /\ slots = l ++ r /\ walked n m p fl l r m' h')).
  - exists [], m, (k_freelist s). rewrite upd_id. split_and!; try done.
  - intros i r s' (l & m' & h' & -> & Hs & Hw). apply (wp_free_slot l i r m' h'); [done..|].
    intros m1 h1 H1. exists (l ++ [i]), m1, h1. split_and!; try done. by rewrite <- app_assoc.
  - intros s' (l & m' & h' & -> & Hs & Hw). apply HQ. rewrite app_nil_r in Hs. by rewrite Hs.
Qed.
End Slot.

Lemma freewalk_frees n N : (n <= N)%nat -> frees n (freewalk_depth N).
Proof.
  revert N. induction n as [|n IH]; intros N HN p s fl Q m Hn Hnd Hok Hf Hfl Hh HQ; [done|].
  destruct N as [|N]; [lia|]. cbn [freewalk_depth]. fold slots. wp_step.
  eapply (frees_S_slots n _ p s fl); try done; [apply IH; lia|].
  intros m' h' [Wf Wo _]. rewrite pages_of_S in Hnd, Hok, Hfl.
  apply NoDup_app in Hnd as (_ & Hpn & _). apply Forall_app in Hok as [_ Hp]. apply Forall_cons in Hp as [Hp _].
  assert (Hni : p ∉ rev (concat (map (kids n m p) slots)) ++ fl).
  { rewrite elem_of_app, elem_of_rev. intros [H|H]; [by apply (Hpn p H); left|].
    apply (Hfl p); [|done]. apply elem_of_app. right. left. }
  apply (wp_kfree (rev (concat (map (kids n m p) slots)) ++ fl)); [exact Wf | exact Hp | exact Hni | exact Hh |].
  intros m1 Hf1. rewrite upd_upd. apply HQ. split.
  - rewrite pages_of_S, rev_app_distr. exact Hf1.
  - intros a Ha. rewrite pages_of_S in Ha. unfold m1. simpl k_mem.
    assert (~ in_page p a) by (apply Ha, elem_of_app; right; left).
    rewrite ldb_st64 by (unfold in_page, PGSIZE in *; lia). rewrite memset_page_out by done.
    apply Wo. intros q [->|Hq]%elem_of_cons; [done|]. apply Ha, elem_of_app. by left.
Qed.

End FreeWalk.
