(* ===== verification/VmTheorems.v ===== *)
(** * Correctness of vm.c

    The properties of the page-table and user-memory operations, with concrete
    address spaces that satisfy their hypotheses. *)
From S2P Require Import Prelude Memory State Kalloc Vm PageTable VmSpec UserMem UserCopy FreeWalk.

Section Theorems.
Context `{KI : KernelImage} `{KOK : !KernelImageOk}.

(** An address space in which nothing is mapped. *)
Lemma empty_root m h root fl :
  fl_inv m h fl -> page_ok root -> root ∉ fl ->
  (forall i, 0 <= i < 512 -> pte_at m root i = 0) ->
  user_inv m h root {[root := 2]} fl ∅.
Proof.
  intros Hf Hr Hni Hz.
  assert (Hx : forall p l, ({[root := 2]} : gmap Z Z) !! p = Some l -> p = root /\ l = 2)
    by (intros p l; rewrite lookup_singleton_Some; naive_solver).
  assert (Hnx : forall i, 0 <= i < 512 -> next_pt m root i = None)
    by (intros i Hi; apply next_pt_invalid; by rewrite Hz).
  split; try (intros va; intros; by rewrite lookup_empty in *).
  split; [done| |].
  - split.
    + intros p. rewrite lookup_singleton_Some. naive_solver.
    + intros p l [-> ->]%Hx. split; [done | lia].
    + intros p l i q [-> ->]%Hx _ Hi. by rewrite Hnx.
    + intros p l i p' l' i' q [-> ->]%Hx _ Hi _ _ _. by rewrite Hnx.
    + intros p l i [-> ->]%Hx _ Hi. by rewrite Hz.
    + intros p l [-> ->]%Hx. lia.
  - intros p Hp. apply lookup_singleton_None. by intros ->.
Qed.

(** Mappages, on a range of unmapped pages, either returns 0 with exactly
    those pages mapped to consecutive physical pages with the given permissions,
    or returns -1 after running out of pages, with a prefix mapped; in both cases
    every other virtual address keeps its entry, the tree stays well formed, and
    memory outside the tables and the free pages is untouched. *)
Theorem mappages_correct root va size pa perm T fl s :
  vm_inv (k_mem s) (k_freelist s) root T fl -> L_kmem ∉ k_held s ->
  0 <= va -> 0 < size -> va + size <= MAXVA ->
  pa mod PGSIZE = 0 -> 0 <= pa -> pa + size + PGSIZE <= 2 ^ 56 -> 0 <= perm < 1024 ->
  (forall a, PGROUNDDOWN va <= a < va + size -> has (pte_of (k_mem s) root a) PTE_V = false) ->
  exists r m' h' T' fl' k,
    mappages root va size pa perm s = Ret r (upd s m' h') /\
    vm_inv m' h' root T' fl' /\ keeps T fl (k_mem s) m' /\
    (forall p, owned T' fl' p <-> owned T fl p) /\
    (forall a, 0 <= a < MAXVA ->
       pte_of m' root a = map_range (pte_of (k_mem s) root) (PGROUNDDOWN va) k pa perm a) /\
    ((r = 0 /\ k = num_pages va size) \/ (r = -1 /\ fl' = [] /\ 0 <= k < num_pages va size)).
Proof.
  intros Hinv Hh Hva Hsz Hend Hal Hpa Hpe Hperm Hfree.
  destruct (wp_elim (mappages root va size pa perm) (fun r s' => exists m' h' T' fl' k,
    s' = upd s m' h' /\
    maps_to (k_mem s) (k_freelist s) m' h' root T T' fl fl'
      (map_range (pte_of (k_mem s) root) (PGROUNDDOWN va) k pa perm) /\
    ((r = 0 /\ k = num_pages va size) \/ (r = -1 /\ fl' = [] /\ 0 <= k < num_pages va size))) s)
    as (r & s' & E & m' & h' & T' & fl' & k & -> & [Hst Hp] & Hr).
  { apply (wp_mappages root va size pa perm T fl s); try done.
    - intros m' h' T' fl' H. exists m', h', T', fl', (num_pages va size). auto.
    - intros m' h' T' k Hk H. exists m', h', T', [], k. split_and!; auto. }
  exists r, m', h', T', fl', k. split_and!; try done; try apply Hst.
  - intros p. by apply (pt_step_owned _ _ _ _ _ _ _ _ _ _ Hst).
  - intros a Ha%va_vatop. by apply Hp.
Qed.

(** C33: uvmalloc is all or nothing.  On success it returns the new size and the
    address space has exactly the new pages more, each zero-filled, readable,
    writable, executable and user accessible.  On failure it returns 0 and the
    address space is the old one: every page taken is back on the free list or
    a table.  In both cases no page is lost or shared, and no byte of the old
    pages or of other memory changes. *)
Theorem uvmalloc_correct root oldsz newsz T fl L s :
  user_inv (k_mem s) (k_freelist s) root T fl L -> L_kmem ∉ k_held s ->
  0 <= oldsz <= newsz -> newsz <= MAXVA ->
  (forall v, PGROUNDUP oldsz <= v < PGROUNDUP newsz -> has (pte_of (k_mem s) root v) PTE_V = false) ->
  exists r m' h', uvmalloc root oldsz newsz s = Ret r (upd s m' h') /\ exists T' fl' L',
    us_step (k_mem s) (k_freelist s) m' h' root T T' fl fl' L L' /\
    (forall v, 0 <= v < MAXVA -> ~ (PGROUNDUP oldsz <= v < PGROUNDUP newsz) ->
       pte_of m' root v = pte_of (k_mem s) root v) /\
    ((r = newsz /\
      (forall v, is_Some (L' !! v) <-> is_Some (L !! v) \/
         exists i, 0 <= i < up_pages oldsz newsz /\ v = PGROUNDUP oldsz + i * PGSIZE) /\
      (forall i, 0 <= i < up_pages oldsz newsz ->
         exists q, L' !! (PGROUNDUP oldsz + i * PGSIZE) = Some q /\ page_holds m' q (fun _ => 0) /\
           pte_of m' root (PGROUNDUP oldsz + i * PGSIZE) = mkpte q RWXU)) \/
     (r = 0 /\ L' = L /\
      forall v, 0 <= v < MAXVA -> has (pte_of m' root v) PTE_V = has (pte_of (k_mem s) root v) PTE_V)).
Proof.
  intros Hi Hh Hsz Hmax Hfree.
  assert (Hn : PGROUNDUP oldsz + up_pages oldsz newsz * PGSIZE = PGROUNDUP newsz).
  { destruct (PGROUNDUP_le oldsz) as (? & _), (PGROUNDUP_le newsz) as (? & _); try lia.
    unfold up_pages, PGSIZE in *. zmod. }
  apply wp_elim_upd. apply (wp_uvmalloc root oldsz newsz T fl L s); try done.
  - intros m' h' T' fl' L' [Hst Hdom Hnew Hold]. exists m', h'. split; [done|]. exists T', fl', L'.
    split_and!; [done | | left]; [intros v Hv%va_vatop Hn'; apply Hold; [done | by rewrite Hn]|].
    split_and!; [done | done |]. intros i Hi'. by destruct (Hnew i Hi').
  - intros m' h' T' fl' Hst HV Hold. exists m', h'. split; [done|]. exists T', fl', L.
    split_and!; [done | intros v Hv%va_vatop; by apply Hold | right; split_and!; [done | done | intros v Hv%va_vatop; by apply HV]].
Qed.

(** Uvmunmap with do_free, on mapped pages, removes exactly those pages from
    the address space and puts exactly their physical pages on the free list; all
    other addresses keep their entries and all other pages their contents. *)
Theorem uvmunmap_correct root va n T fl L s :
  user_inv (k_mem s) (k_freelist s) root T fl L -> L_kmem ∉ k_held s ->
  va mod PGSIZE = 0 -> 0 <= n -> 0 <= va -> va + n * PGSIZE <= MAXVA ->
  (forall i, 0 <= i < n -> is_Some (L !! (va + i * PGSIZE))) ->
  exists r m' h', uvmunmap root va n true s = Ret r (upd s m' h') /\ exists freed,
    user_inv m' h' root T (freed ++ fl) (cut L va n) /\
    (forall p, p ∈ freed <-> exists i, 0 <= i < n /\ L !! (va + i * PGSIZE) = Some p) /\
    keeps T (freed ++ fl) (k_mem s) m' /\
    (forall v, 0 <= v < MAXVA -> pte_of m' root v =
       if decide (va <= v < va + n * PGSIZE) then 0 else pte_of (k_mem s) root v).
Proof.
  intros Hi Hh Hal Hn Hva Hend HL. apply wp_elim_upd.
  apply (wp_uvmunmap root T fl L); try done.
  intros m' h' freed H1 H2 H3 H4. exists m', h'. split; [done|]. exists freed. split_and!; try done. intros v Hv%va_vatop. by apply H4.
Qed.

(** C7: uvmcopy gives the child, below [sz], a private copy of every page of the
    parent: the same bytes, the same permissions, in physical pages taken from
    the free list.  The parent is untouched.  If memory runs out it returns -1
    and the child's address space is as before, with every page taken given
    back. *)
Theorem uvmcopy_correct old new sz T fl L T0 P s :
  user_inv (k_mem s) (k_freelist s) new T fl L -> L_kmem ∉ k_held s ->
  parent_ok old T fl T0 P (k_mem s) -> 0 <= sz <= MAXVA ->
  (forall va, 0 <= va < sz -> va mod PGSIZE = 0 -> is_Some (P !! va)) ->
  (forall v, 0 <= v < PGROUNDUP sz -> has (pte_of (k_mem s) new v) PTE_V = false) ->
  exists r m' h', uvmcopy old new sz s = Ret r (upd s m' h') /\ exists T' fl' L',
    us_step (k_mem s) (k_freelist s) m' h' new T T' fl fl' L L' /\
    (forall va, pte_of m' old va = pte_of (k_mem s) old va) /\
    ((r = 0 /\ forall va pa, 0 <= va < sz -> P !! va = Some pa -> va mod PGSIZE = 0 ->
        exists q, L' !! va = Some q /\ q <> pa /\
          (forall o, 0 <= o < PGSIZE -> ldb m' (q + o) = ldb (k_mem s) (pa + o) /\
             ldb m' (pa + o) = ldb (k_mem s) (pa + o)) /\
          pte_of m' new va = mkpte q (PTE_FLAGS (pte_of (k_mem s) old va))) \/
     (r = -1 /\ L' = L)).
Proof.
  intros Hi Hh Hpar Hsz HP Hfree. apply wp_elim_upd.
  apply (wp_uvmcopy old new sz T fl L s T0 P); try done.
  - intros m' h' T' fl' L' Hc. pose proof (fi_step _ _ _ _ _ _ _ _ _ _ _ _ _ _ Hc) as Hst.
    pose proof (us_keeps _ _ _ _ _ _ _ _ _ _ _ Hst) as Hk.
    exists m', h'. split; [done|]. exists T', fl', L'. split_and!; [done | |left].
    { intros va. by apply (parent_pte old new T fl L s T0 P). }
    split; [done|]. intros va pa Hva Hpa Hal. destruct (PGROUNDUP_le sz Hsz) as (A1 & A2 & _).
    destruct (fi_new _ _ _ _ _ _ _ _ _ _ _ _ _ _ Hc (va / PGSIZE)) as (HN & q & Hq & Hh' & Hp).
    { unfold PGSIZE in *. zmod. }
    replace (0 + va / PGSIZE * PGSIZE) with va in * by (unfold PGSIZE in *; zmod).
    exists q. split_and!; [done | | | done].
    + intros ->. destruct (pa_map _ _ _ _ _ _ Hpar _ _ Hpa) as (_ & _ & Hno). apply Hno.
      eapply us_new_owned; [exact Hst | exact HN | exact Hq].
    + intros o Ho. rewrite Hh' by done. cbv beta. rewrite Hpa. simpl. split; [done|].
      rewrite (parent_page old new T fl L s T0 P Hi Hpar m' va pa o) by done. by rewrite Hpa.
  - intros m' h' T' fl' Hst _. exists m', h'. split; [done|]. exists T', fl', L.
    split_and!; [done | | by right]. intros va.
    apply (parent_pte old new T fl L s T0 P); try done. apply Hst.
Qed.

(** Copyin reads only through user-accessible mappings: the bytes it stores
    are exactly those a user program would read from [srcva] on, and it fails,
    with -1, only at an address the user could not read itself; it changes no
    kernel state, whatever the arguments. *)
Theorem copyin_correct root srcva len T s :
  pt_wf (k_mem s) T root -> 0 <= srcva < 2 ^ 64 -> 0 <= len < 2 ^ 64 ->
  exists r dst, copyin root srcva len s = Ret (r, dst) s /\
    ubytes (k_mem s) root srcva dst /\
    ((r = 0 /\ Z.of_nat (length dst) = len) \/
     (r = -1 /\ Z.of_nat (length dst) < len /\
      ubyte (k_mem s) root (srcva + Z.of_nat (length dst)) = None)).
Proof.
  intros Hw Hva Hlen.
  destruct (wp_elim (copyin root srcva len) (fun x s' => s' = s /\ ubytes (k_mem s) root srcva x.2 /\
    ((x.1 = 0 /\ Z.of_nat (length x.2) = len) \/
     (x.1 = -1 /\ Z.of_nat (length x.2) < len /\
      ubyte (k_mem s) root (srcva + Z.of_nat (length x.2)) = None))) s) as ([r dst] & s' & E & -> & H1 & H2).
  { apply (wp_copyin root srcva len T); try done; simpl; auto 10. }
  by exists r, dst.
Qed.

(** Copyout followed by copyin at the same user address gives the bytes back,
    and copyout changes no other user byte, no page table, no free page and no
    memory outside the process's own pages. *)
Theorem copyout_copyin_roundtrip root dstva src T fl L s :
  user_inv (k_mem s) (k_freelist s) root T fl L -> complete (k_mem s) root L ->
  0 <= dstva < 2 ^ 64 -> Z.of_nat (length src) < 2 ^ 64 -> Forall (fun b => 0 <= b < 256) src ->
  exists r m' h', copyout root dstva src s = Ret r (upd s m' h') /\ exists n,
    wrote (k_mem s) (k_freelist s) root T fl L dstva src n m' /\
    ((r = 0 /\ n = length src /\
      copyin root dstva (Z.of_nat (length src)) (upd s m' h') = Ret (0, src) (upd s m' h')) \/
     (r = -1 /\ (n < length src)%nat /\ ubyte (k_mem s) root (dstva + Z.of_nat n) = None)).
Proof.
  intros Hi HU Hva Hlen Hb. apply wp_elim_upd.
  apply (wp_copyout root dstva src T fl L); try done.
  - intros m' Hw. exists m', (k_freelist s). split; [done|]. exists (length src). split; [done|]. left.
    split_and!; [done..|].
    destruct (wp_elim (copyin root dstva (Z.of_nat (length src)))
      (fun x s' => s' = upd s m' (k_freelist s) /\ x = (0, src)) (upd s m' (k_freelist s)))
      as (x & s' & E & -> & ->); [|done].
    assert (Hin : forall i, (i < length src)%nat -> ubyte m' root (dstva + Z.of_nat i) = src !! i).
    { intros i Hlt. rewrite (wr_byte _ _ _ _ _ _ _ _ _ _ Hw) by lia. rewrite decide_True by lia. f_equal. lia. }
    apply (wp_copyin root dstva _ T); [apply Hw | done | lia | |].
    + intros dst Hl Hu. split; [done|]. f_equal. apply list_eq_same_length with (length src); [done | lia |].
      intros i x y Hilt Hx Hy. apply Hu in Hx. simpl in Hx. rewrite Hin in Hx by done. congruence.
    + intros dst Hl Hu HN. simpl in HN. rewrite Hin in HN by lia. apply lookup_ge_None in HN. lia.
  - intros m' n Hn HN Hw. exists m', (k_freelist s). split; [done|]. exists n. split; [done|]. right. done.
Qed.

(** Copyinstr returns 0 exactly with a NUL-terminated user string that fits
    in [max] bytes, NUL included, and -1 when the string is too long or runs into
    memory the user cannot read; it changes no kernel state. *)
Theorem copyinstr_correct root srcva max T s :
  pt_wf (k_mem s) T root -> 0 <= srcva < 2 ^ 64 -> 0 <= max < 2 ^ 64 ->
  exists r dst, copyinstr root srcva max s = Ret (r, dst) s /\ ubytes (k_mem s) root srcva dst /\
    ((r = 0 /\ exists str, dst = str ++ [0] /\ Forall (fun c => c <> 0) str /\
        Z.of_nat (length str) < max) \/
     (r = -1 /\ Forall (fun c => c <> 0) dst /\
      (Z.of_nat (length dst) = max \/
       (Z.of_nat (length dst) < max /\ ubyte (k_mem s) root (srcva + Z.of_nat (length dst)) = None)))).
Proof.
  intros Hw Hva Hmax.
  destruct (wp_elim (copyinstr root srcva max) (fun x s' => s' = s /\ ubytes (k_mem s) root srcva x.2 /\
    ((x.1 = 0 /\ exists str, x.2 = str ++ [0] /\ Forall (fun c => c <> 0) str /\ Z.of_nat (length str) < max) \/
     (x.1 = -1 /\ Forall (fun c => c <> 0) x.2 /\
      (Z.of_nat (length x.2) = max \/
       (Z.of_nat (length x.2) < max /\ ubyte (k_mem s) root (srcva + Z.of_nat (length x.2)) = None)))) ) s)
    as ([r dst] & s' & E & -> & H).
  { apply (wp_copyinstr root srcva max T); try done.
    - intros str H1 H2 H3. split_and!; [done | done |]. left. split; [done|]. by exists str.
    - intros dst H1 H2 H3. split_and!; [done | done |]. by right. }
  by exists r, dst.
Qed.

(** Freewalk on a table without leaf mappings gives every table page of the
    tree back to the free list exactly once and writes nothing outside them. *)
Theorem freewalk_correct root s fl :
  no_leaf 3 (k_mem s) root -> NoDup (pages_of 3 (k_mem s) root) ->
  Forall page_ok (pages_of 3 (k_mem s) root) -> fl_inv (k_mem s) (k_freelist s) fl ->
  (forall q, q ∈ pages_of 3 (k_mem s) root -> q ∈ fl -> False) -> L_kmem ∉ k_held s ->
  exists r m' h', freewalk root s = Ret r (upd s m' h') /\
    fl_inv m' h' (rev (pages_of 3 (k_mem s) root) ++ fl) /\
    forall a, (forall q, q ∈ pages_of 3 (k_mem s) root -> ~ in_page q a) -> ldb m' a = ldb (k_mem s) a.
Proof.
  intros Hn Hnd Hok Hf Hd Hh. apply wp_elim_upd.
  apply (freewalk_frees 3 64 ltac:(lia) root s fl); try done.
  intros m' h' [H1 H2]. by exists m', h'.
Qed.

End Theorems.
