(* ===== verification/VmWitness.v ===== *)
(** * Concrete address spaces for the theorems of vm.c

    A process with one page at address 0, an empty table, and six free pages. *)
From S2P Require Import Prelude Memory State Kalloc Vm PageTable VmSpec UserMem UserCopy FreeWalk VmTheorems.

#[local] Existing Instance demo_image.
#[local] Existing Instance demo_image_ok.

Definition dR : Z := 0x80030000.
Definition dP1 : Z := 0x80031000.
Definition dP0 : Z := 0x80032000.
Definition dD : Z := 0x80033000.
Definition dR2 : Z := 0x80038000.
Definition dfl : list Z :=
  [0x80040000; 0x80041000; 0x80042000; 0x80043000; 0x80044000; 0x80045000].
Definition dfree : mem :=
  st64 (st64 (st64 (st64 (st64 ∅ 0x80040000 0x80041000) 0x80041000 0x80042000)
    0x80042000 0x80043000) 0x80043000 0x80044000) 0x80044000 0x80045000.
Definition dleaf : Z := mkpte dD RWXU.
Definition dm : mem :=
  st64 (st64 (st64 dfree dR (Z.lor (PA2PTE dP1) PTE_V)) dP1 (Z.lor (PA2PTE dP0) PTE_V)) dP0 dleaf.
Definition dT : gmap Z Z := {[dR := 2; dP1 := 1; dP0 := 0]}.
Definition dL : gmap Z Z := {[0 := dD]}.
Definition ks : kstate := set_mem (fun _ => dm) (set_freelist (fun _ => 0x80040000) k0).

Lemma slots_check (f : Z -> bool) : forallb f slots = true -> forall i, 0 <= i < 512 -> f i = true.
Proof. intros H i Hi. by apply (proj1 (forallb_forall f slots) H), list_elem_of_In, elem_of_slots. Qed.

(** The entries of the three tables, read off the memory. *)
Lemma d_entries p v i :
  In (p, v) [(dR, Z.lor (PA2PTE dP1) PTE_V); (dP1, Z.lor (PA2PTE dP0) PTE_V); (dP0, dleaf); (dR2, 0)] ->
  0 <= i < 512 -> pte_at dm p i = if i =? 0 then v else 0.
Proof.
  intros Hin. revert i.
  assert (H : forallb (fun i => pte_at dm p i =? (if i =? 0 then v else 0)) slots = true).
  { repeat (destruct Hin as [[= <- <-]|Hin]; [vm_compute; reflexivity|]). destruct Hin. }
  intros i Hi. by apply Z.eqb_eq, (slots_check _ H).
Qed.

Lemma d_next p v q i :
  In (p, v, q) [(dR, Z.lor (PA2PTE dP1) PTE_V, dP1); (dP1, Z.lor (PA2PTE dP0) PTE_V, dP0)] ->
  0 <= i < 512 -> next_pt dm p i = if i =? 0 then Some q else None.
Proof.
  intros Hin Hi. assert (He : pte_at dm p i = if i =? 0 then v else 0).
  { apply d_entries; [|done]. destruct Hin as [[= <- <- <-]|[[= <- <- <-]|[]]]; simpl; auto. }
  destruct (Z.eqb_spec i 0) as [->|Hne].
  - destruct Hin as [[= <- <- <-]|[[= <- <- <-]|[]]]; vm_compute; reflexivity.
  - apply next_pt_invalid. by rewrite He.
Qed.

Lemma dT_cases p l : dT !! p = Some l -> (p = dR /\ l = 2) \/ (p = dP1 /\ l = 1) \/ (p = dP0 /\ l = 0).
Proof.
  unfold dT. rewrite !lookup_insert_Some, lookup_singleton_Some. naive_solver.
Qed.

Lemma d_page p : In p [dR; dP1; dP0; dD; dR2] -> page_ok p.
Proof.
  intros H. repeat (destruct H as [<-|H]; [vm_compute; intuition discriminate|]). destruct H.
Qed.

Lemma d_wf : pt_wf dm dT dR.
Proof.
  assert (N2 : forall i, 0 <= i < 512 -> next_pt dm dR i = if i =? 0 then Some dP1 else None)
    by (intros; eapply d_next; [simpl; auto | done]).
  assert (N1 : forall i, 0 <= i < 512 -> next_pt dm dP1 i = if i =? 0 then Some dP0 else None)
    by (intros; eapply d_next; [simpl; auto | done]).
  split.
  - intros p. split; [|by intros ->]. intros [[? ?]|[[? ?]|[? ?]]]%dT_cases; [done | lia..].
  - intros p l [[-> ->]|[[-> ->]|[-> ->]]]%dT_cases; (split; [apply d_page; simpl; auto 10 | lia]).
  - intros p l i q [[-> ->]|[[-> ->]|[-> ->]]]%dT_cases Hl Hi; [rewrite N2 by done | rewrite N1 by done | lia];
      (destruct (i =? 0); intros E; [injection E as <-; reflexivity | discriminate E]).
  - intros p l i p' l' i' q Hp Hl Hi Hp' Hl' Hi'.
    apply dT_cases in Hp as [[-> ->]|[[-> ->]|[-> ->]]]; [rewrite N2 by done | rewrite N1 by done | lia];
    (apply dT_cases in Hp' as [[-> ->]|[[-> ->]|[-> ->]]]; [rewrite N2 by done | rewrite N1 by done | lia]);
    destruct (Z.eqb_spec i 0) as [->|], (Z.eqb_spec i' 0) as [->|]; intros E1 E2;
    try discriminate E1; try discriminate E2; injection E1 as <-; first [done | discriminate E2].
  - intros p l i [[-> ->]|[[-> ->]|[-> ->]]]%dT_cases Hl Hi; [| |lia];
      erewrite d_entries by (simpl; auto); destruct (Z.eqb_spec i 0); done.
  - intros p l [[-> ->]|[[-> ->]|[-> ->]]]%dT_cases Hl; [lia| |].
    + exists dR, 0. rewrite N2 by lia. split_and!; try done.
    + exists dP1, 0. rewrite N1 by lia. split_and!; try done.
Qed.

Lemma d_free : fl_inv dm 0x80040000 dfl.
Proof.
  split; [vm_compute; intuition reflexivity|]. split.
  - apply (bool_decide_unpack _). vm_compute. done.
  - repeat constructor; vm_compute; intuition discriminate.
Qed.

(** The tables, the data page and the empty root are not free. *)
Lemma d_disj p : In p [dR; dP1; dP0; dD; dR2] -> p ∉ dfl.
Proof.
  intros H. repeat (destruct H as [<-|H]; [apply (bool_decide_unpack _); vm_compute; done|]). destruct H.
Qed.

(** What the process sees: one page at 0. *)
Lemma d_pte va : 0 <= va < MAXVA -> pte_of dm dR va = if va <? PGSIZE then dleaf else 0.
Proof.
  intros Hva. pose proof (PX_range 2 va ltac:(lia)) as P2. pose proof (PX_range 1 va ltac:(lia)) as P1.
  pose proof (PX_range 0 va ltac:(lia)) as P0.
  assert (N2 : next_pt dm dR (PX 2 va) = if PX 2 va =? 0 then Some dP1 else None)
    by (eapply d_next; [simpl; auto | done]).
  assert (N1 : next_pt dm dP1 (PX 1 va) = if PX 1 va =? 0 then Some dP0 else None)
    by (eapply d_next; [simpl; auto | done]).
  assert (E0 : pte_at dm dP0 (PX 0 va) = if PX 0 va =? 0 then dleaf else 0)
    by (apply d_entries; [simpl; auto | done]).
  assert (Hz : va < PGSIZE <-> PX 2 va = 0 /\ PX 1 va = 0 /\ PX 0 va = 0).
  { split; [intros Hlt; rewrite !PX_eq by lia; unfold PGSIZE in Hlt; simpl; zmod|].
    intros (H2 & H1 & H0). assert (H : va / PGSIZE = 0 / PGSIZE); [|unfold PGSIZE in *; zmod].
    apply PX_inj; [by apply va_vatop|by vm_compute|done..]. }
  destruct (Z.eqb_spec (PX 2 va) 0) as [H2|H2]; [destruct (Z.eqb_spec (PX 1 va) 0) as [H1|H1]|].
  - rewrite (pte_of_leaf _ _ _ _ (leaf_addr_intro _ _ _ _ _ N2 N1)), ld64_pte_at, E0.
    destruct (Z.eqb_spec (PX 0 va) 0), (Z.ltb_spec va PGSIZE); try done; lia.
  - rewrite pte_of_no_leaf by (apply leaf_addr_none; right; by exists dP1).
    rewrite (proj2 (Z.ltb_ge _ _)); [done | lia].
  - rewrite pte_of_no_leaf by (apply leaf_addr_none; by left).
    rewrite (proj2 (Z.ltb_ge _ _)); [done | lia].
Qed.

Lemma d_vm : vm_inv dm 0x80040000 dR dT dfl.
Proof.
  split; [apply d_free | apply d_wf |]. intros p Hp. destruct (dT !! p) as [l|] eqn:E; [|done].
  exfalso. apply dT_cases in E as [[-> _]|[[-> _]|[-> _]]]; revert Hp; apply d_disj; simpl; auto.
Qed.

Lemma dL_cases va pa : dL !! va = Some pa -> va = 0 /\ pa = dD.
Proof. unfold dL. rewrite lookup_singleton_Some. naive_solver. Qed.

Lemma d_leaf : leaf_pte dleaf dD.
Proof. apply leaf_mkpte; [apply d_page; simpl; auto | vm_compute; intuition discriminate..]. Qed.

Lemma dD_not_owned : ~ owned dT dfl dD.
Proof.
  intros [H|[l H]]; [revert H; apply d_disj; simpl; auto|].
  apply dT_cases in H as [[E _]|[[E _]|[E _]]]; discriminate E.
Qed.

Lemma d_user : user_inv dm 0x80040000 dR dT dfl dL.
Proof.
  split.
  - apply d_vm.
  - intros va pa [-> ->]%dL_cases. vm_compute. intuition discriminate.
  - intros va pa [-> ->]%dL_cases. rewrite d_pte by (unfold MAXVA; lia). apply d_leaf.
  - intros va pa [-> ->]%dL_cases. apply d_page; simpl; auto.
  - intros va pa [-> ->]%dL_cases. apply dD_not_owned.
  - intros v1 v2 pa [-> _]%dL_cases [-> _]%dL_cases. done.
Qed.

Lemma d_complete : complete dm dR dL.
Proof.
  intros va Hva. unfold uaddr. destruct (Z.leb_spec MAXVA va); [done|]. rewrite d_pte by done.
  destruct (Z.ltb_spec va PGSIZE); [|done]. intros _.
  replace (PGROUNDDOWN va) with 0 by (rewrite PGROUNDDOWN_eq; unfold PGSIZE in *; zmod). by exists dD.
Qed.

Lemma d_invalid va : PGSIZE <= va < MAXVA -> has (pte_of dm dR va) PTE_V = false.
Proof.
  intros H. rewrite d_pte by (unfold PGSIZE in *; lia). by rewrite (proj2 (Z.ltb_ge _ _)) by lia.
Qed.

Lemma mappages_correct_witness : exists r m' h', mappages dR 0x5000 0x2000 0x10000000 6 ks = Ret r (upd ks m' h').
Proof.
  destruct (mappages_correct dR 0x5000 0x2000 0x10000000 6 dT dfl ks) as (r & m' & h' & _ & _ & _ & E & _).
  - apply d_vm.
  - apply not_elem_of_nil.
  - lia.
  - lia.
  - unfold MAXVA. lia.
  - done.
  - lia.
  - unfold PGSIZE. lia.
  - lia.
  - intros a Ha. change (PGROUNDDOWN 0x5000) with 0x5000 in Ha. apply d_invalid. unfold PGSIZE, MAXVA. lia.
  - eauto.
Defined.

Lemma uvmalloc_correct_witness : exists r m' h', uvmalloc dR 0x800 0x2100 ks = Ret r (upd ks m' h').
Proof.
  destruct (uvmalloc_correct dR 0x800 0x2100 dT dfl dL ks) as (r & m' & h' & E & _).
  - apply d_user.
  - apply not_elem_of_nil.
  - lia.
  - unfold MAXVA. lia.
  - intros v Hv. apply d_invalid. change (PGROUNDUP 0x800) with 0x1000 in Hv. change (PGROUNDUP 0x2100) with 0x3000 in Hv. unfold PGSIZE, MAXVA. lia.
  - eauto.
Defined.

Lemma uvmunmap_correct_witness : exists r m' h', uvmunmap dR 0 1 true ks = Ret r (upd ks m' h').
Proof.
  destruct (uvmunmap_correct dR 0 1 dT dfl dL ks) as (r & m' & h' & E & _).
  - apply d_user.
  - apply not_elem_of_nil.
  - done.
  - lia.
  - lia.
  - unfold PGSIZE, MAXVA. lia.
  - intros i Hi. replace i with 0 by lia. by exists dD.
  - eauto.
Defined.

(** The child's empty table. *)
Lemma d_child : user_inv dm 0x80040000 dR2 {[dR2 := 2]} dfl ∅.
Proof.
  apply empty_root; [apply d_free | apply d_page; simpl; auto 10 | apply d_disj; simpl; auto 10 |].
  intros i Hi. erewrite d_entries by (simpl; auto 10). by destruct (i =? 0).
Qed.

Lemma d_parent : parent_ok dR {[dR2 := 2]} dfl dT dL dm.
Proof.
  split.
  - apply d_wf.
  - intros p [l Hp] [H|[l' H]].
    + revert H. apply d_disj. apply dT_cases in Hp as [[-> _]|[[-> _]|[-> _]]]; simpl; auto.
    + apply lookup_singleton_Some in H as [<- _]. discriminate Hp.
  - intros va pa [-> ->]%dL_cases. rewrite d_pte by (unfold MAXVA; lia). split_and!.
    + apply d_leaf.
    + apply d_page; simpl; auto.
    + intros [H|[l H]]; [revert H; apply d_disj; simpl; auto|].
      apply lookup_singleton_Some in H as [E _]. discriminate E.
Qed.

Lemma uvmcopy_correct_witness : exists r m' h', uvmcopy dR dR2 0x1000 ks = Ret r (upd ks m' h').
Proof.
  destruct (uvmcopy_correct dR dR2 0x1000 {[dR2 := 2]} dfl ∅ dT dL ks) as (r & m' & h' & E & _).
  - apply d_child.
  - apply not_elem_of_nil.
  - apply d_parent.
  - unfold MAXVA. lia.
  - intros va Hva Hal. replace va with 0 by (unfold PGSIZE in *; zmod). by exists dD.
  - intros v Hv. rewrite pte_of_no_leaf; [done|]. apply leaf_addr_none. left. apply next_pt_invalid.
    rewrite (d_entries dR2 0); [by destruct (_ =? 0) | simpl; auto 10 | by apply PX_range].
  - eauto.
Defined.

Lemma copyin_correct_witness : exists r dst, copyin dR 4090 10 ks = Ret (r, dst) ks.
Proof.
  destruct (copyin_correct dR 4090 10 dT ks) as (r & dst & E & _); [apply d_wf | lia | lia |]. eauto.
Defined.

Lemma copyout_copyin_roundtrip_witness :
  exists r m' h', copyout dR 100 [1; 2; 3] ks = Ret r (upd ks m' h').
Proof.
  destruct (copyout_copyin_roundtrip dR 100 [1; 2; 3] dT dfl dL ks) as (r & m' & h' & E & _).
  - apply d_user.
  - apply d_complete.
  - lia.
  - simpl. lia.
  - repeat constructor; lia.
  - eauto.
Defined.

Lemma copyinstr_correct_witness : exists r dst, copyinstr dR 4090 128 ks = Ret (r, dst) ks.
Proof.
  destruct (copyinstr_correct dR 4090 128 dT ks) as (r & dst & E & _); [apply d_wf | lia | lia |]. eauto.
Defined.

(** The process after its page has been unmapped. *)
Definition ks_bare : kstate := set_mem (fun m => st64 m dP0 0) ks.

Lemma d_bare_next p i :
  In p [dR; dP1; dP0] -> 0 <= i < 512 ->
  next_pt (k_mem ks_bare) p i = if i =? 0 then (if p =? dR then Some dP1 else if p =? dP1 then Some dP0 else None) else None.
Proof.
  intros Hp. revert i.
  assert (H : forallb (fun i => bool_decide (next_pt (k_mem ks_bare) p i =
    if i =? 0 then (if p =? dR then Some dP1 else if p =? dP1 then Some dP0 else None) else None)) slots = true).
  { repeat (destruct Hp as [<-|Hp]; [vm_compute; reflexivity|]). destruct Hp. }
  intros i Hi. apply (bool_decide_unpack _). pose proof (slots_check _ H i Hi) as E. cbv beta in E. by rewrite E.
Qed.

Lemma d_bare_pages : pages_of 3 (k_mem ks_bare) dR = [dP0; dP1; dR].
Proof. vm_compute. reflexivity. Qed.

Lemma freewalk_correct_witness : exists r m' h', freewalk dR ks_bare = Ret r (upd ks_bare m' h').
Proof.
  destruct (freewalk_correct dR ks_bare dfl) as (r & m' & h' & E & _); rewrite ?d_bare_pages; [..|eauto].
  - intros i Hi. rewrite d_bare_next by (simpl; auto). destruct (Z.eqb_spec i 0) as [->|]; [|done].
    split; [vm_compute; reflexivity|]. intros j Hj. rewrite d_bare_next by (simpl; auto).
    destruct (Z.eqb_spec j 0) as [->|]; [|done]. split; [vm_compute; reflexivity|].
    intros k Hk. rewrite d_bare_next by (simpl; auto). by destruct (k =? 0).
  - apply (bool_decide_unpack _). vm_compute. done.
  - repeat constructor; vm_compute; intuition discriminate.
  - split; [vm_compute; intuition reflexivity|]. split; [|apply d_free].
    apply (bool_decide_unpack _). vm_compute. done.
  - intros q Hq. apply d_disj. apply list_elem_of_In in Hq. simpl in *. intuition.
  - apply not_elem_of_nil.
Defined.
