(* ===== verification/Sched.v ===== *)
(** * kernel/proc.c, first part: the process table and the scheduler

    myproc, procinit, allocpid, sched, yield, sleep, wakeup, kill, scheduler and
    the either_copy functions.  A pointer to a [struct proc] is its index. *)
From S2P Require Import Prelude Memory State Kalloc Vm.

Section Sched.
Context `{KI : KernelImage}.

(** Using a null pointer faults, and kerneltrap panics. *)
Definition null_deref {A} : KM A := panic "kerneltrap".
Definition deref {A} (o : option A) : KM A :=
  match o with Some x => ret x | None => null_deref end.

Definition procs : list nat := seq 0 NPROC.
Definition proc_of (s : kstate) (i : nat) : proc := default proc0 (k_proc s !! i).
Definition getp (i : nat) : KM proc := gets (fun s => proc_of s i).
Definition modp (i : nat) (f : proc -> proc) : KM unit := modify (set_proc (alter f i)).

Definition myproc : KM (option nat) := gets (fun s => k_cur s).
(** [myproc()] where the code goes on to use the pointer. *)
Definition curproc : KM nat := let* p := myproc in deref p.

(** initlock leaves a lock free, as .bss has it. *)
Definition procinit : KM unit :=
  for_each procs (fun i => modp i (set_p_kstack (KSTACK (Z.of_nat i)))).

Definition allocpid : KM Z :=
  acquire L_pid;;;
  let* pid := gets (fun s => k_nextpid s) in
  modify (set_nextpid (fun n => s32 (n + 1)));;;
  release L_pid;;;
  ret pid.

(** [mycpu()->noff] counts the locks held, see [Spinlock]. *)
Definition sched : KM unit :=
  let* p := curproc in
  let* h := gets (holding (L_proc p)) in
  if negb h then panic "sched p->lock"
  else
    let* noff := gets (fun s => length (k_held s)) in
    if negb (noff =? 1)%nat then panic "sched locks"
    else
      let* pr := getp p in
      if bool_decide (p_state pr = RUNNING) then panic "sched running"
      else swtch.

Definition yield : KM unit :=
  let* p := curproc in
  acquire (L_proc p);;;
  modp p (set_p_state RUNNABLE);;;
  sched;;;
  release (L_proc p).

Definition sleep (chan : channel) (lk : lockid) : KM unit :=
  let* p := curproc in
  acquire (L_proc p);;;
  release lk;;;
  modp p (set_p_chan chan);;;
  modp p (set_p_state SLEEPING);;;
  sched;;;
  modp p (set_p_chan Ch_zero);;;
  release (L_proc p);;;
  acquire lk.

Definition wakeup (chan : channel) : KM unit :=
  for_each procs (fun i =>
    let* me := myproc in
    if bool_decide (Some i <> me) then
      acquire (L_proc i);;;
      let* p := getp i in
      when (bool_decide (p_state p = SLEEPING) && bool_decide (p_chan p = chan))
        (modp i (set_p_state RUNNABLE));;;
      release (L_proc i)
    else ret tt).

(** wakeup on a channel given by a pointer that may be null. *)
Definition wakeup_ptr (o : option nat) : KM unit :=
  match o with Some i => wakeup (Ch_proc i) | None => wakeup Ch_zero end.

Definition kill (pid : Z) : KM Z :=
  let* r := scan procs (fun i =>
    acquire (L_proc i);;;
    let* p := getp i in
    if p_pid p =? pid then
      modp i (set_p_killed true);;;
      when (bool_decide (p_state p = SLEEPING)) (modp i (set_p_state RUNNABLE));;;
      release (L_proc i);;;
      ret (Some 0)
    else release (L_proc i);;; ret None) in
  ret (default (-1) r).

(** One round of the scheduler's inner loop: the switch runs the chosen process
    until it comes back through sched. *)
Definition scheduler_visit (i : nat) : KM unit :=
  acquire (L_proc i);;;
  let* p := getp i in
  when (bool_decide (p_state p = RUNNABLE))
    (modp i (set_p_state RUNNING);;;
     modify (set_cur (fun _ => Some i));;;
     swtch;;;
     modify (set_cur (fun _ => None)));;;
  release (L_proc i).

Definition scheduler : KM unit :=
  modify (set_cur (fun _ => None));;;
  loop (fun _ => for_each procs scheduler_visit;;; ret (inl tt)) tt.

(** ** Copies between the kernel and a user or kernel address *)

(** Where readi puts bytes: a user address, physical memory, or a local of the
    caller (the bytes are then part of the result). *)
Inductive iodst := DUser (va : Z) | DKern (pa : Z) | DLocal.
Inductive iosrc := SUser (va : Z) | SKern (pa : Z) | SLocal (bs : list Z).

Definition either_copyout (dst : iodst) (src : list Z) : KM Z :=
  match dst with
  | DUser va =>
      let* p := curproc in
      let* pr := getp p in
      copyout (p_pagetable pr) va src
  | DKern pa => modify (set_mem (fun m => write_bytes m pa src));;; ret 0
  | DLocal => ret 0
  end.

(** The return value and the bytes stored at the kernel's buffer. *)
Definition either_copyin (src : iosrc) (len : Z) : KM (Z * list Z) :=
  match src with
  | SUser va =>
      let* p := curproc in
      let* pr := getp p in
      copyin (p_pagetable pr) va len
  | SKern pa => let* bs := gets (fun s => bytes (k_mem s) pa (Z.to_nat len)) in ret (0, bs)
  | SLocal bs => ret (0, take (Z.to_nat len) bs)
  end.

End Sched.

(** Pointer arithmetic on sources and destinations. *)
Definition dst_add (d : iodst) (n : Z) : iodst :=
  match d with DUser va => DUser (u64 (va + n)) | DKern pa => DKern (pa + n) | DLocal => DLocal end.
Definition src_add (d : iosrc) (n : Z) : iosrc :=
  match d with
  | SUser va => SUser (u64 (va + n))
  | SKern pa => SKern (pa + n)
  | SLocal bs => SLocal (drop (Z.to_nat n) bs)
  end.
