(* ===== verification/SchedSpec.v ===== *)
(** * Meaning of the scheduling primitives of proc.c *)
From S2P Require Import Prelude Memory State Kalloc Vm Sched.

Section SchedSpec.
Context `{KI : KernelImage}.
Context {R : kstate -> kstate -> Prop} {C : kstate -> Prop}.

(** No process lock is held. *)
Definition no_plock (s : kstate) : Prop := forall i, L_proc i ∉ k_held s.

Lemma proc_of_alter f i j s :
  (i < length (k_proc s))%nat ->
  proc_of (set_proc (alter f i) s) j = if decide (i = j) then f (proc_of s i) else proc_of s j.
Proof.
  intros Hi. unfold proc_of. simpl. case_decide as E.
  - subst. rewrite list_lookup_alter_eq. destruct (lookup_lt_is_Some_2 _ _ Hi) as [p ->]. done.
  - by rewrite list_lookup_alter_ne.
Qed.

(** ** wakeup *)

(** What wakeup does to process [i]. *)
Definition woken (ch : channel) (cur : option nat) (i : nat) (p : proc) : proc :=
  if bool_decide (Some i <> cur) && bool_decide (p_state p = SLEEPING) && bool_decide (p_chan p = ch)
  then set_p_state RUNNABLE p else p.

(** A loop that changes each process under its own lock. *)
Lemma wp_each_proc (body : nat -> KM unit) (g : nat -> proc -> proc) Q s :
  (forall i s', (i < NPROC)%nat -> length (k_proc s') = length (k_proc s) ->
     k_held s' = k_held s -> k_cur s' = k_cur s -> (exists ps, s' = set_proc (fun _ => ps) s) ->
     wpc R C (body i) (fun _ s'' => s'' = set_proc (alter (g i) i) s') s') ->
  length (k_proc s) = NPROC ->
  Q tt (set_proc (imap g) s) ->
  wpc R C (for_each procs body) Q s.
Proof.
  intros Hb Hlen HQ.
  apply (wp_for_each _ (fun l s' => exists n, l = seq n (NPROC - n) /\ (n <= NPROC)%nat /\
    s' = set_proc (fun ps => imap g (take n ps) ++ drop n ps) s)).
  - exists 0%nat. split_and!; [done | lia | by destruct s].
  - intros i l s' (n & Hl & Hn & ->).
    destruct (NPROC - n)%nat as [|k] eqn:Ek; [done|]. simpl in Hl. injection Hl as -> ->.
    assert (Hlt : (n < length (k_proc s))%nat) by lia.
    destruct (lookup_lt_is_Some_2 _ _ Hlt) as [p Hp].
    assert (Htl : length (imap g (take n (k_proc s))) = n) by (rewrite length_imap, length_take; lia).
    eapply wp_mono; [apply Hb|].
    + lia.
    + simpl. rewrite length_app, length_imap, length_take, length_drop. lia.
    + done.
    + done.
    + exists (imap g (take n (k_proc s)) ++ drop n (k_proc s)). by destruct s.
    + intros [] s'' ->. exists (S n). split_and!; [f_equal; lia | lia |].
      unfold set_proc. simpl. f_equal. rewrite (drop_S _ _ _ Hp).
      rewrite (take_S_r _ _ _ Hp), imap_app. simpl.
      rewrite <- app_assoc. simpl.
      rewrite length_take, Nat.min_l by lia. rewrite Nat.add_0_r.
      rewrite alter_app_r_alt by lia. by rewrite Htl, Nat.sub_diag.
  - intros s' (n & Hl & Hn & ->). assert (n = NPROC) as ->.
    { destruct (NPROC - n)%nat eqn:E; [lia|done]. }
    replace (set_proc _ s) with (set_proc (imap g) s); [done|].
    unfold set_proc. f_equal. rewrite take_ge, drop_ge by lia. by rewrite app_nil_r.
Qed.

Lemma set_proc_alter_id i s : set_proc (alter (fun p => p) i) s = s.
Proof.
  unfold set_proc. rewrite list_alter_id by done. by destruct s.
Qed.

Lemma wp_wakeup ch Q s :
  no_plock s -> length (k_proc s) = NPROC ->
  Q tt (set_proc (imap (woken ch (k_cur s))) s) ->
  wpc R C (wakeup ch) Q s.
Proof.
  intros Hno Hlen HQ. apply (wp_each_proc _ (woken ch (k_cur s))); [|done|done].
  intros i s' Hi Hl' Hh' Hc' (ps & ->). unfold myproc, getp. wp_step. wp_step. unfold woken.
  change (k_cur (set_proc _ s)) with (k_cur s).
  destruct (bool_decide_reflect (Some i <> k_cur s)) as [Hne|Heq]; simpl andb; cbv iota.
  2: { wp_step. by rewrite set_proc_alter_id. }
  wp_step. apply wp_acquire; [apply Hno|]. wp_step. wp_step. wp_step.
  set (p := proc_of _ i).
  apply wp_when; intros Hb.
  - unfold modp. wp_step. eapply wp_release_last; [reflexivity | apply Hno |].
    unfold set_proc, set_held. simpl. f_equal. unfold p, proc_of in Hb. simpl in Hb.
    destruct (lookup_lt_is_Some_2 ps i) as [q Hq]; [simpl in Hl'; lia|]. rewrite Hq in Hb. simpl in Hb.
    apply list_eq. intros j. destruct (decide (i = j)) as [<-|Hij].
    + rewrite !list_lookup_alter_eq, Hq. simpl. by rewrite Hb.
    + by rewrite !list_lookup_alter_ne.
  - eapply wp_release_last; [reflexivity | apply Hno |].
    unfold set_proc, set_held. simpl. f_equal. unfold p, proc_of in Hb. simpl in Hb.
    destruct (lookup_lt_is_Some_2 ps i) as [q Hq]; [simpl in Hl'; lia|]. rewrite Hq in Hb. simpl in Hb.
    apply list_eq. intros j. destruct (decide (i = j)) as [<-|Hij].
    + rewrite !list_lookup_alter_eq, Hq. simpl. by rewrite Hb.
    + by rewrite !list_lookup_alter_ne.
Qed.

(** ** sched, sleep, yield *)
Lemma wp_curproc p Q s : k_cur s = Some p -> Q p s -> wpc R C curproc Q s.
Proof. intros Hc HQ. unfold curproc, myproc. wp_step. wp_step. rewrite Hc. by apply wp_ret. Qed.

Lemma wp_sched p Q s :
  k_cur s = Some p -> k_held s = [L_proc p] -> p_state (proc_of s p) <> RUNNING ->
  C s -> (forall s', R s s' -> C s' /\ Q tt s') -> wpc R C sched Q s.
Proof.
  intros Hc Hh Hst HC HQ. unfold sched, getp. wp_step. apply (wp_curproc p); [done|].
  wp_step. wp_step. unfold holding. rewrite Hh, bool_decide_eq_true_2 by left. simpl negb. cbv iota.
  wp_step. wp_step. rewrite Hh. simpl. wp_step. wp_step.
  rewrite bool_decide_eq_false_2 by done. by apply wp_swtch.
Qed.

(** The state in which a thread that sleeps on [ch] gives up the CPU, and the
    state in which sleep returns when it resumes in [s']. *)
Definition asleep (p : nat) (ch : channel) (s : kstate) : kstate :=
  set_held (fun _ => [L_proc p])
    (set_proc (alter (fun r => set_p_state SLEEPING (set_p_chan ch r)) p) s).
Definition awake (p : nat) (lk : lockid) (s : kstate) : kstate :=
  set_held (fun _ => [lk]) (set_proc (alter (set_p_chan Ch_zero) p) s).

Lemma wp_sleep p lk ch Q s :
  k_cur s = Some p -> k_held s = [lk] -> lk <> L_proc p -> (p < length (k_proc s))%nat ->
  C (asleep p ch s) ->
  (forall s', R (asleep p ch s) s' -> C s' /\ k_held s' = [L_proc p] /\ Q tt (awake p lk s')) ->
  wpc R C (sleep ch lk) Q s.
Proof.
  intros Hc Hh Hne Hp HC HQ. unfold sleep. wp_step. apply (wp_curproc p); [done|].
  wp_step. apply wp_acquire; [rewrite Hh, list_elem_of_singleton; congruence|]. wp_step.
  apply wp_release; [simpl; rewrite Hh; right; left|]. unfold modp. do 4 wp_step. wp_step.
  set (s1 := set_proc _ _).
  assert (E1 : s1 = asleep p ch s).
  { unfold s1, asleep, set_proc, set_held. simpl. f_equal.
    - rewrite Hh, held_rem_cons_ne by done. unfold held_rem.
      by rewrite filter_cons_False by naive_solver.
    - by rewrite alter_alter. }
  rewrite E1. apply (wp_sched p); [done | done | | done |].
  { unfold asleep. unfold proc_of. simpl. rewrite list_lookup_alter_eq.
    by destruct (lookup_lt_is_Some_2 _ _ Hp) as [q ->]. }
  intros s' HR. destruct (HQ s' HR) as (HC' & Hh' & HQ'). split; [done|].
  wp_step. wp_step. wp_step. eapply wp_release_last; [simpl; exact Hh' | apply not_elem_of_nil |].
  apply wp_acquire; [apply not_elem_of_nil|].
  unfold awake in HQ'. unfold set_held, set_proc in *. simpl in *. done.
Qed.

(** ** kill *)
Lemma wp_kill pid Q s :
  no_plock s -> length (k_proc s) = NPROC ->
  (forall i, (i < NPROC)%nat -> p_pid (proc_of s i) = pid ->
     (forall j, (j < i)%nat -> p_pid (proc_of s j) <> pid) ->
     Q 0 (set_proc (alter (fun p => set_p_state (if bool_decide (p_state p = SLEEPING) then RUNNABLE else p_state p)
            (set_p_killed true p)) i) s)) ->
  ((forall j, (j < NPROC)%nat -> p_pid (proc_of s j) <> pid) -> Q (-1) s) ->
  wpc R C (kill pid) Q s.
Proof.
  intros Hno Hlen HS HF. unfold kill, getp. wp_step.
  apply (wp_scan _ (fun l s' => exists n, l = seq n (NPROC - n) /\ (n <= NPROC)%nat /\ s' = s /\
    forall j, (j < n)%nat -> p_pid (proc_of s j) <> pid)).
  - exists 0%nat. split_and!; [done | lia | done | lia].
  - intros i l s' (n & Hl & Hn & -> & Hpre).
    destruct (NPROC - n)%nat as [|k] eqn:Ek; [done|]. simpl in Hl. injection Hl as -> ->.
    wp_step. apply wp_acquire; [apply Hno|]. wp_step. wp_step.
    change (proc_of (set_held _ s) n) with (proc_of s n).
    destruct (Z.eqb_spec (p_pid (proc_of s n)) pid) as [He|Hne].
    + unfold modp. wp_step. wp_step. wp_step.
      assert (Hlt : (n < length (k_proc s))%nat) by lia.
      destruct (lookup_lt_is_Some_2 _ _ Hlt) as [q Hq].
      assert (Hq' : proc_of s n = q) by (unfold proc_of; by rewrite Hq). rewrite Hq'.
      apply wp_when; intros Hb; [wp_step|];
        (wp_step; eapply wp_release_last; [reflexivity | apply Hno |]; do 2 wp_step; simpl default;
         specialize (HS n ltac:(lia) He Hpre); revert HS; unfold set_proc, set_held; simpl;
         intros HS; eapply eq_ind; [exact HS|]; f_equal; apply list_eq; intros j;
         destruct (decide (n = j)) as [<-|Hnj];
         [rewrite !list_lookup_alter_eq, Hq; simpl; by rewrite Hb | by rewrite !list_lookup_alter_ne]).
    + wp_step. eapply wp_release_last; [reflexivity | apply Hno |]. wp_step.
      exists (S n). split_and!; [f_equal; lia | lia | by destruct s |].
      intros j Hj. destruct (decide (j = n)) as [->|]; [done | apply Hpre; lia].
  - intros s' (n & Hl & Hn & -> & Hpre). wp_step. apply HF.
    assert (n = NPROC) as -> by (destruct (NPROC - n)%nat eqn:E; [lia|done]). done.
Qed.

Lemma wp_allocpid Q s :
  L_pid ∉ k_held s -> Q (k_nextpid s) (set_nextpid (fun n => s32 (n + 1)) s) -> wpc R C allocpid Q s.
Proof.
  intros Hh HQ. unfold allocpid. wp_step. apply wp_acquire; [done|]. do 4 wp_step. wp_step.
  eapply wp_release_last; [reflexivity | done |]. wp_step. exact HQ.
Qed.

End SchedSpec.
