(* ===== verification/Sleeplock.v ===== *)
(** * kernel/sleeplock.c: long-term locks

    The sleep locks of the kernel are those of the buffers and of the in-memory
    inodes; [slref] names one. *)
From S2P Require Import Prelude Memory State Kalloc Vm Sched SchedSpec.

Inductive slref := SL_buf (i : nat) | SL_inode (i : nat).

Definition sl_lock (r : slref) : lockid :=
  match r with SL_buf i => L_buf i | SL_inode i => L_inode i end.
Definition sl_chan (r : slref) : channel :=
  match r with SL_buf i => Ch_buflock i | SL_inode i => Ch_inodelock i end.

(** ** Buffers and inodes by index *)
Definition buf_of (s : kstate) (i : nat) : buf := default buf0 (bc_buf (k_bcache s) !! i).
Definition upd_buf (i : nat) (f : buf -> buf) (s : kstate) : kstate :=
  set_bcache (fun bc => set_bc_buf (alter f i (bc_buf bc)) bc) s.
Definition inode_of (s : kstate) (i : nat) : inode := default inode0 (k_itable s !! i).
Definition upd_inode (i : nat) (f : inode -> inode) (s : kstate) : kstate :=
  set_itable (alter f i) s.

Definition getb (i : nat) : KM buf := gets (fun s => buf_of s i).
Definition modb (i : nat) (f : buf -> buf) : KM unit := modify (upd_buf i f).
Definition geti (i : nat) : KM inode := gets (fun s => inode_of s i).
Definition modi (i : nat) (f : inode -> inode) : KM unit := modify (upd_inode i f).

Definition sl_of (s : kstate) (r : slref) : sleeplock :=
  match r with SL_buf i => b_lock (buf_of s i) | SL_inode i => i_lock (inode_of s i) end.
Definition sl_set (r : slref) (l : sleeplock) (s : kstate) : kstate :=
  match r with
  | SL_buf i => upd_buf i (set_b_lock l) s
  | SL_inode i => upd_inode i (set_i_lock l) s
  end.

Section Sleeplock.
Context `{KI : KernelImage}.

Definition initsleeplock (lk : slref) : KM unit := modify (sl_set lk (mkSleeplock false 0)).

Definition acquiresleep (lk : slref) : KM unit :=
  acquire (sl_lock lk);;;
  loop (fun _ =>
    let* l := gets (fun s => sl_of s lk) in
    if sl_locked l then sleep (sl_chan lk) (sl_lock lk);;; ret (inl tt)
    else ret (inr tt)) tt;;;
  let* p := curproc in
  let* pr := getp p in
  modify (sl_set lk (mkSleeplock true (p_pid pr)));;;
  release (sl_lock lk).

Definition releasesleep (lk : slref) : KM unit :=
  acquire (sl_lock lk);;;
  modify (sl_set lk (mkSleeplock false 0));;;
  wakeup (sl_chan lk);;;
  release (sl_lock lk).

Definition holdingsleep (lk : slref) : KM bool :=
  acquire (sl_lock lk);;;
  let* l := gets (fun s => sl_of s lk) in
  let* r := (if sl_locked l then
               let* p := curproc in
               let* pr := getp p in
               ret (sl_pid l =? p_pid pr)
             else ret false) in
  release (sl_lock lk);;;
  ret r.

(** ** Laws *)
Context {R : kstate -> kstate -> Prop} {C : kstate -> Prop}.

Lemma sl_of_held r f s : sl_of (set_held f s) r = sl_of s r.
Proof. by destruct r. Qed.

Lemma sl_lock_proc r i : sl_lock r <> L_proc i.
Proof. by destruct r. Qed.

(** An uncontended lock is taken at once. *)
Lemma wp_acquiresleep r p Q s :
  sl_lock r ∉ k_held s -> k_cur s = Some p -> sl_locked (sl_of s r) = false ->
  Q tt (sl_set r (mkSleeplock true (p_pid (proc_of s p))) s) ->
  wpc R C (acquiresleep r) Q s.
Proof.
  intros Hh Hc Hf HQ. unfold acquiresleep. wp_step. apply wp_acquire; [done|]. wp_step.
  apply (wp_loop _ (fun _ s' => s' = set_held (cons (sl_lock r)) s) (fun _ _ => 0)); [|done|lia].
  intros _ s' ->. wp_step. wp_step. rewrite sl_of_held, Hf. wp_step.
  wp_step. apply (wp_curproc p); [done|]. unfold getp. do 4 wp_step.
  eapply wp_release_last; [by destruct r | done |].
  change (proc_of (set_held _ s) p) with (proc_of s p).
  destruct r; exact HQ.
Qed.

Lemma wp_holdingsleep r p Q s :
  sl_lock r ∉ k_held s -> k_cur s = Some p ->
  Q (sl_locked (sl_of s r) && (sl_pid (sl_of s r) =? p_pid (proc_of s p))) s ->
  wpc R C (holdingsleep r) Q s.
Proof.
  intros Hh Hc HQ. unfold holdingsleep. wp_step. apply wp_acquire; [done|]. do 3 wp_step.
  rewrite sl_of_held. destruct (sl_locked (sl_of s r)); simpl in HQ.
  - wp_step. apply (wp_curproc p); [done|]. unfold getp. do 4 wp_step.
    eapply wp_release_last; [reflexivity | done |]. wp_step. destruct s; exact HQ.
  - do 2 wp_step. eapply wp_release_last; [reflexivity | done |]. wp_step. destruct s; exact HQ.
Qed.

Lemma wp_releasesleep r Q s :
  sl_lock r ∉ k_held s -> no_plock s -> length (k_proc s) = NPROC ->
  Q tt (set_proc (imap (woken (sl_chan r) (k_cur s))) (sl_set r (mkSleeplock false 0) s)) ->
  wpc R C (releasesleep r) Q s.
Proof.
  intros Hh Hno Hlen HQ. unfold releasesleep. wp_step. apply wp_acquire; [done|]. do 3 wp_step.
  apply wp_wakeup.
  - intros i. destruct r; simpl; rewrite elem_of_cons; intros [?|H]; try done; by apply Hno in H.
  - by destruct r.
  - eapply wp_release_last; [by destruct r | done |]. destruct r; exact HQ.
Qed.

End Sleeplock.
