(* ===== verification/Virtio.v ===== *)
(** * kernel/virtio_disk.c: the disk driver

    The descriptor table, the two rings and the driver's books are one record,
    [vdisk].  The device itself is not code of the repository: [VirtioDevice] is
    what it does when it serves a request, with the part of the virtio
    specification the driver relies on as its law. *)
From S2P Require Import Prelude Memory State Kalloc Vm Sched SchedSpec Sleeplock.

Definition NUM : nat := 8.
Definition VRING_DESC_F_NEXT : Z := 1.
Definition VRING_DESC_F_WRITE : Z := 2.
Definition VIRTIO_BLK_T_IN : Z := 0.
Definition VIRTIO_BLK_T_OUT : Z := 1.

Definition desc0 : vdesc := mkVdesc A_null 0 0 0.
Definition vd_desc_at (v : vdisk) (i : nat) : vdesc := default desc0 (vd_desc v !! i).
Definition vd_free_at (v : vdisk) (i : nat) : bool := default false (vd_free v !! i).
(** Position of a ring index. *)
Definition slot (idx : Z) : nat := Z.to_nat (idx mod Z.of_nat NUM).

Section Virtio.
Context `{KI : KernelImage}.

Definition modv (f : vdisk -> vdisk) : KM unit := modify (set_vdisk f).
Definition set_desc (i : nat) (d : vdesc) : KM unit := modv (fun v => set_vd_desc (<[i := d]> (vd_desc v)) v).
Definition set_free (i : nat) (b : bool) : KM unit := modv (fun v => set_vd_free (<[i := b]> (vd_free v)) v).

(** The registers are read through [rd]; the result is the list of register
    writes, in order. *)
Definition virtio_disk_init (rd : Z -> Z) (pages : Z) : KM (list (Z * Z)) :=
  if negb (rd 0x000 =? 0x74726976) || negb (rd 0x004 =? 1) || negb (rd 0x008 =? 2)
     || negb (rd 0x00c =? 0x554d4551)
  then panic "could not find virtio disk"
  else
    let features := fold_left (fun f b => Z.land f (Z.lnot (Z.shiftl 1 b)))
                      [5; 7; 11; 12; 27; 29; 28] (rd 0x010) in
    let max := rd 0x034 in
    if max =? 0 then panic "virtio disk has no queue 0"
    else if max <? Z.of_nat NUM then panic "virtio disk max queue too short"
    else
      modv (fun v => set_vd_desc (replicate NUM desc0) (set_vd_avail_idx 0
              (set_vd_avail_ring (replicate NUM 0%nat) (set_vd_used_didx 0
              (set_vd_used_ring (replicate NUM 0%nat) v)))));;;
      for_each (seq 0 NUM) (fun i => set_free i true);;;
      ret [(0x070, 1); (0x070, 3); (0x020, u32 features); (0x070, 11); (0x070, 15); (0x028, PGSIZE);
           (0x030, 0); (0x038, Z.of_nat NUM); (0x040, u32 (Z.shiftr pages 12))].

Definition alloc_desc : KM (option nat) :=
  scan (seq 0 NUM) (fun i =>
    let* v := gets (fun s => k_vdisk s) in
    if vd_free_at v i then set_free i false;;; ret (Some i) else ret None).

Definition free_desc (i : nat) : KM unit :=
  if (NUM <=? i)%nat then panic "free_desc 1"
  else
    let* v := gets (fun s => k_vdisk s) in
    if vd_free_at v i then panic "free_desc 2"
    else
      set_desc i desc0;;;
      set_free i true;;;
      wakeup Ch_disk_free.

Definition free_chain (i : nat) : KM unit :=
  loop (fun i =>
    let* v := gets (fun s => k_vdisk s) in
    let flag := d_flags (vd_desc_at v i) in
    let nxt := d_next (vd_desc_at v i) in
    free_desc i;;;
    if has flag VRING_DESC_F_NEXT then ret (inl nxt) else ret (inr tt)) i.

(** [None] is the return value -1; the descriptors taken so far are free again. *)
Definition alloc3_desc : KM (option (nat * nat * nat)) :=
  let* i0 := alloc_desc in
  match i0 with
  | None => ret None
  | Some i0 =>
      let* i1 := alloc_desc in
      match i1 with
      | None => free_desc i0;;; ret None
      | Some i1 =>
          let* i2 := alloc_desc in
          match i2 with
          | None => free_desc i0;;; free_desc i1;;; ret None
          | Some i2 => ret (Some (i0, i1, i2))
          end
      end
  end.

Definition virtio_disk_rw (b : nat) (write : bool) : KM unit :=
  let* bf := getb b in
  let sector := u32 (b_blockno bf * (BSIZE / 512)) in
  acquire L_vdisk;;;
  let* idx := loop (fun _ =>
    let* r := alloc3_desc in
    match r with
    | Some idx => ret (inr idx)
    | None => sleep Ch_disk_free L_vdisk;;; ret (inl tt)
    end) tt in
  let '(i0, i1, i2) := idx in
  modv (fun v => set_vd_ops (<[i0 := mkVop (if write then VIRTIO_BLK_T_OUT else VIRTIO_BLK_T_IN) 0 sector]>
                               (vd_ops v)) v);;;
  set_desc i0 (mkVdesc (A_op i0) 16 VRING_DESC_F_NEXT i1);;;
  set_desc i1 (mkVdesc (A_data b) BSIZE
                 (Z.lor (if write then 0 else VRING_DESC_F_WRITE) VRING_DESC_F_NEXT) i2);;;
  modv (fun v => set_vd_info_status (<[i0 := 0xff]> (vd_info_status v)) v);;;
  set_desc i2 (mkVdesc (A_status i0) 1 VRING_DESC_F_WRITE 0);;;
  modb b (set_b_disk true);;;
  modv (fun v => set_vd_info_b (<[i0 := Some b]> (vd_info_b v)) v);;;
  modv (fun v => set_vd_avail_ring (<[slot (vd_avail_idx v) := i0]> (vd_avail_ring v)) v);;;
  modv (fun v => set_vd_avail_idx (u16 (vd_avail_idx v + 1)) v);;;
  (* *R(VIRTIO_MMIO_QUEUE_NOTIFY) = 0: from here on the device may serve it *)
  loop (fun _ =>
    let* bf := getb b in
    if b_disk bf then sleep (Ch_buf b) L_vdisk;;; ret (inl tt) else ret (inr tt)) tt;;;
  modv (fun v => set_vd_info_b (<[i0 := None]> (vd_info_b v)) v);;;
  free_chain i0;;;
  release L_vdisk.

Definition virtio_disk_intr : KM unit :=
  acquire L_vdisk;;;
  loop (fun _ =>
    let* v := gets (fun s => k_vdisk s) in
    if vd_used_idx v =? vd_used_didx v then ret (inr tt)
    else
      let id := default 0%nat (vd_used_ring v !! slot (vd_used_idx v)) in
      if negb (default 0 (vd_info_status v !! id) =? 0) then panic "virtio_disk_intr status"
      else
        let* b := deref (default None (vd_info_b v !! id)) in
        modb b (set_b_disk false);;;
        wakeup (Ch_buf b);;;
        modv (fun v => set_vd_used_idx (u16 (vd_used_idx v + 1)) v);;;
        ret (inl tt)) tt;;;
  release L_vdisk.

(** ** The device *)

Definition disk_block (s : kstate) (bn : Z) : block := default zblock (k_disk s !! bn).

(** What serving the chain [i0 -> i1 -> i2] does: transfer two sectors between
    the disk and the buffer, write a zero status, push the head on the used
    ring. *)
Definition transfer (b : nat) (write : bool) (bn : Z) (s : kstate) : kstate :=
  if write then set_disk (<[bn := b_data (buf_of s b)]>) s
  else upd_buf b (set_b_data (disk_block s bn)) s.
Definition complete_req (i0 : nat) (v : vdisk) : vdisk :=
  set_vd_info_status (<[i0 := 0]> (vd_info_status v))
    (set_vd_used_ring (<[slot (vd_used_didx v) := i0]> (vd_used_ring v))
      (set_vd_used_didx (u16 (vd_used_didx v + 1)) (set_vd_seen (u16 (vd_seen v + 1)) v))).

Class VirtioDevice := vdev : kstate -> kstate.

(** A request the device finds next in the avail ring. *)
Definition request (v : vdisk) (i0 i1 i2 b : nat) (write : bool) (sector : Z) : Prop :=
  vd_avail_idx v = u16 (vd_seen v + 1) /\
  vd_avail_ring v !! slot (vd_seen v) = Some i0 /\
  vd_desc v !! i0 = Some (mkVdesc (A_op i0) 16 VRING_DESC_F_NEXT i1) /\
  vd_ops v !! i0 = Some (mkVop (if write then VIRTIO_BLK_T_OUT else VIRTIO_BLK_T_IN) 0 sector) /\
  vd_desc v !! i1 = Some (mkVdesc (A_data b) BSIZE
    (Z.lor (if write then 0 else VRING_DESC_F_WRITE) VRING_DESC_F_NEXT) i2) /\
  vd_desc v !! i2 = Some (mkVdesc (A_status i0) 1 VRING_DESC_F_WRITE 0).

Class VirtioDeviceOk `{VirtioDevice} : Prop :=
  vdev_serves : forall s i0 i1 i2 b write bn,
    request (k_vdisk s) i0 i1 i2 b write (2 * bn) ->
    vdev s = set_vdisk (complete_req i0) (transfer b write bn s).

End Virtio.
