(* ===== verification/VirtioSpec.v ===== *)
(** * The disk driver as its callers see it

    virtio_disk_rw, run by a process while the disk and the scheduler are the
    only other activity, transfers exactly the buffer's block and leaves the
    driver idle again. *)
From S2P Require Import Prelude Memory State Kalloc Vm Sched SchedSpec Sleeplock Virtio.

(** No request in flight. *)
Record idle (v : vdisk) : Prop := {
  id_desc : length (vd_desc v) = NUM;
  id_avail : length (vd_avail_ring v) = NUM;
  id_used : length (vd_used_ring v) = NUM;
  id_info : length (vd_info_b v) = NUM;
  id_status : length (vd_info_status v) = NUM;
  id_ops : length (vd_ops v) = NUM;
  id_free : vd_free v = replicate NUM true;
  id_seen : vd_avail_idx v = vd_seen v /\ 0 <= vd_seen v < 2 ^ 16;
  id_done : vd_used_idx v = vd_used_didx v /\ 0 <= vd_used_idx v < 2 ^ 16
}.

Lemma slot_lt i : (slot i < NUM)%nat.
Proof. unfold slot, NUM. zmod. Qed.

Lemma u16_succ i : 0 <= i < 2 ^ 16 -> u16 (i + 1) <> i /\ 0 <= u16 (i + 1) < 2 ^ 16.
Proof. unfold u16, wrap. change (2 ^ 16) with 65536. intros. zmod. Qed.

Section Driver.
Context `{KI : KernelImage}.

(** The process [p] runs kernel code, holds no spinlock, and the disk is idle. *)
Record seq_ok (p : nat) (s : kstate) : Prop := {
  so_cur : k_cur s = Some p;
  so_held : k_held s = [];
  so_len : length (k_proc s) = NPROC;
  so_p : (p < NPROC)%nat;
  so_run : p_state (proc_of s p) = RUNNING;
  so_chan : p_chan (proc_of s p) = Ch_zero;
  so_disk : idle (k_vdisk s)
}.

(** Only the buffers, the disk, the driver's books and the state of other
    processes changed. *)
Definition rest_eq (p : nat) (s s' : kstate) : Prop :=
  exists ps vd bc dk, ps !! p = k_proc s !! p /\
    s' = set_proc (fun _ => ps) (set_vdisk (fun _ => vd) (set_bcache (fun _ => bc) (set_disk (fun _ => dk) s))).

#[global] Instance rest_eq_preorder p : PreOrder (rest_eq p).
Proof.
  split.
  - intros s. exists (k_proc s), (k_vdisk s), (k_bcache s), (k_disk s). by destruct s.
  - intros s1 s2 s3 (ps1 & vd1 & bc1 & dk1 & E1 & ->) (ps2 & vd2 & bc2 & dk2 & E2 & ->).
    exists ps2, vd2, bc2, dk2. split; [by rewrite E2|done].
Qed.

(** ** The rely: the process is switched out, the device serves its request, the
    interrupt handler runs in the scheduler, the process is switched in. *)
Definition sched_out (s : kstate) : kstate := set_cur (fun _ => None) (set_held (fun _ => []) s).
Definition sched_in (p : nat) (s : kstate) : kstate :=
  set_cur (fun _ => Some p) (set_held (fun _ => [L_proc p]) (set_proc (alter (set_p_state RUNNING) p) s)).
Definition seq_rely `{VirtioDevice} (p : nat) (s s' : kstate) : Prop :=
  exists s1, virtio_disk_intr (sched_out (vdev s)) = Ret tt s1 /\
    p_state (proc_of s1 p) = RUNNABLE /\ s' = sched_in p s1.

(** ** Descriptors *)
Context {R : kstate -> kstate -> Prop} {C : kstate -> Prop}.

Definition free3 : list bool := [false; false; false; true; true; true; true; true].

Lemma wp_alloc3_desc Q s :
  vd_free (k_vdisk s) = replicate NUM true ->
  Q (Some (0%nat, 1%nat, 2%nat)) (set_vdisk (set_vd_free free3) s) ->
  wpc R C alloc3_desc Q s.
Proof.
  intros Hf HQ. unfold alloc3_desc, alloc_desc. cbn [seq NUM scan]. unfold set_free, modv.
  repeat (wp_step || (unfold vd_free_at; simpl k_vdisk; simpl vd_free; rewrite Hf; simpl)).
  replace (set_vdisk _ _) with (set_vdisk (set_vd_free free3) s); [done|].
  unfold set_vdisk. simpl. rewrite Hf. done.
Qed.

Lemma wp_free_desc i Q s :
  no_plock s -> length (k_proc s) = NPROC -> (i < NUM)%nat -> vd_free_at (k_vdisk s) i = false ->
  Q tt (set_proc (imap (woken Ch_disk_free (k_cur s)))
         (set_vdisk (fun v => set_vd_free (<[i := true]> (vd_free v))
                                (set_vd_desc (<[i := desc0]> (vd_desc v)) v)) s)) ->
  wpc R C (free_desc i) Q s.
Proof.
  intros Hno Hlen Hi Hf HQ. unfold free_desc. rewrite (proj2 (Nat.leb_gt NUM i)) by lia.
  wp_step. wp_step. rewrite Hf. unfold set_desc, set_free, modv. do 4 wp_step.
  by apply wp_wakeup.
Qed.

(** The process that wakes others up is not touched itself. *)
Lemma woken_self ch p (l : list proc) : imap (woken ch (Some p)) l !! p = l !! p.
Proof.
  rewrite list_lookup_imap. destruct (l !! p) as [q|]; [|done]. simpl. unfold woken.
  by rewrite bool_decide_eq_false_2 by naive_solver.
Qed.

Definition freed3 (v : vdisk) : vdisk :=
  set_vd_free (replicate NUM true)
    (set_vd_desc (<[2%nat := desc0]> (<[1%nat := desc0]> (<[0%nat := desc0]> (vd_desc v)))) v).

Lemma wp_free_chain p Q s f1 :
  no_plock s -> length (k_proc s) = NPROC -> k_cur s = Some p ->
  vd_free (k_vdisk s) = free3 -> length (vd_desc (k_vdisk s)) = NUM ->
  (exists a l, vd_desc (k_vdisk s) !! 0%nat = Some (mkVdesc a l VRING_DESC_F_NEXT 1)) ->
  (exists a l, vd_desc (k_vdisk s) !! 1%nat = Some (mkVdesc a l f1 2)) -> has f1 VRING_DESC_F_NEXT = true ->
  (exists a l n, vd_desc (k_vdisk s) !! 2%nat = Some (mkVdesc a l VRING_DESC_F_WRITE n)) ->
  (forall ps, length ps = NPROC -> ps !! p = k_proc s !! p ->
     Q tt (set_proc (fun _ => ps) (set_vdisk freed3 s))) ->
  wpc R C (free_chain 0) Q s.
Proof.
  intros Hno Hlen Hc Hf Hl (a0 & l0 & H0) (a1 & l1 & H1) Hn1 (a2 & l2 & n2 & H2) HQ.
  destruct (k_vdisk s) as [desc ai ar ud ur fr ui ib is_ ops seen] eqn:Ev. simpl in *. subst fr.
  unfold free_chain.
  set (I := fun (i : nat) s' =>
    (i <= 2)%nat /\ exists ps, length ps = NPROC /\ ps !! p = k_proc s !! p /\
    s' = set_proc (fun _ => ps) (set_vdisk (fun v =>
           set_vd_free (replicate i true ++ drop i free3) (set_vd_desc (replicate i desc0 ++ drop i desc) v)) s)).
  apply (wp_loop _ I (fun i _ => 2 - Z.of_nat i)).
  2: { split; [lia|]. exists (k_proc s). split_and!; [done..|]. clear - Ev. destruct s. simpl in *.
       rewrite Ev. reflexivity. }
  2: { lia. }
  intros i s' (Hi & ps & Hps & Hp & ->). unfold vd_desc_at. wp_step. wp_step. wp_step.
  change (k_vdisk (set_proc _ (set_vdisk ?f s))) with (f (k_vdisk s)). cbv beta. rewrite Ev. simpl vd_desc.
  assert (Hd : forall k, (i <= k)%nat -> (replicate i desc0 ++ drop i desc) !! k = desc !! k).
  { intros k Hk. rewrite lookup_app_r by (rewrite length_replicate; lia).
    rewrite length_replicate, lookup_drop. f_equal. lia. }
  apply wp_free_desc.
  - done.
  - done.
  - unfold NUM; lia.
  - unfold vd_free_at. simpl. rewrite lookup_app_r by (rewrite length_replicate; lia).
    rewrite length_replicate, Nat.sub_diag, lookup_drop, Nat.add_0_r.
    destruct i as [|[|[|i]]]; [done..|lia].
  - rewrite Hd by lia. simpl k_cur. rewrite Hc.
    assert (Hins : forall {A} (x : A) (l : list A), (i < length l)%nat ->
      forall y, <[i := y]> (replicate i x ++ drop i l) = replicate i x ++ y :: drop (S i) l).
    { intros A x l Hil y. destruct (lookup_lt_is_Some_2 l i Hil) as [z Hz]. rewrite (drop_S _ _ _ Hz).
      rewrite insert_app_r_alt by (rewrite length_replicate; lia). by rewrite length_replicate, Nat.sub_diag. }
    assert (HI : forall ps', length ps' = NPROC -> ps' !! p = k_proc s !! p ->
      set_proc (imap (woken Ch_disk_free (Some p)))
        (set_vdisk (fun v => set_vd_free (<[i := true]> (vd_free v)) (set_vd_desc (<[i := desc0]> (vd_desc v)) v))
          (set_proc (fun _ => ps') (set_vdisk (fun v =>
           set_vd_free (replicate i true ++ drop i free3) (set_vd_desc (replicate i desc0 ++ drop i desc) v)) s))) =
      set_proc (fun _ => imap (woken Ch_disk_free (Some p)) ps') (set_vdisk (fun v =>
           set_vd_free (replicate (S i) true ++ drop (S i) free3) (set_vd_desc (replicate (S i) desc0 ++ drop (S i) desc) v)) s)).
    { intros ps' _ _. unfold set_proc, set_vdisk. simpl. f_equal. unfold set_vd_free, set_vd_desc. simpl.
      assert (Hrep : forall A (x : A) l, replicate i x ++ x :: l = x :: replicate i x ++ l).
      { clear. intros A x l. induction i as [|i IH]; simpl; [done|]. by rewrite IH. }
      rewrite !Hins by (simpl; unfold NUM in *; lia). by rewrite !Hrep. }
    rewrite HI by done. clear HI.
    assert (Hps' : length (imap (woken Ch_disk_free (Some p)) ps) = NPROC) by (by rewrite length_imap).
    assert (Hp' : imap (woken Ch_disk_free (Some p)) ps !! p = k_proc s !! p) by (by rewrite woken_self).
    destruct i as [|[|[|i]]]; [| | |lia].
    + rewrite H0. simpl. split; [split; [lia|] | lia]. eexists. split_and!; [exact Hps' | exact Hp' | done].
    + rewrite H1. cbn [from_option id d_flags d_next]. rewrite Hn1. wp_step. split; [split; [lia|] | lia].
      eexists. split_and!; [exact Hps' | exact Hp' | done].
    + rewrite H2. simpl.
      replace (set_proc _ _) with (set_proc (fun _ => imap (woken Ch_disk_free (Some p)) ps) (set_vdisk freed3 s)).
      { by apply HQ. }
      unfold set_proc, set_vdisk. simpl. f_equal. rewrite Ev. unfold freed3, set_vd_free, set_vd_desc. simpl. f_equal.
      destruct desc as [|? [|? [|? ?]]]; done.
Qed.

(** ** The interrupt handler, with one completed request to look at *)
Lemma wp_virtio_disk_intr b i0 Q s :
  let v := k_vdisk s in
  no_plock s -> length (k_proc s) = NPROC -> L_vdisk ∉ k_held s ->
  0 <= vd_used_idx v < 2 ^ 16 -> vd_used_didx v = u16 (vd_used_idx v + 1) ->
  vd_used_ring v !! slot (vd_used_idx v) = Some i0 ->
  vd_info_status v !! i0 = Some 0 -> vd_info_b v !! i0 = Some (Some b) ->
  Q tt (set_vdisk (fun v => set_vd_used_idx (vd_used_didx v) v)
         (set_proc (imap (woken (Ch_buf b) (k_cur s))) (upd_buf b (set_b_disk false) s))) ->
  wpc R C virtio_disk_intr Q s.
Proof.
  intros v Hno Hlen Hh Hu Hd Hr Hs Hb HQ. subst v. unfold virtio_disk_intr. wp_step. apply wp_acquire; [done|].
  set (s1 := set_held (cons L_vdisk) s).
  set (s2 := set_vdisk (fun v => set_vd_used_idx (vd_used_didx v) v)
         (set_proc (imap (woken (Ch_buf b) (k_cur s))) (upd_buf b (set_b_disk false) s1))).
  wp_step.
  apply (wp_loop _ (fun _ s' => s' = s1 \/ s' = s2)
    (fun _ s' => if vd_used_idx (k_vdisk s') =? vd_used_didx (k_vdisk s') then 0 else 1)).
  2: { by left. }
  2: { destruct (_ =? _); lia. }
  destruct (u16_succ _ Hu) as [Hne _].
  intros _ s' [->| ->]; wp_step; wp_step.
  - change (k_vdisk s1) with (k_vdisk s). rewrite Hd, (proj2 (Z.eqb_neq _ _)) by congruence.
    rewrite Hr. cbn [from_option id]. rewrite Hs. simpl. rewrite Hb. cbn [from_option id deref].
    unfold modb, modv. wp_steps. apply wp_wakeup.
    { intros i. simpl. rewrite elem_of_cons. intros [?|H]; [done | by apply Hno in H]. }
    { done. }
    wp_steps.
    assert (E : set_vdisk (fun v => set_vd_used_idx (u16 (vd_used_idx v + 1)) v)
      (set_proc (imap (woken (Ch_buf b) (k_cur (upd_buf b (set_b_disk false) s1)))) (upd_buf b (set_b_disk false) s1)) = s2).
    { unfold s2, set_vdisk. simpl. by rewrite Hd. }
    rewrite E. split; [by right|]. unfold s2. simpl. rewrite Z.eqb_refl. lia.
  - unfold s2 at 1 2. simpl. rewrite Z.eqb_refl. wp_step.
    eapply wp_release_last; [reflexivity | done |]. exact HQ.
Qed.

(** ** virtio_disk_rw *)

(** The descriptors and rings once the request is published. *)
Definition submitted (b : nat) (write : bool) (sector : Z) (v : vdisk) : vdisk :=
  let v := set_vd_free free3 v in
  let v := set_vd_ops (<[0%nat := mkVop (if write then VIRTIO_BLK_T_OUT else VIRTIO_BLK_T_IN) 0 sector]> (vd_ops v)) v in
  let v := set_vd_desc (<[0%nat := mkVdesc (A_op 0) 16 VRING_DESC_F_NEXT 1]> (vd_desc v)) v in
  let v := set_vd_desc (<[1%nat := mkVdesc (A_data b) BSIZE
             (Z.lor (if write then 0 else VRING_DESC_F_WRITE) VRING_DESC_F_NEXT) 2]> (vd_desc v)) v in
  let v := set_vd_info_status (<[0%nat := 0xff]> (vd_info_status v)) v in
  let v := set_vd_desc (<[2%nat := mkVdesc (A_status 0) 1 VRING_DESC_F_WRITE 0]> (vd_desc v)) v in
  let v := set_vd_info_b (<[0%nat := Some b]> (vd_info_b v)) v in
  let v := set_vd_avail_ring (<[slot (vd_avail_idx v) := 0%nat]> (vd_avail_ring v)) v in
  set_vd_avail_idx (u16 (vd_avail_idx v + 1)) v.

Lemma submitted_request b write sector v :
  idle v -> request (submitted b write sector v) 0 1 2 b write sector.
Proof.
  intros [Hd Ha Hu Hi Hs Ho Hf [Hse Hsr] Hdn]. unfold request, submitted. simpl.
  split_and!.
  - by rewrite Hse.
  - rewrite Hse. apply list_lookup_insert_eq. rewrite Ha. apply slot_lt.
  - rewrite !list_lookup_insert_ne by done. apply list_lookup_insert_eq. rewrite Hd. unfold NUM. lia.
  - apply list_lookup_insert_eq. rewrite Ho. unfold NUM. lia.
  - rewrite list_lookup_insert_ne by done. apply list_lookup_insert_eq. rewrite length_insert, Hd. unfold NUM. lia.
  - apply list_lookup_insert_eq. rewrite !length_insert, Hd. unfold NUM. lia.
Qed.

(** The driver's books after the request has been served and cleaned up. *)
Definition retired (b : nat) (write : bool) (sector : Z) (v : vdisk) : vdisk :=
  freed3 ((fun v => set_vd_info_b (<[0%nat := None]> (vd_info_b v)) v)
    ((fun v => set_vd_used_idx (vd_used_didx v) v) (complete_req 0 (submitted b write sector v)))).

Lemma retired_idle b write sector v : idle v -> idle (retired b write sector v).
Proof.
  intros [Hd Ha Hu Hi Hs Ho Hf [Hse Hsr] [Hdn Hdr]]. unfold retired, freed3, complete_req, submitted.
  split; simpl; rewrite ?length_insert; try done.
  - rewrite Hse. split; [done|]. by apply u16_succ.
  - split; [done|]. rewrite <- Hdn. by apply u16_succ.
Qed.

End Driver.

Section Rw.
Context `{KI : KernelImage} `{VD : VirtioDevice} `{VDOK : !VirtioDeviceOk}.
Variable P : gmap Z block -> Prop.
Let C (s : kstate) : Prop := P (k_disk s).

(** What the transfer does to the cache and to the disk. *)
Definition rw_buf (b : nat) (write : bool) (s : kstate) : bcache :=
  if write then k_bcache s
  else k_bcache (upd_buf b (set_b_data (disk_block s (b_blockno (buf_of s b)))) s).
Definition rw_disk (b : nat) (write : bool) (s : kstate) : gmap Z block :=
  if write then <[b_blockno (buf_of s b) := b_data (buf_of s b)]> (k_disk s) else k_disk s.

Lemma seq_rely_serve p b write bn s sa s' :
  seq_ok p s -> idle (k_vdisk s) -> (b < length (bc_buf (k_bcache s)))%nat ->
  sa = asleep p (Ch_buf b) (set_vdisk (submitted b write (2 * bn))
         (upd_buf b (set_b_disk true) (set_held (fun _ => [L_vdisk]) s))) ->
  seq_rely p sa s' ->
  exists ps, length ps = NPROC /\
    ps !! p = fmap (fun r => set_p_state RUNNING (set_p_chan (Ch_buf b) r)) (k_proc s !! p) /\
    s' = set_held (fun _ => [L_proc p]) (set_proc (fun _ => ps)
          (set_vdisk (fun v => set_vd_used_idx (vd_used_didx (complete_req 0 (submitted b write (2 * bn) v)))
                                 (complete_req 0 (submitted b write (2 * bn) v)))
            (upd_buf b (set_b_disk false) (transfer b write bn (upd_buf b (set_b_disk true) s))))).
Proof.
  intros [Hc Hh Hl Hp Hr Hch _] Hid Hb -> (s1 & E & _ & ->).
  set (sb := set_vdisk _ _) in E.
  assert (Hreq : request (k_vdisk (asleep p (Ch_buf b) sb)) 0 1 2 b write (2 * bn))
    by (by apply submitted_request).
  rewrite (vdev_serves _ _ _ _ _ _ _ Hreq) in E. set (st := sched_out _) in E.
  assert (Hv : k_vdisk st = complete_req 0 (submitted b write (2 * bn) (k_vdisk s)))
    by (unfold st, transfer; by destruct write).
  assert (Hps : k_proc st = alter (fun r => set_p_state SLEEPING (set_p_chan (Ch_buf b) r)) p (k_proc s))
    by (unfold st, transfer; by destruct write).
  assert (Hst : k_held st = [] /\ k_cur st = None) by done. destruct Hst as [Hsh Hsc].
  destruct Hid as [Xd Xa Xu Xi Xs Xo Xf [Xse Xsr] [Xdn Xdr]].
  destruct (wp_elim virtio_disk_intr (fun _ s' => s' =
    set_vdisk (fun v => set_vd_used_idx (vd_used_didx v) v)
         (set_proc (imap (woken (Ch_buf b) (k_cur st))) (upd_buf b (set_b_disk false) st))) st)
    as ([] & s2 & E2 & ->).
  { apply (wp_virtio_disk_intr b 0).
    - intros i. rewrite Hsh. apply not_elem_of_nil.
    - by rewrite Hps, length_alter.
    - rewrite Hsh. apply not_elem_of_nil.
    - rewrite Hv. done.
    - rewrite Hv. unfold complete_req, submitted. simpl. by rewrite Xdn.
    - rewrite Hv. unfold complete_req, submitted. simpl. rewrite Xdn.
      apply list_lookup_insert_eq. rewrite Xu. apply slot_lt.
    - rewrite Hv. unfold complete_req, submitted. simpl.
      apply list_lookup_insert_eq. rewrite length_insert, Xs. unfold NUM. lia.
    - rewrite Hv. unfold complete_req, submitted. simpl.
      apply list_lookup_insert_eq. rewrite Xi. unfold NUM. lia.
    - done. }
  rewrite E2 in E. injection E as <-.
  exists (alter (set_p_state RUNNING) p (imap (woken (Ch_buf b) None)
    (alter (fun r => set_p_state SLEEPING (set_p_chan (Ch_buf b) r)) p (k_proc s)))).
  split_and!.
  - by rewrite length_alter, length_imap, length_alter.
  - rewrite list_lookup_alter_eq, list_lookup_imap, list_lookup_alter_eq.
    destruct (k_proc s !! p) as [q|]; [|done]. simpl. f_equal. unfold woken. simpl.
    rewrite !bool_decide_eq_true_2 by done. done.
  - unfold sched_in. clear - Hc Hps. destruct write; destruct s; simpl in *; subst; reflexivity.
Qed.

(** The buffer and the disk after the transfer. *)
Lemma served_bcache b write bn s :
  (b < length (bc_buf (k_bcache s)))%nat -> b_disk (buf_of s b) = false -> bn = b_blockno (buf_of s b) ->
  k_bcache (upd_buf b (set_b_disk false) (transfer b write bn (upd_buf b (set_b_disk true) s))) = rw_buf b write s /\
  k_disk (upd_buf b (set_b_disk false) (transfer b write bn (upd_buf b (set_b_disk true) s))) = rw_disk b write s.
Proof.
  intros Hb Hd ->. unfold rw_buf, rw_disk, transfer, buf_of in *.
  destruct (lookup_lt_is_Some_2 _ _ Hb) as [x Hx]. rewrite Hx in Hd. simpl in Hd.
  destruct write; simpl; rewrite ?list_lookup_alter_eq, ?Hx; simpl.
  - split; [|done]. unfold set_bc_buf. simpl. rewrite alter_alter.
    rewrite (alter_ext_at _ (fun y => y)); [by rewrite list_alter_id|].
    intros y Hy. rewrite Hx in Hy. injection Hy as <-. unfold set_b_disk. simpl. by rewrite <- Hd.
  - split; [|done]. unfold set_bc_buf. simpl. rewrite !alter_alter. f_equal.
    apply alter_ext_at. intros y Hy. rewrite Hx in Hy. injection Hy as <-.
    unfold set_b_disk, set_b_data. simpl. by rewrite <- Hd.
Qed.

(** The request is in the rings and the process waits for it. *)
Definition waiting (b : nat) (write : bool) (s : kstate) : kstate :=
  set_vdisk (submitted b write (2 * b_blockno (buf_of s b)))
    (upd_buf b (set_b_disk true) (set_held (fun _ => [L_vdisk]) s)).

(** The interrupt handler has reported the end of the transfer. *)
Definition served (p b : nat) (write : bool) (s s' : kstate) : Prop :=
  exists ps, length ps = NPROC /\ ps !! p = k_proc s !! p /\
  s' = set_held (fun _ => [L_vdisk]) (set_proc (fun _ => ps)
        (set_vdisk (fun v => set_vd_used_idx (vd_used_didx (complete_req 0 (submitted b write (2 * b_blockno (buf_of s b)) v)))
                               (complete_req 0 (submitted b write (2 * b_blockno (buf_of s b)) v)))
          (upd_buf b (set_b_disk false)
            (transfer b write (b_blockno (buf_of s b)) (upd_buf b (set_b_disk true) s))))).

Lemma wp_wait p b write Q s :
  seq_ok p s -> (b < length (bc_buf (k_bcache s)))%nat -> b_disk (buf_of s b) = false ->
  P (k_disk s) -> P (rw_disk b write s) ->
  (forall s', served p b write s s' -> Q tt s') ->
  wpc (seq_rely p) C (loop (fun _ =>
    let* bf := getb b in
    if b_disk bf then sleep (Ch_buf b) L_vdisk;;; ret (inl tt) else ret (inr tt)) tt) Q (waiting b write s).
Proof.
  intros Hok Hb Hbd HP HP' HQ. pose proof Hok as [Hc Hh Hl Hp Hr Hch Hid].
  destruct (served_bcache b write _ s Hb Hbd eq_refl) as [_ Edk].
  destruct (lookup_lt_is_Some_2 _ _ Hb) as [bf Hbf].
  assert (Hfin : forall s', served p b write s s' -> b_disk (buf_of s' b) = false).
  { intros s' (ps & _ & _ & ->). unfold buf_of, transfer. destruct write; simpl;
      rewrite !list_lookup_alter_eq, Hbf; done. }
  apply (wp_loop _ (fun _ s' => s' = waiting b write s \/ served p b write s s')
    (fun _ s' => if b_disk (buf_of s' b) then 1 else 0)); [|by left|by destruct (b_disk (buf_of (waiting b write s) b))].
  intros _ s' [->|Hs]; unfold getb; wp_step; wp_step.
  2: { rewrite (Hfin _ Hs). wp_step. by apply HQ. }
  assert (Hd : b_disk (buf_of (waiting b write s) b) = true)
    by (unfold buf_of, waiting; simpl; by rewrite list_lookup_alter_eq, Hbf).
  rewrite Hd. wp_step. apply (wp_sleep p); [done | done | done | simpl; lia | done |].
  intros s' HR. eapply (seq_rely_serve p b write _ s) in HR as (ps & Hps & Hpp & ->); [|done..|reflexivity].
  rewrite <- Edk in HP'. split; [exact HP'|]. split; [done|]. wp_step.
  set (s2 := awake _ _ _). assert (Hs : served p b write s s2).
  { exists (alter (set_p_chan Ch_zero) p ps). split_and!.
    - by rewrite length_alter.
    - rewrite list_lookup_alter_eq, Hpp. destruct (lookup_lt_is_Some_2 (k_proc s) p) as [q Hq]; [lia|].
      unfold proc_of in Hr, Hch. rewrite Hq in *. simpl in *. f_equal.
      unfold set_p_chan, set_p_state. simpl. by rewrite <- Hr, <- Hch.
    - done. }
  split; [by right|]. rewrite (Hfin _ Hs). lia.
Qed.

Lemma wp_virtio_disk_rw p b write Q s :
  seq_ok p s -> (b < length (bc_buf (k_bcache s)))%nat -> b_disk (buf_of s b) = false ->
  0 <= b_blockno (buf_of s b) < 2 ^ 31 -> P (k_disk s) -> P (rw_disk b write s) ->
  (forall s', seq_ok p s' -> rest_eq p s s' -> k_bcache s' = rw_buf b write s ->
     k_disk s' = rw_disk b write s -> Q tt s') ->
  wpc (seq_rely p) C (virtio_disk_rw b write) Q s.
Proof.
  intros Hok Hb Hbd Hbn HP HP' HQ. pose proof Hok as [Hc Hh Hl Hp Hr Hch Hid].
  destruct (served_bcache b write _ s Hb Hbd eq_refl) as [Ebc Edk].
  unfold virtio_disk_rw, getb. wp_step. wp_step.
  assert (Hsec : u32 (b_blockno (buf_of s b) * (BSIZE / 512)) = 2 * b_blockno (buf_of s b))
    by (change (BSIZE / 512) with 2; rewrite u32_small by lia; lia).
  rewrite Hsec. wp_step. apply wp_acquire; [rewrite Hh; apply not_elem_of_nil|]. wp_step.
  apply (wp_loop _ (fun _ s' => s' = set_held (cons L_vdisk) s) (fun _ _ => 0)); [|done|lia].
  intros _ s' ->. wp_step. apply wp_alloc3_desc; [apply Hid|]. wp_step. unfold set_desc, modv, modb. cbv iota.
  wp_steps. set (sb := set_vdisk _ _).
  assert (Esb : sb = waiting b write s)
    by (unfold sb, waiting; clear - Hh; destruct s; simpl in *; subst; reflexivity).
  clearbody sb. subst sb. apply (wp_wait p); [done..|]. intros s' (ps & Hps & Hpp & ->).
  destruct Hid as [Xd Xa Xu Xi Xs Xo Xf Xse Xdn].
  do 3 wp_step.
  eapply (wp_free_chain p _ _ (Z.lor (if write then 0 else VRING_DESC_F_WRITE) VRING_DESC_F_NEXT)).
  - intros i. simpl. rewrite list_elem_of_singleton. done.
  - done.
  - unfold transfer; by destruct write.
  - unfold transfer; by destruct write.
  - unfold transfer; destruct write; simpl; rewrite !length_insert; done.
  - unfold transfer; destruct write; simpl; rewrite !list_lookup_insert_ne by done; eexists _, _;
      (apply list_lookup_insert_eq; rewrite Xd; unfold NUM; lia).
  - unfold transfer; destruct write; simpl; rewrite list_lookup_insert_ne by done; eexists _, _;
      (apply list_lookup_insert_eq; rewrite length_insert, Xd; unfold NUM; lia).
  - by destruct write.
  - unfold transfer; destruct write; simpl; eexists _, _, _;
      (apply list_lookup_insert_eq; rewrite !length_insert, Xd; unfold NUM; lia).
  - intros ps' Hps' Hpp'. eapply wp_release_last; [reflexivity | apply not_elem_of_nil|].
    set (s' := set_held _ _).
    assert (Ep : k_proc s' = ps' /\ k_bcache s' = rw_buf b write s /\ k_disk s' = rw_disk b write s /\
      k_vdisk s' = retired b write (2 * b_blockno (buf_of s b)) (k_vdisk s) /\
      s' = set_proc (fun _ => k_proc s') (set_vdisk (fun _ => k_vdisk s')
             (set_bcache (fun _ => k_bcache s') (set_disk (fun _ => k_disk s') s)))).
    { rewrite <- Ebc, <- Edk. unfold s', transfer. clear - Hh. destruct write; destruct s; simpl in *; subst; done. }
    clearbody s'. destruct Ep as (E1 & E2 & E3 & E4 & E5).
    assert (Hpp2 : k_proc s' !! p = k_proc s !! p) by (rewrite E1, Hpp'; unfold transfer; by destruct write).
    apply HQ; [|by eexists _, _, _, _|done|done].
    split.
    + by rewrite E5.
    + by rewrite E5.
    + by rewrite E1.
    + done.
    + unfold proc_of. rewrite Hpp2. done.
    + unfold proc_of. rewrite Hpp2. done.
    + rewrite E4. by apply retired_idle.
Qed.
End Rw.
