(* ===== verification/Bio.v ===== *)
(** * kernel/bio.c: the buffer cache

    The doubly linked list of buffers is [bc_lru], from [head.next] to
    [head.prev].  The second part gives the cache as its clients use it: a map
    from block numbers to the buffers in use, over a disk. *)
From S2P Require Import Prelude Memory State Kalloc Vm Sched SchedSpec Sleeplock Virtio VirtioSpec.

Section Bio.
Context `{KI : KernelImage}.

(** Unlink [b] / put it at the front of the list. *)
Definition lru_remove (b : nat) : KM unit :=
  modify (set_bcache (fun bc => set_bc_lru (filter (fun i => i <> b) (bc_lru bc)) bc)).
Definition lru_front (b : nat) : KM unit :=
  modify (set_bcache (fun bc => set_bc_lru (b :: bc_lru bc) bc)).

Definition binit : KM unit :=
  modify (set_bcache (set_bc_lru []));;;
  for_each (seq 0 NBUF) (fun b => initsleeplock (SL_buf b);;; lru_front b).

Definition bget_cached (dev blockno : Z) (i : nat) : KM (option nat) :=
  let* b := getb i in
  if (b_dev b =? dev) && (b_blockno b =? blockno) then
    modb i (set_b_refcnt (u32 (b_refcnt b + 1)));;;
    release L_bcache;;;
    acquiresleep (SL_buf i);;;
    ret (Some i)
  else ret None.

Definition bget_recycle (dev blockno : Z) (i : nat) : KM (option nat) :=
  let* b := getb i in
  if b_refcnt b =? 0 then
    modb i (set_b_dev dev);;;
    modb i (set_b_blockno blockno);;;
    modb i (set_b_valid false);;;
    modb i (set_b_refcnt 1);;;
    release L_bcache;;;
    acquiresleep (SL_buf i);;;
    ret (Some i)
  else ret None.

Definition bget (dev blockno : Z) : KM nat :=
  acquire L_bcache;;;
  let* l := gets (fun s => bc_lru (k_bcache s)) in
  let* r := scan l (bget_cached dev blockno) in
  match r with
  | Some b => ret b
  | None =>
      let* r := scan (reverse l) (bget_recycle dev blockno) in
      match r with
      | Some b => ret b
      | None => panic "bget: no buffers"
      end
  end.

Definition bread (dev blockno : Z) : KM nat :=
  let* b := bget dev blockno in
  let* bf := getb b in
  when (negb (b_valid bf))
    (virtio_disk_rw b false;;; modb b (set_b_valid true));;;
  ret b.

Definition bwrite (b : nat) : KM unit :=
  let* h := holdingsleep (SL_buf b) in
  if negb h then panic "bwrite" else virtio_disk_rw b true.

Definition brelse (b : nat) : KM unit :=
  let* h := holdingsleep (SL_buf b) in
  if negb h then panic "brelse"
  else
    releasesleep (SL_buf b);;;
    acquire L_bcache;;;
    let* bf := getb b in
    modb b (set_b_refcnt (u32 (b_refcnt bf - 1)));;;
    when (u32 (b_refcnt bf - 1) =? 0) (lru_remove b;;; lru_front b);;;
    release L_bcache.

Definition bpin (b : nat) : KM unit :=
  acquire L_bcache;;;
  let* bf := getb b in
  modb b (set_b_refcnt (u32 (b_refcnt bf + 1)));;;
  release L_bcache.

Definition bunpin (b : nat) : KM unit :=
  acquire L_bcache;;;
  let* bf := getb b in
  modb b (set_b_refcnt (u32 (b_refcnt bf - 1)));;;
  release L_bcache.

End Bio.
