(* ===== verification/BioSpec.v ===== *)
(** * The buffer cache as its clients see it

    [bc_inv pid act dk bc]: the blocks in use are those of [act], each in one
    buffer with the data, the reference count and the lock [act] gives; every
    other buffer is unlocked and, if valid, equal to the disk [dk]. *)
From S2P Require Import Prelude Memory State Kalloc Vm Sched SchedSpec Sleeplock Virtio VirtioSpec Bio.

(** A buffer in use. *)
Record abuf := mkAbuf { ab_idx : nat; ab_data : block; ab_ref : Z; ab_lock : bool }.

Definition sleeplock_of (pid : Z) (l : bool) : sleeplock := mkSleeplock l (if l then pid else 0).
Definition abuf_buf (pid bn : Z) (a : abuf) : buf :=
  mkBuf true false ROOTDEV bn (sleeplock_of pid (ab_lock a)) (ab_ref a) (ab_data a).

(** A buffer nobody uses. *)
Record idle_buf (dk : gmap Z block) (b : buf) : Prop := {
  ib_ref : b_refcnt b = 0;
  ib_disk : b_disk b = false;
  ib_lock : b_lock b = mkSleeplock false 0;
  ib_data : b_valid b = true -> b_dev b = ROOTDEV /\ b_data b = default zblock (dk !! b_blockno b)
}.

Record bc_inv (pid : Z) (act : gmap Z abuf) (dk : gmap Z block) (bc : bcache) : Prop := {
  bi_len : length (bc_buf bc) = NBUF;
  bi_lru : bc_lru bc ≡ₚ seq 0 NBUF;
  bi_act : forall bn a, act !! bn = Some a ->
    bc_buf bc !! ab_idx a = Some (abuf_buf pid bn a) /\ 0 < ab_ref a < 2 ^ 31;
  bi_idle : forall i b, bc_buf bc !! i = Some b ->
    (exists bn a, act !! bn = Some a /\ ab_idx a = i) \/ idle_buf dk b;
  bi_uniq : forall i j b b', bc_buf bc !! i = Some b -> bc_buf bc !! j = Some b' ->
    b_dev b = ROOTDEV -> b_dev b' = ROOTDEV -> b_blockno b = b_blockno b' -> i = j
}.

Section Inv.
Context (pid : Z) (act : gmap Z abuf) (dk : gmap Z block) (bc : bcache) (Hbc : bc_inv pid act dk bc).

Lemma act_idx_inj bn bn' a a' :
  act !! bn = Some a -> act !! bn' = Some a' -> ab_idx a = ab_idx a' -> bn = bn'.
Proof.
  intros H H' E. apply (bi_act _ _ _ _ Hbc) in H as [H _]. apply (bi_act _ _ _ _ Hbc) in H' as [H' _].
  rewrite E in H. rewrite H in H'. by injection H'.
Qed.

(** Not every buffer is in use. *)
Lemma idle_exists :
  (size act < NBUF)%nat -> exists i b, bc_buf bc !! i = Some b /\ idle_buf dk b.
Proof.
  intros Hsz.
  destruct (decide (Forall (fun i => i ∈ map (fun x => ab_idx x.2) (map_to_list act)) (seq 0 NBUF))) as [Hall|Hn].
  - exfalso. assert (Hs : seq 0 NBUF ⊆+ map (fun x => ab_idx x.2) (map_to_list act)).
    { apply NoDup_submseteq; [apply NoDup_seq|]. intros i Hi. rewrite Forall_forall in Hall. by apply Hall. }
    apply submseteq_length in Hs. rewrite length_seq, length_fmap in Hs.
    rewrite length_map_to_list in Hs. lia.
  - apply not_Forall_Exists in Hn; [|apply _]. apply Exists_exists in Hn as (i & Hi & Hni).
    apply elem_of_seq in Hi. destruct (lookup_lt_is_Some_2 (bc_buf bc) i) as [b Hb].
    { rewrite (bi_len _ _ _ _ Hbc). lia. }
    exists i, b. split; [done|]. destruct (bi_idle _ _ _ _ Hbc _ _ Hb) as [(bn & a & Ha & <-)|]; [|done].
    exfalso. apply Hni. apply list_elem_of_In, in_map_iff. exists (bn, a). split; [done|].
    by apply list_elem_of_In, elem_of_map_to_list.
Qed.

(** Taking a buffer into use, or changing the state of one in use. *)
Lemma bc_set bn i d r l b0 :
  bc_buf bc !! i = Some b0 ->
  (idle_buf dk b0 /\ act !! bn = None \/ exists a, act !! bn = Some a /\ ab_idx a = i) ->
  (forall j b, bc_buf bc !! j = Some b -> b_dev b = ROOTDEV -> b_blockno b = bn -> j = i) ->
  0 < r < 2 ^ 31 ->
  bc_inv pid (<[bn := mkAbuf i d r l]> act) dk
    (set_bc_buf (<[i := abuf_buf pid bn (mkAbuf i d r l)]> (bc_buf bc)) bc).
Proof.
  intros Hi Hown Hu Hr. pose proof Hbc as [Hlen Hlru Hact Hidle Huniq].
  assert (Hlt : (i < length (bc_buf bc))%nat) by (by eapply lookup_lt_Some).
  assert (Hother : forall bn' a, bn' <> bn -> act !! bn' = Some a -> ab_idx a <> i).
  { intros bn' a Hne Ha E. destruct Hown as [[Hib _]|(a' & Ha' & E')].
    - apply Hact in Ha as [Ha Hra]. rewrite E, Hi in Ha. injection Ha as ->. destruct Hib. simpl in *. lia.
    - apply Hne. eapply act_idx_inj; [done..|congruence]. }
  split; simpl.
  - by rewrite length_insert.
  - done.
  - intros bn' a. destruct (decide (bn = bn')) as [<-|Hne].
    + rewrite lookup_insert_eq. intros [= <-]. simpl. by rewrite list_lookup_insert_eq.
    + rewrite lookup_insert_ne by done. intros Ha. specialize (Hother _ _ (not_eq_sym Hne) Ha).
      rewrite list_lookup_insert_ne by done. by apply Hact.
  - intros j b. destruct (decide (i = j)) as [<-|Hne].
    + intros _. left. exists bn. eexists. by rewrite lookup_insert_eq.
    + rewrite list_lookup_insert_ne by done. intros Hb. destruct (Hidle _ _ Hb) as [(bn' & a & Ha & <-)|]; [|by right].
      left. exists bn', a. split; [|done]. rewrite lookup_insert_ne; [done|]. intros <-.
      destruct Hown as [[_ ?]|(a' & Ha' & E')]; congruence.
  - intros j k b b'. rewrite !list_lookup_insert_Some.
    intros [(<- & <- & _)|[Hj Hb]] [(<- & <- & _)|[Hk Hb']] Hd Hd' E; try done; simpl in *.
    + symmetry. by eapply Hu.
    + by eapply Hu.
    + by eapply Huniq.
Qed.

(** A buffer in use is the only one with its block. *)
Lemma act_unique bn a j b :
  act !! bn = Some a -> bc_buf bc !! j = Some b -> b_dev b = ROOTDEV -> b_blockno b = bn -> j = ab_idx a.
Proof.
  intros Ha Hb Hd E. apply (bi_act _ _ _ _ Hbc) in Ha as [Ha _]. by eapply (bi_uniq _ _ _ _ Hbc).
Qed.

(** Changing the state of a buffer in use. *)
Lemma bc_upd bn a d r l :
  act !! bn = Some a -> 0 < r < 2 ^ 31 ->
  bc_inv pid (<[bn := mkAbuf (ab_idx a) d r l]> act) dk
    (set_bc_buf (<[ab_idx a := abuf_buf pid bn (mkAbuf (ab_idx a) d r l)]> (bc_buf bc)) bc).
Proof.
  intros Ha Hr. destruct (bi_act _ _ _ _ Hbc _ _ Ha) as [Hb _].
  eapply bc_set; [exact Hb | right; by exists a | | done]. intros. by eapply act_unique.
Qed.

(** Writing a block in use to the disk. *)
Lemma bc_disk bn a d : act !! bn = Some a -> bc_inv pid act (<[bn := d]> dk) bc.
Proof.
  intros Ha. pose proof Hbc as [Hlen Hlru Hact Hidle Huniq]. split; try done.
  intros i b Hb. destruct (Hidle _ _ Hb) as [H|Hib]; [by left|].
  destruct (decide (b_valid b = true /\ b_blockno b = bn)) as [[Hv E]|Hn].
  - left. exists bn, a. split; [done|]. destruct Hib as [_ _ _ Hd]. destruct (Hd Hv) as [Hdev _].
    symmetry. by eapply act_unique.
  - right. destruct Hib as [? ? ? Hd]. split; [done..|]. intros Hv. destruct (Hd Hv) as [? E]. split; [done|].
    rewrite lookup_insert_ne; [done|]. intros ->. by apply Hn.
Qed.

(** Giving up the last reference to a clean block. *)
Lemma bc_drop bn a lru :
  act !! bn = Some a -> ab_data a = default zblock (dk !! bn) -> lru ≡ₚ bc_lru bc ->
  bc_inv pid (delete bn act) dk
    (mkBcache (<[ab_idx a := abuf_buf pid bn (mkAbuf (ab_idx a) (ab_data a) 0 false)]> (bc_buf bc)) lru).
Proof.
  intros Ha Hd Hl. pose proof Hbc as [Hlen Hlru Hact Hidle Huniq].
  destruct (Hact _ _ Ha) as [Hb Hr]. assert (Hlt : (ab_idx a < length (bc_buf bc))%nat) by (by eapply lookup_lt_Some).
  split; simpl.
  - by rewrite length_insert.
  - by rewrite Hl.
  - intros bn' a' Ha'. apply lookup_delete_Some in Ha' as [Hne Ha'].
    rewrite list_lookup_insert_ne; [by apply Hact|]. intros E. apply Hne. by eapply act_idx_inj.
  - intros j b. rewrite list_lookup_insert_Some. intros [(<- & <- & _)|[Hj Hb']].
    + right. by split.
    + destruct (Hidle _ _ Hb') as [(bn' & a' & Ha' & <-)|]; [|by right]. left. exists bn', a'. split; [|done].
      rewrite lookup_delete_ne; [done|]. intros <-. congruence.
  - intros j k b b'. rewrite !list_lookup_insert_Some.
    intros [(<- & <- & _)|[Hj Hbj]] [(<- & <- & _)|[Hk Hbk]] Hd1 Hd2 E; try done; simpl in *.
    + by eapply (Huniq _ _ _ _ Hb).
    + by eapply (Huniq _ _ _ _ Hbj Hb).
    + by eapply Huniq.
Qed.

End Inv.

(** ** The operations *)

(** Storing a buffer. *)
Definition put (i : nat) (b : buf) (s : kstate) : kstate :=
  set_bcache (fun bc => set_bc_buf (<[i := b]> (bc_buf bc)) bc) s.

Lemma upd_buf_put i f b s : bc_buf (k_bcache s) !! i = Some b -> upd_buf i f s = put i (f b) s.
Proof. intros H. unfold upd_buf, put, set_bcache. do 2 f_equal. by apply alter_insert. Qed.

Lemma upd_buf_upd i f g s : upd_buf i f (upd_buf i g s) = upd_buf i (fun b => f (g b)) s.
Proof. unfold upd_buf, set_bcache. simpl. by rewrite alter_alter. Qed.

Lemma put_put i b b' s : put i b (put i b' s) = put i b s.
Proof. unfold put, set_bcache. simpl. by rewrite list_insert_insert_eq. Qed.

Lemma put_lookup i b s : (i < length (bc_buf (k_bcache s)))%nat -> bc_buf (k_bcache (put i b s)) !! i = Some b.
Proof. intros. by apply list_lookup_insert_eq. Qed.

Lemma buf_of_lookup s i b : bc_buf (k_bcache s) !! i = Some b -> buf_of s i = b.
Proof. intros H. unfold buf_of. by rewrite H. Qed.

Definition content (act : gmap Z abuf) (dk : gmap Z block) (bn : Z) : block :=
  match act !! bn with Some a => ab_data a | None => default zblock (dk !! bn) end.
Definition refs (act : gmap Z abuf) (bn : Z) : Z :=
  match act !! bn with Some a => ab_ref a | None => 0 end.

Section Ops.
Context `{KI : KernelImage} `{VD : VirtioDevice} `{VDOK : !VirtioDeviceOk}.
Variable P : gmap Z block -> Prop.
Let C (s : kstate) : Prop := P (k_disk s).

Definition pid_of (p : nat) (s : kstate) : Z := p_pid (proc_of s p).

Record bio_ok (p : nat) (act : gmap Z abuf) (s : kstate) : Prop := {
  bo_seq : seq_ok p s;
  bo_inv : bc_inv (pid_of p s) act (k_disk s) (k_bcache s)
}.

(** What makes bread of [bn] go through. *)
Definition can_get (act : gmap Z abuf) (bn : Z) : Prop :=
  match act !! bn with
  | Some a => ab_lock a = false /\ ab_ref a + 1 < 2 ^ 31
  | None => (size act < NBUF)%nat
  end.

(** What bget leaves: the buffer [i] is locked for [bn], with or without its data. *)
Record gotten (p : nat) (act : gmap Z abuf) (bn : Z) (s : kstate) (i : nat) (v : bool) (d : block) (b0 : buf) : Prop := {
  gt_old : bc_buf (k_bcache s) !! i = Some b0;
  gt_own : idle_buf (k_disk s) b0 /\ act !! bn = None \/ exists a, act !! bn = Some a /\ ab_idx a = i;
  gt_uniq : forall j b, bc_buf (k_bcache s) !! j = Some b -> b_dev b = ROOTDEV -> b_blockno b = bn -> j = i;
  gt_valid : v = true -> d = content act (k_disk s) bn;
  gt_invalid : v = false -> act !! bn = None
}.

Lemma wp_lock_buf p i b Q s :
  seq_ok p s -> bc_buf (k_bcache s) !! i = Some b -> b_lock b = mkSleeplock false 0 ->
  Q (Some i) (put i (set_b_lock (mkSleeplock true (pid_of p s)) b) s) ->
  wpc (seq_rely p) C (release L_bcache;;; acquiresleep (SL_buf i);;; ret (Some i)) Q (set_held (cons L_bcache) s).
Proof.
  intros Hok Hb Hl HQ. destruct Hok. wp_step.
  eapply wp_release_last; [simpl; by rewrite so_held | apply not_elem_of_nil |].
  assert (E : set_held (fun _ => []) (set_held (cons L_bcache) s) = s)
    by (clear - so_held; destruct s; simpl in *; by subst).
  rewrite E. wp_step. apply (wp_acquiresleep _ p).
  - rewrite so_held. apply not_elem_of_nil.
  - done.
  - simpl. by rewrite (buf_of_lookup _ _ _ Hb), Hl.
  - wp_step. simpl. erewrite upd_buf_put by exact Hb. exact HQ.
Qed.

Lemma wp_bget_hit p act bn i b Q s :
  bio_ok p act s -> can_get act bn -> bc_buf (k_bcache s) !! i = Some b ->
  b_dev b = ROOTDEV -> b_blockno b = bn ->
  (forall v d, gotten p act bn s i v d b ->
    Q (Some i) (put i (mkBuf v false ROOTDEV bn (mkSleeplock true (pid_of p s)) (refs act bn + 1) d) s)) ->
  wpc (seq_rely p) C (modb i (set_b_refcnt (u32 (b_refcnt b + 1)));;; release L_bcache;;; acquiresleep (SL_buf i);;; ret (Some i))
    Q (set_held (cons L_bcache) s).
Proof.
  intros [Hok Hinv] Hcan Hb Hdev Hbn HQ.
  assert (Hcase : b_refcnt b = refs act bn /\ b_lock b = mkSleeplock false 0 /\ b_disk b = false /\
    0 <= refs act bn < 2 ^ 31 /\ gotten p act bn s i (b_valid b) (b_data b) b).
  { unfold refs, can_get in *.
    assert (Hu : forall j b', bc_buf (k_bcache s) !! j = Some b' -> b_dev b' = ROOTDEV -> b_blockno b' = bn -> j = i).
    { intros. eapply (bi_uniq _ _ _ _ Hinv); [done | exact Hb | done..|congruence]. }
    destruct (act !! bn) as [a|] eqn:Ea.
    - destruct (bi_act _ _ _ _ Hinv _ _ Ea) as [Ha Hr].
      assert (ab_idx a = i) as <- by (by eapply Hu). rewrite Ha in Hb. injection Hb as <-. simpl.
      destruct Hcan as [Hl _]. rewrite Hl. split_and!; [done..|lia|lia|].
      split; simpl; [done | right; by exists a | done | | done].
      intros _. unfold content. by rewrite Ea.
    - destruct (bi_idle _ _ _ _ Hinv _ _ Hb) as [(bn' & a & Ha & <-)|Hib].
      + destruct (bi_act _ _ _ _ Hinv _ _ Ha) as [Ha' _]. rewrite Ha' in Hb. injection Hb as <-. simpl in *. congruence.
      + pose proof Hib as [? ? ? Hv]. split_and!; [done..|lia|lia|]. split; [done | by left | done | | done].
        intros E. unfold content. rewrite Ea. destruct (Hv E) as [_ ->]. by rewrite Hbn. }
  destruct Hcase as (Er & El & Ed & Hr & Hg).
  rewrite Er, u32_small by lia. unfold modb. wp_step. wp_step.
  change (upd_buf i ?f (set_held ?g s)) with (set_held g (upd_buf i f s)). erewrite upd_buf_put by exact Hb.
  pose proof (lookup_lt_Some _ _ _ Hb) as Hlt.
  eapply wp_lock_buf; [by destruct Hok; split | by apply put_lookup | done |].
  rewrite put_put. specialize (HQ _ _ Hg). unfold set_b_lock, set_b_refcnt. simpl. rewrite Ed, Hdev, Hbn. exact HQ.
Qed.

Lemma wp_bget p act bn Q s :
  bio_ok p act s -> can_get act bn ->
  (forall i v d b0, gotten p act bn s i v d b0 ->
    Q i (put i (mkBuf v false ROOTDEV bn (mkSleeplock true (pid_of p s)) (refs act bn + 1) d) s)) ->
  wpc (seq_rely p) C (bget ROOTDEV bn) Q s.
Proof.
  intros Hbio Hcan HQ. pose proof Hbio as [Hok Hinv]. unfold bget. wp_step.
  apply wp_acquire; [rewrite (so_held _ _ Hok); apply not_elem_of_nil|]. wp_step. wp_step. wp_step.
  set (lru := bc_lru _). assert (Hin : forall i, i ∈ lru <-> (i < NBUF)%nat).
  { intros i. change lru with (bc_lru (k_bcache s)). rewrite (bi_lru _ _ _ _ Hinv), elem_of_seq. lia. }
  assert (Hlook : forall i, i ∈ lru -> exists b, bc_buf (k_bcache s) !! i = Some b).
  { intros i Hi. apply lookup_lt_is_Some_2. rewrite (bi_len _ _ _ _ Hinv). by apply Hin. }
  apply (wp_scan _ (fun l s' => s' = set_held (cons L_bcache) s /\ exists pre, lru = pre ++ l /\
    forall i b, i ∈ pre -> bc_buf (k_bcache s) !! i = Some b -> ~ (b_dev b = ROOTDEV /\ b_blockno b = bn))).
  - split; [done|]. exists []. split; [done|]. intros i b H. by apply elem_of_nil in H.
  - intros i l s' (-> & pre & El & Hpre). destruct (Hlook i) as [b Hb]; [rewrite El; set_solver|].
    unfold bget_cached, getb. wp_step. wp_step. change (buf_of (set_held _ s) i) with (buf_of s i).
    rewrite (buf_of_lookup _ _ _ Hb).
    destruct (Z.eqb_spec (b_dev b) ROOTDEV) as [Ed|Ed]; [destruct (Z.eqb_spec (b_blockno b) bn) as [En|En]|].
    { simpl andb. cbv iota. eapply wp_bget_hit; [done..|]. intros v d Hg. wp_step. by apply (HQ _ _ _ b). }
    all: simpl; split; [done|]; exists (pre ++ [i]); (split; [by rewrite <- app_assoc|]);
      intros j b' Hj Hb'; apply elem_of_app in Hj as [Hj|Hj%list_elem_of_singleton]; [by eapply Hpre|];
      subst; rewrite Hb in Hb'; injection Hb' as <-; tauto.
  - intros s' (-> & pre & El & Hpre). rewrite app_nil_r in El. subst pre. wp_step.
    assert (Hno : forall j b, bc_buf (k_bcache s) !! j = Some b -> b_dev b = ROOTDEV -> b_blockno b <> bn).
    { intros j b Hb Hd E. eapply Hpre; [|exact Hb|done]. apply Hin. rewrite <- (bi_len _ _ _ _ Hinv).
      by eapply lookup_lt_Some. }
    assert (Hnone : act !! bn = None).
    { destruct (act !! bn) as [a|] eqn:Ea; [|done]. destruct (bi_act _ _ _ _ Hinv _ _ Ea) as [Ha _].
      exfalso. by eapply (Hno _ _ Ha). }
    unfold can_get in Hcan. rewrite Hnone in Hcan.
    destruct (idle_exists _ _ _ _ Hinv Hcan) as (k & bk & Hbk & Hik).
    apply (wp_scan _ (fun l s' => s' = set_held (cons L_bcache) s /\ k ∈ l /\ l ⊆ lru)).
    + split; [done|]. split; [|intros x; by rewrite elem_of_reverse].
      rewrite elem_of_reverse. apply Hin. rewrite <- (bi_len _ _ _ _ Hinv). by eapply lookup_lt_Some.
    + intros i l s' (-> & Hk & Hl). destruct (Hlook i) as [b Hb]; [apply Hl; left|].
      unfold bget_recycle, getb. wp_step. wp_step. change (buf_of (set_held _ s) i) with (buf_of s i).
      rewrite (buf_of_lookup _ _ _ Hb). destruct (Z.eqb_spec (b_refcnt b) 0) as [Er|Er].
      2: { wp_step. split; [done|]. split; [|set_solver]. apply elem_of_cons in Hk as [->|]; [|done].
           rewrite Hbk in Hb. injection Hb as <-. by destruct Hik. }
      assert (Hib : idle_buf (k_disk s) b).
      { destruct (bi_idle _ _ _ _ Hinv _ _ Hb) as [(bn' & a & Ha & <-)|]; [|done].
        destruct (bi_act _ _ _ _ Hinv _ _ Ha) as [Ha' ?]. rewrite Ha' in Hb. injection Hb as <-. simpl in Er. lia. }
      unfold modb. do 8 wp_step. pose proof (lookup_lt_Some _ _ _ Hb) as Hlt.
      change (upd_buf i ?f (upd_buf i ?g (upd_buf i ?h (upd_buf i ?k (set_held ?m s))))) with
        (set_held m (upd_buf i f (upd_buf i g (upd_buf i h (upd_buf i k s))))).
      rewrite !upd_buf_upd. erewrite upd_buf_put by exact Hb.
      eapply wp_lock_buf; [by destruct Hok; split | by apply put_lookup | apply Hib |].
      rewrite put_put. wp_step.
      specialize (HQ i false (b_data b) b). unfold refs in HQ. rewrite Hnone in HQ.
      unfold set_b_lock, set_b_refcnt, set_b_valid, set_b_blockno, set_b_dev. simpl.
      rewrite (ib_disk _ _ Hib). apply HQ. split; [done | by left | | done | done].
      intros j b' Hb' Hd E. by destruct (Hno _ _ Hb' Hd).
    + intros s' (_ & Hk & _). by apply elem_of_nil in Hk.
Qed.

Lemma seq_ok_bcache p f s : seq_ok p s -> seq_ok p (set_bcache f s).
Proof. by intros []. Qed.

Lemma rest_eq_bcache p f s : rest_eq p s (set_bcache f s).
Proof. exists (k_proc s), (k_vdisk s), (f (k_bcache s)), (k_disk s). by destruct s. Qed.

Lemma rest_eq_pid p s s' : rest_eq p s s' -> pid_of p s' = pid_of p s.
Proof. intros (ps & vd & bc & dk & E & ->). unfold pid_of, proc_of. simpl. by rewrite E. Qed.

Lemma wp_bread p act bn Q s :
  bio_ok p act s -> can_get act bn -> 0 <= bn < 2 ^ 31 -> P (k_disk s) ->
  (forall i s', bio_ok p (<[bn := mkAbuf i (content act (k_disk s) bn) (refs act bn + 1) true]> act) s' ->
     (forall a, act !! bn = Some a -> ab_idx a = i) ->
     rest_eq p s s' -> k_disk s' = k_disk s -> Q i s') ->
  wpc (seq_rely p) C (bread ROOTDEV bn) Q s.
Proof.
  intros Hbio Hcan Hbn HP HQ. unfold bread. wp_step. apply (wp_bget p act); [done..|].
  intros i v d b0 [Hold Hown Hu Hv Hi]. unfold getb. wp_step. wp_step.
  set (b1 := mkBuf _ _ _ _ _ _ _). pose proof Hbio as [Hok Hinv].
  assert (Hlt : (i < length (bc_buf (k_bcache s)))%nat) by (by eapply lookup_lt_Some).
  assert (Hr : 0 < refs act bn + 1 < 2 ^ 31).
  { unfold refs. unfold can_get in Hcan. destruct (act !! bn) as [a|] eqn:Ea; [|lia].
    destruct (bi_act _ _ _ _ Hinv _ _ Ea). lia. }
  assert (Hset := bc_set _ _ _ _ Hinv bn i (content act (k_disk s) bn) (refs act bn + 1) true _ Hold Hown Hu Hr).
  assert (Hidx : forall a, act !! bn = Some a -> ab_idx a = i).
  { intros a Ha. destruct Hown as [[_ ?]|(a' & Ha' & <-)]; congruence. }
  rewrite (buf_of_lookup _ _ _ (put_lookup i b1 s Hlt)). wp_step.
  apply wp_when; intros Hvb; simpl in Hvb.
  - apply negb_true_iff in Hvb. subst v. wp_step.
    assert (Hb1 := buf_of_lookup _ _ _ (put_lookup i b1 s Hlt)).
    apply (wp_virtio_disk_rw P p).
    + by apply seq_ok_bcache.
    + simpl. by rewrite length_insert.
    + by rewrite Hb1.
    + by rewrite Hb1.
    + done.
    + done.
    + intros s' Hok' Hrest Hbc Hdk. unfold modb. wp_step. wp_step.
      assert (Hrest' : rest_eq p s s') by (transitivity (put i b1 s); [apply rest_eq_bcache | done]).
      apply HQ; [|done | transitivity s'; [done | apply rest_eq_bcache] | done].
      split; [by apply seq_ok_bcache|].
      rewrite (rest_eq_pid p s) by (transitivity s'; [done | apply rest_eq_bcache]).
      change (k_disk (upd_buf i (set_b_valid true) s')) with (k_disk s'). rewrite Hdk.
      unfold upd_buf. simpl k_bcache. rewrite Hbc. unfold rw_buf. rewrite Hb1. simpl.
      change (rw_disk i false (put i b1 s)) with (k_disk s).
      unfold set_bc_buf. simpl. rewrite alter_alter.
      erewrite alter_insert by (by apply list_lookup_insert_eq). rewrite list_insert_insert_eq.
      unfold set_b_valid, set_b_data. simpl.
      revert Hset. unfold content, set_bc_buf. rewrite (Hi eq_refl). done.
  - apply negb_false_iff in Hvb. subst v. wp_step. specialize (Hv eq_refl). subst d.
    apply HQ; [|done | apply rest_eq_bcache | done]. split; [by apply seq_ok_bcache | done].
Qed.

(** The caller changes the data of a buffer it holds. *)
Lemma bio_ok_upd p act bn a f d r l s :
  bio_ok p act s -> act !! bn = Some a -> 0 < r < 2 ^ 31 ->
  f (abuf_buf (pid_of p s) bn a) = abuf_buf (pid_of p s) bn (mkAbuf (ab_idx a) d r l) ->
  bio_ok p (<[bn := mkAbuf (ab_idx a) d r l]> act) (upd_buf (ab_idx a) f s).
Proof.
  intros [Hok Hinv] Ha Hr Hf. destruct (bi_act _ _ _ _ Hinv _ _ Ha) as [Hb _].
  split; [by apply seq_ok_bcache|]. erewrite upd_buf_put by exact Hb. rewrite Hf. by apply bc_upd.
Qed.

Lemma holds_buf p act bn a s :
  bio_ok p act s -> act !! bn = Some a -> ab_lock a = true ->
  sl_locked (sl_of s (SL_buf (ab_idx a))) && (sl_pid (sl_of s (SL_buf (ab_idx a))) =? p_pid (proc_of s p)) = true.
Proof.
  intros [Hok Hinv] Ha Hl. destruct (bi_act _ _ _ _ Hinv _ _ Ha) as [Hb _]. simpl.
  rewrite (buf_of_lookup _ _ _ Hb). simpl. rewrite Hl. apply Z.eqb_refl.
Qed.

Lemma wp_bwrite p act bn a Q s :
  bio_ok p act s -> act !! bn = Some a -> ab_lock a = true -> 0 <= bn < 2 ^ 31 ->
  P (k_disk s) -> P (<[bn := ab_data a]> (k_disk s)) ->
  (forall s', bio_ok p act s' -> rest_eq p s s' -> k_disk s' = <[bn := ab_data a]> (k_disk s) -> Q tt s') ->
  wpc (seq_rely p) C (bwrite (ab_idx a)) Q s.
Proof.
  intros Hbio Ha Hl Hbn HP HP' HQ. pose proof Hbio as [Hok Hinv].
  destruct (bi_act _ _ _ _ Hinv _ _ Ha) as [Hb _]. unfold bwrite. wp_step.
  apply (wp_holdingsleep _ p); [rewrite (so_held _ _ Hok); apply not_elem_of_nil | apply Hok |].
  rewrite (holds_buf _ _ _ _ _ Hbio Ha Hl). simpl negb. cbv iota.
  assert (Hbo := buf_of_lookup _ _ _ Hb).
  assert (Hrw : rw_disk (ab_idx a) true s = <[bn := ab_data a]> (k_disk s))
    by (unfold rw_disk; by rewrite Hbo).
  apply (wp_virtio_disk_rw P p); try done.
  - by eapply lookup_lt_Some.
  - by rewrite Hbo.
  - by rewrite Hbo.
  - by rewrite Hrw.
  - intros s' Hok' Hrest Hbc Hdk. rewrite Hrw in Hdk. apply HQ; [|done|done]. split; [done|].
    rewrite (rest_eq_pid _ _ _ Hrest), Hdk, Hbc. by eapply bc_disk.
Qed.

(** A critical section of bcache.lock that changes the cache. *)
Lemma held_bcache f s :
  k_held s = [] ->
  set_held (fun _ => []) (set_bcache f (set_held (cons L_bcache) s)) = set_bcache f s.
Proof. intros H. destruct s; simpl in *; by subst. Qed.

Lemma wp_bpin R C' b Q s :
  L_bcache ∉ k_held s -> Q tt (upd_buf b (set_b_refcnt (u32 (b_refcnt (buf_of s b) + 1))) s) ->
  wpc R C' (bpin b) Q s.
Proof.
  intros Hh HQ. unfold bpin, getb, modb. wp_step. apply wp_acquire; [done|]. do 4 wp_step.
  eapply wp_release_last; [reflexivity | done |]. destruct s; exact HQ.
Qed.

Lemma wp_bunpin p act bn a Q s :
  bio_ok p act s -> act !! bn = Some a -> 1 < ab_ref a ->
  (forall s', bio_ok p (<[bn := mkAbuf (ab_idx a) (ab_data a) (ab_ref a - 1) (ab_lock a)]> act) s' ->
     rest_eq p s s' -> k_disk s' = k_disk s -> Q tt s') ->
  wpc (seq_rely p) C (bunpin (ab_idx a)) Q s.
Proof.
  intros Hbio Ha Hr HQ. pose proof Hbio as [Hok Hinv]. destruct (bi_act _ _ _ _ Hinv _ _ Ha) as [Hb Hr0].
  unfold bunpin, getb, modb. wp_step. apply wp_acquire; [rewrite (so_held _ _ Hok); apply not_elem_of_nil|].
  do 4 wp_step. change (buf_of (set_held _ s) (ab_idx a)) with (buf_of s (ab_idx a)).
  rewrite (buf_of_lookup _ _ _ Hb). simpl b_refcnt. rewrite u32_small by lia.
  eapply wp_release_last; [simpl; by rewrite (so_held _ _ Hok) | apply not_elem_of_nil|].
  unfold upd_buf. rewrite held_bcache by apply Hok.
  apply HQ; [|apply rest_eq_bcache | done]. by apply bio_ok_upd; [..|lia|].
Qed.

(** Waking others up is invisible to the process. *)
Lemma seq_ok_woken p ch s : seq_ok p s -> seq_ok p (set_proc (imap (woken ch (Some p))) s).
Proof.
  intros [? ? ? ? ? ? ?]. split; try done; simpl; rewrite ?length_imap; try done;
    unfold proc_of; simpl; by rewrite woken_self.
Qed.

Lemma rest_eq_woken p ch s : rest_eq p s (set_proc (imap (woken ch (Some p))) s).
Proof.
  exists (imap (woken ch (Some p)) (k_proc s)), (k_vdisk s), (k_bcache s), (k_disk s).
  split; [apply woken_self | by destruct s].
Qed.

Definition drop_ref (act : gmap Z abuf) (bn : Z) (a : abuf) : gmap Z abuf :=
  if ab_ref a =? 1 then delete bn act
  else <[bn := mkAbuf (ab_idx a) (ab_data a) (ab_ref a - 1) false]> act.

Lemma lru_move i l : l ≡ₚ seq 0 NBUF -> (i < NBUF)%nat -> i :: filter (fun j => j <> i) l ≡ₚ l.
Proof.
  intros Hl Hi. apply NoDup_Permutation.
  - constructor; [rewrite list_elem_of_filter; tauto|]. apply NoDup_filter. rewrite Hl. apply NoDup_seq.
  - rewrite Hl. apply NoDup_seq.
  - intros j. rewrite elem_of_cons, list_elem_of_filter, Hl, elem_of_seq. split; [|destruct (decide (j = i)); tauto].
    intros [->|]; [lia | tauto].
Qed.

Lemma wp_brelse p act bn a Q s :
  bio_ok p act s -> act !! bn = Some a -> ab_lock a = true ->
  (ab_ref a = 1 -> ab_data a = default zblock (k_disk s !! bn)) ->
  (forall s', bio_ok p (drop_ref act bn a) s' -> rest_eq p s s' -> k_disk s' = k_disk s -> Q tt s') ->
  wpc (seq_rely p) C (brelse (ab_idx a)) Q s.
Proof.
  intros Hbio Ha Hl Hclean HQ. pose proof Hbio as [Hok Hinv].
  pose proof (holds_buf _ _ _ _ _ Hbio Ha Hl) as Hholds. set (i := ab_idx a) in *.
  destruct (bi_act _ _ _ _ Hinv _ _ Ha) as [Hb Hr]. pose proof (lookup_lt_Some _ _ _ Hb) as Hlt.
  unfold brelse, getb, modb. wp_step.
  assert (Hno : forall lk, lk ∉ k_held s) by (intros lk; rewrite (so_held _ _ Hok); apply not_elem_of_nil).
  apply (wp_holdingsleep _ p); [apply Hno | apply Hok|]. rewrite Hholds. simpl negb. cbv iota. wp_step.
  apply wp_releasesleep; [apply Hno | intros j; apply Hno | apply Hok|].
  simpl sl_set. erewrite upd_buf_put by exact Hb. wp_step. rewrite (so_cur _ _ Hok). simpl sl_chan.
  apply wp_acquire; [apply Hno|]. do 5 wp_step.
  set (s1 := set_proc _ _).
  assert (Hb1 : bc_buf (k_bcache s1) !! i = Some (set_b_lock (mkSleeplock false 0) (abuf_buf (pid_of p s) bn a)))
    by (by apply put_lookup).
  change (buf_of (set_held _ s1) i) with (buf_of s1 i). rewrite (buf_of_lookup _ _ _ Hb1). simpl b_refcnt.
  rewrite u32_small by lia.
  change (upd_buf i ?f (set_held ?g s1)) with (set_held g (upd_buf i f s1)). erewrite upd_buf_put by exact Hb1.
  set (b2 := set_b_refcnt _ _).
  assert (E2 : put i b2 s1 = set_proc (imap (woken (Ch_buflock i) (Some p))) (put i b2 s)).
  { unfold s1. rewrite <- (put_put i b2 (set_b_lock (mkSleeplock false 0) (abuf_buf (pid_of p s) bn a)) s). done. }
  rewrite E2. set (s2 := set_proc _ _).
  assert (Hok2 : seq_ok p s2) by (by apply seq_ok_woken, seq_ok_bcache).
  assert (Hrest2 : rest_eq p s s2) by (transitivity (put i b2 s); [apply rest_eq_bcache | apply rest_eq_woken]).
  apply wp_when; intros Hz.
  - apply Z.eqb_eq in Hz. unfold lru_remove, lru_front. do 3 wp_step.
    eapply wp_release_last; [simpl; by rewrite (so_held _ _ Hok) | apply not_elem_of_nil|].
    assert (E3 : forall f g, set_held (fun _ => []) (set_bcache f (set_bcache g (set_held (cons L_bcache) s2))) =
      set_bcache f (set_bcache g s2)) by (intros; unfold s2, set_held, set_bcache; simpl; by rewrite (so_held _ _ Hok)).
    rewrite E3. set (s3 := set_bcache _ _). assert (Hrest3 : rest_eq p s s3).
    { transitivity s2; [done|]. exists (k_proc s2), (k_vdisk s2), (k_bcache s3), (k_disk s2). by destruct s2. }
    apply HQ; [|done|done]. unfold drop_ref. rewrite (proj2 (Z.eqb_eq _ _)) by lia.
    split; [by do 2 apply seq_ok_bcache|]. rewrite (rest_eq_pid _ _ _ Hrest3).
    assert (Hd := bc_drop _ _ _ _ Hinv bn a (i :: filter (fun j => j <> i) (bc_lru (k_bcache s))) Ha (Hclean ltac:(lia))).
    revert Hd. unfold s3, s2, b2. unfold set_b_refcnt, set_b_lock. simpl. rewrite Hz. intros Hd. apply Hd.
    apply lru_move; [apply (bi_lru _ _ _ _ Hinv)|]. by rewrite <- (bi_len _ _ _ _ Hinv).
  - apply Z.eqb_neq in Hz.
    eapply wp_release_last; [reflexivity | rewrite (so_held _ _ Hok2); apply not_elem_of_nil|].
    assert (E3 : set_held (fun _ => k_held s2) (set_held (cons L_bcache) s2) = s2) by done.
    rewrite E3. apply HQ; [|done|done]. unfold drop_ref. rewrite (proj2 (Z.eqb_neq _ _)) by lia.
    split; [done|]. rewrite (rest_eq_pid _ _ _ Hrest2). unfold s2. simpl k_bcache. simpl k_disk.
    by apply bc_upd; [..|lia].
Qed.

End Ops.
