(* ===== verification/Codec.v ===== *)
(** * Little-endian fields of disk blocks

    The C code reads and writes [struct logheader], [struct dinode],
    [struct dirent], [struct superblock] and arrays of [uint] through pointers
    into a block's bytes; these are the loads and stores, by byte offset. *)
From S2P Require Import Prelude Memory State.

Definition rd8 (d : block) (o : nat) : Z := default 0 (d !! o).
Definition wr8 (o : nat) (v : Z) (d : block) : block := <[o := u8 v]> d.

Definition rd16 (d : block) (o : nat) : Z := rd8 d o + 256 * rd8 d (o + 1).
Definition wr16 (o : nat) (v : Z) (d : block) : block :=
  wr8 (o + 1) (Z.shiftr v 8) (wr8 o v d).
Definition rd32 (d : block) (o : nat) : Z := rd16 d o + 65536 * rd16 d (o + 2).
Definition wr32 (o : nat) (v : Z) (d : block) : block :=
  wr16 (o + 2) (Z.shiftr v 16) (wr16 o v d).

(** Signed fields: [short] and [int]. *)
Definition s16 (z : Z) : Z := let x := u16 z in if x <? 2 ^ 15 then x else x - 2 ^ 16.
Definition rds16 (d : block) (o : nat) : Z := s16 (rd16 d o).
Definition rds32 (d : block) (o : nat) : Z := s32 (rd32 d o).

(** A byte string inside a block. *)
Definition rdbytes (d : block) (o n : nat) : list Z := take n (drop o d).
Definition wrbytes (o : nat) (bs : list Z) (d : block) : block :=
  take o d ++ bs ++ drop (o + length bs) d.

(** ** Laws *)
Lemma length_wr8 o v d : length (wr8 o v d) = length d.
Proof. apply length_insert. Qed.
Lemma length_wr16 o v d : length (wr16 o v d) = length d.
Proof. unfold wr16. by rewrite !length_wr8. Qed.
Lemma length_wr32 o v d : length (wr32 o v d) = length d.
Proof. unfold wr32. by rewrite !length_wr16. Qed.
Lemma length_wrbytes o bs d : (o + length bs <= length d)%nat -> length (wrbytes o bs d) = length d.
Proof. intros. unfold wrbytes. rewrite !length_app, length_take, length_drop. lia. Qed.

Lemma rd8_wr8 o v d : (o < length d)%nat -> rd8 (wr8 o v d) o = u8 v.
Proof. intros. unfold rd8, wr8. by rewrite list_lookup_insert_eq. Qed.
Lemma rd8_wr8_ne o o' v d : o <> o' -> rd8 (wr8 o v d) o' = rd8 d o'.
Proof. intros. unfold rd8, wr8. by rewrite list_lookup_insert_ne. Qed.

Lemma rd8_wr16_ne o o' v d : (o' < o \/ o + 2 <= o')%nat -> rd8 (wr16 o v d) o' = rd8 d o'.
Proof. intros. unfold wr16. by rewrite !rd8_wr8_ne by lia. Qed.
Lemma rd8_wr32_ne o o' v d : (o' < o \/ o + 4 <= o')%nat -> rd8 (wr32 o v d) o' = rd8 d o'.
Proof. intros. unfold wr32. by rewrite !rd8_wr16_ne by lia. Qed.

Lemma u16_split v : u8 v + 256 * u8 (Z.shiftr v 8) = u16 v.
Proof.
  unfold u8, u16, wrap. rewrite Z.shiftr_div_pow2 by lia.
  change (2 ^ 8) with 256. change (2 ^ 16) with 65536. zmod.
Qed.
Lemma u32_split v : u16 v + 65536 * u16 (Z.shiftr v 16) = u32 v.
Proof.
  unfold u32, u16, wrap. rewrite Z.shiftr_div_pow2 by lia.
  change (2 ^ 32) with 4294967296. change (2 ^ 16) with 65536. zmod.
Qed.

Lemma rd16_wr16 o v d : (o + 2 <= length d)%nat -> rd16 (wr16 o v d) o = u16 v.
Proof.
  intros. unfold rd16, wr16. rewrite rd8_wr8 by (rewrite length_wr8; lia).
  rewrite rd8_wr8_ne, rd8_wr8 by lia. apply u16_split.
Qed.
Lemma rd16_wr16_ne o o' v d : (o' + 2 <= o \/ o + 2 <= o')%nat -> rd16 (wr16 o v d) o' = rd16 d o'.
Proof. intros. unfold rd16. by rewrite !rd8_wr16_ne by lia. Qed.
Lemma rd16_wr32_ne o o' v d : (o' + 2 <= o \/ o + 4 <= o')%nat -> rd16 (wr32 o v d) o' = rd16 d o'.
Proof. intros. unfold rd16. by rewrite !rd8_wr32_ne by lia. Qed.

Lemma rd32_wr32 o v d : (o + 4 <= length d)%nat -> rd32 (wr32 o v d) o = u32 v.
Proof.
  intros. unfold rd32, wr32. rewrite rd16_wr16 by (rewrite length_wr16; lia).
  rewrite rd16_wr16_ne, rd16_wr16 by lia. apply u32_split.
Qed.
Lemma rd32_wr32_ne o o' v d : (o' + 4 <= o \/ o + 4 <= o')%nat -> rd32 (wr32 o v d) o' = rd32 d o'.
Proof. intros. unfold rd32. by rewrite !rd16_wr32_ne by lia. Qed.
Lemma rd32_wr16_ne o o' v d : (o' + 4 <= o \/ o + 2 <= o')%nat -> rd32 (wr16 o v d) o' = rd32 d o'.
Proof. intros. unfold rd32. by rewrite !rd16_wr16_ne by lia. Qed.

Lemma s32_u32 z : s32 (u32 z) = s32 z.
Proof. unfold s32. f_equal. all: unfold u32; rewrite (wrap_small 32 (wrap 32 z)); auto using wrap_range with lia. Qed.

#[export] Hint Rewrite length_wr8 length_wr16 length_wr32 : codec.
