(* ===== verification/Log.v ===== *)
(** * kernel/log.c: the redo log

    initlog, recovery, begin_op/end_op, log_write and the commit. *)
From S2P Require Import Prelude Memory State Kalloc Vm Sched SchedSpec Sleeplock Virtio VirtioSpec Bio Codec.

Section Log.
Context `{KI : KernelImage}.

Definition modl (f : log -> log) : KM unit := modify (set_log f).
Definition getl : KM log := gets (fun s => k_log s).

(** [log.lh.block[i]]; an index outside the array has no defined meaning. *)
Definition lh_get (i : Z) : KM Z :=
  let* lg := getl in
  match lh_block lg !! Z.to_nat i with Some v => ret v | None => ub end.
Definition lh_put (i v : Z) : KM unit :=
  let* lg := getl in
  if (Z.to_nat i <? length (lh_block lg))%nat
  then modl (fun lg => set_lh_block (<[Z.to_nat i := v]> (lh_block lg)) lg)
  else ub.

(** [for (tail = 0; tail < log.lh.n; tail++) body]. *)
Definition for_lh (body : Z -> KM unit) : KM unit :=
  loop (fun tail =>
    let* lg := getl in
    if tail <? lh_n lg then body tail;;; ret (inl (s32 (tail + 1))) else ret (inr tt)) 0.

(** Copy committed blocks from log to their home location. *)
Definition install_one (recovering : bool) (tail : Z) : KM unit :=
  let* lg := getl in
  let* lbuf := bread (u32 (lg_dev lg)) (u32 (lg_start lg + tail + 1)) in
  let* lg := getl in
  let* bn := lh_get tail in
  let* dbuf := bread (u32 (lg_dev lg)) (u32 bn) in
  let* lb := getb lbuf in
  modb dbuf (set_b_data (b_data lb));;;
  bwrite dbuf;;;
  when (negb recovering) (bunpin dbuf);;;
  brelse lbuf;;;
  brelse dbuf.
Definition install_trans (recovering : bool) : KM unit := for_lh (install_one recovering).

Definition read_head : KM unit :=
  let* lg := getl in
  let* b := bread (u32 (lg_dev lg)) (u32 (lg_start lg)) in
  let* bf := getb b in
  modl (set_lh_n (rds32 (b_data bf) 0));;;
  for_lh (fun i => lh_put i (rds32 (b_data bf) (4 + 4 * Z.to_nat i)));;;
  brelse b.

Definition write_head : KM unit :=
  let* lg := getl in
  let* b := bread (u32 (lg_dev lg)) (u32 (lg_start lg)) in
  let* lg := getl in
  modb b (fun bf => set_b_data (wr32 0 (lh_n lg) (b_data bf)) bf);;;
  for_lh (fun i =>
    let* v := lh_get i in
    modb b (fun bf => set_b_data (wr32 (4 + 4 * Z.to_nat i) v (b_data bf)) bf));;;
  bwrite b;;;
  brelse b.

Definition recover_from_log : KM unit :=
  read_head;;;
  install_trans true;;;
  modl (set_lh_n 0);;;
  write_head.

(** [sizeof(struct logheader)]. *)
Definition sizeof_logheader : Z := 4 + 4 * LOGSIZE.

Definition initlog (dev : Z) (sb : superblock) : KM unit :=
  if BSIZE <=? sizeof_logheader then panic "initlog: too big logheader"
  else
    modl (set_lg_start (s32 (sb_logstart sb)));;;
    modl (set_lg_size (s32 (sb_nlog sb)));;;
    modl (set_lg_dev dev);;;
    recover_from_log.

Definition begin_op : KM unit :=
  acquire L_log;;;
  loop (fun _ =>
    let* lg := getl in
    if lg_committing lg then sleep Ch_log L_log;;; ret (inl tt)
    else if LOGSIZE <? lh_n lg + (lg_outstanding lg + 1) * MAXOPBLOCKS then
      sleep Ch_log L_log;;; ret (inl tt)
    else
      modl (set_lg_outstanding (s32 (lg_outstanding lg + 1)));;;
      release L_log;;;
      ret (inr tt)) tt.

(** Copy modified blocks from cache to log. *)
Definition write_one (tail : Z) : KM unit :=
  let* lg := getl in
  let* to := bread (u32 (lg_dev lg)) (u32 (lg_start lg + tail + 1)) in
  let* lg := getl in
  let* bn := lh_get tail in
  let* from := bread (u32 (lg_dev lg)) (u32 bn) in
  let* fb := getb from in
  modb to (set_b_data (b_data fb));;;
  bwrite to;;;
  brelse from;;;
  brelse to.
Definition write_log : KM unit := for_lh write_one.

Definition commit : KM unit :=
  let* lg := getl in
  when (0 <? lh_n lg)
    (write_log;;;
     write_head;;;
     install_trans false;;;
     modl (set_lh_n 0);;;
     write_head).

Definition end_op : KM unit :=
  acquire L_log;;;
  let* lg := getl in
  modl (set_lg_outstanding (s32 (lg_outstanding lg - 1)));;;
  if lg_committing lg then panic "log.committing"
  else
    let do_commit := s32 (lg_outstanding lg - 1) =? 0 in
    (if do_commit then modl (set_lg_committing true) else wakeup Ch_log);;;
    release L_log;;;
    when do_commit
      (commit;;;
       acquire L_log;;;
       modl (set_lg_committing false);;;
       wakeup Ch_log;;;
       release L_log).

Definition log_write (b : nat) : KM unit :=
  acquire L_log;;;
  let* lg := getl in
  if (LOGSIZE <=? lh_n lg) || (lg_size lg - 1 <=? lh_n lg) then panic "too big a transaction"
  else if lg_outstanding lg <? 1 then panic "log_write outside of trans"
  else
    let* bf := getb b in
    let* r := scan (seq 0 (Z.to_nat (lh_n lg))) (fun i =>
      let* v := lh_get (Z.of_nat i) in
      if u32 v =? b_blockno bf then ret (Some (Z.of_nat i)) else ret None) in
    let i := default (lh_n lg) r in
    lh_put i (s32 (b_blockno bf));;;
    when (i =? lh_n lg)
      (bpin b;;;
       modl (fun lg => set_lh_n (s32 (lh_n lg + 1)) lg));;;
    release L_log.

End Log.
