(* ===== verification/LogSpec.v ===== *)
(** * Crash safety of the log

    [recover] is what recovery does to a disk; the commit takes the disk from
    one whose recovery is the old contents to one whose recovery is the new
    contents, and at every moment in between recovery gives one of the two. *)
From S2P Require Import Prelude Memory State Kalloc Vm Sched SchedSpec Sleeplock Virtio VirtioSpec Bio BioSpec Codec Log.

(** ** The disk format *)
Definition dblk (dk : gmap Z block) (bn : Z) : block := default zblock (dk !! bn).

Lemma dblk_eq dk bn d : dblk (<[bn := d]> dk) bn = d.
Proof. unfold dblk. by rewrite lookup_insert_eq. Qed.
Lemma dblk_ne dk bn bn' d : bn <> bn' -> dblk (<[bn := d]> dk) bn' = dblk dk bn'.
Proof. intros. unfold dblk. by rewrite lookup_insert_ne. Qed.

(** The block numbers in a header block. *)
Definition hdr_n (d : block) : Z := rds32 d 0.
Definition hdr_entries (d : block) : list Z :=
  map (fun i => rds32 d (4 + 4 * i)) (seq 0 (Z.to_nat (hdr_n d))).

(** Storing the list of block numbers into a header block. *)
Fixpoint wr_entries (i : nat) (l : list Z) (d : block) : block :=
  match l with
  | [] => d
  | v :: l' => wr_entries (S i) l' (wr32 (4 + 4 * i) v d)
  end.
Definition hdr_write (l : list Z) (d : block) : block :=
  wr_entries 0 l (wr32 0 (Z.of_nat (length l)) d).

(** Copying the logged blocks, from [lb] on, to their home locations. *)
Fixpoint install (l : list Z) (lb : Z) (dk : gmap Z block) : gmap Z block :=
  match l with
  | [] => dk
  | bn :: l' => install l' (lb + 1) (<[bn := dblk dk lb]> dk)
  end.

(** What recover_from_log does to the disk, for a log that starts at [start]. *)
Definition recover (start : Z) (dk : gmap Z block) : gmap Z block :=
  let dk' := install (hdr_entries (dblk dk start)) (start + 1) dk in
  <[start := hdr_write [] (dblk dk' start)]> dk'.

Lemma length_wr_entries i l d : length (wr_entries i l d) = length d.
Proof. revert i d. induction l as [|v l IH]; intros i d; simpl; [done|]. by rewrite IH, length_wr32. Qed.

Lemma rd32_wr_entries_lo i l d o : (o + 4 <= 4 + 4 * i)%nat -> rd32 (wr_entries i l d) o = rd32 d o.
Proof.
  revert i d. induction l as [|v l IH]; intros i d Ho; cbn [wr_entries]; [done|].
  rewrite IH, rd32_wr32_ne by lia. done.
Qed.

Lemma rd32_wr_entries i l d k v :
  l !! k = Some v -> (4 + 4 * (i + length l) <= length d)%nat ->
  rd32 (wr_entries i l d) (4 + 4 * (i + k)) = u32 v.
Proof.
  revert i d k. induction l as [|w l IH]; intros i d k Hk Hd; [done|]. destruct k as [|k].
  - injection Hk as ->. cbn [wr_entries]. rewrite rd32_wr_entries_lo by lia.
    rewrite Nat.add_0_r. apply rd32_wr32. simpl in Hd. lia.
  - cbn [wr_entries]. replace (i + S k)%nat with (S i + k)%nat by lia. apply IH; [done|].
    rewrite length_wr32. simpl in *. lia.
Qed.

(** The header written is the header read. *)
Lemma hdr_entries_write l d :
  (length l <= 30)%nat -> length d = 1024%nat -> Forall (fun bn => 0 <= bn < 2 ^ 31) l ->
  hdr_entries (hdr_write l d) = l.
Proof.
  intros Hl Hd Hr. unfold hdr_entries, hdr_write, hdr_n, rds32.
  rewrite rd32_wr_entries_lo, rd32_wr32, s32_u32, s32_small, Nat2Z.id by lia.
  apply list_eq. intros k. destruct (l !! k) as [v|] eqn:E.
  - pose proof (lookup_lt_Some _ _ _ E) as Hk. rewrite list_lookup_fmap, lookup_seq_lt by done. simpl.
    pose proof (rd32_wr_entries 0 l (wr32 0 (Z.of_nat (length l)) d) k v E) as Hrd.
    rewrite length_wr32 in Hrd. specialize (Hrd ltac:(lia)).
    change (Some (s32 (rd32 (wr_entries 0 l (wr32 0 (Z.of_nat (length l)) d)) (4 + 4 * (0 + k)))) = Some v).
    rewrite Hrd, s32_u32. f_equal. apply s32_small.
    rewrite Forall_lookup in Hr. specialize (Hr _ _ E). lia.
  - apply lookup_ge_None in E. apply lookup_ge_None. rewrite length_fmap, length_seq. done.
Qed.

Lemma length_hdr_write l d : length (hdr_write l d) = length d.
Proof. unfold hdr_write. by rewrite length_wr_entries, length_wr32. Qed.

Lemma wr_entries_snoc i l v d :
  wr_entries i (l ++ [v]) d = wr32 (4 + 4 * (i + length l)) v (wr_entries i l d).
Proof.
  revert i d. induction l as [|w l IH]; intros i d; cbn [wr_entries app length]; [by rewrite Nat.add_0_r|].
  rewrite IH. do 2 f_equal. lia.
Qed.

(** ** install *)
Lemma install_snoc l v lb dk :
  install (l ++ [v]) lb dk = <[v := dblk (install l lb dk) (lb + Z.of_nat (length l))]> (install l lb dk).
Proof.
  revert lb dk. induction l as [|w l IH]; intros lb dk; simpl; [by rewrite Z.add_0_r|].
  rewrite IH. do 2 f_equal. lia.
Qed.

(** Storing blocks one after the other, from [lb] on. *)
Fixpoint stores (lb : Z) (ds : list block) (dk : gmap Z block) : gmap Z block :=
  match ds with
  | [] => dk
  | d :: ds' => stores (lb + 1) ds' (<[lb := d]> dk)
  end.

Lemma stores_snoc lb ds d dk :
  stores lb (ds ++ [d]) dk = <[lb + Z.of_nat (length ds) := d]> (stores lb ds dk).
Proof.
  revert lb dk. induction ds as [|w ds IH]; intros lb dk; simpl; [by rewrite Z.add_0_r|].
  rewrite IH. f_equal. lia.
Qed.

Lemma stores_ne lb ds dk bn : ~ (lb <= bn < lb + Z.of_nat (length ds)) -> dblk (stores lb ds dk) bn = dblk dk bn.
Proof.
  revert lb dk. induction ds as [|w ds IH]; intros lb dk Hn; simpl in *; [done|].
  rewrite IH, dblk_ne by lia. done.
Qed.

Lemma stores_eq lb ds dk k d : ds !! k = Some d -> dblk (stores lb ds dk) (lb + Z.of_nat k) = d.
Proof.
  revert lb dk k. induction ds as [|w ds IH]; intros lb dk k Hk; [done|]. destruct k as [|k]; simpl.
  - injection Hk as ->. rewrite stores_ne by lia. by rewrite Z.add_0_r, dblk_eq.
  - rewrite <- (IH (lb + 1) (<[lb := w]> dk) k Hk). f_equal. lia.
Qed.

Lemma install_ne l lb dk bn : bn ∉ l -> dblk (install l lb dk) bn = dblk dk bn.
Proof.
  revert lb dk. induction l as [|v l IH]; intros lb dk Hn; simpl; [done|].
  apply not_elem_of_cons in Hn as [? ?]. by rewrite IH, dblk_ne.
Qed.

Lemma install_eq l lb dk k bn :
  NoDup l -> l !! k = Some bn -> (forall j bn', l !! j = Some bn' -> ~ (lb <= bn' < lb + Z.of_nat (length l))) ->
  dblk (install l lb dk) bn = dblk dk (lb + Z.of_nat k).
Proof.
  revert lb dk k. induction l as [|v l IH]; intros lb dk k Hd Hk Hout; [done|]. apply NoDup_cons in Hd as [Hv Hd].
  simpl length in Hout. destruct k as [|k]; simpl.
  - injection Hk as ->. rewrite install_ne by done. rewrite dblk_eq. f_equal. lia.
  - rewrite (IH _ _ k); [|done|done|].
    + rewrite dblk_ne; [f_equal; lia|]. pose proof (Hout 0%nat v eq_refl).
      pose proof (lookup_lt_Some _ _ _ Hk). simpl in *. lia.
    + intros j bn' Hj. specialize (Hout (S j) bn' Hj). lia.
Qed.

(** ** The operations *)
Section Ops.
Context `{KI : KernelImage} `{VD : VirtioDevice} `{VDOK : !VirtioDeviceOk}.
Variable P : gmap Z block -> Prop.
Let C (s : kstate) : Prop := P (k_disk s).
Variables start size : Z.
Hypothesis geom : 0 < start /\ 1 < size <= LOGSIZE /\ start + size < 2 ^ 31.

Definition in_log (bn : Z) : Prop := start <= bn < start + size.

(** The in-memory log: the header lists [l]. *)
Record log_ok (l : list Z) (lg : log) : Prop := {
  lo_start : lg_start lg = start;
  lo_size : lg_size lg = size;
  lo_dev : lg_dev lg = ROOTDEV;
  lo_n : lh_n lg = Z.of_nat (length l);
  lo_blocks : take (length l) (lh_block lg) = l;
  lo_len : length (lh_block lg) = 30%nat
}.

(** Block numbers that may be logged. *)
Record loggable (l : list Z) : Prop := {
  lb_out : Forall (fun bn => 0 <= bn < 2 ^ 31 /\ ~ in_log bn) l;
  lb_len : Z.of_nat (length l) < size
}.

Lemma rest_eq_log p s s' : rest_eq p s s' -> k_log s' = k_log s.
Proof. by intros (ps & vd & bc & dk & E & ->). Qed.

Lemma loggable_at l k bn : loggable l -> l !! k = Some bn -> 0 <= bn < 2 ^ 31 /\ ~ in_log bn.
Proof. intros [Ho _] H. rewrite Forall_lookup in Ho. by eapply Ho. Qed.

Lemma wp_lh_get R C' l i bn Q s :
  log_ok l (k_log s) -> 0 <= i -> l !! Z.to_nat i = Some bn -> Q bn s -> wpc R C' (lh_get i) Q s.
Proof.
  intros [? ? ? ? Hb Hl] Hi Hbn HQ. unfold lh_get, getl. wp_step. wp_step.
  assert (E : lh_block (k_log s) !! Z.to_nat i = Some bn).
  { rewrite <- Hb in Hbn. apply lookup_take_Some in Hbn as [Hbn _]. done. }
  rewrite E. by wp_step.
Qed.

(** The loop over the header. *)
Lemma wp_for_lh R C' body (I : Z -> kstate -> Prop) n Q s :
  0 <= n < 2 ^ 31 - 1 ->
  (forall i s', 0 <= i <= n -> I i s' -> lh_n (k_log s') = n) ->
  (forall i s', 0 <= i < n -> I i s' -> wpc R C' (body i) (fun _ => I (i + 1)) s') ->
  I 0 s -> (forall s', I n s' -> Q tt s') -> wpc R C' (for_lh body) Q s.
Proof.
  intros Hn Hlh Hb H0 HQ. unfold for_lh, getl.
  apply (wp_loop _ (fun i s' => 0 <= i <= n /\ I i s') (fun i _ => n - i)); [|split; [lia|done]|lia].
  intros i s' [Hi HI]. wp_step. wp_step. rewrite (Hlh i s') by done. destruct (Z.ltb_spec i n).
  - wp_step. eapply wp_mono; [apply Hb; [lia | done]|]. intros [] s'' HI'. wp_step.
    rewrite s32_small by lia. split; [split; [lia | done] | lia].
  - wp_step. apply HQ. by replace n with i by lia.
Qed.

(** Both copying loops first get a log block and the home block it belongs to. *)
Definition bread2 (lb i : Z) (k : nat -> nat -> KM unit) : KM unit :=
  let* x := bread ROOTDEV lb in
  let* lg := getl in
  let* bn := lh_get i in
  let* y := bread (u32 (lg_dev lg)) (u32 bn) in
  k x y.

(** The blocks in use with log block [lb] in buffer [t] and home block [bn] in [f]. *)
Definition act2 (act : gmap Z abuf) (dk : gmap Z block) (lb bn : Z) (t f : nat) : gmap Z abuf :=
  <[bn := mkAbuf f (content act dk bn) (refs act bn + 1) true]>
    (<[lb := mkAbuf t (dblk dk lb) 1 true]> act).

Lemma wp_bread2 p act l i lb bn k Q s :
  bio_ok p act s -> log_ok l (k_log s) -> loggable l ->
  0 <= i -> l !! Z.to_nat i = Some bn -> lb = start + i + 1 ->
  act !! lb = None -> (base.size act < NBUF)%nat ->
  match act !! bn with
  | Some a => ab_lock a = false /\ ab_ref a = 1
  | None => (base.size act + 1 < NBUF)%nat
  end ->
  P (k_disk s) ->
  (forall t f s', bio_ok p (act2 act (k_disk s) lb bn t f) s' -> lb <> bn ->
     (forall a, act !! bn = Some a -> ab_idx a = f) -> rest_eq p s s' -> k_disk s' = k_disk s ->
     wpc (seq_rely p) C (k t f) Q s') ->
  wpc (seq_rely p) C (bread2 lb i k) Q s.
Proof.
  intros Hbio Hlog Hl Hi Hbn Elb Hlb Hsz Hget HP HQ.
  assert (Hilt : (Z.to_nat i < length l)%nat) by (by eapply lookup_lt_Some).
  destruct (loggable_at _ _ _ Hl Hbn) as [Hbr Hout]. pose proof (lb_len _ Hl). unfold in_log in Hout.
  assert (Hne : lb <> bn) by lia. unfold bread2, getl. wp_step.
  apply (wp_bread P p act); [done | unfold can_get; by rewrite Hlb | lia | done |].
  intros t s1 Hbio1 _ Hrest1 Hdk1. do 3 wp_step. rewrite (rest_eq_log _ _ _ Hrest1), (lo_dev _ _ Hlog).
  apply (wp_lh_get _ _ l _ bn); [by rewrite (rest_eq_log _ _ _ Hrest1) | done | done |]. wp_step.
  change (u32 ROOTDEV) with ROOTDEV. rewrite (u32_small bn) by lia.
  unfold content, refs in Hbio1. rewrite Hlb in Hbio1. set (act1 := <[lb := _]> act) in *.
  assert (E1 : act1 !! bn = act !! bn) by (unfold act1; by rewrite lookup_insert_ne).
  eapply (wp_bread P p act1); [done | | lia | by rewrite Hdk1|].
  { unfold can_get. rewrite E1. destruct (act !! bn) as [a|]; [split; [tauto | lia]|].
    unfold act1. rewrite map_size_insert_None by done. lia. }
  intros f s2 Hbio2 Hidx Hrest2 Hdk2. rewrite E1 in Hidx.
  apply HQ; [|done | done | by etrans | congruence].
  revert Hbio2. unfold act2, content, refs. by rewrite E1, Hdk1.
Qed.

(** One block of write_log. *)
Lemma wp_write_one p act l i bn a Q s :
  bio_ok p act s -> log_ok l (k_log s) -> loggable l ->
  0 <= i -> l !! Z.to_nat i = Some bn -> act !! bn = Some a -> ab_ref a = 1 -> ab_lock a = false ->
  act !! (start + i + 1) = None -> (base.size act < NBUF)%nat ->
  P (k_disk s) -> P (<[start + i + 1 := ab_data a]> (k_disk s)) ->
  (forall s', bio_ok p act s' -> rest_eq p s s' -> k_disk s' = <[start + i + 1 := ab_data a]> (k_disk s) -> Q tt s') ->
  wpc (seq_rely p) C (write_one i) Q s.
Proof.
  intros Hbio Hlog Hl Hi Hbn Ha Hr Hlk Hlb Hsz HP HP' HQ. set (lb := start + i + 1) in *.
  assert (Hilt : (Z.to_nat i < length l)%nat) by (by eapply lookup_lt_Some). pose proof (lb_len _ Hl).
  unfold write_one, getl at 1, getb, modb. do 2 wp_step. rewrite (lo_start _ _ Hlog), (lo_dev _ _ Hlog). fold lb.
  change (u32 ROOTDEV) with ROOTDEV. rewrite (u32_small lb) by lia.
  eapply (wp_bread2 p act l i lb bn); [done.. | by rewrite Ha | done |].
  intros t f s2 Hbio2 Hne Hidx Hrest2 Hdk2. specialize (Hidx _ Ha). subst f.
  unfold act2, content, refs in Hbio2. rewrite Ha, Hr in Hbio2. set (acta := <[bn := _]> _) in Hbio2.
  assert (Hf : acta !! bn = Some (mkAbuf (ab_idx a) (ab_data a) 2 true)) by (unfold acta; by rewrite lookup_insert_eq).
  assert (Ht : acta !! lb = Some (mkAbuf t (dblk (k_disk s) lb) 1 true))
    by (unfold acta; by rewrite lookup_insert_ne, lookup_insert_eq by done).
  destruct (bi_act _ _ _ _ (bo_inv _ _ _ Hbio2) bn _ Hf) as [Hfb _]. simpl ab_idx in Hfb.
  do 4 wp_step. rewrite (buf_of_lookup _ _ _ Hfb). simpl b_data.
  pose proof (bio_ok_upd p acta lb _ (set_b_data (ab_data a)) (ab_data a) 1 true s2 Hbio2 Ht ltac:(lia) eq_refl) as Hbio3.
  simpl ab_idx in Hbio3. set (s3 := upd_buf t _ s2) in *. set (act3 := <[lb := _]> acta) in *. wp_step.
  assert (Ht3 : act3 !! lb = Some (mkAbuf t (ab_data a) 1 true)) by (unfold act3; by rewrite lookup_insert_eq).
  assert (Hf3 : act3 !! bn = Some (mkAbuf (ab_idx a) (ab_data a) 2 true)) by (unfold act3; by rewrite lookup_insert_ne).
  assert (Hdk3 : k_disk s3 = k_disk s) by done.
  apply (wp_bwrite P p act3 lb _ _ _ Hbio3 Ht3); [done | lia | by rewrite Hdk3 | by rewrite Hdk3 |].
  intros s4 Hbio4 Hrest4 Hdk4. wp_step. simpl ab_data in Hdk4. rewrite Hdk3 in Hdk4.
  apply (wp_brelse P p act3 bn _ _ _ Hbio4 Hf3); [done | done |]. unfold drop_ref. cbn [ab_ref ab_idx ab_data Z.eqb Pos.eqb].
  intros s5 Hbio5 Hrest5 Hdk5. set (act4 := <[bn := _]> act3) in *.
  assert (Ht5 : act4 !! lb = Some (mkAbuf t (ab_data a) 1 true)) by (unfold act4; by rewrite lookup_insert_ne by done).
  apply (wp_brelse P p act4 lb _ _ _ Hbio5 Ht5); [done | simpl; intros _; rewrite Hdk5, Hdk4, lookup_insert_eq; done |].
  unfold drop_ref. cbn [ab_ref Z.eqb Pos.eqb]. intros s6 Hbio6 Hrest6 Hdk6.
  apply HQ; [| |by rewrite Hdk6, Hdk5].
  2: { etrans; [exact Hrest2|]. etrans; [apply rest_eq_bcache|]. etrans; [exact Hrest4|]. by etrans. }
  replace act with (delete lb act4); [done|].
  apply map_eq. intros k. unfold act4, act3, acta. destruct a; simpl in *; subst.
  destruct (decide (k = lb)) as [->|]; [by rewrite lookup_delete_eq|]. rewrite lookup_delete_ne by done.
  destruct (decide (k = bn)) as [->|]; [by rewrite lookup_insert_eq|]. by rewrite !lookup_insert_ne.
Qed.

(** One block of install_trans. *)
Lemma wp_install_one p act l i bn (rec : bool) Q s :
  bio_ok p act s -> log_ok l (k_log s) -> loggable l ->
  0 <= i -> l !! Z.to_nat i = Some bn ->
  (if rec then act !! bn = None /\ (base.size act + 1 < NBUF)%nat
   else exists a, act !! bn = Some a /\ ab_ref a = 1 /\ ab_lock a = false) ->
  act !! (start + i + 1) = None -> (base.size act < NBUF)%nat ->
  P (k_disk s) -> P (<[bn := dblk (k_disk s) (start + i + 1)]> (k_disk s)) ->
  (forall s', bio_ok p (delete bn act) s' -> rest_eq p s s' ->
     k_disk s' = <[bn := dblk (k_disk s) (start + i + 1)]> (k_disk s) -> Q tt s') ->
  wpc (seq_rely p) C (install_one rec i) Q s.
Proof.
  intros Hbio Hlog Hl Hi Hbn Hpin Hlb Hsz HP HP' HQ. set (lb := start + i + 1) in *.
  assert (Hilt : (Z.to_nat i < length l)%nat) by (by eapply lookup_lt_Some). pose proof (lb_len _ Hl).
  destruct (loggable_at _ _ _ Hl Hbn) as [Hbr _].
  unfold install_one, getl at 1, getb, modb. do 2 wp_step. rewrite (lo_start _ _ Hlog), (lo_dev _ _ Hlog). fold lb.
  change (u32 ROOTDEV) with ROOTDEV. rewrite (u32_small lb) by lia.
  assert (Hr : refs act bn = if rec then 0 else 1).
  { unfold refs. destruct rec; [by destruct Hpin as [-> _]|]. by destruct Hpin as (a & -> & ? & _). }
  eapply (wp_bread2 p act l i lb bn); [done.. | | done |].
  { destruct rec; [by destruct Hpin as [-> ?]|]. by destruct Hpin as (a & -> & ? & ?). }
  intros t f s2 Hbio2 Hne Hidx Hrest2 Hdk2.
  unfold act2 in Hbio2. rewrite Hr in Hbio2. set (acta := <[bn := _]> _) in Hbio2. set (d := dblk (k_disk s) lb) in *.
  assert (Hf : exists d', acta !! bn = Some (mkAbuf f d' ((if rec then 0 else 1) + 1) true))
    by (unfold acta; rewrite lookup_insert_eq; eauto). destruct Hf as [d' Hf].
  assert (Ht : acta !! lb = Some (mkAbuf t d 1 true))
    by (unfold acta; by rewrite lookup_insert_ne, lookup_insert_eq by done).
  destruct (bi_act _ _ _ _ (bo_inv _ _ _ Hbio2) lb _ Ht) as [Htb _]. simpl ab_idx in Htb.
  do 4 wp_step. rewrite (buf_of_lookup _ _ _ Htb). simpl b_data.
  pose proof (bio_ok_upd p acta bn _ (set_b_data d) d ((if rec then 0 else 1) + 1) true s2 Hbio2 Hf ltac:(destruct rec; lia) eq_refl) as Hbio3.
  simpl ab_idx in Hbio3. set (s3 := upd_buf f _ s2) in *. set (act3 := <[bn := _]> acta) in *. wp_step.
  assert (Hf3 : act3 !! bn = Some (mkAbuf f d ((if rec then 0 else 1) + 1) true)) by (unfold act3; by rewrite lookup_insert_eq).
  assert (Hdk3 : k_disk s3 = k_disk s) by done.
  apply (wp_bwrite P p act3 bn _ _ _ Hbio3 Hf3); [done | lia | by rewrite Hdk3 | by rewrite Hdk3 |].
  intros s4 Hbio4 Hrest4 Hdk4. wp_step. simpl ab_data in Hdk4. rewrite Hdk3 in Hdk4.
  set (act5 := <[bn := mkAbuf f d 1 true]> act3).
  assert (Hun : forall Q', (forall s5, bio_ok p act5 s5 -> rest_eq p s4 s5 -> k_disk s5 = k_disk s4 -> Q' tt s5) ->
    wpc (seq_rely p) C (when (negb rec) (bunpin f)) Q' s4).
  { intros Q' HQ'. destruct rec; simpl.
    - apply HQ'; [|reflexivity|done]. unfold act5. by rewrite insert_id.
    - apply (wp_bunpin P p act3 bn _ _ _ Hbio4 Hf3); [simpl; lia|]. by apply HQ'. }
  apply Hun. intros s5 Hbio5 Hrest5 Hdk5. wp_step.
  assert (Ht5 : act5 !! lb = Some (mkAbuf t d 1 true)) by (unfold act5, act3; by rewrite !lookup_insert_ne).
  apply (wp_brelse P p act5 lb _ _ _ Hbio5 Ht5); [done | simpl; intros _; rewrite Hdk5, Hdk4, lookup_insert_ne; done |].
  unfold drop_ref. cbn [ab_ref Z.eqb Pos.eqb]. intros s6 Hbio6 Hrest6 Hdk6.
  assert (Hf6 : delete lb act5 !! bn = Some (mkAbuf f d 1 true))
    by (rewrite lookup_delete_ne by done; unfold act5; by rewrite lookup_insert_eq).
  apply (wp_brelse P p _ bn _ _ _ Hbio6 Hf6); [done | simpl; intros _; rewrite Hdk6, Hdk5, Hdk4, lookup_insert_eq; done |].
  unfold drop_ref. cbn [ab_ref Z.eqb Pos.eqb]. intros s7 Hbio7 Hrest7 Hdk7.
  apply HQ; [| |by rewrite Hdk7, Hdk6, Hdk5].
  2: { etrans; [exact Hrest2|]. etrans; [apply rest_eq_bcache|]. etrans; [exact Hrest4|]. etrans; [exact Hrest5|]. by etrans. }
  replace (delete bn act) with (delete bn (delete lb act5)); [done|].
  apply map_eq. intros k. unfold act5, act3, acta.
  destruct (decide (k = bn)) as [->|]; [by rewrite !lookup_delete_eq|]. rewrite !(lookup_delete_ne _ bn) by done.
  destruct (decide (k = lb)) as [->|]; [by rewrite lookup_delete_eq|]. by rewrite lookup_delete_ne, !lookup_insert_ne.
Qed.

Lemma wp_write_head p act l Q s :
  bio_ok p act s -> log_ok l (k_log s) -> (length l <= 30)%nat ->
  act !! start = None -> (base.size act < NBUF)%nat ->
  P (k_disk s) -> P (<[start := hdr_write l (dblk (k_disk s) start)]> (k_disk s)) ->
  (forall s', bio_ok p act s' -> rest_eq p s s' ->
     k_disk s' = <[start := hdr_write l (dblk (k_disk s) start)]> (k_disk s) -> Q tt s') ->
  wpc (seq_rely p) C write_head Q s.
Proof.
  intros Hbio Hlog Hlen Hst Hsz HP HP' HQ. unfold write_head, getl, modb.
  wp_step. wp_step. wp_step. rewrite (lo_start _ _ Hlog), (lo_dev _ _ Hlog).
  change (u32 ROOTDEV) with ROOTDEV. rewrite (u32_small start) by (unfold LOGSIZE, MAXOPBLOCKS in *; lia).
  apply (wp_bread P p act); [done | unfold can_get; by rewrite Hst | unfold LOGSIZE, MAXOPBLOCKS in *; lia | done |].
  intros b s1 Hbio1 _ Hrest1 Hdk1. unfold content, refs in Hbio1. rewrite Hst in Hbio1.
  do 4 wp_step. rewrite (rest_eq_log _ _ _ Hrest1), (lo_n _ _ Hlog). set (d := dblk (k_disk s) start) in *.
  set (dat := fun i : nat => wr_entries 0 (take i l) (wr32 0 (Z.of_nat (length l)) d)).
  wp_step. eapply (wp_for_lh _ _ _ (fun i s' =>
    bio_ok p (<[start := mkAbuf b (dat (Z.to_nat i)) 1 true]> act) s' /\ rest_eq p s s' /\ k_disk s' = k_disk s)
    (Z.of_nat (length l))).
  - lia.
  - intros i s' Hi (_ & Hr & _). by rewrite (rest_eq_log _ _ _ Hr), (lo_n _ _ Hlog).
  - intros i s' Hi (Hb & Hr & Hd). wp_step.
    destruct (lookup_lt_is_Some_2 l (Z.to_nat i)) as [v Hv]; [lia|].
    apply (wp_lh_get _ _ l _ v); [by rewrite (rest_eq_log _ _ _ Hr) | lia | done |]. wp_step.
    split_and!; [|etrans; [exact Hr | apply rest_eq_bcache] | done].
    eapply (bio_ok_upd p _ start (mkAbuf b (dat (Z.to_nat i)) 1 true) _ (dat (Z.to_nat (i + 1))) 1 true) in Hb;
      [|by rewrite lookup_insert_eq | lia |].
    + rewrite insert_insert_eq in Hb. exact Hb.
    + unfold set_b_data, abuf_buf. simpl. f_equal. unfold dat.
      replace (Z.to_nat (i + 1)) with (S (Z.to_nat i)) by lia. rewrite (take_S_r _ _ _ Hv), wr_entries_snoc.
      rewrite length_take, Nat.min_l by lia. done.
  - pose proof (bio_ok_upd p _ start (mkAbuf b d 1 true) (fun bf => set_b_data (wr32 0 (Z.of_nat (length l)) (b_data bf)) bf)
      (dat 0%nat) 1 true s1 Hbio1 ltac:(by rewrite lookup_insert_eq) ltac:(lia) eq_refl) as Hb.
    rewrite insert_insert_eq in Hb. split_and!; [exact Hb | etrans; [exact Hrest1 | apply rest_eq_bcache] | done].
  - intros s2 (Hbio2 & Hrest2 & Hdk2). rewrite Nat2Z.id in Hbio2.
    assert (E : dat (length l) = hdr_write l d) by (unfold dat; by rewrite take_ge).
    rewrite E in Hbio2. set (a := mkAbuf b _ 1 true) in *. set (actb := <[start := a]> act) in *.
    assert (Ha : actb !! start = Some a) by (unfold actb; by rewrite lookup_insert_eq).
    wp_step. change b with (ab_idx a).
    apply (wp_bwrite P p actb start _ _ _ Hbio2 Ha); [done | unfold LOGSIZE, MAXOPBLOCKS in *; lia | by rewrite Hdk2 | by rewrite Hdk2 |].
    intros s3 Hbio3 Hrest3 Hdk3. rewrite Hdk2 in Hdk3.
    apply (wp_brelse P p actb start _ _ _ Hbio3 Ha); [done | by rewrite Hdk3, lookup_insert_eq |].
    unfold drop_ref, a at 1, actb. simpl. rewrite delete_insert_id by done.
    intros s4 Hbio4 Hrest4 Hdk4. apply HQ; [done | etrans; [exact Hrest2|]; by etrans | by rewrite Hdk4].
Qed.

(** The blocks of [l], and no others, are in use, pinned once each. *)
Definition pinned (l : list Z) (act : gmap Z abuf) : Prop :=
  (forall bn a, act !! bn = Some a -> bn ∈ l /\ ab_ref a = 1 /\ ab_lock a = false) /\
  (forall bn, bn ∈ l -> is_Some (act !! bn)).

Lemma pinned_size l act : NoDup l -> pinned l act -> (base.size act <= length l)%nat.
Proof.
  intros Hnd [H1 _]. rewrite <- size_dom, <- (size_list_to_set (C := gset Z)) by done.
  apply subseteq_size. intros bn Hbn. apply elem_of_dom in Hbn as [a Ha]. apply elem_of_list_to_set. by eapply H1.
Qed.

Lemma pinned_delete bn l act : NoDup (bn :: l) -> pinned (bn :: l) act -> pinned l (delete bn act).
Proof.
  intros Hd [H1 H2]. apply NoDup_cons in Hd as [Hn _]. split.
  - intros bn' a Ha. apply lookup_delete_Some in Ha as [Hne Ha]. destruct (H1 _ _ Ha) as [Hin ?].
    split; [|done]. by apply elem_of_cons in Hin as [->|].
  - intros bn' Hin. rewrite lookup_delete_ne by (intros ->; done). apply H2. by right.
Qed.

Lemma pinned_nil act : pinned [] act -> act = ∅.
Proof.
  intros [H _]. apply map_empty. intros bn. destruct (act !! bn) as [a|] eqn:E; [|done].
  apply H in E as [E _]. by apply elem_of_nil in E.
Qed.

Lemma pinned_log l act bn : loggable l -> pinned l act -> in_log bn -> act !! bn = None.
Proof.
  intros [Ho _] [H _] Hin. destruct (act !! bn) as [a|] eqn:E; [|done]. apply H in E as [E _].
  rewrite Forall_forall in Ho. by apply Ho in E as [_ ?].
Qed.

Lemma NoDup_drop {A} i (l : list A) : NoDup l -> NoDup (drop i l).
Proof. rewrite <- (take_drop i l) at 1. intros H. by apply NoDup_app in H as (_ & _ & H). Qed.

Lemma loggable_drop l i : loggable l -> loggable (drop i l).
Proof. intros [Ho Hl]. split; [by apply Forall_drop | rewrite length_drop; lia]. Qed.

(** The cache during install_trans: the first [i] blocks are unpinned. *)
Definition installing (rec : bool) (l : list Z) (i : nat) (act : gmap Z abuf) : Prop :=
  if rec then act = ∅ else pinned (drop i l) act.

Lemma wp_install_trans p act l rec Q s :
  bio_ok p act s -> log_ok l (k_log s) -> loggable l -> NoDup l -> installing rec l 0 act ->
  (forall i, (i <= length l)%nat -> P (install (take i l) (start + 1) (k_disk s))) ->
  (forall s', bio_ok p ∅ s' -> rest_eq p s s' -> k_disk s' = install l (start + 1) (k_disk s) -> Q tt s') ->
  wpc (seq_rely p) C (install_trans rec) Q s.
Proof.
  intros Hbio Hlog Hl Hnd Hact HP HQ. pose proof (lb_len _ Hl) as Hlen. unfold LOGSIZE, MAXOPBLOCKS in geom.
  unfold install_trans. apply (wp_for_lh _ _ _ (fun i s' => exists act', installing rec l (Z.to_nat i) act' /\ bio_ok p act' s' /\
    rest_eq p s s' /\ k_disk s' = install (take (Z.to_nat i) l) (start + 1) (k_disk s)) (Z.of_nat (length l))).
  - lia.
  - intros i s' Hi (_ & _ & _ & Hr & _). by rewrite (rest_eq_log _ _ _ Hr), (lo_n _ _ Hlog).
  - intros i s' Hi (act' & Hact' & Hb & Hr & Hd).
    destruct (lookup_lt_is_Some_2 l (Z.to_nat i)) as [bn Hbn]; [lia|].
    pose proof (HP (S (Z.to_nat i)) ltac:(lia)) as HPi. rewrite (take_S_r _ _ _ Hbn), install_snoc in HPi.
    rewrite length_take, Nat.min_l, Z2Nat.id in HPi by lia. rewrite <- Hd in HPi.
    replace (start + 1 + i) with (start + i + 1) in HPi by lia.
    assert (Hsz : (base.size act' < NBUF - if rec then 1 else 0)%nat).
    { destruct rec; unfold installing in Hact'; [subst; rewrite map_size_empty; unfold NBUF; lia|].
      apply pinned_size in Hact'; [|by apply NoDup_drop]. rewrite length_drop in Hact'. unfold NBUF. lia. }
    assert (Hin : in_log (start + i + 1)) by (unfold in_log; lia).
    eapply (wp_install_one p act' l i bn).
    + done.
    + by rewrite (rest_eq_log _ _ _ Hr).
    + done.
    + lia.
    + done.
    + destruct rec; unfold installing in Hact'; [subst act'; split; [apply lookup_empty | lia]|].
      destruct Hact' as [H1 H2]. destruct (H2 bn) as [a Ha]; [apply list_elem_of_lookup; exists 0%nat; by rewrite lookup_drop, Nat.add_0_r|].
      exists a. split; [done|]. by apply H1 in Ha as [_ Ha].
    + destruct rec; unfold installing in Hact'; [subst act'; apply lookup_empty|]. eapply pinned_log; [|done|done]. by apply loggable_drop.
    + lia.
    + rewrite Hd. apply HP. lia.
    + exact HPi.
    + intros s2 Hb2 Hr2 Hd2. exists (delete bn act'). replace (Z.to_nat (i + 1)) with (S (Z.to_nat i)) by lia. split_and!.
      * destruct rec; unfold installing in *; [subst; apply delete_empty|]. rewrite (drop_S _ _ _ Hbn) in Hact'.
        apply pinned_delete; [|done]. rewrite <- (drop_S _ _ _ Hbn). by apply NoDup_drop.
      * done.
      * by etrans.
      * rewrite Hd2, (take_S_r _ _ _ Hbn), install_snoc, length_take, Nat.min_l, Z2Nat.id by lia.
        rewrite Hd. do 2 f_equal. lia.
  - exists act. split_and!; [done | done | reflexivity | done].
  - intros s' (act' & Hact' & Hb & Hr & Hd). rewrite Nat2Z.id in *. rewrite take_ge in Hd by lia.
    assert (act' = ∅) as ->.
    { destruct rec; unfold installing in Hact'; [done|]. rewrite drop_ge in Hact' by lia. by apply pinned_nil. }
    by apply HQ.
Qed.

(** write_log: [ds] is the cached contents of the blocks of [l]. *)
Lemma wp_write_log p act l ds Q s :
  bio_ok p act s -> log_ok l (k_log s) -> loggable l -> NoDup l -> pinned l act ->
  length ds = length l ->
  (forall k bn a, l !! k = Some bn -> act !! bn = Some a -> ds !! k = Some (ab_data a)) ->
  (forall i, (i <= length l)%nat -> P (stores (start + 1) (take i ds) (k_disk s))) ->
  (forall s', bio_ok p act s' -> rest_eq p s s' -> k_disk s' = stores (start + 1) ds (k_disk s) -> Q tt s') ->
  wpc (seq_rely p) C write_log Q s.
Proof.
  intros Hbio Hlog Hl Hnd Hpin Hlds Hds HP HQ. pose proof (lb_len _ Hl) as Hlen. unfold LOGSIZE, MAXOPBLOCKS in geom.
  unfold write_log. apply (wp_for_lh _ _ _ (fun i s' => bio_ok p act s' /\
    rest_eq p s s' /\ k_disk s' = stores (start + 1) (take (Z.to_nat i) ds) (k_disk s)) (Z.of_nat (length l))).
  - lia.
  - intros i s' Hi (_ & Hr & _). by rewrite (rest_eq_log _ _ _ Hr), (lo_n _ _ Hlog).
  - intros i s' Hi (Hb & Hr & Hd).
    destruct (lookup_lt_is_Some_2 l (Z.to_nat i)) as [bn Hbn]; [lia|].
    destruct (proj2 Hpin bn) as [a Ha]; [by eapply list_elem_of_lookup_2|].
    destruct (proj1 Hpin bn a Ha) as (_ & Hr1 & Hlk).
    pose proof (Hds _ _ _ Hbn Ha) as Hdi.
    pose proof (HP (S (Z.to_nat i)) ltac:(lia)) as HPi. rewrite (take_S_r _ _ _ Hdi), stores_snoc in HPi.
    rewrite length_take, Nat.min_l, Z2Nat.id in HPi by lia. rewrite <- Hd in HPi.
    replace (start + 1 + i) with (start + i + 1) in HPi by lia.
    pose proof (pinned_size _ _ Hnd Hpin).
    eapply (wp_write_one p act l i bn a).
    + done.
    + by rewrite (rest_eq_log _ _ _ Hr).
    + done.
    + lia.
    + done.
    + done.
    + done.
    + done.
    + eapply pinned_log; [done|done|]. unfold in_log. lia.
    + unfold NBUF. lia.
    + rewrite Hd. apply HP. lia.
    + exact HPi.
    + intros s2 Hb2 Hr2 Hd2. replace (Z.to_nat (i + 1)) with (S (Z.to_nat i)) by lia. split_and!.
      * done.
      * by etrans.
      * rewrite Hd2, (take_S_r _ _ _ Hdi), stores_snoc, length_take, Nat.min_l, Z2Nat.id by lia.
        rewrite Hd. f_equal. lia.
  - split_and!; [done | reflexivity | done].
  - intros s' (Hb & Hr & Hd). rewrite Nat2Z.id in *. rewrite take_ge in Hd by lia. by apply HQ.
Qed.

End Ops.
