(* ===== verification/LogCrash.v ===== *)
(** * The log: commit, recovery and what a crash leaves *)
From S2P Require Import Prelude Memory State Kalloc Vm Sched SchedSpec Sleeplock Virtio VirtioSpec Bio BioSpec Codec Log LogSpec.

(** Same contents outside the log. *)
Definition eq_data (start size : Z) (dk dk' : gmap Z block) : Prop :=
  forall bn, ~ in_log start size bn -> dblk dk bn = dblk dk' bn.

#[global] Instance eq_data_equiv start size : Equivalence (eq_data start size).
Proof. split; red; unfold eq_data; intros; [done | symmetry; auto | etrans; auto]. Qed.

(** A disk with the blocks [ds] stored at [l]. *)
Fixpoint tx (l : list Z) (ds : list block) (dk : gmap Z block) : gmap Z block :=
  match l, ds with
  | bn :: l', d :: ds' => tx l' ds' (<[bn := d]> dk)
  | _, _ => dk
  end.

Lemma tx_ne l ds dk bn : bn ∉ l -> dblk (tx l ds dk) bn = dblk dk bn.
Proof.
  revert ds dk. induction l as [|v l IH]; intros [|d ds] dk Hn; simpl; try done.
  apply not_elem_of_cons in Hn as [? ?]. by rewrite IH, dblk_ne.
Qed.

Lemma tx_eq l ds dk k bn d : NoDup l -> l !! k = Some bn -> ds !! k = Some d -> dblk (tx l ds dk) bn = d.
Proof.
  revert ds dk k. induction l as [|v l IH]; intros [|d' ds] dk k Hd Hk Hds; try done.
  apply NoDup_cons in Hd as [Hv Hd]. destruct k as [|k]; simpl.
  - injection Hk as ->. injection Hds as ->. by rewrite tx_ne, dblk_eq.
  - by eapply IH.
Qed.

Section Crash.
Context (start size : Z) (geom : 0 < start /\ 1 < size <= LOGSIZE /\ start + size < 2 ^ 31).
Notation "a ≈ b" := (eq_data start size a b) (at level 70).

Lemma start_in_log : in_log start size start.
Proof. unfold in_log. lia. Qed.

Lemma eq_data_log dk bn d : in_log start size bn -> <[bn := d]> dk ≈ dk.
Proof. intros Hin bn' Hn. apply dblk_ne. by intros ->. Qed.

Lemma recover_clean dk : hdr_entries (dblk dk start) = [] -> recover start dk ≈ dk.
Proof. intros H. unfold recover. rewrite H. apply eq_data_log, start_in_log. Qed.

Lemma hdr_clear d : length d = 1024%nat -> hdr_entries (hdr_write [] d) = [].
Proof. intros. apply hdr_entries_write; [simpl; lia | done | constructor]. Qed.

(** The disk once the log has been installed. *)
Lemma installed_clear l ds dk dk0 :
  loggable start size l -> NoDup l -> length ds = length l ->
  (forall k d, ds !! k = Some d -> dblk dk (start + 1 + Z.of_nat k) = d) ->
  (forall bn, bn ∉ l -> ~ in_log start size bn -> dblk dk bn = dblk dk0 bn) ->
  install l (start + 1) dk ≈ tx l ds dk0.
Proof.
  intros Hl Hnd Hlen Hlog Hout bn Hbn. destruct (decide (bn ∈ l)) as [Hin|Hin].
  - apply list_elem_of_lookup in Hin as [k Hk]. pose proof (lookup_lt_Some _ _ _ Hk).
    destruct (lookup_lt_is_Some_2 ds k) as [d Hd]; [lia|].
    rewrite (install_eq _ _ _ k), (Hlog _ _ Hd), (tx_eq l ds _ k bn d); [done..|].
    intros j bn' Hj. destruct (loggable_at _ _ _ _ _ Hl Hj) as [_ Ho]. pose proof (lb_len _ _ _ Hl).
    unfold in_log in Ho. lia.
  - rewrite install_ne, tx_ne by done. by apply Hout.
Qed.

(** Recovery of a committed log. *)
Lemma recover_committed l ds dk dk0 :
  loggable start size l -> NoDup l -> length ds = length l ->
  hdr_entries (dblk dk start) = l ->
  (forall k d, ds !! k = Some d -> dblk dk (start + 1 + Z.of_nat k) = d) ->
  (forall bn, bn ∉ l -> ~ in_log start size bn -> dblk dk bn = dblk dk0 bn) ->
  recover start dk ≈ tx l ds dk0.
Proof.
  intros Hl Hnd Hlen Hh Hlog Hout. unfold recover. rewrite Hh.
  etrans; [apply eq_data_log, start_in_log | by apply installed_clear].
Qed.

(** During the installation the log stays committed. *)
Lemma install_log l k lb dk :
  loggable start size l -> in_log start size lb -> dblk (install (take k l) (start + 1) dk) lb = dblk dk lb.
Proof.
  intros Hl Hin. apply install_ne. intros Hx. apply elem_of_take in Hx as (j & Hj & _).
  by destruct (loggable_at _ _ _ _ _ Hl Hj).
Qed.

Lemma recover_installing l ds dk dk0 k :
  loggable start size l -> NoDup l -> length ds = length l ->
  hdr_entries (dblk dk start) = l ->
  (forall k d, ds !! k = Some d -> dblk dk (start + 1 + Z.of_nat k) = d) ->
  (forall bn, bn ∉ l -> ~ in_log start size bn -> dblk dk bn = dblk dk0 bn) ->
  recover start (install (take k l) (start + 1) dk) ≈ tx l ds dk0.
Proof.
  intros Hl Hnd Hlen Hh Hlog Hout. pose proof (lb_len _ _ _ Hl). apply recover_committed; try done.
  - rewrite install_log; [done | done | apply start_in_log].
  - intros j d Hd. rewrite install_log; [by apply Hlog | done|]. apply lookup_lt_Some in Hd. unfold in_log. lia.
  - intros bn Hn Ho. rewrite install_ne; [by apply Hout|]. intros Hx. apply Hn. by eapply subseteq_take.
Qed.

End Crash.

Section Commit.
Context `{KI : KernelImage} `{VD : VirtioDevice} `{VDOK : !VirtioDeviceOk}.
Context (start size : Z) (geom : 0 < start /\ 1 < size <= LOGSIZE /\ start + size < 2 ^ 31).

(** The on-disk log is empty. *)
Definition log_clean (dk : gmap Z block) : Prop :=
  length (dblk dk start) = 1024%nat /\ hdr_entries (dblk dk start) = [].

(** What a crash may leave: after recovery, all of the transaction or nothing. *)
Definition old_or_new (old new : gmap Z block) (s : kstate) : Prop :=
  eq_data start size (recover start (k_disk s)) old \/ eq_data start size (recover start (k_disk s)) new.

(** Only the log and what [rest_eq] names changed. *)
Definition frame (p : nat) (s s' : kstate) : Prop := exists lg, rest_eq p (set_log (fun _ => lg) s) s'.

Lemma rest_frame p s s' : rest_eq p s s' -> frame p s s'.
Proof. intros H. exists (k_log s). by destruct s. Qed.

Lemma frame_log p f s : frame p s (set_log f s).
Proof. exists (f (k_log s)). by destruct s. Qed.

#[global] Instance frame_trans p : Transitive (frame p).
Proof.
  intros s1 s2 s3 (lg & ps & vd & bc & dk & E & ->) (lg' & ps' & vd' & bc' & dk' & E' & ->).
  exists lg'. exists ps', vd', bc', dk'. split; [by rewrite E'; simpl; rewrite E | done].
Qed.

Lemma bio_ok_log p act f s : bio_ok p act s -> bio_ok p act (set_log f s).
Proof. intros [[? ? ? ? ? ? ?] Hinv]. by split. Qed.

Lemma log_ok_clear l lg : log_ok start size l lg -> log_ok start size [] (set_lh_n 0 lg).
Proof. by intros [? ? ? ? ? ?]. Qed.

Section Tx.
Context (p : nat) (act : gmap Z abuf) (l : list Z) (ds : list block) (s : kstate).
Hypothesis Hbio : bio_ok p act s.
Hypothesis Hlog : log_ok start size l (k_log s).
Hypothesis Hl : loggable start size l.
Hypothesis Hnd : NoDup l.
Hypothesis Hpin : pinned l act.
Hypothesis Hlds : length ds = length l.
Hypothesis Hds : forall k bn a, l !! k = Some bn -> act !! bn = Some a -> ds !! k = Some (ab_data a).
Hypothesis Hclean : log_clean (k_disk s).

Let dk0 := k_disk s.
Let dkn := tx l ds (k_disk s).
Let P (dk : gmap Z block) : Prop :=
  eq_data start size (recover start dk) dk0 \/ eq_data start size (recover start dk) dkn.

Let dk1 := stores (start + 1) ds dk0.
Let dk2 := <[start := hdr_write l (dblk dk1 start)]> dk1.

Lemma stores_out i bn : ~ in_log start size bn -> dblk (stores (start + 1) (take i ds) dk0) bn = dblk dk0 bn.
Proof.
  intros Hn. apply stores_ne. pose proof (lb_len _ _ _ Hl). rewrite length_take. unfold in_log in Hn. lia.
Qed.

Lemma stores_hdr ds' : dblk (stores (start + 1) ds' dk0) start = dblk dk0 start.
Proof. apply stores_ne. lia. Qed.

Lemma P_stores i : P (stores (start + 1) (take i ds) dk0).
Proof.
  left. rewrite recover_clean by (try done; by rewrite stores_hdr; apply Hclean).
  intros bn Hn. by apply stores_out.
Qed.

Lemma dk2_hdr : hdr_entries (dblk dk2 start) = l.
Proof.
  unfold dk2. rewrite dblk_eq. unfold dk1. rewrite stores_hdr. pose proof (lb_len _ _ _ Hl).
  unfold LOGSIZE, MAXOPBLOCKS in geom. apply hdr_entries_write; [lia | apply Hclean |].
  eapply Forall_impl; [apply (lb_out _ _ _ Hl)|]. tauto.
Qed.

Lemma dk2_log k d : ds !! k = Some d -> dblk dk2 (start + 1 + Z.of_nat k) = d.
Proof. intros Hd. unfold dk2, dk1. rewrite dblk_ne by lia. by apply stores_eq. Qed.

Lemma dk2_out bn : bn ∉ l -> ~ in_log start size bn -> dblk dk2 bn = dblk dk0 bn.
Proof.
  intros _ Hn. unfold dk2, dk1. rewrite dblk_ne; [|intros <-; apply Hn; by apply start_in_log].
  rewrite <- (take_ge ds (length ds)) by lia. by apply stores_out.
Qed.

Lemma P_install k : P (install (take k l) (start + 1) dk2).
Proof.
  right. apply recover_installing; [done.. | apply dk2_hdr | apply dk2_log | apply dk2_out].
Qed.

Lemma dk_final :
  let dk3 := install l (start + 1) dk2 in
  let dk4 := <[start := hdr_write [] (dblk dk3 start)]> dk3 in
  log_clean dk4 /\ eq_data start size dk4 dkn.
Proof.
  intros dk3 dk4.
  assert (E : dblk dk3 start = dblk dk2 start).
  { unfold dk3. rewrite <- (take_ge l (length l)) by lia. eapply install_log; [done | by apply start_in_log]. }
  assert (Hlen : length (dblk dk3 start) = 1024%nat).
  { rewrite E. unfold dk2. rewrite dblk_eq, length_hdr_write. unfold dk1. rewrite stores_hdr. apply Hclean. }
  split.
  - unfold dk4, log_clean. rewrite dblk_eq, length_hdr_write. split; [done | by apply hdr_clear].
  - unfold dk4. etrans; [apply eq_data_log; by apply start_in_log|].
    apply installed_clear; [done.. | apply dk2_log | apply dk2_out].
Qed.

Lemma wp_commit Q :
  (forall s', bio_ok p ∅ s' -> frame p s s' -> log_ok start size [] (k_log s') -> log_clean (k_disk s') ->
     eq_data start size (k_disk s') dkn ->
     (exists n lb, k_log s' = set_lh_block lb (set_lh_n n (k_log s))) -> Q tt s') ->
  wpc (seq_rely p) (fun s => P (k_disk s)) commit Q s.
Proof.
  intros HQ. unfold commit, getl, modl. pose proof (lb_len _ _ _ Hl) as Hlen. unfold LOGSIZE, MAXOPBLOCKS in geom.
  wp_step. wp_step. apply wp_when; intros Hn.
  2: { apply Z.ltb_ge in Hn. rewrite (lo_n _ _ _ _ Hlog) in Hn. destruct l as [|? ?]; [|simpl in Hn; lia].
       pose proof (pinned_nil _ Hpin) as ->. apply HQ; [done | | done | done | done | by exists (lh_n (k_log s)), (lh_block (k_log s))].
       apply rest_frame. reflexivity. }
  assert (Hsz : (base.size act < NBUF)%nat) by (pose proof (pinned_size _ _ Hnd Hpin); unfold NBUF; lia).
  wp_step. eapply (wp_write_log P start size geom p act l ds); [done.. | intros i _; apply P_stores |].
  intros s1 Hb1 Hr1 Hd1. wp_step.
  assert (Hlog1 : log_ok start size l (k_log s1)) by (by rewrite (rest_eq_log _ _ _ Hr1)).
  eapply (wp_write_head P start size geom p act l); [done | done | lia | | done | | |].
  { eapply pinned_log; [done | done | by apply start_in_log]. }
  { rewrite Hd1. pose proof (P_stores (length ds)) as HP. by rewrite take_ge in HP by lia. }
  { rewrite Hd1. apply (P_install 0). }
  intros s2 Hb2 Hr2 Hd2. rewrite Hd1 in Hd2. fold dk1 in Hd2. fold dk2 in Hd2.
  assert (Hlog2 : log_ok start size l (k_log s2)) by (by rewrite (rest_eq_log _ _ _ Hr2)).
  wp_step. eapply (wp_install_trans P start size geom p act l false); [done.. | | |].
  { unfold installing. by rewrite drop_0. }
  { intros i _. rewrite Hd2. apply P_install. }
  intros s3 Hb3 Hr3 Hd3. rewrite Hd2 in Hd3. do 2 wp_step.
  assert (Hlog3 : log_ok start size [] (k_log (set_log (set_lh_n 0) s3)))
    by (simpl; rewrite (rest_eq_log _ _ _ Hr3); by eapply log_ok_clear).
  destruct dk_final as [Hc4 He4].
  eapply (wp_write_head P start size geom p ∅ []); [by apply bio_ok_log | done | simpl; lia | apply lookup_empty | | | |].
  { rewrite map_size_empty. unfold NBUF. lia. }
  { simpl. rewrite Hd3. pose proof (P_install (length l)) as HP. by rewrite take_ge in HP by lia. }
  { simpl. rewrite Hd3. right. rewrite recover_clean by (done || apply Hc4). done. }
  intros s4 Hb4 Hr4 Hd4. simpl in Hd4. rewrite Hd3 in Hd4.
  assert (Hlg : k_log s4 = set_lh_block (lh_block (k_log s)) (set_lh_n 0 (k_log s))).
  { rewrite (rest_eq_log _ _ _ Hr4). simpl. by rewrite (rest_eq_log _ _ _ Hr3), (rest_eq_log _ _ _ Hr2), (rest_eq_log _ _ _ Hr1). }
  apply HQ.
  - done.
  - transitivity s3; [apply rest_frame; by etrans; [exact Hr1 | etrans]|].
    transitivity (set_log (set_lh_n 0) s3); [apply frame_log | by apply rest_frame].
  - by rewrite (rest_eq_log _ _ _ Hr4).
  - by rewrite Hd4.
  - by rewrite Hd4.
  - by exists 0, (lh_block (k_log s)).
Qed.
End Tx.
End Commit.
