(* ===== verification/Txn.v ===== *)
(** * Transactions: the log and the cache as the file system uses them

    Between begin_op and end_op a process works on a logical disk [V]: bread
    gives a block of [V] in a locked buffer, log_write makes the buffer's data
    the block of [V], end_op makes [V] the disk, atomically with respect to
    crashes.  [txn p dk l V H s]: the disk is [dk], the blocks of [l] are logged,
    and the process holds the buffers of [H].  [view live] is the same also
    without a transaction, where [l] is empty and [V] the disk. *)
From S2P Require Import Prelude Memory State Kalloc Vm Sched SchedSpec Sleeplock Virtio VirtioSpec Bio BioSpec Codec Log LogSpec LogCrash.

Section Txn.
Context `{KI : KernelImage} `{VD : VirtioDevice} `{VDOK : !VirtioDeviceOk}.
Context (start size : Z) (geom : 0 < start /\ 1 < size <= LOGSIZE /\ start + size < 2 ^ 31).

Definition tx_rel (l : list Z) (V : gmap Z block) (H : gmap Z (nat * block)) (act : gmap Z abuf) : Prop :=
  forall bn,
    match H !! bn with
    | Some (i, d) => act !! bn = Some (mkAbuf i d (if decide (bn ∈ l) then 2 else 1) true)
    | None =>
        if decide (bn ∈ l) then exists i, act !! bn = Some (mkAbuf i (dblk V bn) 1 false)
        else act !! bn = None
    end.

(** The log belongs to the one running transaction. *)
Record log_live (l : list Z) (lg : log) : Prop := {
  ll_ok : log_ok start size l lg;
  ll_out : lg_outstanding lg = 1;
  ll_com : lg_committing lg = false
}.

(** What the process sees of the disk; inside a transaction if [live]. *)
Record view_on (live : bool) (p : nat) (dk : gmap Z block) (l : list Z) (V : gmap Z block) (H : gmap Z (nat * block))
    (act : gmap Z abuf) (s : kstate) : Prop := {
  tn_bio : bio_ok p act s;
  tn_rel : tx_rel l V H act;
  tn_log : live = true -> log_live l (k_log s);
  tn_l : loggable start size l;
  tn_nd : NoDup l;
  tn_dk : k_disk s = dk;
  tn_clean : log_clean start dk;
  tn_out : forall bn, bn ∉ l -> dblk V bn = dblk dk bn
}.
Definition view (live : bool) (p : nat) (dk : gmap Z block) (l : list Z) (V : gmap Z block)
    (H : gmap Z (nat * block)) (s : kstate) : Prop := exists act, view_on live p dk l V H act s.
Abbreviation txn := (view true).

Variable P : gmap Z block -> Prop.
Let C (s : kstate) : Prop := P (k_disk s).

Lemma tx_size l V H act : NoDup l -> tx_rel l V H act -> (base.size act <= length l + base.size H)%nat.
Proof.
  intros Hnd Hrel. rewrite <- !size_dom, <- (size_list_to_set (C := gset Z) l) by done.
  transitivity (base.size (list_to_set l ∪ dom H : gset Z)).
  - apply subseteq_size. intros bn [a Ha]%elem_of_dom. specialize (Hrel bn).
    rewrite elem_of_union, elem_of_list_to_set, elem_of_dom. destruct (H !! bn) as [[i d]|]; [by right; eexists|].
    left. case_decide; [done | congruence].
  - rewrite size_union_alt.
    assert (base.size (dom H ∖ list_to_set l : gset Z) <= base.size (dom H : gset Z))%nat by (apply subseteq_size; set_solver).
    lia.
Qed.

Lemma txn_content {live} p dk l V H act s bn :
  view_on live p dk l V H act s -> H !! bn = None -> content act (k_disk s) bn = dblk V bn.
Proof.
  intros [? Hrel ? ? ? <- ? Hout] Hn. specialize (Hrel bn). rewrite Hn in Hrel. unfold content.
  case_decide as Hin; [by destruct Hrel as [i ->]|]. rewrite Hrel. symmetry. by apply Hout.
Qed.

Lemma rest_live p s s' l : rest_eq p s s' -> log_live l (k_log s) -> log_live l (k_log s').
Proof. intros Hr. by rewrite (rest_eq_log _ _ _ Hr). Qed.

(** A change to one block in use. *)
Lemma tx_rel_held l V H act bn i d :
  tx_rel l V H act ->
  tx_rel l V (<[bn := (i, d)]> H) (<[bn := mkAbuf i d (if decide (bn ∈ l) then 2 else 1) true]> act).
Proof.
  intros Hrel bn'. destruct (decide (bn = bn')) as [<-|Hne]; [by rewrite !lookup_insert_eq|].
  rewrite !lookup_insert_ne by done. apply Hrel.
Qed.

Lemma wp_tx_bread {live} p dk l V H bn Q s :
  view live p dk l V H s -> H !! bn = None -> (length l + base.size H < NBUF)%nat -> 0 <= bn < 2 ^ 31 -> P dk ->
  (forall i s', view live p dk l V (<[bn := (i, dblk V bn)]> H) s' -> rest_eq p s s' -> Q i s') ->
  wpc (seq_rely p) C (bread ROOTDEV bn) Q s.
Proof.
  intros [act Ht] Hn Hsz Hbn HP HQ. pose proof (txn_content _ _ _ _ _ _ _ _ Ht Hn) as Hc.
  destruct Ht as [Hbio Hrel Hlog Hl Hnd Hdk Hcl Hout]. pose proof (tx_size _ _ _ _ Hnd Hrel).
  pose proof (Hrel bn) as Hb. rewrite Hn in Hb.
  apply (wp_bread P p act); [done | | done | by rewrite Hdk |].
  { unfold can_get. case_decide; [destruct Hb as [i ->]; split; [done | simpl; lia] | rewrite Hb; lia]. }
  intros i s' Hbio' _ Hr Hdk'. apply HQ; [|done]. eexists. rewrite Hc in Hbio'.
  split; [exact Hbio' | | intros Hlv; by eapply rest_live; [|apply Hlog] | done | done | congruence | done | done].
  replace (refs act bn + 1) with (if decide (bn ∈ l) then 2 else 1); [by apply tx_rel_held|].
  unfold refs. case_decide; [by destruct Hb as [? ->] | by rewrite Hb].
Qed.

(** The buffer of a held block. *)
Lemma txn_buf {live} p dk l V H s bn i d :
  view live p dk l V H s -> H !! bn = Some (i, d) ->
  buf_of s i = mkBuf true false ROOTDEV bn (mkSleeplock true (pid_of p s)) (if decide (bn ∈ l) then 2 else 1) d.
Proof.
  intros [act [Hbio Hrel _ _ _ _ _ _]] Hb. specialize (Hrel bn). rewrite Hb in Hrel.
  destruct (bi_act _ _ _ _ (bo_inv _ _ _ Hbio) _ _ Hrel) as [E _]. exact (buf_of_lookup _ _ _ E).
Qed.

(** Changing the data of a held buffer. *)
Lemma txn_modb {live} p dk l V H s bn i d f d' :
  view live p dk l V H s -> H !! bn = Some (i, d) -> f (buf_of s i) = set_b_data d' (buf_of s i) ->
  view live p dk l V (<[bn := (i, d')]> H) (upd_buf i f s).
Proof.
  intros Ht Hb Hf. pose proof (txn_buf _ _ _ _ _ _ _ _ _ Ht Hb) as Hbuf. rewrite Hbuf in Hf.
  destruct Ht as [act [Hbio Hrel Hlog Hl Hnd Hdk Hcl Hout]]. pose proof (Hrel bn) as Hb'. rewrite Hb in Hb'.
  eexists. split; [ | apply tx_rel_held, Hrel | done | done | done | done | done | done].
  eapply (bio_ok_upd p act bn _ f d' _ true s Hbio Hb'); [case_decide; lia | exact Hf].
Qed.

Lemma wp_tx_brelse {live} p dk l V H bn i Q s :
  view live p dk l V H s -> H !! bn = Some (i, dblk V bn) ->
  (forall s', view live p dk l V (delete bn H) s' -> rest_eq p s s' -> Q tt s') ->
  wpc (seq_rely p) C (brelse i) Q s.
Proof.
  intros [act [Hbio Hrel Hlog Hl Hnd Hdk Hcl Hout]] Hb HQ. pose proof (Hrel bn) as Hb'. rewrite Hb in Hb'.
  apply (wp_brelse P p act bn _ _ _ Hbio Hb'); [done | |].
  { simpl. rewrite Hdk. case_decide; [lia|]. intros _. by apply Hout. }
  intros s' Hbio' Hr Hdk'. apply HQ; [|done]. eexists.
  split; [exact Hbio' | | intros Hlv; by eapply rest_live; [|apply Hlog] | done | done | congruence | done | done].
  intros bn'. unfold drop_ref. simpl. destruct (decide (bn = bn')) as [<-|Hne].
  - rewrite lookup_delete_eq. case_decide; simpl; [eexists; by rewrite lookup_insert_eq | by rewrite lookup_delete_eq].
  - rewrite lookup_delete_ne by done. specialize (Hrel bn').
    destruct (decide (bn ∈ l)); simpl; [by rewrite lookup_insert_ne | by rewrite lookup_delete_ne].
Qed.

(** ** log_write *)
Lemma take_insert_id (l L : list Z) k bn :
  take (length l) L = l -> l !! k = Some bn -> take (length l) (<[k := bn]> L) = l.
Proof.
  intros E Hk. rewrite take_insert_lt by (by eapply lookup_lt_Some). rewrite E. by apply list_insert_id.
Qed.

Lemma wp_lh_put R C' i v Q s :
  (Z.to_nat i < length (lh_block (k_log s)))%nat ->
  Q tt (set_log (fun lg => set_lh_block (<[Z.to_nat i := v]> (lh_block lg)) lg) s) -> wpc R C' (lh_put i v) Q s.
Proof.
  intros Hi HQ. unfold lh_put, getl, modl. wp_step. wp_step. by rewrite (proj2 (Nat.ltb_lt _ _)) by done.
Qed.

(** The search of log_write: the position of the block in the header, if any. *)
Lemma wp_find R C' l bn s Q :
  log_ok start size l (k_log s) -> loggable start size l -> NoDup l ->
  (forall k, l !! k = Some bn -> Q (Some (Z.of_nat k)) s) -> (bn ∉ l -> Q None s) ->
  wpc R C' (scan (seq 0 (length l)) (fun i =>
      let* v := lh_get (Z.of_nat i) in
      if u32 v =? bn then ret (Some (Z.of_nat i)) else ret None)) Q s.
Proof.
  intros Hlog Hl Hnd HS HN.
  apply (wp_scan _ (fun r s' => s' = s /\ exists n, r = seq n (length l - n) /\ (n <= length l)%nat /\ bn ∉ take n l)).
  - split; [done|]. exists 0%nat. split_and!; [by rewrite Nat.sub_0_r | lia | apply not_elem_of_nil].
  - intros k r s' (-> & n & E & Hn & Hni). destruct (length l - n)%nat as [|m] eqn:Em; [done|].
    injection E as -> ->. destruct (lookup_lt_is_Some_2 l n) as [v Hv]; [lia|].
    wp_step. apply (wp_lh_get start size _ _ l _ v); [done | lia | by rewrite Nat2Z.id|].
    destruct (loggable_at _ _ _ _ _ Hl Hv) as [Hr _]. rewrite u32_small by lia.
    destruct (Z.eqb_spec v bn) as [->|Hne]; wp_step; [by apply HS|].
    split; [done|]. exists (S n). split_and!; [f_equal; lia | lia|].
    rewrite (take_S_r _ _ _ Hv), elem_of_app, list_elem_of_singleton. naive_solver.
  - intros s' (-> & n & E & Hn & Hni). apply HN. destruct (length l - n)%nat eqn:Em; [|done].
    by rewrite take_ge in Hni by lia.
Qed.

(** The log entries once [bn] is logged. *)
Definition logged (bn : Z) (l : list Z) : list Z := if decide (bn ∈ l) then l else l ++ [bn].

Lemma tx_rel_logged l V H act bn i d :
  tx_rel l V H act -> H !! bn = Some (i, d) ->
  tx_rel (logged bn l) (<[bn := d]> V) H (<[bn := mkAbuf i d 2 true]> act).
Proof.
  intros Hrel Hb bn'. specialize (Hrel bn'). unfold logged. destruct (decide (bn = bn')) as [<-|Hne].
  - rewrite Hb, lookup_insert_eq. do 2 f_equal. destruct (decide (bn ∈ l)) as [Hin|Hin]; [by rewrite decide_True|].
    rewrite decide_True; [done | set_solver].
  - rewrite lookup_insert_ne, dblk_ne by done.
    assert (Hiff : bn' ∈ (if decide (bn ∈ l) then l else l ++ [bn]) <-> bn' ∈ l) by (destruct (decide (bn ∈ l)); set_solver).
    destruct (H !! bn') as [[i' d']|].
    + rewrite Hrel. do 2 f_equal. destruct (decide (bn' ∈ l)), (decide (bn' ∈ _)); tauto.
    + destruct (decide (bn' ∈ l)), (decide (bn' ∈ _)); tauto.
Qed.

Lemma wp_tx_log_write p dk l V H bn i d Q s :
  txn p dk l V H s -> H !! bn = Some (i, d) -> 0 <= bn < 2 ^ 31 -> ~ in_log start size bn ->
  Z.of_nat (length l) + 1 < size ->
  (forall s', txn p dk (logged bn l) (<[bn := d]> V) H s' -> frame p s s' -> Q tt s') ->
  wpc (seq_rely p) C (log_write i) Q s.
Proof.
  intros Ht Hb Hbn Hnl Hroom HQ. pose proof (txn_buf _ _ _ _ _ _ _ _ _ Ht Hb) as Hbuf.
  destruct Ht as [act [Hbio Hrel Hlog Hl Hnd Hdk Hcl Hout]]. specialize (Hlog eq_refl). pose proof Hlog as [Hlok Hlo Hlc].
  pose proof (so_held _ _ (bo_seq _ _ _ Hbio)) as Hheld. pose proof Hlok as [Es Esz Ed En Eb El].
  pose proof (tx_rel_logged _ _ _ _ _ _ _ Hrel Hb) as Hrel'.
  unfold LOGSIZE, MAXOPBLOCKS in geom. unfold log_write, getl, getb, modl. wp_step.
  apply wp_acquire; [rewrite Hheld; apply not_elem_of_nil|]. do 2 wp_step.
  set (s0 := set_held _ s). change (k_log s0) with (k_log s). rewrite En, Esz.
  rewrite (proj2 (Z.leb_gt _ _)), (proj2 (Z.leb_gt _ _)) by (unfold LOGSIZE, MAXOPBLOCKS; lia). cbn [orb].
  rewrite (proj2 (Z.ltb_ge _ _)) by lia. do 3 wp_step. change (buf_of s0 i) with (buf_of s i). rewrite Hbuf. simpl b_blockno.
  rewrite Nat2Z.id. pose proof (Hrel bn) as Ha. rewrite Hb in Ha.
  apply (wp_find _ _ l bn); [done | done | done | |].
  - intros k Hk. cbn [from_option id]. assert (Hin : bn ∈ l) by (by eapply list_elem_of_lookup_2).
    pose proof (lookup_lt_Some _ _ _ Hk). pose proof (lb_len _ _ _ Hl). wp_step.
    apply wp_lh_put; [simpl; lia|]. wp_step.
    apply wp_when; intros Hz; [apply Z.eqb_eq in Hz; lia|].
    eapply wp_release_last; [simpl; by rewrite Hheld | apply not_elem_of_nil|].
    rewrite s32_small, Nat2Z.id by lia.
    match goal with |- Q tt ?x => assert (E : x = set_log (fun lg => set_lh_block (<[k := bn]> (lh_block lg)) lg) s)
      by (unfold s0; clear - Hheld; destruct s; simpl in *; by subst); rewrite E end.
    apply HQ; [|apply frame_log]. exists act. unfold logged in *. rewrite (decide_True _ _ Hin) in Hrel' |- *.
    rewrite (decide_True _ _ Hin) in Ha. rewrite (insert_id _ _ _ Ha) in Hrel'.
    split; [by apply bio_ok_log | done | | done | done | done | done |].
    + split; [split; simpl; try done; [by apply take_insert_id | by rewrite length_insert] | done | done].
    + intros bn' Hn. rewrite dblk_ne by (intros ->; done). by apply Hout.
  - intros Hni. cbn [from_option id]. pose proof (lb_len _ _ _ Hl).
    wp_step. apply wp_lh_put; [simpl; lia|]. wp_step.
    apply wp_when; intros Hz; [|apply Z.eqb_neq in Hz; lia]. wp_step. set (s1 := set_log _ s0).
    apply wp_bpin; [simpl; rewrite Hheld; set_solver|]. wp_step. change (buf_of s1 i) with (buf_of s i). rewrite Hbuf.
    cbn [b_refcnt]. rewrite (decide_False _ _ Hni). rewrite (decide_False _ _ Hni) in Ha.
    eapply wp_release_last; [simpl; by rewrite Hheld | apply not_elem_of_nil|].
    unfold s1. rewrite (s32_small bn), Nat2Z.id by lia. change (u32 (1 + 1)) with 2.
    set (g := fun lg => set_lh_n (s32 (lh_n lg + 1)) (set_lh_block (<[length l := bn]> (lh_block lg)) lg)).
    match goal with |- Q tt ?x => assert (E : x = set_log g (upd_buf i (set_b_refcnt 2) s))
      by (unfold g, s0; clear - Hheld; destruct s; simpl in *; by subst); rewrite E end. clear E.
    apply HQ; [|transitivity (upd_buf i (set_b_refcnt 2) s); [apply rest_frame, rest_eq_bcache | apply frame_log]].
    unfold logged in *. rewrite (decide_False _ _ Hni) in Hrel' |- *.
    exists (<[bn := mkAbuf i d 2 true]> act). split.
    + apply bio_ok_log. exact (bio_ok_upd p act bn _ (set_b_refcnt 2) d 2 true s Hbio Ha ltac:(lia) eq_refl).
    + done.
    + split; simpl; [|done|done]. unfold g. split; simpl; try done.
      * rewrite length_app, En, s32_small by lia. simpl. lia.
      * rewrite length_app. simpl. rewrite Nat.add_1_r.
        rewrite (take_S_r _ _ bn) by (apply list_lookup_insert_eq; lia). f_equal. by rewrite take_insert_ge by lia.
      * by rewrite length_insert.
    + split; [apply Forall_app; split; [apply Hl | by apply Forall_singleton] | rewrite length_app; simpl; lia].
    + apply NoDup_app. split_and!; [done | intros x Hx ->%list_elem_of_singleton; done | apply NoDup_singleton].
    + done.
    + done.
    + intros bn' Hn. rewrite dblk_ne by set_solver. apply Hout. set_solver.
Qed.
(** ** begin_op and end_op *)

(** No transaction is running. *)
Record quiet (p : nat) (dk : gmap Z block) (s : kstate) : Prop := {
  qt_bio : bio_ok p ∅ s;
  qt_log : log_ok start size [] (k_log s);
  qt_out : lg_outstanding (k_log s) = 0;
  qt_com : lg_committing (k_log s) = false;
  qt_dk : k_disk s = dk;
  qt_clean : log_clean start dk
}.

Lemma wp_begin_op p dk Q s :
  quiet p dk s ->
  (forall s', txn p dk [] dk ∅ s' -> frame p s s' -> Q tt s') ->
  wpc (seq_rely p) C begin_op Q s.
Proof.
  intros [Hbio Hlog Ho Hc Hdk Hcl] HQ. pose proof (so_held _ _ (bo_seq _ _ _ Hbio)) as Hheld.
  unfold begin_op, getl, modl. wp_step. apply wp_acquire; [rewrite Hheld; apply not_elem_of_nil|].
  apply (wp_loop _ (fun _ s' => s' = set_held (cons L_log) s) (fun _ _ => 0)); [|done|lia].
  intros _ s' ->. do 2 wp_step. simpl k_log. rewrite Hc, (lo_n _ _ _ _ Hlog), Ho.
  change (LOGSIZE <? _) with false. change (s32 (0 + 1)) with 1. cbv iota.
  do 3 wp_step. eapply wp_release_last; [simpl; by rewrite Hheld | apply not_elem_of_nil|]. wp_step.
  match goal with |- Q tt ?x => assert (E : x = set_log (set_lg_outstanding 1) s)
    by (clear - Hheld; destruct s; simpl in *; by subst); rewrite E end.
  apply HQ; [|apply frame_log]. exists ∅.
  split; [by apply bio_ok_log | | | | constructor | done | done | done].
  - intros bn. rewrite !lookup_empty. by rewrite decide_False by apply not_elem_of_nil.
  - destruct Hlog. split; [by split | done | done].
  - split; [constructor | simpl; lia].
Qed.

Lemma tx_rel_pinned l V act : tx_rel l V ∅ act -> pinned l act.
Proof.
  intros Hrel. split.
  - intros bn a Ha. specialize (Hrel bn). rewrite lookup_empty in Hrel. case_decide; [|congruence].
    destruct Hrel as [i E]. rewrite E in Ha. by injection Ha as <-.
  - intros bn Hin. specialize (Hrel bn). rewrite lookup_empty in Hrel. rewrite decide_True in Hrel by done.
    destruct Hrel as [i ->]. done.
Qed.

(** Outside transactions the process reads the disk itself. *)
Lemma quiet_view p dk s : quiet p dk s -> view false p dk [] dk ∅ s.
Proof.
  intros [Hbio Hlog Ho Hc Hdk Hcl]. exists ∅. split; [done | | done | | constructor | done | done | done].
  - intros bn. rewrite !lookup_empty. by rewrite decide_False by apply not_elem_of_nil.
  - split; [constructor | simpl; lia].
Qed.

Lemma view_quiet p dk s s' : quiet p dk s -> view false p dk [] dk ∅ s' -> rest_eq p s s' -> quiet p dk s'.
Proof.
  intros [Hbio Hlog Ho Hc Hdk Hcl] [act [Hbio' Hrel _ _ _ Hdk' _ _]] Hr. rewrite <- (rest_eq_log _ _ _ Hr) in *.
  split; [|done..]. replace ∅ with act; [done|]. apply map_eq. intros bn. specialize (Hrel bn).
  rewrite lookup_empty in *. rewrite decide_False in Hrel by apply not_elem_of_nil. by rewrite Hrel.
Qed.

End Txn.

Abbreviation txn start size := (view start size true).

Section EndOp.
Context `{KI : KernelImage} `{VD : VirtioDevice} `{VDOK : !VirtioDeviceOk}.
Context (start size : Z) (geom : 0 < start /\ 1 < size <= LOGSIZE /\ start + size < 2 ^ 31).

Lemma bio_ok_woken p act ch s : bio_ok p act s -> bio_ok p act (set_proc (imap (woken ch (Some p))) s).
Proof.
  intros [Hs Hi]. split; [by apply seq_ok_woken|].
  by rewrite (rest_eq_pid p s) by apply rest_eq_woken.
Qed.

Lemma wp_end_op p dk l V Q s :
  txn start size p dk l V ∅ s ->
  (forall dk' s', quiet start size p dk' s' -> eq_data start size dk' V -> frame p s s' -> Q tt s') ->
  wpc (seq_rely p) (old_or_new start size dk V) end_op Q s.
Proof.
  intros [act [Hbio Hrel Hlv Hl Hnd Hdk Hcl Hout]] HQ. destruct (Hlv eq_refl) as [Hlog Ho Hlc].
  pose proof (so_held _ _ (bo_seq _ _ _ Hbio)) as Hheld. pose proof (so_cur _ _ (bo_seq _ _ _ Hbio)) as Hcur.
  set (ds := map (dblk V) l).
  assert (Hnew : eq_data start size (tx l ds dk) V).
  { intros bn Hn. destruct (decide (bn ∈ l)) as [Hin|Hin]; [|by rewrite tx_ne, Hout].
    apply list_elem_of_lookup in Hin as [k Hk]. eapply tx_eq; [done | done |]. unfold ds. by rewrite list_lookup_fmap, Hk. }
  unfold end_op, getl, modl. wp_step. apply wp_acquire; [rewrite Hheld; apply not_elem_of_nil|]. do 4 wp_step.
  simpl k_log. rewrite Hlc, Ho. change (s32 (1 - 1)) with 0. change (0 =? 0) with true. cbv zeta iota. do 3 wp_step.
  eapply wp_release_last; [simpl; by rewrite Hheld | apply not_elem_of_nil|]. cbn [when].
  match goal with |- wpc _ _ _ _ ?x => assert (E : x = set_log (fun lg => set_lg_committing true (set_lg_outstanding 0 lg)) s)
    by (clear - Hheld; destruct s; simpl in *; by subst); rewrite E end. clear E. set (s1 := set_log _ s).
  wp_step. apply (wp_crash_mono _ (old_or_new start size dk (tx l ds dk))).
  { intros s' [H|H]; [by left | right; by etrans]. }
  subst dk. eapply (wp_commit start size geom p act l ds s1).
  - by apply bio_ok_log.
  - by destruct Hlog; split.
  - done.
  - done.
  - by eapply tx_rel_pinned.
  - unfold ds. by rewrite length_fmap.
  - intros k bn a Hk Ha. specialize (Hrel bn). rewrite lookup_empty in Hrel.
    rewrite decide_True in Hrel by (by eapply list_elem_of_lookup_2). destruct Hrel as [i E]. rewrite E in Ha.
    injection Ha as <-. unfold ds. by rewrite list_lookup_fmap, Hk.
  - done.
  - intros s2 Hb2 Hf2 Hl2 Hc2 He2 (n & lb & Elog). pose proof (so_held _ _ (bo_seq _ _ _ Hb2)) as Hheld2.
    wp_step. apply wp_acquire; [rewrite Hheld2; apply not_elem_of_nil|]. do 3 wp_step.
    pose proof (so_cur _ _ (bo_seq _ _ _ Hb2)) as Hcur2.
    apply wp_wakeup; [intros j; simpl; rewrite Hheld2; set_solver | apply Hb2|].
    simpl k_cur. rewrite Hcur2.
    eapply wp_release_last; [simpl; by rewrite Hheld2 | apply not_elem_of_nil|].
    match goal with |- Q tt ?x => assert (E : x = set_proc (imap (woken Ch_log (Some p))) (set_log (set_lg_committing false) s2))
      by (clear - Hheld2; destruct s2; simpl in *; by subst); rewrite E end.
    apply (HQ (k_disk s2)); [split|by etrans|].
    + by apply bio_ok_woken, bio_ok_log.
    + by destruct Hl2; split.
    + simpl. by rewrite Elog.
    + done.
    + done.
    + done.
    + etrans; [apply (frame_log p (fun lg => set_lg_committing true (set_lg_outstanding 0 lg)))|]. etrans; [exact Hf2|].
      etrans; [apply (frame_log p (set_lg_committing false))|]. apply rest_frame, rest_eq_woken.
Qed.

End EndOp.
