(* ===== verification/Recovery.v ===== *)
(** * Recovery: recover_from_log computes [recover], and may itself crash *)
From S2P Require Import Prelude Memory State Kalloc Vm Sched SchedSpec Sleeplock Virtio VirtioSpec Bio BioSpec Codec Log LogSpec LogCrash Txn.

Section Recovery.
Context `{KI : KernelImage} `{VD : VirtioDevice} `{VDOK : !VirtioDeviceOk}.
Context (start size : Z) (geom : 0 < start /\ 1 < size <= LOGSIZE /\ start + size < 2 ^ 31).

(** A disk with a well-formed log header. *)
Record hdr_ok (dk : gmap Z block) : Prop := {
  ho_len : length (dblk dk start) = 1024%nat;
  ho_n : 0 <= hdr_n (dblk dk start);
  ho_l : loggable start size (hdr_entries (dblk dk start));
  ho_nd : NoDup (hdr_entries (dblk dk start))
}.

(** The log as initlog sets it up. *)
Record log_geom (lg : log) : Prop := {
  lm_start : lg_start lg = start;
  lm_size : lg_size lg = size;
  lm_dev : lg_dev lg = ROOTDEV;
  lm_len : length (lh_block lg) = 30%nat
}.

Section Ops.
Variable P : gmap Z block -> Prop.
Let C (s : kstate) : Prop := P (k_disk s).

Lemma hdr_entries_len d : length (hdr_entries d) = Z.to_nat (hdr_n d).
Proof. unfold hdr_entries. by rewrite length_fmap, length_seq. Qed.

Lemma wp_read_head p Q s :
  bio_ok p ∅ s -> log_geom (k_log s) -> hdr_ok (k_disk s) -> P (k_disk s) ->
  (forall s', bio_ok p ∅ s' -> log_ok start size (hdr_entries (dblk (k_disk s) start)) (k_log s') ->
     lg_outstanding (k_log s') = lg_outstanding (k_log s) -> lg_committing (k_log s') = lg_committing (k_log s) ->
     k_disk s' = k_disk s -> frame p s s' -> Q tt s') ->
  wpc (seq_rely p) C read_head Q s.
Proof.
  intros Hbio [Es Ez Ed El] [Hlen Hn Hl Hnd] HP HQ. set (d := dblk (k_disk s) start) in *.
  pose proof (lb_len _ _ _ Hl) as Hll. rewrite hdr_entries_len in Hll. unfold LOGSIZE, MAXOPBLOCKS in geom.
  unfold read_head, getl, getb, modl. do 3 wp_step. rewrite Es, Ed. change (u32 ROOTDEV) with ROOTDEV.
  rewrite (u32_small start) by lia.
  apply (wp_bread P p ∅); [done | unfold can_get; rewrite lookup_empty, map_size_empty; unfold NBUF; lia | lia | done |].
  unfold content, refs. rewrite lookup_empty. intros b s1 Hb1 _ Hr1 Hd1. fold (dblk (k_disk s) start) in Hb1. fold d in Hb1.
  set (a := mkAbuf b d _ true) in *. set (acta := <[start := a]> ∅) in *.
  assert (Ha : acta !! start = Some a) by (unfold acta; by rewrite lookup_insert_eq).
  destruct (bi_act _ _ _ _ (bo_inv _ _ _ Hb1) _ _ Ha) as [Hbuf _]. change (ab_idx a) with b in Hbuf.
  do 4 wp_step. rewrite (buf_of_lookup _ _ _ Hbuf). cbn [b_data abuf_buf ab_data a]. fold (hdr_n d).
  set (L := hdr_entries d) in *. wp_step.
  apply (wp_for_lh _ _ _ (fun i s' => exists lg, s' = set_log (fun _ => lg) s1 /\ log_geom lg /\ lh_n lg = hdr_n d /\
      lg_outstanding lg = lg_outstanding (k_log s) /\ lg_committing lg = lg_committing (k_log s) /\
      take (Z.to_nat i) (lh_block lg) = take (Z.to_nat i) L) (hdr_n d)).
  - lia.
  - by intros i s' _ (lg & -> & _ & Hlg & _).
  - intros i s' Hi (lg & -> & [Gs Gz Gd Gl] & Gn & Go & Gc & Gt).
    apply wp_lh_put; [simpl; lia|]. eexists. split; [reflexivity|].
    split; [split; simpl; try done; by rewrite length_insert|]. split_and!; [done..|]. simpl lh_block.
    assert (HLi : L !! Z.to_nat i = Some (rds32 d (4 + 4 * Z.to_nat i))).
    { unfold L, hdr_entries. rewrite list_lookup_fmap, lookup_seq_lt by lia. done. }
    replace (Z.to_nat (i + 1)) with (S (Z.to_nat i)) by lia. rewrite (take_S_r L _ _ HLi).
    rewrite (take_S_r _ _ (rds32 d (4 + 4 * Z.to_nat i))) by (apply list_lookup_insert_eq; lia).
    f_equal. by rewrite take_insert_ge by lia.
  - exists (set_lh_n (hdr_n d) (k_log s1)). pose proof (rest_eq_log _ _ _ Hr1) as E. split; [by destruct s1|].
    rewrite E. split; [by split|]. done.
  - intros s' (lg & -> & [Gs Gz Gd Gl] & Gn & Go & Gc & Gt). set (s2 := set_log _ s1).
    assert (Hb2 : bio_ok p acta s2) by (by apply bio_ok_log).
    change b with (ab_idx a). apply (wp_brelse P p acta start _ _ _ Hb2 Ha); [done | simpl; by rewrite Hd1 |].
    unfold drop_ref, a at 1. simpl. unfold acta. rewrite delete_insert_id by apply lookup_empty.
    intros s3 Hb3 Hr3 Hd3. assert (Elog : k_log s3 = lg) by (by rewrite (rest_eq_log _ _ _ Hr3)).
    apply HQ; rewrite ?Elog; try done.
    + assert (Hlen' : length L = Z.to_nat (hdr_n d)) by apply hdr_entries_len.
      split; try done; [lia|]. rewrite Hlen', Gt. apply take_ge. lia.
    + congruence.
    + transitivity s1; [by apply rest_frame|]. transitivity s2; [apply frame_log | by apply rest_frame].
Qed.
End Ops.

(** Recovery is idempotent: what a crash during recovery leaves recovers to the
    same contents. *)
Definition recovers_to (dk : gmap Z block) (s : kstate) : Prop :=
  eq_data start size (recover start (k_disk s)) (recover start dk).

Lemma wp_recover_from_log p Q s :
  bio_ok p ∅ s -> log_geom (k_log s) -> hdr_ok (k_disk s) ->
  (forall s', bio_ok p ∅ s' -> log_ok start size [] (k_log s') ->
     lg_outstanding (k_log s') = lg_outstanding (k_log s) -> lg_committing (k_log s') = lg_committing (k_log s) ->
     k_disk s' = recover start (k_disk s) -> log_clean start (k_disk s') -> frame p s s' -> Q tt s') ->
  wpc (seq_rely p) (recovers_to (k_disk s)) recover_from_log Q s.
Proof.
  intros Hbio Hg Hh HQ. pose proof Hh as [Hlen Hn Hl Hnd]. set (dk := k_disk s) in *. set (L := hdr_entries _) in *.
  set (P := fun dk' => eq_data start size (recover start dk') (recover start dk)).
  set (ds := map (fun k => dblk dk (start + 1 + Z.of_nat k)) (seq 0 (length L))).
  assert (Hds : forall k d, ds !! k = Some d -> dblk dk (start + 1 + Z.of_nat k) = d).
  { intros k d Hk. unfold ds in Hk. rewrite list_lookup_fmap in Hk. destruct (seq 0 (length L) !! k) as [j|] eqn:E; [|done].
    apply lookup_seq in E as [-> _]. by injection Hk. }
  assert (Hlds : length ds = length L) by (unfold ds; by rewrite length_fmap, length_seq).
  assert (HPi : forall k, P (install (take k L) (start + 1) dk)).
  { intros k. unfold P. etrans; [eapply (recover_installing start size geom L ds dk dk) | symmetry; eapply recover_committed]; done. }
  assert (Hfin : log_clean start (recover start dk) /\ P (recover start dk)).
  { assert (Hc : log_clean start (recover start dk)).
    { unfold recover. fold L. set (dk3 := install L (start + 1) dk).
      assert (E : dblk dk3 start = dblk dk start).
      { unfold dk3. rewrite <- (take_ge L (length L)) by lia. eapply install_log; [done | by apply start_in_log]. }
      unfold log_clean. rewrite dblk_eq, length_hdr_write, E. split; [done | by apply hdr_clear]. }
    split; [done|]. apply recover_clean; [done | apply Hc]. }
  destruct Hfin as [Hclean HPf].
  unfold recover_from_log, modl. wp_step. apply (wp_read_head P); [done | done | done | apply (HPi 0%nat) |].
  intros s1 Hb1 Hl1 Ho1 Hc1 Hd1 Hf1. fold dk L in Hl1. fold dk in Hd1. wp_step.
  eapply (wp_install_trans P start size geom p ∅ L true); [done.. | intros i _; rewrite Hd1; apply HPi |].
  intros s2 Hb2 Hr2 Hd2. rewrite Hd1 in Hd2. do 2 wp_step.
  pose proof (rest_eq_log _ _ _ Hr2) as E2. set (s3 := set_log _ s2).
  assert (Hl3 : log_ok start size [] (k_log s3)) by (simpl; rewrite E2; by eapply log_ok_clear).
  eapply (wp_write_head P start size geom p ∅ []); [by apply bio_ok_log | done | simpl; lia | apply lookup_empty | | | |].
  - rewrite map_size_empty. unfold NBUF. lia.
  - simpl. rewrite Hd2. pose proof (HPi (length L)) as HP. by rewrite take_ge in HP by lia.
  - simpl. rewrite Hd2. exact HPf.
  - intros s4 Hb4 Hr4 Hd4. simpl in Hd4. rewrite Hd2 in Hd4. pose proof (rest_eq_log _ _ _ Hr4) as E4. simpl in E4.
    apply HQ; rewrite ?E4, ?E2, ?Hd4; try done.
    + by eapply log_ok_clear.
    + transitivity s1; [done|]. transitivity s2; [by apply rest_frame|].
      transitivity s3; [apply frame_log | by apply rest_frame].
Qed.

End Recovery.
