(* ===== verification/DiskTheorems.v ===== *)
(** * What the disk driver, the buffer cache and the log guarantee

    The theorems hold for every device that serves requests as [VirtioDeviceOk]
    says; [demo_vdev] at the end is one. *)
From S2P Require Import Prelude Memory State Kalloc Vm Sched SchedSpec Sleeplock Virtio VirtioSpec Bio BioSpec Codec Log LogSpec LogCrash Txn Recovery.

Section Theorems.
Context `{KI : KernelImage} `{VD : VirtioDevice} `{VDOK : !VirtioDeviceOk}.


(** Bread returns a locked buffer that holds the current contents of the
    block: the cached data if the block is in use, the disk's data otherwise; no
    other block in use and no block of the disk changes. *)
Theorem bread_correct p act bn s :
  bio_ok p act s -> can_get act bn -> 0 <= bn < 2 ^ 31 ->
  wpc (seq_rely p) (fun s' => k_disk s' = k_disk s) (bread ROOTDEV bn)
    (fun b s' => bio_ok p (<[bn := mkAbuf b (content act (k_disk s) bn) (refs act bn + 1) true]> act) s' /\
       b_data (buf_of s' b) = content act (k_disk s) bn /\ rest_eq p s s' /\ k_disk s' = k_disk s) s.
Proof.
  intros Hbio Hcan Hbn. apply (wp_bread (fun dk => dk = k_disk s) p act); [done..|].
  intros i s' Hbio' _ Hr Hd. split_and!; try done.
  destruct (bi_act _ _ _ _ (bo_inv _ _ _ Hbio') bn _ (lookup_insert_eq _ _ _)) as [E _].
  by rewrite (buf_of_lookup _ i _ E).
Qed.

(** A block changed through bread and bwrite is on the disk when bwrite
    returns, and a later bread of the block returns what was written. *)
Theorem bwrite_bread_roundtrip p bn d s :
  bio_ok p ∅ s -> 0 <= bn < 2 ^ 31 ->
  wpc (seq_rely p) (fun s' => k_disk s' = k_disk s \/ k_disk s' = <[bn := d]> (k_disk s))
    (let* b := bread ROOTDEV bn in
     modb b (set_b_data d);;; bwrite b;;; brelse b;;;
     let* b := bread ROOTDEV bn in
     let* bf := getb b in
     brelse b;;; ret (b_data bf))
    (fun r s' => r = d /\ bio_ok p ∅ s' /\ rest_eq p s s' /\ k_disk s' = <[bn := d]> (k_disk s)) s.
Proof.
  intros Hbio Hbn. set (P := fun dk => dk = k_disk s \/ dk = <[bn := d]> (k_disk s)).
  assert (Hcan : can_get ∅ bn) by (unfold can_get; rewrite lookup_empty, map_size_empty; unfold NBUF; lia).
  wp_step. apply (wp_bread P p ∅); [done.. | by left |]. intros b s1 Hb1 _ Hr1 Hd1.
  unfold refs in Hb1. rewrite lookup_empty in Hb1. set (a1 := mkAbuf b _ (0 + 1) true) in *.
  unfold modb. do 3 wp_step.
  pose proof (bio_ok_upd p _ bn a1 (set_b_data d) d 1 true s1 Hb1 (lookup_insert_eq _ _ _) ltac:(lia) eq_refl) as Hb2.
  rewrite insert_insert_eq in Hb2. change (ab_idx a1) with b in Hb2. set (s2 := upd_buf b _ s1) in *.
  assert (Hd2 : k_disk s2 = k_disk s) by done.
  apply (wp_bwrite P p _ bn _ _ _ Hb2 (lookup_insert_eq _ _ _)); [done | done | by left | by right; rewrite Hd2 |].
  intros s3 Hb3 Hr3 Hd3. rewrite Hd2 in Hd3. simpl in Hd3. wp_step.
  apply (wp_brelse P p _ bn _ _ _ Hb3 (lookup_insert_eq _ _ _)); [done | by rewrite Hd3, lookup_insert_eq |].
  unfold drop_ref. cbn [ab_ref Z.eqb Pos.eqb]. rewrite delete_insert_id by apply lookup_empty.
  intros s4 Hb4 Hr4 Hd4. wp_step. apply (wp_bread P p ∅); [done.. | by right; rewrite Hd4 |].
  unfold content, refs. rewrite lookup_empty, Hd4, Hd3, lookup_insert_eq. intros b' s5 Hb5 _ Hr5 Hd5.
  destruct (bi_act _ _ _ _ (bo_inv _ _ _ Hb5) bn _ (lookup_insert_eq _ _ _)) as [E _].
  unfold getb. do 3 wp_step. rewrite (buf_of_lookup _ b' _ E).
  apply (wp_brelse P p _ bn _ _ _ Hb5 (lookup_insert_eq _ _ _)); [done | by rewrite Hd5, lookup_insert_eq |].
  unfold drop_ref. cbn [ab_ref Z.eqb Pos.eqb]. rewrite delete_insert_id by apply lookup_empty.
  intros s6 Hb6 Hr6 Hd6. wp_step. split_and!; [done | done | | by rewrite Hd6, Hd5].
  etrans; [exact Hr1|]. etrans; [apply rest_eq_bcache|]. etrans; [exact Hr3|]. etrans; [exact Hr4|]. by etrans.
Qed.

Section Log.
Context (start size : Z) (geom : 0 < start /\ 1 < size <= LOGSIZE /\ start + size < 2 ^ 31).

(** C31: the commit is atomic.  end_op of the last outstanding operation, in a
    transaction whose logical disk is [V] over the disk [dk], returns with a
    disk equal to [V] outside the log, an empty log and an empty cache; if the
    machine stops at any switch in between, recovery yields either [dk] or [V]. *)
Theorem end_op_atomic p dk l V s :
  txn start size p dk l V ∅ s ->
  wpc (seq_rely p) (old_or_new start size dk V) end_op
    (fun _ s' => quiet start size p (k_disk s') s' /\ eq_data start size (k_disk s') V /\ frame p s s') s.
Proof.
  intros Ht. apply (wp_end_op start size geom p dk l V); [done..|].
  intros dk' s' Hq He Hf. pose proof (qt_dk _ _ _ _ _ Hq) as <-. done.
Qed.

(** C9: initlog recovers.  From any disk with a well-formed log header it
    returns with the disk [recover start dk], an empty log, and the log ready
    for transactions; a crash during recovery leaves a disk that recovers to the
    same contents. *)
Theorem initlog_recovers p sb s :
  sb_logstart sb = start -> sb_nlog sb = size -> bio_ok p ∅ s -> hdr_ok start size (k_disk s) ->
  length (lh_block (k_log s)) = 30%nat -> lg_outstanding (k_log s) = 0 -> lg_committing (k_log s) = false ->
  wpc (seq_rely p) (recovers_to start size (k_disk s)) (initlog ROOTDEV sb)
    (fun _ s' => quiet start size p (recover start (k_disk s)) s' /\ frame p s s') s.
Proof.
  intros Es Ez Hbio Hh Hlen Ho Hc. unfold initlog, modl. change (BSIZE <=? sizeof_logheader) with false. cbv iota.
  do 6 wp_step. set (s1 := set_log _ _).
  assert (Hf : frame p s s1) by (etrans; [apply frame_log|]; etrans; apply frame_log).
  unfold LOGSIZE, MAXOPBLOCKS in geom.
  change (recovers_to start size (k_disk s)) with (recovers_to start size (k_disk s1)).
  apply (wp_recover_from_log start size geom p).
  - by repeat apply bio_ok_log.
  - split; simpl; [by rewrite Es, s32_small by lia | by rewrite Ez, s32_small by lia | done | done].
  - done.
  - intros s' Hb Hl Ho' Hc' Hd Hcl Hf'. split; [|etrans; [exact Hf | exact Hf']].
    split; [done | done | rewrite Ho'; exact Ho | rewrite Hc'; exact Hc | done | rewrite Hd in Hcl; exact Hcl].
Qed.

(** The use log.c's comment documents, for a list of blocks. *)
Definition log_update (x : Z * block) : KM unit :=
  let* b := bread ROOTDEV x.1 in
  modb b (set_b_data x.2);;;
  log_write b;;;
  brelse b.

Lemma wp_log_update P p dk l V bn d Q s :
  txn start size p dk l V ∅ s -> 0 <= bn < 2 ^ 31 -> ~ in_log start size bn -> Z.of_nat (length l) + 1 < size -> P dk ->
  (forall s', txn start size p dk (logged bn l) (<[bn := d]> V) ∅ s' -> frame p s s' -> Q tt s') ->
  wpc (seq_rely p) (fun s => P (k_disk s)) (log_update (bn, d)) Q s.
Proof.
  intros Ht Hbn Hnl Hroom HP HQ. unfold LOGSIZE, MAXOPBLOCKS in geom. unfold log_update, modb. simpl. wp_step.
  eapply (wp_tx_bread start size geom P p); [done | apply lookup_empty | rewrite map_size_empty; unfold NBUF; lia | done | done |].
  intros i s1 Ht1 Hr1. do 3 wp_step.
  apply (txn_modb start size p dk l V _ s1 bn i (dblk V bn) (set_b_data d) d) in Ht1;
    [|apply lookup_insert_eq | done]. rewrite insert_insert_eq in Ht1.
  eapply (wp_tx_log_write start size geom P p _ _ _ _ bn i d); [done | apply lookup_insert_eq | done | done | done |].
  intros s2 Ht2 Hf2. eapply (wp_tx_brelse start size P p _ _ _ _ bn i); [done | by rewrite lookup_insert_eq, dblk_eq |].
  rewrite delete_insert_id by apply lookup_empty. intros s3 Ht3 Hr3. apply HQ; [done|].
  etrans; [apply rest_frame; exact Hr1|]. etrans; [apply rest_frame, rest_eq_bcache|]. etrans; [exact Hf2|]. by apply rest_frame.
Qed.

(** C1: a whole transaction: begin_op, then blocks changed through bread,
    log_write and brelse, then end_op.  It returns with every update on the disk,
    and a crash at any switch leaves a disk that recovers to all updates or to
    none. *)
Theorem transaction_atomic p dk ups s :
  quiet start size p dk s ->
  Forall (fun x => 0 <= x.1 < 2 ^ 31 /\ ~ in_log start size x.1) ups -> Z.of_nat (length ups) < size ->
  let new := fold_left (fun V x => <[x.1 := x.2]> V) ups dk in
  wpc (seq_rely p) (old_or_new start size dk new)
    (begin_op;;; for_each ups log_update;;; end_op)
    (fun _ s' => quiet start size p (k_disk s') s' /\ eq_data start size (k_disk s') new /\ frame p s s') s.
Proof.
  intros Hq Hups Hroom new. wp_step. 
  set (P := fun dk' => eq_data start size (recover start dk') dk \/ eq_data start size (recover start dk') new).
  assert (HP : P dk) by (left; apply recover_clean; [done | apply (qt_clean _ _ _ _ _ Hq)]).
  apply (wp_begin_op start size geom P p dk); [done|]. intros s1 Ht1 Hf1. wp_step.
  apply (wp_for_each _ (fun r s' => exists done l, ups = done ++ r /\ (length l <= length done)%nat /\
    txn start size p dk l (fold_left (fun V x => <[x.1 := x.2]> V) done dk) ∅ s' /\
    frame p s s')).
  - exists [], []. split_and!; [done | simpl; lia | done | done].
  - intros [bn d] r s' (dn & l & E & Hl & Ht & Hf).
    rewrite E in Hups, Hroom. rewrite length_app in Hroom. simpl in Hroom.
    apply Forall_app in Hups as [_ [Hx _]%Forall_cons]. simpl in Hx.
    eapply (wp_log_update P p dk l); [done | tauto | tauto | lia | done |].
    intros s2 Ht2 Hf2. exists (dn ++ [(bn, d)]), (logged bn l). split_and!.
    + by rewrite <- app_assoc.
    + unfold logged. rewrite length_app. simpl. destruct (decide (bn ∈ l)); rewrite ?length_app; simpl; lia.
    + by rewrite fold_left_app.
    + by etrans.
  - intros s2 (dn & l & E & _ & Ht & Hf). rewrite app_nil_r in E. subst dn.
    apply (wp_end_op start size geom p dk l new); [done|].
    intros dk' s' Hq' He Hf'. pose proof (qt_dk _ _ _ _ _ Hq') as <-. split_and!; [done | done | by etrans].
Qed.
End Log.
End Theorems.
