(* ===== verification/DiskWitness.v ===== *)
(** * A concrete device and a concrete machine for the theorems on the disk

    [demo_vdev] serves the next request of the avail ring; the machine has one
    running process, an empty cache and a blank disk with a log of 30 blocks
    from block 2 on. *)
From S2P Require Import Prelude Memory State Kalloc Vm Sched SchedSpec Sleeplock Virtio VirtioSpec Bio BioSpec Codec Log LogSpec LogCrash Txn Recovery DiskTheorems.

#[local] Existing Instance demo_image.

(** The block a data descriptor names. *)
Definition data_buf (d : vdesc) : option nat := match d_addr d with A_data b => Some b | _ => None end.

Definition demo_vdev : VirtioDevice := fun s =>
  let v := k_vdisk s in
  match vd_avail_ring v !! slot (vd_seen v) with
  | Some i0 =>
      match vd_desc v !! i0, vd_ops v !! i0 with
      | Some d0, Some op =>
          match vd_desc v !! d_next d0 ≫= data_buf with
          | Some b => set_vdisk (complete_req i0) (transfer b (op_type op =? VIRTIO_BLK_T_OUT) (op_sector op / 2) s)
          | None => s
          end
      | _, _ => s
      end
  | None => s
  end.
#[local] Existing Instance demo_vdev.

Lemma demo_vdev_ok : VirtioDeviceOk.
Proof.
  intros s i0 i1 i2 b write bn (_ & Ha & H0 & Ho & H1 & _).
  unfold vdev, demo_vdev. rewrite Ha, H0, Ho. simpl. rewrite H1. simpl.
  replace (2 * bn / 2) with bn by (rewrite Z.mul_comm, Z.div_mul; lia). by destruct write.
Qed.
#[local] Existing Instance demo_vdev_ok.

Definition ks_disk : kstate :=
  set_cur (fun _ => Some 0%nat) (set_proc (alter (set_p_state RUNNING) 0%nat)
    (set_vdisk (set_vd_free (replicate NUM true)) (set_bcache (set_bc_lru (reverse (seq 0 NBUF)))
      (set_log (fun _ => mkLog 2 30 0 false ROOTDEV 0 (replicate 30 0)) k0)))).

Lemma ks_disk_seq : seq_ok 0 ks_disk.
Proof.
  split; try reflexivity; [unfold NPROC; lia|]. split; try reflexivity; vm_compute; intuition discriminate.
Qed.

Lemma ks_disk_bio : bio_ok 0 ∅ ks_disk.
Proof.
  split; [exact ks_disk_seq|]. split.
  - reflexivity.
  - simpl. by rewrite reverse_Permutation.
  - intros bn a H. by rewrite lookup_empty in H.
  - intros i b H. right. apply lookup_replicate in H as [-> _]. by split.
  - intros i j b b' H H' Hd. apply lookup_replicate in H as [-> _]. done.
Qed.

Lemma demo_geom : 0 < 2 /\ 1 < 30 <= LOGSIZE /\ 2 + 30 < 2 ^ 31.
Proof. vm_compute. intuition discriminate. Qed.

Lemma ks_disk_quiet : quiet 2 30 0 ∅ ks_disk.
Proof.
  split; try reflexivity; [exact ks_disk_bio | by split | split; vm_compute; reflexivity].
Qed.


Lemma bread_correct_witness :
  wpc (seq_rely 0) (fun s' => k_disk s' = k_disk ks_disk) (bread ROOTDEV 45)
    (fun b s' => bio_ok 0 (<[45 := mkAbuf b (content ∅ (k_disk ks_disk) 45) (refs ∅ 45 + 1) true]> ∅) s' /\
       b_data (buf_of s' b) = content ∅ (k_disk ks_disk) 45 /\ rest_eq 0 ks_disk s' /\ k_disk s' = k_disk ks_disk)
    ks_disk.
Proof.
  apply (bread_correct 0 ∅ 45 ks_disk); [exact ks_disk_bio | vm_compute; lia | lia].
Defined.

Lemma bwrite_bread_roundtrip_witness :
  wpc (seq_rely 0) (fun s' => k_disk s' = k_disk ks_disk \/ k_disk s' = <[45 := replicate 1024 7]> (k_disk ks_disk))
    (let* b := bread ROOTDEV 45 in
     modb b (set_b_data (replicate 1024 7));;; bwrite b;;; brelse b;;;
     let* b := bread ROOTDEV 45 in
     let* bf := getb b in
     brelse b;;; ret (b_data bf))
    (fun r s' => r = replicate 1024 7 /\ bio_ok 0 ∅ s' /\ rest_eq 0 ks_disk s' /\
       k_disk s' = <[45 := replicate 1024 7]> (k_disk ks_disk))
    ks_disk.
Proof.
  apply (bwrite_bread_roundtrip 0 45 (replicate 1024 7) ks_disk); [exact ks_disk_bio | lia].
Defined.

(** The machine in a transaction that has logged block 45. *)
Definition ks_act : gmap Z abuf := {[45 := mkAbuf 0 (replicate 1024 7) 1 false]}.
Definition ks_tx : kstate :=
  set_log (fun _ => mkLog 2 30 1 false ROOTDEV 1 (45 :: replicate 29 0))
    (put 0 (mkBuf true false ROOTDEV 45 (mkSleeplock false 0) 1 (replicate 1024 7)) ks_disk).

Lemma ks_tx_txn : txn 2 30 0 ∅ [45] {[45 := replicate 1024 7]} ∅ ks_tx.
Proof.
  exists (<[45 := mkAbuf 0 (replicate 1024 7) 1 false]> ∅). split.
  - apply bio_ok_log. split; [by apply seq_ok_bcache, ks_disk_seq|].
    eapply (bc_set _ _ _ _ (bo_inv _ _ _ ks_disk_bio) 45 0 (replicate 1024 7) 1 false); [reflexivity | | | lia].
    + left. split; [by split | apply lookup_empty].
    + intros j b H Hd _. apply lookup_replicate in H as [-> _]. done.
  - intros bn. rewrite lookup_empty. case_decide as Hin.
    + apply list_elem_of_singleton in Hin as ->. exists 0%nat. by rewrite lookup_insert_eq.
    + rewrite lookup_insert_ne; [apply lookup_empty|]. intros <-. apply Hin. left.
  - by split.
  - split; [apply Forall_singleton; unfold in_log; lia | simpl; lia].
  - apply NoDup_singleton.
  - done.
  - split; vm_compute; reflexivity.
  - intros bn Hn. unfold dblk. rewrite lookup_singleton_ne, lookup_empty; [done|]. intros <-. apply Hn. left.
Qed.

Lemma end_op_atomic_witness :
  wpc (seq_rely 0) (old_or_new 2 30 ∅ {[45 := replicate 1024 7]}) end_op
    (fun _ s' => quiet 2 30 0 (k_disk s') s' /\ eq_data 2 30 (k_disk s') {[45 := replicate 1024 7]} /\ frame 0 ks_tx s')
    ks_tx.
Proof. exact (end_op_atomic 2 30 demo_geom 0 ∅ [45] _ ks_tx ks_tx_txn). Defined.

(** A disk that crashed after a commit of block 45. *)
Definition dk_crashed : gmap Z block :=
  {[2 := wr32 4 45 (wr32 0 1 zblock); 3 := replicate 1024 7]}.

Lemma initlog_recovers_witness :
  wpc (seq_rely 0) (recovers_to 2 30 dk_crashed) (initlog ROOTDEV (mkSb 0 0 0 0 30 2 0 0))
    (fun _ s' => quiet 2 30 0 (recover 2 dk_crashed) s' /\ frame 0 (set_disk (fun _ => dk_crashed) ks_disk) s')
    (set_disk (fun _ => dk_crashed) ks_disk).
Proof.
  apply (initlog_recovers 2 30 demo_geom 0 (mkSb 0 0 0 0 30 2 0 0) (set_disk (fun _ => dk_crashed) ks_disk)); try reflexivity.
  - destruct ks_disk_bio as [[? ? ? ? ? ? ?] [? ? Ha Hi Hu]]. split; [by split|]. split; try done.
    intros i b H. right. apply lookup_replicate in H as [-> _]. by split.
  - split; [vm_compute; reflexivity | vm_compute; discriminate | |].
    + assert (E : hdr_entries (dblk (k_disk (set_disk (fun _ => dk_crashed) ks_disk)) 2) = [45]) by (vm_compute; reflexivity).
      rewrite E. split; [apply Forall_singleton; unfold in_log; lia | simpl; lia].
    + assert (E : hdr_entries (dblk (k_disk (set_disk (fun _ => dk_crashed) ks_disk)) 2) = [45]) by (vm_compute; reflexivity).
      rewrite E. apply NoDup_singleton.
Defined.

Lemma transaction_atomic_witness :
  wpc (seq_rely 0) (old_or_new 2 30 ∅ (<[50 := replicate 1024 8]> (<[45 := replicate 1024 7]> ∅)))
    (begin_op;;; for_each [(45, replicate 1024 7); (50, replicate 1024 8)] log_update;;; end_op)
    (fun _ s' => quiet 2 30 0 (k_disk s') s' /\
       eq_data 2 30 (k_disk s') (<[50 := replicate 1024 8]> (<[45 := replicate 1024 7]> ∅)) /\ frame 0 ks_disk s')
    ks_disk.
Proof.
  apply (transaction_atomic 2 30 demo_geom 0 ∅ [(45, replicate 1024 7); (50, replicate 1024 8)] ks_disk ks_disk_quiet).
  - repeat constructor; simpl; unfold in_log; lia.
  - simpl. lia.
Defined.
