(* ===== verification/Fs.v ===== *)
(** * kernel/fs.c: blocks, inodes, directories, paths

    Disk structures are read and written in the bytes of the buffers; a pointer
    to an in-memory inode is its index in itable; a C string is the list of its
    bytes before the NUL. *)
From S2P Require Import Prelude Memory State Kalloc Vm Sched SchedSpec Sleeplock Virtio VirtioSpec Bio Codec Log.

(** ** fs.h, stat.h *)
Definition ROOTINO : Z := 1.
Definition FSMAGIC : Z := 0x10203040.
Definition NDIRECT : nat := 12.
Definition NINDIRECT : Z := BSIZE / 4.
Definition MAXFILE : Z := Z.of_nat NDIRECT + NINDIRECT.
(** [sizeof(struct dinode)] and [sizeof(struct dirent)]. *)
Definition sizeof_dinode : Z := 64.
Definition sizeof_dirent : Z := 16.
Definition IPB : Z := BSIZE / sizeof_dinode.
Definition IBLOCK (i : Z) (sb : superblock) : Z := u32 (i / IPB + sb_inodestart sb).
Definition BPB : Z := BSIZE * 8.
Definition BBLOCK (b : Z) (sb : superblock) : Z := u32 (b / BPB + sb_bmapstart sb).
Definition DIRSIZ : nat := 14.
Definition T_DIR : Z := 1.
Definition T_FILE : Z := 2.
Definition T_DEVICE : Z := 3.

(** struct dinode: [short type, major, minor, nlink; uint size; uint addrs[13]]. *)
#[projections(primitive)]
Record dinode := mkDinode {
  di_type : Z; di_major : Z; di_minor : Z; di_nlink : Z; di_size : Z; di_addrs : list Z
}.
(** Byte offset of inode [i] in its block. *)
Definition di_off (i : Z) : nat := Z.to_nat (sizeof_dinode * (i mod IPB)).
Definition rd_addrs (d : block) (o : nat) : list Z := map (fun k => rd32 d (o + 4 * k)) (seq 0 (NDIRECT + 1)).
Fixpoint wr_addrs (o : nat) (l : list Z) (d : block) : block :=
  match l with [] => d | a :: l' => wr_addrs (o + 4) l' (wr32 o a d) end.
Definition rd_dinode (d : block) (o : nat) : dinode :=
  mkDinode (rds16 d o) (rds16 d (o + 2)) (rds16 d (o + 4)) (rds16 d (o + 6)) (rd32 d (o + 8)) (rd_addrs d (o + 12)).
Definition wr_dinode (o : nat) (x : dinode) (d : block) : block :=
  wr_addrs (o + 12) (di_addrs x)
    (wr32 (o + 8) (di_size x) (wr16 (o + 6) (di_nlink x) (wr16 (o + 4) (di_minor x)
      (wr16 (o + 2) (di_major x) (wr16 o (di_type x) d))))).

(** struct stat. *)
#[projections(primitive)]
Record stat := mkStat { st_dev : Z; st_ino : Z; st_type : Z; st_nlink : Z; st_size : Z }.

(** ** Strings in the kernel's stack and arrays *)

(** string.c's functions on byte strings, placed apart in an empty memory. *)
Definition strncmp_l (s t : list Z) (n : nat) : Z :=
  strncmp (write_bytes (write_bytes ∅ 0 s) 65536 t) 0 65536 n.
Definition strncpy_l (t : list Z) (n : nat) : list Z :=
  bytes (strncpy (write_bytes ∅ 65536 t) 0 65536 n) 0 n.
Definition safestrcpy_l (dst t : list Z) (n : Z) : list Z :=
  bytes (safestrcpy (write_bytes (write_bytes ∅ 0 dst) 65536 t) 0 65536 n) 0 (length dst).

Definition namecmp (s t : list Z) : Z := strncmp_l s t DIRSIZ.

Definition slash : Z := 47.
Fixpoint skip_slashes (path : list Z) : list Z :=
  match path with c :: path' => if c =? slash then skip_slashes path' else path | [] => [] end.
Fixpoint span_elem (path : list Z) : list Z * list Z :=
  match path with
  | c :: path' => if c =? slash then ([], path) else let '(e, r) := span_elem path' in (c :: e, r)
  | [] => ([], [])
  end.
(** [name] is the caller's array of DIRSIZ bytes. *)
Definition skipelem (path name : list Z) : option (list Z * list Z) :=
  match skip_slashes path with
  | [] => None
  | s =>
      let '(e, r) := span_elem s in
      let name' := if (DIRSIZ <=? length e)%nat then take DIRSIZ e
                   else wrbytes 0 (e ++ [0]) name in
      Some (skip_slashes r, name')
  end.

Section Fs.
Context `{KI : KernelImage}.

Definition getsb : KM superblock := gets (fun s => k_sb s).

Definition rd_superblock (d : block) : superblock :=
  mkSb (rd32 d 0) (rd32 d 4) (rd32 d 8) (rd32 d 12) (rd32 d 16) (rd32 d 20) (rd32 d 24) (rd32 d 28).

Definition readsb (dev : Z) : KM superblock :=
  let* bp := bread (u32 dev) 1 in
  let* bf := getb bp in
  brelse bp;;;
  ret (rd_superblock (b_data bf)).

Definition fsinit (dev : Z) : KM unit :=
  let* sb := readsb dev in
  modify (set_sb (fun _ => sb));;;
  if negb (sb_magic sb =? FSMAGIC) then panic "invalid file system" else initlog dev sb.

Definition bzero (dev bno : Z) : KM unit :=
  let* bp := bread (u32 dev) (u32 bno) in
  modb bp (set_b_data zblock);;;
  log_write bp;;;
  brelse bp.

(** Changing the data of a buffer in place. *)
Definition modd (bp : nat) (f : block -> block) : KM unit := modb bp (fun b => set_b_data (f (b_data b)) b).
Definition getd (bp : nat) : KM block := let* bf := getb bp in ret (b_data bf).

(** ** Blocks *)
Definition bit_mask (bi : Z) : Z := Z.shiftl 1 (bi mod 8).

(** The inner loop of balloc over the bits of one bitmap block. *)
Definition balloc_bit (dev b : Z) (bp : nat) (bi : Z) : KM (Z + option Z) :=
  let* sb := getsb in
  if (bi <? BPB) && (u32 (b + bi) <? sb_size sb) then
    let m := bit_mask bi in
    let* d := getd bp in
    let k := Z.to_nat (bi / 8) in
    if Z.land (rd8 d k) m =? 0 then
      modd bp (fun d => wr8 k (Z.lor (rd8 d k) m) d);;;
      log_write bp;;;
      brelse bp;;;
      bzero dev (b + bi);;;
      ret (inr (Some (u32 (b + bi))))
    else ret (inl (bi + 1))
  else ret (inr None).

Definition balloc (dev : Z) : KM Z :=
  loop (fun b =>
    let* sb := getsb in
    if u32 b <? sb_size sb then
      let* bp := bread dev (BBLOCK b sb) in
      let* r := loop (balloc_bit dev b bp) 0 in
      match r with
      | Some bno => ret (inr bno)
      | None => brelse bp;;; ret (inl (s32 (b + BPB)))
      end
    else panic "balloc: out of blocks") 0.

Definition bfree (dev b : Z) : KM unit :=
  let* sb := getsb in
  let* bp := bread (u32 dev) (BBLOCK b sb) in
  let bi := b mod BPB in
  let m := bit_mask bi in
  let k := Z.to_nat (bi / 8) in
  let* d := getd bp in
  if Z.land (rd8 d k) m =? 0 then panic "freeing free block"
  else
    modd bp (fun d => wr8 k (Z.land (rd8 d k) (Z.lnot m)) d);;;
    log_write bp;;;
    brelse bp.

(** ** Inodes *)
Definition iinit : KM unit := for_each (seq 0 NINODE) (fun i => initsleeplock (SL_inode i)).

(** One round of iget's loop, with the empty slot remembered so far. *)
Definition iget_slot (dev inum : Z) (x : nat * option nat) : KM (nat * option nat + (nat + option nat)) :=
  let '(i, empty) := x in
  if (i <? NINODE)%nat then
    let* ip := geti i in
    if (0 <? i_ref ip) && (i_dev ip =? dev) && (i_inum ip =? inum) then
      modi i (set_i_ref (s32 (i_ref ip + 1)));;;
      ret (inr (inl i))
    else
      let empty' := if bool_decide (empty = None) && (i_ref ip =? 0) then Some i else empty in
      ret (inl (S i, empty'))
  else ret (inr (inr empty)).

Definition iget (dev inum : Z) : KM nat :=
  acquire L_itable;;;
  let* r := loop (iget_slot dev inum) (0%nat, None) in
  match r with
  | inl i => release L_itable;;; ret i
  | inr None => panic "iget: no inodes"
  | inr (Some i) =>
      modi i (set_i_dev dev);;;
      modi i (set_i_inum inum);;;
      modi i (set_i_ref 1);;;
      modi i (set_i_valid false);;;
      release L_itable;;;
      ret i
  end.

Definition ialloc (dev type : Z) : KM nat :=
  loop (fun inum =>
    let* sb := getsb in
    if u32 inum <? sb_ninodes sb then
      let* bp := bread dev (IBLOCK inum sb) in
      let o := di_off inum in
      let* d := getd bp in
      if di_type (rd_dinode d o) =? 0 then
        modd bp (wrbytes o (replicate (Z.to_nat sizeof_dinode) 0));;;
        modd bp (wr16 o type);;;
        log_write bp;;;
        brelse bp;;;
        let* i := iget dev (u32 inum) in
        ret (inr i)
      else brelse bp;;; ret (inl (s32 (inum + 1)))
    else panic "ialloc: no inodes") 1.

Definition iupdate (i : nat) : KM unit :=
  let* ip := geti i in
  let* sb := getsb in
  let* bp := bread (i_dev ip) (IBLOCK (i_inum ip) sb) in
  let* ip := geti i in
  modd bp (wr_dinode (di_off (i_inum ip))
             (mkDinode (i_type ip) (i_major ip) (i_minor ip) (i_nlink ip) (i_size ip) (i_addrs ip)));;;
  log_write bp;;;
  brelse bp.

Definition idup (i : nat) : KM nat :=
  acquire L_itable;;;
  let* ip := geti i in
  modi i (set_i_ref (s32 (i_ref ip + 1)));;;
  release L_itable;;;
  ret i.

Definition ilock (o : option nat) : KM unit :=
  match o with
  | None => panic "ilock"
  | Some i =>
      let* ip := geti i in
      if i_ref ip <? 1 then panic "ilock"
      else
        acquiresleep (SL_inode i);;;
        let* ip := geti i in
        when (negb (i_valid ip))
          (let* sb := getsb in
           let* bp := bread (i_dev ip) (IBLOCK (i_inum ip) sb) in
           let* ip := geti i in
           let* d := getd bp in
           let di := rd_dinode d (di_off (i_inum ip)) in
           modi i (set_i_type (di_type di));;;
           modi i (set_i_major (di_major di));;;
           modi i (set_i_minor (di_minor di));;;
           modi i (set_i_nlink (di_nlink di));;;
           modi i (set_i_size (di_size di));;;
           modi i (set_i_addrs (di_addrs di));;;
           brelse bp;;;
           modi i (set_i_valid true);;;
           let* ip := geti i in
           if i_type ip =? 0 then panic "ilock: no type" else ret tt)
  end.

Definition iunlock (o : option nat) : KM unit :=
  match o with
  | None => panic "iunlock"
  | Some i =>
      let* h := holdingsleep (SL_inode i) in
      let* ip := geti i in
      if negb h || (i_ref ip <? 1) then panic "iunlock" else releasesleep (SL_inode i)
  end.

(** Element [k] of an inode's block list. *)
Definition addr_at (ip : inode) (k : nat) : Z := default 0 (i_addrs ip !! k).
Definition set_addr (i k : nat) (a : Z) : KM unit := modi i (fun ip => set_i_addrs (<[k := a]> (i_addrs ip)) ip).

Definition itrunc (i : nat) : KM unit :=
  for_each (seq 0 NDIRECT) (fun k =>
    let* ip := geti i in
    when (negb (addr_at ip k =? 0))
      (bfree (i_dev ip) (addr_at ip k);;; set_addr i k 0));;;
  let* ip := geti i in
  when (negb (addr_at ip NDIRECT =? 0))
    (let* bp := bread (i_dev ip) (addr_at ip NDIRECT) in
     for_each (seq 0 (Z.to_nat NINDIRECT)) (fun j =>
       let* d := getd bp in
       let* ip := geti i in
       when (negb (rd32 d (4 * j) =? 0)) (bfree (i_dev ip) (rd32 d (4 * j))));;;
     brelse bp;;;
     let* ip := geti i in
     bfree (i_dev ip) (addr_at ip NDIRECT);;;
     set_addr i NDIRECT 0);;;
  modi i (set_i_size 0);;;
  iupdate i.

Definition iput (i : nat) : KM unit :=
  acquire L_itable;;;
  let* ip := geti i in
  when ((i_ref ip =? 1) && i_valid ip && (i_nlink ip =? 0))
    (acquiresleep (SL_inode i);;;
     release L_itable;;;
     itrunc i;;;
     modi i (set_i_type 0);;;
     iupdate i;;;
     modi i (set_i_valid false);;;
     releasesleep (SL_inode i);;;
     acquire L_itable);;;
  let* ip := geti i in
  modi i (set_i_ref (s32 (i_ref ip - 1)));;;
  release L_itable.

Definition iunlockput (i : nat) : KM unit := iunlock (Some i);;; iput i.

Definition bmap (i : nat) (bn : Z) : KM Z :=
  let* ip := geti i in
  if bn <? Z.of_nat NDIRECT then
    let addr := addr_at ip (Z.to_nat bn) in
    if addr =? 0 then
      let* a := balloc (i_dev ip) in
      set_addr i (Z.to_nat bn) a;;;
      ret a
    else ret addr
  else
    let bn := bn - Z.of_nat NDIRECT in
    if bn <? NINDIRECT then
      let* addr :=
        (if addr_at ip NDIRECT =? 0 then
           let* a := balloc (i_dev ip) in
           set_addr i NDIRECT a;;;
           ret a
         else ret (addr_at ip NDIRECT)) in
      let* bp := bread (i_dev ip) addr in
      let* d := getd bp in
      let o := Z.to_nat (4 * bn) in
      let* addr :=
        (if rd32 d o =? 0 then
           let* a := balloc (i_dev ip) in
           modd bp (wr32 o a);;;
           log_write bp;;;
           ret a
         else ret (rd32 d o)) in
      brelse bp;;;
      ret addr
    else panic "bmap: out of range".

Definition stati (i : nat) : KM stat :=
  let* ip := geti i in
  ret (mkStat (s32 (i_dev ip)) (i_inum ip) (i_type ip) (i_nlink ip) (i_size ip)).

(** One round of readi's loop: [tot] bytes done, [n] wanted; [acc] is what has
    been copied out. *)
Definition readi_round (i : nat) (n : Z) (x : Z * Z * iodst * list Z) : KM (Z * Z * iodst * list Z + Z * list Z) :=
  let '(tot, off, dst, acc) := x in
  if tot <? n then
    let* bno := bmap i (off / BSIZE) in
    let* ip := geti i in
    let* bp := bread (i_dev ip) bno in
    let m := Z.min (n - tot) (BSIZE - off mod BSIZE) in
    let* d := getd bp in
    let bs := rdbytes d (Z.to_nat (off mod BSIZE)) (Z.to_nat m) in
    let* r := either_copyout dst bs in
    if r =? -1 then brelse bp;;; ret (inr (-1, acc))
    else brelse bp;;; ret (inl (u32 (tot + m), u32 (off + m), dst_add dst m, acc ++ bs))
  else ret (inr (s32 tot, acc)).

(** The return value, and the bytes delivered. *)
Definition readi (i : nat) (dst : iodst) (off n : Z) : KM (Z * list Z) :=
  let* ip := geti i in
  if (i_size ip <? off) || (u32 (off + n) <? off) then ret (0, [])
  else
    let n := if i_size ip <? u32 (off + n) then i_size ip - off else n in
    loop (readi_round i n) (0, off, dst, []).

(** One round of writei's loop; ends with the final [tot] and [off]. *)
Definition writei_round (i : nat) (n : Z) (x : Z * Z * iosrc) : KM (Z * Z * iosrc + Z * Z) :=
  let '(tot, off, src) := x in
  if tot <? n then
    let* bno := bmap i (off / BSIZE) in
    let* ip := geti i in
    let* bp := bread (i_dev ip) bno in
    let m := Z.min (n - tot) (BSIZE - off mod BSIZE) in
    let* r := either_copyin src m in
    let '(r, bs) := r in
    modd bp (wrbytes (Z.to_nat (off mod BSIZE)) bs);;;
    if r =? -1 then brelse bp;;; ret (inr (tot, off))
    else
      log_write bp;;;
      brelse bp;;;
      ret (inl (u32 (tot + m), u32 (off + m), src_add src m))
  else ret (inr (tot, off)).

Definition writei (i : nat) (src : iosrc) (off n : Z) : KM Z :=
  let* ip := geti i in
  if (i_size ip <? off) || (u32 (off + n) <? off) then ret (-1)
  else if MAXFILE * BSIZE <? u32 (off + n) then ret (-1)
  else
    let* r := loop (writei_round i n) (0, off, src) in
    let '(tot, off) := r in
    let* ip := geti i in
    when (i_size ip <? off) (modi i (set_i_size off));;;
    iupdate i;;;
    ret (s32 tot).

(** ** Directories *)

(** struct dirent: [ushort inum; char name[DIRSIZ]]. *)
Definition de_inum (de : list Z) : Z := rd16 de 0.
Definition de_name (de : list Z) : list Z := rdbytes de 2 DIRSIZ.
Definition mk_dirent (inum : Z) (name : list Z) : list Z := [u8 inum; u8 (Z.shiftr inum 8)] ++ name.

(** The inode found and the offset of its entry. *)
Definition dirlookup (dp : nat) (name : list Z) : KM (option (nat * Z)) :=
  let* ip := geti dp in
  if negb (i_type ip =? T_DIR) then panic "dirlookup not DIR"
  else
    loop (fun off =>
      let* ip := geti dp in
      if off <? i_size ip then
        let* r := readi dp DLocal off sizeof_dirent in
        let '(k, de) := r in
        if negb (k =? sizeof_dirent) then panic "dirlookup read"
        else if de_inum de =? 0 then ret (inl (u32 (off + sizeof_dirent)))
        else if namecmp name (de_name de) =? 0 then
          let* i := iget (i_dev ip) (de_inum de) in
          ret (inr (Some (i, off)))
        else ret (inl (u32 (off + sizeof_dirent)))
      else ret (inr None)) 0.

Definition dirlink (dp : nat) (name : list Z) (inum : Z) : KM Z :=
  let* r := dirlookup dp name in
  match r with
  | Some (ip, _) => iput ip;;; ret (-1)
  | None =>
      let* off := loop (fun off =>
        let* ip := geti dp in
        if u32 off <? i_size ip then
          let* r := readi dp DLocal (u32 off) sizeof_dirent in
          let '(k, de) := r in
          if negb (k =? sizeof_dirent) then panic "dirlink read"
          else if de_inum de =? 0 then ret (inr off)
          else ret (inl (s32 (off + sizeof_dirent)))
        else ret (inr off)) 0 in
      let de := mk_dirent inum (strncpy_l name DIRSIZ) in
      let* k := writei dp (SLocal de) (u32 off) sizeof_dirent in
      if negb (k =? sizeof_dirent) then panic "dirlink" else ret 0
  end.

(** ** Paths *)

(** One round of namex's loop; ends with the inode, and the last path element. *)
Definition namex_round (nameiparent : bool) (x : nat * list Z * list Z)
    : KM (nat * list Z * list Z + option nat * list Z) :=
  let '(i, path, name) := x in
  match skipelem path name with
  | None =>
      if nameiparent then iput i;;; ret (inr (None, name))
      else ret (inr (Some i, name))
  | Some (path, name) =>
      ilock (Some i);;;
      let* ip := geti i in
      if negb (i_type ip =? T_DIR) then iunlockput i;;; ret (inr (None, name))
      else if nameiparent && (length path =? 0)%nat then
        iunlock (Some i);;; ret (inr (Some i, name))
      else
        let* r := dirlookup i name in
        match r with
        | None => iunlockput i;;; ret (inr (None, name))
        | Some (next, _) => iunlockput i;;; ret (inl (next, path, name))
        end
  end.

Definition namex (path : list Z) (nameiparent : bool) (name : list Z) : KM (option nat * list Z) :=
  let* i :=
    (if head path is Some 47 then iget ROOTDEV ROOTINO
     else
       let* p := curproc in
       let* pr := getp p in
       let* cwd := deref (p_cwd pr) in
       idup cwd) in
  loop (namex_round nameiparent) (i, path, name).

(** The array the last element goes to starts out undefined; zeros stand for it. *)
Definition name0 : list Z := replicate DIRSIZ 0.
Definition namei (path : list Z) : KM (option nat) :=
  let* r := namex path false name0 in ret r.1.
Definition nameiparent (path : list Z) : KM (option nat * list Z) := namex path true name0.

End Fs.
