(* ===== verification/Uart.v ===== *)
(** * kernel/uart.c: the serial port driver

    The transmit ring and the registers.  A read of LSR's idle bit takes the
    next answer of [ua_busy] ([true]: still busy); once the list is used up the
    port is idle.  Bytes written to THR are appended to [ua_sent]; [ua_rx] holds
    the bytes the port has received. *)
From S2P Require Import Prelude Memory State Kalloc Vm Sched.

Definition UART_TX_BUF_SIZE : Z := 32.

Section Uart.
Context `{KI : KernelImage}.

Definition modu (f : uart -> uart) : KM unit := modify (set_uart f).
Definition getu : KM uart := gets (fun s => k_uart s).

(** The register writes of uartinit, in order: (register, value). *)
Definition uartinit : list (Z * Z) :=
  [(1, 0x00); (3, 0x80); (0, 0x03); (1, 0x00); (3, 0x03); (2, Z.lor 0x01 0x06); (1, Z.lor 0x02 0x01)].

(** [ReadReg(LSR) & LSR_TX_IDLE]. *)
Definition tx_idle : KM bool :=
  let* u := getu in
  match ua_busy u with
  | [] => ret true
  | b :: l => modu (set_ua_busy l);;; ret (negb b)
  end.
(** [WriteReg(THR, c)]. *)
Definition write_thr (c : Z) : KM unit := modu (fun u => set_ua_sent (ua_sent u ++ [u8 c]) u).

Definition tx_slot (i : Z) : nat := Z.to_nat (i mod UART_TX_BUF_SIZE).

Definition uartstart : KM unit :=
  loop (fun _ =>
    let* u := getu in
    if ua_w u =? ua_r u then ret (inr tt)
    else
      let* idle := tx_idle in
      if negb idle then ret (inr tt)
      else
        let* u := getu in
        let c := default 0 (ua_buf u !! tx_slot (ua_r u)) in
        modu (set_ua_r (u64 (ua_r u + 1)));;;
        wakeup Ch_uart_tx_r;;;
        write_thr c;;;
        ret (inl tt)) tt.

Definition uartputc (c : Z) : KM unit :=
  acquire L_uart;;;
  let* panicked := gets (fun s => k_panicked s) in
  if panicked then hang
  else
    loop (fun _ =>
      let* u := getu in
      if ua_w u =? u64 (ua_r u + UART_TX_BUF_SIZE) then
        sleep Ch_uart_tx_r L_uart;;; ret (inl tt)
      else
        modu (fun u => set_ua_buf (<[tx_slot (ua_w u) := u8 c]> (ua_buf u)) u);;;
        modu (fun u => set_ua_w (u64 (ua_w u + 1)) u);;;
        uartstart;;;
        release L_uart;;;
        ret (inr tt)) tt.

(** push_off and pop_off around the body leave the thread's locks alone. *)
Definition uartputc_sync (c : Z) : KM unit :=
  let* panicked := gets (fun s => k_panicked s) in
  if panicked then hang
  else
    loop (fun _ =>
      let* idle := tx_idle in
      if idle then ret (inr tt) else ret (inl tt)) tt;;;
    write_thr c.

Definition uartgetc : KM Z :=
  let* u := getu in
  match ua_rx u with
  | [] => ret (-1)
  | c :: l => modu (set_ua_rx l);;; ret c
  end.

End Uart.
