(* ===== verification/Printf.v ===== *)
(** * kernel/printf.c and consputc: formatted console output

    A format string is the list of its bytes; an argument of the variable
    argument list is an [parg].  The kernel's panic is the outcome [Panic] of the
    thread monad, with the message it prints. *)
From S2P Require Import Prelude Memory State Kalloc Vm Sched Uart.

(** The bytes of a string literal. *)
Fixpoint str (s : string) : list Z :=
  match s with
  | EmptyString => []
  | String c s' => Z.of_N (Ascii.N_of_ascii c) :: str s'
  end.

Definition BACKSPACE : Z := 0x100.
Definition digits : list Z := str "0123456789abcdef".
Definition digit (x : Z) : Z := default 0 (digits !! Z.to_nat x).

(** The digits printint stores in [buf], least significant first: the do-while
    loop; [fuel] bounds the digits of a [uint]. *)
Fixpoint printint_digits (fuel : nat) (x base : Z) : list Z :=
  match fuel with
  | O => []
  | S fuel' =>
      digit (x mod base) :: (if x / base =? 0 then [] else printint_digits fuel' (x / base) base)
  end.

Inductive parg := AInt (v : Z) | APtr (v : Z) | AStr (o : option (list Z)).

Section Printf.
Context `{KI : KernelImage}.

Definition consputc (c : Z) : KM unit :=
  if c =? BACKSPACE then
    uartputc_sync 8;;; uartputc_sync 32;;; uartputc_sync 8
  else uartputc_sync c.

(** The bytes printint puts out; [xx] is an [int]. *)
Definition printint_bytes (xx base : Z) (sign : bool) : list Z :=
  let neg := sign && (xx <? 0) in
  let x := if neg then u32 (- xx) else u32 xx in
  reverse (printint_digits 32 x base ++ (if neg then [45] else [])).
Definition printint (xx base : Z) (sign : bool) : KM unit :=
  for_each (printint_bytes xx base sign) consputc.

Fixpoint printptr_digits (n : nat) (x : Z) : list Z :=
  match n with
  | O => []
  | S n' => digit (Z.shiftr x 60) :: printptr_digits n' (u64 (Z.shiftl x 4))
  end.
Definition printptr_bytes (x : Z) : list Z := [48; 120] ++ printptr_digits 16 x.
Definition printptr (x : Z) : KM unit := for_each (printptr_bytes x) consputc.

(** The loop of printf.  Taking an argument of the wrong type, or one too many,
    has no defined meaning. *)
Fixpoint printf_loop (fmt : list Z) (args : list parg) : KM unit :=
  match fmt with
  | [] => ret tt
  | c :: fmt' =>
      if negb (c =? 37) then consputc c;;; printf_loop fmt' args
      else
        match fmt' with
        | [] => ret tt
        | c :: fmt'' =>
            if c =? 100 then
              match args with
              | AInt v :: args' => printint v 10 true;;; printf_loop fmt'' args'
              | _ => ub
              end
            else if c =? 120 then
              match args with
              | AInt v :: args' => printint v 16 true;;; printf_loop fmt'' args'
              | _ => ub
              end
            else if c =? 112 then
              match args with
              | APtr v :: args' => printptr v;;; printf_loop fmt'' args'
              | _ => ub
              end
            else if c =? 115 then
              match args with
              | AStr o :: args' => for_each (default (str "(null)") o) consputc;;; printf_loop fmt'' args'
              | _ => ub
              end
            else if c =? 37 then consputc 37;;; printf_loop fmt'' args
            else consputc 37;;; consputc c;;; printf_loop fmt'' args
        end
  end.

(** [fmt] is null in no call of the kernel. *)
Definition printf (fmt : list Z) (args : list parg) : KM unit :=
  let* locking := gets (fun s => k_prlock s) in
  when locking (acquire L_pr);;;
  printf_loop fmt args;;;
  when locking (release L_pr).

Definition printfinit : KM unit := modify (set_prlock (fun _ => true)).

(** What panic prints before it stops the machine. *)
Definition panic_print (msg : list Z) : KM unit :=
  modify (set_prlock (fun _ => false));;;
  printf (str "panic: ") [];;;
  printf msg [];;;
  printf [10] [];;;
  modify (set_panicked (fun _ => true)).

End Printf.
