(* ===== verification/Console.v ===== *)
(** * kernel/console.c, with uartintr of uart.c and procdump of proc.c *)
From S2P Require Import Prelude Memory State Kalloc Vm Sched Uart Printf.

Definition INPUT_BUF : Z := 128.
Definition CONSOLE : nat := 1.
(** [C(x)], Control-x. *)
Definition ctrl (x : Z) : Z := x - 64.

Definition cslot (i : Z) : nat := Z.to_nat (i mod INPUT_BUF).
Definition cn_at (c : console) (i : Z) : Z := default 0 (cn_buf c !! cslot i).

Section Console.
Context `{KI : KernelImage}.

Definition modc (f : console -> console) : KM unit := modify (set_cons f).
Definition getc : KM console := gets (fun s => k_cons s).

Definition state_name (st : procstate) : option (list Z) :=
  match st with
  | UNUSED => Some (str "unused")
  | USED => None
  | SLEEPING => Some (str "sleep ")
  | RUNNABLE => Some (str "runble")
  | RUNNING => Some (str "run   ")
  | ZOMBIE => Some (str "zombie")
  end.

Definition procdump : KM unit :=
  printf [10] [];;;
  for_each procs (fun i =>
    let* p := getp i in
    if bool_decide (p_state p = UNUSED) then ret tt
    else
      let state := default (str "???") (state_name (p_state p)) in
      printf (str "%d %s %s") [AInt (p_pid p); AStr (Some state); AStr (Some (cut0 (p_name p)))];;;
      printf [10] []).

Definition consolewrite (src : iosrc) (n : Z) : KM Z :=
  loop (fun i =>
    if i <? n then
      let* r := either_copyin (src_add src i) 1 in
      let '(r, bs) := r in
      if r =? -1 then ret (inr i)
      else uartputc (default 0 (head bs));;; ret (inl (s32 (i + 1)))
    else ret (inr i)) 0.

(** The inner loop of consoleread: wait for input; [false] if killed. *)
Definition cons_wait : KM bool :=
  loop (fun _ =>
    let* c := getc in
    if cn_r c =? cn_w c then
      let* p := curproc in
      let* pr := getp p in
      if p_killed pr then release L_cons;;; ret (inr false)
      else sleep Ch_cons_r L_cons;;; ret (inl tt)
    else ret (inr true)) tt.

(** One round of consoleread: [n] bytes still wanted.  [inr (Some n)] is the
    break, [inr None] the return of -1. *)
Definition consoleread_round (target : Z) (x : Z * iodst) : KM (Z * iodst + option Z) :=
  let '(n, dst) := x in
  if 0 <? n then
    let* go := cons_wait in
    if negb go then ret (inr None)
    else
      let* cn := getc in
      let c := cn_at cn (cn_r cn) in
      modc (set_cn_r (u32 (cn_r cn + 1)));;;
      if c =? ctrl 68 then
        when (u32 n <? target) (modc (fun cn => set_cn_r (u32 (cn_r cn - 1)) cn));;;
        ret (inr (Some n))
      else
        let* r := either_copyout dst [c] in
        if r =? -1 then ret (inr (Some n))
        else if c =? 10 then ret (inr (Some (n - 1)))
        else ret (inl (n - 1, dst_add dst 1))
  else ret (inr (Some n)).

Definition consoleread (dst : iodst) (n : Z) : KM Z :=
  let target := u32 n in
  acquire L_cons;;;
  let* r := loop (consoleread_round target) (n, dst) in
  match r with
  | None => ret (-1)
  | Some n => release L_cons;;; ret (s32 (target - n))
  end.

Definition consoleintr (c : Z) : KM unit :=
  acquire L_cons;;;
  (if c =? ctrl 80 then procdump
   else if c =? ctrl 85 then
     loop (fun _ =>
       let* cn := getc in
       if negb (cn_e cn =? cn_w cn) && negb (cn_at cn (u32 (cn_e cn - 1)) =? 10) then
         modc (set_cn_e (u32 (cn_e cn - 1)));;;
         consputc BACKSPACE;;;
         ret (inl tt)
       else ret (inr tt)) tt
   else if (c =? ctrl 72) || (c =? 0x7f) then
     let* cn := getc in
     when (negb (cn_e cn =? cn_w cn))
       (modc (set_cn_e (u32 (cn_e cn - 1)));;;
        consputc BACKSPACE)
   else
     let* cn := getc in
     when (negb (c =? 0) && (u32 (cn_e cn - cn_r cn) <? INPUT_BUF))
       (let c := if c =? 13 then 10 else c in
        consputc c;;;
        modc (fun cn => set_cn_buf (<[cslot (cn_e cn) := u8 c]> (cn_buf cn)) cn);;;
        modc (fun cn => set_cn_e (u32 (cn_e cn + 1)) cn);;;
        let* cn := getc in
        when ((c =? 10) || (c =? ctrl 68) || (cn_e cn =? u32 (cn_r cn + INPUT_BUF)))
          (modc (set_cn_w (cn_e cn));;;
           wakeup Ch_cons_r)));;;
  release L_cons.

(** The register writes of uartinit come first; see [uartinit]. *)
Definition consoleinit : KM (list (Z * Z)) :=
  modify (set_devsw (alter (set_dv_read Dev_console) CONSOLE));;;
  modify (set_devsw (alter (set_dv_write Dev_console) CONSOLE));;;
  ret uartinit.

Definition uartintr : KM unit :=
  loop (fun _ =>
    let* c := uartgetc in
    if c =? -1 then ret (inr tt) else consoleintr c;;; ret (inl tt)) tt;;;
  acquire L_uart;;;
  uartstart;;;
  release L_uart.

End Console.
