(* ===== verification/Pipe.v ===== *)
(** * kernel/pipe.c: pipeclose, pipewrite, piperead

    A pipe is named by the address of its page; its contents are in [k_pipes].
    pipealloc is with the file table, in [File]. *)
From S2P Require Import Prelude Memory State Kalloc Vm Sched.

Section Pipe.
Context `{KI : KernelImage}.

(** Using a page that holds no pipe has no defined meaning. *)
Definition getpipe (pi : Z) : KM pipe :=
  let* o := gets (fun s => k_pipes s !! pi) in
  match o with Some x => ret x | None => ub end.
Definition modpipe (pi : Z) (f : pipe -> pipe) : KM unit := modify (set_pipes (alter f pi)).

Definition pslot (i : Z) : nat := Z.to_nat (i mod PIPESIZE).

Definition pipeclose (pi : Z) (writable : bool) : KM unit :=
  acquire (L_pipe pi);;;
  (if writable then
     modpipe pi (set_pi_writeopen false);;;
     wakeup (Ch_pipe_nread pi)
   else
     modpipe pi (set_pi_readopen false);;;
     wakeup (Ch_pipe_nwrite pi));;;
  let* x := getpipe pi in
  if negb (pi_readopen x) && negb (pi_writeopen x) then
    release (L_pipe pi);;;
    modify (set_pipes (delete pi));;;
    kfree pi
  else release (L_pipe pi).

(** One round of pipewrite's loop.  [inr None] is the return of -1. *)
Definition pipewrite_round (pi addr n : Z) (pr : nat) (i : Z) : KM (Z + option Z) :=
  if i <? n then
    let* x := getpipe pi in
    let* p := getp pr in
    if negb (pi_readopen x) || p_killed p then
      release (L_pipe pi);;; ret (inr None)
    else if pi_nwrite x =? u32 (pi_nread x + PIPESIZE) then
      wakeup (Ch_pipe_nread pi);;;
      sleep (Ch_pipe_nwrite pi) (L_pipe pi);;;
      ret (inl i)
    else
      let* r := copyin (p_pagetable p) (u64 (addr + i)) 1 in
      let '(r, bs) := r in
      if r =? -1 then ret (inr (Some i))
      else
        modpipe pi (fun x => set_pi_data (<[pslot (pi_nwrite x) := default 0 (head bs)]> (pi_data x)) x);;;
        modpipe pi (fun x => set_pi_nwrite (u32 (pi_nwrite x + 1)) x);;;
        ret (inl (s32 (i + 1)))
  else ret (inr (Some i)).

Definition pipewrite (pi addr n : Z) : KM Z :=
  let* pr := curproc in
  acquire (L_pipe pi);;;
  let* r := loop (pipewrite_round pi addr n pr) 0 in
  match r with
  | None => ret (-1)
  | Some i => wakeup (Ch_pipe_nread pi);;; release (L_pipe pi);;; ret i
  end.

(** The loop of piperead that waits for data; [false] if killed. *)
Definition pipe_wait (pi : Z) (pr : nat) : KM bool :=
  loop (fun _ =>
    let* x := getpipe pi in
    if (pi_nread x =? pi_nwrite x) && pi_writeopen x then
      let* p := getp pr in
      if p_killed p then release (L_pipe pi);;; ret (inr false)
      else sleep (Ch_pipe_nread pi) (L_pipe pi);;; ret (inl tt)
    else ret (inr true)) tt.

Definition piperead_round (pi addr n : Z) (pr : nat) (i : Z) : KM (Z + Z) :=
  if i <? n then
    let* x := getpipe pi in
    if pi_nread x =? pi_nwrite x then ret (inr i)
    else
      let ch := default 0 (pi_data x !! pslot (pi_nread x)) in
      modpipe pi (set_pi_nread (u32 (pi_nread x + 1)));;;
      let* p := getp pr in
      let* r := copyout (p_pagetable p) (u64 (addr + i)) [ch] in
      if r =? -1 then ret (inr i) else ret (inl (s32 (i + 1)))
  else ret (inr i).

Definition piperead (pi addr n : Z) : KM Z :=
  let* pr := curproc in
  acquire (L_pipe pi);;;
  let* go := pipe_wait pi pr in
  if negb go then ret (-1)
  else
    let* i := loop (piperead_round pi addr n pr) 0 in
    wakeup (Ch_pipe_nwrite pi);;;
    release (L_pipe pi);;;
    ret i.

End Pipe.
