(* ===== verification/File.v ===== *)
(** * kernel/file.c, and pipealloc of pipe.c: the open-file table *)
From S2P Require Import Prelude Memory State Kalloc Vm Sched SchedSpec Sleeplock Virtio VirtioSpec Bio Codec Log Fs.
From S2P Require Import Uart Printf Console Pipe.

(** [struct stat] in memory; the four bytes of padding are not initialised by
    the code, zeros stand for them. *)
Definition stat_bytes (st : stat) : list Z :=
  le_enc 4 (st_dev st) ++ le_enc 4 (st_ino st) ++ le_enc 2 (st_type st) ++ le_enc 2 (st_nlink st)
  ++ replicate 4 0 ++ le_enc 8 (st_size st).

Section File.
Context `{KI : KernelImage}.

Definition file_of (s : kstate) (f : nat) : file := default file0 (k_ftable s !! f).
Definition getf (f : nat) : KM file := gets (fun s => file_of s f).
Definition modf (f : nat) (g : file -> file) : KM unit := modify (set_ftable (alter g f)).

(** initlock leaves the table as it is. *)
Definition fileinit : KM unit := ret tt.

Definition filealloc : KM (option nat) :=
  acquire L_ftable;;;
  let* r := scan (seq 0 NFILE) (fun f =>
    let* x := getf f in
    if f_ref x =? 0 then
      modf f (set_f_ref 1);;;
      release L_ftable;;;
      ret (Some f)
    else ret None) in
  match r with
  | Some f => ret (Some f)
  | None => release L_ftable;;; ret None
  end.

Definition filedup (f : nat) : KM nat :=
  acquire L_ftable;;;
  let* x := getf f in
  if f_ref x <? 1 then panic "filedup"
  else
    modf f (set_f_ref (s32 (f_ref x + 1)));;;
    release L_ftable;;;
    ret f.

Definition fileclose (f : nat) : KM unit :=
  acquire L_ftable;;;
  let* x := getf f in
  if f_ref x <? 1 then panic "fileclose"
  else
    modf f (set_f_ref (s32 (f_ref x - 1)));;;
    if 0 <? s32 (f_ref x - 1) then release L_ftable
    else
      let* ff := getf f in
      modf f (set_f_ref 0);;;
      modf f (set_f_type FD_NONE);;;
      release L_ftable;;;
      match f_type ff with
      | FD_PIPE => pipeclose (f_pipe ff) (f_writable ff)
      | FD_INODE | FD_DEVICE =>
          begin_op;;;
          let* ip := deref (f_ip ff) in
          iput ip;;;
          end_op
      | FD_NONE => ret tt
      end.

Definition filestat (f : nat) (addr : Z) : KM Z :=
  let* p := curproc in
  let* x := getf f in
  match f_type x with
  | FD_INODE | FD_DEVICE =>
      ilock (f_ip x);;;
      let* ip := deref (f_ip x) in
      let* st := stati ip in
      iunlock (f_ip x);;;
      let* pr := getp p in
      let* r := copyout (p_pagetable pr) addr (stat_bytes st) in
      if r <? 0 then ret (-1) else ret 0
  | _ => ret (-1)
  end.

(** The device function a slot of devsw points to. *)
Definition dev_read (fn : devfn) : option (iodst -> Z -> KM Z) :=
  match fn with Dev_none => None | Dev_console => Some consoleread end.
Definition dev_write (fn : devfn) : option (iosrc -> Z -> KM Z) :=
  match fn with Dev_none => None | Dev_console => Some consolewrite end.

Definition fileread (f : nat) (addr n : Z) : KM Z :=
  let* x := getf f in
  if negb (f_readable x) then ret (-1)
  else
    match f_type x with
    | FD_PIPE => piperead (f_pipe x) addr n
    | FD_DEVICE =>
        if (f_major x <? 0) || (NDEV <=? f_major x) then ret (-1)
        else
          let* sw := gets (fun s => k_devsw s !! Z.to_nat (f_major x)) in
          match sw ≫= (fun d => dev_read (dv_read d)) with
          | None => ret (-1)
          | Some fn => fn (DUser addr) n
          end
    | FD_INODE =>
        ilock (f_ip x);;;
        let* ip := deref (f_ip x) in
        let* x := getf f in
        let* r := readi ip (DUser addr) (f_off x) (u32 n) in
        when (0 <? r.1) (modf f (fun x => set_f_off (u32 (f_off x + r.1)) x));;;
        iunlock (f_ip x);;;
        ret r.1
    | FD_NONE => panic "fileread"
    end.

(** Most a write transaction takes: [((MAXOPBLOCKS-1-1-2) / 2) * BSIZE]. *)
Definition write_max : Z := (MAXOPBLOCKS - 1 - 1 - 2) / 2 * BSIZE.

(** One round of filewrite's loop: one transaction. *)
Definition filewrite_round (f : nat) (addr n : Z) (i : Z) : KM (Z + Z) :=
  if i <? n then
    let n1 := if write_max <? n - i then write_max else n - i in
    begin_op;;;
    let* x := getf f in
    ilock (f_ip x);;;
    let* ip := deref (f_ip x) in
    let* x := getf f in
    let* r := writei ip (SUser (u64 (addr + i))) (f_off x) (u32 n1) in
    when (0 <? r) (modf f (fun x => set_f_off (u32 (f_off x + r)) x));;;
    iunlock (f_ip x);;;
    end_op;;;
    if negb (r =? n1) then ret (inr i) else ret (inl (s32 (i + r)))
  else ret (inr i).

Definition filewrite (f : nat) (addr n : Z) : KM Z :=
  let* x := getf f in
  if negb (f_writable x) then ret (-1)
  else
    match f_type x with
    | FD_PIPE => pipewrite (f_pipe x) addr n
    | FD_DEVICE =>
        if (f_major x <? 0) || (NDEV <=? f_major x) then ret (-1)
        else
          let* sw := gets (fun s => k_devsw s !! Z.to_nat (f_major x)) in
          match sw ≫= (fun d => dev_write (dv_write d)) with
          | None => ret (-1)
          | Some fn => fn (SUser addr) n
          end
    | FD_INODE =>
        let* i := loop (filewrite_round f addr n) 0 in
        ret (if i =? n then n else -1)
    | FD_NONE => panic "filewrite"
    end.

(** ** pipealloc *)

(** kalloc fills a page with 5s; the data array starts out as that. *)
Definition newpipe : pipe := mkPipe (replicate (Z.to_nat PIPESIZE) 5) 0 0 true true.

Definition pipealloc_bad (f0 f1 : option nat) : KM (option (nat * nat)) :=
  match f0 with Some f => fileclose f | None => ret tt end;;;
  match f1 with Some f => fileclose f | None => ret tt end;;;
  ret None.

(** The read end and the write end, or [None] for -1.  No path reaches [bad]
    with a page in hand. *)
Definition pipealloc : KM (option (nat * nat)) :=
  let* f0 := filealloc in
  match f0 with
  | None => pipealloc_bad None None
  | Some r =>
      let* f1 := filealloc in
      match f1 with
      | None => pipealloc_bad (Some r) None
      | Some w =>
          let* pi := kalloc in
          if pi =? 0 then pipealloc_bad (Some r) (Some w)
          else
            modify (set_pipes (<[pi := newpipe]>));;;
            modf r (set_f_type FD_PIPE);;;
            modf r (set_f_readable true);;;
            modf r (set_f_writable false);;;
            modf r (set_f_pipe pi);;;
            modf w (set_f_type FD_PIPE);;;
            modf w (set_f_readable false);;;
            modf w (set_f_writable true);;;
            modf w (set_f_pipe pi);;;
            ret (Some (r, w))
      end
  end.

End File.
