(* ===== verification/Trapframe.v ===== *)
(** * struct trapframe (proc.h) and usertrapret (trap.c)

    The trapframe is a page of physical memory; a register is a word at its
    offset. *)
From S2P Require Import Prelude Memory State Kalloc Vm Sched.

Definition TF_kernel_satp : Z := 0.
Definition TF_kernel_sp : Z := 8.
Definition TF_kernel_trap : Z := 16.
Definition TF_epc : Z := 24.
Definition TF_kernel_hartid : Z := 32.
Definition TF_sp : Z := 48.
Definition TF_a0 : Z := 112.
Definition TF_a1 : Z := 120.
Definition TF_a7 : Z := 168.
Definition sizeof_trapframe : nat := 288.

Definition SSTATUS_SPP : Z := Z.shiftl 1 8.
Definition SSTATUS_SPIE : Z := Z.shiftl 1 5.
Definition SATP_SV39 : Z := Z.shiftl 8 60.
Definition MAKE_SATP (pagetable : Z) : Z := Z.lor SATP_SV39 (Z.shiftr pagetable 12).

(** What the registers hold when trampoline.S is entered to go to user mode. *)
#[projections(primitive)]
Record uregs := mkUregs { ur_stvec : Z; ur_sstatus : Z; ur_sepc : Z; ur_satp : Z }.

Section Trapframe.
Context `{KI : KernelImage}.

(** A field of process [p]'s trapframe. *)
Definition tf_get (p : nat) (o : Z) : KM Z := let* pr := getp p in ld (p_trapframe pr + o).
Definition tf_set (p : nat) (o v : Z) : KM unit := let* pr := getp p in st (p_trapframe pr + o) v.

(** [satp], [tp] and [sstatus] are what the registers hold on entry. *)
Definition usertrapret (satp tp sstatus : Z) : KM uregs :=
  let* p := curproc in
  tf_set p TF_kernel_satp satp;;;
  let* pr := getp p in
  tf_set p TF_kernel_sp (u64 (p_kstack pr + PGSIZE));;;
  tf_set p TF_kernel_trap a_usertrap;;;
  tf_set p TF_kernel_hartid tp;;;
  let x := Z.lor (Z.land sstatus (Z.lnot SSTATUS_SPP)) SSTATUS_SPIE in
  let* epc := tf_get p TF_epc in
  let* pr := getp p in
  ret (mkUregs (u64 (TRAMPOLINE + (uservec - trampoline))) x epc (MAKE_SATP (p_pagetable pr))).

End Trapframe.
