(* ===== verification/Kvm.v ===== *)
(** * vm.c's kvmmake, kvminit, kvminithart and proc.c's proc_mapstacks: the kernel's page table *)
From S2P Require Import Prelude Memory State Kalloc Vm Sched Trapframe.

Section Kvm.
Context `{KI : KernelImage}.

Definition proc_mapstacks (kpgtbl : Z) : KM unit :=
  for_each procs (fun i =>
    let* pa := kalloc in
    if pa =? 0 then panic "kalloc"
    else kvmmap kpgtbl (KSTACK (Z.of_nat i)) pa PGSIZE (Z.lor PTE_R PTE_W)).

(** kalloc's result is not checked. *)
Definition kvmmake : KM Z :=
  let* kpgtbl := kalloc in
  zero_page kpgtbl;;;
  kvmmap kpgtbl UART0 UART0 PGSIZE (Z.lor PTE_R PTE_W);;;
  kvmmap kpgtbl VIRTIO0 VIRTIO0 PGSIZE (Z.lor PTE_R PTE_W);;;
  kvmmap kpgtbl PLIC PLIC 0x400000 (Z.lor PTE_R PTE_W);;;
  kvmmap kpgtbl KERNBASE KERNBASE (etext - KERNBASE) (Z.lor PTE_R PTE_X);;;
  kvmmap kpgtbl etext etext (PHYSTOP - etext) (Z.lor PTE_R PTE_W);;;
  kvmmap kpgtbl TRAMPOLINE trampoline PGSIZE (Z.lor PTE_R PTE_X);;;
  proc_mapstacks kpgtbl;;;
  ret kpgtbl.

Definition kvminit : KM unit :=
  let* kpgtbl := kvmmake in
  modify (set_kpgtbl (fun _ => kpgtbl)).

(** The value written to satp. *)
Definition kvminithart : KM Z := gets (fun s => MAKE_SATP (k_kpgtbl s)).

End Kvm.
