(* ===== verification/Proc.v ===== *)
(** * kernel/proc.c, second part: process life cycle and memory-mapped files

    allocproc, freeproc, proc_pagetable, userinit, growproc, fork, exit, wait,
    forkret; vma_fault, vma_unmap, vma_unmap_all. *)
From S2P Require Import Prelude Memory State Kalloc Vm Sched SchedSpec Sleeplock Virtio VirtioSpec Bio Codec Log Fs.
From S2P Require Import Uart Printf Console Pipe File Trapframe Fcntl.

Section Proc.
Context `{KI : KernelImage}.

(** ** Page tables of processes *)
Definition proc_pagetable (p : nat) : KM Z :=
  let* pagetable := uvmcreate in
  if pagetable =? 0 then ret 0
  else
    let* r := mappages pagetable TRAMPOLINE PGSIZE trampoline (Z.lor PTE_R PTE_X) in
    if r <? 0 then uvmfree pagetable 0;;; ret 0
    else
      let* pr := getp p in
      let* r := mappages pagetable TRAPFRAME PGSIZE (p_trapframe pr) (Z.lor PTE_R PTE_W) in
      if r <? 0 then
        uvmunmap pagetable TRAMPOLINE 1 false;;;
        uvmfree pagetable 0;;;
        ret 0
      else ret pagetable.

Definition proc_freepagetable (pagetable sz : Z) : KM unit :=
  uvmunmap pagetable TRAMPOLINE 1 false;;;
  uvmunmap pagetable TRAPFRAME 1 false;;;
  uvmfree pagetable sz.

(** ** Allocation *)
Definition freeproc (i : nat) : KM unit :=
  let* p := getp i in
  when (negb (p_trapframe p =? 0)) (kfree (p_trapframe p));;;
  modp i (set_p_trapframe 0);;;
  when (negb (p_pagetable p =? 0)) (proc_freepagetable (p_pagetable p) (p_sz p));;;
  modp i (set_p_pagetable 0);;;
  modp i (set_p_sz 0);;;
  modp i (set_p_pid 0);;;
  modp i (set_p_parent None);;;
  modp i (fun p => set_p_name (<[0%nat := 0]> (p_name p)) p);;;
  modp i (set_p_chan Ch_zero);;;
  modp i (set_p_killed false);;;
  modp i (set_p_xstate 0);;;
  modp i (set_p_state UNUSED).

(** The part of allocproc after the label [found]. *)
Definition allocproc_found (i : nat) : KM (option nat) :=
  let* pid := allocpid in
  modp i (set_p_pid pid);;;
  modp i (set_p_state USED);;;
  modp i (set_p_vmas (replicate NVMA vma0));;;
  let* tf := kalloc in
  modp i (set_p_trapframe tf);;;
  if tf =? 0 then freeproc i;;; release (L_proc i);;; ret None
  else
    let* pt := proc_pagetable i in
    modp i (set_p_pagetable pt);;;
    if pt =? 0 then freeproc i;;; release (L_proc i);;; ret None
    else
      modp i (fun p => set_p_context (mkContext a_forkret (u64 (p_kstack p + PGSIZE)) (replicate 12 0)) p);;;
      ret (Some i).

Definition allocproc : KM (option nat) :=
  let* r := scan procs (fun i =>
    acquire (L_proc i);;;
    let* p := getp i in
    if bool_decide (p_state p = UNUSED) then ret (Some i)
    else release (L_proc i);;; ret None) in
  match r with
  | None => ret None
  | Some i => allocproc_found i
  end.

(** ** Memory-mapped files *)

(** Entry [i] of a process's vma table. *)
Definition vma_at (p : proc) (i : nat) : vma := default vma0 (p_vmas p !! i).
Definition modvma (p i : nat) (f : vma -> vma) : KM unit :=
  modp p (fun pr => set_p_vmas (alter f i (p_vmas pr)) pr).

(** First slot that satisfies [t]. *)
Definition find_vma (t : vma -> bool) (p : proc) : option nat :=
  fst <$> list_find (fun v => t v = true) (p_vmas p).

(** The inode of a vma's file, as [v->file->ip]. *)
Definition vma_ip (v : vma) : KM (option nat) :=
  let* f := deref (v_file v) in
  let* x := getf f in
  ret (f_ip x).

(** The access [cause] is not allowed by [prot]. *)
Definition vma_denied (cause prot : Z) : bool :=
  ((cause =? 12) && negb (has prot PROT_EXEC)) || ((cause =? 13) && negb (has prot PROT_READ)) ||
  ((cause =? 15) && negb (has prot PROT_WRITE)).

Definition vma_perm (prot : Z) : Z :=
  let perm := PTE_U in
  let perm := if has prot PROT_READ then Z.lor perm PTE_R else perm in
  let perm := if has prot PROT_WRITE then Z.lor perm (Z.lor PTE_R PTE_W) else perm in
  if has prot PROT_EXEC then Z.lor perm PTE_X else perm.

Definition vma_fault (p : nat) (faultva cause : Z) : KM Z :=
  let* pr := getp p in
  match find_vma (fun v => v_used v && (v_addr v <=? faultva) && (faultva <? u64 (v_addr v + v_length v))) pr with
  | None => ret (-1)
  | Some i =>
      let v := vma_at pr i in
      if vma_denied cause (v_prot v) then ret (-1)
      else
        let va := PGROUNDDOWN faultva in
        let* pte := walk (p_pagetable pr) va false in
        let* mapped := (if pte =? 0 then ret false else let* e := ld pte in ret (has e PTE_V)) in
        if mapped then ret (-1)
        else
          let* pg := kalloc in
          if pg =? 0 then ret (-1)
          else
            zero_page pg;;;
            let* ip := vma_ip v in
            ilock ip;;;
            let* i := deref ip in
            let* r := readi i (DKern pg) (u32 (v_offset v + (va - v_addr v))) PGSIZE in
            iunlock ip;;;
            if r.1 <? 0 then kfree pg;;; ret (-1)
            else
              let* r := mappages (p_pagetable pr) va PGSIZE pg (vma_perm (v_prot v)) in
              if r <? 0 then kfree pg;;; ret (-1) else ret 0
  end.

(** One page of vma_unmap's loop; [error] is the error so far. *)
Definition vma_unmap_page (p : nat) (v : vma) (lim : Z) (x : Z * Z) : KM (Z * Z + Z) :=
  let '(va, error) := x in
  if va <? lim then
    let* pr := getp p in
    let* pte := walk (p_pagetable pr) va false in
    let* e := (if pte =? 0 then ret 0 else ld pte) in
    if negb (has e PTE_V) then ret (inl (u64 (va + PGSIZE), error))
    else
      let* error :=
        (if (v_flags v =? MAP_SHARED) && has (v_prot v) PROT_WRITE then
           begin_op;;;
           let* ip := vma_ip v in
           ilock ip;;;
           let* i := deref ip in
           let* r := writei i (SKern (PTE2PA e)) (u32 (v_offset v + (va - v_addr v))) PGSIZE in
           iunlock ip;;;
           end_op;;;
           ret (if negb (r =? PGSIZE) then -1 else error)
         else ret error) in
      uvmunmap (p_pagetable pr) va 1 true;;;
      ret (inl (u64 (va + PGSIZE), error))
  else ret (inr error).

Definition vma_unmap (p : nat) (addr length : Z) : KM Z :=
  if negb (addr mod PGSIZE =? 0) || (length =? 0) || (MAXVA <? length) then ret (-1)
  else
    let length := PGROUNDUP length in
    if u64 (addr + length) <? addr then ret (-1)
    else
      let lim := u64 (addr + length) in
      let* pr := getp p in
      match find_vma (fun v => v_used v && (v_addr v <=? addr) && (lim <=? u64 (v_addr v + v_length v))) pr with
      | None => ret (-1)
      | Some i =>
          let v := vma_at pr i in
          if negb (addr =? v_addr v) && negb (lim =? u64 (v_addr v + v_length v)) then ret (-1)
          else
            let* error := loop (vma_unmap_page p v lim) (addr, 0) in
            (if (addr =? v_addr v) && (lim =? u64 (v_addr v + v_length v)) then
               let* f := deref (v_file v) in
               fileclose f;;;
               modvma p i (fun _ => vma0)
             else if addr =? v_addr v then
               modvma p i (fun v => set_v_length (u64 (v_length v - length))
                                     (set_v_offset (u64 (v_offset v + length)) (set_v_addr lim v)))
             else modvma p i (fun v => set_v_length (u64 (v_length v - length)) v));;;
            ret error
      end.

Definition vma_unmap_all (p : nat) : KM unit :=
  for_each (seq 0 NVMA) (fun i =>
    let* pr := getp p in
    let v := vma_at pr i in
    when (v_used v) (vma_unmap p (v_addr v) (v_length v);;; ret tt)).

(** ** First process, growth *)
Definition initcode : list Z :=
  [0x17; 0x05; 0x00; 0x00; 0x13; 0x05; 0x45; 0x02; 0x97; 0x05; 0x00; 0x00; 0x93; 0x85; 0x35; 0x02;
   0x93; 0x08; 0x70; 0x00; 0x73; 0x00; 0x00; 0x00; 0x93; 0x08; 0x20; 0x00; 0x73; 0x00; 0x00; 0x00;
   0xef; 0xf0; 0x9f; 0xff; 0x2f; 0x69; 0x6e; 0x69; 0x74; 0x00; 0x00; 0x24; 0x00; 0x00; 0x00; 0x00;
   0x00; 0x00; 0x00; 0x00].

Definition userinit : KM unit :=
  let* o := allocproc in
  modify (set_initproc (fun _ => o));;;
  let* p := deref o in
  let* pr := getp p in
  uvminit (p_pagetable pr) initcode;;;
  modp p (set_p_sz PGSIZE);;;
  tf_set p TF_epc 0;;;
  tf_set p TF_sp PGSIZE;;;
  modp p (fun pr => set_p_name (safestrcpy_l (p_name pr) (str "initcode") 16) pr);;;
  let* cwd := namei (str "/") in
  modp p (set_p_cwd cwd);;;
  modp p (set_p_state RUNNABLE);;;
  release (L_proc p).

(** [sz] is a [uint], [sz + n] the unsigned sum. *)
Definition growproc (n : Z) : KM Z :=
  let* p := curproc in
  let* pr := getp p in
  let sz := u32 (p_sz pr) in
  if 0 <? n then
    let* r := uvmalloc (p_pagetable pr) sz (u32 (sz + n)) in
    let sz := u32 r in
    if sz =? 0 then ret (-1) else modp p (set_p_sz sz);;; ret 0
  else if n <? 0 then
    let* r := uvmdealloc (p_pagetable pr) sz (u32 (sz + n)) in
    modp p (set_p_sz (u32 r));;; ret 0
  else modp p (set_p_sz sz);;; ret 0.

(** ** fork *)
Definition fork_ofile (p np fd : nat) : KM unit :=
  let* pr := getp p in
  match default None (p_ofile pr !! fd) with
  | Some f =>
      let* f := filedup f in
      modp np (fun pr => set_p_ofile (<[fd := Some f]> (p_ofile pr)) pr)
  | None => ret tt
  end.
Definition fork_vma (p np i : nat) : KM unit :=
  let* pr := getp p in
  let v := vma_at pr i in
  when (v_used v)
    (modvma np i (fun _ => v);;;
     let* f := deref (v_file v) in
     let* f := filedup f in
     modvma np i (set_v_file (Some f))).

Definition fork : KM Z :=
  let* p := curproc in
  let* o := allocproc in
  match o with
  | None => ret (-1)
  | Some np =>
      let* pr := getp p in
      let* npr := getp np in
      let* r := uvmcopy (p_pagetable pr) (p_pagetable npr) (p_sz pr) in
      if r <? 0 then freeproc np;;; release (L_proc np);;; ret (-1)
      else
        modp np (set_p_sz (p_sz pr));;;
        let* npr := getp np in
        modify (set_mem (fun m => memmove m (p_trapframe npr) (p_trapframe pr) sizeof_trapframe));;;
        tf_set np TF_a0 0;;;
        for_each (seq 0 NOFILE) (fork_ofile p np);;;
        for_each (seq 0 NVMA) (fork_vma p np);;;
        let* pr := getp p in
        let* cwd := deref (p_cwd pr) in
        let* cwd := idup cwd in
        modp np (set_p_cwd (Some cwd));;;
        modp np (fun npr => set_p_name (safestrcpy_l (p_name npr) (cut0 (p_name pr)) 16) npr);;;
        let* npr := getp np in
        let pid := p_pid npr in
        release (L_proc np);;;
        acquire L_wait;;;
        modp np (set_p_parent (Some p));;;
        release L_wait;;;
        acquire (L_proc np);;;
        modp np (set_p_state RUNNABLE);;;
        release (L_proc np);;;
        ret pid
  end.

(** ** exit and wait *)
Definition reparent (p : nat) : KM unit :=
  for_each procs (fun pp =>
    let* x := getp pp in
    when (bool_decide (p_parent x = Some p))
      (let* init := gets (fun s => k_initproc s) in
       modp pp (set_p_parent init);;;
       wakeup_ptr init)).

Definition exit (status : Z) {A : Type} : KM A :=
  let* p := curproc in
  let* init := gets (fun s => k_initproc s) in
  if bool_decide (Some p = init) then panic "init exiting"
  else
    vma_unmap_all p;;;
    for_each (seq 0 NOFILE) (fun fd =>
      let* pr := getp p in
      match default None (p_ofile pr !! fd) with
      | Some f =>
          fileclose f;;;
          modp p (fun pr => set_p_ofile (<[fd := None]> (p_ofile pr)) pr)
      | None => ret tt
      end);;;
    begin_op;;;
    let* pr := getp p in
    let* cwd := deref (p_cwd pr) in
    iput cwd;;;
    end_op;;;
    modp p (set_p_cwd None);;;
    acquire L_wait;;;
    reparent p;;;
    let* pr := getp p in
    wakeup_ptr (p_parent pr);;;
    acquire (L_proc p);;;
    modp p (set_p_xstate status);;;
    modp p (set_p_state ZOMBIE);;;
    release L_wait;;;
    sched;;;
    panic "zombie exit".

(** One child of wait's scan: [havekids] so far, or the value to return. *)
Definition wait_child (p : nat) (addr : Z) (x : nat * bool) : KM (nat * bool + (bool + Z)) :=
  let '(np, havekids) := x in
  if (np <? NPROC)%nat then
    let* npr := getp np in
    if bool_decide (p_parent npr = Some p) then
      acquire (L_proc np);;;
      let* npr := getp np in
      if bool_decide (p_state npr = ZOMBIE) then
        let pid := p_pid npr in
        let* r :=
          (if addr =? 0 then ret 0
           else
             let* pr := getp p in
             copyout (p_pagetable pr) addr (le_enc 4 (p_xstate npr))) in
        if r <? 0 then
          release (L_proc np);;;
          release L_wait;;;
          ret (inr (inr (-1)))
        else
          freeproc np;;;
          release (L_proc np);;;
          release L_wait;;;
          ret (inr (inr pid))
      else release (L_proc np);;; ret (inl (S np, true))
    else ret (inl (S np, havekids))
  else ret (inr (inl havekids)).

Definition wait (addr : Z) : KM Z :=
  let* p := curproc in
  acquire L_wait;;;
  loop (fun _ =>
    let* r := loop (wait_child p addr) (0%nat, false) in
    match r with
    | inr pid => ret (inr pid)
    | inl havekids =>
        let* pr := getp p in
        if negb havekids || p_killed pr then
          release L_wait;;; ret (inr (-1))
        else sleep (Ch_proc p) L_wait;;; ret (inl tt)
    end) tt.

Definition forkret (satp tp sstatus : Z) : KM uregs :=
  let* p := curproc in
  release (L_proc p);;;
  let* first := gets (fun s => k_first s) in
  when first (modify (set_first (fun _ => false));;; fsinit ROOTDEV);;;
  usertrapret satp tp sstatus.

End Proc.
