(* ===== verification/Exec.v ===== *)
(** * kernel/exec.c *)
From S2P Require Import Prelude Memory State Kalloc Vm Sched SchedSpec Sleeplock Virtio VirtioSpec Bio Codec Log Fs.
From S2P Require Import Uart Printf Console Pipe File Trapframe Proc.

(** ** elf.h *)
Definition ELF_MAGIC : Z := 0x464C457F.
Definition ELF_PROG_LOAD : Z := 1.

(** The fields of the file header the code uses. *)
#[projections(primitive)]
Record elfhdr := mkElfhdr { e_magic : Z; e_entry : Z; e_phoff : Z; e_phnum : Z }.
Definition sizeof_elfhdr : Z := 64.
#[projections(primitive)]
Record proghdr := mkProghdr { ph_type : Z; ph_off : Z; ph_vaddr : Z; ph_filesz : Z; ph_memsz : Z }.
Definition sizeof_proghdr : Z := 56.

Definition rd64 (d : list Z) (o : nat) : Z := rd32 d o + 2 ^ 32 * rd32 d (o + 4).
Definition rd_elfhdr (d : list Z) : elfhdr := mkElfhdr (rd32 d 0) (rd64 d 24) (rd64 d 32) (rd16 d 56).
Definition rd_proghdr (d : list Z) : proghdr :=
  mkProghdr (rd32 d 0) (rd64 d 8) (rd64 d 16) (rd64 d 32) (rd64 d 40).

(** The part of [path] after its last slash. *)
Fixpoint last_elem (last s : list Z) : list Z :=
  match s with
  | [] => last
  | c :: s' => if c =? slash then last_elem s' s' else last_elem last s'
  end.

Section Exec.
Context `{KI : KernelImage}.

(** [i], [n], [offset] and [sz] are [uint]. *)
Definition loadseg (pagetable va : Z) (ip : nat) (offset sz : Z) : KM Z :=
  loop (fun i =>
    if i <? sz then
      let* pa := walkaddr pagetable (u64 (va + i)) in
      if pa =? 0 then panic "loadseg: address should exist"
      else
        let n := if u32 (sz - i) <? PGSIZE then u32 (sz - i) else PGSIZE in
        let* r := readi ip (DKern pa) (u32 (offset + i)) n in
        if negb (u32 r.1 =? n) then ret (inr (-1)) else ret (inl (u32 (i + PGSIZE)))
    else ret (inr 0)) 0.

(** One program header: [i], [off] and [sz] so far; ends with [sz] and whether
    the code went to [bad]. *)
Definition exec_segment (pagetable : Z) (ip : nat) (phnum : Z) (x : Z * Z * Z) : KM (Z * Z * Z + Z * bool) :=
  let '(i, off, sz) := x in
  if i <? phnum then
    let next sz := ret (inl (i + 1, s32 (off + sizeof_proghdr), sz)) in
    let* r := readi ip DLocal (u32 off) sizeof_proghdr in
    if negb (r.1 =? sizeof_proghdr) then ret (inr (sz, true))
    else
      let ph := rd_proghdr r.2 in
      if negb (ph_type ph =? ELF_PROG_LOAD) then next sz
      else if ph_memsz ph <? ph_filesz ph then ret (inr (sz, true))
      else if u64 (ph_vaddr ph + ph_memsz ph) <? ph_vaddr ph then ret (inr (sz, true))
      else
        let* sz1 := uvmalloc pagetable sz (u64 (ph_vaddr ph + ph_memsz ph)) in
        if sz1 =? 0 then ret (inr (sz, true))
        else if negb (ph_vaddr ph mod PGSIZE =? 0) then ret (inr (sz1, true))
        else
          let* r := loadseg pagetable (ph_vaddr ph) ip (u32 (ph_off ph)) (u32 (ph_filesz ph)) in
          if r <? 0 then ret (inr (sz1, true)) else next sz1
  else ret (inr (sz, false)).

(** The string an element of argv points to, with its NUL. *)
Definition arg_bytes (a : Z) : KM (list Z) :=
  let* m := gets (fun s => k_mem s) in
  match strlen m a with
  | Some n => ret (bytes m a (Z.to_nat (n + 1)))
  | None => ub
  end.

(** One argument: [argc], [sp] and the pointers pushed so far; ends with those,
    or [None] for [bad]. *)
Definition exec_arg (pagetable stackbase : Z) (argv : list Z) (x : nat * Z * list Z)
    : KM (nat * Z * list Z + option (nat * Z * list Z)) :=
  let '(argc, sp, ustack) := x in
  match argv !! argc with
  | None => ub
  | Some a =>
      if a =? 0 then ret (inr (Some (argc, sp, ustack)))
      else if (MAXARG <=? argc)%nat then ret (inr None)
      else
        let* arg := arg_bytes a in
        let sp := u64 (sp - Z.of_nat (length arg)) in
        let sp := u64 (sp - sp mod 16) in
        if sp <? stackbase then ret (inr None)
        else
          let* r := copyout pagetable sp arg in
          if r <? 0 then ret (inr None) else ret (inl (S argc, sp, ustack ++ [sp]))
  end.

(** The code at the label [bad]. *)
Definition exec_bad (pagetable sz : Z) (ip : option nat) : KM Z :=
  when (negb (pagetable =? 0)) (proc_freepagetable pagetable sz);;;
  match ip with Some i => iunlockput i;;; end_op | None => ret tt end;;;
  ret (-1).

(** From the stack on, when the segments are loaded. *)
Definition exec_stack (path : list Z) (argv : list Z) (entry pagetable sz : Z) : KM Z :=
  let* p := curproc in
  let* pr := getp p in
  let oldsz := p_sz pr in
  let sz := PGROUNDUP sz in
  let* sz1 := uvmalloc pagetable sz (u64 (sz + 2 * PGSIZE)) in
  if sz1 =? 0 then exec_bad pagetable sz None
  else
    let sz := sz1 in
    uvmclear pagetable (u64 (sz - 2 * PGSIZE));;;
    let stackbase := u64 (sz - PGSIZE) in
    let* r := loop (exec_arg pagetable stackbase argv) (0%nat, sz, []) in
    match r with
    | None => exec_bad pagetable sz None
    | Some (argc, sp, ustack) =>
        let ustack := ustack ++ [0] in
        let sp := u64 (sp - (Z.of_nat argc + 1) * 8) in
        let sp := u64 (sp - sp mod 16) in
        if sp <? stackbase then exec_bad pagetable sz None
        else
          let* r := copyout pagetable sp (concat (map (le_enc 8) ustack)) in
          if r <? 0 then exec_bad pagetable sz None
          else
            tf_set p TF_a1 sp;;;
            modp p (fun pr => set_p_name (safestrcpy_l (p_name pr) (last_elem path path) 16) pr);;;
            vma_unmap_all p;;;
            let* pr := getp p in
            let oldpagetable := p_pagetable pr in
            modp p (set_p_pagetable pagetable);;;
            modp p (set_p_sz sz);;;
            tf_set p TF_epc entry;;;
            tf_set p TF_sp sp;;;
            proc_freepagetable oldpagetable oldsz;;;
            ret (Z.of_nat argc)
    end.

(** [argv] is the array of pointers. *)
Definition exec (path : list Z) (argv : list Z) : KM Z :=
  let* p := curproc in
  begin_op;;;
  let* o := namei path in
  match o with
  | None => end_op;;; ret (-1)
  | Some ip =>
      ilock (Some ip);;;
      let* r := readi ip DLocal 0 sizeof_elfhdr in
      let elf := rd_elfhdr r.2 in
      if negb (r.1 =? sizeof_elfhdr) then exec_bad 0 0 (Some ip)
      else if negb (e_magic elf =? ELF_MAGIC) then exec_bad 0 0 (Some ip)
      else
        let* pagetable := proc_pagetable p in
        if pagetable =? 0 then exec_bad 0 0 (Some ip)
        else
          let* r := loop (exec_segment pagetable ip (e_phnum elf)) (0, s32 (e_phoff elf), 0) in
          let '(sz, bad) := r in
          if bad then exec_bad pagetable sz (Some ip)
          else
            iunlockput ip;;;
            end_op;;;
            exec_stack path argv (e_entry elf) pagetable sz
  end.

End Exec.
