(* ===== verification/Syscall.v ===== *)
(** * kernel/syscall.c, first part: fetching system call arguments

    argint and argaddr always return 0: the definitions return the argument,
    and the callers' tests of the return value are always false. *)
From S2P Require Import Prelude Memory State Kalloc Vm Sched Codec Trapframe.

Section Syscall.
Context `{KI : KernelImage}.

(** The word fetched, [None] for -1. *)
Definition fetchaddr (addr : Z) : KM (option Z) :=
  let* p := curproc in
  let* pr := getp p in
  if (p_sz pr <=? addr) || (p_sz pr <? u64 (addr + 8)) then ret None
  else
    let* r := copyin (p_pagetable pr) addr 8 in
    if negb (r.1 =? 0) then ret None else ret (Some (le_dec r.2)).

(** The return value and the bytes stored in [buf]. *)
Definition fetchstr (addr max : Z) : KM (Z * list Z) :=
  let* p := curproc in
  let* pr := getp p in
  let* r := copyinstr (p_pagetable pr) addr max in
  if r.1 <? 0 then ret r else ret (Z.of_nat (length (cut0 r.2)), r.2).

Definition argraw (n : Z) : KM Z :=
  let* p := curproc in
  if (0 <=? n) && (n <=? 5) then tf_get p (TF_a0 + 8 * n) else panic "argraw".

Definition argint (n : Z) : KM Z := let* v := argraw n in ret (s32 v).
Definition argaddr (n : Z) : KM Z := argraw n.

(** The string, without its NUL; [None] for -1. *)
Definition argstr (n max : Z) : KM (option (list Z)) :=
  let* addr := argaddr n in
  let* r := fetchstr addr max in
  if r.1 <? 0 then ret None else ret (Some (cut0 r.2)).

End Syscall.
