(* ===== verification/Sysproc.v ===== *)
(** * kernel/sysproc.c: system calls on processes

    The result is the value before its conversion to [uint64]. *)
From S2P Require Import Prelude Memory State Kalloc Vm Sched SchedSpec Sleeplock Virtio VirtioSpec Bio Codec Log Fs.
From S2P Require Import Uart Printf Console Pipe File Trapframe Proc Syscall.

Section Sysproc.
Context `{KI : KernelImage}.

Definition sys_exit : KM Z :=
  let* n := argint 0 in
  exit n.

Definition sys_getpid : KM Z :=
  let* p := curproc in
  let* pr := getp p in
  ret (p_pid pr).

Definition sys_fork : KM Z := fork.

Definition sys_wait : KM Z :=
  let* p := argaddr 0 in
  wait p.

Definition sys_sbrk : KM Z :=
  let* n := argint 0 in
  let* p := curproc in
  let* pr := getp p in
  let addr := s32 (p_sz pr) in
  let* r := growproc n in
  if r <? 0 then ret (-1) else ret addr.

(** [ticks - ticks0 < n] compares unsigned. *)
Definition sys_sleep : KM Z :=
  let* n := argint 0 in
  acquire L_tick;;;
  let* ticks0 := gets (fun s => k_ticks s) in
  loop (fun _ =>
    let* ticks := gets (fun s => k_ticks s) in
    if u32 (ticks - ticks0) <? u32 n then
      let* p := curproc in
      let* pr := getp p in
      if p_killed pr then release L_tick;;; ret (inr (-1))
      else sleep Ch_ticks L_tick;;; ret (inl tt)
    else release L_tick;;; ret (inr 0)) tt.

Definition sys_kill : KM Z :=
  let* pid := argint 0 in
  kill pid.

Definition sys_uptime : KM Z :=
  acquire L_tick;;;
  let* xticks := gets (fun s => k_ticks s) in
  release L_tick;;;
  ret xticks.

End Sysproc.
