(* ===== verification/Sysfile.v ===== *)
(** * kernel/sysfile.c: system calls on files *)
From S2P Require Import Prelude Memory State Kalloc Vm Sched SchedSpec Sleeplock Virtio VirtioSpec Bio Codec Log Fs.
From S2P Require Import Uart Printf Console Pipe File Trapframe Fcntl Proc Exec Syscall.

(** The lowest address in use by a vma, [TRAPFRAME] if there is none. *)
Definition lowest_vma (l : list vma) : Z :=
  fold_left (fun lowest v => if v_used v && (v_addr v <? lowest) then v_addr v else lowest) l TRAPFRAME.

Section Sysfile.
Context `{KI : KernelImage}.

(** ** Descriptors *)

(** The descriptor and its file, [None] for -1. *)
Definition argfd (n : Z) : KM (option (nat * nat)) :=
  let* fd := argint n in
  if (fd <? 0) || (Z.of_nat NOFILE <=? fd) then ret None
  else
    let* p := curproc in
    let* pr := getp p in
    match default None (p_ofile pr !! Z.to_nat fd) with
    | None => ret None
    | Some f => ret (Some (Z.to_nat fd, f))
    end.

Definition set_ofile (p fd : nat) (o : option nat) : KM unit :=
  modp p (fun pr => set_p_ofile (<[fd := o]> (p_ofile pr)) pr).

Definition fdalloc (f : nat) : KM (option nat) :=
  let* p := curproc in
  scan (seq 0 NOFILE) (fun fd =>
    let* pr := getp p in
    match default None (p_ofile pr !! fd) with
    | None => set_ofile p fd (Some f);;; ret (Some fd)
    | Some _ => ret None
    end).

(** ** Memory-mapped files *)
Definition mmap_bad_args (requested length prot flags offset : Z) (x : file) : bool :=
  negb (requested =? 0) || negb (offset =? 0) || (length =? 0) || (MAXVA <? length)
  || (negb (flags =? MAP_SHARED) && negb (flags =? MAP_PRIVATE))
  || negb (Z.land prot (Z.lnot (Z.lor (Z.lor PROT_READ PROT_WRITE) PROT_EXEC)) =? 0) || (prot =? 0)
  || negb (bool_decide (f_type x = FD_INODE)) || negb (f_readable x)
  || ((flags =? MAP_SHARED) && has prot PROT_WRITE && negb (f_writable x)).

Definition sys_mmap : KM Z :=
  let* p := curproc in
  let* requested := argaddr 0 in
  let* length := argaddr 1 in
  let* prot := argint 2 in
  let* flags := argint 3 in
  let* o := argfd 4 in
  match o with
  | None => ret (-1)
  | Some (_, f) =>
      let* offset := argaddr 5 in
      let* x := getf f in
      if mmap_bad_args requested length prot flags offset x then ret (-1)
      else
        let length := PGROUNDUP length in
        let* pr := getp p in
        let lowest := lowest_vma (p_vmas pr) in
        match find_vma (fun v => negb (v_used v)) pr with
        | None => ret (-1)
        | Some i =>
            if (lowest <? length) || (lowest - length <? PGROUNDUP (p_sz pr)) then ret (-1)
            else
              modvma p i (fun v => set_v_flags flags (set_v_prot prot (set_v_length length
                                     (set_v_addr (lowest - length) (set_v_used true v)))));;;
              let* f := filedup f in
              modvma p i (fun v => set_v_offset offset (set_v_file (Some f) v));;;
              ret (lowest - length)
        end
  end.

Definition sys_munmap : KM Z :=
  let* addr := argaddr 0 in
  let* length := argaddr 1 in
  if length =? 0 then ret (-1)
  else
    let* p := curproc in
    vma_unmap p addr length.

(** ** Open files *)
Definition sys_dup : KM Z :=
  let* o := argfd 0 in
  match o with
  | None => ret (-1)
  | Some (_, f) =>
      let* fd := fdalloc f in
      match fd with
      | None => ret (-1)
      | Some fd => filedup f;;; ret (Z.of_nat fd)
      end
  end.

Definition sys_read : KM Z :=
  let* o := argfd 0 in
  match o with
  | None => ret (-1)
  | Some (_, f) =>
      let* n := argint 2 in
      let* p := argaddr 1 in
      fileread f p n
  end.

Definition sys_write : KM Z :=
  let* o := argfd 0 in
  match o with
  | None => ret (-1)
  | Some (_, f) =>
      let* n := argint 2 in
      let* p := argaddr 1 in
      filewrite f p n
  end.

Definition sys_close : KM Z :=
  let* o := argfd 0 in
  match o with
  | None => ret (-1)
  | Some (fd, f) =>
      let* p := curproc in
      set_ofile p fd None;;;
      fileclose f;;;
      ret 0
  end.

Definition sys_fstat : KM Z :=
  let* o := argfd 0 in
  match o with
  | None => ret (-1)
  | Some (_, f) =>
      let* st := argaddr 1 in
      filestat f st
  end.

(** ** Directories *)

(** The code at the label [bad] of sys_link. *)
Definition link_bad (ip : nat) : KM Z :=
  ilock (Some ip);;;
  modi ip (fun x => set_i_nlink (s16 (i_nlink x - 1)) x);;;
  iupdate ip;;;
  iunlockput ip;;;
  end_op;;;
  ret (-1).

Definition sys_link : KM Z :=
  let* old := argstr 0 (Z.of_nat MAXPATH) in
  match old with
  | None => ret (-1)
  | Some old =>
  let* new := argstr 1 (Z.of_nat MAXPATH) in
  match new with
  | None => ret (-1)
  | Some new =>
  begin_op;;;
  let* o := namei old in
  match o with
  | None => end_op;;; ret (-1)
  | Some ip =>
      ilock (Some ip);;;
      let* x := geti ip in
      if i_type x =? T_DIR then iunlockput ip;;; end_op;;; ret (-1)
      else
        modi ip (fun x => set_i_nlink (s16 (i_nlink x + 1)) x);;;
        iupdate ip;;;
        iunlock (Some ip);;;
        let* r := nameiparent new in
        match r.1 with
        | None => link_bad ip
        | Some dp =>
            ilock (Some dp);;;
            let* d := geti dp in
            let* x := geti ip in
            let* failed :=
              (if negb (i_dev d =? i_dev x) then ret true
               else let* k := dirlink dp r.2 (i_inum x) in ret (k <? 0)) in
            if failed : bool then iunlockput dp;;; link_bad ip
            else
              iunlockput dp;;;
              iput ip;;;
              end_op;;;
              ret 0
        end
  end
  end
  end.

(** [off] is an [int]. *)
Definition isdirempty (dp : nat) : KM bool :=
  loop (fun off =>
    let* x := geti dp in
    if u32 off <? i_size x then
      let* r := readi dp DLocal (u32 off) sizeof_dirent in
      if negb (r.1 =? sizeof_dirent) then panic "isdirempty: readi"
      else if negb (de_inum r.2 =? 0) then ret (inr false)
      else ret (inl (s32 (off + sizeof_dirent)))
    else ret (inr true)) (2 * sizeof_dirent).

(** The code at the label [bad] of sys_unlink. *)
Definition unlink_bad (dp : nat) : KM Z :=
  iunlockput dp;;;
  end_op;;;
  ret (-1).

(** The entry of [ip] is at [off] of [dp]; both are locked. *)
Definition unlink_entry (dp ip : nat) (off : Z) : KM Z :=
  let* k := writei dp (SLocal (replicate (Z.to_nat sizeof_dirent) 0)) off sizeof_dirent in
  if negb (k =? sizeof_dirent) then panic "unlink: writei"
  else
    let* x := geti ip in
    when (i_type x =? T_DIR)
      (modi dp (fun x => set_i_nlink (s16 (i_nlink x - 1)) x);;;
       iupdate dp);;;
    iunlockput dp;;;
    modi ip (fun x => set_i_nlink (s16 (i_nlink x - 1)) x);;;
    iupdate ip;;;
    iunlockput ip;;;
    end_op;;;
    ret 0.

Definition sys_unlink : KM Z :=
  let* path := argstr 0 (Z.of_nat MAXPATH) in
  match path with
  | None => ret (-1)
  | Some path =>
  begin_op;;;
  let* r := nameiparent path in
  match r.1 with
  | None => end_op;;; ret (-1)
  | Some dp =>
      let name := r.2 in
      ilock (Some dp);;;
      if (namecmp name (str ".") =? 0) || (namecmp name (str "..") =? 0) then unlink_bad dp
      else
        let* e := dirlookup dp name in
        match e with
        | None => unlink_bad dp
        | Some (ip, off) =>
            ilock (Some ip);;;
            let* x := geti ip in
            if i_nlink x <? 1 then panic "unlink: nlink < 1"
            else
              let* full := (if i_type x =? T_DIR then let* e := isdirempty ip in ret (negb e) else ret false) in
              if full : bool then iunlockput ip;;; unlink_bad dp
              else unlink_entry dp ip off
        end
  end
  end.

(** The new inode, locked; [type], [major] and [minor] are [short]. *)
Definition create (path : list Z) (type major minor : Z) : KM (option nat) :=
  let* r := nameiparent path in
  match r.1 with
  | None => ret None
  | Some dp =>
      let name := r.2 in
      ilock (Some dp);;;
      let* e := dirlookup dp name in
      match e with
      | Some (ip, _) =>
          iunlockput dp;;;
          ilock (Some ip);;;
          let* x := geti ip in
          if (type =? T_FILE) && ((i_type x =? T_FILE) || (i_type x =? T_DEVICE)) then ret (Some ip)
          else iunlockput ip;;; ret None
      | None =>
          let* d := geti dp in
          let* ip := ialloc (i_dev d) type in
          ilock (Some ip);;;
          modi ip (set_i_major major);;;
          modi ip (set_i_minor minor);;;
          modi ip (set_i_nlink 1);;;
          iupdate ip;;;
          when (type =? T_DIR)
            (modi dp (fun x => set_i_nlink (s16 (i_nlink x + 1)) x);;;
             iupdate dp;;;
             let* x := geti ip in
             let* k := dirlink ip (str ".") (i_inum x) in
             if k <? 0 then panic "create dots"
             else
               let* d := geti dp in
               let* k := dirlink ip (str "..") (i_inum d) in
               if k <? 0 then panic "create dots" else ret tt);;;
          let* x := geti ip in
          let* k := dirlink dp name (i_inum x) in
          if k <? 0 then panic "create: dirlink"
          else
            iunlockput dp;;;
            ret (Some ip)
      end
  end.

(** The inode to open, locked. *)
Definition open_inode (path : list Z) (omode : Z) : KM (option nat) :=
  if has omode O_CREATE then
    let* o := create path T_FILE 0 0 in
    match o with
    | None => end_op;;; ret None
    | Some ip => ret (Some ip)
    end
  else
    let* o := namei path in
    match o with
    | None => end_op;;; ret None
    | Some ip =>
        ilock (Some ip);;;
        let* x := geti ip in
        if (i_type x =? T_DIR) && negb (omode =? O_RDONLY) then
          iunlockput ip;;; end_op;;; ret None
        else ret (Some ip)
    end.

Definition sys_open : KM Z :=
  let* path := argstr 0 (Z.of_nat MAXPATH) in
  match path with
  | None => ret (-1)
  | Some path =>
  let* omode := argint 1 in
  begin_op;;;
  let* o := open_inode path omode in
  match o with
  | None => ret (-1)
  | Some ip =>
  let* x := geti ip in
  if (i_type x =? T_DEVICE) && ((i_major x <? 0) || (NDEV <=? i_major x)) then
    iunlockput ip;;; end_op;;; ret (-1)
  else
    let* f := filealloc in
    match f with
    | None => iunlockput ip;;; end_op;;; ret (-1)
    | Some f =>
        let* fd := fdalloc f in
        match fd with
        | None => fileclose f;;; iunlockput ip;;; end_op;;; ret (-1)
        | Some fd =>
            let* x := geti ip in
            (if i_type x =? T_DEVICE then
               modf f (set_f_type FD_DEVICE);;;
               modf f (set_f_major (i_major x))
             else
               modf f (set_f_type FD_INODE);;;
               modf f (set_f_off 0));;;
            modf f (set_f_ip (Some ip));;;
            modf f (set_f_readable (negb (has omode O_WRONLY)));;;
            modf f (set_f_writable (has omode O_WRONLY || has omode O_RDWR));;;
            when (has omode O_TRUNC && (i_type x =? T_FILE)) (itrunc ip);;;
            iunlock (Some ip);;;
            end_op;;;
            ret (Z.of_nat fd)
        end
    end
  end
  end.

(** What sys_mkdir and sys_mknod do with create's result. *)
Definition created (o : option nat) : KM Z :=
  match o with
  | None => end_op;;; ret (-1)
  | Some ip => iunlockput ip;;; end_op;;; ret 0
  end.

Definition sys_mkdir : KM Z :=
  begin_op;;;
  let* path := argstr 0 (Z.of_nat MAXPATH) in
  match path with
  | None => end_op;;; ret (-1)
  | Some path => let* o := create path T_DIR 0 0 in created o
  end.

Definition sys_mknod : KM Z :=
  begin_op;;;
  let* path := argstr 0 (Z.of_nat MAXPATH) in
  match path with
  | None => end_op;;; ret (-1)
  | Some path =>
      let* major := argint 1 in
      let* minor := argint 2 in
      let* o := create path T_DEVICE (s16 major) (s16 minor) in
      created o
  end.

Definition sys_chdir : KM Z :=
  let* p := curproc in
  begin_op;;;
  let* path := argstr 0 (Z.of_nat MAXPATH) in
  let* o := (match path with None => ret None | Some path => namei path end) in
  match o with
  | None => end_op;;; ret (-1)
  | Some ip =>
      ilock (Some ip);;;
      let* x := geti ip in
      if negb (i_type x =? T_DIR) then iunlockput ip;;; end_op;;; ret (-1)
      else
        iunlock (Some ip);;;
        let* pr := getp p in
        let* cwd := deref (p_cwd pr) in
        iput cwd;;;
        end_op;;;
        modp p (set_p_cwd (Some ip));;;
        ret 0
  end.

(** ** exec *)

(** One element of argv: the pages allocated so far; ends with them and
    whether the array was fetched to its end. *)
Definition exec_fetch (uargv : Z) (argv : list Z) : KM (list Z + list Z * bool) :=
  let i := length argv in
  if (MAXARG <=? i)%nat then ret (inr (argv, false))
  else
    let* uarg := fetchaddr (u64 (uargv + 8 * Z.of_nat i)) in
    match uarg with
    | None => ret (inr (argv, false))
    | Some uarg =>
        if uarg =? 0 then ret (inr (argv, true))
        else
          let* pg := kalloc in
          if pg =? 0 then ret (inr (argv, false))
          else
            let* r := fetchstr uarg PGSIZE in
            modify (set_mem (fun m => write_bytes m pg r.2));;;
            if r.1 <? 0 then ret (inr (argv ++ [pg], false)) else ret (inl (argv ++ [pg]))
    end.

Definition sys_exec : KM Z :=
  let* path := argstr 0 (Z.of_nat MAXPATH) in
  match path with
  | None => ret (-1)
  | Some path =>
      let* uargv := argaddr 1 in
      let* r := loop (exec_fetch uargv) [] in
      let '(argv, ok) := r in
      let* v := (if ok : bool then exec path (argv ++ replicate (MAXARG - length argv) 0) else ret (-1)) in
      for_each argv kfree;;;
      ret v
  end.

(** ** pipe *)
Definition pipe_bad (rf wf : nat) : KM Z :=
  fileclose rf;;;
  fileclose wf;;;
  ret (-1).

Definition sys_pipe : KM Z :=
  let* p := curproc in
  let* fdarray := argaddr 0 in
  let* o := pipealloc in
  match o with
  | None => ret (-1)
  | Some (rf, wf) =>
      let* o := fdalloc rf in
      match o with
      | None => pipe_bad rf wf
      | Some fd0 =>
          let* o := fdalloc wf in
          match o with
          | None => set_ofile p fd0 None;;; pipe_bad rf wf
          | Some fd1 =>
              let* pr := getp p in
              let* r0 := copyout (p_pagetable pr) fdarray (le_enc 4 (Z.of_nat fd0)) in
              let* r1 := (if r0 <? 0 then ret (-1)
                          else copyout (p_pagetable pr) (u64 (fdarray + 4)) (le_enc 4 (Z.of_nat fd1))) in
              if r1 <? 0 then
                set_ofile p fd0 None;;;
                set_ofile p fd1 None;;;
                pipe_bad rf wf
              else ret 0
          end
      end
  end.

End Sysfile.
