(* ===== verification/Trap.v ===== *)
(** * kernel/trap.c, plic.c, main.c, start.c and the table of syscall.c

    Registers that are read are arguments; accesses to the interrupt controller
    and to sip come out as a list of writes. *)
From S2P Require Import Prelude Memory State Kalloc Vm Sched SchedSpec Sleeplock Virtio VirtioSpec Bio Codec Log Fs.
From S2P Require Import Uart Printf Console Pipe File Trapframe Kvm Proc Exec Syscall Sysproc Sysfile.

(** ** plic.c *)
Inductive hwop := W_reg (addr v : Z) | W_sip (v : Z).

Definition PLIC_SENABLE (hart : Z) : Z := PLIC + 0x2080 + hart * 0x100.
Definition PLIC_SPRIORITY (hart : Z) : Z := PLIC + 0x201000 + hart * 0x2000.
Definition PLIC_SCLAIM (hart : Z) : Z := PLIC + 0x201004 + hart * 0x2000.

Definition plicinit : list hwop := [W_reg (PLIC + UART0_IRQ * 4) 1; W_reg (PLIC + VIRTIO0_IRQ * 4) 1].
Definition plicinithart (hart : Z) : list hwop :=
  [W_reg (PLIC_SENABLE hart) (Z.lor (Z.shiftl 1 UART0_IRQ) (Z.shiftl 1 VIRTIO0_IRQ)); W_reg (PLIC_SPRIORITY hart) 0].
(** [rd] is what the device's registers hold. *)
Definition plic_claim (rd : Z -> Z) (hart : Z) : Z := s32 (rd (PLIC_SCLAIM hart)).
Definition plic_complete (hart irq : Z) : hwop := W_reg (PLIC_SCLAIM hart) (u32 irq).

(** ** Control registers *)
Definition SSTATUS_SIE : Z := Z.shiftl 1 1.

#[projections(primitive)]
Record csrs := mkCsrs { r_scause : Z; r_stval : Z; r_sepc : Z; r_sstatus : Z; r_sip : Z; r_satp : Z; r_tp : Z }.

(** ** start.c: the machine-mode registers *)
Definition MSTATUS_MPP_MASK : Z := Z.shiftl 3 11.
Definition MSTATUS_MPP_S : Z := Z.shiftl 1 11.
Definition MSTATUS_MIE : Z := Z.shiftl 1 3.
Definition SIE_SEIE : Z := Z.shiftl 1 9.
Definition SIE_STIE : Z := Z.shiftl 1 5.
Definition SIE_SSIE : Z := Z.shiftl 1 1.
Definition MIE_MTIE : Z := Z.shiftl 1 7.
Definition CLINT : Z := 0x2000000.
Definition CLINT_MTIMECMP (hart : Z) : Z := CLINT + 0x4000 + 8 * hart.

#[projections(primitive)]
Record mregs := mkMregs {
  m_mstatus : Z; m_mepc : Z; m_satp : Z; m_medeleg : Z; m_mideleg : Z; m_sie : Z; m_pmpaddr0 : Z;
  m_pmpcfg0 : Z; m_mscratch : Z; m_mtvec : Z; m_mie : Z; m_tp : Z }.

(** [scratch] is [&timer_scratch[id][0]]; the words stored there and the write
    to the timer's compare register come out, with the registers. *)
Definition timerinit (id mtime scratch timervec : Z) (r : mregs) : mregs * list (Z * Z) :=
  let interval := 1000000 in
  (mkMregs (Z.lor (m_mstatus r) MSTATUS_MIE) (m_mepc r) (m_satp r) (m_medeleg r) (m_mideleg r) (m_sie r)
     (m_pmpaddr0 r) (m_pmpcfg0 r) scratch timervec (Z.lor (m_mie r) MIE_MTIE) (m_tp r),
   [(CLINT_MTIMECMP id, u64 (mtime + interval)); (scratch + 24, CLINT_MTIMECMP id); (scratch + 32, interval)]).

(** Up to the mret; [a_main] is the address of main, [id] the hart. *)
Definition start (id mtime scratch timervec a_main : Z) (r : mregs) : mregs * list (Z * Z) :=
  let x := Z.lor (Z.land (m_mstatus r) (Z.lnot MSTATUS_MPP_MASK)) MSTATUS_MPP_S in
  let r := mkMregs x a_main 0 0xffff 0xffff
             (Z.lor (m_sie r) (Z.lor (Z.lor SIE_SEIE SIE_STIE) SIE_SSIE)) 0x3fffffffffffff 0xf
             (m_mscratch r) (m_mtvec r) (m_mie r) (m_tp r) in
  let '(r, w) := timerinit id mtime scratch timervec r in
  (mkMregs (m_mstatus r) (m_mepc r) (m_satp r) (m_medeleg r) (m_mideleg r) (m_sie r) (m_pmpaddr0 r)
     (m_pmpcfg0 r) (m_mscratch r) (m_mtvec r) (m_mie r) id, w).

Section Trap.
Context `{KI : KernelImage}.

(** ** syscall.c *)
Definition syscalls : list (option (KM Z)) :=
  [None; Some sys_fork; Some sys_exit; Some sys_wait; Some sys_pipe; Some sys_read; Some sys_kill;
   Some sys_exec; Some sys_fstat; Some sys_chdir; Some sys_dup; Some sys_getpid; Some sys_sbrk;
   Some sys_sleep; Some sys_uptime; Some sys_open; Some sys_write; Some sys_mknod; Some sys_unlink;
   Some sys_link; Some sys_mkdir; Some sys_close; Some sys_mmap; Some sys_munmap].

Definition syscall : KM unit :=
  let* p := curproc in
  let* a7 := tf_get p TF_a7 in
  let num := s32 a7 in
  match (if 0 <? num then default None (syscalls !! Z.to_nat num) else None) with
  | Some f =>
      let* r := f in
      tf_set p TF_a0 (u64 r)
  | None =>
      let* pr := getp p in
      printf (str "%d %s: unknown sys call %d" ++ [10]) [AInt (p_pid pr); AStr (Some (cut0 (p_name pr))); AInt num];;;
      tf_set p TF_a0 (u64 (-1))
  end.

(** ** trap.c *)
Definition clockintr : KM unit :=
  acquire L_tick;;;
  modify (set_ticks (fun t => u32 (t + 1)));;;
  wakeup Ch_ticks;;;
  release L_tick.

Definition devintr (rd : Z -> Z) (c : csrs) : KM (Z * list hwop) :=
  let scause := r_scause c in
  if has scause 0x8000000000000000 && (Z.land scause 0xff =? 9) then
    let irq := plic_claim rd (r_tp c) in
    (if irq =? UART0_IRQ then uartintr
     else if irq =? VIRTIO0_IRQ then virtio_disk_intr
     else when (negb (irq =? 0)) (printf (str "unexpected interrupt irq=%d" ++ [10]) [AInt irq]));;;
    ret (1, if irq =? 0 then [] else [plic_complete (r_tp c) irq])
  else if scause =? 0x8000000000000001 then
    when (r_tp c =? 0) clockintr;;;
    ret (2, [W_sip (Z.land (r_sip c) (Z.lnot 2))])
  else ret (0, []).

(** A page fault that vma_fault resolves. *)
Definition page_fault (p : nat) (c : csrs) : KM bool :=
  if (r_scause c =? 12) || (r_scause c =? 13) || (r_scause c =? 15) then
    let* r := vma_fault p (r_stval c) (r_scause c) in
    ret (r =? 0)
  else ret false.

(** [c] is the registers at the trap; [c'] what they hold when they are read
    again after vma_fault, which may sleep and so let other traps happen; [c'']
    on the way out.  The stvec register points to kernelvec meanwhile. *)
Definition usertrap (rd : Z -> Z) (c c' c'' : csrs) : KM (list hwop * uregs) :=
  if has (r_sstatus c) SSTATUS_SPP then panic "usertrap: not from user mode"
  else
    let* p := curproc in
    tf_set p TF_epc (r_sepc c);;;
    let* x :=
      (if r_scause c =? 8 then
         let* pr := getp p in
         (if p_killed pr then exit (-1) else ret tt);;;
         let* epc := tf_get p TF_epc in
         tf_set p TF_epc (u64 (epc + 4));;;
         syscall;;;
         ret (0, [])
       else
         let* done := page_fault p c in
         if done : bool then ret (0, [])
         else
           let* d := devintr rd c' in
           if negb (d.1 =? 0) then ret d
           else
             let* pr := getp p in
             printf (str "usertrap(): unexpected scause %p pid=%d" ++ [10]) [APtr (r_scause c'); AInt (p_pid pr)];;;
             printf (str "            sepc=%p stval=%p" ++ [10]) [APtr (r_sepc c'); APtr (r_stval c')];;;
             modp p (set_p_killed true);;;
             ret d) in
    let '(which_dev, ops) := x in
    let* pr := getp p in
    (if p_killed pr then exit (-1) else ret tt);;;
    when (which_dev =? 2) yield;;;
    let* u := usertrapret (r_satp c'') (r_tp c'') (r_sstatus c'') in
    ret (ops, u).

(** The values restored to sepc and sstatus. *)
Definition kerneltrap (rd : Z -> Z) (c : csrs) : KM (list hwop * (Z * Z)) :=
  if negb (has (r_sstatus c) SSTATUS_SPP) then panic "kerneltrap: not from supervisor mode"
  else if has (r_sstatus c) SSTATUS_SIE then panic "kerneltrap: interrupts enabled"
  else
    let* d := devintr rd c in
    if d.1 =? 0 then
      printf (str "scause %p" ++ [10]) [APtr (r_scause c)];;;
      printf (str "sepc=%p stval=%p" ++ [10]) [APtr (r_sepc c); APtr (r_stval c)];;;
      panic "kerneltrap"
    else
      let* running :=
        (let* o := myproc in
         match o with
         | None => ret false
         | Some p => let* pr := getp p in ret (bool_decide (p_state pr = RUNNING))
         end) in
      when ((d.1 =? 2) && running) yield;;;
      ret (d.2, (r_sepc c, r_sstatus c)).

(** trapinit only initialises a lock; the value trapinithart writes to stvec. *)
Definition trapinit : KM unit := ret tt.
Definition trapinithart : Z := a_kernelvec.

(** ** main.c *)

(** Hart 0 up to [started = 1]; [rd] reads the disk's registers, [pages] is the
    address of the disk's static pages.  The device writes, satp and stvec. *)
Definition main_boot (rd : Z -> Z) (pages : Z) : KM (list hwop * Z * Z) :=
  let* w1 := consoleinit in
  printfinit;;;
  printf [10] [];;;
  printf (str "xv6 kernel is booting" ++ [10]) [];;;
  printf [10] [];;;
  kinit;;;
  kvminit;;;
  let* satp := kvminithart in
  procinit;;;
  trapinit;;;
  let stvec := trapinithart in
  let w2 := plicinit ++ plicinithart 0 in
  binit;;;
  iinit;;;
  fileinit;;;
  let* w3 := virtio_disk_init rd pages in
  userinit;;;
  ret (map (fun w => W_reg (UART0 + w.1) w.2) w1 ++ w2 ++ map (fun w => W_reg (VIRTIO0 + w.1) w.2) w3, satp, stvec).

(** The other harts, once [started] is set. *)
Definition main_hart (hart : Z) : KM (list hwop * Z * Z) :=
  printf (str "hart %d starting" ++ [10]) [AInt hart];;;
  let* satp := kvminithart in
  let stvec := trapinithart in
  ret (plicinithart hart, satp, stvec).

Definition main (hart : Z) (rd : Z -> Z) (pages : Z) : KM unit :=
  (if hart =? 0 then main_boot rd pages;;; ret tt else main_hart hart;;; ret tt);;;
  scheduler.

End Trap.
