(* ===== verification/FsCodec.v ===== *)
(** * Round trips of fs.c's on-disk inodes, and path parsing against a reference *)
From S2P Require Import Prelude Memory State Kalloc Vm Sched SchedSpec Sleeplock Virtio VirtioSpec Bio Codec Log Fs.

(** ** Inodes in a block *)
Lemma length_wr_addrs l : forall o d, length (wr_addrs o l d) = length d.
Proof. induction l as [|a l IH]; intros o d; [done|]. cbn [wr_addrs]. by rewrite IH, length_wr32. Qed.

Lemma rd8_wr_addrs l : forall o d k, (k < o \/ o + 4 * length l <= k)%nat -> rd8 (wr_addrs o l d) k = rd8 d k.
Proof.
  induction l as [|a l IH]; intros o d k Hk; [done|]. cbn [wr_addrs length] in *.
  rewrite IH by lia. apply rd8_wr32_ne. lia.
Qed.
Lemma rd16_wr_addrs l o d k : (k + 2 <= o \/ o + 4 * length l <= k)%nat -> rd16 (wr_addrs o l d) k = rd16 d k.
Proof. intros. unfold rd16. by rewrite !rd8_wr_addrs by lia. Qed.
Lemma rd32_wr_addrs_ne l o d k : (k + 4 <= o \/ o + 4 * length l <= k)%nat -> rd32 (wr_addrs o l d) k = rd32 d k.
Proof. intros. unfold rd32. by rewrite !rd16_wr_addrs by lia. Qed.

Lemma rd32_wr_addrs l : forall o d k a, (o + 4 * length l <= length d)%nat -> l !! k = Some a ->
  rd32 (wr_addrs o l d) (o + 4 * k) = u32 a.
Proof.
  induction l as [|b l IH]; intros o d k a Hlen Hk; [done|]. cbn [wr_addrs length] in *.
  destruct k as [|k].
  - injection Hk as ->. rewrite Nat.mul_0_r, Nat.add_0_r, rd32_wr_addrs_ne by lia. apply rd32_wr32. lia.
  - replace (o + 4 * S k)%nat with (o + 4 + 4 * k)%nat by lia.
    apply IH; [rewrite length_wr32; lia|exact Hk].
Qed.

(** A disk inode whose fields fit their C types. *)
Record dinode_ok (x : dinode) : Prop := {
  dk_type : - 2 ^ 15 <= di_type x < 2 ^ 15;
  dk_major : - 2 ^ 15 <= di_major x < 2 ^ 15;
  dk_minor : - 2 ^ 15 <= di_minor x < 2 ^ 15;
  dk_nlink : - 2 ^ 15 <= di_nlink x < 2 ^ 15;
  dk_size : 0 <= di_size x < 2 ^ 32;
  dk_len : length (di_addrs x) = 13%nat;
  dk_addrs : Forall (fun a => 0 <= a < 2 ^ 32) (di_addrs x)
}.

Lemma s16_u16 z : - 2 ^ 15 <= z < 2 ^ 15 -> s16 (u16 z) = z.
Proof.
  intros H. unfold s16, u16, wrap. change (2 ^ 16) with 65536. change (2 ^ 15) with 32768 in *.
  rewrite Z.mod_mod by lia. destruct (Z.ltb_spec (z mod 65536) 32768); zmod.
Qed.

Lemma rd_addrs_wr o l d :
  length l = 13%nat -> (o + 52 <= length d)%nat -> Forall (fun a => 0 <= a < 2 ^ 32) l ->
  rd_addrs (wr_addrs o l d) o = l.
Proof.
  intros Hl Hd HF. apply list_eq. intros k. unfold rd_addrs. rewrite list_lookup_fmap.
  destruct (decide (k < 13)%nat) as [Hk|Hk].
  - rewrite lookup_seq_lt by (unfold NDIRECT; lia). cbn [fmap option_fmap option_map].
    destruct (lookup_lt_is_Some_2 l k) as [a Ha]; [lia|]. rewrite Ha. f_equal.
    change (0 + k)%nat with k. rewrite (rd32_wr_addrs l o d k a) by (rewrite ?Hl; lia || done).
    apply u32_small. rewrite Forall_lookup in HF. by apply (HF k).
  - rewrite (proj2 (lookup_ge_None _ _)) by (rewrite length_seq; unfold NDIRECT; lia).
    symmetry. apply lookup_ge_None. lia.
Qed.

Lemma rd_dinode_wr o x d : dinode_ok x -> (o + 64 <= length d)%nat -> rd_dinode (wr_dinode o x d) o = x.
Proof.
  intros [H1 H2 H3 H4 H5 H6 H7] Hlen. unfold rd_dinode, wr_dinode, rds16.
  rewrite rd_addrs_wr by (rewrite ?length_wr32, ?length_wr16; done || lia).
  rewrite !rd16_wr_addrs, rd32_wr_addrs_ne by (rewrite ?H6; lia).
  rewrite rd32_wr32 by (rewrite !length_wr16; lia).
  rewrite (rd16_wr32_ne (o + 8) o), (rd16_wr32_ne (o + 8) (o + 2)), (rd16_wr32_ne (o + 8) (o + 4)),
    (rd16_wr32_ne (o + 8) (o + 6)) by lia.
  rewrite (rd16_wr16_ne (o + 6) o), (rd16_wr16_ne (o + 4) o), (rd16_wr16_ne (o + 2) o), (rd16_wr16 o) by lia.
  rewrite (rd16_wr16_ne (o + 6) (o + 2)), (rd16_wr16_ne (o + 4) (o + 2)), (rd16_wr16 (o + 2)) by (rewrite ?length_wr16; lia).
  rewrite (rd16_wr16_ne (o + 6) (o + 4)), (rd16_wr16 (o + 4)), (rd16_wr16 (o + 6)) by (rewrite ?length_wr16; lia).
  rewrite !s16_u16, u32_small by done. by destruct x.
Qed.

Lemma rd8_wr_dinode o x d k :
  length (di_addrs x) = 13%nat -> (k < o \/ o + 64 <= k)%nat -> rd8 (wr_dinode o x d) k = rd8 d k.
Proof.
  intros Hl Hk. unfold wr_dinode. rewrite rd8_wr_addrs by (rewrite Hl; lia).
  by rewrite rd8_wr32_ne, !rd8_wr16_ne by lia.
Qed.
Lemma rd_dinode_wr_ne o o' x d :
  length (di_addrs x) = 13%nat -> (o' + 64 <= o \/ o + 64 <= o')%nat ->
  rd_dinode (wr_dinode o x d) o' = rd_dinode d o'.
Proof.
  intros Hl Ho. unfold rd_dinode, rds16, rd_addrs, rd32, rd16.
  f_equal; try (repeat (rewrite rd8_wr_dinode by (done || lia)); done).
  apply map_ext_in. intros k Hk%in_seq. unfold NDIRECT in Hk.
  by rewrite !rd8_wr_dinode by (done || lia).
Qed.
Lemma length_wr_dinode o x d : length (wr_dinode o x d) = length d.
Proof. unfold wr_dinode. by rewrite length_wr_addrs, length_wr32, !length_wr16. Qed.

(** ** Paths *)

(** Reference: the non-empty components of a path, split at the slashes. *)
Fixpoint path_split (cur path : list Z) : list (list Z) :=
  match path with
  | [] => [cur]
  | c :: path' => if c =? slash then cur :: path_split [] path' else path_split (cur ++ [c]) path'
  end.
Definition path_elems (path : list Z) : list (list Z) := filter (fun e => e <> []) (path_split [] path).

Lemma path_elems_slash path : path_elems (slash :: path) = path_elems path.
Proof. done. Qed.

Lemma path_elems_skip path : path_elems (skip_slashes path) = path_elems path.
Proof.
  induction path as [|c path IH]; [done|]. cbn [skip_slashes].
  destruct (Z.eqb_spec c slash) as [->|]; [by rewrite IH, path_elems_slash|done].
Qed.

Lemma skip_slashes_head path : head (skip_slashes path) <> Some slash.
Proof.
  induction path as [|c path IH]; [done|]. cbn [skip_slashes].
  destruct (Z.eqb_spec c slash); [done|]. cbn. congruence.
Qed.

Lemma skip_slashes_length path : (length (skip_slashes path) <= length path)%nat.
Proof. induction path as [|c path IH]; [done|]. cbn [skip_slashes length]. destruct (c =? slash); cbn; lia. Qed.

Lemma path_split_span path : forall cur,
  path_split cur path = let '(e, r) := span_elem path in
    (cur ++ e) :: match r with [] => [] | _ :: r' => path_split [] r' end.
Proof.
  induction path as [|c path IH]; intros cur; cbn [path_split span_elem]; [by rewrite app_nil_r|].
  destruct (c =? slash); [by rewrite app_nil_r|]. rewrite IH.
  destruct (span_elem path) as [e r]. by rewrite <- app_assoc.
Qed.

Lemma span_elem_spec path e r : span_elem path = (e, r) ->
  path = e ++ r /\ Forall (fun c => c <> slash) e /\ (r = [] \/ head r = Some slash).
Proof.
  revert e r. induction path as [|c path IH]; intros e r; cbn [span_elem].
  - intros [= <- <-]. split_and!; [done|constructor|by left].
  - destruct (Z.eqb_spec c slash) as [->|Hc].
    + intros [= <- <-]. split_and!; [done|constructor|by right].
    + destruct (span_elem path) as [e' r'] eqn:E. intros [= <- <-].
      destruct (IH e' r' eq_refl) as (-> & HF & Hr). split_and!; [done|by constructor|done].
Qed.

(** The first component of a path that starts with one. *)
Lemma path_elems_span path e r :
  path <> [] -> head path <> Some slash -> span_elem path = (e, r) ->
  e <> [] /\ path_elems path = e :: path_elems r.
Proof.
  intros Hne Hh E. destruct (span_elem_spec _ _ _ E) as (Ep & HF & Hr).
  assert (He : e <> []).
  { intros ->. subst path. destruct Hr as [->|Hr]; done. }
  split; [done|]. unfold path_elems at 1. rewrite path_split_span, E. cbn [app].
  rewrite filter_cons_True by done. f_equal. destruct r as [|c r]; [done|].
  destruct Hr as [?|Hr]; [done|]. cbn in Hr. injection Hr as ->. done.
Qed.

(** skipelem against the reference. *)
Lemma skipelem_spec path name :
  Forall (fun c => c <> 0) path -> length name = DIRSIZ ->
  match path_elems path with
  | [] => skipelem path name = None
  | e :: es => exists rest name', skipelem path name = Some (rest, name') /\
      cut0 name' = take DIRSIZ e /\ length name' = DIRSIZ /\
      path_elems rest = es /\ head rest <> Some slash /\ (length rest < length path)%nat /\ (rest = [] <-> es = [])
  end.
Proof.
  intros Hnz Hname. rewrite <- (path_elems_skip path). unfold skipelem.
  pose proof (skip_slashes_head path) as Hh. pose proof (skip_slashes_length path) as Hl.
  assert (Hnz' : Forall (fun c => c <> 0) (skip_slashes path)).
  { clear - Hnz. induction Hnz as [|c path Hc Hp IH]; [constructor|]. cbn [skip_slashes].
    destruct (c =? slash); [done|by constructor]. }
  destruct (skip_slashes path) as [|c s] eqn:Es; [done|].
  destruct (span_elem (c :: s)) as [e r] eqn:Ee.
  destruct (path_elems_span (c :: s) e r ltac:(done) Hh Ee) as [He Hel]. rewrite Hel.
  destruct (span_elem_spec _ _ _ Ee) as (Ep & HF & _).
  assert (Hel0 : length e <> 0%nat) by (by destruct e).
  rewrite Ep in Hnz'. apply Forall_app in Hnz' as [Hez _].
  do 2 eexists. split; [reflexivity|]. split_and!.
  - destruct (Nat.leb_spec DIRSIZ (length e)).
    + pose proof (cut0_pad (take DIRSIZ e) 0 (Forall_take _ _ _ Hez)) as Hc. by rewrite app_nil_r in Hc.
    + assert (E : wrbytes 0 (e ++ [0]) name = e ++ 0 :: drop (length (e ++ [0])) name).
      { unfold wrbytes. cbn [take]. by rewrite app_nil_l, <- app_assoc. }
      by rewrite E, cut0_app_zero, take_ge by (done || lia).
  - destruct (Nat.leb_spec DIRSIZ (length e)); [rewrite length_take; lia|].
    rewrite length_wrbytes; [done|]. rewrite length_app. cbn. lia.
  - apply path_elems_skip.
  - apply skip_slashes_head.
  - pose proof (skip_slashes_length r). assert (length (c :: s) = length e + length r)%nat by (by rewrite Ep, length_app).
    lia.
  - rewrite <- (path_elems_skip r). pose proof (skip_slashes_head r) as Hr.
    split; [by intros ->|]. intros Hn. destruct (skip_slashes r) as [|c' r'] eqn:Er; [done|].
    destruct (span_elem (c' :: r')) as [e' r''] eqn:Ee'.
    destruct (path_elems_span (c' :: r') e' r'' ltac:(done) Hr Ee') as [_ Hx]. by rewrite Hx in Hn.
Qed.
