(* ===== verification/FsSpec.v ===== *)
(** * Files as byte arrays: bmap, readi, dirlookup, and the free map

    For a process whose view of the disk is [V], an in-memory inode stands for
    the byte array [fbyte V ip]; readi reads it, dirlookup searches it. *)
From S2P Require Import Prelude Memory State Kalloc Vm Sched SchedSpec Sleeplock Virtio VirtioSpec Bio BioSpec Codec Log LogSpec LogCrash Txn Fs.

(** ** The abstract file *)

(** The disk block that holds block [k] of the file. *)
Definition blk_of (V : gmap Z block) (ip : inode) (k : Z) : Z :=
  if k <? Z.of_nat NDIRECT then addr_at ip (Z.to_nat k)
  else rd32 (dblk V (addr_at ip NDIRECT)) (Z.to_nat (4 * (k - Z.of_nat NDIRECT))).

Definition fbyte (V : gmap Z block) (ip : inode) (o : Z) : Z :=
  rd8 (dblk V (blk_of V ip (o / BSIZE))) (Z.to_nat (o mod BSIZE)).
Definition fbytes (V : gmap Z block) (ip : inode) (off n : Z) : list Z := fbyte V ip <$> seqZ off n.

(** An inode all of whose blocks are allocated. *)
Record file_ok (V : gmap Z block) (ip : inode) : Prop := {
  fo_dev : i_dev ip = ROOTDEV;
  fo_size : 0 <= i_size ip <= MAXFILE * BSIZE;
  fo_ind : Z.of_nat NDIRECT * BSIZE < i_size ip -> 0 < addr_at ip NDIRECT < 2 ^ 31;
  fo_blk : forall k, 0 <= k -> k * BSIZE < i_size ip -> 0 < blk_of V ip k < 2 ^ 31;
  fo_len : forall bn, length (dblk V bn) = 1024%nat
}.

Lemma length_fbytes V ip off n : length (fbytes V ip off n) = Z.to_nat n.
Proof. unfold fbytes. by rewrite length_fmap, length_seqZ. Qed.

Lemma fbytes_app V ip off m n : 0 <= m -> 0 <= n -> fbytes V ip off (m + n) = fbytes V ip off m ++ fbytes V ip (off + m) n.
Proof. intros. unfold fbytes. by rewrite seqZ_app, fmap_app by lia. Qed.

(** Bytes inside one block of the file. *)
Lemma fbytes_block V ip off m :
  0 <= off -> 0 <= m <= BSIZE - off mod BSIZE -> length (dblk V (blk_of V ip (off / BSIZE))) = 1024%nat ->
  rdbytes (dblk V (blk_of V ip (off / BSIZE))) (Z.to_nat (off mod BSIZE)) (Z.to_nat m) = fbytes V ip off m.
Proof.
  unfold BSIZE. intros Ho Hm Hlen. set (d := dblk _ _) in *.
  pose proof (Z.mod_pos_bound off 1024 ltac:(lia)).
  apply list_eq. intros k. unfold rdbytes, fbytes. destruct (decide (k < Z.to_nat m)%nat) as [Hk|Hk].
  - rewrite lookup_take_lt, lookup_drop, list_lookup_fmap, lookup_seqZ_lt by lia. cbn.
    unfold fbyte, rd8, BSIZE.
    replace ((off + Z.of_nat k) / 1024) with (off / 1024) by (zmod).
    replace ((off + Z.of_nat k) mod 1024) with (off mod 1024 + Z.of_nat k) by (zmod).
    fold d. replace (Z.to_nat (off mod 1024 + Z.of_nat k)) with (Z.to_nat (off mod 1024) + k)%nat by lia.
    destruct (d !! (Z.to_nat (off mod 1024) + k)%nat) eqn:E; [done|].
    apply lookup_ge_None_1 in E. lia.
  - rewrite lookup_take_ge, list_lookup_fmap, lookup_seqZ_ge by lia. done.
Qed.

(** ** What a frame keeps *)
Lemma frame_itable p s s' : frame p s s' -> k_itable s' = k_itable s.
Proof. by intros (lg & ps & vd & bc & dk & _ & ->). Qed.
Lemma frame_sb p s s' : frame p s s' -> k_sb s' = k_sb s.
Proof. by intros (lg & ps & vd & bc & dk & _ & ->). Qed.
Lemma frame_inode p s s' i : frame p s s' -> inode_of s' i = inode_of s i.
Proof. intros H. unfold inode_of. by rewrite (frame_itable _ _ _ H). Qed.
Lemma frame_refl p s : frame p s s.
Proof. by apply rest_frame. Qed.
#[export] Hint Resolve frame_refl rest_frame : core.

(** ** The inode table *)

(** The slot iget returns, and the state it leaves: the slot that has the inode
    already, with one more reference, or the first free one; [None] when there is
    neither. *)
Definition ihit (dev inum : Z) (ip : inode) : bool :=
  (0 <? i_ref ip) && (i_dev ip =? dev) && (i_inum ip =? inum).
Definition iget_slot_of (t : list inode) (dev inum : Z) : option (nat * (inode -> inode)) :=
  match list_find (fun ip => ihit dev inum ip = true) t with
  | Some (i, _) => Some (i, fun ip => set_i_ref (s32 (i_ref ip + 1)) ip)
  | None =>
      match list_find (fun ip => i_ref ip = 0) t with
      | Some (i, _) => Some (i, fun ip => set_i_valid false (set_i_ref 1 (set_i_inum inum (set_i_dev dev ip))))
      | None => None
      end
  end.

(** ** Directories *)

(** Entry [k] of a directory, and whether it is the entry of [name]. *)
Definition dir_entry (V : gmap Z block) (ip : inode) (k : Z) : list Z := fbytes V ip (16 * k) 16.
Definition dir_match (V : gmap Z block) (ip : inode) (name : list Z) (k : Z) : bool :=
  negb (de_inum (dir_entry V ip k) =? 0) && (namecmp name (de_name (dir_entry V ip k)) =? 0).
(** The inode number and the offset of the first entry of [name]. *)
Definition dir_lookup (V : gmap Z block) (ip : inode) (name : list Z) : option (Z * Z) :=
  match list_find (fun k => dir_match V ip name k = true) (seqZ 0 (i_size ip / 16)) with
  | Some (_, k) => Some (de_inum (dir_entry V ip k), 16 * k)
  | None => None
  end.

Section FsSpec.
Context `{KI : KernelImage} `{VD : VirtioDevice} `{VDOK : !VirtioDeviceOk}.
Context (start size : Z) (geom : 0 < start /\ 1 < size <= LOGSIZE /\ start + size < 2 ^ 31).
Variable P : gmap Z block -> Prop.
Let C (s : kstate) : Prop := P (k_disk s).

(** The transaction holds no buffer, and has room in the cache. *)
Lemma txn_room {live} p dk l V H s : view start size live p dk l V H s -> (length l < 30)%nat.
Proof.
  intros [act Ht]. pose proof (lb_len _ _ _ (tn_l _ _ _ _ _ _ _ _ _ _ Ht)) as Hl.
  unfold LOGSIZE, MAXOPBLOCKS in geom. lia.
Qed.

(** Reading a block of the logical disk: bread, use of the data, brelse. *)
Lemma wp_held_block {live} p dk l V H bn {A} (f : nat -> block -> KM A) Q s :
  view start size live p dk l V H s -> H !! bn = None -> (length l + base.size H < NBUF)%nat -> 0 <= bn < 2 ^ 31 -> P dk ->
  (forall b s', view start size live p dk l V (<[bn := (b, dblk V bn)]> H) s' -> rest_eq p s s' ->
     wpc (seq_rely p) C (f b (dblk V bn)) Q s') ->
  wpc (seq_rely p) C (let* b := bread ROOTDEV bn in let* d := getd b in f b d) Q s.
Proof.
  intros Ht Hn Hsz Hbn HP Hf. wp_step. eapply (wp_tx_bread start size geom P p); [done..|].
  intros b s1 Ht1 Hr1. pose proof (txn_buf _ _ _ _ _ _ _ _ _ _ _ Ht1 (lookup_insert_eq _ _ _)) as Eb.
  unfold getd, getb. do 4 wp_step. rewrite Eb. cbn [b_data]. by apply Hf.
Qed.

Lemma wp_view_block {live} p dk l V bn {A} (f : nat -> block -> KM A) Q s :
  view start size live p dk l V ∅ s -> 0 <= bn < 2 ^ 31 -> P dk ->
  (forall b s', view start size live p dk l V (<[bn := (b, dblk V bn)]> ∅) s' -> rest_eq p s s' ->
     wpc (seq_rely p) C (f b (dblk V bn)) Q s') ->
  wpc (seq_rely p) C (let* b := bread ROOTDEV bn in let* d := getd b in f b d) Q s.
Proof.
  intros Ht Hbn HP Hf. pose proof (txn_room _ _ _ _ _ _ Ht).
  by apply (wp_held_block (live := live) p dk l V ∅); [|apply lookup_empty|rewrite map_size_empty; unfold NBUF; lia|..].
Qed.

Lemma wp_view_brelse {live} p dk l V bn b Q s :
  view start size live p dk l V (<[bn := (b, dblk V bn)]> ∅) s ->
  (forall s', view start size live p dk l V ∅ s' -> rest_eq p s s' -> Q tt s') ->
  wpc (seq_rely p) C (brelse b) Q s.
Proof.
  intros Ht HQ. eapply (wp_tx_brelse start size P p); [done|apply lookup_insert_eq|].
  rewrite delete_insert_id by apply lookup_empty. done.
Qed.

(** The same with other buffers [H] held. *)
Lemma wp_held_brelse {live} p dk l V H bn b Q s :
  view start size live p dk l V (<[bn := (b, dblk V bn)]> H) s -> H !! bn = None ->
  (forall s', view start size live p dk l V H s' -> frame p s s' -> Q tt s') ->
  wpc (seq_rely p) C (brelse b) Q s.
Proof.
  intros Ht Hn HQ. eapply (wp_tx_brelse start size P p); [done|apply lookup_insert_eq|].
  rewrite delete_insert_id by done. intros s' Ht' Hr. apply HQ; [done|by apply rest_frame].
Qed.

Lemma wp_with_block p dk l V bn {A} (f : nat -> block -> KM A) Q s :
  txn start size p dk l V ∅ s -> 0 <= bn < 2 ^ 31 -> P dk ->
  (forall b s', txn start size p dk l V (<[bn := (b, dblk V bn)]> ∅) s' -> frame p s s' ->
     wpc (seq_rely p) C (f b (dblk V bn)) Q s') ->
  wpc (seq_rely p) C (let* b := bread ROOTDEV bn in let* d := getd b in f b d) Q s.
Proof. intros Ht Hbn HP Hf. apply (wp_view_block (live := true) p dk l V); [done..|]. intros b s' Ht' Hr. apply Hf; [done|by apply rest_frame]. Qed.

Lemma wp_brelse_clean p dk l V bn b Q s :
  txn start size p dk l V (<[bn := (b, dblk V bn)]> ∅) s ->
  (forall s', txn start size p dk l V ∅ s' -> frame p s s' -> Q tt s') ->
  wpc (seq_rely p) C (brelse b) Q s.
Proof. intros Ht HQ. apply (wp_view_brelse (live := true) p dk l V bn); [done|]. intros s' Ht' Hr. apply HQ; [done|by apply rest_frame]. Qed.

(** ** bmap of an allocated block *)
Lemma wp_bmap {live} p dk l V i k Q s :
  view start size live p dk l V ∅ s -> file_ok V (inode_of s i) -> 0 <= k -> k * BSIZE < i_size (inode_of s i) -> P dk ->
  (forall s', view start size live p dk l V ∅ s' -> rest_eq p s s' -> Q (blk_of V (inode_of s i) k) s') ->
  wpc (seq_rely p) C (bmap i k) Q s.
Proof.
  intros Ht [Hdev Hsz Hind Hblk Hlen] Hk Hlt HP HQ. specialize (Hblk k Hk Hlt).
  unfold bmap, geti. wp_step. wp_step. unfold blk_of in Hblk, HQ.
  destruct (Z.ltb_spec k (Z.of_nat NDIRECT)) as [Hd|Hd].
  { destruct (Z.eqb_spec (addr_at (inode_of s i) (Z.to_nat k)) 0); [lia|]. wp_step. by apply HQ. }
  assert (Hi : 0 < addr_at (inode_of s i) NDIRECT < 2 ^ 31).
  { apply Hind. unfold NDIRECT, BSIZE in *. lia. }
  unfold MAXFILE, NINDIRECT, NDIRECT, BSIZE in *.
  destruct (Z.ltb_spec (k - Z.of_nat 12) (1024 / 4)) as [_|Hc]; [|exfalso; change (1024 / 4) with 256 in *; lia].
  destruct (Z.eqb_spec (addr_at (inode_of s i) 12) 0); [lia|]. wp_step. wp_step. rewrite Hdev.
  eapply (wp_view_block p); [done|lia|done|]. intros b s1 Ht1 Hf1.
  destruct (Z.eqb_spec (rd32 (dblk V (addr_at (inode_of s i) 12)) (Z.to_nat (4 * (k - Z.of_nat 12)))) 0); [lia|].
  do 3 wp_step. eapply (wp_view_brelse p); [done|]. intros s2 Ht2 Hf2. wp_step. apply HQ; [done|by etrans].
Qed.

(** ** readi into kernel memory *)

(** How much of the [n] bytes at [off] the file has. *)
Definition read_len (ip : inode) (off n : Z) : Z :=
  if (i_size ip <? off) || (u32 (off + n) <? off) then 0
  else if i_size ip <? off + n then i_size ip - off else n.

(** Memory once [bs] is at the destination. *)
Definition delivered (dst : iodst) (bs : list Z) (m : mem) : mem :=
  match dst with DKern pa => write_bytes m pa bs | _ => m end.
Definition in_kernel (dst : iodst) : Prop := match dst with DUser _ => False | _ => True end.

Lemma view_mem {live} p dk l V H f s : view start size live p dk l V H s -> view start size live p dk l V H (set_mem f s).
Proof. intros [act [[[? ? ? ? ? ? ?] ?] ? ? ? ? ? ? ?]]. exists act. by split. Qed.

Lemma rest_eq_mem p f s s' : rest_eq p s s' -> rest_eq p (set_mem f s) (set_mem f s').
Proof. intros (ps & vd & bc & dk & E & ->). by exists ps, vd, bc, dk. Qed.

Lemma delivered_app dst a b m :
  in_kernel dst -> delivered (dst_add dst (Z.of_nat (length a))) b (delivered dst a m) = delivered dst (a ++ b) m.
Proof. destruct dst as [|pa|]; [done| |done]. intros _. apply write_bytes_app. Qed.

Lemma dst_add_add dst a b : in_kernel dst -> dst_add (dst_add dst a) b = dst_add dst (a + b).
Proof. destruct dst; [done| |done]. intros _. simpl. f_equal. lia. Qed.

Lemma wp_deliver {R C'} dst bs (Q : Z -> kstate -> Prop) s :
  in_kernel dst -> Q 0 (set_mem (delivered dst bs) s) -> wpc R C' (either_copyout dst bs) Q s.
Proof. destruct dst; [done| |]; intros _ HQ; unfold either_copyout; by wp_steps. Qed.

Lemma rest_eq_inode p s s' i : rest_eq p s s' -> inode_of s' i = inode_of s i.
Proof. intros H. eapply frame_inode. by apply rest_frame. Qed.

Lemma wp_readi {live} p dk l V i dst off n Q s :
  view start size live p dk l V ∅ s -> file_ok V (inode_of s i) -> in_kernel dst ->
  0 <= off < 2 ^ 32 -> 0 <= n -> off + n < 2 ^ 32 -> P dk ->
  (forall s', let m := read_len (inode_of s i) off n in let bs := fbytes V (inode_of s i) off m in
     view start size live p dk l V ∅ s' -> rest_eq p (set_mem (delivered dst bs) s) s' -> Q (m, bs) s') ->
  wpc (seq_rely p) C (readi i dst off n) Q s.
Proof.
  intros Ht Hok Hdst Hoff Hn Hsum HP HQ. pose proof Hok as [Hdev Hsz _ _ Hlen]. cbv zeta in HQ. unfold read_len in HQ.
  unfold readi, geti. wp_step. wp_step. set (ip := inode_of s i) in *. rewrite u32_small in * by lia.
  destruct (Z.ltb_spec (i_size ip) off); cbn [orb] in *.
  { wp_step. apply HQ; [done|]. by destruct dst. }
  destruct (Z.ltb_spec (off + n) off); [lia|].
  set (m := if i_size ip <? off + n then i_size ip - off else n) in *.
  assert (Hm : 0 <= m /\ off + m <= i_size ip) by (unfold m; destruct (Z.ltb_spec (i_size ip) (off + n)); lia).
  assert (Hmax : i_size ip <= 274432) by exact (proj2 Hsz).
  apply (wp_loop _ (fun x s' => let '(tot, off', dst', acc) := x in
    0 <= tot <= m /\ off' = off + tot /\ dst' = dst_add dst tot /\ acc = fbytes V ip off tot /\
    view start size live p dk l V ∅ s' /\ rest_eq p (set_mem (delivered dst acc) s) s') (fun x _ => m - x.1.1.1)); cbn [fst].
  2: { split_and!; [lia..| |done|done|]; destruct dst; try done. simpl. f_equal. lia. }
  2: { lia. }
  intros [[[tot off'] dst'] acc] s1 (Htot & -> & -> & Hacc & Ht1 & Hf1). unfold readi_round, geti.
  pose proof (rest_eq_inode _ _ _ i Hf1) as Ei. change (inode_of (set_mem _ s) i) with ip in Ei.
  destruct (Z.ltb_spec tot m).
  2: { wp_step. assert (tot = m) as -> by lia. rewrite s32_small by lia. rewrite Hacc in Hf1 |- *. by apply HQ. }
  unfold BSIZE in *. set (q := (off + tot) / 1024).
  pose proof (Z.div_mod (off + tot) 1024 ltac:(lia)) as Hdm. pose proof (Z.mod_pos_bound (off + tot) 1024 ltac:(lia)) as Hmb.
  assert (Hq : 0 <= q) by (apply Z.div_pos; lia). fold q in Hdm.
  wp_step. eapply (wp_bmap p); [done|by rewrite Ei|done|rewrite Ei; unfold BSIZE; lia|done|].
  rewrite Ei. intros s2 Ht2 Hf2. wp_step. wp_step. rewrite (rest_eq_inode _ _ _ i Hf2), Ei, Hdev.
  eapply (wp_view_block p); [done|destruct Hok as [_ _ _ Hb _]; unfold BSIZE in Hb; specialize (Hb q Hq); lia|done|].
  intros b s3 Ht3 Hf3. set (r := Z.min (m - tot) (1024 - (off + tot) mod 1024)).
  assert (Hr : 0 < r <= m - tot) by (unfold r; lia).
  assert (Hbs : rdbytes (dblk V (blk_of V ip q)) (Z.to_nat ((off + tot) mod 1024)) (Z.to_nat r) = fbytes V ip (off + tot) r).
  { symmetry. rewrite <- (fbytes_block V ip (off + tot) r); [done|lia|unfold BSIZE; unfold r; lia|apply Hlen]. }
  rewrite Hbs. wp_step. apply (wp_deliver (dst_add dst tot)); [by destruct dst|]. change (0 =? -1) with false. cbv iota. wp_step.
  eapply (wp_view_brelse p); [by apply view_mem|]. intros s4 Ht4 Hf4. wp_step.
  split; [|cbn [fst]; rewrite u32_small by lia; lia]. rewrite !u32_small by lia.
  rewrite dst_add_add, Hacc, <- fbytes_app by (done || lia).
  split_and!; [lia|lia|lia|done|done|done|].
  etrans; [|exact Hf4]. replace (set_mem (delivered dst (fbytes V ip off (tot + r))) s)
    with (set_mem (delivered (dst_add dst tot) (fbytes V ip (off + tot) r)) (set_mem (delivered dst acc) s)).
  { apply rest_eq_mem. do 2 (etrans; [eassumption|]). done. }
  unfold set_mem. cbn. f_equal. rewrite Hacc. replace tot with (Z.of_nat (length (fbytes V ip off tot))) at 1 by (rewrite length_fbytes; lia).
  by rewrite delivered_app, <- fbytes_app by (done || lia).
Qed.

(** ** The free map *)

(** Block [b] is marked in use. *)
Definition used (V : gmap Z block) (sb : superblock) (b : Z) : bool :=
  negb (Z.land (rd8 (dblk V (BBLOCK b sb)) (Z.to_nat (b mod BPB / 8))) (bit_mask (b mod BPB)) =? 0).
Definition mark (b : Z) (d : block) : block :=
  let k := Z.to_nat (b mod BPB / 8) in wr8 k (Z.lor (rd8 d k) (bit_mask (b mod BPB))) d.

Definition unmark (b : Z) (d : block) : block :=
  let k := Z.to_nat (b mod BPB / 8) in wr8 k (Z.land (rd8 d k) (Z.lnot (bit_mask (b mod BPB)))) d.

(** The geometry of the free map: it fits the address range and is outside the log. *)
Record map_ok (V : gmap Z block) (sb : superblock) : Prop := {
  mo_size : 0 <= sb_size sb < 2 ^ 31 - BPB;
  mo_start : 0 <= sb_bmapstart sb /\ sb_bmapstart sb + sb_size sb / BPB < 2 ^ 31;
  mo_log : forall b, 0 <= b < sb_size sb -> ~ in_log start size (BBLOCK b sb);
  mo_used : forall b, 0 <= b < sb_size sb -> in_log start size b -> used V sb b = true
}.

Lemma map_block V sb b :
  map_ok V sb -> 0 <= b < sb_size sb -> BBLOCK b sb = b / BPB + sb_bmapstart sb /\ 0 <= BBLOCK b sb < 2 ^ 31.
Proof.
  intros [Hsz Hst _ _] Hb. unfold BPB, BSIZE in *.
  assert (0 <= b / (1024 * 8) <= sb_size sb / (1024 * 8)) by (split; [apply Z.div_pos|apply Z.div_le_mono]; lia).
  unfold BBLOCK, BPB, BSIZE. rewrite u32_small by lia. lia.
Qed.

(** What balloc does once it has found the free block [bno], with the bitmap block held. *)
Lemma wp_take_block p dk l V H bb b bno m k Q s :
  let d := wr8 k (Z.lor (rd8 (dblk V bb) k) m) (dblk V bb) in
  txn start size p dk l V (<[bb := (b, dblk V bb)]> H) s -> H !! bb = None -> H !! bno = None -> (base.size H <= 1)%nat ->
  0 <= bb < 2 ^ 31 -> ~ in_log start size bb -> 0 <= bno < 2 ^ 31 -> ~ in_log start size bno ->
  Z.of_nat (length l) + 2 < size -> P dk ->
  (forall s', txn start size p dk (logged bno (logged bb l)) (<[bno := zblock]> (<[bb := d]> V)) H s' ->
     frame p s s' -> Q (inr (Some bno)) s') ->
  wpc (seq_rely p) C
    (modd b (fun d => wr8 k (Z.lor (rd8 d k) m) d);;; log_write b;;; brelse b;;;
     bzero ROOTDEV bno;;; ret (inr (Some bno) : Z + option Z)) Q s.
Proof.
  intros d Ht HHb HHn HHs Hbb Hbl Hbn Hnl Hroom HP HQ. unfold LOGSIZE, MAXOPBLOCKS in geom.
  pose proof (txn_buf _ _ _ _ _ _ _ _ _ _ _ Ht (lookup_insert_eq _ _ _)) as Eb.
  unfold modd, modb. do 2 wp_step. wp_step.
  apply (txn_modb start size p dk l V _ s bb b (dblk V bb)
    (fun x => set_b_data (wr8 k (Z.lor (rd8 (b_data x) k) m) (b_data x)) x) d) in Ht;
    [|apply lookup_insert_eq|rewrite Eb; done]. rewrite insert_insert_eq in Ht.
  eapply (wp_tx_log_write start size geom P p _ _ _ _ bb b d); [done|apply lookup_insert_eq|done..|lia|].
  intros s2 Ht2 Hf2. wp_step.
  eapply (wp_tx_brelse start size P p _ _ _ _ bb b); [done|by rewrite lookup_insert_eq, dblk_eq|].
  rewrite delete_insert_id by done. intros s3 Ht3 Hr3. wp_step.
  assert (Hl1 : Z.of_nat (length (logged bb l)) + 1 < size).
  { unfold logged. destruct (decide (bb ∈ l)); rewrite ?length_app; simpl; lia. }
  unfold bzero, modb. rewrite (u32_small bno) by lia. change (u32 ROOTDEV) with ROOTDEV. wp_step.
  eapply (wp_tx_bread start size geom P p); [done|done|unfold NBUF; lia|done|done|].
  intros b' s4 Ht4 Hr4. do 3 wp_step.
  apply (txn_modb start size p dk _ _ _ s4 bno b' (dblk (<[bb := d]> V) bno) (set_b_data zblock) zblock) in Ht4;
    [|apply lookup_insert_eq|done]. rewrite insert_insert_eq in Ht4.
  eapply (wp_tx_log_write start size geom P p _ _ _ _ bno b' zblock); [done|apply lookup_insert_eq|done..|].
  intros s5 Ht5 Hf5. eapply (wp_tx_brelse start size P p _ _ _ _ bno b'); [done|by rewrite lookup_insert_eq, dblk_eq|].
  rewrite delete_insert_id by done. intros s6 Ht6 Hr6. wp_step. apply HQ; [done|].
  etrans; [apply rest_frame, rest_eq_bcache|]. etrans; [exact Hf2|]. etrans; [apply rest_frame; exact Hr3|].
  etrans; [apply rest_frame; exact Hr4|]. etrans; [apply rest_frame, rest_eq_bcache|]. etrans; [exact Hf5|].
  by apply rest_frame.
Qed.

(** [b] is the first free block. *)
Definition first_free (V : gmap Z block) (sb : superblock) (b : Z) : Prop :=
  0 <= b < sb_size sb /\ used V sb b = false /\ forall b', 0 <= b' < b -> used V sb b' = true.

(** The inner loop over one bitmap block, for blocks [b0, b0 + BPB). *)
Lemma wp_balloc_bits p dk l V H bno b0 b Q s :
  let bb := BBLOCK b0 (k_sb s) in
  txn start size p dk l V (<[bb := (b, dblk V bb)]> H) s -> H !! bb = None -> H !! bno = None -> (base.size H <= 1)%nat -> map_ok V (k_sb s) ->
  first_free V (k_sb s) bno -> 0 <= b0 <= bno -> b0 mod BPB = 0 -> Z.of_nat (length l) + 2 < size -> P dk ->
  (bno < b0 + BPB -> forall s', txn start size p dk (logged bno (logged bb l)) (<[bno := zblock]> (<[bb := mark bno (dblk V bb)]> V)) H s' ->
     frame p s s' -> Q (Some bno) s') ->
  (b0 + BPB <= bno -> Q None s) ->
  wpc (seq_rely p) C (loop (balloc_bit ROOTDEV b0 b) 0) Q s.
Proof.
  intros bb Ht HHb HHn HHs Hmap (Hb & Hfree & Hmin) Hb0 Hmod Hroom HP HQ HN. pose proof Hmap as [Hsz _ Hlog Hul].
  assert (Hbp : BPB = 8192) by done. rewrite Hbp in *.
  apply (wp_loop _ (fun bi s' => 0 <= bi <= 8192 /\ b0 + bi <= bno /\ s' = s) (fun bi _ => 8192 - bi)).
  2: { split_and!; [lia..|done]. }
  2: { lia. }
  intros bi s' (Hbi & Hle & ->). unfold balloc_bit, getsb, getd, getb. wp_step. wp_step. rewrite u32_small by lia.
  destruct (Z.ltb_spec bi BPB) as [Hlt|Hge]; cbn [andb]; [|wp_step; apply HN; lia].
  rewrite (proj2 (Z.ltb_lt _ _)) by lia. do 4 wp_step.
  rewrite (txn_buf _ _ _ _ _ _ _ _ _ _ _ Ht (lookup_insert_eq _ _ _)). cbn [b_data].
  assert (Ebi : (b0 + bi) mod 8192 = bi) by (rewrite Hbp in Hlt; zmod).
  assert (Ebb : BBLOCK (b0 + bi) (k_sb s) = bb).
  { unfold bb, BBLOCK. rewrite Hbp. f_equal. f_equal. rewrite Hbp in Hlt. zmod. }
  assert (Eu : used V (k_sb s) (b0 + bi) = negb (Z.land (rd8 (dblk V bb) (Z.to_nat (bi / 8))) (bit_mask bi) =? 0)).
  { unfold used. by rewrite Ebb, Hbp, Ebi. }
  destruct (Z.eq_dec (b0 + bi) bno) as [E|Hne].
  - rewrite E, Hfree in Eu. destruct (Z.land _ _ =? 0); [|done].
    assert (Hr : 0 <= bb < 2 ^ 31) by (apply (map_block V (k_sb s) b0 Hmap); lia).
    rewrite E.
    apply (wp_take_block p dk l V H bb b bno); [exact Ht|done|done|done|done|unfold bb; apply Hlog; lia|lia|..|done|done|].
    { intros Hin%Hul; [congruence|lia]. }
    intros s1 Ht1 Hf1. apply HQ; [lia| |done]. unfold mark. rewrite Hbp, <- E, Ebi. by rewrite <- E in Ht1.
  - rewrite (Hmin (b0 + bi)) in Eu by lia. destruct (Z.land _ _ =? 0); [done|]. wp_step.
    split; [|lia]. split_and!; [lia..|done].
Qed.

Lemma wp_balloc p dk l V H bno Q s :
  let bb := BBLOCK bno (k_sb s) in
  txn start size p dk l V H s -> (forall b, 0 <= b < sb_size (k_sb s) -> H !! BBLOCK b (k_sb s) = None) -> H !! bno = None ->
  (base.size H <= 1)%nat -> map_ok V (k_sb s) -> first_free V (k_sb s) bno ->
  Z.of_nat (length l) + 2 < size -> P dk ->
  (forall s', txn start size p dk (logged bno (logged bb l)) (<[bno := zblock]> (<[bb := mark bno (dblk V bb)]> V)) H s' ->
     frame p s s' -> Q bno s') ->
  wpc (seq_rely p) C (balloc ROOTDEV) Q s.
Proof.
  intros bb Ht HHb HHn HHs Hmap Hff Hroom HP HQ. pose proof Hff as (Hb & _ & _). pose proof Hmap as [Hsz _ _ _].
  assert (Hbp : BPB = 8192) by done. unfold balloc.
  apply (wp_loop _ (fun b s' => 0 <= b <= bno /\ b mod BPB = 0 /\ txn start size p dk l V H s' /\ frame p s s')
           (fun b _ => bno - b)).
  2: { split_and!; [lia|lia|done|done|done]. }
  2: { lia. }
  intros b0 s1 (Hb0 & Hmod & Ht1 & Hf1). unfold getsb. wp_step. wp_step. rewrite (frame_sb _ _ _ Hf1).
  rewrite u32_small by lia. rewrite (proj2 (Z.ltb_lt _ _)) by lia.
  destruct (map_block V (k_sb s) b0 Hmap) as [_ Hr]; [lia|]. wp_step.
  unfold LOGSIZE, MAXOPBLOCKS in geom.
  eapply (wp_tx_bread start size geom P p); [done|apply HHb; lia|unfold NBUF; lia|done|done|].
  intros b s2 Ht2 Hr2. apply rest_frame in Hr2. wp_step. pose proof (frame_sb _ _ _ Hr2) as E2.
  rewrite (frame_sb _ _ _ Hf1) in E2.
  eapply (wp_balloc_bits p dk l V H bno b0 b); [by rewrite E2|rewrite E2; apply HHb; lia|done|done|by rewrite E2|by rewrite E2|lia|done|done|done|..]; rewrite ?E2.
  - intros Hlt s3 Ht3 Hf3. wp_step.
    assert (E : BBLOCK b0 (k_sb s) = bb).
    { unfold bb, BBLOCK. f_equal. f_equal. rewrite Hbp in *. zmod. }
    rewrite E in Ht3. apply HQ; [done|]. etrans; [exact Hf1|]. by etrans.
  - intros Hge. wp_step. eapply (wp_held_brelse p); [done|apply HHb; lia|]. intros s3 Ht3 Hf3. wp_step.
    rewrite s32_small by lia. split; [|lia]. split_and!; [lia|lia|rewrite Hbp in *; zmod|done|].
    etrans; [exact Hf1|]. by etrans.
Qed.

(** Bits of a byte. *)
Lemma land_bit x n : 0 <= n -> (Z.land x (Z.shiftl 1 n) =? 0) = negb (Z.testbit x n).
Proof.
  intros Hn. rewrite Z.shiftl_1_l. destruct (Z.testbit x n) eqn:E; cbn [negb].
  - apply Z.eqb_neq. intros H. assert (Z.testbit (Z.land x (2 ^ n)) n = true)
      by (rewrite Z.land_spec, E, Z.pow2_bits_true by done; done).
    rewrite H, Z.testbit_0_l in *. done.
  - apply Z.eqb_eq, Z.bits_inj_0. intros k. rewrite Z.land_spec.
    destruct (Z.eq_dec n k) as [<-|]; [by rewrite E|]. by rewrite Z.pow2_bits_false, andb_false_r by done.
Qed.

Lemma used_bit V sb b :
  used V sb b = Z.testbit (rd8 (dblk V (BBLOCK b sb)) (Z.to_nat (b mod BPB / 8))) (b mod 8).
Proof.
  unfold used, bit_mask. rewrite land_bit by (apply Z.mod_pos_bound; lia). rewrite negb_involutive.
  f_equal. unfold BPB, BSIZE. zmod.
Qed.

Lemma testbit_u8 x n : 0 <= n < 8 -> Z.testbit (u8 x) n = Z.testbit x n.
Proof. intros. unfold u8, wrap. by rewrite Z.mod_pow2_bits_low by lia. Qed.

(** Marking, and unmarking, change the one bit. *)
Lemma used_change V sb b b' f (v : bool) :
  map_ok V sb -> length (dblk V (BBLOCK b sb)) = 1024%nat -> 0 <= b < sb_size sb -> 0 <= b' < sb_size sb ->
  (forall x n, 0 <= n -> Z.testbit (f x) n = if n =? b mod 8 then v else Z.testbit x n) ->
  let k := Z.to_nat (b mod BPB / 8) in
  used (<[BBLOCK b sb := wr8 k (f (rd8 (dblk V (BBLOCK b sb)) k)) (dblk V (BBLOCK b sb))]> V) sb b' =
  if b' =? b then v else used V sb b'.
Proof.
  intros Hmap Hlen Hb Hb' Hf k. rewrite !used_bit.
  destruct (map_block V sb b Hmap Hb) as [E _]. destruct (map_block V sb b' Hmap Hb') as [E' _].
  assert (Hbp : BPB = 8192) by done. pose proof (Z.mod_pos_bound b' 8 ltac:(lia)).
  assert (Hk : (k < 1024)%nat).
  { unfold k. rewrite Hbp. pose proof (Z.mod_pos_bound b 8192 ltac:(lia)). zmod. }
  destruct (Z.eqb_spec b' b) as [->|Hne].
  - rewrite dblk_eq. fold k. rewrite rd8_wr8 by lia. rewrite testbit_u8, Hf by lia. by rewrite Z.eqb_refl.
  - destruct (Z.eq_dec (BBLOCK b' sb) (BBLOCK b sb)) as [Eb|Eb]; [|by rewrite dblk_ne by done].
    rewrite Eb, dblk_eq. rewrite Eb in E'. assert (Ed : b' / 8192 = b / 8192) by (rewrite Hbp in *; lia).
    destruct (Nat.eq_dec k (Z.to_nat (b' mod BPB / 8))) as [Ek|Ek].
    + rewrite <- Ek, rd8_wr8 by lia. rewrite testbit_u8, Hf by lia.
      rewrite (proj2 (Z.eqb_neq _ _)); [done|]. unfold k in Ek. rewrite Hbp in *.
      intros Em. apply Hne. pose proof (Z.mod_pos_bound b 8192 ltac:(lia)). pose proof (Z.mod_pos_bound b' 8192 ltac:(lia)).
      assert (b' mod 8192 / 8 = b mod 8192 / 8) by (apply Z2Nat.inj; [apply Z.div_pos; lia..|by symmetry]). zmod.
    + by rewrite rd8_wr8_ne by done.
Qed.

Lemma bit_mask_testbit b n : 0 <= n -> Z.testbit (bit_mask (b mod BPB)) n = (n =? b mod 8).
Proof.
  intros Hn. unfold bit_mask. rewrite Z.shiftl_1_l.
  replace ((b mod BPB) mod 8) with (b mod 8) by (unfold BPB, BSIZE; zmod).
  pose proof (Z.mod_pos_bound b 8 ltac:(lia)). rewrite Z.eqb_sym. apply Z.pow2_bits_eqb; lia.
Qed.

Lemma used_mark V sb b b' :
  map_ok V sb -> length (dblk V (BBLOCK b sb)) = 1024%nat -> 0 <= b < sb_size sb -> 0 <= b' < sb_size sb ->
  used (<[BBLOCK b sb := mark b (dblk V (BBLOCK b sb))]> V) sb b' = if b' =? b then true else used V sb b'.
Proof.
  intros. apply (used_change V sb b b' (fun x => Z.lor x (bit_mask (b mod BPB)))); [done..|].
  intros x n Hn. rewrite Z.lor_spec, bit_mask_testbit by done.
  destruct (n =? b mod 8); [apply orb_true_r|apply orb_false_r].
Qed.
Lemma used_unmark V sb b b' :
  map_ok V sb -> length (dblk V (BBLOCK b sb)) = 1024%nat -> 0 <= b < sb_size sb -> 0 <= b' < sb_size sb ->
  used (<[BBLOCK b sb := unmark b (dblk V (BBLOCK b sb))]> V) sb b' = if b' =? b then false else used V sb b'.
Proof.
  intros. apply (used_change V sb b b' (fun x => Z.land x (Z.lnot (bit_mask (b mod BPB))))); [done..|].
  intros x n Hn. rewrite Z.land_spec, Z.lnot_spec, bit_mask_testbit by done.
  destruct (n =? b mod 8); [apply andb_false_r|apply andb_true_r].
Qed.

(** ** bfree *)
Lemma wp_bfree p dk l V H b Q s :
  let bb := BBLOCK b (k_sb s) in
  txn start size p dk l V H s -> H !! bb = None -> (base.size H <= 1)%nat -> map_ok V (k_sb s) -> 0 <= b < sb_size (k_sb s) -> used V (k_sb s) b = true ->
  Z.of_nat (length l) + 1 < size -> P dk ->
  (forall s', txn start size p dk (logged bb l) (<[bb := unmark b (dblk V bb)]> V) H s' -> frame p s s' -> Q tt s') ->
  wpc (seq_rely p) C (bfree ROOTDEV b) Q s.
Proof.
  intros bb Ht HHb HHs Hmap Hb Hu Hroom HP HQ. pose proof Hmap as [_ _ Hlog _].
  destruct (map_block V (k_sb s) b Hmap Hb) as [_ Hr]. unfold bfree, getsb. wp_step. wp_step.
  change (u32 ROOTDEV) with ROOTDEV. unfold LOGSIZE, MAXOPBLOCKS in geom.
  eapply (wp_held_block p); [done|done|unfold NBUF; lia|done|done|]. intros i s1 Ht1 Hf1%rest_frame. fold bb in Ht1 |- *. unfold used in Hu. fold bb in Hu.
  destruct (Z.land _ _ =? 0); [done|]. unfold modd, modb. wp_step. wp_step.
  pose proof (txn_buf _ _ _ _ _ _ _ _ _ _ _ Ht1 (lookup_insert_eq _ _ _)) as Eb.
  set (f := fun x : buf => set_b_data _ x).
  apply (txn_modb start size p dk l V _ s1 bb i (dblk V bb) f (unmark b (dblk V bb))) in Ht1;
    [|apply lookup_insert_eq|unfold f; by rewrite Eb]. rewrite insert_insert_eq in Ht1. wp_step.
  eapply (wp_tx_log_write start size geom P p _ _ _ _ bb i); [done|apply lookup_insert_eq|done|by apply Hlog|lia|].
  intros s2 Ht2 Hf2. eapply (wp_tx_brelse start size P p _ _ _ _ bb i); [done|by rewrite lookup_insert_eq, dblk_eq|].
  rewrite delete_insert_id by done. intros s3 Ht3 Hr3. apply HQ; [done|].
  etrans; [exact Hf1|]. etrans; [apply rest_frame, rest_eq_bcache|]. etrans; [exact Hf2|]. by apply rest_frame.
Qed.


(** ** iget *)
Lemma inode_of_lookup s i ip : k_itable s !! i = Some ip -> inode_of s i = ip.
Proof. intros H. unfold inode_of. by rewrite H. Qed.

Lemma upd_inode_upd i f g s : upd_inode i f (upd_inode i g s) = upd_inode i (fun x => f (g x)) s.
Proof. unfold upd_inode, set_itable. cbn [k_itable]. by rewrite alter_alter. Qed.
(** Giving back the lock taken last, after a change to one inode. *)
Lemma release_inode i f lk s :
  set_held (fun _ => k_held s) (upd_inode i f (set_held (cons lk) s)) = upd_inode i f s.
Proof. by destruct s. Qed.

Lemma wp_iget {R C'} dev inum i f Q s :
  length (k_itable s) = NINODE -> L_itable ∉ k_held s ->
  iget_slot_of (k_itable s) dev inum = Some (i, f) -> Q i (upd_inode i f s) ->
  wpc R C' (iget dev inum) Q s.
Proof.
  intros Hlen Hh Hslot HQ. unfold iget. wp_step. apply wp_acquire; [done|]. set (s0 := set_held _ s). wp_step.
  apply (wp_loop _ (fun x s' => (x.1 <= NINODE)%nat /\ s' = s0 /\
    (forall j ip, (j < x.1)%nat -> k_itable s !! j = Some ip -> ihit dev inum ip = false) /\
    match x.2 with
    | None => forall j ip, (j < x.1)%nat -> k_itable s !! j = Some ip -> i_ref ip <> 0
    | Some e => exists ip, k_itable s !! e = Some ip /\ i_ref ip = 0 /\
        forall j ip, (j < e)%nat -> k_itable s !! j = Some ip -> i_ref ip <> 0
    end) (fun x _ => Z.of_nat (NINODE - x.1))).
  2: { split_and!; simpl; [lia|done|lia|lia]. }
  2: { unfold NINODE. simpl. lia. }
  intros [k empty] s1 (Hk & -> & Hno & He). cbn [fst snd] in *. unfold iget_slot, geti, modi.
  destruct (Nat.ltb_spec k NINODE) as [Hlt|Hge].
  - destruct (lookup_lt_is_Some_2 (k_itable s) k) as [ip Hip]; [lia|]. wp_step. wp_step.
    rewrite (inode_of_lookup s0 k ip Hip). fold (ihit dev inum ip). destruct (ihit dev inum ip) eqn:Eh.
    + do 3 wp_step. unfold iget_slot_of in Hslot.
      assert (El : list_find (fun ip => ihit dev inum ip = true) (k_itable s) = Some (k, ip)).
      { apply list_find_Some. split_and!; [done|done|]. intros j y Hy Hj. by rewrite (Hno j y Hj Hy). }
      rewrite El in Hslot. simplify_eq. wp_step.
      eapply wp_release_last; [done|done|]. wp_step.
      unfold s0. rewrite release_inode.
      replace (upd_inode i (set_i_ref (s32 (i_ref ip + 1))) s)
        with (upd_inode i (fun ip => set_i_ref (s32 (i_ref ip + 1)) ip) s); [done|].
      unfold upd_inode, set_itable. f_equal. apply alter_ext_at. intros x Hx. by simplify_eq.
    + wp_step. split; [|cbn [fst]; lia]. split_and!; cbn [fst snd]; [lia|done| |].
      { intros j y Hj Hy. destruct (decide (j = k)) as [->|]; [congruence|]. apply (Hno j y); [lia|done]. }
      destruct empty as [e|]; cbn [andb]; [by rewrite bool_decide_eq_false_2|].
      rewrite bool_decide_eq_true_2 by done. cbn [andb]. destruct (Z.eqb_spec (i_ref ip) 0).
      * by exists ip.
      * intros j y Hj Hy. destruct (decide (j = k)) as [->|]; [congruence|]. apply (He j y); [lia|done].
  - wp_step. unfold iget_slot_of in Hslot.
    assert (Hlast : forall j ip, k_itable s !! j = Some ip -> (j < k)%nat).
    { intros j ip Hj%lookup_lt_Some. lia. }
    destruct (list_find (fun ip => ihit dev inum ip = true) (k_itable s)) as [[j y]|] eqn:El.
    { apply list_find_Some in El as (Hj & Hy & _). rewrite (Hno j y) in Hy; [done|by eapply Hlast|done]. }
    destruct empty as [e|].
    + destruct He as (ip & Hip & Hr & Hbef).
      assert (Ef : list_find (fun ip => i_ref ip = 0) (k_itable s) = Some (e, ip)).
      { apply list_find_Some. split_and!; [done|done|]. intros j y Hy Hj. by eapply Hbef. }
      rewrite Ef in Hslot. simplify_eq. unfold modi. do 8 wp_step. wp_step.
      eapply wp_release_last; [done|done|]. wp_step.
      rewrite !upd_inode_upd. unfold s0. by rewrite release_inode.
    + destruct (list_find (fun ip => i_ref ip = 0) (k_itable s)) as [[j y]|] eqn:Ef; [|done].
      apply list_find_Some in Ef as (Hj & Hy & _). by destruct (He j y (Hlast _ _ Hj) Hj).
Qed.

(** ** dirlookup *)
Lemma wp_dirlookup p dk l V dp name Q s :
  let ip := inode_of s dp in
  txn start size p dk l V ∅ s -> file_ok V ip -> i_type ip = T_DIR -> i_size ip mod 16 = 0 -> P dk ->
  length (k_itable s) = NINODE ->
  (dir_lookup V ip name = None -> forall s', txn start size p dk l V ∅ s' -> frame p s s' -> Q None s') ->
  (forall inum off, dir_lookup V ip name = Some (inum, off) ->
     exists i f, iget_slot_of (k_itable s) ROOTDEV inum = Some (i, f) /\
       forall s', txn start size p dk l V ∅ s' -> frame p s s' -> Q (Some (i, off)) (upd_inode i f s')) ->
  wpc (seq_rely p) C (dirlookup dp name) Q s.
Proof.
  intros ip Ht Hok Hty Hmod HP Hlen HN HS. pose proof Hok as [Hdev Hsz _ _ _].
  assert (Hmax : i_size ip <= 274432) by exact (proj2 Hsz).
  unfold dirlookup, geti. wp_step. wp_step. fold ip. rewrite Hty, Z.eqb_refl. cbn [negb].
  apply (wp_loop _ (fun off s' => exists k, off = 16 * k /\ 0 <= k <= i_size ip / 16 /\
    (forall k', 0 <= k' < k -> dir_match V ip name k' = false) /\ txn start size p dk l V ∅ s' /\ frame p s s')
    (fun off _ => i_size ip - off)).
  2: { exists 0. split_and!; [done|lia|apply Z.div_pos; lia|lia|done|done]. }
  2: { lia. }
  intros off s1 (k & -> & Hk & Hno & Ht1 & Hf1). do 2 wp_step. pose proof (frame_inode _ _ _ dp Hf1) as Ei.
  fold ip in Ei. rewrite Ei. destruct (Z.ltb_spec (16 * k) (i_size ip)) as [Hlt|Hge].
  - wp_step. eapply (wp_readi p); [done|by rewrite Ei|done|lia|unfold sizeof_dirent; lia|unfold sizeof_dirent; lia|done|].
    rewrite Ei. intros s2 m bs Ht2 Hf2%rest_frame. change (set_mem (delivered DLocal bs) s1) with s1 in Hf2. unfold bs, m. clear bs m.
    assert (Er : read_len ip (16 * k) sizeof_dirent = 16).
    { unfold read_len, sizeof_dirent. rewrite (proj2 (Z.ltb_ge _ _)), u32_small by lia. cbn [orb].
      rewrite (proj2 (Z.ltb_ge _ (16 * k))) by lia. rewrite (proj2 (Z.ltb_ge _ _)) by zmod. done. }
    rewrite Er. change (16 =? sizeof_dirent) with true. cbn [negb]. fold (dir_entry V ip k).
    unfold sizeof_dirent. rewrite u32_small by lia.
    assert (Hnext : dir_match V ip name k = false ->
      (exists k0, 16 * k + 16 = 16 * k0 /\ 0 <= k0 <= i_size ip / 16 /\
        (forall k', 0 <= k' < k0 -> dir_match V ip name k' = false) /\ txn start size p dk l V ∅ s2 /\ frame p s s2) /\
      0 <= i_size ip - (16 * k + 16) < i_size ip - 16 * k).
    { intros Hm. split; [|split; [zmod|lia]]. exists (k + 1). split_and!; [lia|lia|zmod| |done|by etrans].
      intros k' Hk'. destruct (Z.eq_dec k' k) as [->|]; [done|]. apply Hno. lia. }
    destruct (Z.eqb_spec (de_inum (dir_entry V ip k)) 0) as [E0|E0].
    { wp_step. apply Hnext. unfold dir_match. by rewrite E0. }
    destruct (Z.eqb_spec (namecmp name (de_name (dir_entry V ip k))) 0) as [En|En].
    2: { wp_step. apply Hnext. unfold dir_match. rewrite (proj2 (Z.eqb_neq _ 0) En). apply andb_false_r. }
    assert (Hf : dir_lookup V ip name = Some (de_inum (dir_entry V ip k), 16 * k)).
    { unfold dir_lookup.
      rewrite (proj2 (list_find_Some _ _ (Z.to_nat k) k)); [done|]. split_and!.
      - rewrite lookup_seqZ_lt by zmod. f_equal. lia.
      - unfold dir_match. rewrite (proj2 (Z.eqb_neq _ 0) E0), En. done.
      - intros j y [-> ?]%lookup_seqZ Hj. rewrite Hno by lia. done. }
    destruct (HS _ _ Hf) as (i & f & Hslot & HQ'). rewrite Hdev. wp_step.
    assert (Hf2' : frame p s s2) by by etrans.
    eapply wp_iget; [by rewrite (frame_itable _ _ _ Hf2')| |by rewrite (frame_itable _ _ _ Hf2')|].
    { destruct Ht2 as [act Ht2]. rewrite (so_held _ _ (bo_seq _ _ _ (tn_bio _ _ _ _ _ _ _ _ _ _ Ht2))). apply not_elem_of_nil. }
    wp_step. by apply HQ'.
  - wp_step. apply HN; [|done|done]. unfold dir_lookup.
    rewrite (proj2 (list_find_None _ _)); [done|]. apply Forall_forall. intros k' [? ?]%elem_of_seqZ.
    rewrite Hno; [done|]. split; [lia|zmod].
Qed.

End FsSpec.
