(* ===== verification/FsAlloc.v ===== *)
(** * Files that grow: the layout of the disk, block allocation for an inode

    [fs_ok]: the superblock's regions are in order and the free map marks all
    that is not data.  [inode_ok]: an inode's blocks are data blocks in use, each
    in one place.  bmap keeps both, and what it allocates is fresh. *)
From S2P Require Import Prelude Memory State Kalloc Vm Sched SchedSpec Sleeplock Virtio VirtioSpec Bio BioSpec Codec Log LogSpec LogCrash Txn Fs FsCodec FsSpec.

(** ** The layout of the disk *)

(** The free map's blocks, and the first data block. *)
Definition nbitmap (sb : superblock) : Z := sb_size sb / BPB + 1.
Definition map_blocks (sb : superblock) : list Z := seqZ (sb_bmapstart sb) (nbitmap sb).
Definition dstart (sb : superblock) : Z := sb_bmapstart sb + nbitmap sb.

(** How many blocks are free. *)
Definition nfree (V : gmap Z block) (sb : superblock) : nat :=
  length (filter (fun b => used V sb b = false) (seqZ 0 (sb_size sb))).

Section Layout.
Context (start size : Z).

(** log, inodes, free map, data: the regions in mkfs's order. *)
Record layout (sb : superblock) : Prop := {
  la_log : start + size <= sb_inodestart sb;
  la_ino : 0 <= sb_ninodes sb /\ sb_inodestart sb + sb_ninodes sb / IPB + 1 <= sb_bmapstart sb;
  la_map : dstart sb <= sb_size sb;
  la_size : sb_size sb < 2 ^ 31 - BPB
}.

Record fs_ok (V : gmap Z block) (sb : superblock) : Prop := {
  fs_layout : layout sb;
  fs_len : forall bn, length (dblk V bn) = 1024%nat;
  fs_meta : forall b, 0 <= b < dstart sb -> used V sb b = true
}.

Context (geom : 0 < start /\ 1 < size <= LOGSIZE /\ start + size < 2 ^ 31).

Lemma layout_pos sb : layout sb -> 0 < sb_bmapstart sb /\ 1 <= nbitmap sb /\ 0 < dstart sb.
Proof.
  intros [H1 [H2 H2'] H3 H4]. unfold dstart, nbitmap, IPB, sizeof_dinode, BPB, BSIZE in *.
  change (1024 / 64) with 16 in *. change (1024 * 8) with 8192 in *.
  assert (0 <= sb_ninodes sb / 16) by (apply Z.div_pos; lia).
  pose proof (Z.div_mod (sb_size sb) 8192 ltac:(lia)). pose proof (Z.mod_pos_bound (sb_size sb) 8192 ltac:(lia)). lia.
Qed.

Lemma bblock_in sb b : layout sb -> 0 <= b < sb_size sb -> BBLOCK b sb ∈ map_blocks sb.
Proof.
  intros Hl Hb. pose proof (layout_pos sb Hl). destruct Hl as [_ _ H3 H4]. apply elem_of_seqZ. unfold dstart, nbitmap, BBLOCK, BPB, BSIZE in *.
  assert (0 <= b / (1024 * 8) <= sb_size sb / (1024 * 8)) by (split; [apply Z.div_pos|apply Z.div_le_mono]; lia).
  rewrite u32_small by lia. lia.
Qed.

(** A block of the map is neither data nor log. *)
Lemma map_blocks_range sb bn : layout sb -> bn ∈ map_blocks sb ->
  0 < bn < dstart sb /\ bn < 2 ^ 31 /\ ~ in_log start size bn /\ sb_bmapstart sb <= bn.
Proof.
  intros Hl [H1 H2]%elem_of_seqZ. pose proof (layout_pos sb Hl). destruct Hl as [L1 [L2 L2'] L3 L4].
  unfold in_log. assert (0 <= sb_ninodes sb / IPB) by (apply Z.div_pos; [lia|done]).
  unfold dstart, BPB, BSIZE in *. lia.
Qed.

Lemma alloc_map_ok V sb : fs_ok V sb -> map_ok start size V sb.
Proof.
  intros [Hl _ Hm]. pose proof (layout_pos sb Hl). pose proof Hl as [L1 [L2 L2'] L3 L4]. split.
  - lia.
  - unfold dstart, nbitmap, BPB, BSIZE in *. lia.
  - intros b Hb. by apply (map_blocks_range sb), bblock_in.
  - intros b Hb Hin. apply Hm. unfold in_log in Hin.
    assert (0 <= sb_ninodes sb / IPB) by (apply Z.div_pos; [lia|done]). unfold dstart. lia.
Qed.

(** A change outside the map does not change what is in use. *)
Lemma used_other V V' sb b : (forall bn, bn ∈ map_blocks sb -> dblk V' bn = dblk V bn) -> layout sb -> 0 <= b < sb_size sb ->
  used V' sb b = used V sb b.
Proof. intros Hs Hl Hb. unfold used. by rewrite Hs by by apply bblock_in. Qed.

Lemma nfree_ext V V' sb : (forall b, 0 <= b < sb_size sb -> used V' sb b = used V sb b) -> nfree V' sb = nfree V sb.
Proof.
  intros H. unfold nfree. f_equal.
  assert (G : forall l : list Z, (forall b, b ∈ l -> 0 <= b < sb_size sb) ->
    filter (fun b => used V' sb b = false) l = filter (fun b => used V sb b = false) l).
  { induction l as [|b l IH]; intros Hl; [done|]. rewrite !filter_cons, H by (apply Hl; left). rewrite IH; [done|].
    intros. apply Hl. by right. }
  apply G. intros b ?%elem_of_seqZ. lia.
Qed.

Lemma nfree_first V sb : (0 < nfree V sb)%nat -> exists b, first_free V sb b.
Proof.
  unfold nfree. intros Hn. destruct (list_find (fun b => used V sb b = false) (seqZ 0 (sb_size sb))) as [[i b]|] eqn:E.
  - apply list_find_Some in E as ([-> Hi]%lookup_seqZ & Hu & Hbef). exists (0 + Z.of_nat i). split_and!; [lia|lia|done|].
    intros b' Hb'. destruct (used V sb b') eqn:Eu; [done|]. exfalso. apply (Hbef (Z.to_nat b') b'); [|lia|done].
    apply lookup_seqZ. lia.
  - apply list_find_None in E. exfalso. revert Hn. generalize dependent (seqZ 0 (sb_size sb)). intros l HF.
    induction HF as [|b l Hb _ IH]; [simpl; lia|]. by rewrite filter_cons_False.
Qed.

(** ** Allocation *)

(** Block [b] has been taken from the free blocks and zeroed. *)
Record alloc_of (sb : superblock) (V : gmap Z block) (b : Z) (V' : gmap Z block) : Prop := {
  al_range : dstart sb <= b < sb_size sb;
  al_free : used V sb b = false;
  al_fs : fs_ok V' sb;
  al_zero : dblk V' b = zblock;
  al_used : forall b', 0 <= b' < sb_size sb -> used V' sb b' = if b' =? b then true else used V sb b';
  al_same : forall bn, bn <> b -> bn ∉ map_blocks sb -> dblk V' bn = dblk V bn;
  al_nfree : nfree V sb = S (nfree V' sb)
}.

Lemma nfree_take V V' sb b : 0 <= b < sb_size sb -> used V sb b = false ->
  (forall b', 0 <= b' < sb_size sb -> used V' sb b' = if b' =? b then true else used V sb b') ->
  nfree V sb = S (nfree V' sb).
Proof.
  intros Hb Hf Hu. unfold nfree.
  assert (E : seqZ 0 (sb_size sb) = seqZ 0 b ++ b :: seqZ (b + 1) (sb_size sb - b - 1)).
  { replace (sb_size sb) with (b + (1 + (sb_size sb - b - 1))) at 1 by lia. rewrite !seqZ_app by lia. done. }
  assert (G : forall l : list Z, (forall x, x ∈ l -> 0 <= x < sb_size sb /\ x <> b) ->
    filter (fun x => used V' sb x = false) l = filter (fun x => used V sb x = false) l).
  { induction l as [|x l IH]; intros Hl; [done|]. destruct (Hl x ltac:(left)) as [Hx Hne].
    rewrite !filter_cons, Hu, (proj2 (Z.eqb_neq _ _)) by done. rewrite IH; [done|]. intros. apply Hl. by right. }
  rewrite E, !filter_app, (filter_cons_True _ b), (filter_cons_False _ b), !length_app by (rewrite ?Hu, ?Z.eqb_refl by done; done).
  rewrite !G by (intros x ?%elem_of_seqZ; lia). simpl. lia.
Qed.

Lemma alloc_of_balloc V sb b :
  let bb := BBLOCK b sb in
  fs_ok V sb -> first_free V sb b -> alloc_of sb V b (<[b := zblock]> (<[bb := mark b (dblk V bb)]> V)).
Proof.
  intros bb Hfs (Hb & Hf & _). pose proof (alloc_map_ok V sb Hfs) as Hmap. destruct Hfs as [Hl Hlen Hm].
  pose proof (layout_pos sb Hl). pose proof (bblock_in sb b Hl Hb) as Hbb. fold bb in Hbb.
  destruct (map_blocks_range sb bb Hl Hbb) as (Hr & _).
  assert (Hd : dstart sb <= b) by (destruct (Z.le_gt_cases (dstart sb) b); [done|]; rewrite Hm in Hf by lia; done).
  assert (Hu : forall b', 0 <= b' < sb_size sb ->
    used (<[b := zblock]> (<[bb := mark b (dblk V bb)]> V)) sb b' = if b' =? b then true else used V sb b').
  { intros b' Hb'. rewrite <- (used_mark start size V sb b b') by done. apply used_other; [|done|done].
    intros bn Hbn. rewrite dblk_ne; [done|]. apply (map_blocks_range sb bn Hl) in Hbn. lia. }
  split; [lia|done| |by rewrite dblk_eq|done| |by apply (nfree_take V _ sb b)].
  - split; [done| |].
    + intros bn. destruct (decide (b = bn)) as [<-|]; [by rewrite dblk_eq|]. rewrite dblk_ne by done.
      destruct (decide (bb = bn)) as [<-|]; [|by rewrite dblk_ne]. rewrite dblk_eq. unfold mark. by rewrite length_wr8.
    + intros b' Hb'. rewrite Hu, Hm by (destruct Hl; lia). by destruct (b' =? b).
  - intros bn Hne Hn. rewrite !dblk_ne; [done|by intros ->|done].
Qed.

(** ** The blocks of an inode *)

(** Block [k] of the file, 0 if there is none; [MAXFILE] is the place of the
    indirect block. *)
Definition slot (V : gmap Z block) (ip : inode) (k : Z) : Z :=
  if k =? MAXFILE then addr_at ip NDIRECT
  else if k <? Z.of_nat NDIRECT then addr_at ip (Z.to_nat k)
  else if addr_at ip NDIRECT =? 0 then 0
  else rd32 (dblk V (addr_at ip NDIRECT)) (Z.to_nat (4 * (k - Z.of_nat NDIRECT))).

Record inode_ok (V : gmap Z block) (sb : superblock) (ip : inode) : Prop := {
  io_dev : i_dev ip = ROOTDEV;
  io_len : length (i_addrs ip) = 13%nat;
  io_size : 0 <= i_size ip <= MAXFILE * BSIZE;
  io_slot : forall k, 0 <= k <= MAXFILE -> slot V ip k <> 0 -> dstart sb <= slot V ip k < sb_size sb /\ used V sb (slot V ip k) = true;
  io_inj : forall k k', 0 <= k <= MAXFILE -> 0 <= k' <= MAXFILE -> slot V ip k <> 0 -> slot V ip k = slot V ip k' -> k = k';
  io_alloc : forall k, 0 <= k -> k * BSIZE < i_size ip -> slot V ip k <> 0
}.

Definition owns (V : gmap Z block) (ip : inode) (b : Z) : Prop := b <> 0 /\ exists k, 0 <= k <= MAXFILE /\ slot V ip k = b.

Lemma slot_blk V ip k : 0 <= k < MAXFILE -> slot V ip k <> 0 -> slot V ip k = blk_of V ip k.
Proof.
  intros Hk. unfold slot, blk_of. rewrite (proj2 (Z.eqb_neq k MAXFILE)) by lia.
  destruct (k <? Z.of_nat NDIRECT); [done|]. destruct (addr_at ip NDIRECT =? 0); done.
Qed.
Lemma slot_ind V ip k : Z.of_nat NDIRECT <= k < MAXFILE -> slot V ip k <> 0 -> slot V ip MAXFILE <> 0.
Proof.
  intros Hk. unfold slot. rewrite (proj2 (Z.eqb_neq k MAXFILE)), (proj2 (Z.ltb_ge k _)), Z.eqb_refl by lia.
  by destruct (Z.eqb_spec (addr_at ip NDIRECT) 0).
Qed.

Lemma maxfile_eq : MAXFILE = 268.
Proof. done. Qed.

Lemma inode_file_ok V sb ip : layout sb -> (forall bn, length (dblk V bn) = 1024%nat) -> inode_ok V sb ip -> file_ok V ip.
Proof.
  intros Hl Hlen [H1 H2 H3 H4 H5 H6]. pose proof (layout_pos sb Hl). destruct Hl as [_ _ L3 L4].
  assert (Hk : forall k, 0 <= k -> k * BSIZE < i_size ip -> 0 <= k < MAXFILE) by (rewrite maxfile_eq in *; unfold BSIZE in *; lia).
  unfold BPB, BSIZE in L4. split; [done|done| | |done].
  - intros Hs. assert (Hi : slot V ip MAXFILE <> 0).
    { apply (slot_ind V ip (Z.of_nat NDIRECT)); [rewrite maxfile_eq; unfold NDIRECT; lia|]. by apply H6; [unfold NDIRECT; lia|]. }
    destruct (H4 MAXFILE ltac:(rewrite maxfile_eq; lia) Hi) as [Hr _]. change (slot V ip MAXFILE) with (addr_at ip NDIRECT) in *. lia.
  - intros k H0 Hlt. rewrite <- slot_blk by auto. destruct (H4 k ltac:(apply Hk in Hlt; lia) (H6 k H0 Hlt)). lia.
Qed.

(** The slots of an inode depend on its addresses and the indirect block only. *)
Lemma slot_ext V V' ip k :
  (slot V ip MAXFILE <> 0 -> dblk V' (slot V ip MAXFILE) = dblk V (slot V ip MAXFILE)) -> slot V' ip k = slot V ip k.
Proof.
  change (slot V ip MAXFILE) with (addr_at ip NDIRECT). intros H. unfold slot.
  destruct (k =? MAXFILE), (k <? Z.of_nat NDIRECT); try done. destruct (Z.eqb_spec (addr_at ip NDIRECT) 0); [done|]. by rewrite H.
Qed.

(** One slot gets a fresh block. *)
Lemma inode_ok_fill V V' sb ip ip' k b :
  inode_ok V sb ip -> 0 <= k <= MAXFILE ->
  i_dev ip' = i_dev ip -> i_size ip' = i_size ip -> length (i_addrs ip') = 13%nat ->
  (forall k', 0 <= k' <= MAXFILE -> slot V' ip' k' = if k' =? k then b else slot V ip k') ->
  (forall b', 0 <= b' < sb_size sb -> used V sb b' = true -> used V' sb b' = true) ->
  0 < dstart sb <= b -> b < sb_size sb -> used V' sb b = true -> ~ owns V ip b ->
  inode_ok V' sb ip'.
Proof.
  intros [H1 H2 H3 H4 H5 H6] Hk E1 E2 E3 Hs Hu Hb Hb' Hub Hno.
  assert (Hne : forall k', 0 <= k' <= MAXFILE -> slot V ip k' <> b).
  { intros k' Hk' E. apply Hno. split; [lia|]. by exists k'. }
  split; rewrite ?E1, ?E2; try done.
  - intros k' Hk'. rewrite Hs by done. destruct (k' =? k); [by split; [lia|]|]. intros Hnz. destruct (H4 k' Hk' Hnz).
    split; [done|]. apply Hu; [lia|done].
  - intros k1 k2 Hk1 Hk2. rewrite !Hs by done. destruct (Z.eqb_spec k1 k) as [->|], (Z.eqb_spec k2 k) as [->|]; intros Hnz E; [done| | |by apply H5].
    + by destruct (Hne k2 Hk2).
    + by destruct (Hne k1 Hk1).
  - intros k' H0 Hlt. assert (k' <= MAXFILE) by (rewrite maxfile_eq; unfold BSIZE in *; rewrite maxfile_eq in H3; lia).
    rewrite Hs by lia. destruct (k' =? k); [lia|by apply H6].
Qed.

(** Blocks were only added to the inode, out of the free ones, and nothing
    outside the inode and the free map changed. *)
Record grows (sb : superblock) (V : gmap Z block) (ip : inode) (V' : gmap Z block) (ip' : inode) : Prop := {
  gr_slot : forall k, 0 <= k <= MAXFILE -> slot V ip k <> 0 -> slot V' ip' k = slot V ip k;
  gr_new : forall k, 0 <= k <= MAXFILE -> slot V ip k = 0 -> slot V' ip' k <> 0 -> used V sb (slot V' ip' k) = false;
  gr_other : forall b, 0 <= b < sb_size sb -> used V sb b = true -> ~ owns V ip b -> b ∉ map_blocks sb -> dblk V' b = dblk V b;
  gr_used : forall b, 0 <= b < sb_size sb -> used V sb b = true -> used V' sb b = true;
  gr_leak : forall b, 0 <= b < sb_size sb -> used V' sb b = true -> used V sb b = false -> owns V' ip' b;
  gr_ip : ip' = set_i_addrs (i_addrs ip') ip
}.

Lemma grows_refl sb V ip : grows sb V ip V ip.
Proof. split; try done; congruence. Qed.

Lemma grows_owns sb V ip V' ip' b : grows sb V ip V' ip' -> owns V ip b -> owns V' ip' b.
Proof. intros [H1 _ _ _ _ _] [Hb (k & Hk & <-)]. split; [done|]. exists k. split; [done|]. by apply H1. Qed.

Lemma grows_trans sb V ip V1 ip1 V2 ip2 :
  inode_ok V1 sb ip1 -> inode_ok V2 sb ip2 -> 0 < dstart sb -> grows sb V ip V1 ip1 -> grows sb V1 ip1 V2 ip2 -> grows sb V ip V2 ip2.
Proof.
  intros Hok Hok2 Hd G1 G2. pose proof G1 as [A1 A2 A3 A4 A5 A6]. pose proof G2 as [B1 B2 B3 B4 B5 B6]. split.
  - intros k Hk Hz. rewrite B1, A1 by (done || rewrite A1; done). done.
  - intros k Hk Hz Hnz. destruct (Z.eq_dec (slot V1 ip1 k) 0) as [E|E].
    + specialize (B2 k Hk E Hnz). destruct (used V sb (slot V2 ip2 k)) eqn:Eu; [|done].
      rewrite A4 in B2; [done| |done]. destruct (io_slot _ _ _ Hok2 k Hk Hnz). lia.
    + rewrite B1 by done. by apply A2.
  - intros b Hb Hu Hno Hm. rewrite B3, A3; try done; [by apply A4|]. intros [Hnz (k & Hk & Es)].
    destruct (Z.eq_dec (slot V ip k) 0) as [E|E].
    + rewrite <- Es in Hu, Hnz. by rewrite (A2 k Hk E Hnz) in Hu.
    + apply Hno. split; [done|]. exists k. split; [done|]. rewrite <- Es. symmetry. by apply A1.
  - intros b Hb Hu. by apply B4, A4.
  - intros b Hb Hu Hf. destruct (used V1 sb b) eqn:E; [|by apply B5]. eapply grows_owns; [done|]. by apply A5.
  - rewrite B6, A6. by destruct ip.
Qed.

(** One slot filled with a block just allocated; only the indirect block is
    changed besides. *)
Record filled (sb : superblock) (V : gmap Z block) (ip : inode) (k b : Z) (V' : gmap Z block) (ip' : inode) : Prop := {
  fi_fs : fs_ok V' sb;
  fi_ok : inode_ok V' sb ip';
  fi_grows : grows sb V ip V' ip';
  fi_data : forall k, 0 <= k < MAXFILE -> slot V ip k <> 0 -> dblk V' (slot V ip k) = dblk V (slot V ip k);
  fi_slot : forall k', 0 <= k' <= MAXFILE -> slot V' ip' k' = if k' =? k then b else slot V ip k';
  fi_zero : dblk V' b = zblock;
  fi_nfree : nfree V sb = S (nfree V' sb)
}.

Lemma fill_slot sb V ip k b V1 V' ip' :
  inode_ok V sb ip -> layout sb -> alloc_of sb V b V1 -> 0 <= k <= MAXFILE -> slot V ip k = 0 ->
  (forall bn, bn <> slot V ip MAXFILE \/ slot V ip MAXFILE = 0 -> dblk V' bn = dblk V1 bn) ->
  (forall bn, length (dblk V' bn) = 1024%nat) ->
  (forall k', 0 <= k' <= MAXFILE -> slot V' ip' k' = if k' =? k then b else slot V ip k') ->
  ip' = set_i_addrs (i_addrs ip') ip -> length (i_addrs ip') = 13%nat ->
  filled sb V ip k b V' ip'.
Proof.
  intros Hok Hl [Hr Hfree Hfs Hz Hu Hsame Hn] Hk Hk0 Hs Hlen Hslot Hip Hla. pose proof (layout_pos sb Hl) as (_ & _ & Hd).
  set (X := slot V ip MAXFILE) in *.
  assert (HX : X <> 0 -> dstart sb <= X < sb_size sb /\ X <> b).
  { intros HX. destruct (io_slot _ _ _ Hok MAXFILE ltac:(rewrite maxfile_eq; lia) HX) as [? Hux]. split; [done|]. intros E. rewrite <- E in Hfree. unfold X in Hfree. congruence. }
  assert (Hmap : forall bn, bn ∈ map_blocks sb -> dblk V' bn = dblk V1 bn).
  { intros bn Hbn. apply Hs. destruct (Z.eq_dec X 0); [by right|left]. apply (map_blocks_range sb bn Hl) in Hbn. destruct (HX n). lia. }
  assert (Hu' : forall b', 0 <= b' < sb_size sb -> used V' sb b' = if b' =? b then true else used V sb b').
  { intros b' Hb'. rewrite <- Hu by done. by apply used_other. }
  assert (Hno : ~ owns V ip b).
  { intros [_ (k' & Hk' & E)]. destruct (io_slot _ _ _ Hok k' Hk') as [_ H]; [rewrite E; lia|]. congruence. }
  assert (Hmono : forall b', 0 <= b' < sb_size sb -> used V sb b' = true -> used V' sb b' = true).
  { intros b' Hb' H. rewrite Hu' by done. by destruct (b' =? b). }
  assert (Hfs' : fs_ok V' sb).
  { split; [done|done|]. intros b' Hb'. rewrite Hu' by (destruct Hl; lia). destruct (b' =? b) eqn:E; [done|].
    rewrite <- (fs_meta _ _ Hfs b' Hb'), Hu by (destruct Hl; lia). by rewrite E. }
  assert (Hb : used V' sb b = true) by (rewrite Hu' by lia; by rewrite Z.eqb_refl).
  assert (Hok' : inode_ok V' sb ip').
  { apply (inode_ok_fill V V' sb ip ip' k b); first [done | lia | by rewrite Hip]. }
  split; [done|done| | |done| |by rewrite Hn, (nfree_ext V1 V') by (intros; by rewrite Hu, Hu')].
  - split; [| | |done| |done].
    + intros k' Hk' Hnz. rewrite Hslot by done. destruct (Z.eqb_spec k' k) as [->|]; [congruence|done].
    + intros k' Hk' Hz' Hnz. rewrite Hslot in * by done. by destruct (Z.eqb_spec k' k) as [->|].
    + intros b' Hb' Hub Hnb Hm. rewrite Hs.
      * apply Hsame; [|done]. intros ->. congruence.
      * destruct (Z.eq_dec X 0); [by right|left]. intros ->. apply Hnb. split; [done|]. exists MAXFILE. split; [rewrite maxfile_eq; lia|done].
    + intros b' Hb' Hub Hf. rewrite Hu' in Hub by done. destruct (Z.eqb_spec b' b) as [->|]; [|congruence].
      split; [lia|]. exists k. split; [done|]. rewrite Hslot by done. by rewrite Z.eqb_refl.
  - intros k' Hk' Hnz. destruct (io_slot _ _ _ Hok k' ltac:(lia) Hnz) as [Hr' Hux]. rewrite Hs.
    + apply Hsame; [intros E; rewrite E in Hux; congruence|]. intros Hm. apply (map_blocks_range sb _ Hl) in Hm. lia.
    + left. intros E. assert (k' = MAXFILE); [|lia]. apply (io_inj _ _ _ Hok); [lia|rewrite maxfile_eq; lia|done|done].
  - rewrite Hs; [done|]. destruct (Z.eq_dec X 0); [by right|left]. by destruct (HX n).
Qed.

Lemma addr_at_set ip k a k' : (k < length (i_addrs ip))%nat ->
  addr_at (set_i_addrs (<[k := a]> (i_addrs ip)) ip) k' = if decide (k = k') then a else addr_at ip k'.
Proof.
  intros Hk. unfold addr_at. cbn [i_addrs set_i_addrs]. destruct (decide (k = k')) as [<-|Hne].
  - by rewrite list_lookup_insert_eq.
  - by rewrite list_lookup_insert_ne.
Qed.

Lemma rd32_zblock o : rd32 zblock o = 0.
Proof.
  assert (H : forall k, rd8 zblock k = 0); [|unfold rd32, rd16; by rewrite !H].
  intros k. unfold rd8, zblock. destruct (replicate 1024 0 !! k) as [x|] eqn:E; [|done]. apply lookup_replicate in E as [-> _]. done.
Qed.

Lemma alloc_slot sb V ip b V1 k : inode_ok V sb ip -> layout sb -> alloc_of sb V b V1 -> slot V1 ip k = slot V ip k.
Proof.
  intros Hok Hl Hal. apply slot_ext. intros HX. destruct (io_slot _ _ _ Hok MAXFILE ltac:(rewrite maxfile_eq; lia) HX) as [Hr Hu].
  apply (al_same _ _ _ _ Hal).
  - intros E. rewrite E in Hu. pose proof (al_free _ _ _ _ Hal). congruence.
  - intros Hm. apply (map_blocks_range sb _ Hl) in Hm. lia.
Qed.

Lemma fill_direct sb V ip k b V1 :
  inode_ok V sb ip -> layout sb -> alloc_of sb V b V1 -> 0 <= k < Z.of_nat NDIRECT -> slot V ip k = 0 ->
  filled sb V ip k b V1 (set_i_addrs (<[Z.to_nat k := b]> (i_addrs ip)) ip).
Proof.
  intros Hok Hl Hal Hk H0. pose proof (io_len _ _ _ Hok) as Hlen. unfold NDIRECT in Hk.
  apply (fill_slot sb V ip k b V1 V1); [done|done|done|rewrite maxfile_eq; lia|done|done|apply Hal| |done|by cbn; rewrite length_insert].
  intros k' Hk'. pose proof (alloc_slot sb V ip b V1 k' Hok Hl Hal) as E. rewrite <- E. unfold slot, NDIRECT in *.
  rewrite !addr_at_set by lia. destruct (decide (Z.to_nat k = 12%nat)) as [|_]; [lia|].
  destruct (Z.eqb_spec k' MAXFILE) as [->|]; [by rewrite (proj2 (Z.eqb_neq MAXFILE k)) by (rewrite maxfile_eq; lia)|].
  destruct (Z.ltb_spec k' (Z.of_nat 12)); [|by rewrite (proj2 (Z.eqb_neq k' k)) by lia].
  destruct (Z.eqb_spec k' k) as [->|]; [by rewrite decide_True|]. rewrite decide_False by lia. done.
Qed.

Lemma fill_ind sb V ip b V1 :
  inode_ok V sb ip -> layout sb -> alloc_of sb V b V1 -> slot V ip MAXFILE = 0 ->
  filled sb V ip MAXFILE b V1 (set_i_addrs (<[NDIRECT := b]> (i_addrs ip)) ip).
Proof.
  intros Hok Hl Hal H0. pose proof (io_len _ _ _ Hok) as Hlen. pose proof (layout_pos sb Hl) as (_ & _ & Hd).
  apply (fill_slot sb V ip MAXFILE b V1 V1); [done|done|done|rewrite maxfile_eq; lia|done|done|apply Hal| |done|by cbn; rewrite length_insert].
  intros k' Hk'. pose proof (alloc_slot sb V ip b V1 k' Hok Hl Hal) as E. rewrite <- E. change (slot V ip MAXFILE) with (addr_at ip NDIRECT) in H0.
  unfold slot. rewrite !addr_at_set by (unfold NDIRECT; lia). rewrite decide_True by done.
  destruct (Z.eqb_spec k' MAXFILE) as [->|]; [done|]. destruct (Z.ltb_spec k' (Z.of_nat NDIRECT)).
  - rewrite decide_False by lia. done.
  - rewrite H0. cbn [Z.eqb]. destruct (Z.eqb_spec b 0); [destruct (al_range _ _ _ _ Hal); lia|].
    rewrite (al_zero _ _ _ _ Hal). apply rd32_zblock.
Qed.

Lemma fill_entry sb V ip k b V1 :
  let X := slot V ip MAXFILE in let o := Z.to_nat (4 * (k - Z.of_nat NDIRECT)) in
  inode_ok V sb ip -> layout sb -> alloc_of sb V b V1 -> X <> 0 -> Z.of_nat NDIRECT <= k < MAXFILE -> slot V ip k = 0 ->
  dblk V1 X = dblk V X /\ filled sb V ip k b (<[X := wr32 o b (dblk V X)]> V1) ip.
Proof.
  intros X o Hok Hl Hal HX Hk H0. pose proof Hal as [Hr Hfree Hfs _ _ Hsame _]. pose proof (layout_pos sb Hl) as (_ & _ & Hd).
  destruct (io_slot _ _ _ Hok MAXFILE ltac:(rewrite maxfile_eq; lia) HX) as [HXr HXu]. fold X in HXr, HXu.
  assert (EX : dblk V1 X = dblk V X).
  { apply Hsame; [intros E; rewrite E in HXu; congruence|]. intros Hm. apply (map_blocks_range sb _ Hl) in Hm. lia. }
  split; [done|]. pose proof (fs_len _ _ Hfs X) as Hlen. rewrite EX in Hlen. rewrite maxfile_eq in Hk. unfold NDIRECT in Hk.
  apply (fill_slot sb V ip k b V1); [done|done|done|rewrite maxfile_eq; lia|done| | | |by destruct ip|apply Hok].
  - intros bn Hbn. fold X in Hbn. rewrite dblk_ne by naive_solver. done.
  - intros bn. destruct (decide (X = bn)) as [<-|]; [by rewrite dblk_eq, length_wr32|]. rewrite dblk_ne by done. apply Hfs.
  - intros k' Hk'. unfold slot. fold X. change (addr_at ip NDIRECT) with X. rewrite (proj2 (Z.eqb_neq X 0)) by done.
    destruct (Z.eqb_spec k' MAXFILE) as [->|Hne]; [by rewrite (proj2 (Z.eqb_neq MAXFILE k)) by (rewrite maxfile_eq; lia)|].
    rewrite maxfile_eq in *. unfold o, NDIRECT in *.
    destruct (Z.ltb_spec k' (Z.of_nat 12)); [by rewrite (proj2 (Z.eqb_neq k' k)) by lia|]. rewrite dblk_eq.
    destruct (Z.eqb_spec k' k) as [->|].
    + rewrite rd32_wr32 by lia. apply u32_small. destruct Hl as [_ _ _ L4]. unfold BPB, BSIZE in L4. lia.
    + by rewrite rd32_wr32_ne by lia.
Qed.
End Layout.

(** ** balloc and bmap *)
Lemma logged_in bn l x : x ∈ logged bn l <-> x = bn \/ x ∈ l.
Proof. unfold logged. case_decide; set_solver. Qed.

Lemma frame_upd_inode p i f s s' : frame p s s' -> frame p (upd_inode i f s) (upd_inode i f s').
Proof. intros (lg & ps & vd & bc & dk & E & ->). by exists lg, ps, vd, bc, dk. Qed.

Lemma inode_of_upd i f s : (i < length (k_itable s))%nat -> inode_of (upd_inode i f s) i = f (inode_of s i).
Proof.
  intros Hi. unfold inode_of, upd_inode, set_itable. cbn [k_itable]. rewrite list_lookup_alter_eq.
  by destruct (lookup_lt_is_Some_2 _ _ Hi) as [ip ->].
Qed.

(** Only inode [i], now [ip'], and what a frame allows has changed. *)
Definition iframe (p i : nat) (ip' : inode) (s s' : kstate) : Prop := frame p (upd_inode i (fun _ => ip') s) s'.

Lemma iframe_inode p i ip' s s' : (i < length (k_itable s))%nat -> iframe p i ip' s s' -> inode_of s' i = ip'.
Proof. intros Hi Hf. rewrite (frame_inode _ _ _ i Hf). by rewrite inode_of_upd. Qed.
Lemma iframe_len p i ip' s s' : iframe p i ip' s s' -> length (k_itable s') = length (k_itable s).
Proof. intros Hf. rewrite (frame_itable _ _ _ Hf). apply length_alter. Qed.
Lemma iframe_sb p i ip' s s' : iframe p i ip' s s' -> k_sb s' = k_sb s.
Proof. intros Hf. by rewrite (frame_sb _ _ _ Hf). Qed.
Lemma iframe_id p i s s' : frame p s s' -> iframe p i (inode_of s i) s s'.
Proof.
  intros Hf. unfold iframe. replace (upd_inode i _ s) with s; [done|]. unfold upd_inode, set_itable, inode_of. destruct s as []. cbn. f_equal.
  symmetry. apply list_eq. intros j. destruct (decide (i = j)) as [<-|]; [|by rewrite list_lookup_alter_ne].
  rewrite list_lookup_alter_eq. by destruct (_ !! i).
Qed.
Lemma iframe_trans p i ip1 ip2 s s1 s2 : iframe p i ip1 s s1 -> iframe p i ip2 s1 s2 -> iframe p i ip2 s s2.
Proof.
  unfold iframe. intros H1 H2. etrans; [|exact H2]. apply (frame_upd_inode p i (fun _ => ip2)) in H1.
  by rewrite upd_inode_upd in H1.
Qed.
Lemma iframe_frame p i ip' s s1 s2 : iframe p i ip' s s1 -> frame p s1 s2 -> iframe p i ip' s s2.
Proof. unfold iframe. intros H1 H2. by etrans. Qed.
Lemma iframe_upd p i f ip' s s1 : (i < length (k_itable s))%nat -> iframe p i ip' s s1 -> iframe p i (f ip') s (upd_inode i f s1).
Proof. intros Hi H. apply (frame_upd_inode p i f) in H. by rewrite upd_inode_upd in H. Qed.

Section Bmap.
Context `{KI : KernelImage} `{VD : VirtioDevice} `{VDOK : !VirtioDeviceOk}.
Context (start size : Z) (geom : 0 < start /\ 1 < size <= LOGSIZE /\ start + size < 2 ^ 31).
Variable P : gmap Z block -> Prop.
Let C (s : kstate) : Prop := P (k_disk s).

Lemma view_inode {live} p dk l V H i f s : view start size live p dk l V H s -> view start size live p dk l V H (upd_inode i f s).
Proof. intros [act [[[? ? ? ? ? ? ?] ?] ? ? ? ? ? ? ?]]. exists act. by split. Qed.

(** The log has no more entries than a list of blocks it is part of. *)
Lemma view_log_le {live} p dk l V H s L : view start size live p dk l V H s -> l ⊆ L -> (length l <= length L)%nat.
Proof. intros [act Ht] Hs. apply submseteq_length, NoDup_submseteq; [apply Ht|exact Hs]. Qed.

Lemma wp_balloc_fs p dk l V H L Q s :
  let sb := k_sb s in
  txn start size p dk l V H s -> fs_ok start size V sb -> (base.size H <= 1)%nat ->
  (forall bn, is_Some (H !! bn) -> dstart sb <= bn < sb_size sb /\ used V sb bn = true) ->
  (0 < nfree V sb)%nat -> l ⊆ L -> map_blocks sb ⊆ L -> Z.of_nat (length L) + 2 < size -> P dk ->
  (forall b V' l' s', alloc_of start size sb V b V' -> txn start size p dk l' V' H s' -> frame p s s' -> l' ⊆ b :: L -> Q b s') ->
  wpc (seq_rely p) C (balloc ROOTDEV) Q s.
Proof.
  intros sb Ht Hfs HHs HH Hnf HlL HmL Hroom HP HQ. destruct (nfree_first V sb Hnf) as [b Hff].
  pose proof (fs_layout _ _ _ _ Hfs) as Hl. pose proof (view_log_le _ _ _ _ _ _ _ Ht HlL).
  assert (Hnone : forall bn, (dstart sb <= bn < sb_size sb /\ used V sb bn = true -> False) -> H !! bn = None).
  { intros bn Hbn. destruct (H !! bn) eqn:E; [|done]. exfalso. apply Hbn, HH. by rewrite E. }
  pose proof Hff as (Hb & Hf & _). pose proof (bblock_in start size geom sb b Hl Hb) as Hbb.
  eapply (wp_balloc start size geom P p dk l V H b); [done| | |done|by eapply alloc_map_ok|done|lia|done|].
  - intros b' Hb'. apply Hnone. intros [Hr _]. pose proof (bblock_in start size geom sb b' Hl Hb') as Hm.
    apply (map_blocks_range start size geom sb _ Hl) in Hm. unfold sb in *. lia.
  - apply Hnone. intros [_ ?]. congruence.
  - intros s' Ht' Hfr. eapply HQ; [by apply (alloc_of_balloc start size geom)|exact Ht'|done|].
    intros x. rewrite !logged_in, elem_of_cons. intros [->|[->|Hx]]; [by left|right; by apply HmL|right; by apply HlL].
Qed.

(** Free blocks beyond the one a missing indirect block would take. *)
Definition nz (x : Z) : Z := if x =? 0 then 1 else 0.
Definition spare (V : gmap Z block) (sb : superblock) (ip : inode) : Z := Z.of_nat (nfree V sb) - nz (slot V ip MAXFILE).
Definition ind_l (V : gmap Z block) (ip : inode) : list Z := if slot V ip MAXFILE =? 0 then [] else [slot V ip MAXFILE].

(** The file after some of bmap's allocations: [V], [ip] have become [V'], [ip']. *)
Record extended (sb : superblock) (V : gmap Z block) (ip : inode) (V' : gmap Z block) (ip' : inode) : Prop := {
  ex_fs : fs_ok start size V' sb;
  ex_ok : inode_ok V' sb ip';
  ex_grows : grows sb V ip V' ip';
  ex_data : forall k, 0 <= k < MAXFILE -> slot V ip k <> 0 -> dblk V' (slot V ip k) = dblk V (slot V ip k)
}.

Lemma extended_refl sb V ip : fs_ok start size V sb -> inode_ok V sb ip -> extended sb V ip V ip.
Proof. intros. split; [done|done|apply grows_refl|done]. Qed.

Lemma extended_filled sb V ip k b V' ip' : filled start size sb V ip k b V' ip' -> extended sb V ip V' ip'.
Proof. intros [H1 H2 H3 H4 _ _ _]. by split. Qed.

Lemma extended_trans sb V ip V1 ip1 V2 ip2 : extended sb V ip V1 ip1 -> extended sb V1 ip1 V2 ip2 -> extended sb V ip V2 ip2.
Proof.
  intros [A1 A2 A3 A4] [B1 B2 B3 B4]. split; [done|done| |].
  - eapply grows_trans; [exact A2|exact B2|apply (layout_pos start size geom sb), A1|done|done].
  - intros k Hk Hnz. pose proof (gr_slot _ _ _ _ _ A3 k ltac:(lia) Hnz) as E. rewrite <- A4, <- E by done. apply B4; [done|by rewrite E].
Qed.

Lemma data_range sb b : layout start size sb -> dstart sb <= b < sb_size sb -> 0 < b < 2 ^ 31 /\ ~ in_log start size b.
Proof.
  intros Hl Hb. pose proof (layout_pos start size geom sb Hl). destruct Hl as [L1 [L2 L2'] L3 L4].
  assert (0 <= sb_ninodes sb / IPB) by (apply Z.div_pos; [lia|done]). unfold dstart, in_log, BPB, BSIZE in *. lia.
Qed.

(** bmap's first step for a block past the direct ones: the indirect block. *)
Lemma wp_bmap_ind p dk l V i L Q s :
  let ip := inode_of s i in let sb := k_sb s in
  txn start size p dk l V ∅ s -> (i < length (k_itable s))%nat -> fs_ok start size V sb -> inode_ok V sb ip ->
  0 <= spare V sb ip -> l ⊆ L -> map_blocks sb ⊆ L -> Z.of_nat (length L) + 2 < size -> P dk ->
  (forall a l' V' ip' s', a = slot V' ip' MAXFILE -> txn start size p dk l' V' ∅ s' -> iframe p i ip' s s' -> extended sb V ip V' ip' ->
     slot V' ip' MAXFILE <> 0 -> (forall k, 0 <= k < MAXFILE -> slot V' ip' k = slot V ip k) ->
     spare V sb ip = spare V' sb ip' -> l' ⊆ ind_l V' ip' ++ L -> Q a s') ->
  wpc (seq_rely p) C
    (if addr_at ip NDIRECT =? 0 then let* a := balloc (i_dev ip) in set_addr i NDIRECT a;;; ret a
     else ret (addr_at ip NDIRECT)) Q s.
Proof.
  intros ip sb Ht Hi Hfs Hok Hsp HlL HmL Hroom HP HQ. change (addr_at ip NDIRECT) with (slot V ip MAXFILE).
  destruct (Z.eqb_spec (slot V ip MAXFILE) 0) as [E|E].
  - unfold spare, nz in Hsp. rewrite E in Hsp. cbn [Z.eqb] in Hsp. wp_step. rewrite (io_dev _ _ _ Hok). apply (wp_balloc_fs p dk l V ∅ L); [done|done|rewrite map_size_empty; lia| |fold sb; lia|done|done|done|done|].
    { intros bn []. by rewrite lookup_empty in *. }
    intros b V' l' s' Hal Ht' Hf Hl'. fold sb in Hal. pose proof (fill_ind start size geom sb V ip b V' Hok (fs_layout _ _ _ _ Hfs) Hal E) as Hfi.
    pose proof (fi_slot _ _ _ _ _ _ _ _ _ Hfi MAXFILE ltac:(rewrite maxfile_eq; lia)) as Eb. rewrite Z.eqb_refl in Eb.
    assert (Hb0 : b <> 0).
    { pose proof (al_range _ _ _ _ _ _ Hal). pose proof (layout_pos start size geom sb (fs_layout _ _ _ _ Hfs)). lia. }
    unfold set_addr, modi. do 3 wp_step. eapply HQ; [symmetry; exact Eb|by apply view_inode| |by eapply extended_filled|by rewrite Eb| | |].
    + apply (iframe_upd p i (fun ip => set_i_addrs (<[NDIRECT := b]> (i_addrs ip)) ip)); [done|by apply iframe_id].
    + intros k Hk. rewrite (fi_slot _ _ _ _ _ _ _ _ _ Hfi) by lia. by rewrite (proj2 (Z.eqb_neq _ _)) by lia.
    + unfold spare, nz. rewrite Eb, E, (fi_nfree _ _ _ _ _ _ _ _ _ Hfi). rewrite (proj2 (Z.eqb_neq b 0)) by done. cbn [Z.eqb]. lia.
    + unfold ind_l. rewrite Eb, (proj2 (Z.eqb_neq b 0)) by done. done.
  - wp_step. eapply HQ; [done|done|apply iframe_id, frame_refl|by apply extended_refl|done|done|done|]. set_solver.
Qed.

(** bmap's second step: the entry in the indirect block. *)
Lemma wp_bmap_entry p dk l V i k L Q s :
  let ip := inode_of s i in let sb := k_sb s in let o := Z.to_nat (4 * (k - Z.of_nat NDIRECT)) in
  txn start size p dk l V ∅ s -> fs_ok start size V sb -> inode_ok V sb ip ->
  Z.of_nat NDIRECT <= k < MAXFILE -> slot V ip MAXFILE <> 0 -> nz (slot V ip k) <= spare V sb ip ->
  l ⊆ L -> map_blocks sb ⊆ L -> Z.of_nat (length L) + 2 < size -> P dk ->
  (forall a l' V' s', a = slot V' ip k -> txn start size p dk l' V' ∅ s' -> frame p s s' -> extended sb V ip V' ip ->
     slot V' ip k <> 0 -> spare V sb ip <= spare V' sb ip + nz (slot V ip k) ->
     l' ⊆ slot V' ip k :: slot V ip MAXFILE :: L -> Q a s') ->
  wpc (seq_rely p) C
    (let* bp := bread ROOTDEV (slot V ip MAXFILE) in
     let* d := getd bp in
     let* addr :=
       (if rd32 d o =? 0 then
          let* a := balloc ROOTDEV in modd bp (wr32 o a);;; log_write bp;;; ret a
        else ret (rd32 d o)) in
     brelse bp;;; ret addr) Q s.
Proof.
  intros ip sb o Ht Hfs Hok Hk HX Hsp HlL HmL Hroom HP HQ. set (X := slot V ip MAXFILE) in *.
  pose proof (fs_layout _ _ _ _ Hfs) as Hl. destruct (io_slot _ _ _ Hok MAXFILE ltac:(rewrite maxfile_eq; lia) HX) as [HXr HXu].
  fold X in HXr, HXu. destruct (data_range sb X Hl HXr) as [HX31 HXl].
  assert (Es : rd32 (dblk V X) o = slot V ip k).
  { unfold slot at 1. rewrite (proj2 (Z.eqb_neq k _)), (proj2 (Z.ltb_ge k _)) by lia. change (addr_at ip NDIRECT) with X.
    by rewrite (proj2 (Z.eqb_neq X 0)). }
  eapply (wp_with_block start size geom P p); [done|lia|done|]. intros bp s1 Ht1 Hf1. rewrite Es. unfold nz in Hsp.
  pose proof (frame_sb _ _ _ Hf1) as Esb1. fold sb in Esb1.
  destruct (Z.eqb_spec (slot V ip k) 0) as [E0|E0].
  - unfold spare in Hsp. wp_step. wp_step.
    apply (wp_balloc_fs p dk l V (<[X := (bp, dblk V X)]> ∅) L); rewrite ?Esb1; [done|done| | | |done|done|done|done|].
    { rewrite insert_empty, map_size_singleton. lia. }
    { intros bn [y Hy]. apply lookup_insert_Some in Hy as [[<- _]|[_ Hy]]; [done|]. by rewrite lookup_empty in Hy. }
    { unfold nz in Hsp. fold X in Hsp. rewrite (proj2 (Z.eqb_neq X 0)) in Hsp by done. lia. }
    intros b V1 l1 s2 Hal Ht2 Hf2 Hl1.
    destruct (fill_entry start size geom sb V ip k b V1 Hok Hl Hal HX Hk E0) as [EX Hfi]. fold X o in EX, Hfi.
    pose proof (fi_slot _ _ _ _ _ _ _ _ _ Hfi k ltac:(lia)) as Ek. rewrite Z.eqb_refl in Ek.
    rewrite <- EX in Ht2. pose proof (txn_buf _ _ _ _ _ _ _ _ _ _ _ Ht2 (lookup_insert_eq _ _ _)) as Ebuf.
    unfold modd, modb. do 2 wp_step. set (f := fun x : buf => set_b_data _ x).
    apply (txn_modb start size p dk l1 V1 _ s2 X bp (dblk V1 X) f (wr32 o b (dblk V X))) in Ht2;
      [|apply lookup_insert_eq|unfold f; rewrite Ebuf; cbn [b_data]; by rewrite EX]. rewrite insert_insert_eq in Ht2. wp_step.
    pose proof (view_log_le _ _ _ _ _ _ _ Ht2 Hl1) as Hll. simpl length in Hll.
    eapply (wp_tx_log_write start size geom P p _ _ _ _ X bp); [done|apply lookup_insert_eq|lia|done|lia|].
    intros s3 Ht3 Hf3. do 2 wp_step. eapply (wp_tx_brelse start size P p _ _ _ _ X bp); [done|by rewrite lookup_insert_eq, dblk_eq|].
    rewrite delete_insert_id by apply lookup_empty. intros s4 Ht4 Hr4. wp_step.
    eapply HQ; [symmetry; exact Ek|done| |by eapply extended_filled|rewrite Ek| |].
    + etrans; [exact Hf1|]. etrans; [exact Hf2|]. etrans; [apply rest_frame, rest_eq_bcache|]. etrans; [exact Hf3|]. by apply rest_frame.
    + pose proof (al_range _ _ _ _ _ _ Hal). pose proof (layout_pos start size geom sb Hl). lia.
    + unfold spare, nz. rewrite E0, (fi_nfree _ _ _ _ _ _ _ _ _ Hfi). cbn [Z.eqb].
      change (slot (<[X:=wr32 o b (dblk V X)]> V1) ip MAXFILE) with X. fold X. lia.
    + rewrite Ek. intros x [->|Hx]%logged_in; [set_solver|]. apply Hl1 in Hx. set_solver.
  - do 3 wp_step. eapply (wp_brelse_clean start size P p); [done|]. intros s2 Ht2 Hf2. wp_step.
    eapply HQ; [done|done|by etrans|by apply extended_refl|done| |set_solver]. unfold nz. rewrite (proj2 (Z.eqb_neq _ 0)) by done. lia.
Qed.

Lemma wp_bmap_fs p dk l V i k L Q s :
  let ip := inode_of s i in let sb := k_sb s in
  txn start size p dk l V ∅ s -> (i < length (k_itable s))%nat -> fs_ok start size V sb -> inode_ok V sb ip ->
  0 <= k < MAXFILE -> nz (slot V ip k) <= spare V sb ip ->
  l ⊆ L -> map_blocks sb ⊆ L -> Z.of_nat (length L) + 3 < size -> P dk ->
  (forall a l' V' ip' s', a = slot V' ip' k -> txn start size p dk l' V' ∅ s' -> iframe p i ip' s s' -> extended sb V ip V' ip' ->
     slot V' ip' k <> 0 -> spare V sb ip <= spare V' sb ip' + nz (slot V ip k) ->
     l' ⊆ slot V' ip' k :: ind_l V' ip' ++ L -> Q a s') ->
  wpc (seq_rely p) C (bmap i k) Q s.
Proof.
  intros ip sb Ht Hi Hfs Hok Hk Hsp HlL HmL Hroom HP HQ. pose proof (fs_layout _ _ _ _ Hfs) as Hl.
  assert (Hnz : 0 <= nz (slot V ip k)) by (unfold nz; destruct (_ =? 0); lia).
  unfold bmap, geti. wp_step. wp_step. fold ip. destruct (Z.ltb_spec k (Z.of_nat NDIRECT)) as [Hd|Hd].
  - assert (Es : addr_at ip (Z.to_nat k) = slot V ip k).
    { unfold slot. rewrite (proj2 (Z.eqb_neq k _)), (proj2 (Z.ltb_lt k _)) by lia. done. }
    rewrite Es. destruct (Z.eqb_spec (slot V ip k) 0) as [E0|E0].
    + wp_step. rewrite (io_dev _ _ _ Hok). unfold spare, nz in Hsp. rewrite E0 in Hsp. cbn [Z.eqb] in Hsp.
      apply (wp_balloc_fs p dk l V ∅ L); fold sb; [done|done|rewrite map_size_empty; lia| | |done|done|lia|done|].
      { intros bn []. by rewrite lookup_empty in *. }
      { destruct (slot V ip MAXFILE =? 0); lia. }
      intros b V' l' s' Hal Ht' Hf Hl'. pose proof (fill_direct start size geom sb V ip k b V' Hok Hl Hal ltac:(lia) E0) as Hfi.
      pose proof (fi_slot _ _ _ _ _ _ _ _ _ Hfi k ltac:(lia)) as Ek. rewrite Z.eqb_refl in Ek.
      unfold set_addr, modi. do 3 wp_step. eapply HQ; [symmetry; exact Ek|by apply view_inode| |by eapply extended_filled|rewrite Ek| |].
      * apply (iframe_upd p i (fun ip => set_i_addrs (<[Z.to_nat k := b]> (i_addrs ip)) ip)); [done|by apply iframe_id].
      * pose proof (al_range _ _ _ _ _ _ Hal). pose proof (layout_pos start size geom sb Hl). lia.
      * unfold spare, nz. rewrite E0, (fi_nfree _ _ _ _ _ _ _ _ _ Hfi), (fi_slot _ _ _ _ _ _ _ _ _ Hfi) by (rewrite maxfile_eq; lia).
        rewrite (proj2 (Z.eqb_neq MAXFILE k)) by lia. cbn [Z.eqb]. lia.
      * rewrite Ek. set_solver.
    + wp_step. eapply HQ; [done|done|apply iframe_id, frame_refl|by apply extended_refl|done|lia|set_solver].
  - destruct (Z.ltb_spec (k - Z.of_nat NDIRECT) NINDIRECT) as [_|Hc]; [|unfold MAXFILE in Hk; lia]. wp_step.
    apply (wp_bmap_ind p dk l V i L); [done|done|done|done|fold ip sb; lia|done|done|lia|done|]. fold ip sb.
    intros a1 l1 V1 ip1 s1 -> Ht1 Hf1 Hx1 HX1 Hs1 Esp Hl1. rewrite (io_dev _ _ _ Hok).
    pose proof (iframe_inode _ _ _ _ _ Hi Hf1) as E1. pose proof (iframe_sb _ _ _ _ _ Hf1) as Esb. fold sb in Esb.
    assert (Hi1 : ind_l V1 ip1 = [slot V1 ip1 MAXFILE]) by (unfold ind_l; by rewrite (proj2 (Z.eqb_neq _ 0))).
    rewrite <- E1. eapply (wp_bmap_entry p dk l1 V1 i k (ind_l V1 ip1 ++ L)); rewrite ?E1, ?Esb;
      [done|apply Hx1|apply Hx1|lia|done|rewrite Hs1 by done; lia|done|set_solver|rewrite Hi1; simpl; lia|done|].
    intros a2 l2 V2 s2 -> Ht2 Hf2 Hx2 Hk2 Hsp2 Hl2.
    assert (HX2 : slot V2 ip1 MAXFILE = slot V1 ip1 MAXFILE) by done.
    eapply HQ; [done|done|by eapply iframe_frame|by eapply extended_trans|done|rewrite Hs1 in Hsp2 by done; lia|].
    intros x Hx%Hl2. unfold ind_l at 1. rewrite HX2. fold (ind_l V1 ip1). rewrite Hi1 in *. set_solver.
Qed.
End Bmap.
