(* ===== verification/FsInode.v ===== *)
(** * In-memory inodes: ilock, iunlock, iput, iget and the table of references *)
From S2P Require Import Prelude Memory State Kalloc Vm Sched SchedSpec Sleeplock Virtio VirtioSpec Bio BioSpec Codec Log LogSpec LogCrash Txn Fs FsCodec FsSpec FsAlloc.

(** ** Locks of inodes *)
Lemma inode_of_sl i x s : (i < length (k_itable s))%nat ->
  inode_of (sl_set (SL_inode i) x s) i = set_i_lock x (inode_of s i).
Proof.
  intros Hi. unfold inode_of, sl_set, upd_inode, set_itable. cbn. rewrite list_lookup_alter_eq.
  by destruct (lookup_lt_is_Some_2 _ _ Hi) as [ip ->].
Qed.

Lemma sl_set_back i x y s : i_lock (inode_of s i) = x -> sl_set (SL_inode i) x (sl_set (SL_inode i) y s) = s.
Proof.
  intros Hx. unfold sl_set, upd_inode, set_itable. cbn.
  replace (alter _ i (alter _ i (k_itable s))) with (k_itable s); [by destruct s|].
  apply list_eq. intros k. destruct (decide (k = i)) as [->|]; [|by rewrite !list_lookup_alter_ne by done].
  rewrite !list_lookup_alter_eq. unfold inode_of in Hx. destruct (k_itable s !! i) as [ip|]; [|done].
  cbn in *. rewrite <- Hx. by destruct ip.
Qed.

Lemma rest_eq_sl p i x s s' : rest_eq p s s' -> rest_eq p (sl_set (SL_inode i) x s) (sl_set (SL_inode i) x s').
Proof. intros (ps & vd & bc & dk & E & ->). by exists ps, vd, bc, dk. Qed.

Section Ilock.
Context `{KI : KernelImage} `{VD : VirtioDevice} `{VDOK : !VirtioDeviceOk}.
Context {C : kstate -> Prop}.

Lemma wp_ilock_valid p i Q s :
  seq_ok p s -> 1 <= i_ref (inode_of s i) -> i_valid (inode_of s i) = true -> (i < length (k_itable s))%nat ->
  sl_locked (i_lock (inode_of s i)) = false ->
  Q tt (sl_set (SL_inode i) (mkSleeplock true (pid_of p s)) s) ->
  wpc (seq_rely p) C (ilock (Some i)) Q s.
Proof.
  intros Hs Hr Hv Hi Hl HQ. unfold ilock, geti. wp_step. wp_step. rewrite (proj2 (Z.ltb_ge _ _)) by lia. wp_step.
  apply (wp_acquiresleep _ p); [rewrite (so_held _ _ Hs); apply not_elem_of_nil|apply Hs|done|].
  do 2 wp_step. rewrite inode_of_sl by done. change (i_valid (set_i_lock _ ?x)) with (i_valid x). rewrite Hv. cbn [negb].
  by apply wp_when.
Qed.

Lemma wp_iunlock p i Q s :
  seq_ok p s -> 1 <= i_ref (inode_of s i) -> i_lock (inode_of s i) = mkSleeplock true (pid_of p s) ->
  Q tt (set_proc (imap (woken (sl_chan (SL_inode i)) (Some p))) (sl_set (SL_inode i) (mkSleeplock false 0) s)) ->
  wpc (seq_rely p) C (iunlock (Some i)) Q s.
Proof.
  intros Hs Hr Hl HQ. unfold iunlock, geti. wp_step.
  apply (wp_holdingsleep _ p); [rewrite (so_held _ _ Hs); apply not_elem_of_nil|apply Hs|].
  unfold sl_of. rewrite Hl. cbn [sl_locked sl_pid]. fold (pid_of p s). rewrite Z.eqb_refl. do 2 wp_step.
  rewrite (proj2 (Z.ltb_ge _ _)) by lia. cbn [negb andb orb].
  apply wp_releasesleep; [rewrite (so_held _ _ Hs); apply not_elem_of_nil| |apply Hs|].
  - intros j. rewrite (so_held _ _ Hs). apply not_elem_of_nil.
  - by rewrite (so_cur _ _ Hs).
Qed.

End Ilock.

(** ** Inodes on disk *)

(** The inode's block read as a dinode, and an in-memory inode filled from it. *)
Definition dino (V : gmap Z block) (sb : superblock) (inum : Z) : dinode := rd_dinode (dblk V (IBLOCK inum sb)) (di_off inum).
Definition fill_ino (di : dinode) (ip : inode) : inode :=
  set_i_valid true (set_i_addrs (di_addrs di) (set_i_size (di_size di) (set_i_nlink (di_nlink di)
    (set_i_minor (di_minor di) (set_i_major (di_major di) (set_i_type (di_type di) ip)))))).
Definition load (V : gmap Z block) (sb : superblock) (ip : inode) : inode :=
  if i_valid ip then ip else fill_ino (dino V sb (i_inum ip)) ip.

Section Inode.
Context `{KI : KernelImage} `{VD : VirtioDevice} `{VDOK : !VirtioDeviceOk}.
Context (start size : Z) (geom : 0 < start /\ 1 < size <= LOGSIZE /\ start + size < 2 ^ 31).
Variable P : gmap Z block -> Prop.
Let C (s : kstate) : Prop := P (k_disk s).

Lemma view_seq {live} p dk l V H s : view start size live p dk l V H s -> seq_ok p s.
Proof. intros [act Ht]. exact (bo_seq _ _ _ (tn_bio _ _ _ _ _ _ _ _ _ _ Ht)). Qed.
Lemma view_held {live} p dk l V H s : view start size live p dk l V H s -> k_held s = [].
Proof. intros Ht. exact (so_held _ _ (view_seq _ _ _ _ _ _ Ht)). Qed.

(** ilock, whether or not the inode's fields are in memory. *)
Lemma wp_ilock {live} p dk l V i Q s :
  let ip := inode_of s i in let bn := IBLOCK (i_inum ip) (k_sb s) in
  view start size live p dk l V ∅ s -> (i < length (k_itable s))%nat -> 1 <= i_ref ip -> sl_locked (i_lock ip) = false ->
  i_dev ip = ROOTDEV -> 0 <= bn < 2 ^ 31 -> (i_valid ip = false -> di_type (dino V (k_sb s) (i_inum ip)) <> 0) -> P dk ->
  (forall s', view start size live p dk l V ∅ s' ->
     iframe p i (set_i_lock (mkSleeplock true (pid_of p s)) (load V (k_sb s) ip)) s s' -> Q tt s') ->
  wpc (seq_rely p) C (ilock (Some i)) Q s.
Proof.
  intros ip bn Ht Hi Hr Hl Hdev Hbn Hty HP HQ. pose proof (view_seq _ _ _ _ _ _ Ht) as Hs. unfold ilock, geti.
  wp_step. wp_step. fold ip. rewrite (proj2 (Z.ltb_ge _ _)) by lia. wp_step.
  apply (wp_acquiresleep _ p); [rewrite (so_held _ _ Hs); apply not_elem_of_nil|apply Hs|done|]. fold (pid_of p s).
  set (lk := mkSleeplock true (pid_of p s)) in *. set (s1 := sl_set (SL_inode i) lk s). do 2 wp_step.
  assert (E1 : inode_of s1 i = set_i_lock lk ip) by by apply inode_of_sl.
  assert (Ht1 : view start size live p dk l V ∅ s1) by (by apply (view_inode start size p dk l V ∅ i (set_i_lock lk))).
  rewrite E1. change (i_valid (set_i_lock lk ip)) with (i_valid ip). unfold load in HQ.
  assert (Hf1 : iframe p i (set_i_lock lk ip) s s1) by (apply (iframe_upd p i (set_i_lock lk)); [done|apply iframe_id, frame_refl]).
  destruct (i_valid ip) eqn:Ev; cbn [negb].
  { apply wp_when; [done|]. intros _. by apply HQ. }
  apply wp_when; [|done]. intros _. unfold getsb. wp_step. wp_step. change (k_sb s1) with (k_sb s).
  change (i_inum (set_i_lock lk ip)) with (i_inum ip). change (i_dev (set_i_lock lk ip)) with (i_dev ip). fold bn. rewrite Hdev.
  pose proof (txn_room _ _ geom _ _ _ _ _ _ Ht1). wp_step.
  eapply (wp_tx_bread start size geom P p); [done|apply lookup_empty|rewrite map_size_empty; unfold NBUF; lia|done|done|].
  intros b s2 Ht2 Hr2%rest_frame. pose proof (txn_buf _ _ _ _ _ _ _ _ _ _ _ Ht2 (lookup_insert_eq _ _ _)) as Eb.
  unfold getd, getb, modi. do 2 wp_step. rewrite (frame_inode _ _ _ i Hr2), E1. do 5 wp_step. rewrite Eb. cbn [b_data].
  change (i_inum (set_i_lock lk ip)) with (i_inum ip). set (di := dino V (k_sb s) (i_inum ip)) in *.
  change (rd_dinode (dblk V bn) (di_off (i_inum ip))) with di.
  do 12 wp_step. rewrite !upd_inode_upd.
  eapply (wp_view_brelse start size P p); [by apply view_inode|]. intros s3 Ht3 Hr3%rest_frame. do 4 wp_step.
  set (g := fun x : inode => set_i_addrs _ _) in Hr3.
  assert (Hf3 : iframe p i (set_i_valid true (g (set_i_lock lk ip))) s (upd_inode i (set_i_valid true) s3)).
  { apply (iframe_upd p i (set_i_valid true)); [done|]. eapply iframe_frame; [|exact Hr3].
    apply (iframe_upd p i g); [done|]. by eapply iframe_frame. }
  assert (Eg : set_i_valid true (g (set_i_lock lk ip)) = set_i_lock lk (fill_ino di ip)) by done. rewrite Eg in Hf3.
  rewrite (iframe_inode _ _ _ _ _ Hi Hf3). change (i_type (set_i_lock lk (fill_ino di ip))) with (di_type di).
  rewrite (proj2 (Z.eqb_neq _ 0)) by auto. wp_step. apply HQ; [by apply view_inode|done].
Qed.

(** iput when it is not the last reference to a deleted file. *)
Lemma wp_iput_keep {R C'} i Q s :
  let ip := inode_of s i in
  L_itable ∉ k_held s -> (i_ref ip =? 1) && i_valid ip && (i_nlink ip =? 0) = false ->
  Q tt (upd_inode i (fun ip => set_i_ref (s32 (i_ref ip - 1)) ip) s) ->
  wpc R C' (iput i) Q s.
Proof.
  intros ip Hh Hk HQ. unfold iput, geti, modi. wp_step. apply wp_acquire; [done|]. do 3 wp_step.
  change (inode_of (set_held _ s) i) with ip. rewrite Hk. apply wp_when; [done|]. intros _. do 4 wp_step.
  change (inode_of (set_held _ s) i) with ip. eapply wp_release_last; [done|done|]. rewrite release_inode.
  replace (upd_inode i (set_i_ref (s32 (i_ref ip - 1))) s) with (upd_inode i (fun ip => set_i_ref (s32 (i_ref ip - 1)) ip) s); [done|].
  unfold upd_inode, set_itable. f_equal. apply alter_ext_at. intros x Hx. unfold ip. by rewrite (inode_of_lookup _ _ _ Hx).
Qed.
End Inode.
