(* ===== verification/FsTheorems.v ===== *)
(** * What fs.c guarantees

    Inodes on disk and in memory, files as byte arrays, directories as finite
    maps, the free map, and path parsing. *)
From S2P Require Import Prelude Memory State Kalloc Vm Sched SchedSpec Sleeplock Virtio VirtioSpec Bio BioSpec Codec Log LogSpec LogCrash Txn Fs FsCodec FsSpec.

(** Skipelem takes the first component off a path, as splitting the path at
    its slashes defines it: it returns 0 exactly when there is none; otherwise
    [name] holds the component cut to DIRSIZ bytes, the rest of the path has the
    remaining components, no leading slash and fewer characters, and is empty
    exactly when the component was the last. *)
Theorem skipelem_correct path name :
  Forall (fun c => c <> 0) path -> length name = DIRSIZ ->
  match path_elems path with
  | [] => skipelem path name = None
  | e :: es => exists rest name', skipelem path name = Some (rest, name') /\
      cut0 name' = take DIRSIZ e /\ length name' = DIRSIZ /\
      path_elems rest = es /\ head rest <> Some slash /\ (length rest < length path)%nat /\ (rest = [] <-> es = [])
  end.
Proof. apply skipelem_spec. Qed.

Definition demo_path : list Z := [47; 47; 97; 47; 98; 98; 47; 47; 99].
Lemma skipelem_correct_witness :
  exists rest name', skipelem demo_path name0 = Some (rest, name') /\ cut0 name' = [97] /\ path_elems rest = [[98; 98]; [99]].
Proof.
  assert (H1 : Forall (fun c => c <> 0) demo_path) by (repeat constructor; discriminate).
  pose proof (skipelem_correct demo_path name0 H1 eq_refl) as H.
  assert (E : path_elems demo_path = [[97]; [98; 98]; [99]]) by (vm_compute; reflexivity).
  rewrite E in H. destruct H as (rest & name' & Hs & Hc & _ & Hr & _). exists rest, name'. done.
Defined.

(** The dinode an in-memory inode is written as. *)
Definition dinode_of (ip : inode) : dinode :=
  mkDinode (i_type ip) (i_major ip) (i_minor ip) (i_nlink ip) (i_size ip) (i_addrs ip).

Section FsTheorems.
Context `{KI : KernelImage} `{VD : VirtioDevice} `{VDOK : !VirtioDeviceOk}.
Context (start size : Z) (geom : 0 < start /\ 1 < size <= LOGSIZE /\ start + size < 2 ^ 31).
Variable P : gmap Z block -> Prop.

Lemma wp_iupdate p dk l V i Q s :
  let ip := inode_of s i in let bn := IBLOCK (i_inum ip) (k_sb s) in
  txn start size p dk l V ∅ s -> i_dev ip = ROOTDEV -> 0 <= bn < 2 ^ 31 -> ~ in_log start size bn ->
  Z.of_nat (length l) + 1 < size -> P dk ->
  (forall s', txn start size p dk (logged bn l) (<[bn := wr_dinode (di_off (i_inum ip)) (dinode_of ip) (dblk V bn)]> V) ∅ s' ->
     frame p s s' -> Q tt s') ->
  wpc (seq_rely p) (fun s => P (k_disk s)) (iupdate i) Q s.
Proof.
  intros ip bn Ht Hdev Hbn Hnl Hroom HP HQ. unfold iupdate, geti, getsb, modd, modb. do 4 wp_step. fold ip.
  rewrite Hdev. fold bn. pose proof (txn_room _ _ geom _ _ _ _ _ _ Ht). wp_step.
  eapply (wp_tx_bread start size geom P p); [done|apply lookup_empty|rewrite map_size_empty; unfold NBUF; lia|done|done|].
  intros b s1 Ht1 Hr1. pose proof (txn_buf _ _ _ _ _ _ _ _ _ _ _ Ht1 (lookup_insert_eq _ _ _)) as Eb.
  do 3 wp_step. rewrite (frame_inode _ _ _ i (rest_frame _ _ _ Hr1)). fold ip. fold (dinode_of ip).
  wp_step. set (f := fun x : buf => set_b_data _ x).
  apply (txn_modb start size p dk l V _ s1 bn b (dblk V bn) f (wr_dinode (di_off (i_inum ip)) (dinode_of ip) (dblk V bn))) in Ht1;
    [|apply lookup_insert_eq|unfold f; by rewrite Eb]. rewrite insert_insert_eq in Ht1. wp_step.
  eapply (wp_tx_log_write start size geom P p _ _ _ _ bn b); [done|apply lookup_insert_eq|done..|].
  intros s2 Ht2 Hf2. eapply (wp_tx_brelse start size P p _ _ _ _ bn b); [done|by rewrite lookup_insert_eq, dblk_eq|].
  rewrite delete_insert_id by apply lookup_empty. intros s3 Ht3 Hr3. apply HQ; [done|].
  etrans; [apply rest_frame; exact Hr1|]. etrans; [apply rest_frame, rest_eq_bcache|]. etrans; [exact Hf2|]. by apply rest_frame.
Qed.

(** Iupdate writes the inode where ilock reads it: afterwards the logical
    disk's inode block decodes to exactly the in-memory fields, the other inodes
    of the block and all other blocks are untouched. *)
Theorem iupdate_correct p dk l V i s :
  let ip := inode_of s i in let bn := IBLOCK (i_inum ip) (k_sb s) in
  txn start size p dk l V ∅ s -> i_dev ip = ROOTDEV -> 0 <= bn < 2 ^ 31 -> ~ in_log start size bn ->
  Z.of_nat (length l) + 1 < size -> P dk -> 0 <= i_inum ip -> dinode_ok (dinode_of ip) -> length (dblk V bn) = 1024%nat ->
  wpc (seq_rely p) (fun s => P (k_disk s)) (iupdate i)
    (fun _ s' => exists V', txn start size p dk (logged bn l) V' ∅ s' /\ frame p s s' /\
       rd_dinode (dblk V' bn) (di_off (i_inum ip)) = dinode_of ip /\
       (forall j, 0 <= j -> di_off j <> di_off (i_inum ip) ->
          rd_dinode (dblk V' bn) (di_off j) = rd_dinode (dblk V bn) (di_off j)) /\
       (forall bn', bn' <> bn -> dblk V' bn' = dblk V bn')) s.
Proof.
  intros ip bn Ht Hdev Hbn Hnl Hroom HP Hi Hok Hlen.
  apply (wp_iupdate p dk l V i); [done..|]. intros s' Ht' Hf. eexists. split; [exact Ht'|]. split; [done|].
  assert (Hoff : forall j, (di_off j + 64 <= 1024)%nat /\ exists q, di_off j = (64 * q)%nat).
  { intros j. unfold di_off, IPB, BSIZE, sizeof_dinode. change (1024 / 64) with 16.
    pose proof (Z.mod_pos_bound j 16 ltac:(lia)). split; [lia|]. exists (Z.to_nat (j mod 16)). lia. }
  fold ip bn. rewrite dblk_eq. split_and!.
  - apply rd_dinode_wr; [done|]. rewrite Hlen. apply Hoff.
  - intros j Hj Hne. apply rd_dinode_wr_ne; [apply Hok|].
    destruct (Hoff j) as [_ [q Eq]]. destruct (Hoff (i_inum ip)) as [_ [q' E]]. lia.
  - intros bn' Hne. by rewrite dblk_ne.
Qed.

(** C13: readi delivers exactly the file's bytes: the part of the [n] bytes at
    [off] that lies inside the file, through direct and indirect blocks, to the
    kernel buffer it is given, inside a transaction or outside; it changes
    neither the logical disk nor the inode nor any other memory. *)
Theorem readi_correct live p dk l V i dst off n s :
  view start size live p dk l V ∅ s -> file_ok V (inode_of s i) -> in_kernel dst ->
  0 <= off < 2 ^ 32 -> 0 <= n -> off + n < 2 ^ 32 -> P dk ->
  wpc (seq_rely p) (fun s => P (k_disk s)) (readi i dst off n)
    (fun r s' => let m := read_len (inode_of s i) off n in let bs := fbytes V (inode_of s i) off m in
       r = (m, bs) /\ view start size live p dk l V ∅ s' /\ rest_eq p (set_mem (delivered dst bs) s) s') s.
Proof. intros. apply (wp_readi start size geom P (live := live) p dk l V); [done..|]. intros s' m bs Ht' Hf. by split_and!. Qed.


(** C34: balloc returns the first block that the free map marks free, marks it
    and no other, and zeroes it; every block but the map's is otherwise
    unchanged. *)
Theorem balloc_correct p dk l V bno s :
  let bb := BBLOCK bno (k_sb s) in
  txn start size p dk l V ∅ s -> map_ok start size V (k_sb s) -> first_free V (k_sb s) bno ->
  (forall b, 0 <= b < sb_size (k_sb s) -> BBLOCK b (k_sb s) <> bno) -> length (dblk V bb) = 1024%nat ->
  Z.of_nat (length l) + 2 < size -> P dk ->
  wpc (seq_rely p) (fun s => P (k_disk s)) (balloc ROOTDEV)
    (fun r s' => r = bno /\ exists V', txn start size p dk (logged bno (logged bb l)) V' ∅ s' /\ frame p s s' /\
       dblk V' bno = zblock /\
       (forall b, 0 <= b < sb_size (k_sb s) -> used V' (k_sb s) b = if b =? bno then true else used V (k_sb s) b) /\
       (forall bn, bn <> bno -> bn <> bb -> dblk V' bn = dblk V bn)) s.
Proof.
  intros bb Ht Hmap Hff Hself Hlen Hroom HP.
  apply (wp_balloc start size geom P p dk l V ∅ bno); [done|intros; apply lookup_empty|apply lookup_empty|rewrite map_size_empty; lia|done..|]. intros s' Ht' Hf. split; [done|].
  eexists. split; [exact Ht'|]. split; [done|]. fold bb. pose proof Hff as (Hb & _ & _). split_and!.
  - by rewrite dblk_eq.
  - intros b Hbr. rewrite <- (used_mark start size V (k_sb s) bno b) by done. unfold used.
    by rewrite dblk_ne by (apply not_eq_sym, Hself; lia).
  - intros bn H1 H2. by rewrite !dblk_ne.
Qed.

(** bfree clears the block's bit and no other. *)
Theorem bfree_correct p dk l V b s :
  let bb := BBLOCK b (k_sb s) in
  txn start size p dk l V ∅ s -> map_ok start size V (k_sb s) -> 0 <= b < sb_size (k_sb s) -> used V (k_sb s) b = true ->
  length (dblk V bb) = 1024%nat -> Z.of_nat (length l) + 1 < size -> P dk ->
  wpc (seq_rely p) (fun s => P (k_disk s)) (bfree ROOTDEV b)
    (fun _ s' => exists V', txn start size p dk (logged bb l) V' ∅ s' /\ frame p s s' /\
       (forall b', 0 <= b' < sb_size (k_sb s) -> used V' (k_sb s) b' = if b' =? b then false else used V (k_sb s) b') /\
       (forall bn, bn <> bb -> dblk V' bn = dblk V bn)) s.
Proof.
  intros bb Ht Hmap Hb Hu Hlen Hroom HP.
  apply (wp_bfree start size geom P p dk l V ∅ b); [done|apply lookup_empty|rewrite map_size_empty; lia|done..|]. intros s' Ht' Hf.
  eexists. split; [exact Ht'|]. split; [done|]. split.
  - intros b' Hb'. by apply (used_unmark start size).
  - intros bn Hne. by rewrite dblk_ne.
Qed.
End FsTheorems.
