(* ===== verification/FsWrite.v ===== *)
(** * writei: what it does to the file, the free map and the log *)
From S2P Require Import Prelude Memory State Kalloc PageTable Vm VmSpec UserMem UserCopy Sched SchedSpec Sleeplock Virtio VirtioSpec Bio BioSpec Codec Log LogSpec LogCrash Txn Fs FsCodec FsSpec FsAlloc FsTheorems.

(** ** Sources *)

(** [src] stands for the bytes [bs] in state [s]; for a user address these are
    what the process itself would read there. *)
Definition src_has `{KI : KernelImage} (p : nat) (s : kstate) (src : iosrc) (bs : list Z) : Prop :=
  match src with
  | SLocal b => b = bs
  | SKern pa => bytes (k_mem s) pa (length bs) = bs
  | SUser va => 0 <= va /\ va + Z.of_nat (length bs) < 2 ^ 64 /\
      (exists T, pt_wf (k_mem s) T (p_pagetable (proc_of s p))) /\ ubytes (k_mem s) (p_pagetable (proc_of s p)) va bs
  end.

Lemma frame_mem p s s' : frame p s s' -> k_mem s' = k_mem s.
Proof. by intros (lg & ps & vd & bc & dk & _ & ->). Qed.
Lemma frame_proc p s s' : frame p s s' -> proc_of s' p = proc_of s p.
Proof. intros (lg & ps & vd & bc & dk & E & ->). unfold proc_of. cbn [k_proc set_proc]. by rewrite E. Qed.

Section Source.
Context `{KI : KernelImage} `{KOK : !KernelImageOk}.

Lemma wp_source {R C} p s src bs s' tot m (Q : Z * list Z -> kstate -> Prop) :
  src_has p s src bs -> k_mem s' = k_mem s -> proc_of s' p = proc_of s p -> k_cur s' = Some p ->
  0 <= tot -> 0 <= m -> tot + m <= Z.of_nat (length bs) -> Z.of_nat (length bs) < 2 ^ 64 ->
  Q (0, take (Z.to_nat m) (drop (Z.to_nat tot) bs)) s' ->
  wpc R C (either_copyin (src_add src tot) m) Q s'.
Proof.
  intros Hsrc Hm Hp Hc Ht Hm0 Hle Hlen HQ. destruct src as [va|pa|b]; cbn [src_add either_copyin].
  - destruct Hsrc as (Hva & Hva' & (T & Hpt) & Hu). wp_step. apply (wp_curproc p); [done|]. unfold getp. do 2 wp_step.
    rewrite Hp. rewrite u64_small by lia. apply wp_wpc. rewrite <- Hm in Hpt, Hu.
    assert (Hb : forall dst, ubytes (k_mem s') (p_pagetable (proc_of s p)) (va + tot) dst -> Z.of_nat (length dst) <= m ->
      dst = take (length dst) (drop (Z.to_nat tot) bs)).
    { intros dst Hd Hl. apply list_eq. intros j. destruct (decide (j < length dst)%nat) as [Hj|Hj].
      - rewrite lookup_take_lt, lookup_drop by done. destruct (lookup_lt_is_Some_2 dst j Hj) as [x Hx].
        destruct (lookup_lt_is_Some_2 bs (Z.to_nat tot + j)) as [y Hy]; [lia|]. rewrite Hx, Hy.
        apply Hd in Hx. apply Hu in Hy. replace (va + Z.of_nat (Z.to_nat tot + j)) with (va + tot + Z.of_nat j) in Hy by lia. congruence.
      - rewrite (lookup_ge_None_2 dst), lookup_take_ge by lia. done. }
    apply (wp_copyin (p_pagetable (proc_of s p)) (va + tot) m T); [done|lia|lia| |].
    + intros dst Hl Hd. rewrite (Hb dst Hd) by lia. replace (length dst) with (Z.to_nat m) by lia. done.
    + intros dst Hl Hd Hn. exfalso. destruct (lookup_lt_is_Some_2 bs (Z.to_nat tot + length dst)) as [y Hy]; [lia|].
      apply Hu in Hy. replace (va + Z.of_nat (Z.to_nat tot + length dst)) with (va + tot + Z.of_nat (length dst)) in Hy by lia. congruence.
  - cbn in Hsrc. do 3 wp_step. rewrite Hm. replace (bytes (k_mem s) (pa + tot) (Z.to_nat m)) with (take (Z.to_nat m) (drop (Z.to_nat tot) bs)); [done|].
    rewrite <- Hsrc. apply list_eq. intros j. destruct (decide (j < Z.to_nat m)%nat).
    + rewrite lookup_take_lt, lookup_drop, !bytes_lookup by lia. do 2 f_equal. lia.
    + rewrite lookup_take_ge by lia. symmetry. apply lookup_ge_None_2. rewrite bytes_length. lia.
  - cbn in Hsrc. subst b. by wp_step.
Qed.
End Source.

(** ** One block *)

(** Bytes of a block after some of them have been replaced. *)
Lemma rd8_wrbytes o bs d j : (o + length bs <= length d)%nat ->
  rd8 (wrbytes o bs d) j = if decide (o <= j < o + length bs)%nat then default 0 (bs !! (j - o)%nat) else rd8 d j.
Proof.
  intros Hl. unfold rd8, wrbytes. destruct (decide _) as [Hj|Hj].
  - rewrite lookup_app_r by (rewrite length_take; lia). rewrite length_take, Nat.min_l by lia. by rewrite lookup_app_l by lia.
  - destruct (decide (j < o)%nat).
    + rewrite lookup_app_l by (rewrite length_take; lia). by rewrite lookup_take_lt.
    + rewrite lookup_app_r by (rewrite length_take; lia). rewrite length_take, Nat.min_l by lia.
      rewrite lookup_app_r, lookup_drop by lia. do 2 f_equal. lia.
Qed.

Section Block.
Context (start size : Z) (geom : 0 < start /\ 1 < size <= LOGSIZE /\ start + size < 2 ^ 31).

(** Bytes of a file, in terms of its blocks. *)
Lemma fbyte_slot V ip o : 0 <= o / BSIZE < MAXFILE -> slot V ip (o / BSIZE) <> 0 ->
  fbyte V ip o = rd8 (dblk V (slot V ip (o / BSIZE))) (Z.to_nat (o mod BSIZE)).
Proof. intros Hk Hnz. unfold fbyte. by rewrite <- slot_blk. Qed.

Lemma fbyte_extended sb V ip V' ip' o :
  extended start size sb V ip V' ip' -> 0 <= o / BSIZE < MAXFILE -> slot V ip (o / BSIZE) <> 0 ->
  slot V' ip' (o / BSIZE) = slot V ip (o / BSIZE) /\ fbyte V' ip' o = fbyte V ip o.
Proof.
  intros [_ _ Hg Hd] Hk Hnz. pose proof (gr_slot _ _ _ _ _ Hg (o / BSIZE) ltac:(lia) Hnz) as E. split; [done|].
  rewrite !fbyte_slot by (done || by rewrite E). rewrite E. by rewrite Hd.
Qed.

(** Replacing the data of block [k] of a file. *)
Lemma write_data sb V ip k d :
  let V' := <[slot V ip k := d]> V in
  fs_ok start size V sb -> inode_ok V sb ip -> 0 <= k < MAXFILE -> slot V ip k <> 0 -> length d = 1024%nat ->
  fs_ok start size V' sb /\ inode_ok V' sb ip /\ grows sb V ip V' ip /\ spare V' sb ip = spare V sb ip /\
  (forall k', slot V' ip k' = slot V ip k') /\
  (forall o, 0 <= o / BSIZE < MAXFILE -> slot V ip (o / BSIZE) <> 0 ->
     fbyte V' ip o = if o / BSIZE =? k then rd8 d (Z.to_nat (o mod BSIZE)) else fbyte V ip o).
Proof.
  intros V' Hfs Hok Hk Hnz Hd. pose proof Hfs as [Hl Hlen Hm]. pose proof Hok as [H1 H2 H3 H4 H5 H6].
  pose proof (layout_pos start size geom sb Hl) as (_ & _ & Hdp). destruct (H4 k ltac:(lia) Hnz) as [Hr Hu]. set (a := slot V ip k) in *.
  assert (Hs : forall k', slot V' ip k' = slot V ip k').
  { intros k'. apply slot_ext. intros HX. unfold V'. rewrite dblk_ne; [done|]. intros E.
    assert (k = MAXFILE); [|lia]. apply H5; [lia|rewrite maxfile_eq; lia|done|done]. }
  assert (Hus : forall b, 0 <= b < sb_size sb -> used V' sb b = used V sb b).
  { intros b Hb. apply (used_other start size geom); [|done|done]. intros bn Hbn. unfold V'. apply dblk_ne.
    apply (map_blocks_range start size geom sb bn Hl) in Hbn. lia. }
  split_and!.
  - split; [done| |].
    + intros bn. unfold V'. destruct (decide (a = bn)) as [<-|]; [by rewrite dblk_eq|by rewrite dblk_ne].
    + intros b Hb. rewrite Hus by (destruct Hl; lia). by apply Hm.
  - split; try done.
    + intros k'. rewrite Hs. intros Hk' Hz. destruct (H4 k' Hk' Hz). split; [done|]. by rewrite Hus by lia.
    + intros k1 k2. rewrite !Hs. apply H5.
    + intros k'. rewrite Hs. apply H6.
  - split; [by intros; rewrite Hs|intros k' _; by rewrite Hs| | | |by destruct ip].
    + intros b Hb _ Hno _. unfold V'. apply dblk_ne. intros <-. apply Hno. split; [done|]. exists k. split; [lia|done].
    + intros b Hb. by rewrite Hus.
    + intros b Hb. rewrite Hus by done. congruence.
  - unfold spare. rewrite Hs. by rewrite (nfree_ext V V').
  - done.
  - intros o Ho Hzo. rewrite !fbyte_slot by (done || by rewrite Hs). rewrite Hs. unfold V'. destruct (Z.eqb_spec (o / BSIZE) k) as [E|E].
    + rewrite E. fold a. by rewrite dblk_eq.
    + rewrite dblk_ne; [done|]. intros Ea. apply E. symmetry. apply H5; [lia|lia|done|done].
Qed.

(** Replacing a block before the free map, as an inode's. *)
Lemma write_meta sb V ip b d :
  let V' := <[b := d]> V in
  fs_ok start size V sb -> inode_ok V sb ip -> 0 <= b < sb_bmapstart sb -> length d = 1024%nat ->
  fs_ok start size V' sb /\ inode_ok V' sb ip /\ (forall k', slot V' ip k' = slot V ip k') /\
  (forall b', 0 <= b' < sb_size sb -> used V' sb b' = used V sb b') /\
  (forall o, 0 <= o / BSIZE < MAXFILE -> slot V ip (o / BSIZE) <> 0 -> fbyte V' ip o = fbyte V ip o).
Proof.
  intros V' Hfs Hok Hb Hd. pose proof Hfs as [Hl Hlen Hm]. pose proof Hok as [H1 H2 H3 H4 H5 H6].
  pose proof (layout_pos start size geom sb Hl) as (_ & Hnb & Hdp).
  assert (Hne : forall k, 0 <= k <= MAXFILE -> slot V ip k <> 0 -> dblk V' (slot V ip k) = dblk V (slot V ip k)).
  { intros k Hk Hnz. apply dblk_ne. destruct (H4 k Hk Hnz). unfold dstart in *. lia. }
  assert (Hs : forall k', slot V' ip k' = slot V ip k').
  { intros k'. apply slot_ext. apply Hne. rewrite maxfile_eq. lia. }
  assert (Hus : forall b', 0 <= b' < sb_size sb -> used V' sb b' = used V sb b').
  { intros b' Hb'. apply (used_other start size geom); [|done|done]. intros bn Hbn. unfold V'. apply dblk_ne.
    apply (map_blocks_range start size geom sb bn Hl) in Hbn. lia. }
  split_and!; [| |done|done|].
  - split; [done| |].
    + intros bn. unfold V'. destruct (decide (b = bn)) as [<-|]; [by rewrite dblk_eq|by rewrite dblk_ne].
    + intros b' Hb'. rewrite Hus by (destruct Hl; lia). by apply Hm.
  - split; try done.
    + intros k'. rewrite Hs. intros Hk' Hz. destruct (H4 k' Hk' Hz). split; [done|]. by rewrite Hus by lia.
    + intros k1 k2. rewrite !Hs. apply H5.
    + intros k'. rewrite Hs. apply H6.
  - intros o Ho Hzo. rewrite !fbyte_slot by (done || by rewrite Hs). rewrite Hs. rewrite Hne; [done|lia|done].
Qed.

(** The block of an inode. *)
Lemma iblock_range sb inum : layout start size sb -> 0 <= inum < sb_ninodes sb ->
  0 < IBLOCK inum sb < sb_bmapstart sb /\ IBLOCK inum sb < 2 ^ 31 /\ ~ in_log start size (IBLOCK inum sb).
Proof.
  intros Hl Hi. pose proof (layout_pos start size geom sb Hl). destruct Hl as [L1 [L2 L2'] L3 L4]. unfold IBLOCK.
  assert (0 <= inum / IPB <= sb_ninodes sb / IPB) by (split; [apply Z.div_pos|apply Z.div_le_mono]; (lia || done)).
  unfold dstart, in_log, BPB, BSIZE in *. rewrite u32_small by lia. lia.
Qed.
End Block.

(** ** The loop of writei *)

(** Byte [o] of the file once the first [tot] of the bytes [bs] are at [off]. *)
Definition wbyte (V : gmap Z block) (ip : inode) (off : Z) (bs : list Z) (tot o : Z) : Z :=
  if (off <=? o) && (o <? off + tot) then default 0 (bs !! Z.to_nat (o - off)) else fbyte V ip o.

Section Writing.
Context (start size : Z) (geom : 0 < start /\ 1 < size <= LOGSIZE /\ start + size < 2 ^ 31).

Record writing (sb : superblock) (V : gmap Z block) (ip : inode) (off : Z) (bs : list Z) (tot : Z)
    (V' : gmap Z block) (ip' : inode) : Prop := {
  wi_fs : fs_ok start size V' sb;
  wi_ok : inode_ok V' sb ip';
  wi_grows : grows sb V ip V' ip';
  wi_slot : forall o, 0 <= o < Z.max (i_size ip) (off + tot) -> slot V' ip' (o / BSIZE) <> 0;
  wi_byte : forall o, 0 <= o < Z.max (i_size ip) (off + tot) -> fbyte V' ip' o = wbyte V ip off bs tot o
}.

Lemma writing_0 sb V ip off bs : fs_ok start size V sb -> inode_ok V sb ip -> 0 <= off <= i_size ip -> writing sb V ip off bs 0 V ip.
Proof.
  intros Hfs Hok Ho. split; [done|done|apply grows_refl| |].
  - intros o Hlt. apply (io_alloc _ _ _ Hok); unfold BSIZE; [apply Z.div_pos; lia|]. zmod.
  - intros o Hlt. unfold wbyte. by destruct (Z.leb_spec off o), (Z.ltb_spec o (off + 0)); try lia.
Qed.

Lemma writing_step sb V ip off bs tot m V1 ip1 V2 ip2 :
  let k := (off + tot) / BSIZE in let oo := (off + tot) mod BSIZE in
  let d := wrbytes (Z.to_nat oo) (take (Z.to_nat m) (drop (Z.to_nat tot) bs)) (dblk V2 (slot V2 ip2 k)) in
  writing sb V ip off bs tot V1 ip1 -> extended start size sb V1 ip1 V2 ip2 -> slot V2 ip2 k <> 0 ->
  0 <= off -> 0 <= tot -> 0 < m -> oo + m <= BSIZE -> tot + m <= Z.of_nat (length bs) ->
  i_size ip <= MAXFILE * BSIZE -> off + tot + m <= MAXFILE * BSIZE ->
  writing sb V ip off bs (tot + m) (<[slot V2 ip2 k := d]> V2) ip2 /\ spare (<[slot V2 ip2 k := d]> V2) sb ip2 = spare V2 sb ip2.
Proof.
  intros k oo d [W1 W2 W3 W4 W5] Hex Hnz Ho Ht Hm Hoo Hbs Hs1 Hs2. pose proof (Z.div_mod (off + tot) BSIZE ltac:(done)) as Edm. fold k oo in Edm.
  pose proof (Z.mod_pos_bound (off + tot) BSIZE ltac:(done)) as Hmb. fold oo in Hmb. pose proof Hex as [X1 X2 X3 X4].
  assert (Hlen : length (take (Z.to_nat m) (drop (Z.to_nat tot) bs)) = Z.to_nat m) by (rewrite length_take, length_drop; lia).
  rewrite maxfile_eq in *. unfold BSIZE in Hoo, Hmb, Edm, Hs1, Hs2.
  assert (Hk : 0 <= k < MAXFILE) by (rewrite maxfile_eq; unfold k, BSIZE; split; [apply Z.div_pos|apply Z.div_lt_upper_bound]; lia).
  destruct (write_data start size geom sb V2 ip2 k d X1 X2 Hk Hnz) as (D1 & D2 & D3 & D4 & D5 & D6).
  { unfold d. rewrite length_wrbytes; rewrite (fs_len _ _ _ _ X1); [done|]. rewrite Hlen. lia. }
  assert (Hdiv : forall o, 0 <= o < Z.max (i_size ip) (off + (tot + m)) -> 0 <= o / BSIZE < MAXFILE).
  { intros o Hlt. rewrite maxfile_eq. unfold BSIZE. split; [apply Z.div_pos|apply Z.div_lt_upper_bound]; lia. }
  assert (Hold : forall o, 0 <= o < Z.max (i_size ip) (off + tot) -> slot V2 ip2 (o / BSIZE) <> 0 /\ fbyte V2 ip2 o = wbyte V ip off bs tot o).
  { intros o Hlt. destruct (fbyte_extended start size sb V1 ip1 V2 ip2 o Hex) as [E1 E2]; [apply Hdiv; lia|by apply W4|].
    rewrite E1, E2. split; [by apply W4|by apply W5]. }
  assert (Hin : forall o, off + tot <= o < off + (tot + m) -> o / BSIZE = k).
  { intros o Hlt. symmetry. apply (Z.div_unique_pos o BSIZE k (o - BSIZE * k)); unfold BSIZE; lia. }
  assert (Hsl : forall o, 0 <= o < Z.max (i_size ip) (off + (tot + m)) -> slot V2 ip2 (o / BSIZE) <> 0).
  { intros o Hlt. destruct (decide (off + tot <= o < off + (tot + m))) as [Hr|Hr]; [by rewrite (Hin o Hr)|]. apply Hold. lia. }
  split; [|done]. split; [done|done| | |].
  - eapply grows_trans; [exact X2|exact D2|apply (layout_pos start size geom sb), X1| |exact D3].
    eapply grows_trans; [exact W2|exact X2|apply (layout_pos start size geom sb), X1|exact W3|exact X3].
  - intros o Hlt. rewrite D5. by apply Hsl.
  - intros o Hlt. rewrite D6 by auto. unfold wbyte.
    assert (Hwb : ~ (off + tot <= o < off + (tot + m)) -> fbyte V2 ip2 o =
      if (off <=? o) && (o <? off + (tot + m)) then default 0 (bs !! Z.to_nat (o - off)) else fbyte V ip o).
    { intros Hr. destruct (Hold o) as [_ E]; [lia|]. rewrite E. unfold wbyte.
      destruct (Z.leb_spec off o), (Z.ltb_spec o (off + tot)), (Z.ltb_spec o (off + (tot + m))); try done; lia. }
    destruct (Z.eqb_spec (o / BSIZE) k) as [E|E].
    2: { apply Hwb. intros Hr. apply E. by apply Hin. }
    pose proof (Z.div_mod o BSIZE ltac:(done)) as Eo. rewrite E in Eo. pose proof (Z.mod_pos_bound o BSIZE ltac:(done)) as Hob. unfold BSIZE in Eo, Hob |- *.
    unfold d. rewrite rd8_wrbytes by (rewrite (fs_len _ _ _ _ X1), Hlen; lia). rewrite Hlen.
    destruct (decide _) as [Hr|Hr].
    + rewrite lookup_take_lt, lookup_drop by lia. rewrite (proj2 (Z.leb_le _ _)), (proj2 (Z.ltb_lt _ _)) by lia. cbn [andb]. do 2 f_equal. lia.
    + rewrite <- Hwb by lia. rewrite fbyte_slot by auto. unfold BSIZE in *. by rewrite E.
Qed.
End Writing.

(** ** writei *)

(** Blocks that [n] bytes at [off] overlap. *)
Definition nblk (off n : Z) : Z := (off + n + BSIZE - 1) / BSIZE - off / BSIZE.

(** How many blocks have been written when [tot] of [n] bytes are. *)
Definition done_blk (off n tot : Z) : Z := if tot <? n then (off + tot) / BSIZE - off / BSIZE else nblk off n.

Section Writei.
Context `{KI : KernelImage} `{KOK : !KernelImageOk} `{VD : VirtioDevice} `{VDOK : !VirtioDeviceOk}.
Context (start size : Z) (geom : 0 < start /\ 1 < size <= LOGSIZE /\ start + size < 2 ^ 31).
Variable P : gmap Z block -> Prop.
Let C (s : kstate) : Prop := P (k_disk s).

Lemma done_blk_next off n tot :
  let m := Z.min (n - tot) (BSIZE - (off + tot) mod BSIZE) in
  0 <= off -> 0 <= tot < n -> 0 < m /\ (off + tot) mod BSIZE + m <= BSIZE /\ tot + m <= n /\
    done_blk off n tot + 1 <= done_blk off n (tot + m) /\ done_blk off n tot + 1 <= nblk off n.
Proof.
  intros m Ho Ht. unfold done_blk, nblk. unfold BSIZE in *. pose proof (Z.mod_pos_bound (off + tot) 1024 ltac:(lia)).
  rewrite (proj2 (Z.ltb_lt tot n)) by lia. destruct (Z.ltb_spec (tot + m) n); unfold m in *; split_and!; try lia; zmod.
Qed.

(** What the loop keeps: [tot] bytes are written, [D] are the data blocks logged. *)
Definition wloop (p i : nat) (dk : gmap Z block) (V : gmap Z block) (off n : Z) (src : iosrc) (bs L : list Z) (s : kstate)
    (x : Z * Z * iosrc) (s' : kstate) : Prop :=
  let '(tot, off', src') := x in
  let ip := inode_of s i in let sb := k_sb s in
  0 <= tot <= n /\ off' = off + tot /\ src' = src_add src tot /\
  exists l' V' ip' D, txn start size p dk l' V' ∅ s' /\ iframe p i ip' s s' /\ writing start size sb V ip off bs tot V' ip' /\
    l' ⊆ D ++ ind_l V' ip' ++ L /\ Z.of_nat (length D) <= done_blk off n tot /\ spare V sb ip <= spare V' sb ip' + Z.of_nat (length D).

Lemma ind_l_len V ip : (length (ind_l V ip) <= 1)%nat.
Proof. unfold ind_l. destruct (_ =? 0); simpl; lia. Qed.

Lemma ind_l_grows sb V ip V' ip' : grows sb V ip V' ip' -> ind_l V ip ⊆ ind_l V' ip'.
Proof.
  intros Hg x. unfold ind_l. destruct (Z.eqb_spec (slot V ip MAXFILE) 0) as [|E]; [by intros ?%not_elem_of_nil|].
  rewrite (gr_slot _ _ _ _ _ Hg MAXFILE) by (done || rewrite maxfile_eq; lia). by rewrite (proj2 (Z.eqb_neq _ 0)).
Qed.

Lemma src_add_add src a b : 0 <= a -> 0 <= b -> src_add (src_add src a) b = src_add src (a + b).
Proof.
  intros Ha Hb. destruct src as [va|pa|l]; cbn [src_add]; f_equal; [|lia|rewrite drop_drop; f_equal; lia].
  unfold u64, wrap. rewrite Zplus_mod_idemp_l. f_equal. lia.
Qed.

Lemma wp_writei_round p i dk V off n src bs L s x Q s' :
  let ip := inode_of s i in let sb := k_sb s in
  wloop p i dk V off n src bs L s x s' -> (i < length (k_itable s))%nat -> src_has p s src bs -> n = Z.of_nat (length bs) ->
  0 <= off <= i_size ip -> i_size ip <= MAXFILE * BSIZE -> off + n <= MAXFILE * BSIZE ->
  nblk off n <= spare V sb ip -> map_blocks sb ⊆ L -> Z.of_nat (length L) + nblk off n + 3 < size -> P dk ->
  (x.1.1 = n -> Q (inr (n, off + n)) s') ->
  (forall x' s'', x.1.1 < n -> wloop p i dk V off n src bs L s x' s'' -> x.1.1 < x'.1.1 -> Q (inl x') s'') ->
  wpc (seq_rely p) C (writei_round i n x) Q s'.
Proof.
  intros ip sb Hinv Hi Hsrc Hn Hoff Hsz Hmax Hsp HmL Hroom HP HQ1 HQ2. destruct x as [[tot off'] src'].
  destruct Hinv as (Ht & -> & -> & l1 & V1 & ip1 & D & Htx & Hif & Hw & Hl1 & HD & Hs1). cbn [fst] in *. fold ip sb in Hw, Hs1.
  unfold writei_round, geti. destruct (Z.ltb_spec tot n) as [Hlt|Hge].
  2: { wp_step. replace tot with n by lia. apply HQ1. lia. }
  pose proof (iframe_inode _ _ _ _ _ Hi Hif) as Ei. pose proof (iframe_sb _ _ _ _ _ Hif) as Es. fold sb in Es.
  pose proof (iframe_len _ _ _ _ _ Hif) as El. destruct (done_blk_next off n tot ltac:(lia) ltac:(lia)) as (Hm & Hmo & Hmn & Hd1 & Hd2).
  set (m := Z.min (n - tot) (BSIZE - (off + tot) mod BSIZE)) in *. pose proof (ind_l_len V1 ip1) as Hil. set (k := (off + tot) / BSIZE).
  assert (Hk : 0 <= k < MAXFILE).
  { rewrite maxfile_eq in *. unfold k, BSIZE in *. split; [apply Z.div_pos|apply Z.div_lt_upper_bound]; lia. }
  wp_step. apply (wp_bmap_fs start size geom P p dk l1 V1 i k (D ++ ind_l V1 ip1 ++ L)); rewrite ?Ei, ?Es;
    [done|by rewrite El|apply Hw|apply Hw|done| |done|intros y Hy%HmL; rewrite !elem_of_app; by auto| |done|].
  { unfold nz. destruct (_ =? 0); lia. }
  { rewrite !length_app. lia. }
  intros a l2 V2 ip2 s2 -> Htx2 Hif2 Hex Hnz Hs2 Hl2. pose proof (iframe_trans _ _ _ _ _ _ _ Hif Hif2) as Hif2'.
  pose proof (iframe_inode _ _ _ _ _ Hi Hif2') as Ei2. wp_step. wp_step. rewrite Ei2.
  pose proof Hex as [X1 X2 X3 _]. rewrite (io_dev _ _ _ X2). set (a := slot V2 ip2 k) in *.
  destruct (io_slot _ _ _ X2 k ltac:(lia) Hnz) as [Har _]. destruct (data_range start size geom sb a (fs_layout _ _ _ _ X1) Har) as [Ha Hal].
  assert (Hl2' : l2 ⊆ (a :: D) ++ ind_l V2 ip2 ++ L).
  { intros y [->|[Hy|[Hy|[Hy|Hy]%elem_of_app]%elem_of_app]%elem_of_app]%Hl2%elem_of_cons; rewrite !elem_of_app, ?elem_of_cons; auto.
    apply (ind_l_grows _ _ _ _ _ X3) in Hy. auto. }
  pose proof (view_log_le _ _ _ _ _ _ _ _ _ Htx2 Hl2') as Hll. rewrite !length_app in Hll. pose proof (ind_l_len V2 ip2). simpl length in Hll.
  pose proof geom as (_ & (_ & Hg2) & _). unfold LOGSIZE, MAXOPBLOCKS in Hg2.
  wp_step. eapply (wp_tx_bread start size geom P p); [done|apply lookup_empty|rewrite map_size_empty; unfold NBUF; lia|lia|done|].
  intros bp s3 Ht3 Hr3. apply rest_frame in Hr3.
  pose proof (iframe_frame _ _ _ _ _ _ Hif2' Hr3) as Hif3.
  wp_step. apply (wp_source p s src bs s3 tot m); [done|by rewrite (frame_mem _ _ _ Hif3)| | |lia|lia|lia|rewrite maxfile_eq in *; unfold BSIZE in *; lia|].
  { rewrite (frame_proc _ _ _ Hif3). done. }
  { destruct Ht3 as [act Ht3]. apply (so_cur _ _ (bo_seq _ _ _ (tn_bio _ _ _ _ _ _ _ _ _ _ Ht3))). }
  set (chunk := take (Z.to_nat m) (drop (Z.to_nat tot) bs)). cbv iota. wp_step.
  set (d := wrbytes (Z.to_nat ((off + tot) mod BSIZE)) chunk (dblk V2 a)).
  pose proof (txn_buf _ _ _ _ _ _ _ _ _ _ _ Ht3 (lookup_insert_eq _ _ _)) as Eb. unfold modd, modb. wp_step.
  set (f := fun x : buf => set_b_data _ x).
  apply (txn_modb start size p dk l2 V2 _ s3 a bp (dblk V2 a) f d) in Ht3; [|apply lookup_insert_eq|unfold f; by rewrite Eb].
  rewrite insert_insert_eq in Ht3. change (0 =? -1) with false. cbv iota. wp_step.
  eapply (wp_tx_log_write start size geom P p _ _ _ _ a bp d); [done|apply lookup_insert_eq|lia|done|lia|].
  intros s4 Ht4 Hf4. wp_step. eapply (wp_tx_brelse start size P p _ _ _ _ a bp); [done|by rewrite lookup_insert_eq, dblk_eq|].
  rewrite delete_insert_id by apply lookup_empty. intros s5 Ht5 Hr5. wp_step.
  destruct (writing_step start size geom sb V ip off bs tot m V1 ip1 V2 ip2 Hw Hex Hnz) as [Hw' Hsp']; [lia..|].
  fold k a chunk in Hw', Hsp'. fold d in Hw', Hsp'.
  assert (Hmx : MAXFILE * BSIZE = 274432) by done.
  apply HQ2; [done| |cbn [fst]; rewrite u32_small; lia]. unfold wloop. rewrite !u32_small by lia.
  split_and!; [lia|lia|lia|apply src_add_add; lia|]. fold ip sb.
  exists (logged a l2), (<[a := d]> V2), ip2, (a :: D). split_and!; [done| |done| | |].
  - eapply iframe_frame; [exact Hif3|]. etrans; [apply rest_frame, rest_eq_bcache|]. etrans; [exact Hf4|]. by apply rest_frame.
  - assert (Ei' : ind_l (<[a := d]> V2) ip2 = ind_l V2 ip2) by done. rewrite Ei'.
    intros y [->|Hy]%logged_in; [left|by apply Hl2'].
  - simpl length. lia.
  - rewrite Hsp'. simpl length. unfold nz in Hs2. destruct (_ =? 0) in Hs2; lia.
Qed.

(** ** The whole of writei *)

(** From [V], [ip] the bytes [bs] have been put at [off]: file, inode and free
    map are consistent, the inode is on disk in block [ib], and nothing of any
    other file has changed. *)
Record wrote (sb : superblock) (V : gmap Z block) (ip : inode) (off : Z) (bs : list Z) (V' : gmap Z block) (ip' : inode) : Prop := {
  wt_fs : fs_ok start size V' sb;
  wt_ok : inode_ok V' sb ip';
  wt_ip : exists n addrs, ip' = set_i_size n (set_i_addrs addrs ip);
  wt_size : i_size ip' = Z.max (i_size ip) (off + Z.of_nat (length bs));
  wt_byte : forall o, 0 <= o < i_size ip' ->
    fbyte V' ip' o = if (off <=? o) && (o <? off + Z.of_nat (length bs)) then default 0 (bs !! Z.to_nat (o - off)) else fbyte V ip o;
  wt_used : forall b, 0 <= b < sb_size sb -> used V sb b = true -> used V' sb b = true;
  wt_leak : forall b, 0 <= b < sb_size sb -> used V' sb b = true -> used V sb b = false -> owns V' ip' b;
  wt_dinode : rd_dinode (dblk V' (IBLOCK (i_inum ip) sb)) (di_off (i_inum ip)) = dinode_of ip';
  wt_inodes : forall j, 0 <= j -> di_off j <> di_off (i_inum ip) ->
    rd_dinode (dblk V' (IBLOCK (i_inum ip) sb)) (di_off j) = rd_dinode (dblk V (IBLOCK (i_inum ip) sb)) (di_off j);
  wt_other : forall b, 0 <= b < sb_size sb -> used V sb b = true -> ~ owns V ip b -> b ∉ map_blocks sb ->
    b <> IBLOCK (i_inum ip) sb -> dblk V' b = dblk V b
}.

Lemma di_off_ok j : (di_off j + 64 <= 1024)%nat /\ exists q, di_off j = (64 * q)%nat.
Proof.
  unfold di_off, IPB, BSIZE, sizeof_dinode. change (1024 / 64) with 16.
  pose proof (Z.mod_pos_bound j 16 ltac:(lia)). split; [lia|]. exists (Z.to_nat (j mod 16)). lia.
Qed.

Lemma addrs_range V sb ip : layout start size sb -> inode_ok V sb ip -> Forall (fun a => 0 <= a < 2 ^ 32) (i_addrs ip).
Proof.
  intros Hl [H1 H2 H3 H4 H5 H6]. pose proof (layout_pos start size geom sb Hl). apply Forall_lookup. intros k a Ha.
  pose proof (lookup_lt_Some _ _ _ Ha) as Hk. destruct (Z.eq_dec a 0) as [->|Hnz]; [lia|].
  set (k' := if decide (k = NDIRECT) then MAXFILE else Z.of_nat k).
  assert (Hk' : 0 <= k' <= MAXFILE) by (unfold k'; rewrite maxfile_eq; case_decide; lia).
  assert (E : slot V ip k' = a).
  { unfold slot, k', addr_at. case_decide as D; [by rewrite Z.eqb_refl, <- D, Ha|].
    unfold NDIRECT in D. rewrite (proj2 (Z.eqb_neq _ _)), (proj2 (Z.ltb_lt _ _)) by (rewrite ?maxfile_eq; unfold NDIRECT; lia).
    by rewrite Nat2Z.id, Ha. }
  destruct (H4 k' Hk') as [Hr _]; [by rewrite E|]. rewrite E in Hr. destruct (data_range start size geom sb a Hl Hr). lia.
Qed.

Lemma wrote_iupdate sb V ip off bs V1 ip1 :
  let n := Z.of_nat (length bs) in let ib := IBLOCK (i_inum ip) sb in
  let ip2 := if i_size ip1 <? off + n then set_i_size (off + n) ip1 else ip1 in
  writing start size sb V ip off bs n V1 ip1 -> fs_ok start size V sb -> inode_ok V sb ip -> 0 <= off <= i_size ip -> off + n <= MAXFILE * BSIZE ->
  0 <= i_inum ip < sb_ninodes sb -> dinode_ok (dinode_of ip) ->
  wrote sb V ip off bs (<[ib := wr_dinode (di_off (i_inum ip)) (dinode_of ip2) (dblk V1 ib)]> V1) ip2.
Proof.
  intros n ib ip2 [W1 W2 W3 W4 W5] Hfs Hok Hoff Hmax Hin Hdi. pose proof (io_size _ _ _ Hok) as Hsz. pose proof (gr_ip _ _ _ _ _ W3) as Eip.
  assert (Esz : i_size ip1 = i_size ip) by by rewrite Eip.
  assert (Einum : i_inum ip1 = i_inum ip) by by rewrite Eip.
  assert (Ea : i_addrs ip2 = i_addrs ip1) by (unfold ip2; by destruct (_ <? _)).
  assert (Es2 : i_size ip2 = Z.max (i_size ip) (off + n)).
  { unfold ip2. rewrite Esz. destruct (Z.ltb_spec (i_size ip) (off + n)); cbn [i_size set_i_size]; lia. }
  assert (Hsl : forall W k, slot W ip2 k = slot W ip1 k) by (intros; unfold slot, addr_at; by rewrite Ea).
  assert (Hfb : forall W o, fbyte W ip2 o = fbyte W ip1 o) by (intros; unfold fbyte, blk_of, addr_at; by rewrite Ea).
  assert (Hdev : i_dev ip2 = i_dev ip1) by (unfold ip2; by destruct (_ <? _)).
  destruct (iblock_range start size geom sb (i_inum ip) (fs_layout _ _ _ _ Hfs) Hin) as (Hib & _ & _). fold ib in Hib.
  assert (Hdiv : forall o, 0 <= o < Z.max (i_size ip) (off + n) -> 0 <= o / BSIZE < MAXFILE).
  { intros o Hlt. rewrite maxfile_eq in *. unfold BSIZE in *. split; [apply Z.div_pos|apply Z.div_lt_upper_bound]; lia. }
  assert (Hok2 : inode_ok V1 sb ip2).
  { destruct W2 as [H1 H2 H3 H4 H5 H6]. split; rewrite ?Hdev, ?Ea, ?Es2; try done; [lia|by intros k; rewrite Hsl; apply H4| |].
    - intros k k'. rewrite !Hsl. apply H5.
    - intros k Hk Hlt. rewrite Hsl. replace k with (k * BSIZE / BSIZE) by (rewrite Z.div_mul; done). apply W4. unfold BSIZE in *. lia. }
  set (d := wr_dinode _ _ _).
  assert (Hd : length d = 1024%nat) by (unfold d; rewrite length_wr_dinode; apply W1).
  destruct (write_meta start size geom sb V1 ip2 ib d W1 Hok2 ltac:(lia) Hd) as (M1 & M2 & M3 & M4 & M5).
  assert (Hdi2 : dinode_ok (dinode_of ip2)).
  { destruct Hdi as [D1 D2 D3 D4 D5 D6 D7]. assert (G : forall (f : inode -> Z), (forall x, f (set_i_size (off + n) x) = f x) ->
      (forall a x, f (set_i_addrs a x) = f x) -> f ip2 = f ip).
    { intros f F1 F2. transitivity (f ip1); [unfold ip2; by destruct (_ <? _)|]. by rewrite Eip. }
    assert (E : dinode_of ip2 = mkDinode (i_type ip) (i_major ip) (i_minor ip) (i_nlink ip) (i_size ip2) (i_addrs ip2)).
    { unfold dinode_of. f_equal; [by apply (G i_type)|by apply (G i_major)|by apply (G i_minor)|by apply (G i_nlink)]. }
    rewrite E. split; cbn; [exact D1|exact D2|exact D3|exact D4| | |].
    - rewrite Es2. rewrite maxfile_eq in *. unfold BSIZE in *. lia.
    - rewrite Ea. apply W2.
    - apply (addrs_range V1 sb ip2); [apply W1|done]. }
  split; [done|done| |done| | | | | |].
  - exists (i_size ip2), (i_addrs ip1). rewrite <- Eip. unfold ip2. by destruct (_ <? _).
  - intros o Ho. rewrite Es2 in Ho. rewrite M5 by (auto; rewrite Hsl; by apply W4). rewrite Hfb. by apply W5.
  - intros b Hb Hu. rewrite M4 by done. by apply (gr_used _ _ _ _ _ W3).
  - intros b Hb Hu Hf. rewrite M4 in Hu by done. destruct (gr_leak _ _ _ _ _ W3 b Hb Hu Hf) as [Hnz (k & Hk & E)].
    split; [done|]. exists k. split; [done|]. by rewrite M3, Hsl.
  - fold ib. rewrite dblk_eq. apply rd_dinode_wr; [done|]. rewrite (fs_len _ _ _ _ W1). apply di_off_ok.
  - intros j Hj Hne. fold ib. rewrite dblk_eq. unfold d. rewrite rd_dinode_wr_ne.
    + f_equal. apply (gr_other _ _ _ _ _ W3); [|..].
      * pose proof (layout_pos start size geom sb (fs_layout _ _ _ _ Hfs)). pose proof (la_map _ _ _ (fs_layout _ _ _ _ Hfs)). unfold dstart in *. lia.
      * apply Hfs. pose proof (layout_pos start size geom sb (fs_layout _ _ _ _ Hfs)). unfold dstart. lia.
      * intros [_ (k & Hk & E)]. destruct (io_slot _ _ _ Hok k Hk) as [Hr _]; [rewrite E; lia|]. rewrite E in Hr.
        pose proof (layout_pos start size geom sb (fs_layout _ _ _ _ Hfs)). unfold dstart in *. lia.
      * intros Hm%(map_blocks_range start size geom sb _ (fs_layout _ _ _ _ Hfs)). lia.
    + cbn. rewrite Ea. apply W2.
    + destruct (di_off_ok j) as [_ [q Eq]]. destruct (di_off_ok (i_inum ip)) as [_ [q' E]]. lia.
  - intros b Hb Hu Hno Hm Hne. fold ib in Hne. rewrite dblk_ne by done. by apply (gr_other _ _ _ _ _ W3).
Qed.

(** What a write of [bs] at [off] needs: blocks, log space and a sane inode. *)
Record write_pre (p i : nat) (dk : gmap Z block) (l : list Z) (V : gmap Z block) (src : iosrc) (off : Z) (bs : list Z) (s : kstate) : Prop := {
  wp_txn : txn start size p dk l V ∅ s;
  wp_i : (i < length (k_itable s))%nat;
  wp_fs : fs_ok start size V (k_sb s);
  wp_ino : inode_ok V (k_sb s) (inode_of s i);
  wp_inum : 0 <= i_inum (inode_of s i) < sb_ninodes (k_sb s);
  wp_di : dinode_ok (dinode_of (inode_of s i));
  wp_src : src_has p s src bs;
  wp_spare : nblk off (Z.of_nat (length bs)) <= spare V (k_sb s) (inode_of s i);
  wp_room : Z.of_nat (length l) + nbitmap (k_sb s) + nblk off (Z.of_nat (length bs)) + 4 < size
}.

Lemma wp_writei p i dk l V src off bs Q s :
  let n := Z.of_nat (length bs) in let ip := inode_of s i in let sb := k_sb s in
  write_pre p i dk l V src off bs s -> 0 <= off <= i_size ip -> off + n <= MAXFILE * BSIZE -> P dk ->
  (forall l' V' ip' s', txn start size p dk l' V' ∅ s' -> iframe p i ip' s s' -> wrote sb V ip off bs V' ip' ->
     Z.of_nat (length l') <= Z.of_nat (length l) + nbitmap sb + nblk off n + 2 -> Q n s') ->
  wpc (seq_rely p) C (writei i src off n) Q s.
Proof.
  intros n ip sb [Ht Hi Hfs Hok Hin Hdi Hsrc Hsp Hroom] Hoff Hmax HP HQ. fold ip sb n in Hfs, Hok, Hin, Hdi, Hsp, Hroom.
  pose proof (io_size _ _ _ Hok) as Hsz. assert (Emx : MAXFILE * BSIZE = 274432) by done.
  destruct (iblock_range start size geom sb (i_inum ip) (fs_layout _ _ _ _ Hfs) Hin) as (Hib & Hib31 & Hibl).
  set (ib := IBLOCK (i_inum ip) sb) in *. pose proof (layout_pos start size geom sb (fs_layout _ _ _ _ Hfs)) as (_ & Hnb & _).
  set (L := ib :: map_blocks sb ++ l). assert (HL : Z.of_nat (length L) = Z.of_nat (length l) + nbitmap sb + 1).
  { unfold L. simpl. rewrite length_app. unfold map_blocks. rewrite length_seqZ. lia. }
  unfold writei, geti. wp_step. wp_step. fold ip. rewrite u32_small by lia.
  rewrite (proj2 (Z.ltb_ge (i_size ip) off)), (proj2 (Z.ltb_ge (off + n) off)), (proj2 (Z.ltb_ge _ (off + n))) by lia. cbn [orb].
  wp_step. apply (wp_loop _ (wloop p i dk V off n src bs L s) (fun x _ => n - x.1.1)).
  2: { unfold wloop. split_and!; [lia|lia|lia| |].
       - destruct src as [va|pa|b]; cbn [src_add]; f_equal; [|lia]. destruct Hsrc as (? & ? & _). rewrite Z.add_0_r. symmetry. apply u64_small. lia.
       - exists l, V, ip, []. split_and!; [done|apply iframe_id, frame_refl|by apply writing_0| | |fold sb ip; cbn [length]; lia].
         + intros y Hy. unfold L. rewrite !elem_of_app, elem_of_cons, elem_of_app. auto.
         + unfold done_blk, nblk, BSIZE. simpl. destruct (Z.ltb_spec 0 n); zmod. }
  2: { simpl. lia. }
  intros x s1 Hx. apply (wp_writei_round p i dk V off n src bs L s x);
    [done|done|done|done|done|exact (proj2 Hsz)|done|done|unfold L; intros y ?; rewrite elem_of_cons, elem_of_app; auto|lia|done| |].
  2: { intros x' s2 Hlt Hx' Hgt. split; [done|]. destruct x' as [[tot ?] ?]. destruct Hx' as (? & _). cbn [fst] in *. lia. }
  intros En. destruct x as [[tot off'] src']. cbn [fst] in En. subst tot. destruct Hx as (_ & _ & _ & l1 & V1 & ip1 & D & Ht1 & Hif1 & Hw & Hl1 & HD & _).
  fold ip sb in Hw. pose proof (iframe_inode _ _ _ _ _ Hi Hif1) as Ei. pose proof (iframe_sb _ _ _ _ _ Hif1) as Es. fold sb in Es.
  assert (Einum : i_inum ip1 = i_inum ip) by by rewrite (gr_ip _ _ _ _ _ (wi_grows _ _ _ _ _ _ _ _ _ _ Hw)).
  assert (HD' : Z.of_nat (length D) <= nblk off n) by (unfold done_blk in HD; by rewrite Z.ltb_irrefl in HD).
  pose proof (wrote_iupdate sb V ip off bs V1 ip1 Hw Hfs Hok Hoff ltac:(lia) Hin Hdi) as Hwr. fold ib n in Hwr.
  set (ip2 := if i_size ip1 <? off + n then _ else _) in Hwr. do 3 wp_step. rewrite Ei.
  assert (Hib1 : forall s2, txn start size p dk l1 V1 ∅ s2 -> iframe p i ip2 s s2 ->
    wpc (seq_rely p) C (let* _ := iupdate i in ret (s32 n)) Q s2).
  { intros s2 Ht2 Hif2. pose proof (iframe_inode _ _ _ _ _ Hi Hif2) as Ei2. pose proof (iframe_sb _ _ _ _ _ Hif2) as Es2. fold sb in Es2.
    assert (Einum2 : i_inum ip2 = i_inum ip) by (unfold ip2; by destruct (_ <? _)).
    pose proof (view_log_le _ _ _ _ _ _ _ _ _ Ht1 Hl1) as Hll. rewrite !length_app in Hll. pose proof (ind_l_len V1 ip1).
    wp_step. eapply (wp_iupdate start size geom P p dk l1 V1 i); rewrite ?Ei2, ?Es2, ?Einum2; fold ib;
      [done|apply (wt_ok _ _ _ _ _ _ _ Hwr)|lia|done|lia|done|].
    intros s3 Ht3 Hf3. wp_step. rewrite s32_small by lia. eapply (HQ (logged ib l1)); [exact Ht3|by eapply iframe_frame|done|].
    assert (Hl3 : logged ib l1 ⊆ D ++ ind_l V1 ip1 ++ L).
    { intros y [->|Hy]%logged_in; [|by apply Hl1]. unfold L. rewrite !elem_of_app, elem_of_cons. auto. }
    pose proof (view_log_le _ _ _ _ _ _ _ _ _ Ht3 Hl3) as Hll3. rewrite !length_app in Hll3. lia. }
  apply wp_when; intros Hc.
  - unfold modi. wp_step. apply Hib1; [by apply view_inode|]. unfold ip2. rewrite Hc. by apply (iframe_upd p i (set_i_size (off + n))).
  - apply Hib1; [done|]. unfold ip2. by rewrite Hc.
Qed.
End Writei.
