(* ===== verification/FsTrunc.v ===== *)
(** * itrunc: all blocks of a file go back to the free map *)
From S2P Require Import Prelude Memory State Kalloc Vm Sched SchedSpec Sleeplock Virtio VirtioSpec Bio BioSpec Codec Log LogSpec LogCrash Txn Fs FsCodec FsSpec FsAlloc FsTheorems FsWrite.

(** The blocks in the first [n] places of an inode. *)
Definition fslots (V : gmap Z block) (ip : inode) (n : Z) : list Z := filter (fun b => b <> 0) (slot V ip <$> seqZ 0 n).

Lemma elem_of_fslots V ip n b : b ∈ fslots V ip n <-> b <> 0 /\ exists k, 0 <= k < n /\ slot V ip k = b.
Proof.
  unfold fslots. rewrite list_elem_of_filter, list_elem_of_fmap. setoid_rewrite elem_of_seqZ.
  split; intros [H (k & H1 & H2)]; (split; [done|]); exists k; [split; [lia|done]|split; [done|lia]].
Qed.

Lemma fslots_S V ip n b : 0 <= n ->
  b ∈ fslots V ip (n + 1) <-> b ∈ fslots V ip n \/ (b <> 0 /\ slot V ip n = b).
Proof.
  intros Hn. rewrite !elem_of_fslots. split.
  - intros [H (k & Hk & E)]. destruct (Z.eq_dec k n) as [->|]; [by right|left]. split; [done|]. exists k. split; [lia|done].
  - intros [[H (k & Hk & E)]|[H E]]; (split; [done|]); eexists; (split; [|exact E]); lia.
Qed.

Lemma slot_0 V ip : length (i_addrs ip) = 13%nat -> (forall k, addr_at ip k = 0) -> forall k, slot V ip k = 0.
Proof. intros Hl Ha k. unfold slot. rewrite !Ha. by destruct (k =? MAXFILE), (k <? Z.of_nat NDIRECT). Qed.

(** The inode with its first [k] addresses cleared. *)
Definition cut (ip : inode) (k : nat) : inode := set_i_addrs (replicate k 0 ++ drop k (i_addrs ip)) ip.

Lemma icut_0 ip : cut ip 0 = ip.
Proof. by destruct ip. Qed.
Lemma cut_at ip k : addr_at (cut ip k) k = addr_at ip k.
Proof.
  unfold addr_at, cut. cbn [i_addrs set_i_addrs]. rewrite lookup_app_r by (by rewrite length_replicate).
  rewrite length_replicate, Nat.sub_diag, lookup_drop. by rewrite Nat.add_0_r.
Qed.
Lemma icut_S ip k : (k < length (i_addrs ip))%nat -> cut ip (S k) = set_i_addrs (<[k := 0]> (i_addrs (cut ip k))) (cut ip k).
Proof.
  intros Hk. unfold cut. cbn [i_addrs set_i_addrs]. assert (E : <[k := 0]> (replicate k 0 ++ drop k (i_addrs ip)) = replicate (S k) 0 ++ drop (S k) (i_addrs ip)).
  { destruct (lookup_lt_is_Some_2 _ _ Hk) as [a Ha]. rewrite (drop_S _ _ _ Ha). rewrite insert_app_r_alt by (by rewrite length_replicate).
    rewrite length_replicate, Nat.sub_diag. cbn [insert list_insert]. by rewrite replicate_S_end, <- app_assoc. }
  by rewrite E.
Qed.
Lemma cut_S_0 ip k : (k < length (i_addrs ip))%nat -> addr_at ip k = 0 -> cut ip (S k) = cut ip k.
Proof.
  intros Hk H0. rewrite icut_S by done. destruct (lookup_lt_is_Some_2 _ _ Hk) as [a Ha].
  rewrite list_insert_id; [by destruct ip|]. unfold addr_at in H0. rewrite Ha in H0. cbn in H0. subst a.
  unfold cut. cbn [i_addrs set_i_addrs]. rewrite lookup_app_r by (by rewrite length_replicate).
  rewrite length_replicate, Nat.sub_diag, lookup_drop. by rewrite Nat.add_0_r.
Qed.
Lemma cut_13 ip : length (i_addrs ip) = 13%nat -> cut ip 13 = set_i_addrs (replicate 13 0) ip.
Proof. intros H. unfold cut. by rewrite drop_ge, app_nil_r by lia. Qed.

Section Trunc.
Context `{KI : KernelImage} `{VD : VirtioDevice} `{VDOK : !VirtioDeviceOk}.
Context (start size : Z) (geom : 0 < start /\ 1 < size <= LOGSIZE /\ start + size < 2 ^ 31).
Variable P : gmap Z block -> Prop.
Let C (s : kstate) : Prop := P (k_disk s).

(** The blocks of [S] have been marked free, nothing else has changed. *)
Record freed (sb : superblock) (V : gmap Z block) (S : list Z) (V' : gmap Z block) : Prop := {
  fd_fs : fs_ok start size V' sb;
  fd_used : forall b, 0 <= b < sb_size sb -> used V' sb b = used V sb b && bool_decide (b ∉ S);
  fd_same : forall bn, bn ∉ map_blocks sb -> dblk V' bn = dblk V bn
}.

Lemma freed_nil sb V : fs_ok start size V sb -> freed sb V [] V.
Proof. intros H. split; [done| |done]. intros b _. rewrite bool_decide_true by set_solver. by rewrite andb_true_r. Qed.

Lemma freed_eq sb V S S' V' : freed sb V S V' -> (forall b, b ∈ S <-> b ∈ S') -> freed sb V S' V'.
Proof. intros [H1 H2 H3] E. split; [done| |done]. intros b Hb. rewrite H2 by done. f_equal. apply bool_decide_ext. by rewrite E. Qed.

Lemma freed_step sb V S V' b :
  let bb := BBLOCK b sb in
  freed sb V S V' -> dstart sb <= b < sb_size sb -> freed sb V (b :: S) (<[bb := unmark b (dblk V' bb)]> V').
Proof.
  intros bb [H1 H2 H3] Hb. pose proof H1 as [Hl Hlen Hm]. pose proof (layout_pos start size geom sb Hl).
  pose proof (bblock_in start size geom sb b Hl ltac:(lia)) as Hbb. fold bb in Hbb.
  assert (Hu : forall b', 0 <= b' < sb_size sb ->
    used (<[bb := unmark b (dblk V' bb)]> V') sb b' = if b' =? b then false else used V' sb b').
  { intros b' Hb'. apply (used_unmark start size); [by eapply alloc_map_ok|apply Hlen|lia|done]. }
  split.
  - split; [done| |].
    + intros bn. destruct (decide (bb = bn)) as [<-|]; [|by rewrite dblk_ne]. rewrite dblk_eq. unfold unmark. by rewrite length_wr8.
    + intros b' Hb'. rewrite Hu, (proj2 (Z.eqb_neq _ _)) by (destruct Hl; lia). by apply Hm.
  - intros b' Hb'. rewrite Hu by done. destruct (Z.eqb_spec b' b) as [->|Hne].
    + rewrite bool_decide_false by set_solver. by rewrite andb_false_r.
    + rewrite H2 by done. f_equal. apply bool_decide_ext. set_solver.
  - intros bn Hn. rewrite dblk_ne by (intros <-; done). by apply H3.
Qed.

Lemma wp_bfree_fs p dk l V S V1 H b L Q s :
  let sb := k_sb s in
  txn start size p dk l V1 H s -> freed sb V S V1 -> (base.size H <= 1)%nat -> (forall bn, is_Some (H !! bn) -> dstart sb <= bn) ->
  dstart sb <= b < sb_size sb -> used V sb b = true -> b ∉ S -> l ⊆ L -> map_blocks sb ⊆ L -> Z.of_nat (length L) + 1 < size -> P dk ->
  (forall l' V' s', txn start size p dk l' V' H s' -> frame p s s' -> freed sb V (b :: S) V' -> l' ⊆ L -> Q tt s') ->
  wpc (seq_rely p) C (bfree ROOTDEV b) Q s.
Proof.
  intros sb Ht Hfd HHs HH Hb Hu Hni HlL HmL Hroom HP HQ. pose proof (fd_fs _ _ _ _ Hfd) as Hfs. pose proof (fs_layout _ _ _ _ Hfs) as Hl.
  pose proof (layout_pos start size geom sb Hl). pose proof (bblock_in start size geom sb b Hl ltac:(lia)) as Hbb.
  pose proof (view_log_le _ _ _ _ _ _ _ _ _ Ht HlL).
  eapply (wp_bfree start size geom P p dk l V1 H b); fold sb; [done| |done|by eapply alloc_map_ok|lia| |lia|done|].
  - destruct (H !! BBLOCK b sb) eqn:E; [|done]. exfalso. apply (map_blocks_range start size geom sb _ Hl) in Hbb.
    specialize (HH (BBLOCK b sb)). rewrite E in HH. specialize (HH ltac:(done)). lia.
  - rewrite (fd_used _ _ _ _ Hfd) by lia. by rewrite Hu, bool_decide_true.
  - intros s' Ht' Hf. eapply HQ; [exact Ht'|done|by apply freed_step|]. intros x [->|Hx]%logged_in; [by apply HmL|by apply HlL].
Qed.

(** All of the file's blocks are free, the inode is empty, on disk too, and no
    other block has changed. *)
Record truncated (sb : superblock) (V : gmap Z block) (ip : inode) (V' : gmap Z block) (ip' : inode) : Prop := {
  tr_fs : fs_ok start size V' sb;
  tr_ip : ip' = set_i_size 0 (set_i_addrs (replicate 13 0) ip);
  tr_ok : inode_ok V' sb ip';
  tr_used : forall b, 0 <= b < sb_size sb -> used V' sb b = true <-> used V sb b = true /\ ~ owns V ip b;
  tr_dinode : rd_dinode (dblk V' (IBLOCK (i_inum ip) sb)) (di_off (i_inum ip)) = dinode_of ip';
  tr_inodes : forall j, 0 <= j -> di_off j <> di_off (i_inum ip) ->
    rd_dinode (dblk V' (IBLOCK (i_inum ip) sb)) (di_off j) = rd_dinode (dblk V (IBLOCK (i_inum ip) sb)) (di_off j);
  tr_other : forall bn, bn ∉ map_blocks sb -> bn <> IBLOCK (i_inum ip) sb -> dblk V' bn = dblk V bn
}.

Lemma truncated_iupdate sb V ip V1 :
  let ib := IBLOCK (i_inum ip) sb in let ip' := set_i_size 0 (set_i_addrs (replicate 13 0) ip) in
  freed sb V (fslots V ip (MAXFILE + 1)) V1 -> i_dev ip = ROOTDEV -> 0 <= i_inum ip < sb_ninodes sb -> dinode_ok (dinode_of ip) ->
  truncated sb V ip (<[ib := wr_dinode (di_off (i_inum ip)) (dinode_of ip') (dblk V1 ib)]> V1) ip'.
Proof.
  intros ib ip' [F1 F2 F3] Hdev Hin Hdi. pose proof (fs_layout _ _ _ _ F1) as Hl.
  destruct (iblock_range start size geom sb (i_inum ip) Hl Hin) as (Hib & _ & _). fold ib in Hib.
  assert (Ha : forall k, addr_at ip' k = 0).
  { intros k. unfold addr_at. change (i_addrs ip') with (replicate 13 0). destruct (replicate 13 0 !! k) as [x|] eqn:E; [|done].
    apply lookup_replicate in E as [-> _]. done. }
  assert (Hs : forall W k, slot W ip' k = 0) by (intros W; by apply slot_0).
  assert (Hok1 : inode_ok V1 sb ip').
  { split; [done|done|rewrite maxfile_eq; unfold BSIZE; cbn; lia|by intros k _; rewrite Hs|by intros k k' _ _; rewrite Hs|].
    intros k Hk Hlt. change (i_size ip') with 0 in Hlt. unfold BSIZE in Hlt. lia. }
  assert (Hdi' : dinode_ok (dinode_of ip')).
  { destruct Hdi. split; cbn; try done. repeat constructor; lia. }
  set (d := wr_dinode _ _ _). assert (Hd : length d = 1024%nat) by (unfold d; rewrite length_wr_dinode; apply F1).
  destruct (write_meta start size geom sb V1 ip' ib d F1 Hok1 ltac:(lia) Hd) as (M1 & M2 & M3 & M4 & M5).
  assert (Hibm : ib ∉ map_blocks sb) by (intros Hm%(map_blocks_range start size geom sb _ Hl); lia).
  split; [done|done|done| | | |].
  - intros b Hb. rewrite M4, F2 by done. rewrite andb_true_iff, bool_decide_eq_true, elem_of_fslots. unfold owns.
    assert (E : (exists k, 0 <= k < MAXFILE + 1 /\ slot V ip k = b) <-> (exists k, 0 <= k <= MAXFILE /\ slot V ip k = b)); [|tauto].
    split; intros (k & Hk & E); exists k; (split; [lia|done]).
  - fold ib. rewrite dblk_eq. apply rd_dinode_wr; [done|]. rewrite (fs_len _ _ _ _ F1). apply di_off_ok.
  - intros j Hj Hne. fold ib. rewrite dblk_eq. unfold d. rewrite rd_dinode_wr_ne; [by rewrite F3|done|].
    destruct (di_off_ok j) as [_ [q Eq]]. destruct (di_off_ok (i_inum ip)) as [_ [q' E]]. lia.
  - intros bn Hm Hne. fold ib in Hne. rewrite dblk_ne by done. by apply F3.
Qed.

Section Itrunc.
Context (p i : nat) (dk : gmap Z block) (V : gmap Z block) (L : list Z) (s : kstate).
Let ip := inode_of s i.
Let sb := k_sb s.
Hypotheses (Hi : (i < length (k_itable s))%nat) (Hok : inode_ok V sb ip) (HmL : map_blocks sb ⊆ L)
  (Hroom : Z.of_nat (length L) + 1 < size) (HP : P dk).

(** The first [n] places of the inode are freed, and [k] addresses cleared. *)
Definition tstate (H : gmap Z (nat * block)) (n : Z) (k : nat) (s' : kstate) : Prop :=
  exists l' V', txn start size p dk l' V' H s' /\ iframe p i (cut ip k) s s' /\ freed sb V (fslots V ip n) V' /\ l' ⊆ L.

Lemma slot_free_next n V' : 0 <= n <= MAXFILE -> freed sb V (slot V ip n :: fslots V ip n) V' -> slot V ip n <> 0 -> freed sb V (fslots V ip (n + 1)) V'.
Proof. intros Hn Hf Hnz. eapply freed_eq; [exact Hf|]. intros b. rewrite fslots_S, elem_of_cons by lia. naive_solver. Qed.
Lemma slot_free_skip n V' : 0 <= n -> slot V ip n = 0 -> freed sb V (fslots V ip n) V' -> freed sb V (fslots V ip (n + 1)) V'.
Proof. intros Hn Hz Hf. eapply freed_eq; [exact Hf|]. intros b. rewrite fslots_S by lia. naive_solver. Qed.
Lemma slot_fresh n : 0 <= n <= MAXFILE -> slot V ip n <> 0 -> slot V ip n ∉ fslots V ip n.
Proof. intros Hn Hnz [_ (k & Hk & E)]%elem_of_fslots. assert (k = n); [|lia]. apply (io_inj _ _ _ Hok); [lia|lia|by rewrite E|done]. Qed.

(** Freeing place [n], with buffers [H] held. *)
Lemma wp_trunc_slot H n k Q s1 :
  tstate H n k s1 -> (base.size H <= 1)%nat -> (forall bn, is_Some (H !! bn) -> dstart sb <= bn) -> 0 <= n <= MAXFILE -> slot V ip n <> 0 ->
  (forall s2, tstate H (n + 1) k s2 -> frame p s1 s2 -> Q tt s2) ->
  wpc (seq_rely p) C (bfree ROOTDEV (slot V ip n)) Q s1.
Proof.
  intros (l1 & V1 & Ht & Hf & Hfd & Hl) HHs HH Hn Hnz HQ. destruct (io_slot _ _ _ Hok n Hn Hnz) as [Hr Hu].
  pose proof (iframe_sb _ _ _ _ _ Hf) as Es. fold sb in Es.
  eapply (wp_bfree_fs p dk l1 V (fslots V ip n) V1 H); rewrite ?Es; [done|done|done|done|done|done|by apply slot_fresh|done|done|done|done|].
  intros l2 V2 s2 Ht2 Hf2 Hfd2 Hl2. apply HQ; [|done]. exists l2, V2. split_and!; [done|by eapply iframe_frame| |done].
  by apply slot_free_next.
Qed.

Lemma wp_trunc_direct s1 (Q : unit -> kstate -> Prop) : tstate ∅ 0 0 s1 -> (forall s2, tstate ∅ 12 12 s2 -> Q tt s2) ->
  wpc (seq_rely p) C (for_each (seq 0 NDIRECT) (fun k =>
    let* ip := geti i in
    when (negb (addr_at ip k =? 0)) (bfree (i_dev ip) (addr_at ip k);;; set_addr i k 0))) Q s1.
Proof.
  intros Hst HQ. pose proof (io_len _ _ _ Hok) as Hlen.
  apply (wp_for_each _ (fun rest s' => exists k, rest = seq k (12 - k) /\ (k <= 12)%nat /\ tstate ∅ (Z.of_nat k) k s')).
  { exists 0%nat. by split_and!; [|lia|]. }
  2: { intros s' (k & E & Hk & Hs'). destruct (12 - k)%nat eqn:Ek; [|done]. assert (k = 12%nat) as -> by lia. by apply HQ. }
  intros k rest s' (k0 & E & Hk & Hs'). destruct (12 - k0)%nat as [|m] eqn:Em; [done|]. injection E as -> ->.
  pose proof Hs' as (l1 & V1 & Ht & Hf & Hfd & Hl). unfold geti. wp_step. wp_step. rewrite (iframe_inode _ _ _ _ _ Hi Hf), cut_at.
  assert (Es : addr_at ip k0 = slot V ip (Z.of_nat k0)).
  { unfold slot, NDIRECT. rewrite (proj2 (Z.eqb_neq _ _)), (proj2 (Z.ltb_lt _ _)) by (rewrite ?maxfile_eq; lia). by rewrite Nat2Z.id. }
  change (i_dev (cut ip k0)) with (i_dev ip). rewrite (io_dev _ _ _ Hok), Es.
  assert (Hnext : forall s2, tstate ∅ (Z.of_nat k0 + 1) (S k0) s2 ->
    exists k, seq (S k0) m = seq k (12 - k) /\ (k <= 12)%nat /\ tstate ∅ (Z.of_nat k) k s2).
  { intros s2 H2. exists (S k0). split_and!; [f_equal; lia|lia|]. by replace (Z.of_nat (S k0)) with (Z.of_nat k0 + 1) by lia. }
  apply wp_when; intros Hz.
  - apply negb_true_iff, Z.eqb_neq in Hz. wp_step. eapply (wp_trunc_slot ∅ (Z.of_nat k0) k0); [done|rewrite map_size_empty; lia| |rewrite maxfile_eq; lia|done|].
    { intros bn []. by rewrite lookup_empty in *. }
    intros s2 (l2 & V2 & Ht2 & Hf2 & Hfd2 & Hl2) _. unfold set_addr, modi. wp_step. apply Hnext. exists l2, V2.
    split_and!; [by apply view_inode| |done|done]. rewrite icut_S by lia.
    by apply (iframe_upd p i (fun x => set_i_addrs (<[k0 := 0]> (i_addrs x)) x)).
  - apply negb_false_iff, Z.eqb_eq in Hz. apply Hnext. exists l1, V1. split_and!; [done| |by apply slot_free_skip; [lia|..]|done].
    rewrite cut_S_0; [done|lia|]. by rewrite Es.
Qed.

Let X := slot V ip MAXFILE.

(** The entries of the indirect block, held in buffer [bp]. *)
Lemma wp_trunc_entries bp s1 (Q : unit -> kstate -> Prop) :
  let H := <[X := (bp, dblk V X)]> ∅ in
  X <> 0 -> tstate H 12 12 s1 -> (forall s2, tstate H MAXFILE 12 s2 -> Q tt s2) ->
  wpc (seq_rely p) C (for_each (seq 0 (Z.to_nat NINDIRECT)) (fun j =>
     let* d := getd bp in
     let* ip := geti i in
     when (negb (rd32 d (4 * j) =? 0)) (bfree (i_dev ip) (rd32 d (4 * j))))) Q s1.
Proof.
  intros H HX Hst HQ. destruct (io_slot _ _ _ Hok MAXFILE ltac:(rewrite maxfile_eq; lia) HX) as [HXr _]. fold X in HXr.
  apply (wp_for_each _ (fun rest s' => exists k, rest = seq k (256 - k) /\ (k <= 256)%nat /\ tstate H (12 + Z.of_nat k) 12 s')).
  { exists 0%nat. by split_and!; [|lia|]. }
  2: { intros s' (k & E & Hk & Hs'). destruct (256 - k)%nat eqn:Ek; [|done]. assert (k = 256%nat) as -> by lia. by apply HQ. }
  intros k rest s' (k0 & E & Hk & Hs'). destruct (256 - k0)%nat as [|m] eqn:Em; [done|]. injection E as -> ->.
  pose proof Hs' as (l1 & V1 & Ht & Hf & Hfd & Hl). unfold geti, getd, getb. do 4 wp_step.
  rewrite (txn_buf _ _ _ _ _ _ _ _ _ _ _ Ht (lookup_insert_eq _ _ _)). cbn [b_data]. do 2 wp_step.
  rewrite (iframe_inode _ _ _ _ _ Hi Hf). change (i_dev (cut ip 12)) with (i_dev ip). rewrite (io_dev _ _ _ Hok).
  assert (Es : rd32 (dblk V X) (4 * k0) = slot V ip (12 + Z.of_nat k0)).
  { unfold slot, NDIRECT. rewrite (proj2 (Z.eqb_neq (12 + _) _)), (proj2 (Z.ltb_ge _ _)) by (rewrite ?maxfile_eq; lia).
    change (addr_at ip 12) with X. rewrite (proj2 (Z.eqb_neq X 0)) by done. f_equal. lia. }
  rewrite Es. replace (12 + Z.of_nat (S k0)) with (12 + Z.of_nat k0 + 1) in * by lia.
  assert (Hnext : forall s2, tstate H (12 + Z.of_nat k0 + 1) 12 s2 ->
    exists k, seq (S k0) m = seq k (256 - k) /\ (k <= 256)%nat /\ tstate H (12 + Z.of_nat k) 12 s2).
  { intros s2 H2. exists (S k0). split_and!; [f_equal; lia|lia|]. by replace (12 + Z.of_nat (S k0)) with (12 + Z.of_nat k0 + 1) by lia. }
  apply wp_when; intros Hz.
  - apply negb_true_iff, Z.eqb_neq in Hz. eapply (wp_trunc_slot H (12 + Z.of_nat k0) 12); [done| | |rewrite maxfile_eq; lia|done|].
    + unfold H. rewrite insert_empty, map_size_singleton. lia.
    + intros bn [y Hy]. apply lookup_insert_Some in Hy as [[<- _]|[_ Hy]]; [lia|]. by rewrite lookup_empty in Hy.
    + intros s2 H2 _. by apply Hnext.
  - apply negb_false_iff, Z.eqb_eq in Hz. apply Hnext. exists l1, V1. split_and!; [done|done|by apply slot_free_skip; [lia|..]|done].
Qed.

Lemma fslots_no_ind n : X = 0 -> 12 <= n -> forall b, b ∈ fslots V ip n <-> b ∈ fslots V ip 12.
Proof.
  intros HX Hn b. rewrite !elem_of_fslots. split; intros [H (k & Hk & E)]; (split; [done|]); exists k; (split; [|done]); [|lia].
  destruct (Z.lt_ge_cases k 12); [lia|]. exfalso. apply H. rewrite <- E. unfold slot. change (addr_at ip NDIRECT) with X. rewrite HX.
  destruct (k =? MAXFILE); [done|]. by rewrite (proj2 (Z.ltb_ge _ _)) by (unfold NDIRECT; lia).
Qed.

Lemma wp_trunc_indirect s1 (Q : unit -> kstate -> Prop) :
  tstate ∅ 12 12 s1 -> (forall s2, tstate ∅ (MAXFILE + 1) 13 s2 -> Q tt s2) ->
  wpc (seq_rely p) C (let* ip := geti i in
  when (negb (addr_at ip NDIRECT =? 0))
    (let* bp := bread (i_dev ip) (addr_at ip NDIRECT) in
     for_each (seq 0 (Z.to_nat NINDIRECT)) (fun j =>
       let* d := getd bp in
       let* ip := geti i in
       when (negb (rd32 d (4 * j) =? 0)) (bfree (i_dev ip) (rd32 d (4 * j))));;;
     brelse bp;;;
     let* ip := geti i in
     bfree (i_dev ip) (addr_at ip NDIRECT);;;
     set_addr i NDIRECT 0)) Q s1.
Proof.
  intros Hst HQ. pose proof (io_len _ _ _ Hok) as Hlen. pose proof Hst as (l1 & V1 & Ht & Hf & Hfd & Hl). unfold geti. wp_step. wp_step.
  rewrite (iframe_inode _ _ _ _ _ Hi Hf). unfold NDIRECT at 1. rewrite cut_at. change (addr_at ip 12) with X.
  change (i_dev (cut ip 12)) with (i_dev ip). rewrite (io_dev _ _ _ Hok). unfold NDIRECT at 1. rewrite cut_at. change (addr_at ip 12) with X.
  apply wp_when; intros Hz.
  2: { apply negb_false_iff, Z.eqb_eq in Hz. apply HQ. exists l1, V1. split_and!; [done| | |done].
       - rewrite cut_S_0; [done|lia|done].
       - eapply freed_eq; [exact Hfd|]. intros b. symmetry. apply (fslots_no_ind (MAXFILE + 1)); [done|rewrite maxfile_eq; lia]. }
  apply negb_true_iff, Z.eqb_neq in Hz. pose proof (fs_layout _ _ _ _ (fd_fs _ _ _ _ Hfd)) as Hla.
  destruct (io_slot _ _ _ Hok MAXFILE ltac:(rewrite maxfile_eq; lia) Hz) as [HXr _]. fold X in HXr.
  destruct (data_range start size geom sb X Hla HXr) as [HX31 _].
  assert (HXm : X ∉ map_blocks sb) by (intros Hm%(map_blocks_range start size geom sb _ Hla); lia).
  pose proof (txn_room _ _ geom _ _ _ _ _ _ Ht) as Hr. wp_step.
  eapply (wp_tx_bread start size geom P p); [done|apply lookup_empty|rewrite map_size_empty; unfold NBUF; lia|lia|done|].
  intros bp s2 Ht2 Hr2%rest_frame. rewrite (fd_same _ _ _ _ Hfd X HXm) in Ht2. wp_step.
  apply (wp_trunc_entries bp); [done| |].
  { exists l1, V1. split_and!; [done|by eapply iframe_frame|done|done]. }
  intros s3 (l3 & V3 & Ht3 & Hf3 & Hfd3 & Hl3). wp_step. rewrite <- (fd_same _ _ _ _ Hfd3 X HXm) in Ht3.
  eapply (wp_brelse_clean start size P p); [done|]. intros s4 Ht4 Hf4. pose proof (iframe_frame _ _ _ _ _ _ Hf3 Hf4) as Hf4'.
  wp_step. wp_step. rewrite (iframe_inode _ _ _ _ _ Hi Hf4'). change (i_dev (cut ip 12)) with (i_dev ip). rewrite (io_dev _ _ _ Hok).
  unfold NDIRECT at 1. rewrite cut_at. change (addr_at ip 12) with (slot V ip MAXFILE). wp_step.
  eapply (wp_trunc_slot ∅ MAXFILE 12); [by exists l3, V3|rewrite map_size_empty; lia| |rewrite maxfile_eq; lia|done|].
  { intros bn []. by rewrite lookup_empty in *. }
  intros s5 (l5 & V5 & Ht5 & Hf5 & Hfd5 & Hl5) _. unfold set_addr, modi. wp_step. apply HQ. exists l5, V5.
  split_and!; [by apply view_inode| |done|done]. rewrite icut_S by lia.
  by apply (iframe_upd p i (fun x => set_i_addrs (<[NDIRECT := 0]> (i_addrs x)) x)).
Qed.

Lemma wp_itrunc l (Q : unit -> kstate -> Prop) :
  txn start size p dk l V ∅ s -> fs_ok start size V sb -> 0 <= i_inum ip < sb_ninodes sb -> dinode_ok (dinode_of ip) ->
  l ⊆ L -> IBLOCK (i_inum ip) sb ∈ L ->
  (forall l' V' ip' s', txn start size p dk l' V' ∅ s' -> iframe p i ip' s s' -> truncated sb V ip V' ip' -> l' ⊆ L -> Q tt s') ->
  wpc (seq_rely p) C (itrunc i) Q s.
Proof.
  intros Ht Hfs Hin Hdi HlL HiL HQ. destruct (iblock_range start size geom sb (i_inum ip) (fs_layout _ _ _ _ Hfs) Hin) as (Hib & Hib31 & Hibl).
  unfold itrunc. wp_step. apply wp_trunc_direct.
  { exists l, V. split_and!; [done|rewrite icut_0; apply iframe_id, frame_refl| |done]. by apply (freed_eq sb V []); [apply freed_nil|]. }
  intros s1 Hs1. unfold geti at 1. wp_step. wp_step. wp_step.
  apply (wp_trunc_indirect s1 (fun a s' => wpc (seq_rely p) C (modi i (set_i_size 0);;; iupdate i) Q s') Hs1).
  intros s2 (l2 & V2 & Ht2 & Hf2 & Hfd2 & Hl2). unfold modi. wp_step. wp_step. rewrite cut_13 in Hf2 by apply Hok.
  pose proof (iframe_upd p i (set_i_size 0) _ _ _ Hi Hf2) as Hf3. pose proof (iframe_inode _ _ _ _ _ Hi Hf3) as Ei.
  pose proof (iframe_sb _ _ _ _ _ Hf3) as Es. fold sb in Es. pose proof (view_log_le _ _ _ _ _ _ _ _ _ Ht2 Hl2).
  pose proof (truncated_iupdate sb V ip V2 Hfd2 (io_dev _ _ _ Hok) Hin Hdi) as Htr.
  eapply (wp_iupdate start size geom P p dk l2 V2 i); rewrite ?Ei, ?Es; [by apply view_inode|apply Hok|cbn; lia|done|lia|done|].
  intros s4 Ht4 Hf4. eapply HQ; [exact Ht4|by eapply iframe_frame|exact Htr|]. intros x [->|Hx]%logged_in; [done|by apply Hl2].
Qed.
End Itrunc.
End Trunc.
