(* ===== verification/FsDir.v ===== *)
(** * dirlink: a directory as a map from names, updated *)
From S2P Require Import Prelude Memory State Kalloc PageTable Vm VmSpec UserMem UserCopy Sched SchedSpec Sleeplock Virtio VirtioSpec Bio BioSpec Codec Log LogSpec LogCrash Txn Fs FsCodec FsSpec FsAlloc FsTheorems FsWrite.

(** ** Names *)

(** The file name in a string or in the name field of an entry. *)
Definition fname (s : list Z) : list Z := cut0 (u8 <$> take DIRSIZ s).

Lemma bytes_write m a l n : (forall k, (length l <= k < n)%nat -> ldb m (a + Z.of_nat k) = 0) ->
  cut0 (bytes (write_bytes m a l) a n) = cut0 (u8 <$> take n l).
Proof.
  intros Hz. assert (E : bytes (write_bytes m a l) a n = (u8 <$> take n l) ++ replicate (n - length l) 0).
  { apply list_eq. intros k. destruct (decide (k < n)%nat) as [Hk|Hk].
    - rewrite bytes_lookup, ldb_write_bytes by done. unfold inr_. replace (Z.to_nat (a + Z.of_nat k - a)) with k by lia.
      destruct (decide (k < length l)%nat) as [Hl|Hl].
      + rewrite lookup_app_l by (rewrite length_fmap, length_take; lia). rewrite list_lookup_fmap, lookup_take_lt by lia.
        destruct (lookup_lt_is_Some_2 l k Hl) as [x ->]. cbn. ranges.
      + rewrite lookup_app_r, lookup_replicate_2 by (rewrite length_fmap, length_take; lia).
        rewrite Hz by lia. ranges.
    - rewrite !lookup_ge_None_2; [done|rewrite length_app, length_fmap, length_take, length_replicate; lia|rewrite bytes_length; lia]. }
  rewrite E. generalize (u8 <$> take n l). intros l'. generalize (n - length l)%nat. intros k.
  induction l' as [|c l' IH]; cbn; [by destruct k|]. by rewrite IH.
Qed.

Lemma namecmp_zero s t : Z.of_nat (length s) <= 65536 -> namecmp s t = 0 <-> fname s = fname t.
Proof.
  intros Hs. unfold namecmp, strncmp_l, fname. rewrite strncmp_zero.
  rewrite (bytes_write (write_bytes ∅ 0 s) 65536 t DIRSIZ); [|intros k Hk].
  - assert (E : bytes (write_bytes (write_bytes ∅ 0 s) 65536 t) 0 DIRSIZ = bytes (write_bytes ∅ 0 s) 0 DIRSIZ).
    { apply bytes_ext. intros k Hk. rewrite ldb_write_bytes. unfold inr_, DIRSIZ in *. ranges. }
    by rewrite E, bytes_write.
  - rewrite ldb_write_bytes. unfold inr_. ranges.
Qed.

Lemma strncpy_l_eq t : strncpy_l t DIRSIZ = fname t ++ replicate (DIRSIZ - length (fname t)) 0.
Proof.
  unfold strncpy_l. rewrite bytes_strncpy by (unfold DIRSIZ; lia). cbv zeta. rewrite bytes_write by done. done.
Qed.
Lemma fname_length t : (length (fname t) <= DIRSIZ)%nat.
Proof. unfold fname. etrans; [apply cut0_length|]. rewrite length_fmap, length_take. lia. Qed.
Lemma strncpy_l_length t : length (strncpy_l t DIRSIZ) = DIRSIZ.
Proof. rewrite strncpy_l_eq, length_app, length_replicate. pose proof (fname_length t). lia. Qed.
Lemma fname_strncpy t : fname (strncpy_l t DIRSIZ) = fname t.
Proof.
  unfold fname at 1. rewrite take_ge by (by rewrite strncpy_l_length). rewrite strncpy_l_eq, fmap_app, fmap_replicate.
  assert (E : u8 <$> fname t = fname t).
  { unfold fname. generalize (take DIRSIZ t). intros l. induction l as [|c l IH]; [done|]. cbn. destruct (u8 c =? 0); [done|].
    cbn. rewrite u8_idem. f_equal. exact IH. }
  rewrite E. apply cut0_pad, cut0_nonzero.
Qed.

Lemma de_inum_mk inum nm : 0 <= inum < 2 ^ 16 -> de_inum (mk_dirent inum nm) = inum.
Proof. intros H. unfold de_inum, rd16, rd8, mk_dirent. cbn. rewrite u16_split. by apply wrap_small. Qed.
Lemma de_name_mk inum nm : length nm = DIRSIZ -> de_name (mk_dirent inum nm) = nm.
Proof. intros H. unfold de_name, rdbytes, mk_dirent. change (take DIRSIZ nm = nm). apply take_ge. by rewrite H. Qed.

(** ** Lookup *)

Lemma dir_lookup_some V ip name k :
  0 <= k < i_size ip / 16 -> dir_match V ip name k = true -> (forall k', 0 <= k' < k -> dir_match V ip name k' = false) ->
  dir_lookup V ip name = Some (de_inum (dir_entry V ip k), 16 * k).
Proof.
  intros Hk Hm Hbef. unfold dir_lookup. rewrite (proj2 (list_find_Some _ _ (Z.to_nat k) k)); [done|]. split_and!.
  - apply lookup_seqZ. lia.
  - done.
  - intros j y [-> ?]%lookup_seqZ Hj. rewrite Hbef by lia. done.
Qed.
Lemma dir_lookup_none V ip name : dir_lookup V ip name = None <-> forall k, 0 <= k < i_size ip / 16 -> dir_match V ip name k = false.
Proof.
  unfold dir_lookup. split.
  - destruct (list_find _ _) as [[? ?]|] eqn:E; [done|]. intros _ k Hk. apply list_find_None in E. rewrite Forall_forall in E.
    destruct (dir_match V ip name k) eqn:Em; [|done]. exfalso. apply (E k); [apply elem_of_seqZ; lia|done].
  - intros H. rewrite (proj2 (list_find_None _ _)); [done|]. apply Forall_forall. intros k Hk%elem_of_seqZ. rewrite H; [done|lia].
Qed.
Lemma dir_lookup_cases V ip name :
  dir_lookup V ip name = None \/ exists k, 0 <= k < i_size ip / 16 /\ dir_match V ip name k = true /\
    (forall k', 0 <= k' < k -> dir_match V ip name k' = false) /\ dir_lookup V ip name = Some (de_inum (dir_entry V ip k), 16 * k).
Proof.
  unfold dir_lookup. destruct (list_find _ _) as [[j k]|] eqn:E; [right|by left].
  apply list_find_Some in E as ([-> Hj]%lookup_seqZ & Hm & Hbef). exists (0 + Z.of_nat j). split_and!; [lia|lia|done| |done].
  intros k' Hk'. destruct (dir_match V ip name k') eqn:Em; [|done]. exfalso. apply (Hbef (Z.to_nat k') k'); [apply lookup_seqZ; lia|lia|done].
Qed.

(** The place of a new entry: the first free one, or the end. *)
Definition dir_slot (V : gmap Z block) (ip : inode) : Z :=
  match list_find (fun k => de_inum (dir_entry V ip k) = 0) (seqZ 0 (i_size ip / 16)) with
  | Some (_, k) => k
  | None => i_size ip / 16
  end.

Lemma dir_slot_spec V ip : 0 <= i_size ip ->
  0 <= dir_slot V ip <= i_size ip / 16 /\ (forall k, 0 <= k < dir_slot V ip -> de_inum (dir_entry V ip k) <> 0) /\
  (dir_slot V ip < i_size ip / 16 -> de_inum (dir_entry V ip (dir_slot V ip)) = 0).
Proof.
  intros Hs. assert (0 <= i_size ip / 16) by (apply Z.div_pos; lia). unfold dir_slot. destruct (list_find _ _) as [[j k]|] eqn:E.
  - apply list_find_Some in E as ([-> Hj]%lookup_seqZ & Hm & Hbef). split_and!; [lia|lia| |done].
    intros k' Hk' E0. apply (Hbef (Z.to_nat k') k'); [apply lookup_seqZ; lia|lia|done].
  - apply list_find_None in E. rewrite Forall_forall in E. split_and!; [lia|lia| |lia]. intros k Hk. apply E, elem_of_seqZ. lia.
Qed.

(** An entry written at the new place updates the map at its name only. *)
Lemma dir_lookup_link start size sb V ip V' ip' name inum :
  let k0 := dir_slot V ip in let de := mk_dirent inum (strncpy_l name DIRSIZ) in
  wrote start size sb V ip (16 * k0) de V' ip' -> 0 <= i_size ip -> i_size ip mod 16 = 0 -> 0 < inum < 2 ^ 16 ->
  dir_lookup V ip name = None -> Z.of_nat (length name) <= 65536 ->
  forall n', Z.of_nat (length n') <= 65536 ->
    (fname n' <> fname name -> dir_lookup V' ip' n' = dir_lookup V ip n') /\
    (n' = name -> dir_lookup V' ip' n' = Some (inum, 16 * k0)).
Proof.
  intros k0 de Hw Hs Hmod Hinum Hnone Hnl n' Hn'. destruct (dir_slot_spec V ip Hs) as (Hk0 & Hused & Hfree). fold k0 in Hk0, Hused, Hfree.
  assert (Hlen : length de = 16%nat) by (unfold de, mk_dirent; rewrite length_app, strncpy_l_length; done).
  pose proof (wt_size _ _ _ _ _ _ _ _ _ Hw) as Hs'. rewrite Hlen in Hs'. pose proof (Z.div_mod (i_size ip) 16 ltac:(lia)) as Hdm.
  assert (En : i_size ip' / 16 = Z.max (i_size ip / 16) (k0 + 1)) by (rewrite Hs'; zmod).
  assert (Hent : forall k, 0 <= k < i_size ip' / 16 -> dir_entry V' ip' k = if k =? k0 then de else dir_entry V ip k).
  { intros k Hk. pose proof (Z.mul_div_le (i_size ip') 16 ltac:(lia)). unfold dir_entry, fbytes. apply list_eq. intros j. rewrite list_lookup_fmap.
    destruct (decide (j < 16)%nat) as [Hj|Hj].
    - rewrite lookup_seqZ_lt by lia. cbn [fmap option_fmap option_map].
      rewrite (wt_byte _ _ _ _ _ _ _ _ _ Hw) by (clear - Hk H Hj; lia). rewrite Hlen.
      destruct (Z.eqb_spec k k0) as [->|Hne].
      + rewrite (proj2 (Z.leb_le _ _)), (proj2 (Z.ltb_lt _ _)) by lia. cbn [andb].
        replace (Z.to_nat (16 * k0 + Z.of_nat j - 16 * k0)) with j by lia. destruct (lookup_lt_is_Some_2 de j) as [x ->]; [lia|done].
      + rewrite list_lookup_fmap, lookup_seqZ_lt by lia. cbn. f_equal.
        destruct (Z.leb_spec (16 * k0) (16 * k + Z.of_nat j)), (Z.ltb_spec (16 * k + Z.of_nat j) (16 * k0 + Z.of_nat 16)); try done. lia.
    - rewrite lookup_seqZ_ge by lia. cbn [fmap option_fmap option_map]. destruct (k =? k0); symmetry; apply lookup_ge_None_2; rewrite ?length_fmap, ?length_seqZ, ?Hlen; lia. }
  assert (Hm : forall nm k, 0 <= k < i_size ip' / 16 -> k <> k0 -> dir_match V' ip' nm k = dir_match V ip nm k).
  { intros nm k Hk Hne. unfold dir_match. rewrite Hent by done. by rewrite (proj2 (Z.eqb_neq k k0)). }
  assert (Hm0 : forall nm, Z.of_nat (length nm) <= 65536 -> dir_match V' ip' nm k0 = bool_decide (fname nm = fname name)).
  { intros nm Hnm. unfold dir_match. rewrite Hent, Z.eqb_refl by lia. unfold de. rewrite de_inum_mk, de_name_mk by (lia || apply strncpy_l_length).
    rewrite (proj2 (Z.eqb_neq inum 0)) by lia. cbn [negb andb]. rewrite <- (fname_strncpy name).
    destruct (Z.eqb_spec (namecmp nm (strncpy_l name DIRSIZ)) 0) as [E|E]; symmetry.
    - apply bool_decide_eq_true. by apply namecmp_zero.
    - apply bool_decide_eq_false. by rewrite <- namecmp_zero. }
  assert (Hold0 : forall nm, k0 < i_size ip / 16 -> dir_match V ip nm k0 = false).
  { intros nm Hk. unfold dir_match. by rewrite (Hfree Hk). }
  split.
  - intros Hne. pose proof (Hm0 n' Hn') as H0. rewrite bool_decide_eq_false_2 in H0 by done.
    destruct (dir_lookup_cases V ip n') as [E|(k & Hk & Hmk & Hbef & E)]; rewrite E.
    + apply dir_lookup_none. intros k Hk. rewrite dir_lookup_none in E. destruct (Z.eq_dec k k0) as [->|]; [done|].
      rewrite Hm by done. apply E. lia.
    + assert (Hkne : k <> k0) by (intros ->; rewrite Hold0 in Hmk by lia; done).
      rewrite (dir_lookup_some V' ip' n' k); [rewrite Hent by lia; by rewrite (proj2 (Z.eqb_neq k k0))|lia|by rewrite Hm by lia|].
      intros k' Hk'. destruct (Z.eq_dec k' k0) as [->|]; [done|]. rewrite Hm by lia. by apply Hbef.
  - intros ->. rewrite dir_lookup_none in Hnone. rewrite (dir_lookup_some V' ip' name k0); [|lia|by rewrite Hm0, bool_decide_eq_true_2|].
    + rewrite Hent, Z.eqb_refl by lia. unfold de. by rewrite de_inum_mk by lia.
    + intros k' Hk'. rewrite Hm by lia. apply Hnone. lia.
Qed.

(** ** dirlink *)
Section Dirlink.
Context `{KI : KernelImage} `{KOK : !KernelImageOk} `{VD : VirtioDevice} `{VDOK : !VirtioDeviceOk}.
Context (start size : Z) (geom : 0 < start /\ 1 < size <= LOGSIZE /\ start + size < 2 ^ 31).
Variable P : gmap Z block -> Prop.
Let C (s : kstate) : Prop := P (k_disk s).

Lemma read_len_16 ip k : 0 <= k -> 16 * k + 16 <= i_size ip -> i_size ip <= 274432 -> read_len ip (16 * k) sizeof_dirent = 16.
Proof.
  intros Hk Hle Hmx. unfold read_len, sizeof_dirent. rewrite (proj2 (Z.ltb_ge _ _)), u32_small by lia. cbn [orb].
  rewrite (proj2 (Z.ltb_ge _ (16 * k))) by lia. by rewrite (proj2 (Z.ltb_ge _ _)) by lia.
Qed.

(** The search for a free entry. *)
Lemma wp_dir_slot p dk l V dp (Q : Z -> kstate -> Prop) s :
  let ip := inode_of s dp in
  txn start size p dk l V ∅ s -> file_ok V ip -> i_size ip mod 16 = 0 -> P dk ->
  (forall s', txn start size p dk l V ∅ s' -> frame p s s' -> Q (16 * dir_slot V ip) s') ->
  wpc (seq_rely p) C (loop (fun off =>
        let* ip := geti dp in
        if u32 off <? i_size ip then
          let* r := readi dp DLocal (u32 off) sizeof_dirent in
          let '(k, de) := r in
          if negb (k =? sizeof_dirent) then panic "dirlink read"
          else if de_inum de =? 0 then ret (inr off)
          else ret (inl (s32 (off + sizeof_dirent)))
        else ret (inr off)) 0) Q s.
Proof.
  intros ip Ht Hok Hmod HP HQ. pose proof (fo_size _ _ Hok) as Hsz. assert (Hmax : i_size ip <= 274432) by exact (proj2 Hsz).
  destruct (dir_slot_spec V ip (proj1 Hsz)) as (Hk0 & Hused & Hfree). pose proof (Z.div_mod (i_size ip) 16 ltac:(lia)) as Hdm.
  apply (wp_loop _ (fun off s' => exists k, off = 16 * k /\ 0 <= k <= dir_slot V ip /\ txn start size p dk l V ∅ s' /\ frame p s s')
    (fun off _ => i_size ip - off)).
  2: { exists 0. by split_and!; [lia..| |]. }
  2: { lia. }
  intros off s1 (k & -> & Hk & Ht1 & Hf1). unfold geti. do 2 wp_step. pose proof (frame_inode _ _ _ dp Hf1) as Ei. fold ip in Ei.
  rewrite Ei, u32_small by lia. destruct (Z.ltb_spec (16 * k) (i_size ip)) as [Hlt|Hge].
  2: { wp_step. assert (k = dir_slot V ip) as -> by lia. by apply HQ. }
  wp_step. eapply (wp_readi start size geom P p); [done|by rewrite Ei|done|lia|unfold sizeof_dirent; lia|unfold sizeof_dirent; lia|done|].
  rewrite Ei. intros s2 m bs Ht2 Hf2%rest_frame. change (set_mem (delivered DLocal bs) s1) with s1 in Hf2. unfold bs, m. clear bs m.
  rewrite read_len_16 by lia. change (16 =? sizeof_dirent) with true. cbn [negb]. fold (dir_entry V ip k).
  destruct (Z.eqb_spec (de_inum (dir_entry V ip k)) 0) as [E|E].
  - wp_step. assert (k = dir_slot V ip) as ->; [|apply HQ; [done|by etrans]].
    destruct (Z.eq_dec k (dir_slot V ip)) as [|Hne]; [done|]. by destruct (Hused k ltac:(lia)).
  - wp_step. unfold sizeof_dirent. rewrite s32_small by lia. split; [|lia]. exists (k + 1). split_and!; [lia|lia| |done|by etrans].
    destruct (Z.eq_dec k (dir_slot V ip)) as [->|Hne]; [|lia]. exfalso. apply E, Hfree. lia.
Qed.

Lemma wp_dirlink_new p dk l V dp name inum Q s :
  let ip := inode_of s dp in let sb := k_sb s in let k0 := dir_slot V ip in let de := mk_dirent inum (strncpy_l name DIRSIZ) in
  write_pre start size p dp dk l V (SLocal de) (16 * k0) de s -> i_type ip = T_DIR -> i_size ip mod 16 = 0 ->
  16 * k0 + 16 <= MAXFILE * BSIZE -> length (k_itable s) = NINODE -> P dk -> dir_lookup V ip name = None ->
  (forall l' V' ip' s', txn start size p dk l' V' ∅ s' -> iframe p dp ip' s s' -> wrote start size sb V ip (16 * k0) de V' ip' ->
     Z.of_nat (length l') <= Z.of_nat (length l) + nbitmap sb + 3 -> Q 0 s') ->
  wpc (seq_rely p) C (dirlink dp name inum) Q s.
Proof.
  intros ip sb k0 de Hpre Hty Hmod Hmx Hlen HP Hnone HQ. pose proof Hpre as [Ht Hi Hfs Hok Hin Hdi Hsrc Hsp Hroom]. fold ip sb in Hfs, Hok, Hin, Hdi, Hsp, Hroom.
  pose proof (inode_file_ok start size geom V sb ip (fs_layout _ _ _ _ Hfs) (fs_len _ _ _ _ Hfs) Hok) as Hfok.
  destruct (dir_slot_spec V ip ltac:(apply Hok)) as (Hk0 & _ & _). fold k0 in Hk0. pose proof (Z.div_mod (i_size ip) 16 ltac:(lia)) as Hdm.
  assert (Hdl : length de = 16%nat) by (unfold de, mk_dirent; rewrite length_app, strncpy_l_length; done).
  assert (Emx : MAXFILE * BSIZE = 274432) by done.
  unfold dirlink. wp_step. apply (wp_dirlookup start size geom P p dk l V dp name); [done..| |].
  2: { intros ? ? E. fold ip in E. congruence. }
  intros _ s1 Ht1 Hf1. wp_step. pose proof (frame_inode _ _ _ dp Hf1) as E1. fold ip in E1.
  apply (wp_dir_slot p dk l V dp); rewrite ?E1; [done|done|done|done|]. fold k0. intros s2 Ht2 Hf2. cbv zeta. fold de.
  assert (Hf2' : frame p s s2) by by etrans. pose proof (frame_inode _ _ _ dp Hf2') as E2. fold ip in E2. pose proof (frame_sb _ _ _ Hf2') as Es. fold sb in Es.
  rewrite u32_small by lia. replace sizeof_dirent with (Z.of_nat (length de)) by (by rewrite Hdl). wp_step.
  apply (wp_writei start size geom P p dp dk l V (SLocal de) (16 * k0) de); rewrite ?E2, ?Es, ?Hdl; [|lia|lia|done|].
  - split; rewrite ?E2, ?Es; try done. by rewrite (frame_itable _ _ _ Hf2').
  - intros l3 V3 ip3 s3 Ht3 Hf3 Hw Hl3. rewrite Z.eqb_refl. cbn [negb]. wp_step. eapply HQ; [done| |done|].
    + eapply iframe_trans; [apply iframe_id; exact Hf2'|]. exact Hf3.
    + assert (nblk (16 * k0) (Z.of_nat 16) <= 1); [|lia]. unfold nblk, BSIZE. zmod.
Qed.
End Dirlink.
