(* ===== verification/FsPath.v ===== *)
(** * namex: path names against the tree of directories on disk

    [resolve] walks a list of path components through the directories of the
    logical disk; namex does the same through the table of in-memory inodes,
    whose references it leaves as they were, but for the inode it returns. *)
From S2P Require Import Prelude Memory State Kalloc PageTable Vm VmSpec UserMem UserCopy Sched SchedSpec Sleeplock Virtio VirtioSpec Bio BioSpec Codec Log LogSpec LogCrash Txn Fs FsCodec FsSpec FsAlloc FsInode FsTheorems FsWrite FsDir.

(** ** The tree on disk *)

(** Inode [inum] as ilock reads it. *)
Definition ino (V : gmap Z block) (sb : superblock) (inum : Z) : inode :=
  fill_ino (dino V sb inum) (mkInode ROOTDEV inum 0 (mkSleeplock false 0) false 0 0 0 0 0 []).

(** An inode in use and linked. *)
Definition live_ino (V : gmap Z block) (sb : superblock) (inum : Z) : Prop :=
  0 < inum < sb_ninodes sb /\ di_type (dino V sb inum) <> 0 /\ di_nlink (dino V sb inum) <> 0.

(** Every directory is a sound file of whole entries, and they name linked inodes. *)
Definition tree_ok (V : gmap Z block) (sb : superblock) : Prop :=
  forall inum, live_ino V sb inum -> di_type (dino V sb inum) = T_DIR ->
    file_ok V (ino V sb inum) /\ di_size (dino V sb inum) mod 16 = 0 /\
    forall name n off, dir_lookup V (ino V sb inum) name = Some (n, off) -> live_ino V sb n.

(** The inode number a path leads to from [inum]; that of the directory of the
    last component with [parent]. *)
Fixpoint walk (isdir : Z -> bool) (child : Z -> list Z -> option Z) (parent : bool) (inum : Z) (elems : list (list Z)) : option Z :=
  match elems with
  | [] => if parent then None else Some inum
  | e :: es =>
      if isdir inum then
        if parent && (length es =? 0)%nat then Some inum
        else match child inum (take DIRSIZ e) with Some n => walk isdir child parent n es | None => None end
      else None
  end.
Definition resolve (V : gmap Z block) (sb : superblock) : bool -> Z -> list (list Z) -> option Z :=
  walk (fun inum => di_type (dino V sb inum) =? T_DIR) (fun inum name => fst <$> dir_lookup V (ino V sb inum) name).

Lemma resolve_cons V sb parent n e es : resolve V sb parent n (e :: es) =
  if di_type (dino V sb n) =? T_DIR then
    if parent && (length es =? 0)%nat then Some n
    else match dir_lookup V (ino V sb n) (take DIRSIZ e) with Some (m, _) => resolve V sb parent m es | None => None end
  else None.
Proof. unfold resolve at 1. cbn [walk]. by destruct (dir_lookup _ _ _) as [[m off]|]. Qed.

(** ** The table of in-memory inodes *)

(** What ilock leaves agrees with the disk. *)
Definition matches (V : gmap Z block) (sb : superblock) (ip : inode) : Prop :=
  let di := dino V sb (i_inum ip) in
  i_type ip = di_type di /\ i_nlink ip = di_nlink di /\ i_size ip = di_size di /\ i_addrs ip = di_addrs di.

(** No inode but [lk] is locked. *)
Record itab (V : gmap Z block) (sb : superblock) (lk : option nat) (t : list inode) : Prop := {
  it_len : length t = NINODE;
  it_lock : forall j ip, t !! j = Some ip -> Some j <> lk -> sl_locked (i_lock ip) = false;
  it_ref : forall j ip, t !! j = Some ip -> 0 <= i_ref ip;
  it_live : forall j ip, t !! j = Some ip -> 0 < i_ref ip -> i_dev ip = ROOTDEV /\ (i_valid ip = true -> matches V sb ip)
}.

(** The references of [t] are those of [t0] and [d] more, slot by slot, and no
    slot in use in [t0] has changed hands. *)
Definition refs_plus (t0 t : list inode) (d : nat -> Z) : Prop :=
  length t = length t0 /\ forall j a b, t0 !! j = Some a -> t !! j = Some b ->
    i_ref b = i_ref a + d j /\ (0 < i_ref a -> i_inum b = i_inum a /\ i_dev b = i_dev a).
Definition one (o : option nat) (j : nat) : Z := if decide (o = Some j) then 1 else 0.

Lemma matches_load V sb ip : (i_valid ip = true -> matches V sb ip) -> matches V sb (load V sb ip) /\ i_valid (load V sb ip) = true.
Proof. unfold load. destruct (i_valid ip) eqn:E; [auto|]. intros _. split; [|done]. by unfold matches. Qed.

Lemma matches_dir V sb ip name : matches V sb ip -> dir_lookup V ip name = dir_lookup V (ino V sb (i_inum ip)) name.
Proof.
  intros (_ & _ & Hs & Ha). change (i_addrs ip = i_addrs (ino V sb (i_inum ip))) in Ha.
  assert (Hb : forall o, fbyte V ip o = fbyte V (ino V sb (i_inum ip)) o).
  { intros o. unfold fbyte, blk_of, addr_at. by rewrite Ha. }
  assert (He : forall k, dir_entry V ip k = dir_entry V (ino V sb (i_inum ip)) k).
  { intros k. unfold dir_entry, fbytes. apply list_fmap_ext. intros _ o _. apply Hb. }
  unfold dir_lookup. change (i_size (ino V sb (i_inum ip))) with (di_size (dino V sb (i_inum ip))). rewrite <- Hs.
  rewrite (list_find_ext _ (fun k => dir_match V (ino V sb (i_inum ip)) name k = true)) by (intros k; unfold dir_match; by rewrite He).
  destruct (list_find _ _) as [[j k]|]; [|done]. by rewrite He.
Qed.

Lemma dir_lookup_fname V ip a b : fname a = fname b -> Z.of_nat (length a) <= 65536 -> Z.of_nat (length b) <= 65536 ->
  dir_lookup V ip a = dir_lookup V ip b.
Proof.
  intros E Ha Hb. unfold dir_lookup. rewrite (list_find_ext _ (fun k => dir_match V ip b k = true)); [done|].
  intros k. unfold dir_match. rewrite !andb_true_iff, !Z.eqb_eq, !namecmp_zero by done. by rewrite E.
Qed.

(** Equal directories make sound files. *)
Lemma matches_file V sb ip : matches V sb ip -> i_dev ip = ROOTDEV -> file_ok V (ino V sb (i_inum ip)) -> file_ok V ip.
Proof.
  intros (_ & _ & Hs & Ha) Hd [H1 H2 H3 H4 H5].
  change (i_size (ino V sb (i_inum ip))) with (di_size (dino V sb (i_inum ip))) in *. rewrite <- Hs in *.
  change (i_addrs ip = i_addrs (ino V sb (i_inum ip))) in Ha.
  assert (Hat : forall k, addr_at ip k = addr_at (ino V sb (i_inum ip)) k) by (intros; unfold addr_at; by rewrite Ha).
  split; [done|done|by rewrite Hat| |done]. intros k Hk Hlt. unfold blk_of. rewrite !Hat. by apply H4.
Qed.

(** ** Table updates *)
Lemma refs_plus_alter t0 t d i f d' ip :
  refs_plus t0 t d -> t !! i = Some ip -> i_ref (f ip) = i_ref ip + d' ->
  (forall a, t0 !! i = Some a -> 0 < i_ref a -> i_inum (f ip) = i_inum ip /\ i_dev (f ip) = i_dev ip) ->
  refs_plus t0 (alter f i t) (fun j => d j + if decide (i = j) then d' else 0).
Proof.
  intros [Hl H] Hip Hr Hk. split; [by rewrite length_alter|]. intros j a b Ha Hb. destruct (decide (i = j)) as [<-|Hne].
  - rewrite list_lookup_alter_eq, Hip in Hb. injection Hb as <-. destruct (H i a ip Ha Hip) as [E1 E2]. split; [lia|].
    intros Hp. destruct (E2 Hp) as [E3 E4], (Hk a Ha Hp) as [E5 E6]. by rewrite E5, E6.
  - rewrite list_lookup_alter_ne in Hb by done. destruct (H j a b Ha Hb) as [E1 E2]. split; [lia|done].
Qed.

Lemma refs_plus_ext t0 t d d' : refs_plus t0 t d -> (forall j, d j = d' j) -> refs_plus t0 t d'.
Proof. intros [Hl H] E. split; [done|]. intros j a b Ha Hb. rewrite <- E. by apply H. Qed.

Lemma itab_alter V sb lk lk' t i f ip :
  itab V sb lk t -> t !! i = Some ip -> 0 <= i_ref (f ip) ->
  (Some i <> lk' -> sl_locked (i_lock (f ip)) = false) -> (forall j, j <> i -> Some j <> lk' -> Some j <> lk) ->
  (0 < i_ref (f ip) -> i_dev (f ip) = ROOTDEV /\ (i_valid (f ip) = true -> matches V sb (f ip))) ->
  itab V sb lk' (alter f i t).
Proof.
  intros [H1 H2 H3 H4] Hip Hr Hl Hlk Hlive. split; [by rewrite length_alter|..]; intros j x; (destruct (decide (i = j)) as [<-|Hne];
    [rewrite list_lookup_alter_eq, Hip; intros [= <-]|rewrite list_lookup_alter_ne by done; intros Hx]); try done.
  - intros Hj. apply (H2 j x Hx), Hlk; [congruence|done].
  - by eapply H3.
  - by apply (H4 j).
Qed.

(** ** Path components as bytes *)
Definition is_char (c : Z) : Prop := 0 < c < 256.

Lemma u8_byte c : 0 <= c < 256 -> u8 c = c.
Proof. apply Z.mod_small. Qed.

Lemma cut0_chars l : Forall is_char (cut0 l) -> cut0 (u8 <$> l) = cut0 l.
Proof.
  induction l as [|c l IH]; [done|]. cbn [cut0 fmap list_fmap]. destruct (Z.eqb_spec c 0) as [->|Hc]; [done|].
  intros [Hx Hl]%Forall_cons. unfold is_char in Hx. rewrite (u8_byte c) by lia. rewrite (proj2 (Z.eqb_neq c 0)) by lia. f_equal. auto.
Qed.

Lemma fname_skip name e : length name = DIRSIZ -> cut0 name = take DIRSIZ e -> Forall is_char e -> fname name = fname (take DIRSIZ e).
Proof.
  intros Hl Hc He. unfold fname. rewrite !(take_ge _ DIRSIZ) by (rewrite ?length_take; lia).
  assert (Ht : Forall is_char (take DIRSIZ e)) by by apply Forall_take.
  rewrite cut0_chars by (by rewrite Hc). rewrite Hc. clear Hc.
  induction Ht as [|c l Hc Hl' IH]; [done|]. unfold is_char in Hc. cbn [cut0 fmap list_fmap]. rewrite (u8_byte c) by lia.
  rewrite (proj2 (Z.eqb_neq c 0)) by lia. f_equal. apply IH.
Qed.

Lemma skip_slashes_Forall (P : Z -> Prop) l : Forall P l -> Forall P (skip_slashes l).
Proof. induction 1 as [|c l Hc Hl IH]; [done|]. cbn [skip_slashes]. destruct (c =? slash); [done|by constructor]. Qed.

Lemma span_elem_Forall (P : Z -> Prop) l : Forall P l -> Forall P (span_elem l).2.
Proof. induction 1 as [|c l Hc Hl IH]; [done|]. cbn [span_elem]. destruct (c =? slash); [by constructor|]. by destruct (span_elem l). Qed.

Lemma skipelem_Forall (P : Z -> Prop) path name rest name' :
  skipelem path name = Some (rest, name') -> Forall P path -> Forall P rest.
Proof.
  unfold skipelem. intros E Hp. apply skip_slashes_Forall in Hp. destruct (skip_slashes path) as [|c l]; [done|].
  apply span_elem_Forall in Hp. destruct (span_elem (c :: l)) as [e r]. injection E as <- _. by apply skip_slashes_Forall.
Qed.

Lemma path_split_Forall (P : Z -> Prop) l acc : Forall P acc -> Forall P l -> Forall (Forall P) (path_split acc l).
Proof.
  intros Ha Hl. revert acc Ha. induction Hl as [|c l Hc Hl IH]; intros acc Ha; cbn [path_split]; [by constructor|].
  destruct (c =? slash); [constructor; [done|by apply IH]|]. apply IH. apply Forall_app; split; [done|by constructor].
Qed.

Lemma path_elems_Forall (P : Z -> Prop) l : Forall P l -> Forall (Forall P) (path_elems l).
Proof.
  intros Hl. apply Forall_forall. intros e [_ He]%list_elem_of_filter.
  exact (proj1 (Forall_forall _ _) (path_split_Forall P l [] (Forall_nil_2 _) Hl) e He).
Qed.

(** ** namex, step by step *)

(** Everything but the table of inodes is framed. *)
Definition tframe (p : nat) (s s' : kstate) : Prop := frame p (set_itable (fun _ => k_itable s') s) s'.

Section Namex.
Context `{KI : KernelImage} `{VD : VirtioDevice} `{VDOK : !VirtioDeviceOk}.
Context (start size : Z) (geom : 0 < start /\ 1 < size <= LOGSIZE /\ start + size < 2 ^ 31).
Variable P : gmap Z block -> Prop.
Let C (s : kstate) : Prop := P (k_disk s).
Context (p : nat) (dk : gmap Z block) (l : list Z) (V : gmap Z block) (s0 : kstate).
Let sb := k_sb s0.
Let t0 := k_itable s0.

(** A process on its way along a path: the inode [lk] is locked, and the
    process holds [d] references more than it had. *)
Record walking (lk : option nat) (d : nat -> Z) (s : kstate) : Prop := {
  wk_txn : txn start size p dk l V ∅ s;
  wk_frame : tframe p s0 s;
  wk_tab : itab V sb lk (k_itable s);
  wk_refs : refs_plus t0 (k_itable s) d
}.

Lemma wk_sb lk d s : walking lk d s -> k_sb s = sb.
Proof. intros [_ Hf _ _]. exact (frame_sb _ _ _ Hf). Qed.

Lemma wk_held lk d s j : walking lk d s -> j ∉ k_held s.
Proof. intros [Ht _ _ _]. rewrite (view_held _ _ _ _ _ _ _ _ Ht). apply not_elem_of_nil. Qed.

Lemma walking_ext lk d d' s : walking lk d s -> (forall j, d j = d' j) -> walking lk d' s.
Proof. intros [? ? ? ?] E. split; try done. by eapply refs_plus_ext. Qed.

Lemma wk_lookup lk d s i ip : walking lk d s -> k_itable s !! i = Some ip -> (i < length (k_itable s))%nat /\ inode_of s i = ip.
Proof. intros _ Hi. split; [by eapply lookup_lt_Some|by apply inode_of_lookup]. Qed.

(** A step that changes one inode of the table. *)
Lemma walking_upd lk lk' d d' s i f ip s' :
  walking lk d s -> k_itable s !! i = Some ip -> txn start size p dk l V ∅ s' -> frame p (upd_inode i f s) s' ->
  0 <= i_ref (f ip) -> (Some i <> lk' -> sl_locked (i_lock (f ip)) = false) -> (forall j, j <> i -> Some j <> lk' -> Some j <> lk) ->
  (0 < i_ref (f ip) -> i_dev (f ip) = ROOTDEV /\ (i_valid (f ip) = true -> matches V sb (f ip))) ->
  i_ref (f ip) = i_ref ip + d' -> (0 < i_ref ip - d i -> i_inum (f ip) = i_inum ip /\ i_dev (f ip) = i_dev ip) ->
  walking lk' (fun j => d j + if decide (i = j) then d' else 0) s' /\ k_itable s' !! i = Some (f ip) /\
  (forall j, j <> i -> k_itable s' !! j = k_itable s !! j).
Proof.
  intros [Ht Hf Htab Hrefs] Hi Ht' Hf' H1 H2 H3 H4 H5 H6.
  assert (Et : k_itable s' = alter f i (k_itable s)) by exact (frame_itable _ _ _ Hf').
  rewrite Et. split_and!.
  - split; [done| |rewrite Et; by eapply itab_alter|rewrite Et; eapply refs_plus_alter; [done|done|done|]].
    + unfold tframe in *. rewrite Et. etrans; [|exact Hf']. apply (frame_upd_inode p i f) in Hf.
      by unfold upd_inode, set_itable in *.
    + intros a Ha Hp. apply H6. destruct (proj2 Hrefs i a ip Ha Hi) as [E _]. lia.
  - by rewrite list_lookup_alter_eq, Hi.
  - intros j Hj. by apply list_lookup_alter_ne.
Qed.

(** Slot [i] holds a reference to inode [n]; it is locked by the process, with its contents loaded. *)
Definition refers (s : kstate) (i : nat) (n : Z) : Prop :=
  exists ip, k_itable s !! i = Some ip /\ 0 < i_ref ip /\ i_inum ip = n.
Definition locked (s : kstate) (i : nat) (n : Z) : Prop :=
  exists ip, k_itable s !! i = Some ip /\ 0 < i_ref ip /\ i_inum ip = n /\ i_lock ip = mkSleeplock true (pid_of p s0) /\
    i_valid ip = true /\ i_dev ip = ROOTDEV /\ matches V sb ip.

Lemma locked_refers s i n : locked s i n -> refers s i n.
Proof. intros (ip & ? & ? & ? & _). by exists ip. Qed.

Lemma wk_pid lk d s : walking lk d s -> pid_of p s = pid_of p s0.
Proof. intros [_ Hf _ _]. unfold pid_of. by rewrite (frame_proc _ _ _ Hf). Qed.

Context (Hib : forall n, 0 < n < sb_ninodes sb -> 0 <= IBLOCK n sb < 2 ^ 31) (HP : P dk)
  (Hb : forall j a, t0 !! j = Some a -> 0 <= i_ref a < 2 ^ 30).

Lemma no_delta (d : nat -> Z) i j : d j + (if decide (i = j) then 0 else 0) = d j.
Proof. destruct (decide _); lia. Qed.

Lemma walk_ilock d s i n Q :
  walking None d s -> refers s i n -> live_ino V sb n ->
  (forall s', walking (Some i) d s' -> locked s' i n -> Q tt s') ->
  wpc (seq_rely p) C (ilock (Some i)) Q s.
Proof.
  intros Hw (ip & Hi & Hr & <-) (Hn & Hty & _) HQ. destruct (wk_lookup _ _ _ _ _ Hw Hi) as [Hlt Eip].
  pose proof (wk_sb _ _ _ Hw) as Esb. pose proof Hw as [Ht _ Htab _]. destruct (it_live _ _ _ _ Htab _ _ Hi Hr) as [Hd Hm].
  destruct (matches_load _ _ _ Hm) as [Hm' Hv'].
  apply (wp_ilock (live := true) start size geom P p dk l V); rewrite ?Eip, ?Esb; try done; [lia|by eapply it_lock|by apply Hib|].
  intros s' Ht' Hf'. set (ip' := set_i_lock _ _) in Hf'.
  assert (E : i_ref ip' = i_ref ip /\ i_inum ip' = i_inum ip /\ i_dev ip' = i_dev ip) by (unfold ip', load; by destruct (i_valid ip)).
  destruct E as (E1 & E2 & E3).
  destruct (walking_upd None (Some i) d 0 s i (fun _ => ip') ip s' Hw Hi Ht' Hf') as (Hw' & Hi' & _); try lia; try done.
  { intros _. split; [by rewrite E3|]. by intros _. }
  eapply HQ; [eapply walking_ext; [exact Hw'|intros; apply no_delta]|].
  exists ip'. rewrite E1, E2, E3. split_and!; try done. by rewrite <- (wk_pid _ _ _ Hw).
Qed.

Lemma walk_iunlock d s i n Q :
  walking (Some i) d s -> locked s i n ->
  (forall s', walking None d s' -> refers s' i n -> (forall j, j <> i -> k_itable s' !! j = k_itable s !! j) -> Q tt s') ->
  wpc (seq_rely p) C (iunlock (Some i)) Q s.
Proof.
  intros Hw (ip & Hi & Hr & <- & Hl & Hv & Hd & Hm) HQ. destruct (wk_lookup _ _ _ _ _ Hw Hi) as [Hlt Eip].
  pose proof Hw as [Ht _ Htab _].
  apply (wp_iunlock p); [by eapply view_seq|rewrite Eip; lia|by rewrite Eip, (wk_pid _ _ _ Hw)|]. set (s' := set_proc _ _).
  assert (Ht' : txn start size p dk l V ∅ s').
  { destruct (view_inode start size p dk l V ∅ i (set_i_lock (mkSleeplock false 0)) s Ht) as [act [? ? ? ? ? ? ? ?]].
    exists act. split; try done. by apply bio_ok_woken. }
  destruct (walking_upd (Some i) None d 0 s i (set_i_lock (mkSleeplock false 0)) ip s' Hw Hi Ht') as (Hw' & Hi' & Hj'); try done.
  { apply rest_frame. etrans; [|apply rest_eq_woken]. done. }
  { cbn. lia. }
  { intros j Hj _ [= ->]. done. }
  { cbn. lia. }
  eapply HQ; [eapply walking_ext; [exact Hw'|intros; apply no_delta]|by eexists|done].
Qed.

Lemma walk_iput lk d s i n Q :
  walking lk d s -> refers s i n -> live_ino V sb n -> 0 < d i <= 2 ->
  (forall s', walking lk (fun j => d j + if decide (i = j) then -1 else 0) s' ->
    (forall j m, j <> i \/ d i = 2 -> refers s j m -> refers s' j m) -> Q tt s') ->
  wpc (seq_rely p) C (iput i) Q s.
Proof.
  intros Hw (ip & Hi & Hr & <-) (_ & _ & Hn) Hd HQ. destruct (wk_lookup _ _ _ _ _ Hw Hi) as [Hlt Eip].
  pose proof Hw as [Ht _ Htab Hrefs]. destruct (it_live _ _ _ _ Htab _ _ Hi Hr) as [Hdev Hm].
  destruct (lookup_lt_is_Some_2 t0 i) as [a Ha]; [by rewrite <- (proj1 Hrefs)|].
  destruct (proj2 Hrefs i a ip Ha Hi) as [Er _]. pose proof (Hb i a Ha).
  assert (Es : s32 (i_ref ip - 1) = i_ref ip - 1) by (apply s32_small; lia).
  apply wp_iput_keep; [by eapply wk_held|rewrite Eip|].
  { destruct (i_valid ip) eqn:Ev; [|by rewrite andb_false_r]. destruct (Hm eq_refl) as (_ & -> & _).
    rewrite (proj2 (Z.eqb_neq _ 0)) by done. by rewrite andb_false_r. }
  set (f := fun ip : inode => _).
  destruct (walking_upd lk lk d (-1) s i f ip (upd_inode i f s) Hw Hi) as (Hw' & Hi' & Hj'); try done.
  { by apply view_inode. }
  { cbn. lia. } { exact (it_lock _ _ _ _ Htab _ _ Hi). }
  apply HQ; [done|]. intros j m Hj (x & Hx & Hxr & Hxn). destruct (decide (j = i)) as [->|Hne].
  - destruct Hj as [|Hj]; [done|]. rewrite Hi in Hx. injection Hx as <-. exists (f ip). split_and!; [done| |done]. cbn. lia.
  - exists x. by rewrite Hj'.
Qed.

(** iget, by table: it takes a reference to [n] in the slot that holds it or in a free one. *)
Definition free_slot (t : list inode) (e : nat) : Prop := exists ip, t !! e = Some ip /\ i_ref ip = 0.

(** Taking one more reference in slot [j]. *)
Lemma walk_take lk d s n j f ip s' :
  walking lk d s -> (forall k, 0 <= d k) -> k_itable s !! j = Some ip -> i_ref (f ip) = i_ref ip + 1 -> i_inum (f ip) = n ->
  i_dev (f ip) = ROOTDEV -> i_lock (f ip) = i_lock ip -> (i_ref ip = 0 -> i_valid (f ip) = false) ->
  (0 < i_ref ip -> i_inum ip = n /\ i_dev ip = ROOTDEV /\ i_valid (f ip) = i_valid ip /\ (matches V sb ip -> matches V sb (f ip))) ->
  txn start size p dk l V ∅ s' -> frame p s s' ->
  walking lk (fun k => d k + if decide (j = k) then 1 else 0) (upd_inode j f s') /\ refers (upd_inode j f s') j n /\
  (forall i m, locked s i m -> locked (upd_inode j f s') i m).
Proof.
  intros Hw Hd Hj Hr1 Hn1 Hd1 Hl1 Hz Hp Ht' Hf'. pose proof Hw as [_ _ Htab Hrefs]. pose proof (it_ref _ _ _ _ Htab _ _ Hj) as Hge.
  destruct (walking_upd lk lk d 1 s j f ip (upd_inode j f s') Hw Hj) as (Hw' & Hj' & Ho); try done.
  - by apply view_inode.
  - by apply frame_upd_inode.
  - lia.
  - rewrite Hl1. by eapply it_lock.
  - intros _. split; [done|]. intros Hv. destruct (decide (i_ref ip = 0)) as [Z0|Z0]; [rewrite (Hz Z0) in Hv; done|].
    destruct (Hp ltac:(lia)) as (_ & _ & Ev & Hm). apply Hm. rewrite Ev in Hv. by apply (it_live _ _ _ _ Htab _ _ Hj); [lia|].
  - intros Hpos. specialize (Hd j). destruct (Hp ltac:(lia)) as (? & ? & _). split; congruence.
  - split; [done|]. split; [exists (f ip); split_and!; [done|lia|done]|].
    intros i m (y & Hy & Hyr & Hyn & Hyl & Hyv & Hyd & Hym). destruct (decide (i = j)) as [->|Hne].
    + simplify_eq. destruct (Hp Hyr) as (E1 & E2 & E3 & E4). exists (f ip). split_and!; try done; try congruence; [lia|auto].
    + exists y. by rewrite Ho.
Qed.

Lemma walk_slot lk d s n :
  walking lk d s -> (exists e, free_slot (k_itable s) e) -> (forall j, 0 <= d j <= 2) ->
  exists j f, iget_slot_of (k_itable s) ROOTDEV n = Some (j, f) /\
    forall s', txn start size p dk l V ∅ s' -> frame p s s' ->
      walking lk (fun k => d k + if decide (j = k) then 1 else 0) (upd_inode j f s') /\ refers (upd_inode j f s') j n /\
      (forall i m, locked s i m -> locked (upd_inode j f s') i m).
Proof.
  intros Hw (e & x & He & Hxr) Hd. pose proof Hw as [_ _ Htab Hrefs]. unfold iget_slot_of.
  assert (Hd0 : forall k, 0 <= d k) by (intros k; apply Hd).
  destruct (list_find (fun ip => ihit ROOTDEV n ip = true) (k_itable s)) as [[j ip]|] eqn:El.
  - apply list_find_Some in El as (Hj & Hh & _). unfold ihit in Hh. rewrite !andb_true_iff, Z.ltb_lt, !Z.eqb_eq in Hh.
    destruct Hh as ((Hpos & Hdev) & Hn). exists j, (fun ip => set_i_ref (s32 (i_ref ip + 1)) ip). split; [done|].
    destruct (lookup_lt_is_Some_2 t0 j) as [a Ha]; [rewrite <- (proj1 Hrefs); by eapply lookup_lt_Some|].
    destruct (proj2 Hrefs j a ip Ha Hj) as [Er _]. pose proof (Hb j a Ha). specialize (Hd j). intros s'.
    eapply walk_take; [exact Hw|exact Hd0|exact Hj|apply s32_small; lia|done|done|done|lia|done].
  - destruct (list_find (fun ip => i_ref ip = 0) (k_itable s)) as [[j ip]|] eqn:Ef.
    + apply list_find_Some in Ef as (Hj & Hz & _). eexists j, _. split; [done|]. intros s'.
      eapply walk_take; [exact Hw|exact Hd0|exact Hj|cbn; lia|done|done|done|done|lia].
    + apply list_find_None in Ef. exact (False_ind _ (proj1 (Forall_forall _ _) Ef x (list_elem_of_lookup_2 _ _ _ He) Hxr)).
Qed.

Lemma walking_frame lk d s s' : walking lk d s -> txn start size p dk l V ∅ s' -> frame p s s' -> walking lk d s' /\ k_itable s' = k_itable s.
Proof.
  intros [Ht Hf Htab Hr] Ht' Hf'. pose proof (frame_itable _ _ _ Hf') as E. split; [|done]. split; rewrite ?E; try done.
  unfold tframe in *. rewrite E. by etrans.
Qed.

Lemma walk_iunlockput d s i n Q :
  walking (Some i) d s -> locked s i n -> live_ino V sb n -> 0 < d i <= 2 ->
  (forall s', walking None (fun j => d j + if decide (i = j) then -1 else 0) s' ->
    (forall j m, j <> i \/ d i = 2 -> refers s j m -> refers s' j m) -> Q tt s') ->
  wpc (seq_rely p) C (iunlockput i) Q s.
Proof.
  intros Hw Hl Hn Hd HQ. unfold iunlockput. wp_step. eapply walk_iunlock; [done|done|]. intros s1 Hw1 Hr1 Ho1.
  eapply walk_iput; [done|done|done|done|]. intros s2 Hw2 Ho2. apply HQ; [done|]. intros j m Hj Hr. apply Ho2; [done|].
  destruct (decide (j = i)) as [->|Hne].
  - apply locked_refers in Hl as (x & Hx & _ & <-). destruct Hr as (y & Hy & _ & <-). by simplify_eq.
  - destruct Hr as (y & ?). exists y. by rewrite Ho1.
Qed.

Context (Htree : tree_ok V sb) (Hfree : exists a b, a <> b /\ free_slot t0 a /\ free_slot t0 b).

Lemma walk_free lk d s i : walking lk d s -> (forall j, j <> i -> d j = 0) -> exists e, free_slot (k_itable s) e.
Proof.
  intros [_ _ _ [Hl Hr]] Hd. destruct Hfree as (a & b & Hab & Ha & Hb').
  assert (He : exists e, e <> i /\ free_slot t0 e) by (destruct (decide (a = i)) as [->|]; [exists b|exists a]; done).
  destruct He as (e & Hne & x & Hx & Hx0). exists e.
  destruct (lookup_lt_is_Some_2 (k_itable s) e) as [y Hy]; [rewrite Hl; by eapply lookup_lt_Some|].
  exists y. split; [done|]. destruct (Hr e x y Hx Hy) as [E _]. rewrite E, Hd by done. lia.
Qed.

Lemma one_self i : one (Some i) i = 1.
Proof. unfold one. by rewrite decide_True. Qed.
Lemma one_other i j : j <> i -> one (Some i) j = 0.
Proof. intros H. unfold one. rewrite decide_False; congruence. Qed.
Lemma one_range o j : 0 <= one o j <= 1.
Proof. unfold one. destruct (decide _); lia. Qed.

Lemma walk_dirlookup s i n name Q :
  walking (Some i) (one (Some i)) s -> locked s i n -> live_ino V sb n -> di_type (dino V sb n) = T_DIR ->
  (dir_lookup V (ino V sb n) name = None -> forall s', walking (Some i) (one (Some i)) s' -> locked s' i n -> Q None s') ->
  (forall m off, dir_lookup V (ino V sb n) name = Some (m, off) -> live_ino V sb m -> forall j s',
     walking (Some i) (fun k => one (Some i) k + if decide (j = k) then 1 else 0) s' -> locked s' i n -> refers s' j m ->
     Q (Some (j, off)) s') ->
  wpc (seq_rely p) C (dirlookup i name) Q s.
Proof.
  intros Hw Hl Hn Hty HN HS. pose proof Hl as (ip & Hi & Hr & Ein & _ & _ & Hd & Hm). destruct (wk_lookup _ _ _ _ _ Hw Hi) as [Hlt Eip].
  destruct (Htree n Hn Hty) as (Hok & Hmod & Hch). pose proof (matches_dir V sb ip name Hm) as Edir. rewrite Ein in Edir.
  pose proof (matches_file V sb ip Hm Hd) as Hfile. rewrite Ein in Hfile.
  assert (Hl' : forall s', k_itable s' = k_itable s -> locked s' i n) by (intros s' E; unfold locked; by rewrite E).
  pose proof Hm as (Ht1 & _ & Hsz1 & _). rewrite Ein in Ht1, Hsz1.
  apply (wp_dirlookup start size geom P p dk l V i name); rewrite ?Eip; [by destruct Hw|by apply Hfile|congruence|congruence|done| | |].
  - apply (it_len _ _ _ _ (wk_tab _ _ _ Hw)).
  - intros E s' Ht' Hf'. destruct (walking_frame _ _ _ _ Hw Ht' Hf') as [Hw' E']. apply HN; [congruence|done|by apply Hl'].
  - intros m off E. rewrite Edir in E. destruct (walk_slot (Some i) (one (Some i)) s m Hw) as (j & f & Hs & Hstep).
    { eapply (walk_free _ _ _ i Hw). intros j. apply one_other. }
    { intros j. pose proof (one_range (Some i) j). lia. }
    exists j, f. split; [done|]. intros s' Ht' Hf'. destruct (Hstep s' Ht' Hf') as (Hw' & Hr' & Hl''). eapply HS; eauto.
Qed.

(** What namex has found out: [R] is the inode number the path leads to, and
    the name it leaves is that of the last component. *)
Definition found (parent : bool) (R : option Z) (path : list Z) (r : option nat * list Z) (s : kstate) : Prop :=
  match R with
  | None => r.1 = None /\ walking None (one None) s
  | Some n => exists i, r.1 = Some i /\ refers s i n /\ live_ino V sb n /\ walking None (one (Some i)) s /\
      (parent = true -> exists e, last (path_elems path) = Some e /\ cut0 r.2 = take DIRSIZ e)
  end.

Record on_path (parent : bool) (path0 : list Z) (R : option Z) (x : nat * list Z * list Z) (s : kstate) : Prop := {
  op_walk : walking None (one (Some x.1.1)) s;
  op_ref : exists n, refers s x.1.1 n /\ live_ino V sb n /\ resolve V sb parent n (path_elems x.1.2) = R;
  op_char : Forall is_char x.1.2;
  op_name : length x.2 = DIRSIZ;
  op_last : parent = true -> last (path_elems x.1.2) = last (path_elems path0)
}.

Lemma drop_one i : forall j, one (Some i) j + (if decide (i = j) then -1 else 0) = one None j.
Proof. intros j. unfold one. rewrite (decide_False (P := None = Some j)) by done. destruct (decide (i = j)) as [->|]; [by rewrite decide_True|rewrite decide_False; [done|congruence]]. Qed.

Lemma pass_one i j : forall k, one (Some i) k + (if decide (j = k) then 1 else 0) + (if decide (i = k) then -1 else 0) = one (Some j) k.
Proof.
  intros k. unfold one. destruct (decide (i = k)) as [->|]; [rewrite (decide_True (P := Some k = Some k)) by done|rewrite (decide_False (P := Some i = Some k)) by congruence];
  (destruct (decide (j = k)) as [->|]; [by rewrite decide_True|rewrite decide_False; [done|congruence]]).
Qed.

(** What a round leaves. *)
Definition round_post (parent : bool) (path0 : list Z) (R : option Z) (path : list Z)
    (r : nat * list Z * list Z + option nat * list Z) (s : kstate) : Prop :=
  match r with
  | inl x => on_path parent path0 R x s /\ (length x.1.2 < length path)%nat
  | inr y => found parent R path0 y s
  end.

Lemma wp_namex_fail parent path0 path i n name s :
  walking (Some i) (one (Some i)) s -> locked s i n -> live_ino V sb n ->
  wpc (seq_rely p) C (iunlockput i;;; ret (inr (None, name))) (round_post parent path0 None path) s.
Proof.
  intros Hw Hl Hn. wp_step. eapply walk_iunlockput; [done|done|done|rewrite one_self; lia|]. intros s1 Hw1 _. wp_step.
  split; [done|]. eapply walking_ext; [done|apply drop_one].
Qed.

Lemma wp_namex_round parent path0 R x s :
  on_path parent path0 R x s ->
  wpc (seq_rely p) C (namex_round parent x) (round_post parent path0 R x.1.2) s.
Proof.
  destruct x as [[i path] name]. intros [Hw (n & Hr & Hn & HR) Hc Hl Hlast]. cbn [fst snd] in *. unfold namex_round.
  pose proof (skipelem_spec path name) as Hsk. pose proof (path_elems_Forall _ _ Hc) as Hce.
  assert (Hnz : Forall (fun c => c <> 0) path) by (eapply Forall_impl; [exact Hc|]; unfold is_char; intros; lia).
  specialize (Hsk Hnz Hl). destruct (path_elems path) as [|e es].
  { rewrite Hsk. cbn in HR. destruct parent; subst R.
    - wp_step. eapply walk_iput; [done|done|done|rewrite one_self; lia|]. intros s1 Hw1 _. wp_step.
      split; [done|]. eapply walking_ext; [done|apply drop_one].
    - wp_step. exists i. by split_and!. }
  destruct Hsk as (rest & name' & Esk & Hcut & Hl' & <- & _ & Hlen & Hempty). apply Forall_cons in Hce as [He _].
  rewrite Esk. pose proof (fname_skip name' e Hl' Hcut He) as Hfn. rewrite resolve_cons in HR.
  wp_step. eapply walk_ilock; [done|done|done|]. intros s1 Hw1 Hl1. unfold geti. wp_step. wp_step.
  pose proof Hl1 as (ip & Hi & _ & Ein & _ & _ & _ & (Ety & _)). destruct (wk_lookup _ _ _ _ _ Hw1 Hi) as [_ ->]. rewrite Ein in Ety. rewrite Ety.
  revert HR. destruct (Z.eqb_spec (di_type (dino V sb n)) T_DIR) as [Hty|Hty]; cbn [negb]; [|intros <-; by eapply wp_namex_fail].
  assert (Eem : (length (path_elems rest) =? 0)%nat = (length rest =? 0)%nat).
  { apply Bool.eq_iff_eq_true. rewrite !Nat.eqb_eq, !length_zero_iff_nil. by symmetry. }
  rewrite Eem. destruct (parent && (length rest =? 0)%nat) eqn:Epar.
  { intros <-. apply andb_true_iff in Epar as [-> Erest%Nat.eqb_eq]. wp_step. eapply walk_iunlock; [done|done|]. intros s2 Hw2 Hr2 _. wp_step.
    exists i. split_and!; try done. intros _. exists e. split; [|done]. rewrite <- Hlast by done.
    destruct rest; [|done]. by rewrite (proj1 Hempty). }
  rewrite <- (dir_lookup_fname V (ino V sb n) name' (take DIRSIZ e)) by (rewrite ?length_take; unfold DIRSIZ in *; done || lia).
  intros HR. wp_step. eapply walk_dirlookup; [done|done|done|done| |].
  { intros E s2 Hw2 Hl2. rewrite E in HR. subst R. by eapply wp_namex_fail. }
  intros m off E Hm j s2 Hw2 Hl2 Hr2. rewrite E in HR. wp_step. set (d := fun k : nat => _) in Hw2.
  pose proof (one_self i) as O1. assert (Hd : d i = if decide (j = i) then 2 else 1) by (unfold d; rewrite O1; by destruct (decide (j = i))).
  eapply walk_iunlockput; [done|done|done|rewrite Hd; destruct (decide _); lia|]. intros s3 Hw3 Hk3. wp_step. split; [|done].
  split; cbn [fst snd]; [eapply walking_ext; [done|apply pass_one]| | |done|].
  - exists m. split_and!; [|done|done]. apply Hk3; [|done]. rewrite Hd. destruct (decide (j = i)); auto.
  - by eapply skipelem_Forall.
  - intros Hpar. rewrite <- Hlast by done. subst parent. cbn in Epar.
    rewrite <- Eem in Epar. by destruct (path_elems rest).
Qed.

(** namex from the slot [i] on. *)
Lemma wp_namex_loop parent path i name n Q s :
  walking None (one (Some i)) s -> refers s i n -> live_ino V sb n -> Forall is_char path -> length name = DIRSIZ ->
  Z.of_nat (length path) < 2 ^ 63 ->
  (forall r s', found parent (resolve V sb parent n (path_elems path)) path r s' -> Q r s') ->
  wpc (seq_rely p) C (loop (namex_round parent) (i, path, name)) Q s.
Proof.
  intros Hw Hr Hn Hc Hl Hlen HQ. set (R := resolve V sb parent n (path_elems path)) in *.
  apply (wp_loop _ (on_path parent path R) (fun x _ => Z.of_nat (length x.1.2))).
  - intros x s1 Hx. eapply wp_mono; [by apply wp_namex_round|]. intros [x'|y] s2; unfold round_post; [|apply HQ].
    intros [Hx' Hlt]. split; [done|]. lia.
  - by split; [|exists n|..].
  - cbn. lia.
Qed.

Lemma wp_idup {R C'} i Q s :
  L_itable ∉ k_held s -> Q i (upd_inode i (fun ip => set_i_ref (s32 (i_ref ip + 1)) ip) s) -> wpc R C' (idup i) Q s.
Proof.
  intros Hh HQ. unfold idup, geti, modi. wp_step. apply wp_acquire; [done|]. do 5 wp_step.
  eapply wp_release_last; [done|done|]. rewrite release_inode. wp_step.
  change (inode_of (set_held _ s) i) with (inode_of s i).
  replace (upd_inode i (set_i_ref (s32 (i_ref (inode_of s i) + 1))) s) with (upd_inode i (fun ip => set_i_ref (s32 (i_ref ip + 1)) ip) s); [done|].
  unfold upd_inode, set_itable. f_equal. apply alter_ext_at. intros x Hx. by rewrite (inode_of_lookup _ _ _ Hx).
Qed.

(** Where a path starts: at the root, or at the process's directory. *)
Definition starts_at (path : list Z) (n : Z) : Prop :=
  if decide (head path = Some slash) then n = ROOTINO
  else exists c, p_cwd (proc_of s0 p) = Some c /\ refers s0 c n.

Lemma head_slash {A} (o : option Z) (a b : A) : (if o is Some 47 then a else b) = if decide (o = Some slash) then a else b.
Proof.
  destruct (decide _) as [->|Hne]; [done|]. destruct o as [[|q|]|]; try done.
  do 6 (destruct q as [q|q|]; try done).
Qed.

Lemma wp_namex parent path name n Q :
  walking None (one None) s0 -> starts_at path n -> live_ino V sb n -> Forall is_char path -> length name = DIRSIZ ->
  Z.of_nat (length path) < 2 ^ 63 ->
  (forall r s', found parent (resolve V sb parent n (path_elems path)) path r s' -> Q r s') ->
  wpc (seq_rely p) C (namex path parent name) Q s0.
Proof.
  intros Hw Hst Hn Hc Hl Hlen HQ. pose proof Hw as [Ht _ Htab Hrefs]. unfold namex. rewrite head_slash. wp_step.
  assert (Hgo : forall i s', walking None (fun k => one None k + if decide (i = k) then 1 else 0) s' -> refers s' i n ->
    wpc (seq_rely p) C (loop (namex_round parent) (i, path, name)) Q s').
  { intros i s' Hw' Hr'. eapply wp_namex_loop; try done. eapply walking_ext; [done|]. intros k. unfold one.
    rewrite (decide_False (P := None = Some k)) by done. destruct (decide (i = k)) as [->|]; [by rewrite decide_True|rewrite decide_False; [done|congruence]]. }
  assert (Hd : forall j, 0 <= one None j <= 2) by (intros j; pose proof (one_range None j); lia).
  unfold starts_at in Hst. destruct (decide _).
  - subst n. destruct (walk_slot None (one None) s0 ROOTINO Hw) as (i & f & Hs & Hstep); [|done|].
    { destruct Hfree as (a & _ & _ & Ha & _). by exists a. }
    eapply wp_iget; [apply (it_len _ _ _ _ Htab)|by eapply wk_held|done|].
    destruct (Hstep s0 Ht (frame_refl _ _)) as (Hw' & Hr' & _). by apply Hgo.
  - destruct Hst as (c & Hcwd & ip & Hi & Hr & <-). wp_step. apply (wp_curproc p); [apply (so_cur _ _ (view_seq _ _ _ _ _ _ _ _ Ht))|].
    unfold getp. wp_step. wp_step. rewrite Hcwd. cbn [deref]. wp_step. wp_step.
    apply wp_idup; [by eapply wk_held|]. destruct (it_live _ _ _ _ Htab _ _ Hi Hr) as [Hdev _]. pose proof (Hb c ip Hi).
    set (f := fun ip : inode => set_i_ref (s32 (i_ref ip + 1)) ip).
    assert (E : i_ref (f ip) = i_ref ip + 1) by (apply s32_small; lia).
    destruct (walk_take None (one None) s0 (i_inum ip) c f ip s0) as (Hw' & Hr' & _);
      [exact Hw|intros k; apply Hd|exact Hi|exact E|reflexivity|exact Hdev|reflexivity|lia| |exact Ht|apply frame_refl|].
    { intros _. exact (conj eq_refl (conj Hdev (conj eq_refl (fun H => H)))). }
    by apply Hgo.
Qed.

(** dirlink of a name the locked directory has: the reference dirlookup takes is dropped. *)
Lemma wp_dirlink_exists lk dp name inum n off Q :
  let ip := inode_of s0 dp in
  walking lk (one None) s0 -> file_ok V ip -> i_type ip = T_DIR -> i_size ip mod 16 = 0 ->
  dir_lookup V ip name = Some (n, off) -> live_ino V sb n ->
  (forall s', walking lk (one None) s' -> Q (-1) s') ->
  wpc (seq_rely p) C (dirlink dp name inum) Q s0.
Proof.
  intros ip Hw Hok Hty Hmod Hdir Hn HQ. unfold dirlink. wp_step. pose proof Hw as [Ht _ Htab _].
  apply (wp_dirlookup start size geom P p dk l V dp name); [done..|apply (it_len _ _ _ _ Htab)| |]; fold ip.
  { intros E. congruence. }
  intros n' off' E. rewrite Hdir in E. injection E as <- <-.
  assert (Hd : forall j, 0 <= one None j <= 2) by (intros j; pose proof (one_range None j); lia).
  destruct (walk_slot lk (one None) s0 n Hw) as (j & f & Hs & Hstep); [|done|].
  { destruct Hfree as (a & _ & _ & Ha & _). by exists a. }
  exists j, f. split; [done|]. intros s1 Ht1 Hf1. destruct (Hstep s1 Ht1 Hf1) as (Hw1 & Hr1 & _). wp_step.
  eapply walk_iput; [done|done|done| |].
  { unfold one. rewrite decide_False, decide_True by done. lia. }
  intros s2 Hw2 _. wp_step. apply HQ. eapply walking_ext; [done|]. intros k. cbv beta. destruct (decide (j = k)); lia.
Qed.
End Namex.
