(* ===== verification/FsUpdate.v ===== *)
(** * Changing files and directories, and finding them by name: writei, itrunc, dirlink, namex *)
From S2P Require Import Prelude Memory State Kalloc PageTable Vm VmSpec UserMem UserCopy VmTheorems Sched SchedSpec Sleeplock Virtio VirtioSpec Bio BioSpec Codec Log LogSpec LogCrash Txn DiskWitness Fs FsCodec FsSpec FsAlloc FsInode FsTheorems FsWrite FsTrunc FsDir FsPath.

Section FsUpdate.
Context `{KI : KernelImage} `{KOK : !KernelImageOk} `{VD : VirtioDevice} `{VDOK : !VirtioDeviceOk}.
Context (start size : Z) (geom : 0 < start /\ 1 < size <= LOGSIZE /\ start + size < 2 ^ 31).
Variable P : gmap Z block -> Prop.

(** The ranges writei takes. *)
Definition writable (ip : inode) (off n : Z) : Prop := off <= i_size ip /\ off + n <= MAXFILE * BSIZE.
#[global] Instance writable_dec ip off n : Decision (writable ip off n).
Proof. unfold writable. apply _. Defined.

Lemma writei_refuses p i src off n s :
  0 <= off < 2 ^ 32 -> 0 <= n < 2 ^ 32 -> ~ writable (inode_of s i) off n ->
  wpc (seq_rely p) (fun s => P (k_disk s)) (writei i src off n) (fun r s' => r = -1 /\ s' = s) s.
Proof.
  intros Ho Hn Hw. unfold writable in Hw. unfold writei, geti. wp_step. wp_step.
  destruct (Z.ltb_spec (i_size (inode_of s i)) off) as [H1|H1]; cbn [orb]; [by wp_step|].
  assert (Hmax : MAXFILE * BSIZE < 2 ^ 32) by done.
  destruct (Z.ltb_spec (u32 (off + n)) off) as [H2|H2]; cbn [orb]; [by wp_step|].
  assert (E : u32 (off + n) = off + n).
  { apply u32_small. split; [lia|]. destruct (Z.lt_ge_cases (off + n) (2 ^ 32)) as [|Hge]; [done|]. exfalso.
    assert (u32 (off + n) = off + n - 2 ^ 32); [|lia].
    unfold u32, wrap. symmetry. apply (Z.mod_unique_pos _ _ 1); lia. }
  rewrite E, (proj2 (Z.ltb_lt _ (off + n))) by lia. by wp_step.
Qed.

(** C12: writei(ip, src, off, n) on a range that starts inside the file or at
    its end and stays within MAXFILE blocks writes all n bytes: the file then
    has them at off, its other bytes are unchanged, its size covers them, the
    inode on disk is the one in memory, the blocks added were free and belong
    to the file, and no block in use elsewhere changes. Any other range is
    refused with -1 and nothing changes. *)
Theorem writei_correct p i dk l V src off bs s :
  let n := Z.of_nat (length bs) in let ip := inode_of s i in
  (writable ip off n -> write_pre start size p i dk l V src off bs s) -> 0 <= off < 2 ^ 32 -> n < 2 ^ 32 -> P dk ->
  wpc (seq_rely p) (fun s => P (k_disk s)) (writei i src off n)
    (fun r s' =>
       if decide (writable ip off n) then
         r = n /\ exists l' V' ip', txn start size p dk l' V' ∅ s' /\ iframe p i ip' s s' /\
           wrote start size (k_sb s) V ip off bs V' ip' /\
           Z.of_nat (length l') <= Z.of_nat (length l) + nbitmap (k_sb s) + nblk off n + 2
       else r = -1 /\ s' = s) s.
Proof.
  intros n ip Hpre Hoff Hn HP. destruct (decide (writable ip off n)) as [Hw|Hw].
  - destruct Hw as [H1 H2]. apply (wp_writei start size geom P p i dk l V src off bs); [by apply Hpre|split; [lia|done]|done|done|].
    intros l' V' ip' s' H3 H4 H5 H6. split; [done|]. by exists l', V', ip'.
  - apply writei_refuses; [done|lia|done].
Qed.

(** The bytes just written are read back. *)
Lemma wrote_fbytes sb V ip off bs V' ip' : 0 <= off -> wrote start size sb V ip off bs V' ip' ->
  fbytes V' ip' off (Z.of_nat (length bs)) = bs.
Proof.
  intros Ho Hw. pose proof (wt_size _ _ _ _ _ _ _ _ _ Hw) as Hs. apply list_eq. intros k. unfold fbytes. rewrite list_lookup_fmap.
  destruct (decide (k < length bs)%nat) as [Hk|Hk].
  - rewrite lookup_seqZ_lt by lia. cbn [fmap option_fmap option_map]. rewrite (wt_byte _ _ _ _ _ _ _ _ _ Hw) by lia.
    rewrite (proj2 (Z.leb_le off _)), (proj2 (Z.ltb_lt _ _)) by lia. cbn [andb].
    replace (Z.to_nat (off + Z.of_nat k - off)) with k by lia. by destruct (lookup_lt_is_Some_2 bs k Hk) as [x ->].
  - rewrite lookup_seqZ_ge by lia. cbn. symmetry. apply lookup_ge_None. lia.
Qed.

(** C35: what writei writes, readi reads: reading the range just written gives
    back the bytes written. *)
Theorem writei_readi_roundtrip p i dk l V src off bs s :
  let n := Z.of_nat (length bs) in let ip := inode_of s i in
  write_pre start size p i dk l V src off bs s -> 0 <= off -> writable ip off n -> P dk ->
  wpc (seq_rely p) (fun s => P (k_disk s)) (let* w := writei i src off n in let* r := readi i DLocal off n in ret (w, r))
    (fun r _ => r = (n, (n, bs))) s.
Proof.
  intros n ip Hpre Hoff [H1 H2] HP. pose proof (wp_i _ _ _ _ _ _ _ _ _ _ _ Hpre) as Hi. assert (Hmax : MAXFILE * BSIZE = 274432) by done. wp_step.
  apply (wp_writei start size geom P p i dk l V src off bs); [done|by split|done|done|].
  intros l' V' ip' s' Ht' Hf' Hw Hl'. wp_step. pose proof (iframe_inode _ _ _ _ _ Hi Hf') as Ei.
  pose proof (wt_size _ _ _ _ _ _ _ _ _ Hw) as Hs'. fold n in Hs'.
  assert (El : read_len ip' off n = n).
  { unfold read_len. rewrite u32_small by lia. rewrite (proj2 (Z.ltb_ge (i_size ip') off)), (proj2 (Z.ltb_ge (off + n) off)) by lia. cbn [orb].
    by rewrite (proj2 (Z.ltb_ge _ _)) by lia. }
  assert (Hok' : file_ok V' ip') by (eapply inode_file_ok; [exact geom|apply Hw..]).
  eapply (wp_readi start size geom P p); [done|by rewrite Ei|done|lia|lia|lia|done|].
  rewrite Ei. cbv zeta. rewrite El. intros s'' _ _. wp_step. f_equal. f_equal. by eapply wrote_fbytes.
Qed.

(** C15: itrunc frees exactly the blocks of the file, direct, indirect and the
    indirect block itself, whatever the size says; the inode is left empty, in
    memory and on disk, and no other block but those of the free map changes. *)
Theorem itrunc_correct p i dk l V s :
  let ip := inode_of s i in let sb := k_sb s in
  txn start size p dk l V ∅ s -> (i < length (k_itable s))%nat -> fs_ok start size V sb -> inode_ok V sb ip ->
  0 <= i_inum ip < sb_ninodes sb -> dinode_ok (dinode_of ip) -> Z.of_nat (length l) + nbitmap sb + 2 < size -> P dk ->
  wpc (seq_rely p) (fun s => P (k_disk s)) (itrunc i)
    (fun _ s' => exists l' V' ip', txn start size p dk l' V' ∅ s' /\ iframe p i ip' s s' /\
       truncated start size sb V ip V' ip' /\ Z.of_nat (length l') <= Z.of_nat (length l) + nbitmap sb + 1) s.
Proof.
  intros ip sb Ht Hi Hfs Hok Hin Hdi Hroom HP. set (L := IBLOCK (i_inum ip) sb :: map_blocks sb ++ l).
  pose proof (layout_pos start size geom sb (fs_layout _ _ _ _ Hfs)) as (_ & Hnb & _).
  assert (HL : Z.of_nat (length L) = Z.of_nat (length l) + nbitmap sb + 1).
  { unfold L. cbn [length]. rewrite length_app. unfold map_blocks. rewrite length_seqZ. lia. }
  assert (HlL : forall x, x ∈ map_blocks sb \/ x ∈ l -> x ∈ L) by (intros x Hx; unfold L; rewrite elem_of_cons, elem_of_app; auto).
  apply (wp_itrunc start size geom P p i dk V L s Hi Hok) with (l := l); try done; [intros x ?; auto|lia|intros x ?; auto|by left|].
  intros l' V' ip' s' Ht' Hf' Htr Hl'. exists l', V', ip'. split_and!; [done..|]. rewrite <- HL. apply Nat2Z.inj_le. by eapply view_log_le.
Qed.

(** The table of inodes and the tree of directories as the path functions find them. *)
Record path_ok (p : nat) (dk : gmap Z block) (l : list Z) (V : gmap Z block) (lk : option nat) (s : kstate) : Prop := {
  pk_txn : txn start size p dk l V ∅ s;
  pk_layout : layout start size (k_sb s);
  pk_tab : itab V (k_sb s) lk (k_itable s);
  pk_refs : forall j a, k_itable s !! j = Some a -> 0 <= i_ref a < 2 ^ 30;
  pk_free : exists a b, a <> b /\ free_slot (k_itable s) a /\ free_slot (k_itable s) b;
  pk_tree : tree_ok V (k_sb s)
}.

Lemma path_walking p dk l V lk s : path_ok p dk l V lk s -> walking start size p dk l V s lk (one None) s.
Proof.
  intros [Ht _ Htab _ _ _]. split; [done| |done|].
  - unfold tframe. apply rest_frame. destruct s. exact (reflexivity (R := rest_eq p) _).
  - split; [done|]. intros j a b Ha Hb. simplify_eq. unfold one. rewrite decide_False by done. split; [lia|done].
Qed.

Lemma path_iblock sb : layout start size sb -> forall n, 0 < n < sb_ninodes sb -> 0 <= IBLOCK n sb < 2 ^ 31.
Proof. intros Hl n Hn. destruct (iblock_range start size geom sb n Hl) as (? & ? & ?); [lia|]. lia. Qed.

(** C14: dirlink adds a name to a directory: looking the name up then gives the
    inode number linked, every other name gives what it gave before, and the
    entry goes to the first free place or to the end. A name that exists is
    refused with -1; the disk and every reference count are as before. *)
Theorem dirlink_correct p dk l V dp name inum s :
  let ip := inode_of s dp in let sb := k_sb s in let k0 := dir_slot V ip in let de := mk_dirent inum (strncpy_l name DIRSIZ) in
  path_ok p dk l V (Some dp) s -> write_pre start size p dp dk l V (SLocal de) (16 * k0) de s ->
  i_type ip = T_DIR -> i_size ip mod 16 = 0 -> 16 * k0 + 16 <= MAXFILE * BSIZE ->
  0 < inum < 2 ^ 16 -> Z.of_nat (length name) <= 65536 ->
  (forall n off, dir_lookup V ip name = Some (n, off) -> live_ino V sb n) -> P dk ->
  wpc (seq_rely p) (fun s => P (k_disk s)) (dirlink dp name inum)
    (fun r s' => match dir_lookup V ip name with
       | Some _ => r = -1 /\ walking start size p dk l V s (Some dp) (one None) s'
       | None => r = 0 /\ exists l' V' ip', txn start size p dk l' V' ∅ s' /\ iframe p dp ip' s s' /\
           wrote start size sb V ip (16 * k0) de V' ip' /\ dir_lookup V' ip' name = Some (inum, 16 * k0) /\
           (forall n', Z.of_nat (length n') <= 65536 -> fname n' <> fname name -> dir_lookup V' ip' n' = dir_lookup V ip n') /\
           Z.of_nat (length l') <= Z.of_nat (length l) + nbitmap sb + 3
       end) s.
Proof.
  intros ip sb k0 de Hpk Hpre Hty Hmod Hmax Hinum Hname Hlive HP. destruct (dir_lookup V ip name) as [[n off]|] eqn:E.
  - pose proof Hpk as [_ Hla _ Hrefs Hfree _]. pose proof Hpre as [_ _ Hfs Hok _ _ _ _ _].
    eapply (wp_dirlink_exists start size geom P p dk l V s); [exact HP|exact Hrefs|exact Hfree|by apply path_walking| |done|done|exact E|by eapply Hlive|done].
    eapply inode_file_ok; [exact geom|exact Hla|apply Hfs|exact Hok].
  - pose proof (it_len _ _ _ _ (pk_tab _ _ _ _ _ _ Hpk)) as Hlen. pose proof (io_size _ _ _ (wp_ino _ _ _ _ _ _ _ _ _ _ _ Hpre)) as Hsz.
    apply (wp_dirlink_new start size geom P p dk l V dp name inum); try done. intros l' V' ip' s' Ht' Hf' Hw Hl'.
    pose proof (dir_lookup_link start size sb V ip V' ip' name inum Hw (proj1 Hsz) Hmod Hinum E Hname) as Hdir.
    split; [done|]. exists l', V', ip'. split_and!; [done..|by apply Hdir|intros n' Hn'; by apply Hdir|done].
Qed.

(** C11: namex follows a path through the directories on disk as [resolve]
    does, from the root or the process's directory, for namei and, stopping
    one component early, for nameiparent. It returns the inode found with one
    reference more, and leaves every other reference count, the disk and the
    log as they were, also when a component is missing or not a directory. *)
Theorem namex_correct p dk l V parent path name n s :
  path_ok p dk l V None s -> starts_at p s path n -> live_ino V (k_sb s) n -> Forall is_char path -> length name = DIRSIZ ->
  Z.of_nat (length path) < 2 ^ 63 -> P dk ->
  wpc (seq_rely p) (fun s => P (k_disk s)) (namex path parent name)
    (found start size p dk l V s parent (resolve V (k_sb s) parent n (path_elems path)) path) s.
Proof.
  intros Hpk Hst Hn Hc Hl Hlen HP. pose proof Hpk as [_ Hla _ Hrefs Hfree Htree].
  eapply (wp_namex start size geom P p dk l V s); try done; [by apply path_iblock|by apply path_walking].
Qed.
End FsUpdate.

(** ** A small tree for the theorems on files, directories and paths

    Log in blocks 2 to 31, inodes in block 32, free map in block 45. The root,
    inode 1, has the entries [.] and [a] in block 46; [a], inode 7, is a
    directory with the entry [b], inode 3, in block 47. *)
#[local] Existing Instance demo_image.
#[local] Existing Instance demo_image_ok.
#[local] Existing Instance demo_vdev.
#[local] Existing Instance demo_vdev_ok.

Definition tr_map : block := replicate 6 255 ++ replicate 1018 0.
Definition tr_root : block := mk_dirent 1 (46 :: replicate 13 0) ++ mk_dirent 7 (97 :: replicate 13 0) ++ replicate 992 0.
Definition tr_a : block := mk_dirent 3 (98 :: replicate 13 0) ++ replicate 1008 0.
Definition di_root : dinode := mkDinode T_DIR 0 0 1 32 (46 :: replicate 12 0).
Definition di_a : dinode := mkDinode T_DIR 0 0 1 16 (47 :: replicate 12 0).
Definition di_b : dinode := mkDinode T_FILE 0 0 1 0 (replicate 13 0).
Definition tr_inodes : block := Eval vm_compute in
  wr_dinode (di_off 1) di_root (wr_dinode (di_off 3) di_b (wr_dinode (di_off 7) di_a zblock)).
Definition dk_tr : gmap Z block := <[32 := tr_inodes]> (<[45 := tr_map]> (<[46 := tr_root]> (<[47 := tr_a]> ∅))).
Definition sb_tr : superblock := mkSb FSMAGIC 100 54 16 30 2 32 45.
Definition ip_root : inode := mkInode ROOTDEV 1 1 (mkSleeplock false 0) true T_DIR 0 0 1 32 (46 :: replicate 12 0).

Definition ks_tr : kstate :=
  set_itable (<[0%nat := ip_root]>) (set_sb (fun _ => sb_tr)
    (set_log (fun _ => mkLog 2 30 1 false ROOTDEV 0 (replicate 30 0)) (set_disk (fun _ => dk_tr) ks_disk))).

Lemma dk_tr_cases (Q : Z -> block -> Prop) :
  Q 32 tr_inodes -> Q 45 tr_map -> Q 46 tr_root -> Q 47 tr_a ->
  (forall bn, Q bn zblock) -> forall bn, Q bn (dblk dk_tr bn).
Proof.
  intros H1 H2 H3 H4 H5 bn. unfold dblk, dk_tr. rewrite !lookup_insert.
  repeat (destruct (decide _); [subst; assumption|]). rewrite lookup_empty. apply H5.
Qed.

Lemma dk_tr_len bn : length (dblk dk_tr bn) = 1024%nat.
Proof. apply (dk_tr_cases (fun _ d => length d = 1024%nat)); reflexivity || (intros; reflexivity). Qed.

Lemma ks_tr_txn : txn 2 30 0 dk_tr [] dk_tr ∅ ks_tr.
Proof.
  exists ∅. split.
  - destruct ks_disk_bio as [[? ? ? ? ? ? ?] [? ? Ha Hi Hu]]. split; [by split|]. split; try done.
    intros i b H. right. apply lookup_replicate in H as [-> _]. by split.
  - intros bn. rewrite !lookup_empty. by rewrite decide_False by apply not_elem_of_nil.
  - by split.
  - split; [constructor|simpl; lia].
  - constructor.
  - done.
  - split; vm_compute; reflexivity.
  - done.
Qed.

Lemma demo_used b : 0 <= b < 48 -> used dk_tr sb_tr b = true.
Proof.
  intros Hb. assert (HF : forallb (used dk_tr sb_tr) (seqZ 0 48) = true) by (vm_compute; reflexivity).
  rewrite forallb_forall in HF. apply HF, list_elem_of_In, elem_of_seqZ. lia.
Qed.

Lemma tr_layout : layout 2 30 sb_tr.
Proof. split; vm_compute; intuition discriminate. Qed.
Lemma demo_fs_ok : fs_ok 2 30 dk_tr sb_tr.
Proof. split; [exact tr_layout|exact dk_tr_len|]. intros b Hb. apply demo_used. change (dstart sb_tr) with 46 in Hb. lia. Qed.

(** A file of one block at most. *)
Lemma slot_single V ip b k : i_addrs ip = b :: replicate 12 0 -> 0 <= k <= MAXFILE -> slot V ip k = if k =? 0 then b else 0.
Proof.
  intros Ha Hk. rewrite maxfile_eq in Hk. unfold slot, addr_at. rewrite Ha. change ((b :: replicate 12 0) !! NDIRECT) with (Some 0). cbn [default].
  destruct (Z.eqb_spec k 0) as [->|Hz]; [done|]. destruct (k =? MAXFILE); [done|]. destruct (Z.ltb_spec k (Z.of_nat NDIRECT)) as [Hlt|]; [|done].
  unfold NDIRECT in Hlt. rewrite lookup_cons_ne_0 by lia. by rewrite lookup_replicate_2 by lia.
Qed.

Lemma single_ok ip b : i_dev ip = ROOTDEV -> i_addrs ip = b :: replicate 12 0 -> 0 < i_size ip <= BSIZE ->
  46 <= b < 48 -> inode_ok dk_tr sb_tr ip.
Proof.
  intros Hd Ha Hs Hb. unfold BSIZE in *. split; [done|by rewrite Ha|rewrite maxfile_eq; unfold BSIZE; lia|..].
  - intros k Hk. rewrite (slot_single _ _ b) by done. destruct (Z.eqb_spec k 0); [|done]. intros _.
    split; [change (dstart sb_tr) with 46; cbn; lia|apply demo_used; lia].
  - intros k k' Hk Hk'. rewrite !(slot_single _ _ b) by done. destruct (Z.eqb_spec k 0), (Z.eqb_spec k' 0); lia || done.
  - intros k Hk Hlt. unfold BSIZE in Hlt. assert (k = 0) as -> by lia. rewrite (slot_single _ _ b) by (rewrite ?maxfile_eq; done || lia). cbn. lia.
Qed.

Lemma root_ok : inode_ok dk_tr sb_tr (inode_of ks_tr 0).
Proof. apply (single_ok _ 46); try reflexivity; vm_compute; intuition discriminate. Qed.

Lemma root_dinode_ok : dinode_ok (dinode_of (inode_of ks_tr 0)).
Proof.
  split; [vm_compute; intuition discriminate..|reflexivity|].
  change (di_addrs (dinode_of (inode_of ks_tr 0))) with (46 :: replicate 12 0). repeat constructor; lia.
Qed.

Lemma root_write_pre off bs : nblk off (Z.of_nat (length bs)) <= 1 ->
  write_pre 2 30 0 0 dk_tr [] dk_tr (SLocal bs) off bs ks_tr.
Proof.
  intros Hn. assert (Es : spare dk_tr sb_tr (inode_of ks_tr 0) = 51) by (vm_compute; reflexivity).
  split; [exact ks_tr_txn|cbn; lia|exact demo_fs_ok|exact root_ok|vm_compute; intuition discriminate|exact root_dinode_ok|reflexivity| |].
  - change (k_sb ks_tr) with sb_tr. rewrite Es. lia.
  - change (nbitmap (k_sb ks_tr)) with 1. cbn [length]. lia.
Qed.

Lemma writei_correct_witness :
  wpc (seq_rely 0) (fun _ => True) (writei 0 (SLocal [1; 2; 3]) 30 3)
    (fun r s' => r = 3 /\ i_size (inode_of s' 0) = 33) ks_tr /\
  wpc (seq_rely 0) (fun _ => True) (writei 0 (SLocal [1; 2; 3]) 33 3) (fun r s' => r = -1 /\ s' = ks_tr) ks_tr.
Proof.
  split.
  - pose proof (writei_correct 2 30 demo_geom (fun _ => True) 0 0 dk_tr [] dk_tr (SLocal [1; 2; 3]) 30 [1; 2; 3] ks_tr
      (fun _ => root_write_pre 30 [1; 2; 3] ltac:(vm_compute; discriminate)) ltac:(lia) ltac:(cbn; lia) I) as H.
    cbv zeta in H. eapply wp_mono; [exact H|]. intros r s'. cbv beta. rewrite decide_True by (vm_compute; intuition discriminate).
    intros (-> & l' & V' & ip' & _ & Hf & Hw & _). split; [done|].
    rewrite (iframe_inode 0 0 ip' ks_tr s' ltac:(cbn; lia) Hf).
    by rewrite (wt_size _ _ _ _ _ _ _ _ _ Hw).
  - pose proof (writei_correct 2 30 demo_geom (fun _ => True) 0 0 dk_tr [] dk_tr (SLocal [1; 2; 3]) 33 [1; 2; 3] ks_tr
      (fun _ => root_write_pre 33 [1; 2; 3] ltac:(vm_compute; discriminate)) ltac:(lia) ltac:(cbn; lia) I) as H.
    cbv zeta in H. eapply wp_mono; [exact H|]. intros r s'. cbv beta. by rewrite decide_False by (vm_compute; intuition discriminate).
Defined.

Lemma writei_readi_roundtrip_witness :
  wpc (seq_rely 0) (fun _ => True)
    (let* w := writei 0 (SLocal [1; 2; 3]) 30 3 in let* r := readi 0 DLocal 30 3 in ret (w, r)) (fun r _ => r = (3, (3, [1; 2; 3]))) ks_tr.
Proof.
  apply (writei_readi_roundtrip 2 30 demo_geom (fun _ => True) 0 0 dk_tr [] dk_tr (SLocal [1; 2; 3]) 30 [1; 2; 3] ks_tr).
  - apply root_write_pre. vm_compute. discriminate.
  - lia.
  - vm_compute. intuition discriminate.
  - done.
Defined.

Lemma itrunc_correct_witness :
  wpc (seq_rely 0) (fun _ => True) (itrunc 0)
    (fun _ s' => exists l V ip, txn 2 30 0 dk_tr l V ∅ s' /\ inode_of s' 0 = ip /\ i_size ip = 0 /\ ~ used V sb_tr 46 = true) ks_tr.
Proof.
  eapply wp_mono; [apply (itrunc_correct 2 30 demo_geom (fun _ => True) 0 0 dk_tr [] dk_tr ks_tr ks_tr_txn)|].
  - cbn. lia.
  - exact demo_fs_ok.
  - exact root_ok.
  - vm_compute. intuition discriminate.
  - exact root_dinode_ok.
  - change (nbitmap (k_sb ks_tr)) with 1. cbn. lia.
  - done.
  - intros [] s' (l & V & ip & Ht & Hf & Htr & _). exists l, V, ip. split_and!; [exact Ht| | |].
    + apply (iframe_inode 0 0 ip ks_tr); [cbn; lia|exact Hf].
    + by rewrite (tr_ip _ _ _ _ _ _ _ Htr).
    + change sb_tr with (k_sb ks_tr). rewrite (tr_used _ _ _ _ _ _ _ Htr) by (cbn; lia).
      intros [_ Hno]. apply Hno. split; [done|]. exists 0. vm_compute. intuition discriminate.
Defined.

Lemma tree_live n : live_ino dk_tr sb_tr n -> n = 1 \/ n = 3 \/ n = 7.
Proof.
  intros (Hn & Hty & _). assert (HF : forallb (fun n => (di_type (dino dk_tr sb_tr n) =? 0) || (n =? 1) || (n =? 3) || (n =? 7)) (seqZ 0 16) = true)
    by (vm_compute; reflexivity).
  rewrite forallb_forall in HF. specialize (HF n ltac:(apply list_elem_of_In, elem_of_seqZ; cbn in Hn; lia)). cbv beta in HF.
  rewrite (proj2 (Z.eqb_neq _ 0)) in HF by done. cbn [orb] in HF. lia.
Qed.

Lemma live_1 : live_ino dk_tr sb_tr 1. Proof. vm_compute. intuition discriminate. Qed.
Lemma live_3 : live_ino dk_tr sb_tr 3. Proof. vm_compute. intuition discriminate. Qed.
Lemma live_7 : live_ino dk_tr sb_tr 7. Proof. vm_compute. intuition discriminate. Qed.

Lemma dir_inums V ip name n off : (forall k, 0 <= k < i_size ip / 16 -> live_ino V sb_tr (de_inum (dir_entry V ip k))) ->
  dir_lookup V ip name = Some (n, off) -> live_ino V sb_tr n.
Proof. intros H E. destruct (dir_lookup_cases V ip name) as [E'|(k & Hk & _ & _ & E')]; [congruence|]. rewrite E' in E. injection E as <- _. by apply H. Qed.

Lemma demo_tree : tree_ok dk_tr sb_tr.
Proof.
  intros n [-> | [-> | ->]]%tree_live Hty.
  - split_and!; [|reflexivity|].
    + apply (inode_file_ok 2 30 demo_geom dk_tr sb_tr); [exact tr_layout|exact dk_tr_len|].
      apply (single_ok _ 46); try reflexivity; vm_compute; intuition discriminate.
    + intros name m off. apply dir_inums. intros k Hk. change (i_size (ino dk_tr sb_tr 1) / 16) with 2 in Hk.
      assert (k = 0 \/ k = 1) as [-> | ->] by lia; [exact live_1|exact live_7].
  - discriminate Hty.
  - split_and!; [|reflexivity|].
    + apply (inode_file_ok 2 30 demo_geom dk_tr sb_tr); [exact tr_layout|exact dk_tr_len|].
      apply (single_ok _ 47); try reflexivity; vm_compute; intuition discriminate.
    + intros name m off. apply dir_inums. intros k Hk. change (i_size (ino dk_tr sb_tr 7) / 16) with 1 in Hk.
      assert (k = 0) as -> by lia. exact live_3.
Qed.

Lemma demo_path_ok lk : path_ok 2 30 0 dk_tr [] dk_tr lk ks_tr.
Proof.
  assert (Ht : forall j ip, k_itable ks_tr !! j = Some ip -> ip = ip_root \/ i_ref ip = 0 /\ sl_locked (i_lock ip) = false).
  { intros [|j] ip; [by intros [= <-]; left|]. change (k_itable ks_tr !! S j) with (replicate 49 inode0 !! j).
    intros [-> _]%lookup_replicate. by right. }
  split; [exact ks_tr_txn|exact tr_layout| | | |exact demo_tree].
  - split; [reflexivity|..]; intros j ip Hj; destruct (Ht j ip Hj) as [->|[E1 E2]]; try done; try lia.
  - intros j ip Hj. destruct (Ht j ip Hj) as [->|[-> _]]; [cbn|]; lia.
  - exists 1%nat, 2%nat. split; [done|]. split; eexists; split; reflexivity.
Qed.

Lemma dirlink_correct_witness :
  wpc (seq_rely 0) (fun _ => True) (dirlink 0 (99 :: replicate 13 0) 3)
    (fun r s' => r = 0 /\ exists l V, txn 2 30 0 dk_tr l V ∅ s' /\ dir_lookup V (inode_of s' 0) (99 :: replicate 13 0) = Some (3, 32)) ks_tr /\
  wpc (seq_rely 0) (fun _ => True) (dirlink 0 (97 :: replicate 13 0) 3) (fun r s' => r = -1) ks_tr.
Proof.
  split.
  - eapply wp_mono; [apply (dirlink_correct 2 30 demo_geom (fun _ => True) 0 dk_tr [] dk_tr 0 (99 :: replicate 13 0) 3 ks_tr (demo_path_ok (Some 0%nat)))|].
    + apply root_write_pre. vm_compute. discriminate.
    + done.
    + done.
    + vm_compute. discriminate.
    + lia.
    + cbn. lia.
    + intros n off. discriminate.
    + done.
    + assert (E : dir_lookup dk_tr (inode_of ks_tr 0) (99 :: replicate 13 0) = None) by (vm_compute; reflexivity).
      intros r s'. cbv beta. rewrite E. intros (-> & l & V & ip & Ht & Hf & _ & Hd & _). split; [done|]. exists l, V. split; [exact Ht|].
      rewrite (iframe_inode 0 0 ip ks_tr s' ltac:(cbn; lia) Hf). exact Hd.
  - eapply wp_mono; [apply (dirlink_correct 2 30 demo_geom (fun _ => True) 0 dk_tr [] dk_tr 0 (97 :: replicate 13 0) 3 ks_tr (demo_path_ok (Some 0%nat)))|].
    + apply root_write_pre. vm_compute. discriminate.
    + done.
    + done.
    + vm_compute. discriminate.
    + lia.
    + cbn. lia.
    + assert (E : dir_lookup dk_tr (inode_of ks_tr 0) (97 :: replicate 13 0) = Some (7, 16)) by (vm_compute; reflexivity).
      intros n off. rewrite E. intros [= <- _]. exact live_7.
    + done.
    + assert (E : dir_lookup dk_tr (inode_of ks_tr 0) (97 :: replicate 13 0) = Some (7, 16)) by (vm_compute; reflexivity).
      intros r s'. cbv beta. rewrite E. by intros [-> _].
Defined.

(** [/a//b] is inode 3; in [/a/c/d], [c] is missing. *)
Lemma namex_correct_witness :
  wpc (seq_rely 0) (fun _ => True) (namex [47; 97; 47; 47; 98] false name0)
    (fun r s' => exists i, r.1 = Some i /\ refers s' i 3) ks_tr /\
  wpc (seq_rely 0) (fun _ => True) (namex [47; 97; 47; 99; 47; 100] true name0) (fun r s' => r.1 = None) ks_tr.
Proof.
  assert (Hc : forall b c d, 0 < b < 256 -> 0 < c < 256 -> 0 < d < 256 -> Forall is_char [47; 97; 47; b; c] /\ Forall is_char [47; 97; 47; b; c; d])
    by (intros; split; repeat constructor; lia).
  split.
  - eapply wp_mono; [apply (namex_correct 2 30 demo_geom (fun _ => True) 0 dk_tr [] dk_tr false [47; 97; 47; 47; 98] name0 1 ks_tr (demo_path_ok None))|].
    + reflexivity.
    + exact live_1.
    + by apply (Hc 47 98 1).
    + reflexivity.
    + cbn. lia.
    + done.
    + assert (E : resolve dk_tr sb_tr false 1 (path_elems [47; 97; 47; 47; 98]) = Some 3) by (vm_compute; reflexivity).
      change (k_sb ks_tr) with sb_tr. rewrite E. intros r s' (i & Hi & Hr & _). exists i. split; [exact Hi|exact Hr].
  - eapply wp_mono; [apply (namex_correct 2 30 demo_geom (fun _ => True) 0 dk_tr [] dk_tr true [47; 97; 47; 99; 47; 100] name0 1 ks_tr (demo_path_ok None))|].
    + reflexivity.
    + exact live_1.
    + by apply (Hc 99 47 100).
    + reflexivity.
    + cbn. lia.
    + done.
    + assert (E : resolve dk_tr sb_tr true 1 (path_elems [47; 97; 47; 99; 47; 100]) = None) by (vm_compute; reflexivity).
      change (k_sb ks_tr) with sb_tr. rewrite E. intros r s' [H _]. exact H.
Defined.
