(* ===== verification/FsWitness.v ===== *)
(** * A small file system for the theorems on fs.c

    Log in blocks 2 to 31, inodes from block 32, free map in block 45, and a
    directory with the entries [.] and [a] in block 46. *)
From S2P Require Import Prelude Memory State Kalloc Vm Sched SchedSpec Sleeplock Virtio VirtioSpec Bio BioSpec Codec Log LogSpec LogCrash Txn Fs FsCodec FsSpec FsTheorems DiskWitness.

#[local] Existing Instance demo_image.
#[local] Existing Instance demo_vdev.
#[local] Existing Instance demo_vdev_ok.

Definition fs_map : block := replicate 5 255 ++ [127] ++ replicate 1018 0.
Definition fs_dir : block := mk_dirent 1 (46 :: replicate 13 0) ++ mk_dirent 7 (97 :: replicate 13 0) ++ replicate 992 0.
Definition dk_fs : gmap Z block := <[45 := fs_map]> (<[46 := fs_dir]> ∅).
Definition fs_sb : superblock := mkSb FSMAGIC 1000 954 200 30 2 32 45.
Definition fs_root : inode := mkInode ROOTDEV 1 1 (mkSleeplock false 0) true T_DIR 0 0 1 32 (46 :: replicate 12 0).

Definition ks_fs : kstate :=
  set_itable (<[0%nat := fs_root]>) (set_sb (fun _ => fs_sb)
    (set_log (fun _ => mkLog 2 30 1 false ROOTDEV 0 (replicate 30 0)) (set_disk (fun _ => dk_fs) ks_disk))).

Lemma dk_fs_cases (Q : Z -> block -> Prop) :
  Q 45 fs_map -> Q 46 fs_dir -> (forall bn, bn <> 45 -> bn <> 46 -> Q bn zblock) -> forall bn, Q bn (dblk dk_fs bn).
Proof.
  intros H1 H2 H3 bn. unfold dblk, dk_fs. destruct (decide (bn = 45)) as [->|]; [by rewrite lookup_insert_eq|].
  rewrite lookup_insert_ne by done. destruct (decide (bn = 46)) as [->|]; [by rewrite lookup_insert_eq|].
  rewrite lookup_insert_ne, lookup_empty by done. by apply H3.
Qed.

Lemma dk_fs_len bn : length (dblk dk_fs bn) = 1024%nat.
Proof. apply (dk_fs_cases (fun _ d => length d = 1024%nat)); reflexivity || (intros; reflexivity). Qed.

Lemma ks_fs_txn : txn 2 30 0 dk_fs [] dk_fs ∅ ks_fs.
Proof.
  exists ∅. split.
  - destruct ks_disk_bio as [[? ? ? ? ? ? ?] [? ? Ha Hi Hu]]. split; [by split|]. split; try done.
    intros i b H. right. apply lookup_replicate in H as [-> _]. by split.
  - intros bn. rewrite !lookup_empty. by rewrite decide_False by apply not_elem_of_nil.
  - by split.
  - split; [constructor|simpl; lia].
  - constructor.
  - done.
  - split; vm_compute; reflexivity.
  - done.
Qed.

Lemma fs_root_ok : file_ok dk_fs (inode_of ks_fs 0).
Proof.
  split; [reflexivity|vm_compute; intuition discriminate|vm_compute; discriminate| |apply dk_fs_len].
  intros k Hk Hlt. assert (k = 0) as -> by (change (i_size (inode_of ks_fs 0)) with 32 in Hlt; unfold BSIZE in Hlt; lia).
  vm_compute. intuition congruence.
Qed.

Lemma readi_correct_witness :
  wpc (seq_rely 0) (fun _ => True) (readi 0 (DKern 0x80050000) 16 100)
    (fun r s' => r = (16, 7 :: 0 :: 97 :: replicate 13 0) /\ txn 2 30 0 dk_fs [] dk_fs ∅ s' /\
       rest_eq 0 (set_mem (fun m => write_bytes m 0x80050000 (7 :: 0 :: 97 :: replicate 13 0)) ks_fs) s') ks_fs.
Proof.
  assert (E : read_len (inode_of ks_fs 0) 16 100 = 16) by (vm_compute; reflexivity).
  assert (E' : fbytes dk_fs (inode_of ks_fs 0) 16 16 = 7 :: 0 :: 97 :: replicate 13 0) by (vm_compute; reflexivity).
  pose proof (readi_correct 2 30 demo_geom (fun _ => True) true 0 dk_fs [] dk_fs 0 (DKern 0x80050000) 16 100 ks_fs
                ks_fs_txn fs_root_ok I ltac:(lia) ltac:(lia) ltac:(lia) I) as H.
  cbv zeta in H. rewrite E, E' in H. exact H.
Defined.


Lemma iupdate_correct_witness :
  wpc (seq_rely 0) (fun _ => True) (iupdate 0)
    (fun _ s' => exists V', txn 2 30 0 dk_fs [32] V' ∅ s' /\ rd_dinode (dblk V' 32) 64 = dinode_of fs_root) ks_fs.
Proof.
  eapply wp_mono; [apply (iupdate_correct 2 30 demo_geom (fun _ => True) 0 dk_fs [] dk_fs 0 ks_fs ks_fs_txn)|].
  - reflexivity.
  - vm_compute. intuition discriminate.
  - change (IBLOCK (i_inum (inode_of ks_fs 0)) (k_sb ks_fs)) with 32. unfold in_log. lia.
  - cbn. lia.
  - done.
  - vm_compute. discriminate.
  - split; [vm_compute; intuition discriminate..|reflexivity|].
    change (di_addrs (dinode_of (inode_of ks_fs 0))) with (46 :: replicate 12 0). repeat constructor; lia.
  - apply dk_fs_len.
  - intros [] s' (V' & Ht & _ & Hd & _). exists V'. split; [exact Ht|exact Hd].
Defined.

Lemma fs_used b : 0 <= b < 47 -> used dk_fs fs_sb b = true.
Proof.
  intros Hb. assert (HF : forallb (used dk_fs fs_sb) (seqZ 0 47) = true) by (vm_compute; reflexivity).
  rewrite forallb_forall in HF. apply HF, list_elem_of_In, elem_of_seqZ. lia.
Qed.
Lemma fs_bblock b : 0 <= b < 1000 -> BBLOCK b fs_sb = 45.
Proof. intros. unfold BBLOCK, BPB, BSIZE. rewrite Z.div_small by lia. reflexivity. Qed.
Lemma fs_map_ok : map_ok 2 30 dk_fs (k_sb ks_fs).
Proof.
  change (k_sb ks_fs) with fs_sb. split.
  - vm_compute. intuition discriminate.
  - vm_compute. intuition discriminate.
  - intros b Hb. rewrite fs_bblock by exact Hb. unfold in_log. lia.
  - intros b Hb Hl. apply fs_used. unfold in_log in Hl. lia.
Qed.

Lemma balloc_correct_witness :
  wpc (seq_rely 0) (fun _ => True) (balloc ROOTDEV)
    (fun r s' => r = 47 /\ exists V', txn 2 30 0 dk_fs [45; 47] V' ∅ s' /\ used V' fs_sb 47 = true) ks_fs.
Proof.
  eapply wp_mono; [apply (balloc_correct 2 30 demo_geom (fun _ => True) 0 dk_fs [] dk_fs 47 ks_fs ks_fs_txn fs_map_ok)|].
  - split_and!; [lia|reflexivity|vm_compute; reflexivity|]. intros b Hb. apply fs_used. lia.
  - intros b Hb. change (k_sb ks_fs) with fs_sb. rewrite fs_bblock by exact Hb. lia.
  - apply dk_fs_len.
  - cbn. lia.
  - done.
  - intros r s' (-> & V' & Ht & _ & _ & Hu & _). split; [done|]. exists V'. split; [exact Ht|].
    change (k_sb ks_fs) with fs_sb in Hu. rewrite Hu by (cbn; lia). reflexivity.
Defined.

Lemma bfree_correct_witness :
  wpc (seq_rely 0) (fun _ => True) (bfree ROOTDEV 46)
    (fun _ s' => exists V', txn 2 30 0 dk_fs [45] V' ∅ s' /\ used V' fs_sb 46 = false) ks_fs.
Proof.
  eapply wp_mono; [apply (bfree_correct 2 30 demo_geom (fun _ => True) 0 dk_fs [] dk_fs 46 ks_fs ks_fs_txn fs_map_ok)|].
  - cbn. lia.
  - apply fs_used. lia.
  - apply dk_fs_len.
  - cbn. lia.
  - done.
  - intros r s' (V' & Ht & _ & Hu & _). exists V'. split; [exact Ht|].
    change (k_sb ks_fs) with fs_sb in Hu. rewrite Hu by (cbn; lia). reflexivity.
Defined.
