(* ===== verification/Mkfs.v ===== *)
(** * mkfs.c: building the disk image

    mkfs runs on the build host.  Its state is the image file under
    construction and its global variables; [die] and a failed [assert] end the
    run, as [Panic].  The host's files and its writes are arguments. *)
From S2P Require Import Prelude Memory State Codec LogSpec Fs.

(** What the host answers. *)
Class Host := {
  (** opening the image for writing, emptied, succeeds *)
  host_create : list Z -> bool;
  (** the bytes successive reads of a source file give until one gives none;
      [None] if it cannot be opened *)
  host_file : list Z -> option (list (list Z));
  (** a write of a block at this offset of the image is complete *)
  host_write : Z -> bool
}.

Definition NINODES : Z := 200.

(** The globals, and the image as the sectors written; [m_end] is its length in
    sectors.  A sector never written, below the end, reads as zeroes. *)
Record mkfs := mkMkfs {
  m_img : gmap Z block; m_end : Z; m_sb : superblock; m_nmeta : Z; m_nblocks : Z;
  m_freeinode : Z; m_freeblock : Z; m_out : list (string * list Z)
}.
Definition m0 : mkfs := mkMkfs ∅ 0 (mkSb 0 0 0 0 0 0 0 0) 0 0 1 0 [].

Definition set_m_img (f : gmap Z block -> gmap Z block) (e : Z) (s : mkfs) : mkfs :=
  mkMkfs (f (m_img s)) e (m_sb s) (m_nmeta s) (m_nblocks s) (m_freeinode s) (m_freeblock s) (m_out s).
Definition set_m_sb (sb : superblock) (nmeta nblocks : Z) (s : mkfs) : mkfs :=
  mkMkfs (m_img s) (m_end s) sb nmeta nblocks (m_freeinode s) (m_freeblock s) (m_out s).
Definition set_m_freeinode (x : Z) (s : mkfs) : mkfs :=
  mkMkfs (m_img s) (m_end s) (m_sb s) (m_nmeta s) (m_nblocks s) x (m_freeblock s) (m_out s).
Definition set_m_freeblock (x : Z) (s : mkfs) : mkfs :=
  mkMkfs (m_img s) (m_end s) (m_sb s) (m_nmeta s) (m_nblocks s) (m_freeinode s) x (m_out s).
Definition set_m_out (f : list (string * list Z) -> list (string * list Z)) (s : mkfs) : mkfs :=
  mkMkfs (m_img s) (m_end s) (m_sb s) (m_nmeta s) (m_nblocks s) (m_freeinode s) (m_freeblock s) (f (m_out s)).

Abbreviation MK := (K mkfs).
Definition die {A : Type} (msg : string) : MK A := panic msg.
Definition assert_ (b : bool) : MK unit := if b then ret tt else panic "assertion failed".
Definition printf (fmt : string) (args : list Z) : MK unit := modify (set_m_out (fun o => o ++ [(fmt, args)])).

(** The byte order of the image is the host's, little-endian. *)
Definition xshort (x : Z) : Z := u8 x + 256 * u8 (Z.shiftr (u16 x) 8).
Definition xint (x : Z) : Z :=
  u8 x + 256 * u8 (Z.shiftr (u32 x) 8) + 65536 * u8 (Z.shiftr (u32 x) 16) + 16777216 * u8 (Z.shiftr (u32 x) 24).

Definition nbitmap : Z := FSSIZE / (BSIZE * 8) + 1.
Definition ninodeblocks : Z := NINODES / IPB + 1.
Definition nlog : Z := LOGSIZE.

Section Mkfs.
Context `{HO : Host}.

(** lseek to a sector of the image and write or read it whole. *)
Definition wsect (sec : Z) (buf : block) : MK unit :=
  let off := u32 (sec * BSIZE) in
  if negb (host_write off) then die "write"
  else modify (fun s => set_m_img (<[off / BSIZE := buf]>) (Z.max (m_end s) (off / BSIZE + 1)) s).
Definition rsect (sec : Z) : MK block :=
  let off := u32 (sec * BSIZE) in
  let* s := gets (fun s => s) in
  if off / BSIZE <? m_end s then ret (dblk (m_img s) (off / BSIZE)) else die "read".

Definition winode (inum : Z) (ip : dinode) : MK unit :=
  let* sb := gets (fun s => m_sb s) in
  let bn := IBLOCK inum sb in
  let* buf := rsect bn in
  wsect bn (wr_dinode (di_off inum) ip buf).
Definition rinode (inum : Z) : MK dinode :=
  let* sb := gets (fun s => m_sb s) in
  let bn := IBLOCK inum sb in
  let* buf := rsect bn in
  ret (rd_dinode buf (di_off inum)).

Definition ialloc (type : Z) : MK Z :=
  let* inum := gets (fun s => m_freeinode s) in
  modify (set_m_freeinode (u32 (inum + 1)));;;
  winode inum (mkDinode (xshort type) 0 0 (xshort 1) (xint 0) (replicate 13 0));;;
  ret inum.

(** One round of balloc's loop, then the loop. *)
Definition mark_bit (buf : block) (i : Z) : block :=
  let k := Z.to_nat (i / 8) in wr8 k (Z.lor (rd8 buf k) (Z.shiftl 1 (i mod 8))) buf.
Definition balloc (used : Z) : MK unit :=
  printf "balloc: first %d blocks have been allocated" [used];;;
  assert_ (used <? BSIZE * 8);;;
  let buf := foldl mark_bit zblock (seqZ 0 used) in
  let* sb := gets (fun s => m_sb s) in
  printf "balloc: write bitmap block at sector %d" [sb_bmapstart sb];;;
  wsect (sb_bmapstart sb) buf.

(** freeblock++ *)
Definition take_block : MK Z :=
  let* b := gets (fun s => m_freeblock s) in
  modify (set_m_freeblock (u32 (b + 1)));;;
  ret b.

(** The block that holds block [fbn] of a file, allocated if there is none. *)
Definition iappend_block (din : dinode) (fbn : Z) : MK (dinode * Z) :=
  if fbn <? Z.of_nat NDIRECT then
    let k := Z.to_nat fbn in
    let* din :=
      (if xint (default 0 (di_addrs din !! k)) =? 0 then
         let* b := take_block in
         ret (mkDinode (di_type din) (di_major din) (di_minor din) (di_nlink din) (di_size din) (<[k := xint b]> (di_addrs din)))
       else ret din) in
    ret (din, xint (default 0 (di_addrs din !! k)))
  else
    let* din :=
      (if xint (default 0 (di_addrs din !! NDIRECT)) =? 0 then
         let* b := take_block in
         ret (mkDinode (di_type din) (di_major din) (di_minor din) (di_nlink din) (di_size din) (<[NDIRECT := xint b]> (di_addrs din)))
       else ret din) in
    let ind := xint (default 0 (di_addrs din !! NDIRECT)) in
    let o := Z.to_nat (4 * (fbn - Z.of_nat NDIRECT)) in
    let* indirect := rsect ind in
    let* indirect :=
      (if rd32 indirect o =? 0 then
         let* b := take_block in
         let indirect := wr32 o (xint b) indirect in
         wsect ind indirect;;;
         ret indirect
       else ret indirect) in
    ret (din, xint (rd32 indirect o)).

(** One round of iappend's loop: inode, offset, bytes left. *)
Definition iappend_round (x : dinode * Z * list Z) : MK (dinode * Z * list Z + dinode * Z) :=
  let '(din, off, p) := x in
  let n := Z.of_nat (length p) in
  if 0 <? n then
    let fbn := off / BSIZE in
    assert_ (fbn <? MAXFILE);;;
    let* r := iappend_block din fbn in
    let '(din, x) := r in
    let n1 := Z.min n (u32 ((fbn + 1) * BSIZE - off)) in
    let* buf := rsect x in
    wsect x (wrbytes (Z.to_nat (off - fbn * BSIZE)) (take (Z.to_nat n1) p) buf);;;
    ret (inl (din, u32 (off + n1), drop (Z.to_nat n1) p))
  else ret (inr (din, off)).

Definition iappend (inum : Z) (p : list Z) : MK unit :=
  let* din := rinode inum in
  let* r := loop iappend_round (din, xint (di_size din), p) in
  let '(din, off) := r in
  winode inum (mkDinode (di_type din) (di_major din) (di_minor din) (di_nlink din) (xint off) (di_addrs din)).

(** The name of a source file in the root directory. *)
Definition user_dir : list Z := [117; 115; 101; 114; 47].
Definition under : Z := 95.
Definition strip_dir (path : list Z) : list Z :=
  if strncmp_l path user_dir 5 =? 0 then drop 5 path else path.
Definition strip_under (name : list Z) : list Z :=
  match name with c :: name' => if c =? under then name' else name | [] => name end.

(** The loop of main over the source files. *)
Definition add_file (rootino : Z) (path : list Z) : MK unit :=
  let shortname := strip_dir path in
  assert_ (bool_decide (slash ∉ shortname));;;
  match host_file path with
  | None => die "open"
  | Some reads =>
      let shortname := strip_under shortname in
      let* inum := ialloc T_FILE in
      iappend rootino (mk_dirent (xshort inum) (strncpy_l shortname DIRSIZ));;;
      for_each reads (iappend inum)
  end.

Definition wr_superblock (sb : superblock) (d : block) : block :=
  wr32 28 (sb_bmapstart sb) (wr32 24 (sb_inodestart sb) (wr32 20 (sb_logstart sb) (wr32 16 (sb_nlog sb)
    (wr32 12 (sb_ninodes sb) (wr32 8 (sb_nblocks sb) (wr32 4 (sb_size sb) (wr32 0 (sb_magic sb) d))))))).

Definition dot_name : list Z := 46 :: replicate 13 0.
Definition dotdot_name : list Z := 46 :: 46 :: replicate 12 0.

(** The part of main that lays out an empty disk. *)
Definition format_ : MK unit :=
  let nmeta := 2 + nlog + ninodeblocks + nbitmap in
  let nblocks := FSSIZE - nmeta in
  modify (set_m_sb (mkSb FSMAGIC (xint FSSIZE) (xint nblocks) (xint NINODES) (xint nlog) (xint 2) (xint (2 + nlog))
                      (xint (2 + nlog + ninodeblocks))) nmeta nblocks);;;
  printf "nmeta %d (boot, super, log blocks %u inode blocks %u, bitmap blocks %u) blocks %d total %d"
    [nmeta; nlog; ninodeblocks; nbitmap; nblocks; FSSIZE];;;
  modify (set_m_freeblock nmeta);;;
  for_each (seqZ 0 FSSIZE) (fun i => wsect i zblock);;;
  let* sb := gets (fun s => m_sb s) in
  wsect 1 (wr_superblock sb zblock).

(** The end of main: fix size of root inode dir, write the free map. *)
Definition finish (rootino : Z) : MK unit :=
  let* din := rinode rootino in
  let off := xint (di_size din) in
  let off := u32 ((off / BSIZE + 1) * BSIZE) in
  winode rootino (mkDinode (di_type din) (di_major din) (di_minor din) (di_nlink din) (xint off) (di_addrs din));;;
  let* used := gets (fun s => m_freeblock s) in
  balloc used.

Definition main (argv : list (list Z)) : MK unit :=
  match argv with
  | _ :: img :: files =>
      assert_ (BSIZE mod sizeof_dinode =? 0);;;
      assert_ (BSIZE mod sizeof_dirent =? 0);;;
      (if host_create img then ret tt else die "open");;;
      format_;;;
      let* rootino := ialloc T_DIR in
      assert_ (rootino =? ROOTINO);;;
      iappend rootino (mk_dirent (xshort rootino) dot_name);;;
      iappend rootino (mk_dirent (xshort rootino) dotdot_name);;;
      for_each files (add_file rootino);;;
      finish rootino
  | _ => panic "Usage: mkfs fs.img files..."
  end.
End Mkfs.
