(* ===== verification/MkfsSpec.v ===== *)
(** * The image mkfs builds

    [mfile]: a file under construction, as the addresses of its inode and the
    bytes appended so far.  [mstep]: blocks are taken in order from the first
    free one and only the blocks of the file change.  iappend keeps both. *)
From S2P Require Import Prelude Memory State Kalloc Vm Sched SchedSpec Sleeplock Virtio VirtioSpec Bio BioSpec Codec Log LogSpec LogCrash Txn Fs FsCodec FsSpec FsAlloc FsInode FsTheorems FsWrite FsTrunc FsDir FsPath Mkfs.

(** ** Byte order *)
Lemma xshort_u16 x : xshort x = u16 x.
Proof.
  unfold xshort. rewrite <- (u16_split x). do 2 f_equal. unfold u8, u16, wrap. rewrite !Z.shiftr_div_pow2 by lia.
  change (2 ^ 8) with 256. change (2 ^ 16) with 65536. zmod.
Qed.
Lemma xint_u32 x : xint x = u32 x.
Proof.
  unfold xint, u8, u32, wrap. rewrite !Z.shiftr_div_pow2 by lia. change (2 ^ 8) with 256. change (2 ^ 16) with 65536.
  change (2 ^ 24) with 16777216. change (2 ^ 32) with 4294967296. zmod.
Qed.
Lemma xint_small x : 0 <= x < 2 ^ 32 -> xint x = x.
Proof. intros. rewrite xint_u32. by apply u32_small. Qed.

(** ** The layout *)
Definition nmeta : Z := 46.
Definition sb0 : superblock := mkSb FSMAGIC 1000 954 200 30 2 32 45.

(** An inode with the addresses [a]. *)
Definition ai (a : list Z) : inode := mkInode ROOTDEV 0 0 (mkSleeplock false 0) false 0 0 0 0 0 a.

(** Which places of an inode of [n] blocks are in use. *)
Definition has_slot (n k : Z) : bool := if k =? MAXFILE then 12 <? n else k <? n.

Record mfile (V : gmap Z block) (fb : Z) (a : list Z) (n : Z) (bs : list Z) : Prop := {
  mf_len : length a = 13%nat;
  mf_n : 0 <= n <= MAXFILE;
  mf_size : Z.of_nat (length bs) <= n * BSIZE;
  mf_slot : forall k, 0 <= k <= MAXFILE -> if has_slot n k then nmeta <= slot V (ai a) k < fb else slot V (ai a) k = 0;
  mf_inj : forall k k', 0 <= k <= MAXFILE -> 0 <= k' <= MAXFILE -> slot V (ai a) k <> 0 -> slot V (ai a) k = slot V (ai a) k' -> k = k';
  mf_byte : forall o, 0 <= o < n * BSIZE -> fbyte V (ai a) o = default 0 (bs !! Z.to_nat o)
}.

Record mstep (V : gmap Z block) (fb : Z) (a : list Z) (V' : gmap Z block) (fb' : Z) (a' : list Z) : Prop := {
  ms_fb : fb <= fb';
  ms_meta : forall b, b < nmeta -> dblk V' b = dblk V b;
  ms_other : forall b, b < fb -> ~ owns V (ai a) b -> dblk V' b = dblk V b;
  ms_owns : forall b, owns V' (ai a') b <-> owns V (ai a) b \/ fb <= b < fb';
  ms_zero : (forall b, fb <= b -> dblk V b = zblock) -> forall b, fb' <= b -> dblk V' b = zblock;
  ms_blen : (forall b, length (dblk V b) = 1024%nat) -> forall b, length (dblk V' b) = 1024%nat
}.

Lemma mstep_refl V fb a : mstep V fb a V fb a.
Proof. split; try done. intros b. split; [by left|intros [?|?]; [done|lia]]. Qed.

Lemma mstep_trans V fb a V1 fb1 a1 V2 fb2 a2 : mstep V fb a V1 fb1 a1 -> mstep V1 fb1 a1 V2 fb2 a2 -> mstep V fb a V2 fb2 a2.
Proof.
  intros [A1 A2 A3 A4 A5 A6] [B1 B2 B3 B4 B5 B6]. split; [lia| | | |auto|auto].
  - intros b Hb. by rewrite B2, A2.
  - intros b Hb Hno. rewrite B3, A3; [done|done|done|lia|]. rewrite A4. intros [?|?]; [done|lia].
  - intros b. rewrite B4, A4. split; [intros [[?|?]|?]|intros [?|?]]; auto; [right; lia|right; lia|].
    destruct (Z.lt_ge_cases b fb1); [left; right; lia|right; lia].
Qed.

(** ** Data *)
Lemma mf_pos V fb a n bs k : mfile V fb a n bs -> 0 <= k <= MAXFILE -> has_slot n k = true -> nmeta <= slot V (ai a) k < fb /\ slot V (ai a) k <> 0.
Proof. intros Hm Hk E. pose proof (mf_slot _ _ _ _ _ Hm k Hk) as H. rewrite E in H. unfold nmeta in *. lia. Qed.

Lemma has_slot_lt n k : 0 <= k < n -> n <= MAXFILE -> has_slot n k = true.
Proof. intros Hk Hn. unfold has_slot. rewrite (proj2 (Z.eqb_neq k MAXFILE)) by lia. apply Z.ltb_lt. lia. Qed.

Lemma mfile_write V fb a n bs l x :
  let off := Z.of_nat (length bs) in let k := off / BSIZE in
  mfile V fb a n bs -> (forall b, length (dblk V b) = 1024%nat) -> k < n -> off mod BSIZE + Z.of_nat (length l) <= BSIZE -> x = slot V (ai a) k ->
  let V' := <[x := wrbytes (Z.to_nat (off mod BSIZE)) l (dblk V x)]> V in
  mfile V' fb a n (bs ++ l) /\ mstep V fb a V' fb a.
Proof.
  intros off k Hm Hlen Hk Hl Hx V'. pose proof Hm as [M1 M2 M3 M4 M5 M6].
  assert (Hk0 : 0 <= k) by (unfold k, off, BSIZE; zmod). assert (Hoff : 0 <= off mod BSIZE < 1024) by (unfold BSIZE; zmod).
  destruct (mf_pos _ _ _ _ _ k Hm ltac:(lia) ltac:(apply has_slot_lt; lia)) as [Hr Hnz]. rewrite <- Hx in Hr, Hnz.
  assert (Hs : forall k', slot V' (ai a) k' = slot V (ai a) k').
  { intros k'. apply slot_ext. intros Hi. unfold V'. rewrite dblk_ne; [done|]. intros E. rewrite Hx in E.
    apply M5 in E; [lia|lia|rewrite maxfile_eq; lia|congruence]. }
  assert (Hlw : length (wrbytes (Z.to_nat (off mod BSIZE)) l (dblk V x)) = 1024%nat) by (rewrite length_wrbytes; rewrite Hlen; unfold BSIZE in *; lia).
  split.
  - split; [done|done| | | |].
    + rewrite length_app. unfold k, off, BSIZE in *. zmod.
    + intros k' Hk'. rewrite Hs. by apply M4.
    + intros k1 k2. rewrite !Hs. apply M5.
    + intros o Ho. assert (Hok : 0 <= o / BSIZE < n) by (unfold BSIZE in *; zmod).
      destruct (mf_pos _ _ _ _ _ (o / BSIZE) Hm ltac:(lia) ltac:(apply has_slot_lt; lia)) as [_ Hnz'].
      specialize (M6 o Ho). rewrite fbyte_slot in M6 by (done || lia). rewrite fbyte_slot by (rewrite ?Hs; done || lia). rewrite Hs.
      destruct (Z.eq_dec (o / BSIZE) k) as [Ek|Ek].
      * rewrite Ek, <- Hx in *. unfold V'. rewrite dblk_eq, rd8_wrbytes by (rewrite Hlen; unfold BSIZE in *; lia).
        assert (Eo : o - off = o mod BSIZE - off mod BSIZE) by (unfold k, BSIZE in *; zmod). assert (0 <= o mod BSIZE) by (unfold BSIZE; zmod).
        destruct (decide _) as [Hd|Hd].
        -- rewrite lookup_app_r by lia. do 2 f_equal. lia.
        -- rewrite M6. destruct (Z.lt_ge_cases o off); [by rewrite lookup_app_l by lia|]. rewrite !(proj2 (lookup_ge_None _ _)); [done|rewrite ?length_app; lia..].
      * unfold V'. rewrite dblk_ne, M6.
        -- destruct (Z.lt_ge_cases o off); [by rewrite lookup_app_l by lia|]. rewrite !(proj2 (lookup_ge_None _ _)); [done| |lia].
           rewrite length_app. unfold k, off, BSIZE in *. zmod.
        -- intros E. apply Ek. rewrite Hx in E. symmetry. apply M5; [lia|lia|congruence|done].
  - split; [lia| | | | |].
    + intros b Hb. unfold V'. by rewrite dblk_ne by lia.
    + intros b Hb Hno. unfold V'. rewrite dblk_ne; [done|]. intros ->. apply Hno. split; [done|]. exists k. split; [lia|done].
    + intros b. unfold owns. setoid_rewrite Hs. split; [by left|intros [?|?]; [done|lia]].
    + intros Hz b Hb. unfold V'. rewrite dblk_ne by lia. by apply Hz.
    + intros _ b. unfold V'. destruct (Z.eq_dec x b) as [<-|]; [by rewrite dblk_eq|by rewrite dblk_ne].
Qed.

(** ** New blocks *)

(** The places a file of [n] blocks does not have and one of [n + 1] has get
    distinct blocks from [fb] on. *)
Lemma mfile_grow V fb a n bs V' fb' a' :
  mfile V fb a n bs -> nmeta <= fb <= fb' -> n < MAXFILE -> length a' = 13%nat ->
  (forall k, 0 <= k <= MAXFILE -> has_slot n k = true -> slot V' (ai a') k = slot V (ai a) k) ->
  (forall k, 0 <= k <= MAXFILE -> has_slot (n + 1) k = false -> slot V' (ai a') k = 0) ->
  (forall k, 0 <= k <= MAXFILE -> has_slot n k = false -> has_slot (n + 1) k = true -> fb <= slot V' (ai a') k < fb') ->
  (slot V' (ai a') n = slot V' (ai a') MAXFILE -> has_slot n MAXFILE = true) ->
  (forall b, fb <= b < fb' -> owns V' (ai a') b) ->
  (forall b, b <> slot V (ai a) MAXFILE \/ slot V (ai a) MAXFILE = 0 -> b < fb -> dblk V' b = dblk V b) ->
  dblk V' (slot V' (ai a') n) = zblock -> (forall b, fb' <= b -> dblk V' b = dblk V b) ->
  ((forall b, length (dblk V b) = 1024%nat) -> forall b, length (dblk V' b) = 1024%nat) ->
  mfile V' fb' a' (n + 1) bs /\ mstep V fb a V' fb' a'.
Proof.
  intros Hm Hfb Hn Hla Hold Hnone Hnew Hdist Hown Hsame Hz Hzero Hbl. pose proof Hm as [M1 M2 M3 M4 M5 M6]. rewrite maxfile_eq in *.
  assert (Hmono : forall k, has_slot n k = true -> has_slot (n + 1) k = true).
  { intros k. unfold has_slot. destruct (k =? MAXFILE); rewrite !Z.ltb_lt; lia. }
  assert (Hcase : forall k, 0 <= k <= 268 -> has_slot n k = false -> has_slot (n + 1) k = true -> k = n \/ k = 268).
  { intros k Hk. unfold has_slot. rewrite maxfile_eq. destruct (Z.eqb_spec k 268); [by right|]. rewrite Z.ltb_ge, Z.ltb_lt. lia. }
  assert (Hnn : has_slot n n = false /\ has_slot (n + 1) n = true).
  { unfold has_slot. rewrite maxfile_eq, (proj2 (Z.eqb_neq n 268)) by lia. rewrite Z.ltb_ge, Z.ltb_lt. lia. }
  assert (Hlow : forall k, 0 <= k <= 268 -> has_slot n k = true -> slot V' (ai a') k < fb).
  { intros k Hk E. rewrite Hold by done. by apply (mf_pos V fb a n bs k Hm). }
  assert (Hdata : forall k, 0 <= k < n -> dblk V' (slot V (ai a) k) = dblk V (slot V (ai a) k)).
  { intros k Hk. destruct (mf_pos V fb a n bs k Hm ltac:(rewrite maxfile_eq; lia) ltac:(apply has_slot_lt; rewrite ?maxfile_eq; lia)) as [Hr Hnz].
    apply Hsame; [|lia]. left. intros E. apply M5 in E; lia. }
  split.
  - split; [done|rewrite maxfile_eq; lia|unfold BSIZE in *; lia| | |].
    + intros k Hk. rewrite maxfile_eq in Hk. destruct (has_slot (n + 1) k) eqn:E1; [|by apply Hnone]. destruct (has_slot n k) eqn:E0.
      * rewrite Hold by done. destruct (mf_pos V fb a n bs k Hm Hk E0). lia.
      * specialize (Hnew k Hk E0 E1). lia.
    + rewrite maxfile_eq. intros k k' Hk Hk' Hnz E.
      destruct (has_slot (n + 1) k) eqn:E1; [|by rewrite Hnone in Hnz]. destruct (has_slot (n + 1) k') eqn:E1'; [|by rewrite E, Hnone in Hnz].
      destruct (has_slot n k) eqn:E0, (has_slot n k') eqn:E0'.
      * rewrite Hold in Hnz, E by done. rewrite (Hold k') in E by done. by apply M5.
      * specialize (Hlow k Hk E0). specialize (Hnew k' Hk' E0' E1'). lia.
      * specialize (Hlow k' Hk' E0'). specialize (Hnew k Hk E0 E1). lia.
      * destruct (Hcase k Hk E0 E1) as [-> | -> ], (Hcase k' Hk' E0' E1') as [-> | -> ]; try done; exfalso.
        -- apply Hdist in E. congruence.
        -- symmetry in E. apply Hdist in E. congruence.
    + intros o Ho. assert (Hok : 0 <= o / BSIZE < n + 1) by (unfold BSIZE in *; zmod).
      destruct (Z.eq_dec (o / BSIZE) n) as [E|E].
      * rewrite fbyte_slot; [|rewrite E, maxfile_eq; lia|rewrite E; specialize (Hnew n ltac:(lia) (proj1 Hnn) (proj2 Hnn)); unfold nmeta in *; lia].
        rewrite E, Hz. rewrite (proj2 (lookup_ge_None _ _)) by (unfold BSIZE in *; zmod). unfold rd8, zblock.
        destruct (replicate _ _ !! _) eqn:Er; [|done]. by apply lookup_replicate in Er as [-> _].
      * assert (Hk : 0 <= o / BSIZE < n) by lia.
        destruct (mf_pos V fb a n bs (o / BSIZE) Hm ltac:(rewrite maxfile_eq; lia) ltac:(apply has_slot_lt; rewrite ?maxfile_eq; lia)) as [Hr Hnz].
        assert (Es : slot V' (ai a') (o / BSIZE) = slot V (ai a) (o / BSIZE)) by (apply Hold; [lia|apply has_slot_lt; rewrite ?maxfile_eq; lia]).
        rewrite fbyte_slot by (rewrite ?Es; done || rewrite maxfile_eq; lia). rewrite Es, Hdata by done.
        rewrite <- fbyte_slot by (done || rewrite maxfile_eq; lia). apply M6. unfold BSIZE in *. zmod.
  - split; [lia| | | | |done].
    + intros b Hb. apply Hsame; [|lia]. destruct (Z.eq_dec (slot V (ai a) 268) 0) as [|Hnz]; [by right|left]. intros ->.
      specialize (M4 268 ltac:(lia)). destruct (has_slot n 268); [lia|done].
    + intros b Hb Hno. apply Hsame; [|done]. destruct (Z.eq_dec (slot V (ai a) 268) 0) as [|Hnz]; [by right|left]. intros ->.
      apply Hno. split; [done|]. exists 268. rewrite maxfile_eq. split; [lia|done].
    + intros b. split.
      * intros [Hb (k & Hk & <-)]. rewrite maxfile_eq in Hk. destruct (has_slot n k) eqn:E0.
        -- left. rewrite Hold in * by done. split; [done|]. exists k. by rewrite maxfile_eq.
        -- right. apply Hnew; [done|done|]. destruct (has_slot (n + 1) k) eqn:E1; [done|]. by rewrite Hnone in Hb.
      * intros [[Hb (k & Hk & Es)]|Hr]; [|by apply Hown]. rewrite maxfile_eq in Hk. split; [done|]. exists k. rewrite maxfile_eq. split; [done|].
        rewrite Hold; [done|done|]. specialize (M4 k Hk). destruct (has_slot n k); [done|congruence].
    + intros Hz0 b Hb. rewrite Hzero by done. apply Hz0. lia.
Qed.

Lemma slot_direct V a k b k' : length a = 13%nat -> 0 <= k < 12 -> 0 <= k' <= MAXFILE ->
  slot V (ai (<[Z.to_nat k := b]> a)) k' = if k' =? k then b else slot V (ai a) k'.
Proof.
  intros Hl Hk Hk'. unfold slot, addr_at, NDIRECT, ai. cbn [i_addrs]. rewrite !list_lookup_insert_ne by lia.
  destruct (Z.eqb_spec k' MAXFILE) as [E|E].
  { rewrite (proj2 (Z.eqb_neq k' k)); [done|]. rewrite E, maxfile_eq. lia. }
  change (Z.of_nat 12) with 12. destruct (Z.ltb_spec k' 12) as [Hlt|Hge].
  - destruct (Z.eqb_spec k' k) as [-> |Hne]; [by rewrite list_lookup_insert_eq by lia|]. by rewrite list_lookup_insert_ne by lia.
  - by rewrite (proj2 (Z.eqb_neq k' k)) by lia.
Qed.

(** The entry of block [k] in the indirect block. *)
Lemma slot_entry V a d k b k' : let ind := slot V (ai a) MAXFILE in
  12 <= k < MAXFILE -> 0 <= k' <= MAXFILE -> ind <> 0 -> length d = 1024%nat -> d = dblk V ind -> 0 <= b < 2 ^ 32 ->
  slot (<[ind := wr32 (Z.to_nat (4 * (k - 12))) b d]> V) (ai a) k' = if k' =? k then b else slot V (ai a) k'.
Proof.
  intros ind Hk Hk' Hi Hl Hd Hb. change ind with (addr_at (ai a) NDIRECT) in *. clearbody ind. unfold slot.
  destruct (Z.eqb_spec k' MAXFILE) as [E|E].
  { rewrite (proj2 (Z.eqb_neq k' k)); [done|]. lia. }
  change (Z.of_nat NDIRECT) with 12. destruct (Z.ltb_spec k' 12); [by rewrite (proj2 (Z.eqb_neq k' k)) by lia|].
  destruct (Z.eqb_spec (addr_at (ai a) NDIRECT) 0); [done|]. rewrite dblk_eq. rewrite maxfile_eq in *. destruct (Z.eqb_spec k' k) as [-> |Hne].
  - rewrite rd32_wr32 by lia. by apply u32_small.
  - rewrite rd32_wr32_ne by lia. by rewrite Hd.
Qed.

Ltac slots := unfold has_slot in *; rewrite ?maxfile_eq in *;
  repeat match goal with
         | H : context [?x =? ?y] |- _ => destruct (Z.eqb_spec x y)
         | |- context [?x =? ?y] => destruct (Z.eqb_spec x y)
         end; rewrite ?Z.ltb_lt, ?Z.ltb_ge in *; try lia.

Section Grow.
Context (V : gmap Z block) (fb : Z) (a : list Z) (n : Z) (bs : list Z).
Context (Hm : mfile V fb a n bs) (Hfb : nmeta <= fb < 2 ^ 31) (Hn : n < MAXFILE).
Context (Hz : forall b, fb <= b -> dblk V b = zblock) (Hbl : forall b, length (dblk V b) = 1024%nat).

Lemma mf_none k : 0 <= k <= MAXFILE -> has_slot n k = false -> slot V (ai a) k = 0.
Proof. intros Hk E. pose proof (mf_slot _ _ _ _ _ Hm k Hk) as H. by rewrite E in H. Qed.

Lemma grow_direct : n < 12 -> let a' := <[Z.to_nat n := fb]> a in
  mfile V (fb + 1) a' (n + 1) bs /\ mstep V fb a V (fb + 1) a' /\ slot V (ai a') n = fb.
Proof.
  intros Hlt a'. pose proof (mf_n _ _ _ _ _ Hm) as Hn0. pose proof (mf_len _ _ _ _ _ Hm) as Hla.
  assert (Hs : forall k, 0 <= k <= MAXFILE -> slot V (ai a') k = if k =? n then fb else slot V (ai a) k) by (intros; apply slot_direct; [done|lia|done]).
  assert (En : slot V (ai a') n = fb) by (rewrite Hs by (rewrite maxfile_eq; lia); by rewrite Z.eqb_refl).
  enough (H : mfile V (fb + 1) a' (n + 1) bs /\ mstep V fb a V (fb + 1) a') by (destruct H; by split_and!).
  apply (mfile_grow V fb a n bs); try done; [lia|by unfold a'; rewrite length_insert| | | | | |rewrite En; apply Hz; lia].
  - intros k Hk E. rewrite Hs by done. slots.
  - intros k Hk E. rewrite Hs by done. destruct (Z.eqb_spec k n) as [-> |]; [slots|]. apply mf_none; [done|slots].
  - intros k Hk E E'. rewrite Hs by done. slots.
  - rewrite En, Hs by (rewrite maxfile_eq; lia). rewrite (proj2 (Z.eqb_neq MAXFILE n)) by lia.
    rewrite mf_none by (rewrite ?maxfile_eq; lia || slots). unfold nmeta in *. lia.
  - intros b Hb. unfold nmeta in *. split; [lia|]. exists n. split; [rewrite maxfile_eq; lia|]. rewrite En. lia.
Qed.

Lemma grow_entry : 12 < n -> let ind := slot V (ai a) MAXFILE in let V' := <[ind := wr32 (Z.to_nat (4 * (n - 12))) fb (dblk V ind)]> V in
  mfile V' (fb + 1) a (n + 1) bs /\ mstep V fb a V' (fb + 1) a /\ slot V' (ai a) n = fb.
Proof.
  intros Hlt ind V'. pose proof (mf_n _ _ _ _ _ Hm) as Hn0. pose proof (mf_len _ _ _ _ _ Hm) as Hla.
  destruct (mf_pos _ _ _ _ _ MAXFILE Hm) as [Hi Hi0]; [rewrite maxfile_eq; lia|slots|]. fold ind in Hi, Hi0.
  assert (Hs : forall k, 0 <= k <= MAXFILE -> slot V' (ai a) k = if k =? n then fb else slot V (ai a) k).
  { intros k Hk. apply slot_entry; try done; unfold nmeta in *; lia. }
  assert (En : slot V' (ai a) n = fb) by (rewrite Hs by (rewrite maxfile_eq in *; lia); by rewrite Z.eqb_refl).
  enough (H : mfile V' (fb + 1) a (n + 1) bs /\ mstep V fb a V' (fb + 1) a) by (destruct H; by split_and!).
  apply (mfile_grow V fb a n bs); try done; [lia| | | | | | | | |].
  - intros k Hk E. rewrite Hs by done. slots.
  - intros k Hk E. rewrite Hs by done. destruct (Z.eqb_spec k n) as [-> |]; [slots|]. apply mf_none; [done|slots].
  - intros k Hk E E'. rewrite Hs by done. slots.
  - intros _. slots.
  - intros b Hb. unfold nmeta in *. split; [lia|]. exists n. split; [rewrite maxfile_eq in *; lia|]. rewrite En. lia.
  - intros b Hb Hlb. unfold V'. rewrite dblk_ne; [done|]. fold ind in Hb. intuition.
  - rewrite En. unfold V'. rewrite dblk_ne by lia. apply Hz. lia.
  - intros b Hb. unfold V'. by rewrite dblk_ne by lia.
  - intros _ b. unfold V'. destruct (Z.eq_dec ind b) as [<-|]; [by rewrite dblk_eq, length_wr32|by rewrite dblk_ne].
Qed.

Lemma grow_both : n = 12 -> let a' := <[NDIRECT := fb]> a in let V' := <[fb := wr32 0 (fb + 1) zblock]> V in
  mfile V' (fb + 2) a' (n + 1) bs /\ mstep V fb a V' (fb + 2) a' /\ slot V' (ai a') n = fb + 1.
Proof.
  intros Hlt a' V'. pose proof (mf_len _ _ _ _ _ Hm) as Hla. unfold nmeta in *.
  assert (Hind : slot V (ai a') MAXFILE = fb) by (unfold slot; rewrite Z.eqb_refl; unfold addr_at, a'; cbn [ai i_addrs]; by rewrite list_lookup_insert_eq by (unfold NDIRECT; lia)).
  assert (Hs1 : forall k, 0 <= k < MAXFILE -> slot V (ai a') k = slot V (ai a) k).
  { intros k Hk. destruct (Z.lt_ge_cases k 12).
    - unfold slot. rewrite (proj2 (Z.eqb_neq k MAXFILE)) by lia. change (Z.of_nat NDIRECT) with 12. rewrite (proj2 (Z.ltb_lt k 12)) by done.
      unfold addr_at, a'. cbn [ai i_addrs]. by rewrite list_lookup_insert_ne by (unfold NDIRECT; lia).
    - rewrite (mf_none k) by (done || slots || lia). unfold slot. rewrite (proj2 (Z.eqb_neq k MAXFILE)) by lia. change (Z.of_nat NDIRECT) with 12.
      rewrite (proj2 (Z.ltb_ge k 12)) by done. change (addr_at (ai a') NDIRECT) with (slot V (ai a') MAXFILE). rewrite Hind, (Hz fb) by lia.
      destruct (fb =? 0); [done|]. unfold rd32, rd16, rd8, zblock. rewrite maxfile_eq in *. rewrite !lookup_replicate_2 by lia. done. }
  assert (Hs : forall k, 0 <= k < MAXFILE -> slot V' (ai a') k = if k =? n then fb + 1 else slot V (ai a) k).
  { intros k Hk. rewrite <- Hs1 by done. unfold V'. rewrite <- Hind at 1. rewrite Hlt. apply (slot_entry V a' zblock 12); [rewrite maxfile_eq; lia|lia|lia|done| |lia].
    rewrite Hind. symmetry. apply Hz. lia. }
  assert (Hi : slot V' (ai a') MAXFILE = fb) by exact Hind.
  assert (En : slot V' (ai a') n = fb + 1) by (rewrite Hs by (rewrite maxfile_eq in *; lia); by rewrite Z.eqb_refl).
  enough (H : mfile V' (fb + 2) a' (n + 1) bs /\ mstep V fb a V' (fb + 2) a') by (destruct H; by split_and!).
  assert (Hc : forall k, 0 <= k <= MAXFILE -> k = MAXFILE \/ 0 <= k < MAXFILE) by (intros; lia).
  apply (mfile_grow V fb a n bs); try done; [unfold nmeta; lia|by unfold a'; rewrite length_insert| | | | | | | | |].
  - intros k Hk E. destruct (Hc k Hk) as [-> |Hk']; [slots|]. rewrite Hs by done. slots.
  - intros k Hk E. destruct (Hc k Hk) as [-> |Hk']; [slots|]. rewrite Hs by done. destruct (Z.eqb_spec k n) as [-> |]; [slots|]. apply mf_none; [done|slots].
  - intros k Hk E E'. destruct (Hc k Hk) as [-> |Hk']; [lia|]. rewrite Hs by done. slots.
  - rewrite En, Hi. lia.
  - intros b Hb. split; [lia|]. destruct (Z.eq_dec b fb) as [-> |]; [exists MAXFILE; split; [rewrite maxfile_eq; lia|done]|].
    exists n. split; [rewrite maxfile_eq in *; lia|]. rewrite En. lia.
  - intros b _ Hb. unfold V'. by rewrite dblk_ne by lia.
  - rewrite En. unfold V'. rewrite dblk_ne by lia. apply Hz. lia.
  - intros b Hb. unfold V'. by rewrite dblk_ne by lia.
  - intros _ b. unfold V'. destruct (Z.eq_dec fb b) as [<-|]; [by rewrite dblk_eq, length_wr32|by rewrite dblk_ne].
Qed.
End Grow.

(** ** iappend appends to a file, and changes no other

    The rounds of iappend's loop, the inode it leaves, and the inodes and files
    next to it. *)
(** The state with another image and first free block. *)
Definition at_ (s : mkfs) (V : gmap Z block) (fb : Z) : mkfs :=
  mkMkfs V (m_end s) (m_sb s) (m_nmeta s) (m_nblocks s) (m_freeinode s) fb (m_out s).

(** Blocks of [n] bytes; with the indirect block. *)
Definition nblks (n : Z) : Z := (n + 1023) / 1024.
Definition needb (n : Z) : Z := n + if 12 <? n then 1 else 0.

Lemma at_at s V fb V' fb' : at_ (at_ s V fb) V' fb' = at_ s V' fb'.
Proof. done. Qed.
Lemma at_id s : at_ s (m_img s) (m_freeblock s) = s.
Proof. by destruct s. Qed.

Lemma needb_S n : needb (n + 1) = needb n + if n =? 12 then 2 else 1.
Proof. unfold needb. destruct (Z.ltb_spec 12 n), (Z.ltb_spec 12 (n + 1)), (Z.eqb_spec n 12); lia. Qed.

Section Append.
Context `{HO : Host} (Hw : forall off, host_write off = true).

Lemma sector sec : 0 <= sec < 1000 -> u32 (sec * BSIZE) / BSIZE = sec.
Proof. intros. unfold BSIZE. rewrite u32_small by lia. by apply Z.div_mul. Qed.

Lemma wp_wsect sec buf (Q : unit -> mkfs -> Prop) s : 0 <= sec < 1000 -> m_end s = 1000 ->
  Q tt (at_ s (<[sec := buf]> (m_img s)) (m_freeblock s)) -> wp (wsect sec buf) Q s.
Proof.
  intros Hs He HQ. unfold wsect. rewrite Hw. cbn [negb]. wp_step. rewrite sector by done. unfold set_m_img.
  rewrite He, Z.max_l by lia. unfold at_ in HQ. by rewrite He in HQ.
Qed.
Lemma wp_rsect sec (Q : block -> mkfs -> Prop) s : 0 <= sec < 1000 -> m_end s = 1000 -> Q (dblk (m_img s) sec) s -> wp (rsect sec) Q s.
Proof. intros Hs He HQ. unfold rsect. wp_step. wp_step. rewrite sector, He by done. rewrite (proj2 (Z.ltb_lt sec 1000)) by lia. by wp_step. Qed.

Lemma wp_mk_take_block (Q : Z -> mkfs -> Prop) s : 0 <= m_freeblock s < 1000 ->
  Q (m_freeblock s) (at_ s (m_img s) (m_freeblock s + 1)) -> wp take_block Q s.
Proof. intros Hf HQ. unfold take_block. wp_steps. rewrite u32_small by lia. exact HQ. Qed.

(** A disk inode with the addresses [a] and the fields of [din]. *)
Definition with_addrs (din : dinode) (a : list Z) : dinode :=
  mkDinode (di_type din) (di_major din) (di_minor din) (di_nlink din) (di_size din) a.

Lemma mf_addr V fb a n bs k : mfile V fb a n bs -> fb <= 1000 -> 0 <= k < 12 -> xint (default 0 (a !! Z.to_nat k)) = slot V (ai a) k.
Proof.
  intros Hm Hfb Hk. pose proof (mf_slot _ _ _ _ _ Hm k ltac:(rewrite maxfile_eq; lia)) as H.
  assert (E : slot V (ai a) k = default 0 (a !! Z.to_nat k)).
  { unfold slot. rewrite (proj2 (Z.eqb_neq k MAXFILE)) by (rewrite maxfile_eq; lia). change (Z.of_nat NDIRECT) with 12. by rewrite (proj2 (Z.ltb_lt k 12)) by lia. }
  rewrite <- E. apply xint_small. destruct (has_slot n k); unfold nmeta in *; lia.
Qed.

Lemma wp_iappend_block din a V fb n bs k (Q : dinode * Z -> mkfs -> Prop) s :
  mfile V fb a n bs -> nmeta <= fb -> (forall b, fb <= b -> dblk V b = zblock) -> (forall b, length (dblk V b) = 1024%nat) ->
  m_end s = 1000 -> 0 <= k < MAXFILE -> n = k \/ n = k + 1 -> fb + needb (k + 1) - needb n <= 1000 -> di_addrs din = a ->
  (forall V' a', let fb' := fb + needb (k + 1) - needb n in mfile V' fb' a' (k + 1) bs -> mstep V fb a V' fb' a' ->
     Q (with_addrs din a', slot V' (ai a') k) (at_ s V' fb')) ->
  wp (iappend_block din k) Q (at_ s V fb).
Proof.
  intros Hm Hfb Hz Hbl He Hk Hn Hroom Ha HQ. unfold iappend_block. rewrite Ha. change (Z.of_nat NDIRECT) with 12.
  assert (Edin : din = with_addrs din a) by (rewrite <- Ha; by destruct din).
  pose proof (needb_S k) as Hnk.
  assert (Hfb' : fb <= 1000) by (destruct (Z.eqb_spec k 12), Hn as [-> | -> ]; lia).
  assert (Hsame : n = k + 1 -> Q (with_addrs din a, slot V (ai a) k) (at_ s V fb)).
  { intros ->. replace fb with (fb + needb (k + 1) - needb (k + 1)) by lia. apply HQ; replace (fb + needb (k + 1) - needb (k + 1)) with fb by lia; [done|apply mstep_refl]. }
  destruct (Z.ltb_spec k 12) as [Hlt|Hge].
  - rewrite (mf_addr V fb a n bs) by (done || lia). wp_step. destruct Hn as [-> |En].
    + rewrite (mf_none V fb a k bs Hm) by (slots || done). rewrite Z.eqb_refl. wp_step. rewrite (proj2 (Z.eqb_neq k 12)) in Hnk by lia.
      destruct (grow_direct V fb a k bs Hm ltac:(lia) ltac:(lia) Hz Hlt) as (G1 & G2 & G3).
      apply wp_mk_take_block; [cbn; unfold nmeta in *; lia|]. cbn [m_freeblock m_img at_]. wp_step. wp_step.
      cbn [di_addrs]. rewrite list_lookup_insert_eq by (rewrite (mf_len _ _ _ _ _ Hm); lia). cbn [from_option]. unfold id.
      rewrite !xint_small by (unfold nmeta in *; rewrite ?xint_small; lia).
      replace (fb + needb (k + 1) - needb k) with (fb + 1) in * by lia. specialize (HQ _ _ G1 G2). by rewrite G3 in HQ.
    + destruct (mf_pos V fb a n bs k Hm) as [_ Hnz]; [lia|slots|]. rewrite (proj2 (Z.eqb_neq _ 0)) by done. wp_step. wp_step.
      rewrite Ha, (mf_addr V fb a n bs) by (done || lia). rewrite Edin. by apply Hsame.
  - change (default 0 (a !! NDIRECT)) with (slot V (ai a) MAXFILE). wp_step.
    assert (Hind : 0 <= slot V (ai a) MAXFILE < fb).
    { pose proof (mf_slot _ _ _ _ _ Hm MAXFILE ltac:(rewrite maxfile_eq; lia)) as H. destruct (has_slot n MAXFILE); unfold nmeta in *; lia. }
    rewrite (xint_small (slot V (ai a) MAXFILE)) by lia. destruct (decide (n = 12)) as [E12|E12].
    + assert (k = 12) as -> by lia. rewrite (mf_none V fb a n bs Hm) by (rewrite ?maxfile_eq; lia || slots). rewrite Z.eqb_refl. wp_step.
      destruct (grow_both V fb a n bs Hm ltac:(lia) ltac:(rewrite maxfile_eq; lia) Hz Hbl E12) as (G1 & G2 & G3). subst n.
      replace (fb + needb (12 + 1) - needb 12) with (fb + 2) in * by (rewrite Hnk, Z.eqb_refl; lia). unfold nmeta in Hfb.
      apply wp_mk_take_block; [cbn; lia|]. cbn [m_freeblock m_img at_]. wp_step.
      cbn [di_addrs]. rewrite list_lookup_insert_eq by (rewrite (mf_len _ _ _ _ _ Hm); unfold NDIRECT; lia). cbn [from_option]. unfold id.
      rewrite !(xint_small fb) by (rewrite ?xint_small; lia). wp_step. apply wp_rsect; [lia|exact He|]. cbn [m_img at_]. rewrite (Hz fb) by lia. wp_step.
      change (rd32 zblock (Z.to_nat (4 * (12 - 12))) =? 0) with true. cbv iota. wp_step. apply wp_mk_take_block; [cbn; lia|]. cbn [m_freeblock m_img at_]. wp_step.
      apply wp_wsect; [lia|exact He|]. wp_step. wp_step. change (Z.to_nat (4 * (12 - 12))) with 0%nat.
      rewrite !(xint_small (fb + 1)) by lia. rewrite rd32_wr32 by (cbn; lia). rewrite (u32_small (fb + 1)), (xint_small (fb + 1)) by lia.
      specialize (HQ _ _ G1 G2). rewrite G3 in HQ. replace (fb + 2) with (fb + 1 + 1) in HQ by lia. exact HQ.
    + destruct (mf_pos V fb a n bs MAXFILE Hm) as [Hir Hin]; [rewrite maxfile_eq; lia|slots|]. rewrite (proj2 (Z.eqb_neq _ 0)) by done. wp_step.
      rewrite Ha. change (default 0 (a !! NDIRECT)) with (slot V (ai a) MAXFILE). rewrite (xint_small (slot V (ai a) MAXFILE)) by lia.
      wp_step. apply wp_rsect; [lia|exact He|]. cbn [m_img at_]. wp_step.
      assert (Es : rd32 (dblk V (slot V (ai a) MAXFILE)) (Z.to_nat (4 * (k - 12))) = slot V (ai a) k).
      { unfold slot at 2. rewrite (proj2 (Z.eqb_neq k MAXFILE)) by lia. change (Z.of_nat NDIRECT) with 12. rewrite (proj2 (Z.ltb_ge k 12)) by lia.
        change (addr_at (ai a) NDIRECT) with (slot V (ai a) MAXFILE). by rewrite (proj2 (Z.eqb_neq _ 0)). }
      rewrite Es. destruct Hn as [-> |En].
      * rewrite (mf_none V fb a k bs Hm) by (slots || lia). rewrite Z.eqb_refl. wp_step. rewrite (proj2 (Z.eqb_neq k 12)) in Hnk by lia.
        destruct (grow_entry V fb a k bs Hm ltac:(lia) ltac:(lia) Hz Hbl ltac:(lia)) as (G1 & G2 & G3). unfold nmeta in Hfb.
        apply wp_mk_take_block; [cbn; lia|]. cbn [m_freeblock m_img at_]. wp_step. apply wp_wsect; [lia|exact He|]. wp_step. wp_step.
        replace (fb + needb (k + 1) - needb k) with (fb + 1) in * by lia. rewrite !(xint_small fb) by lia.
        rewrite rd32_wr32 by (rewrite Hbl, maxfile_eq in *; lia). rewrite (u32_small fb), (xint_small fb) by lia. rewrite Edin.
        specialize (HQ _ _ G1 G2). by rewrite G3 in HQ.
      * destruct (mf_pos V fb a n bs k Hm) as [Hkr Hnz]; [lia|slots|]. rewrite (proj2 (Z.eqb_neq _ 0)) by done. wp_step. wp_step.
        rewrite Es, xint_small by (unfold nmeta in *; lia). rewrite Edin. by apply Hsame.
Qed.

(** The loop: [bs] is in the file, [p] is left. *)
Record appending (s : mkfs) (V0 : gmap Z block) (fb0 : Z) (a0 bs0 : list Z) (din : dinode) (all : list Z)
    (x : dinode * Z * list Z) (s' : mkfs) (V : gmap Z block) (fb : Z) (a bs : list Z) : Prop := {
  ap_x : x = (with_addrs din a, Z.of_nat (length bs), drop (length bs) all);
  ap_s : s' = at_ s V fb;
  ap_bs : bs = take (length bs) all;
  ap_le : (length bs <= length all)%nat;
  ap_file : mfile V fb a (nblks (Z.of_nat (length bs))) bs;
  ap_step : mstep V0 fb0 a0 V fb a;
  ap_fb : fb = fb0 + needb (nblks (Z.of_nat (length bs))) - needb (nblks (Z.of_nat (length bs0)))
}.

Lemma needb_mono m n : m <= n -> needb m <= needb n.
Proof. intros. unfold needb. destruct (Z.ltb_spec 12 m), (Z.ltb_spec 12 n); lia. Qed.

Lemma nblks_next off m n : 0 <= off -> 0 < m -> 0 < n -> m = Z.min n ((off / BSIZE + 1) * BSIZE - off) ->
  nblks (off + m) = off / BSIZE + 1 /\ (nblks off = off / BSIZE \/ nblks off = off / BSIZE + 1) /\ off mod BSIZE + m <= BSIZE /\ m <= n.
Proof. intros. unfold nblks, BSIZE in *. split_and!; zmod. Qed.

Section Loop.
Context (s : mkfs) (V0 : gmap Z block) (fb0 : Z) (a0 bs0 p : list Z) (din : dinode).
Let all := bs0 ++ p.
Context (Hfb : nmeta <= fb0) (Hz : forall b, fb0 <= b -> dblk V0 b = zblock) (Hbl : forall b, length (dblk V0 b) = 1024%nat).
Context (He : m_end s = 1000) (Hmax : Z.of_nat (length all) <= MAXFILE * BSIZE).
Context (Hroom : fb0 + needb (nblks (Z.of_nat (length all))) - needb (nblks (Z.of_nat (length bs0))) <= 1000).
Let ap := appending s V0 fb0 a0 bs0 din all.

Lemma wp_iappend_round x s' V fb a bs (Q : _ -> mkfs -> Prop) : ap x s' V fb a bs ->
  ((length bs < length all)%nat -> forall x' s1 V1 fb1 a1 bs1, ap x' s1 V1 fb1 a1 bs1 -> (length bs < length bs1)%nat -> Q (inl x') s1) ->
  (bs = all -> Q (inr (with_addrs din a, Z.of_nat (length bs))) s') ->
  wp (iappend_round x) Q s'.
Proof.
  intros [-> -> A1 A2 A3 A4 A5] HL HR. unfold iappend_round. set (off := Z.of_nat (length bs)) in *. rewrite length_drop.
  destruct (Nat.eq_dec (length bs) (length all)) as [E|E].
  { rewrite (proj2 (Z.ltb_ge 0 _)) by lia. wp_step. apply HR. rewrite A1, E. by apply firstn_all. }
  rewrite (proj2 (Z.ltb_lt 0 _)) by lia. set (n := Z.of_nat (length all - length bs)). set (k := off / BSIZE).
  assert (Hk : 0 <= k < MAXFILE) by (rewrite maxfile_eq in *; unfold k, off, BSIZE in *; zmod).
  wp_step. unfold assert_. rewrite (proj2 (Z.ltb_lt k MAXFILE)) by lia. wp_step. wp_step.
  rewrite (u32_small ((k + 1) * BSIZE - off)) by (unfold k, off, BSIZE in *; zmod). set (n1 := Z.min n _).
  destruct (nblks_next off n1 n ltac:(lia) ltac:(unfold n1, n, k, off, BSIZE in *; zmod) ltac:(lia) eq_refl) as (N1 & N2 & N3 & N4). fold k in N1, N2.
  assert (Hsub : off + n1 <= Z.of_nat (length all)) by (unfold off, n in *; lia).
  assert (Hn1 : 0 < n1) by (unfold n1, n, k, off, BSIZE in *; zmod).
  assert (Hneed : fb + needb (k + 1) - needb (nblks off) <= 1000).
  { pose proof (needb_mono (nblks (off + n1)) (nblks (Z.of_nat (length all))) ltac:(unfold nblks; zmod)). rewrite N1 in *. lia. }
  pose proof (ms_fb _ _ _ _ _ _ A4) as Hfb'.
  apply (wp_iappend_block (with_addrs din a) a V fb (nblks off) bs k); [done|lia|by apply (ms_zero _ _ _ _ _ _ A4)|by apply (ms_blen _ _ _ _ _ _ A4)|done|done|done|done|done|].
  intros V1 a1 fb1 M1 S1. change (with_addrs (with_addrs din a) a1) with (with_addrs din a1).
  pose proof (mstep_trans _ _ _ _ _ _ _ _ _ A4 S1) as S01.
  assert (Hbl1 : forall b, length (dblk V1 b) = 1024%nat) by (by apply (ms_blen _ _ _ _ _ _ S01)).
  destruct (mf_pos V1 fb1 a1 (k + 1) bs k M1) as [Hx _]; [lia|slots|]. assert (Hfb1 : fb1 <= 1000) by exact Hneed.
  wp_step. apply wp_rsect; [unfold nmeta in *; lia|done|]. cbn [m_img at_]. wp_step. apply wp_wsect; [unfold nmeta in *; lia|done|]. cbn [m_img m_freeblock at_].
  set (l := take (Z.to_nat n1) (drop (length bs) all)). assert (Hl : length l = Z.to_nat n1) by (unfold l; rewrite length_take, length_drop; lia).
  destruct (mfile_write V1 fb1 a1 (k + 1) bs l (slot V1 (ai a1) k) M1 Hbl1) as [M2 S2]; [fold off k; lia|rewrite Hl; fold off; lia|done|]. fold off in M2, S2.
  replace (off - k * BSIZE) with (off mod BSIZE) by (unfold k, BSIZE; zmod). wp_step.
  apply (HL ltac:(lia) _ _ (<[slot V1 (ai a1) k:=wrbytes (Z.to_nat (off mod BSIZE)) l (dblk V1 (slot V1 (ai a1) k))]> V1) fb1 a1 (bs ++ l));
    [|rewrite length_app; lia]. rewrite maxfile_eq in *. unfold BSIZE in Hmax.
  assert (El : Z.of_nat (length (bs ++ l)) = off + n1) by (rewrite length_app; lia). split.
  - rewrite El, u32_small by lia. f_equal. rewrite drop_drop. f_equal. rewrite length_app. lia.
  - done.
  - transitivity (take (length bs + Z.to_nat n1) all); [rewrite A1 at 1; apply take_take_drop|]. f_equal. rewrite length_app. lia.
  - rewrite length_app. lia.
  - by rewrite El, N1.
  - by eapply mstep_trans.
  - rewrite El, N1. unfold fb1. lia.
Qed.

Lemma wp_append_loop s1 (Q : dinode * Z -> mkfs -> Prop) :
  s1 = at_ s V0 fb0 -> mfile V0 fb0 a0 (nblks (Z.of_nat (length bs0))) bs0 -> di_addrs din = a0 ->
  (forall V' a', let fb' := fb0 + needb (nblks (Z.of_nat (length all))) - needb (nblks (Z.of_nat (length bs0))) in
     mfile V' fb' a' (nblks (Z.of_nat (length all))) all -> mstep V0 fb0 a0 V' fb' a' ->
     Q (with_addrs din a', Z.of_nat (length all)) (at_ s V' fb')) ->
  wp (loop iappend_round (din, Z.of_nat (length bs0), p)) Q s1.
Proof.
  intros -> Hm Ha HQ.
  apply (wp_loop _ (fun x s' => exists V fb a bs, ap x s' V fb a bs) (fun x _ => Z.of_nat (length x.2))).
  - intros x s' (V & fb & a & bs & Hap). eapply wp_iappend_round; [exact Hap| |].
    + intros Hlt x' s1 V1 fb1 a1 bs1 Hap1 Hl. split; [by exists V1, fb1, a1, bs1|]. rewrite (ap_x _ _ _ _ _ _ _ _ _ _ _ _ _ Hap), (ap_x _ _ _ _ _ _ _ _ _ _ _ _ _ Hap1).
      pose proof (ap_le _ _ _ _ _ _ _ _ _ _ _ _ _ Hap1). cbn [snd]. rewrite !length_drop. lia.
    + intros ->. destruct Hap as [-> -> _ _ A3 A4 ->]. by apply HQ.
  - exists V0, fb0, a0, bs0. split; [|done|by unfold all; rewrite take_app_length|unfold all; rewrite length_app; lia|done|apply mstep_refl|lia].
    unfold all. rewrite drop_app_length. rewrite <- Ha. by destruct din.
  - cbn [snd]. unfold all in Hmax. rewrite length_app in Hmax. assert (MAXFILE * BSIZE < 2 ^ 64) by done. lia.
Qed.
End Loop.
End Append.

(** ** The image as a list of files

    [mdisk F V fb]: inode [i + 1] of the image holds the type and the bytes of
    entry [i] of [F], every block from the first data block to [fb] belongs to
    exactly one of them, and the rest of the image is zero. *)
Definition dino0 : dinode := mkDinode 0 0 0 0 0 (replicate 13 0).
Definition addrs_of (V : gmap Z block) (i : nat) : list Z := di_addrs (dino V sb0 (Z.of_nat i + 1)).

(** Blocks the files need. *)
Definition need_of (f : Z * list Z) : Z := needb (nblks (Z.of_nat (length f.2))).
Fixpoint total (F : list (Z * list Z)) : Z := match F with [] => 0 | f :: F' => need_of f + total F' end.

Record mdisk (F : list (Z * list Z)) (V : gmap Z block) (fb : Z) : Prop := {
  md_len : forall b, length (dblk V b) = 1024%nat;
  md_zero : forall b, fb <= b -> dblk V b = zblock;
  md_fb : fb = nmeta + total F;
  md_count : (length F <= 207)%nat;
  md_file : forall i ty bs, F !! i = Some (ty, bs) -> - 2 ^ 15 <= ty < 2 ^ 15 /\
    dino V sb0 (Z.of_nat i + 1) = mkDinode ty 0 0 1 (Z.of_nat (length bs)) (addrs_of V i) /\
    mfile V fb (addrs_of V i) (nblks (Z.of_nat (length bs))) bs;
  md_free : forall inum, Z.of_nat (length F) < inum < 208 -> dino V sb0 inum = dino0;
  md_disj : forall i j b, (i < length F)%nat -> (j < length F)%nat -> owns V (ai (addrs_of V i)) b -> owns V (ai (addrs_of V j)) b -> i = j;
  md_used : forall b, nmeta <= b < fb -> exists i, (i < length F)%nat /\ owns V (ai (addrs_of V i)) b
}.

Lemma needb_pos n : 0 <= n -> 0 <= needb n.
Proof. intros. unfold needb. destruct (12 <? n); lia. Qed.
Lemma nblks_pos n : 0 <= n -> 0 <= nblks n.
Proof. intros. unfold nblks. zmod. Qed.
Lemma total_pos F : 0 <= total F.
Proof. induction F as [|f F IH]; [done|]. cbn [total]. pose proof (needb_pos _ (nblks_pos (Z.of_nat (length f.2)) ltac:(lia))). unfold need_of. lia. Qed.
Lemma total_app F G : total (F ++ G) = total F + total G.
Proof. induction F as [|f F IH]; [done|]. cbn [app total]. rewrite IH. lia. Qed.
Lemma total_insert F i f g : F !! i = Some f -> total (<[i := g]> F) = total F + need_of g - need_of f.
Proof.
  revert i. induction F as [|h F IH]; intros [|i] Hi; try done.
  - injection Hi as ->. cbn. lia.
  - change (need_of h + total (<[i := g]> F) = need_of h + total F + need_of g - need_of f). rewrite (IH i Hi). lia.
Qed.

(** ** Inodes of the image *)
Lemma iblock0 inum : 0 <= inum < 208 -> IBLOCK inum sb0 = 32 + inum / 16 /\ 32 <= IBLOCK inum sb0 < 45.
Proof. intros. unfold IBLOCK, IPB, sizeof_dinode, BSIZE. change (1024 / 64) with 16. cbn [sb0 sb_inodestart]. rewrite u32_small by zmod. split; zmod. Qed.

Lemma di_off_range inum : 0 <= inum -> (di_off inum + 64 <= 1024)%nat.
Proof. intros. unfold di_off, sizeof_dinode, IPB, sizeof_dinode, BSIZE. change (1024 / 64) with 16. zmod. Qed.

Lemma dino_insert V i x j : 0 <= i < 208 -> 0 <= j < 208 -> dinode_ok x -> (forall b, length (dblk V b) = 1024%nat) ->
  dino (<[IBLOCK i sb0 := wr_dinode (di_off i) x (dblk V (IBLOCK i sb0))]> V) sb0 j = if j =? i then x else dino V sb0 j.
Proof.
  intros Hi Hj Hx Hl. destruct (iblock0 i Hi) as [Ei _], (iblock0 j Hj) as [Ej _]. pose proof (di_off_range i ltac:(lia)). unfold dino.
  destruct (Z.eqb_spec j i) as [-> |Hne].
  - rewrite dblk_eq. apply rd_dinode_wr; [done|]. by rewrite Hl.
  - destruct (Z.eq_dec (IBLOCK i sb0) (IBLOCK j sb0)) as [E|E]; [|by rewrite dblk_ne].
    rewrite <- E, dblk_eq. apply rd_dinode_wr_ne; [by apply (dk_len _ Hx)|].
    unfold di_off, sizeof_dinode, IPB, sizeof_dinode, BSIZE in *. change (1024 / 64) with 16 in *. zmod.
Qed.

(** Nothing a file owns has changed. *)
Lemma mfile_keep V fb a n bs V' fb' : mfile V fb a n bs -> fb <= fb' -> (forall b, owns V (ai a) b -> dblk V' b = dblk V b) ->
  mfile V' fb' a n bs /\ forall b, owns V' (ai a) b <-> owns V (ai a) b.
Proof.
  intros Hm Hfb Hk. pose proof Hm as [M1 M2 M3 M4 M5 M6].
  assert (Hs : forall k, slot V' (ai a) k = slot V (ai a) k).
  { intros k. apply slot_ext. intros Hnz. apply Hk. split; [done|]. exists MAXFILE. split; [rewrite maxfile_eq; lia|done]. }
  split; [|intros b; unfold owns; by setoid_rewrite Hs]. split; try done.
  - intros k Hr. rewrite Hs. specialize (M4 k Hr). destruct (has_slot n k); lia.
  - intros k k'. rewrite !Hs. apply M5.
  - intros o Ho. rewrite <- M6 by done. assert (Hok : 0 <= o / BSIZE < n) by (unfold BSIZE in *; zmod).
    destruct (mf_pos _ _ _ _ _ (o / BSIZE) Hm ltac:(lia) ltac:(apply has_slot_lt; lia)) as [_ Hnz].
    rewrite !fbyte_slot by (rewrite ?Hs; done || lia). rewrite Hs, Hk; [done|]. split; [done|]. exists (o / BSIZE). split; [lia|done].
Qed.

Lemma owns_range V fb a n bs b : mfile V fb a n bs -> owns V (ai a) b -> nmeta <= b < fb.
Proof. intros Hm [Hb (k & Hk & <-)]. pose proof (mf_slot _ _ _ _ _ Hm k Hk) as H. by destruct (has_slot n k). Qed.

Lemma mf_addrs V fb a n bs : mfile V fb a n bs -> fb <= 1000 -> Forall (fun x => 0 <= x < 2 ^ 32) a.
Proof.
  intros Hm Hfb. apply Forall_lookup. intros k x Hx. pose proof (lookup_lt_Some _ _ _ Hx) as Hk. rewrite (mf_len _ _ _ _ _ Hm) in Hk.
  assert (E : exists j, 0 <= j <= MAXFILE /\ slot V (ai a) j = x).
  { destruct (decide (k = 12%nat)) as [-> |Hne].
    - exists MAXFILE. split; [rewrite maxfile_eq; lia|]. change (slot V (ai a) MAXFILE) with (default 0 (a !! 12%nat)). by rewrite Hx.
    - exists (Z.of_nat k). split; [rewrite maxfile_eq; lia|]. unfold slot. rewrite (proj2 (Z.eqb_neq _ MAXFILE)) by (rewrite maxfile_eq; lia).
      change (Z.of_nat NDIRECT) with 12. rewrite (proj2 (Z.ltb_lt _ 12)) by lia. unfold addr_at. cbn [ai i_addrs]. by rewrite Nat2Z.id, Hx. }
  destruct E as (j & Hj & <-). pose proof (mf_slot _ _ _ _ _ Hm j Hj) as H. destruct (has_slot n j); unfold nmeta in *; lia.
Qed.

Lemma dinode_mk ty n V fb a m bs : - 2 ^ 15 <= ty < 2 ^ 15 -> 0 <= n < 2 ^ 32 -> mfile V fb a m bs -> fb <= 1000 -> dinode_ok (mkDinode ty 0 0 1 n a).
Proof. intros Ht Hn Hm Hf. split; cbn [di_type di_major di_minor di_nlink di_size di_addrs]; try lia; [by apply (mf_len _ _ _ _ _ Hm)|by eapply mf_addrs]. Qed.

(** ** One file changes *)
Section Update.
Context (F : list (Z * list Z)) (V : gmap Z block) (fb : Z) (HD : mdisk F V fb).
Context (i : nat) (ty : Z) (bs bs' : list Z) (Hi : F !! i = Some (ty, bs)).
Context (V1 : gmap Z block) (fb1 : Z) (a1 : list Z) (Hstep : mstep V fb (addrs_of V i) V1 fb1 a1).
Context (Hfile : mfile V1 fb1 a1 (nblks (Z.of_nat (length bs'))) bs') (Hfb1 : fb1 = fb + need_of (ty, bs') - need_of (ty, bs)) (Hroom : fb1 <= 1000).
Let inum := Z.of_nat i + 1.
Let V2 := <[IBLOCK inum sb0 := wr_dinode (di_off inum) (mkDinode ty 0 0 1 (Z.of_nat (length bs')) a1) (dblk V1 (IBLOCK inum sb0))]> V1.

Lemma update_inum : 0 < inum < 208 /\ (i < length F)%nat.
Proof. pose proof (lookup_lt_Some _ _ _ Hi). pose proof (md_count _ _ _ HD). unfold inum. lia. Qed.

Lemma update_dino j : 0 <= j < 208 -> dino V2 sb0 j = if j =? inum then mkDinode ty 0 0 1 (Z.of_nat (length bs')) a1 else dino V sb0 j.
Proof.
  intros Hj. destruct update_inum as [Hin _]. destruct (md_file _ _ _ HD i ty bs Hi) as (Ht & _).
  assert (Hn : 0 <= Z.of_nat (length bs') < 2 ^ 32).
  { pose proof (mf_size _ _ _ _ _ Hfile). pose proof (mf_n _ _ _ _ _ Hfile). rewrite maxfile_eq in *. unfold BSIZE in *. lia. }
  unfold V2. rewrite dino_insert; [|lia|done|by eapply dinode_mk|by apply (ms_blen _ _ _ _ _ _ Hstep), HD].
  destruct (j =? inum); [done|]. unfold dino. rewrite (ms_meta _ _ _ _ _ _ Hstep); [done|]. destruct (iblock0 j Hj). unfold nmeta. lia.
Qed.

Lemma update_addrs j : (j < length F)%nat -> addrs_of V2 j = if decide (j = i) then a1 else addrs_of V j.
Proof.
  intros Hj. pose proof (md_count _ _ _ HD). unfold addrs_of. rewrite update_dino by lia.
  destruct (decide (j = i)) as [-> |]; [by rewrite Z.eqb_refl|]. by rewrite (proj2 (Z.eqb_neq _ inum)) by (unfold inum; lia).
Qed.

Lemma update_data b : nmeta <= b -> dblk V2 b = dblk V1 b.
Proof. intros Hb. unfold V2. rewrite dblk_ne; [done|]. destruct update_inum. destruct (iblock0 inum); [lia|]. unfold nmeta in *. lia. Qed.

(** The files, and what they own. *)
Lemma update_self : mfile V2 fb1 a1 (nblks (Z.of_nat (length bs'))) bs' /\ forall b, owns V2 (ai a1) b <-> owns V (ai (addrs_of V i)) b \/ fb <= b < fb1.
Proof.
  destruct (mfile_keep V1 fb1 a1 _ bs' V2 fb1 Hfile ltac:(lia)) as [H1 H2].
  { intros b Hb. apply update_data. by apply (owns_range _ _ _ _ _ _ Hfile). }
  split; [done|]. intros b. by rewrite H2, (ms_owns _ _ _ _ _ _ Hstep).
Qed.

Lemma update_other j tyj bsj : j <> i -> F !! j = Some (tyj, bsj) ->
  mfile V2 fb1 (addrs_of V j) (nblks (Z.of_nat (length bsj))) bsj /\ forall b, owns V2 (ai (addrs_of V j)) b <-> owns V (ai (addrs_of V j)) b.
Proof.
  intros Hne Hj. destruct (md_file _ _ _ HD j tyj bsj Hj) as (_ & _ & Hm). apply (mfile_keep V fb); [done|apply (ms_fb _ _ _ _ _ _ Hstep)|].
  intros b Hb. pose proof (owns_range _ _ _ _ _ _ Hm Hb) as Hr. rewrite update_data, (ms_other _ _ _ _ _ _ Hstep); [done|lia| |lia].
  intros Hbi. apply Hne. eapply (md_disj _ _ _ HD); [by eapply lookup_lt_Some|by apply update_inum|done|done].
Qed.

Lemma mdisk_update : mdisk (<[i := (ty, bs')]> F) V2 fb1.
Proof.
  destruct update_inum as [Hin Hlt], update_self as [S1 S2]. pose proof (md_fb _ _ _ HD) as Hf. pose proof (md_count _ _ _ HD) as Hc.
  assert (Hown : forall j b, (j < length F)%nat -> owns V2 (ai (addrs_of V2 j)) b <-> owns V (ai (addrs_of V j)) b \/ (j = i /\ fb <= b < fb1)).
  { intros j b Hj. rewrite update_addrs by done. destruct (decide (j = i)) as [-> |Hne]; [rewrite S2; tauto|].
    destruct (lookup_lt_is_Some_2 F j Hj) as [[tyj bsj] Ej]. rewrite (proj2 (update_other j tyj bsj Hne Ej)). tauto. }
  assert (Hlow : forall j b, (j < length F)%nat -> owns V (ai (addrs_of V j)) b -> b < fb).
  { intros j b Hj Hb. destruct (lookup_lt_is_Some_2 F j Hj) as [[tyj bsj] Ej]. destruct (md_file _ _ _ HD j tyj bsj Ej) as (_ & _ & Hm).
    by apply (owns_range _ _ _ _ _ _ Hm). }
  split; rewrite ?length_insert; try done.
  - intros b. unfold V2. destruct (Z.eq_dec (IBLOCK inum sb0) b) as [<-|]; [rewrite dblk_eq, length_wr_dinode|rewrite dblk_ne by done];
      apply (ms_blen _ _ _ _ _ _ Hstep), HD.
  - intros b Hb. rewrite update_data; [|pose proof (total_pos F); pose proof (ms_fb _ _ _ _ _ _ Hstep); lia]. apply (ms_zero _ _ _ _ _ _ Hstep); [apply HD|done].
  - rewrite (total_insert F i (ty, bs)) by done. lia.
  - intros j tyj bsj Hj. assert (Hjl : (j < length F)%nat) by (rewrite <- (length_insert F i (ty, bs')); by eapply lookup_lt_Some).
    rewrite update_dino, update_addrs by lia. destruct (decide (j = i)) as [-> |Hne].
    + rewrite list_lookup_insert_eq in Hj by done. injection Hj as <- <-. fold inum. rewrite Z.eqb_refl. split_and!; [by apply (md_file _ _ _ HD i ty bs Hi)..|done|done].
    + rewrite list_lookup_insert_ne in Hj by done. rewrite (proj2 (Z.eqb_neq _ inum)) by (unfold inum; lia).
      destruct (md_file _ _ _ HD j tyj bsj Hj) as (A1 & A2 & _). split_and!; [apply A1..|done|by apply (update_other j tyj bsj)].
  - intros j Hj. rewrite update_dino by lia. rewrite (proj2 (Z.eqb_neq _ inum)) by (unfold inum; lia). by apply HD.
  - intros j k b Hj Hk. rewrite !Hown by done. intros [H1|[-> H1]] [H2|[-> H2]]; [by eapply HD| | |done].
    + pose proof (Hlow j b Hj H1). lia.
    + pose proof (Hlow k b Hk H2). lia.
  - intros b Hb. destruct (Z.lt_ge_cases b fb).
    + destruct (md_used _ _ _ HD b) as (j & Hj & Ho); [lia|]. exists j. split; [done|]. apply Hown; [done|by left].
    + exists i. split; [done|]. apply Hown; [done|]. right. lia.
Qed.
End Update.

Lemma mfile_nil V fb : mfile V fb (replicate 13 0) 0 [].
Proof.
  assert (Hs : forall k, slot V (ai (replicate 13 0)) k = 0).
  { intros k. apply slot_0; [done|]. intros j. unfold addr_at. cbn [ai i_addrs]. destruct (_ !! j) eqn:E; [|done]. by apply lookup_replicate in E as [-> _]. }
  split; [done|rewrite maxfile_eq; lia|cbn; lia| |intros k k'; by rewrite Hs|unfold BSIZE; lia].
  intros k Hk. rewrite Hs. assert (has_slot 0 k = false) as ->; [slots|done].
Qed.

(** ** A file more *)
Section New.
Context (F : list (Z * list Z)) (V : gmap Z block) (fb : Z) (HD : mdisk F V fb) (ty : Z) (Ht : - 2 ^ 15 <= ty < 2 ^ 15) (Hl : (length F < 207)%nat) (Hfb : fb <= 1000).
Let inum := Z.of_nat (length F) + 1.
Let x := mkDinode ty 0 0 1 0 (replicate 13 0).
Let V2 := <[IBLOCK inum sb0 := wr_dinode (di_off inum) x (dblk V (IBLOCK inum sb0))]> V.

Lemma new_dino j : 0 <= j < 208 -> dino V2 sb0 j = if j =? inum then x else dino V sb0 j.
Proof.
  intros Hj. apply dino_insert; [unfold inum; lia|done| |apply HD]. unfold x. by apply (dinode_mk ty 0 V fb _ 0 []); [|lia|apply mfile_nil|].
Qed.
Lemma new_addrs j : (j < length F)%nat -> addrs_of V2 j = addrs_of V j.
Proof. intros Hj. unfold addrs_of. rewrite new_dino by lia. by rewrite (proj2 (Z.eqb_neq _ inum)) by (unfold inum; lia). Qed.
Lemma new_last : addrs_of V2 (length F) = replicate 13 0.
Proof. unfold addrs_of. rewrite new_dino by lia. fold inum. by rewrite Z.eqb_refl. Qed.

Lemma new_none U b : ~ owns U (ai (replicate 13 0)) b.
Proof. intros [Hb (k & Hk & E)]. pose proof (mf_slot _ _ _ _ _ (mfile_nil U 0) k Hk) as H. assert (has_slot 0 k = false) as Eh by slots. rewrite Eh in H. congruence. Qed.

Lemma new_keep j tyj bsj : F !! j = Some (tyj, bsj) ->
  mfile V2 fb (addrs_of V j) (nblks (Z.of_nat (length bsj))) bsj /\ forall b, owns V2 (ai (addrs_of V j)) b <-> owns V (ai (addrs_of V j)) b.
Proof.
  intros Hj. destruct (md_file _ _ _ HD j tyj bsj Hj) as (_ & _ & Hm). apply (mfile_keep V fb); [done|lia|]. intros b Hb.
  apply (owns_range _ _ _ _ _ _ Hm) in Hb. unfold V2. rewrite dblk_ne; [done|]. destruct (iblock0 inum); [unfold inum; lia|]. unfold nmeta in *. lia.
Qed.

Lemma mdisk_new : mdisk (F ++ [(ty, [])]) V2 fb.
Proof.
  assert (Hown : forall j b, (j < length (F ++ [(ty, [])]))%nat -> owns V2 (ai (addrs_of V2 j)) b -> (j < length F)%nat /\ owns V (ai (addrs_of V j)) b).
  { intros j b Hj. rewrite length_app in Hj. cbn in Hj. destruct (decide (j = length F)) as [-> |Hne].
    - rewrite new_last. intros Hb. by apply new_none in Hb.
    - assert (Hjl : (j < length F)%nat) by lia. rewrite new_addrs by done. destruct (lookup_lt_is_Some_2 F j Hjl) as [[tyj bsj] Ej]. by rewrite (proj2 (new_keep j tyj bsj Ej)). }
  pose proof (md_fb _ _ _ HD) as Ef. split.
  - intros b. unfold V2. destruct (Z.eq_dec (IBLOCK inum sb0) b) as [<-|]; [rewrite dblk_eq, length_wr_dinode|rewrite dblk_ne by done]; apply HD.
  - intros b Hb. unfold V2. rewrite dblk_ne; [by apply HD|]. destruct (iblock0 inum); [unfold inum; lia|]. pose proof (total_pos F). unfold nmeta in *. lia.
  - rewrite total_app. cbn. change (need_of (ty, [])) with 0. lia.
  - rewrite length_app. cbn. lia.
  - intros j tyj bsj Hj. apply lookup_app_Some in Hj as [Hj|[Hj Hj2]].
    + pose proof (lookup_lt_Some _ _ _ Hj). rewrite new_dino, new_addrs, (proj2 (Z.eqb_neq _ inum)) by (unfold inum; lia).
      destruct (md_file _ _ _ HD j tyj bsj Hj) as (A1 & A2 & _). split_and!; [apply A1..|done|by apply (new_keep j tyj bsj)].
    + apply list_lookup_singleton_Some in Hj2 as [E [= <- <-]]. assert (j = length F) as -> by lia.
      rewrite new_dino, new_last by lia. fold inum. rewrite Z.eqb_refl. split_and!; [apply Ht..|done|]. apply mfile_nil.
  - intros j. rewrite length_app. cbn. intros Hj. rewrite new_dino by lia. rewrite (proj2 (Z.eqb_neq _ inum)) by (unfold inum; lia). apply HD. lia.
  - intros i j b Hi Hj H1 H2. apply Hown in H1 as [I1 H1]; [|done]. apply Hown in H2 as [I2 H2]; [|done]. by eapply HD.
  - intros b Hb. destruct (md_used _ _ _ HD b Hb) as (j & Hj & Ho). exists j. split; [rewrite length_app; cbn; lia|]. rewrite new_addrs by done.
    destruct (lookup_lt_is_Some_2 F j Hj) as [[tyj bsj] Ej]. by apply (new_keep j tyj bsj).
Qed.
End New.
