(* ===== verification/MkfsRun.v ===== *)
(** * mkfs's operations on the image: ialloc, iappend, the source files *)
From S2P Require Import Prelude Memory State Kalloc Vm Sched SchedSpec Sleeplock Virtio VirtioSpec Bio BioSpec Codec Log LogSpec LogCrash Txn Fs FsCodec FsSpec FsAlloc FsInode FsTheorems FsWrite FsTrunc FsDir FsPath Mkfs MkfsSpec.

(** mkfs between two operations, with the files [F] in the image. *)
Record mk_ok (F : list (Z * list Z)) (s : mkfs) : Prop := {
  mk_disk : mdisk F (m_img s) (m_freeblock s);
  mk_end : m_end s = 1000;
  mk_sb : m_sb s = sb0;
  mk_free : m_freeinode s = Z.of_nat (length F) + 1;
  mk_super : dblk (m_img s) 1 = wr_superblock sb0 zblock;
  mk_blank : forall b, b < 32 -> b <> 1 -> dblk (m_img s) b = zblock
}.

Section Run.
Context `{HO : Host} (Hw : forall off, host_write off = true).

Lemma wp_rinode inum (Q : dinode -> mkfs -> Prop) F s : mk_ok F s -> 0 <= inum < 208 -> Q (dino (m_img s) sb0 inum) s -> wp (rinode inum) Q s.
Proof.
  intros [_ He Hsb _ _ _] Hi HQ. unfold rinode. wp_step. wp_step. rewrite Hsb. wp_step. destruct (iblock0 inum Hi) as [_ Hb].
  apply wp_rsect; [lia|done|]. by wp_step.
Qed.

Lemma wp_winode inum x (Q : unit -> mkfs -> Prop) s : m_end s = 1000 -> m_sb s = sb0 -> 0 <= inum < 208 ->
  Q tt (at_ s (<[IBLOCK inum sb0 := wr_dinode (di_off inum) x (dblk (m_img s) (IBLOCK inum sb0))]> (m_img s)) (m_freeblock s)) -> wp (winode inum x) Q s.
Proof.
  intros He Hsb Hi HQ. unfold winode. wp_step. wp_step. rewrite Hsb. destruct (iblock0 inum Hi) as [_ Hb]. wp_step. apply wp_rsect; [lia|done|].
  apply (wp_wsect Hw); [lia|done|exact HQ].
Qed.

(** Writing back an inode whose file has become [bs']. *)
Lemma mk_update F s i ty bs bs' V1 fb1 a1 : mk_ok F s -> F !! i = Some (ty, bs) ->
  mstep (m_img s) (m_freeblock s) (addrs_of (m_img s) i) V1 fb1 a1 -> mfile V1 fb1 a1 (nblks (Z.of_nat (length bs'))) bs' ->
  fb1 = m_freeblock s + need_of (ty, bs') - need_of (ty, bs) -> fb1 <= 1000 ->
  let inum := Z.of_nat i + 1 in
  mk_ok (<[i := (ty, bs')]> F)
    (at_ s (<[IBLOCK inum sb0 := wr_dinode (di_off inum) (mkDinode ty 0 0 1 (Z.of_nat (length bs')) a1) (dblk V1 (IBLOCK inum sb0))]> V1) fb1).
Proof.
  intros [HD He Hsb Hf Hs Hb] Hi Hst Hm Hfb Hr inum. destruct (update_inum F _ _ HD i ty bs Hi) as [Hin _]. fold inum in Hin. destruct (iblock0 inum ltac:(lia)) as [_ Hib].
  split; [|done|done|by rewrite length_insert| |].
  - by apply (mdisk_update F (m_img s) (m_freeblock s) HD i ty bs bs' Hi V1 fb1 a1).
  - cbn [m_img at_]. rewrite dblk_ne by lia. by rewrite (ms_meta _ _ _ _ _ _ Hst).
  - intros b Hlt Hne. cbn [m_img at_]. rewrite dblk_ne by lia. rewrite (ms_meta _ _ _ _ _ _ Hst) by (unfold nmeta; lia). by apply Hb.
Qed.

Lemma wp_iappend inum p F i ty bs (Q : unit -> mkfs -> Prop) s : mk_ok F s -> F !! i = Some (ty, bs) -> inum = Z.of_nat i + 1 ->
  Z.of_nat (length (bs ++ p)) <= MAXFILE * BSIZE -> nmeta + total (<[i := (ty, bs ++ p)]> F) <= 1000 ->
  (forall s', mk_ok (<[i := (ty, bs ++ p)]> F) s' -> Q tt s') -> wp (iappend inum p) Q s.
Proof.
  intros Hok Hi -> Hmax Hroom HQ. pose proof Hok as [HD He Hsb Hf Hs Hb]. destruct (update_inum F _ _ HD i ty bs Hi) as [Hin _].
  destruct (md_file _ _ _ HD i ty bs Hi) as (Ht & Ed & Hm). pose proof (md_fb _ _ _ HD) as Efb. pose proof (total_pos F). rewrite (total_insert F i (ty, bs)) in Hroom by done.
  rewrite length_app in Hmax. assert (Hlb : Z.of_nat (length bs) < 2 ^ 32) by (rewrite maxfile_eq in Hmax; unfold BSIZE in Hmax; lia).
  unfold iappend. wp_step. eapply wp_rinode; [done|lia|]. rewrite Ed. cbn [di_size]. rewrite xint_small by lia. wp_step.
  eapply (wp_append_loop Hw s (m_img s) (m_freeblock s) (addrs_of (m_img s) i) bs p);
    [lia|apply HD|apply HD|done|by rewrite length_app|unfold need_of in Hroom; cbn [snd] in Hroom; lia|symmetry; apply at_id|done|done|].
  intros V' a' fb' Hm' Hst'. cbv beta iota. cbn [with_addrs di_type di_major di_minor di_nlink di_addrs].
  rewrite xint_small by (rewrite length_app, maxfile_eq in *; unfold BSIZE in *; lia).
  apply wp_winode; [done|done|lia|]. apply HQ. cbn [m_img m_freeblock at_]. rewrite at_at.
  eapply (mk_update F s i ty bs (bs ++ p)); try done. unfold fb', need_of in *. cbn [snd] in *. lia.
Qed.

(** A new inode, with no data. *)
Lemma wp_ialloc ty F (Q : Z -> mkfs -> Prop) s : mk_ok F s -> - 2 ^ 15 <= ty < 2 ^ 15 -> 0 <= ty -> (length F < 207)%nat -> m_freeblock s <= 1000 ->
  (forall s', mk_ok (F ++ [(ty, [])]) s' -> Q (Z.of_nat (length F) + 1) s') -> wp (ialloc ty) Q s.
Proof.
  intros Hok Ht Ht0 Hl Hfb HQ. pose proof Hok as [HD He Hsb Hf Hs Hb]. set (inum := Z.of_nat (length F) + 1).
  unfold ialloc. do 3 wp_step. rewrite Hf. fold inum. rewrite u32_small by lia. do 2 wp_step.
  pose proof (md_fb _ _ _ HD) as Efb. apply wp_winode; [done|done|unfold inum; lia|]. wp_step. apply HQ. cbn [m_img m_freeblock set_m_freeinode at_].
  assert (Hx : mkDinode (xshort ty) 0 0 (xshort 1) (xint 0) (replicate 13 0) = mkDinode ty 0 0 1 0 (replicate 13 0)).
  { rewrite xshort_u16. unfold u16 at 1. by rewrite wrap_small by lia. }
  rewrite Hx. destruct (iblock0 inum ltac:(unfold inum; lia)) as [_ Hib]. split; [|done|done|cbn; rewrite length_app; cbn; lia| |].
  - by apply mdisk_new.
  - cbn [m_img at_]. by rewrite dblk_ne by lia.
  - intros b Hlt Hne. cbn [m_img at_]. rewrite dblk_ne by lia. by apply Hb.
Qed.

(** ** Source files *)
Lemma need_mono ty ty' bs bs' : (length bs <= length bs')%nat -> need_of (ty, bs) <= need_of (ty', bs').
Proof. intros. unfold need_of. cbn [snd]. apply needb_mono. unfold nblks. zmod. Qed.

Lemma wp_reads F i ty reads : forall bs (Q : unit -> mkfs -> Prop) s, mk_ok (<[i := (ty, bs)]> F) s -> (i < length F)%nat ->
  Z.of_nat (length (bs ++ concat reads)) <= MAXFILE * BSIZE -> nmeta + total (<[i := (ty, bs ++ concat reads)]> F) <= 1000 ->
  (forall s', mk_ok (<[i := (ty, bs ++ concat reads)]> F) s' -> Q tt s') -> wp (for_each reads (iappend (Z.of_nat i + 1))) Q s.
Proof.
  induction reads as [|r reads IH]; intros bs Q s Hok Hi Hmax Hroom HQ; cbn [for_each].
  - wp_step. apply HQ. cbn [concat]. by rewrite app_nil_r.
  - cbn [concat] in *. rewrite app_assoc in *. wp_step.
    assert (El : <[i:=(ty, bs)]> F !! i = Some (ty, bs)) by (by apply list_lookup_insert_eq).
    pose proof (total_insert _ i (ty, bs) (ty, bs ++ r) El) as T1. pose proof (total_insert _ i (ty, bs) (ty, (bs ++ r) ++ concat reads) El) as T2.
    rewrite !list_insert_insert_eq in T1, T2. pose proof (need_mono ty ty (bs ++ r) ((bs ++ r) ++ concat reads) ltac:(rewrite !length_app; lia)).
    eapply wp_iappend; [exact Hok|exact El|done|rewrite !length_app in *; lia|rewrite list_insert_insert_eq; lia|].
    intros s' Hok'. rewrite list_insert_insert_eq in Hok'. by eapply IH.
Qed.

(** A directory entry, and the image with the files [L], names and contents. *)
Definition dent (inum : Z) (name : list Z) : list Z := mk_dirent (xshort inum) (strncpy_l name DIRSIZ).
Definition dents (L : list (list Z * list Z)) : list Z :=
  dent 1 [46] ++ dent 1 [46; 46] ++ concat (imap (fun i f => dent (Z.of_nat i + 2) f.1) L).
Definition image (L : list (list Z * list Z)) : list (Z * list Z) := (T_DIR, dents L) :: ((fun f => (T_FILE, f.2)) <$> L).

(** A source file of the host, as it goes into the image. *)
Definition source (path : list Z) (f : list Z * list Z) : Prop :=
  slash ∉ strip_dir path /\ f.1 = strip_under (strip_dir path) /\ exists reads, host_file path = Some reads /\ concat reads = f.2.

Lemma length_dent inum name : length (dent inum name) = 16%nat.
Proof. unfold dent, mk_dirent, strncpy_l. rewrite length_app, bytes_length. done. Qed.
Lemma dents_snoc L f : dents (L ++ [f]) = dents L ++ dent (Z.of_nat (length L) + 2) f.1.
Proof. unfold dents. rewrite imap_app, concat_app. cbn. rewrite app_nil_r, Nat.add_0_r, !app_assoc. done. Qed.
Lemma length_dents L : length (dents L) = (16 * (length L + 2))%nat.
Proof.
  induction L as [|f L IH] using rev_ind; [done|]. rewrite dents_snoc, length_app, IH, length_dent, length_app. cbn. lia.
Qed.
Lemma image_snoc L f : image (L ++ [f]) = <[0%nat := (T_DIR, dents (L ++ [f]))]> (image L ++ [(T_FILE, f.2)]).
Proof. unfold image. cbn. by rewrite fmap_app. Qed.
Lemma length_image L : length (image L) = S (length L).
Proof. cbn. by rewrite length_fmap. Qed.

Definition fits (L : list (list Z * list Z)) : Prop :=
  (length L <= 206)%nat /\ Forall (fun f => Z.of_nat (length f.2) <= MAXFILE * BSIZE) L /\ nmeta + total (image L) <= 1000.

Lemma image_mono L G : total (image L) <= total (image (L ++ G)).
Proof.
  unfold image. cbn [total]. rewrite fmap_app, total_app. pose proof (total_pos ((fun f => (T_FILE, f.2)) <$> G)).
  pose proof (need_mono T_DIR T_DIR (dents L) (dents (L ++ G)) ltac:(rewrite !length_dents, length_app; lia)). lia.
Qed.

Lemma fits_snoc L f G : fits (L ++ f :: G) -> fits (L ++ [f]).
Proof.
  intros (F1 & F2 & F3). rewrite cons_middle, app_assoc in F2, F3. apply Forall_app in F2 as [F2 _]. pose proof (image_mono (L ++ [f]) G).
  rewrite length_app in F1. cbn in F1. split_and!; [rewrite length_app; cbn; lia|done|lia].
Qed.

Lemma wp_add_file path L f (Q : unit -> mkfs -> Prop) s : mk_ok (image L) s -> source path f -> fits (L ++ [f]) ->
  (forall s', mk_ok (image (L ++ [f])) s' -> Q tt s') -> wp (add_file ROOTINO path) Q s.
Proof.
  intros Hok (Hsl & En & reads & Eh & Ec) (F1 & F2 & F3) HQ. unfold add_file, assert_. rewrite length_app in F1. cbn in F1.
  apply Forall_app in F2 as [_ F2]. rewrite Forall_singleton in F2. rewrite image_snoc in *.
  pose proof (md_fb _ _ _ (mk_disk _ _ Hok)) as Efb. pose proof (image_mono L [f]) as Hmono. rewrite image_snoc in Hmono.
  assert (El : (image L ++ [(T_FILE, f.2)]) !! 0%nat = Some (T_DIR, dents L)) by done.
  wp_step. rewrite bool_decide_eq_true_2 by done. wp_step. rewrite Eh, <- En. wp_step.
  eapply (wp_ialloc T_FILE (image L)); [done|by vm_compute|done|rewrite length_image; lia|lia|]. intros s1 Hok1. wp_step.
  rewrite length_image. replace (Z.of_nat (S (length L)) + 1) with (Z.of_nat (length L) + 2) by lia.
  change (mk_dirent (xshort (Z.of_nat (length L) + 2)) (strncpy_l f.1 DIRSIZ)) with (dent (Z.of_nat (length L) + 2) f.1).
  set (X := (T_DIR, dents (L ++ [f]))) in *.
  assert (Ein : forall g, <[S (length L) := g]> (<[0%nat := X]> (image L ++ [(T_FILE, [])])) = <[0%nat := X]> (image L ++ [g])).
  { intros g. rewrite list_insert_insert_ne by lia. f_equal. rewrite insert_app_r_alt by (rewrite length_image; lia). by rewrite length_image, Nat.sub_diag. }
  assert (Hlen : (length (<[0%nat := X]> (image L ++ [(T_FILE, [])])) = S (S (length L)))%nat) by (rewrite length_insert, length_app, length_image; cbn; lia).
  assert (Ht : total (<[0%nat := X]> (image L ++ [(T_FILE, [])])) <= total (<[0%nat := X]> (image L ++ [(T_FILE, f.2)]))).
  { rewrite !(total_insert _ 0 (T_DIR, dents L)), !total_app by done. cbn [total]. pose proof (need_mono T_FILE T_FILE [] f.2 ltac:(cbn; lia)). lia. }
  eapply (wp_iappend ROOTINO _ _ 0 T_DIR (dents L)); [exact Hok1|done|done| | |]; rewrite <- dents_snoc; fold X; [|lia|].
  { rewrite length_dents, length_app, maxfile_eq. unfold BSIZE. cbn. lia. }
  intros s2 Hok2. replace (Z.of_nat (length L) + 2) with (Z.of_nat (S (length L)) + 1) by lia.
  eapply (wp_reads (<[0%nat := X]> (image L ++ [(T_FILE, [])])) (S (length L)) T_FILE reads []); [rewrite Ein; exact Hok2|rewrite Hlen; lia|cbn [app]; rewrite Ec; exact F2| |]; cbn [app]; rewrite Ein, Ec; done.
Qed.

Lemma wp_add_files paths : forall L G (Q : unit -> mkfs -> Prop) s, mk_ok (image L) s -> Forall2 source paths G -> fits (L ++ G) ->
  (forall s', mk_ok (image (L ++ G)) s' -> Q tt s') -> wp (for_each paths (add_file ROOTINO)) Q s.
Proof.
  induction paths as [|path paths IH]; intros L G Q s Hok HF Hfit HQ; inversion HF as [|? f ? G' Hs HF']; subst; cbn [for_each].
  - wp_step. apply HQ. by rewrite app_nil_r.
  - wp_step. eapply wp_add_file; [done|done|by eapply fits_snoc|]. intros s1 Hok1. rewrite cons_middle, app_assoc in Hfit, HQ. by eapply IH.
Qed.

(** ** The whole run *)
Lemma wp_zeroes n : forall k (Q : unit -> mkfs -> Prop) s, 0 <= k -> k + Z.of_nat n <= 1000 -> m_end s = k -> (forall b, dblk (m_img s) b = zblock) ->
  (forall V, (forall b, dblk V b = zblock) -> Q tt (set_m_img (fun _ => V) (k + Z.of_nat n) s)) ->
  wp (for_each (seqZ k (Z.of_nat n)) (fun i => wsect i zblock)) Q s.
Proof.
  induction n as [|n IH]; intros k Q s Hk Hn He Hz HQ.
  - change (seqZ k (Z.of_nat 0)) with (@nil Z). cbn [for_each]. wp_step. specialize (HQ (m_img s) Hz). rewrite Z.add_0_r, <- He in HQ. by destruct s.
  - rewrite seqZ_cons by lia. cbn [for_each]. wp_step. unfold wsect. rewrite Hw. cbn [negb]. wp_step. rewrite sector, He by lia.
    rewrite Z.max_r by lia. replace (Z.pred (Z.of_nat (S n))) with (Z.of_nat n) by lia. change (Z.succ k) with (k + 1). apply IH; [lia|lia|done| |].
    + intros b. cbn. destruct (Z.eq_dec k b) as [<-|]; [by rewrite dblk_eq|by rewrite dblk_ne].
    + intros V HV. specialize (HQ V HV). replace (k + Z.of_nat (S n)) with (k + 1 + Z.of_nat n) in HQ by lia. exact HQ.
Qed.

Lemma rd8_zblock k : rd8 zblock k = 0.
Proof. unfold rd8, zblock. destruct (_ !! k) eqn:E; [|done]. by apply lookup_replicate in E as [-> _]. Qed.
Lemma rd_dinode_zblock o : rd_dinode zblock o = dino0.
Proof. unfold rd_dinode, rds16, rd_addrs, rd32, rd16, NDIRECT. cbn [seq map Nat.add]. rewrite !rd8_zblock. done. Qed.

Lemma wp_format (Q : unit -> mkfs -> Prop) : (forall s', mk_ok [] s' -> Q tt s') -> wp format_ Q m0.
Proof.
  intros HQ. unfold format_, printf. do 7 wp_step. change (seqZ 0 FSSIZE) with (seqZ 0 (Z.of_nat 1000)). apply wp_zeroes; [lia|lia|done|done|].
  intros V HV. wp_step. wp_step. apply (wp_wsect Hw); [lia|done|]. apply HQ. set (s1 := at_ _ _ _).
  assert (E : m_img s1 = <[1 := wr_superblock sb0 zblock]> V) by reflexivity. assert (Ef : m_freeblock s1 = 46) by reflexivity.
  assert (HV' : forall b, b <> 1 -> dblk (<[1 := wr_superblock sb0 zblock]> V) b = zblock) by (intros b Hb; rewrite dblk_ne; [apply HV|congruence]).
  split; rewrite ?E, ?Ef; [|reflexivity|reflexivity|reflexivity|apply dblk_eq|intros b _ Hb; by apply HV']. clear E Ef. clearbody s1.
  split; try done; try (cbn; lia).
  - intros b. destruct (Z.eq_dec b 1) as [-> |]; [by rewrite dblk_eq|by rewrite HV'].
  - intros b Hb. apply HV'. cbn in Hb. lia.
  - intros inum Hi. unfold dino. destruct (iblock0 inum ltac:(cbn in Hi; lia)). rewrite HV' by lia. apply rd_dinode_zblock.
  - intros b Hb. exfalso. unfold nmeta in Hb. cbn in Hb. lia.
Qed.

(** The root directory at the end: its entries, and zeroes up to a whole block. *)
Definition padded (L : list (list Z * list Z)) : list Z := dents L ++ replicate (Z.to_nat (nblks (Z.of_nat (length (dents L))) * 1024) - length (dents L)) 0.
Definition final (L : list (list Z * list Z)) : list (Z * list Z) := (T_DIR, padded L) :: ((fun f => (T_FILE, f.2)) <$> L).

Lemma length_padded L : Z.of_nat (length (padded L)) = nblks (Z.of_nat (length (dents L))) * 1024.
Proof. unfold padded. rewrite length_app, length_replicate. unfold nblks. zmod. Qed.
Lemma nblks_padded L : nblks (Z.of_nat (length (padded L))) = nblks (Z.of_nat (length (dents L))).
Proof. rewrite length_padded. unfold nblks. zmod. Qed.

(** The end of main: the size of the root directory, then the free map. *)
Lemma mfile_pad V fb a n bs m : mfile V fb a n bs -> Z.of_nat (length bs + m) <= n * BSIZE -> mfile V fb a n (bs ++ replicate m 0).
Proof.
  intros [M1 M2 M3 M4 M5 M6] Hm. split; try done; [by rewrite length_app, length_replicate|]. intros o Ho. rewrite M6 by done.
  destruct (decide (Z.to_nat o < length bs)%nat); [by rewrite lookup_app_l by lia|]. rewrite lookup_app_r, (proj2 (lookup_ge_None bs _)) by lia.
  destruct (replicate m 0 !! _) eqn:E; [|done]. by apply lookup_replicate in E as [-> _].
Qed.

Lemma wp_finish L (Q : unit -> mkfs -> Prop) s : mk_ok (image L) s -> fits L -> (Z.of_nat (length L) + 2) mod 64 <> 0 ->
  (forall s s', mk_ok (final L) s -> m_img s' = <[45 := foldl mark_bit zblock (seqZ 0 (m_freeblock s))]> (m_img s) -> m_end s' = 1000 -> Q tt s') ->
  wp (finish ROOTINO) Q s.
Proof.
  intros Hok (F1 & _ & F3) Hmod HQ. pose proof Hok as [HD He Hsb _ _ _]. destruct (md_file _ _ _ HD 0 T_DIR (dents L) eq_refl) as (_ & Ed & Hm).
  pose proof (md_fb _ _ _ HD) as Efb. unfold finish. wp_step. eapply wp_rinode; [done|by vm_compute|]. change ROOTINO with (Z.of_nat 0 + 1). rewrite Ed. cbn [di_type di_major di_minor di_nlink di_size di_addrs].
  pose proof (length_dents L) as Hl. assert (Hlen : Z.of_nat (length (dents L)) = 16 * (Z.of_nat (length L) + 2)) by lia. clear Hl.
  assert (Esz : xint (u32 ((xint (Z.of_nat (length (dents L))) / BSIZE + 1) * BSIZE)) = Z.of_nat (length (padded L))).
  { rewrite length_padded, (xint_small (Z.of_nat _)) by lia. unfold BSIZE. rewrite u32_small by (rewrite Hlen; zmod). rewrite xint_small by (rewrite Hlen; zmod).
    rewrite Hlen. unfold nblks. zmod. }
  rewrite Esz. wp_step. apply wp_winode; [done|done|by vm_compute|]. set (s1 := at_ _ _ _).
  assert (Hok1 : mk_ok (final L) s1).
  { apply (mk_update (image L) s 0 T_DIR (dents L) (padded L) (m_img s) (m_freeblock s) (addrs_of (m_img s) 0)); [done|done|apply mstep_refl| | |lia].
    - rewrite nblks_padded. apply mfile_pad; [done|]. unfold BSIZE. pose proof (length_padded L) as E. unfold padded in E. rewrite length_app, length_replicate in E. lia.
    - unfold need_of. cbn [snd]. rewrite nblks_padded. lia. }
  clearbody s1. clear Hok HD He Hsb Ed Hm Efb. pose proof (md_fb _ _ _ (mk_disk _ _ Hok1)) as Efb.
  assert (Et : total (final L) = total (image L)).
  { unfold final, image. cbn [total]. f_equal. unfold need_of. cbn [snd]. by rewrite nblks_padded. }
  unfold balloc, printf, assert_. do 5 wp_step. rewrite (proj2 (Z.ltb_lt _ (BSIZE * 8))) by (unfold BSIZE; lia). do 5 wp_step.
  cbn [m_sb set_m_out]. rewrite (mk_sb _ _ Hok1). apply (wp_wsect Hw); [by vm_compute|apply Hok1|]. apply (HQ s1); [done|done|apply Hok1].
Qed.

Lemma wp_main a0 img paths L (Q : unit -> mkfs -> Prop) : host_create img = true -> Forall2 source paths L -> fits L -> (Z.of_nat (length L) + 2) mod 64 <> 0 ->
  (forall s s', mk_ok (final L) s -> m_img s' = <[45 := foldl mark_bit zblock (seqZ 0 (m_freeblock s))]> (m_img s) -> m_end s' = 1000 -> Q tt s') ->
  wp (main (a0 :: img :: paths)) Q m0.
Proof.
  intros Hc HF Hfit Hmod HQ. unfold main, assert_. change (BSIZE mod sizeof_dinode =? 0) with true. change (BSIZE mod sizeof_dirent =? 0) with true.
  cbv iota. do 4 wp_step. rewrite Hc. do 3 wp_step. apply wp_format. intros s1 Hok1. wp_step.
  assert (Hf1 : m_freeblock s1 <= 1000) by (rewrite (md_fb _ _ _ (mk_disk _ _ Hok1)); done).
  eapply (wp_ialloc T_DIR []); [done|by vm_compute|done|cbn; lia|done|]. intros s2 Hok2. cbn [length app] in *. change (Z.of_nat 0 + 1) with ROOTINO. rewrite Z.eqb_refl.
  do 3 wp_step. change (mk_dirent (xshort ROOTINO) dot_name) with (dent 1 [46]). change (mk_dirent (xshort ROOTINO) dotdot_name) with (dent 1 [46; 46]).
  eapply (wp_iappend _ _ _ 0 T_DIR []); [exact Hok2|done|done|by vm_compute|by vm_compute|]. intros s3 Hok3. wp_step.
  eapply (wp_iappend _ _ _ 0 T_DIR (dent 1 [46])); [exact Hok3|done|done|by vm_compute|by vm_compute|]. intros s4 Hok4. wp_step.
  eapply (wp_add_files paths [] L); [exact Hok4|done|done|]. intros s5 Hok5. eapply wp_finish; done.
Qed.
End Run.
