(* ===== verification/MkfsTheorems.v ===== *)
(** * The disk mkfs makes is one the kernel runs on

    The image satisfies the invariants of the file system that the theorems on
    the kernel assume: superblock, empty log, free map, inodes, and the tree of
    directories; every source file is found by its name with its bytes. *)
From S2P Require Import Prelude Memory State Kalloc Vm Sched SchedSpec Sleeplock Virtio VirtioSpec Bio BioSpec Codec Log LogSpec LogCrash Txn Fs FsCodec FsSpec FsAlloc FsInode FsTheorems FsWrite FsTrunc FsDir FsPath Mkfs MkfsSpec MkfsRun.

(** ** The free map *)
Definition bitmap (n : Z) : block := foldl mark_bit zblock (seqZ 0 n).

Lemma bitmap_bits n : Z.of_nat n <= 8192 -> length (bitmap (Z.of_nat n)) = 1024%nat /\
  forall b, 0 <= b < 8192 -> Z.testbit (rd8 (bitmap (Z.of_nat n)) (Z.to_nat (b / 8))) (b mod 8) = (b <? Z.of_nat n).
Proof.
  induction n as [|n IH]; intros Hn.
  - split; [done|]. intros b Hb. rewrite rd8_zblock, Z.testbit_0_l. symmetry. apply Z.ltb_ge. lia.
  - destruct IH as [IL IB]; [lia|].
    assert (E : bitmap (Z.of_nat (S n)) = mark_bit (bitmap (Z.of_nat n)) (Z.of_nat n)).
    { unfold bitmap. replace (Z.of_nat (S n)) with (Z.of_nat n + 1) by lia. rewrite seqZ_app by lia. rewrite foldl_app. by rewrite Z.add_0_l. }
    rewrite E. unfold mark_bit. set (k := Z.to_nat (Z.of_nat n / 8)). split; [by rewrite length_wr8|]. intros b Hb.
    assert (Hk : (k < 1024)%nat) by (unfold k; zmod). pose proof (Z.mod_pos_bound b 8 ltac:(lia)). specialize (IB b Hb).
    destruct (Nat.eq_dec k (Z.to_nat (b / 8))) as [Ek|Ek].
    + rewrite <- Ek, rd8_wr8, testbit_u8, Z.lor_spec by lia. rewrite Ek, IB, Z.shiftl_1_l, Z.pow2_bits_eqb by zmod.
      destruct (Z.ltb_spec b (Z.of_nat n)), (Z.eqb_spec (Z.of_nat n mod 8) (b mod 8)), (Z.ltb_spec b (Z.of_nat (S n))); try done; exfalso; unfold k in Ek; zmod.
    + rewrite rd8_wr8_ne by done. rewrite IB. unfold k in Ek. destruct (Z.ltb_spec b (Z.of_nat n)), (Z.ltb_spec b (Z.of_nat (S n))); try done; exfalso; [lia|].
      apply Ek. f_equal. f_equal. lia.
Qed.

Lemma used_bitmap V n b : 0 <= n <= 1000 -> 0 <= b < 1000 -> used (<[45 := bitmap n]> V) sb0 b = (b <? n).
Proof.
  intros Hn Hb. rewrite used_bit. assert (EB : BBLOCK b sb0 = 45).
  { unfold BBLOCK, BPB, BSIZE. cbn [sb0 sb_bmapstart]. rewrite Z.div_small by lia. done. }
  rewrite EB, dblk_eq. destruct (bitmap_bits (Z.to_nat n) ltac:(lia)) as [_ H]. rewrite Z2Nat.id in H by lia.
  rewrite (Z.mod_small b BPB) by (unfold BPB, BSIZE; lia). apply H. lia.
Qed.

Lemma sb0_layout : layout 2 30 sb0.
Proof. split; vm_compute; intuition discriminate. Qed.

(** ** The image *)

(** The image [V] holds the files [L], names and contents, and nothing else. *)
Record built (L : list (list Z * list Z)) (V : gmap Z block) : Prop := {
  bt_super : rd_superblock (dblk V 1) = sb0;
  bt_log : dblk V (sb_logstart sb0) = zblock;
  bt_fs : fs_ok 2 30 V sb0;
  bt_tree : tree_ok V sb0;
  bt_map : forall b, 0 <= b < sb_size sb0 ->
    used V sb0 b = true <-> b < dstart sb0 \/ exists inum, live_ino V sb0 inum /\ owns V (ino V sb0 inum) b;
  bt_once : forall n n' b, live_ino V sb0 n -> live_ino V sb0 n' -> owns V (ino V sb0 n) b -> owns V (ino V sb0 n') b -> n = n';
  bt_file : forall i name c, L !! i = Some (name, c) -> let n := Z.of_nat i + 2 in let ip := ino V sb0 n in
    live_ino V sb0 n /\ inode_ok V sb0 ip /\ i_type ip = T_FILE /\ i_size ip = Z.of_nat (length c) /\
    fbytes V ip 0 (Z.of_nat (length c)) = c /\ resolve V sb0 false ROOTINO [name] = Some n
}.

(** ** The files in the finished image *)
Lemma final_S L k : final L !! S k = (fun f => (T_FILE, f.2)) <$> L !! k.
Proof. change (((fun f => (T_FILE, f.2)) <$> L) !! k = (fun f => (T_FILE, f.2)) <$> L !! k). apply list_lookup_fmap. Qed.

Section Final.
Context (L : list (list Z * list Z)) (s : mkfs) (Hok : mk_ok (final L) s) (Hfb : m_freeblock s <= 1000) (Hcount : (length L <= 198)%nat).
Let V := <[45 := bitmap (m_freeblock s)]> (m_img s).
Let HD := mk_disk _ _ Hok.

Lemma final_fb : nmeta <= m_freeblock s.
Proof. rewrite (md_fb _ _ _ HD). pose proof (total_pos (final L)). lia. Qed.
Lemma final_ne b : b <> 45 -> dblk V b = dblk (m_img s) b.
Proof. intros. unfold V. by rewrite dblk_ne. Qed.
Lemma final_len b : length (dblk V b) = 1024%nat.
Proof.
  destruct (Z.eq_dec b 45) as [-> |]; [|rewrite final_ne by done; apply HD]. unfold V. rewrite dblk_eq.
  pose proof final_fb as Hf0. unfold nmeta in *. pose proof (proj1 (bitmap_bits (Z.to_nat (m_freeblock s)) ltac:(lia))) as H. by rewrite Z2Nat.id in H by lia.
Qed.
Lemma final_dino inum : 0 <= inum < 208 -> dino V sb0 inum = dino (m_img s) sb0 inum.
Proof. intros Hi. unfold dino. destruct (iblock0 inum Hi). by rewrite final_ne by lia. Qed.
Lemma final_used b : 0 <= b < 1000 -> used V sb0 b = (b <? m_freeblock s).
Proof. intros Hb. apply used_bitmap; [|done]. pose proof final_fb. unfold nmeta in *. lia. Qed.

Lemma final_file i ty bs : final L !! i = Some (ty, bs) -> let ip := ino V sb0 (Z.of_nat i + 1) in
  (i < 199)%nat /\ dino V sb0 (Z.of_nat i + 1) = mkDinode ty 0 0 1 (Z.of_nat (length bs)) (i_addrs ip) /\
  mfile V (m_freeblock s) (i_addrs ip) (nblks (Z.of_nat (length bs))) bs /\
  forall b, owns V ip b <-> owns (m_img s) (ai (addrs_of (m_img s) i)) b.
Proof.
  intros Hi ip. assert (Hil : (i < 199)%nat) by (pose proof (lookup_lt_Some _ _ _ Hi) as H; cbn in H; rewrite length_fmap in H; lia).
  destruct (md_file _ _ _ HD i ty bs Hi) as (_ & Ed & Hm).
  assert (Ea : i_addrs ip = addrs_of (m_img s) i) by (change (di_addrs (dino V sb0 (Z.of_nat i + 1)) = addrs_of (m_img s) i); unfold addrs_of; by rewrite final_dino by lia).
  rewrite Ea. destruct (mfile_keep _ _ _ _ _ V (m_freeblock s) Hm ltac:(lia)) as [Hm' Ho].
  { intros b Hb. apply final_ne. apply (owns_range _ _ _ _ _ _ Hm) in Hb. unfold nmeta in *. lia. }
  split_and!; [done|by rewrite final_dino by lia|done|]. intros b. rewrite <- Ho. unfold ip. rewrite <- Ea. done.
Qed.

Lemma final_fs : fs_ok 2 30 V sb0.
Proof.
  split; [apply sb0_layout|apply final_len|]. intros b Hb. change (dstart sb0) with 46 in Hb. rewrite final_used by lia. apply Z.ltb_lt. pose proof final_fb. unfold nmeta in *. lia.
Qed.

Lemma final_inode i ty bs : final L !! i = Some (ty, bs) -> inode_ok V sb0 (ino V sb0 (Z.of_nat i + 1)).
Proof.
  intros Hi. destruct (final_file i ty bs Hi) as (Hil & Ed & Hm & _). set (ip := ino V sb0 (Z.of_nat i + 1)) in *. pose proof final_fb as Hf0.
  pose proof Hm as [M1 M2 M3 M4 M5 M6]. assert (Esz : i_size ip = Z.of_nat (length bs)) by (change (di_size (dino V sb0 (Z.of_nat i + 1)) = Z.of_nat (length bs)); by rewrite Ed).
  split; [done|exact M1| | | |].
  - rewrite Esz. rewrite maxfile_eq in *. unfold BSIZE in *. lia.
  - intros k Hk Hnz. specialize (M4 k Hk). change (slot V (ai (i_addrs ip)) k) with (slot V ip k) in M4. destruct (has_slot _ k); [|congruence].
    change (dstart sb0) with 46. change (sb_size sb0) with 1000. unfold nmeta in *. split; [lia|]. rewrite final_used by lia. apply Z.ltb_lt. lia.
  - intros k k'. apply M5.
  - intros k H0 Hlt. rewrite Esz in Hlt. assert (Hk : 0 <= k < nblks (Z.of_nat (length bs))) by (unfold nblks, BSIZE in *; zmod).
    apply (mf_pos V _ (i_addrs ip) _ bs k Hm); [lia|]. apply has_slot_lt; lia.
Qed.

Lemma final_live inum : live_ino V sb0 inum -> exists i ty bs, inum = Z.of_nat i + 1 /\ final L !! i = Some (ty, bs).
Proof.
  intros (Hr & Ht & _). change (sb_ninodes sb0) with 200 in Hr. destruct (decide (inum <= Z.of_nat (length (final L)))) as [Hl|Hl].
  - destruct (lookup_lt_is_Some_2 (final L) (Z.to_nat (inum - 1))) as [[ty bs] E]; [lia|]. exists (Z.to_nat (inum - 1)), ty, bs. split; [lia|done].
  - rewrite final_dino, (md_free _ _ _ HD) in Ht by lia. done.
Qed.

Lemma final_is_live i ty bs : final L !! i = Some (ty, bs) -> ty <> 0 -> live_ino V sb0 (Z.of_nat i + 1).
Proof.
  intros Hi Ht. destruct (final_file i ty bs Hi) as (Hil & Ed & _). unfold live_ino. rewrite Ed. change (sb_ninodes sb0) with 200. split_and!; [lia|lia|done|done].
Qed.

(** Bytes of a file. *)
Lemma final_bytes i ty bs off n : final L !! i = Some (ty, bs) -> 0 <= off -> 0 <= n -> off + n <= Z.of_nat (length bs) ->
  fbytes V (ino V sb0 (Z.of_nat i + 1)) off n = take (Z.to_nat n) (drop (Z.to_nat off) bs).
Proof.
  intros Hi Ho Hn Hl. destruct (final_file i ty bs Hi) as (_ & _ & Hm & _). set (ip := ino V sb0 (Z.of_nat i + 1)) in *.
  apply list_eq. intros k. unfold fbytes. rewrite list_lookup_fmap. destruct (decide (k < Z.to_nat n)%nat) as [Hk|Hk].
  - rewrite lookup_seqZ_lt by lia. cbn [fmap option_fmap option_map]. rewrite lookup_take_lt, lookup_drop by done.
    change (fbyte V ip (off + Z.of_nat k)) with (fbyte V (ai (i_addrs ip)) (off + Z.of_nat k)).
    rewrite (mf_byte _ _ _ _ _ Hm) by (unfold nblks, BSIZE; zmod). replace (Z.to_nat (off + Z.of_nat k)) with (Z.to_nat off + k)%nat by lia.
    by destruct (lookup_lt_is_Some_2 bs (Z.to_nat off + k)%nat ltac:(lia)) as [x ->].
  - rewrite lookup_seqZ_ge by lia. symmetry. apply lookup_take_ge. lia.
Qed.

(** ** The root directory *)
Let root := ino V sb0 1.

(** Number and name of each entry. *)
Definition ents : list (Z * list Z) := (1, [46]) :: (1, [46; 46]) :: imap (fun i f => (Z.of_nat i + 2, f.1)) L.

Lemma dents_ents : dents L = concat ((fun e => dent e.1 e.2) <$> ents).
Proof. unfold dents, ents. cbn. do 2 f_equal. by rewrite fmap_imap. Qed.

Lemma concat_pick {A} n (ls : list (list A)) k x : Forall (fun l => length l = n) ls -> ls !! k = Some x -> take n (drop (n * k) (concat ls)) = x.
Proof.
  intros HF. revert k. induction HF as [|l ls Hl HF IH]; intros k Hk; [done|]. destruct k as [|k]; cbn [concat].
  - injection Hk as ->. rewrite Nat.mul_0_r. cbn [drop]. rewrite <- Hl. apply take_app_length.
  - replace (n * S k)%nat with (length l + n * k)%nat by lia. rewrite drop_app_add'. by apply IH. done.
Qed.

Lemma length_ents : length ents = (length L + 2)%nat.
Proof. cbn. rewrite length_imap. lia. Qed.

Lemma root_size : i_size root = Z.of_nat (length (padded L)).
Proof. destruct (final_file 0 T_DIR (padded L) eq_refl) as (_ & Ed & _). change (di_size (dino V sb0 (Z.of_nat 0 + 1)) = Z.of_nat (length (padded L))). by rewrite Ed. Qed.

Lemma root_entry k : 0 <= k < i_size root / 16 ->
  dir_entry V root k = match ents !! Z.to_nat k with Some e => dent e.1 e.2 | None => replicate 16 0 end.
Proof.
  intros Hk. rewrite root_size in Hk. assert (Hk16 : 16 * k + 16 <= Z.of_nat (length (padded L))) by zmod. pose proof (length_dents L) as Hl. unfold dir_entry, root. change 1 with (Z.of_nat 0 + 1).
  rewrite (final_bytes 0 T_DIR (padded L)); [|done|lia|lia|zmod]. change (Z.to_nat 16) with 16%nat.
  destruct (ents !! Z.to_nat k) as [e|] eqn:E.
  - pose proof (lookup_lt_Some _ _ _ E) as Hke. rewrite length_ents in Hke. unfold padded.
    rewrite drop_app_le, take_app_le by (rewrite ?length_drop; lia). rewrite dents_ents. replace (Z.to_nat (16 * k)) with (16 * Z.to_nat k)%nat by lia.
    apply concat_pick; [|by rewrite list_lookup_fmap, E]. apply Forall_fmap, Forall_true. intros e'. apply length_dent.
  - apply lookup_ge_None in E. rewrite length_ents in E. unfold padded. rewrite drop_app_ge by lia. rewrite drop_replicate, take_replicate. f_equal.
    unfold padded in Hk16. rewrite length_app, length_replicate in Hk16. lia.
Qed.

Lemma ents_inum k e : ents !! k = Some e -> exists i ty bs, e.1 = Z.of_nat i + 1 /\ final L !! i = Some (ty, bs) /\ ty <> 0.
Proof.
  destruct k as [|[|k]]; [intros [= <-]; by exists 0%nat, T_DIR, (padded L)..|].
  change (ents !! S (S k)) with (imap (fun i f => (Z.of_nat i + 2, f.1)) L !! k). rewrite list_lookup_imap.
  destruct (L !! k) as [f|] eqn:E; [|done]. intros [= <-]. exists (S k), T_FILE, f.2. split; [cbn; lia|]. split; [by rewrite final_S, E|done].
Qed.
Lemma ents_range k e : ents !! k = Some e -> 0 < e.1 < 2 ^ 16.
Proof. intros He. destruct (ents_inum k e He) as (i & ty & bs & -> & Hi & _). apply lookup_lt_Some in Hi. cbn in Hi. rewrite length_fmap in Hi. lia. Qed.

Lemma dent_fields e : 0 <= e.1 < 2 ^ 16 -> de_inum (dent e.1 e.2) = e.1 /\ de_name (dent e.1 e.2) = strncpy_l e.2 DIRSIZ.
Proof.
  intros He. unfold dent. rewrite xshort_u16. unfold u16. rewrite wrap_small by done. split; [by apply de_inum_mk|]. apply de_name_mk, strncpy_l_length.
Qed.

Lemma root_match name k : 0 <= k < i_size root / 16 -> dir_match V root name k = true -> exists e, ents !! Z.to_nat k = Some e.
Proof. intros Hk. unfold dir_match. rewrite root_entry by done. destruct (ents !! Z.to_nat k) as [e|]; [by exists e|done]. Qed.

Lemma root_matches name k e : Z.of_nat (length name) <= 65536 -> ents !! k = Some e -> dir_match V root name (Z.of_nat k) = bool_decide (fname name = fname e.2).
Proof.
  intros Hn He. pose proof (lookup_lt_Some _ _ _ He) as Hk. rewrite length_ents in Hk. pose proof (ents_range k e He) as Hr.
  unfold dir_match. rewrite root_entry, Nat2Z.id, He.
  2: { rewrite root_size, length_padded, length_dents. unfold nblks. zmod. }
  destruct (dent_fields e ltac:(lia)) as [-> ->]. rewrite (proj2 (Z.eqb_neq e.1 0)) by lia. cbn [negb andb]. rewrite <- (fname_strncpy e.2).
  destruct (Z.eqb_spec (namecmp name (strncpy_l e.2 DIRSIZ)) 0) as [E|E]; symmetry; rewrite namecmp_zero in E by done.
  - by apply bool_decide_eq_true_2.
  - by apply bool_decide_eq_false_2.
Qed.

Lemma root_lookup name k e : NoDup (fname <$> ents.*2) -> Z.of_nat (length name) <= 65536 -> ents !! k = Some e -> fname name = fname e.2 ->
  dir_lookup V root name = Some (e.1, 16 * Z.of_nat k).
Proof.
  intros Hnd Hn He Ef. pose proof (lookup_lt_Some _ _ _ He) as Hk. rewrite length_ents in Hk. pose proof (ents_range k e He) as Hr.
  assert (Hks : 0 <= Z.of_nat k < i_size root / 16) by (rewrite root_size, length_padded, length_dents; unfold nblks; zmod).
  rewrite (dir_lookup_some V root name (Z.of_nat k)); [|done|rewrite (root_matches name k e) by done; by apply bool_decide_eq_true_2|].
  - rewrite root_entry, Nat2Z.id, He by done. by destruct (dent_fields e ltac:(lia)) as [-> _].
  - intros k' Hk'. destruct (lookup_lt_is_Some_2 ents (Z.to_nat k')) as [e' He']; [rewrite length_ents; lia|].
    replace k' with (Z.of_nat (Z.to_nat k')) by lia. rewrite (root_matches name _ e') by done. apply bool_decide_eq_false_2. intros E.
    assert (Z.to_nat k' = k); [|lia]. eapply NoDup_lookup; [exact Hnd|by rewrite !list_lookup_fmap, He'|]. rewrite !list_lookup_fmap, He. change (Some (fname e.2) = Some (fname e'.2)). congruence.
Qed.

Lemma final_tree : tree_ok V sb0.
Proof.
  intros inum Hl Ht. destruct (final_live inum Hl) as (i & ty & bs & -> & Hi). destruct (final_file i ty bs Hi) as (_ & Ed & _).
  rewrite Ed in Ht. cbn in Ht. subst ty. destruct i as [|i].
  2: { rewrite final_S in Hi. by destruct (L !! i). }
  injection Hi as <-. change (Z.of_nat 0 + 1) with 1 in *. split_and!.
  - eapply (inode_file_ok 2 30); [by vm_compute|apply sb0_layout|apply final_len|]. by apply (final_inode 0 T_DIR (padded L)).
  - change (i_size root mod 16 = 0). rewrite root_size, length_padded. zmod.
  - intros name n off. fold root. destruct (dir_lookup_cases V root name) as [-> |(k & Hk & Hm & _ & ->)]; [done|]. intros [= <- _].
    destruct (root_match name k Hk Hm) as [e He]. rewrite root_entry, He by done. pose proof (ents_range _ e He).
    destruct (dent_fields e ltac:(lia)) as [-> _]. destruct (ents_inum _ e He) as (j & ty & bs & -> & Hj & Hty). by eapply final_is_live.
Qed.

(** The finished image. *)
Context (Hnd : NoDup (fname <$> [46] :: [46; 46] :: L.*1)).

Lemma ents_names : ents.*2 = [46] :: [46; 46] :: L.*1.
Proof. unfold ents. cbn [fmap list_fmap]. do 2 f_equal. rewrite fmap_imap. apply imap_const. Qed.

Lemma final_map b : 0 <= b < 1000 -> used V sb0 b = true <-> b < 46 \/ exists inum, live_ino V sb0 inum /\ owns V (ino V sb0 inum) b.
Proof.
  intros Hb. pose proof final_fb as Hf0. rewrite (final_used b Hb), Z.ltb_lt. split.
  - intros Hlt. destruct (Z.lt_ge_cases b 46) as [|Hge]; [by left|right].
    destruct (md_used _ _ _ (mk_disk _ _ Hok) b) as (i & Hi & Ho); [unfold nmeta; lia|].
    destruct (lookup_lt_is_Some_2 (final L) i Hi) as [[ty bs] Ei]. exists (Z.of_nat i + 1).
    destruct (final_file i ty bs Ei) as (_ & _ & _ & Ho'). split; [|by apply Ho'].
    apply (final_is_live i ty bs Ei). destruct i as [|i]; [by injection Ei as <- _|]. rewrite final_S in Ei. destruct (L !! i); [by injection Ei as <- _|done].
  - intros [Hlt|(inum & Hl & Ho)]; [unfold nmeta in *; lia|]. destruct (final_live inum Hl) as (i & ty & bs & -> & Ei).
    destruct (final_file i ty bs Ei) as (_ & _ & Hm & _). by apply (owns_range _ _ _ _ _ _ Hm).
Qed.

Lemma final_built : built L V.
Proof.
  split; [| |apply final_fs|apply final_tree|apply final_map| |].
  - rewrite final_ne, (mk_super _ _ Hok) by done. by vm_compute.
  - rewrite final_ne by done. apply (mk_blank _ _ Hok); done.
  - intros n n' b Hn Hn' Ho Ho'. destruct (final_live n Hn) as (i & ty & bs & -> & Ei), (final_live n' Hn') as (j & ty' & bs' & -> & Ej).
    destruct (final_file i ty bs Ei) as (_ & _ & _ & Hi), (final_file j ty' bs' Ej) as (_ & _ & _ & Hj).
    f_equal. f_equal. eapply (md_disj _ _ _ (mk_disk _ _ Hok)); [by eapply lookup_lt_Some|by eapply lookup_lt_Some|by apply Hi|by apply Hj].
  - intros i name c Hi n ip. assert (Ei : final L !! S i = Some (T_FILE, c)) by (by rewrite final_S, Hi).
    assert (En : n = Z.of_nat (S i) + 1) by (unfold n; lia). destruct (final_file (S i) T_FILE c Ei) as (_ & Ed & _). unfold ip. rewrite En.
    split_and!.
    + by apply (final_is_live (S i) T_FILE c).
    + by apply (final_inode (S i) T_FILE c).
    + change (di_type (dino V sb0 (Z.of_nat (S i) + 1)) = T_FILE). by rewrite Ed.
    + change (di_size (dino V sb0 (Z.of_nat (S i) + 1)) = Z.of_nat (length c)). by rewrite Ed.
    + rewrite (final_bytes (S i) T_FILE c) by (done || lia). cbn [drop Z.to_nat]. apply take_ge. lia.
    + rewrite resolve_cons. destruct (final_file 0 T_DIR (padded L) eq_refl) as (_ & Er & _). change (Z.of_nat 0 + 1) with ROOTINO in Er.
      rewrite Er. cbn [di_type andb]. change (T_DIR =? T_DIR) with true. cbv iota.
      change (ino V sb0 ROOTINO) with root. rewrite (root_lookup (take DIRSIZ name) (S (S i)) (Z.of_nat i + 2, name)).
      * cbn [fst]. unfold resolve. cbn [walk]. f_equal. lia.
      * by rewrite ents_names.
      * rewrite length_take. unfold DIRSIZ. lia.
      * change (imap (fun i f => (Z.of_nat i + 2, f.1)) L !! i = Some (Z.of_nat i + 2, name)). by rewrite list_lookup_imap, Hi.
      * unfold fname. cbn [snd]. by rewrite take_take.
Qed.
End Final.

(** C10: Mkfs on source files that fit the disk ends normally, whatever pieces
    the reads come in, and the image it leaves is a file system the kernel's
    theorems apply to: the superblock describes the layout, the log is empty,
    the free map marks exactly the metadata and the blocks of the files, no
    block belongs to two files, the directory tree is sound, and the path of
    each source file leads to an inode that holds its bytes.  The number of
    entries of the root directory must not be a multiple of 64. *)
Theorem mkfs_correct `{HO : Host} a0 img paths L :
  (forall off, host_write off = true) -> host_create img = true -> Forall2 source paths L ->
  fits L -> (length L <= 198)%nat -> (Z.of_nat (length L) + 2) mod 64 <> 0 -> NoDup (fname <$> [46] :: [46; 46] :: L.*1) ->
  exists s', main (a0 :: img :: paths) m0 = Ret tt s' /\ m_end s' = FSSIZE /\ built L (m_img s').
Proof.
  intros Hw Hc HF Hfit Hl Hmod Hnd.
  destruct (wp_elim (main (a0 :: img :: paths)) (fun _ s' => m_end s' = FSSIZE /\ built L (m_img s')) m0) as ([] & s' & E & He & Hb).
  { apply (wp_main Hw a0 img paths L); [done..|]. intros s s' Hok Ei He. split; [done|]. rewrite Ei. apply final_built; [done| |done|done].
    destruct Hfit as (_ & _ & F3). rewrite (md_fb _ _ _ (mk_disk _ _ Hok)). unfold final, image in *. cbn [total] in *.
    unfold need_of at 1. unfold need_of at 1 in F3. cbn [snd] in *. rewrite nblks_padded. exact F3. }
  by exists s'.
Qed.

(** ** A host with files *)
Definition demo_host : Host := {|
  host_create _ := true;
  host_file p := Some (if bool_decide (p = [117; 115; 101; 114; 47; 95; 99; 97; 116]) then [replicate 1000 7; replicate 600 8] else [[104; 105]]);
  host_write _ := true
|}.
#[local] Existing Instance demo_host.

(** user/_cat, in two reads, and README. *)
Definition demo_paths : list (list Z) := [[117; 115; 101; 114; 47; 95; 99; 97; 116]; [82; 69; 65; 68; 77; 69]].
Definition demo_files : list (list Z * list Z) := [([99; 97; 116], replicate 1000 7 ++ replicate 600 8); ([82; 69; 65; 68; 77; 69], [104; 105])].

Lemma mkfs_correct_witness : exists s', main ([109] :: [102] :: demo_paths) m0 = Ret tt s' /\ built demo_files (m_img s').
Proof.
  destruct (mkfs_correct [109] [102] demo_paths demo_files) as (s' & E & _ & H).
  - intros off. reflexivity.
  - reflexivity.
  - apply Forall2_cons. split; [|apply Forall2_cons; split; [|apply Forall2_nil; exact I]].
    + split; [apply (bool_decide_unpack _); vm_compute; exact I|]. split; [reflexivity|]. exists [replicate 1000 7; replicate 600 8]. split; reflexivity.
    + split; [apply (bool_decide_unpack _); vm_compute; exact I|]. split; [reflexivity|]. exists [[104; 105]]. split; reflexivity.
  - split; [cbn; lia|]. split; [repeat constructor; vm_compute; discriminate|vm_compute; discriminate].
  - cbn. lia.
  - vm_compute. discriminate.
  - apply (bool_decide_unpack _). vm_compute. exact I.
  - exists s'. split; [exact E|exact H].
Defined.

