(* ===== verification/PipeSpec.v ===== *)
(** * Pipes are bounded queues

    [pq x] is the queue a ring buffer holds.  pipewrite appends, piperead takes
    from the front, and neither loses or reorders a byte, also when the counters
    wrap around. *)
From S2P Require Import Prelude Memory State Kalloc PageTable Vm VmSpec UserMem UserCopy Sched SchedSpec Pipe.

(** ** The ring buffer *)
Definition plen (x : pipe) : Z := u32 (pi_nwrite x - pi_nread x).
Definition pq (x : pipe) : list Z :=
  map (fun k => default 0 (pi_data x !! pslot (pi_nread x + Z.of_nat k))) (seq 0 (Z.to_nat (plen x))).

Record pipe_ok (x : pipe) : Prop := {
  po_len : length (pi_data x) = 512%nat;
  po_r : 0 <= pi_nread x < 2 ^ 32;
  po_w : 0 <= pi_nwrite x < 2 ^ 32;
  po_n : plen x <= 512
}.

(** The updates of pipewrite's and piperead's loops. *)
Definition ppush (c : Z) (x : pipe) : pipe :=
  let x := set_pi_data (<[pslot (pi_nwrite x) := c]> (pi_data x)) x in
  set_pi_nwrite (u32 (pi_nwrite x + 1)) x.
Definition ppop (x : pipe) : pipe := set_pi_nread (u32 (pi_nread x + 1)) x.

Lemma length_pq x : pipe_ok x -> Z.of_nat (length (pq x)) = plen x.
Proof.
  intros _. unfold pq. rewrite length_map, length_seq. unfold plen, u32, wrap.
  pose proof (Z.mod_pos_bound (pi_nwrite x - pi_nread x) (2 ^ 32) ltac:(lia)). lia.
Qed.

Lemma pq_lookup x k : pipe_ok x -> (k < length (pq x))%nat ->
  pq x !! k = Some (default 0 (pi_data x !! pslot (pi_nread x + Z.of_nat k))).
Proof.
  intros Hx Hk. unfold pq in *. rewrite length_map, length_seq in Hk.
  rewrite list_lookup_fmap, lookup_seq_lt by done. done.
Qed.

Lemma pslot_wrap i : pslot (u32 i) = pslot i.
Proof. unfold pslot, PIPESIZE, u32, wrap. f_equal. change (2 ^ 32) with 4294967296. zmod. Qed.

Lemma pfull x : pipe_ok x -> (pi_nwrite x =? u32 (pi_nread x + PIPESIZE)) = (plen x =? 512).
Proof.
  intros [_ Hr Hw Hn]. unfold plen, u32, wrap, PIPESIZE in *. change (2 ^ 32) with 4294967296 in *.
  apply eq_true_iff_eq. rewrite !Z.eqb_eq. zmod.
Qed.
Lemma pempty x : pipe_ok x -> (pi_nread x =? pi_nwrite x) = (plen x =? 0).
Proof.
  intros [_ Hr Hw Hn]. unfold plen, u32, wrap in *. change (2 ^ 32) with 4294967296 in *.
  apply eq_true_iff_eq. rewrite !Z.eqb_eq. zmod.
Qed.

Lemma plen_push c x : pipe_ok x -> plen x < 512 -> plen (ppush c x) = plen x + 1.
Proof.
  intros [_ Hr Hw Hn] Hlt. unfold plen, ppush, u32, wrap in *. simpl in *. change (2 ^ 32) with 4294967296 in *. zmod.
Qed.
Lemma plen_pop x : pipe_ok x -> 0 < plen x -> plen (ppop x) = plen x - 1.
Proof.
  intros [_ Hr Hw Hn] Hlt. unfold plen, ppop, u32, wrap in *. simpl in *. change (2 ^ 32) with 4294967296 in *. zmod.
Qed.

Lemma ppush_ok c x : pipe_ok x -> plen x < 512 -> pipe_ok (ppush c x).
Proof.
  intros Hx Hlt. pose proof (plen_push c x Hx Hlt). destruct Hx as [Hl Hr Hw Hn]. split.
  - unfold ppush. simpl. by rewrite length_insert.
  - done.
  - unfold ppush. simpl. unfold u32, wrap. apply Z.mod_pos_bound. lia.
  - lia.
Qed.
Lemma ppop_ok x : pipe_ok x -> 0 < plen x -> pipe_ok (ppop x).
Proof.
  intros Hx Hlt. pose proof (plen_pop x Hx Hlt). destruct Hx as [Hl Hr Hw Hn]. split; try done.
  - unfold ppop. simpl. unfold u32, wrap. apply Z.mod_pos_bound. lia.
  - lia.
Qed.

(** Slots of the queue and the slot written next are distinct. *)
Lemma pslot_fresh x k : pipe_ok x -> Z.of_nat k < plen x -> plen x < 512 -> pslot (pi_nread x + Z.of_nat k) <> pslot (pi_nwrite x).
Proof.
  intros [_ Hr Hw Hn] Hk Hlt. unfold pslot, plen, PIPESIZE, u32, wrap in *. change (2 ^ 32) with 4294967296 in *.
  intros E. apply Z2Nat.inj in E; [zmod|apply Z.mod_pos_bound; lia..].
Qed.

Lemma pq_push c x : pipe_ok x -> plen x < 512 -> pq (ppush c x) = pq x ++ [c].
Proof.
  intros Hx Hlt. pose proof (ppush_ok c x Hx Hlt) as Hx'. pose proof (plen_push c x Hx Hlt) as Hp.
  pose proof (length_pq _ Hx) as L. pose proof (length_pq _ Hx') as L'.
  apply list_eq. intros k. destruct (decide (k < length (pq (ppush c x)))%nat) as [Hk|Hk].
  - rewrite pq_lookup by done. destruct (decide (k < length (pq x))%nat) as [Hk'|Hk'].
    + rewrite lookup_app_l, pq_lookup by done. unfold ppush. simpl.
      rewrite list_lookup_insert_ne; [done|]. apply not_eq_sym, pslot_fresh; [done|lia|done].
    + assert (k = length (pq x)) as -> by lia. rewrite lookup_app_r, Nat.sub_diag by lia. cbn [lookup list_lookup].
      f_equal. unfold ppush. simpl. replace (pslot (pi_nread x + Z.of_nat (length (pq x)))) with (pslot (pi_nwrite x)).
      * rewrite list_lookup_insert_eq; [done|]. destruct Hx as [-> _ _ _].
        unfold pslot, PIPESIZE. pose proof (Z.mod_pos_bound (pi_nwrite x) 512 ltac:(lia)). lia.
      * rewrite L. rewrite <- (pslot_wrap (pi_nread x + plen x)). f_equal.
        destruct Hx as [_ Hr Hw Hn]. unfold plen, u32, wrap in *. change (2 ^ 32) with 4294967296 in *. zmod.
  - rewrite !(proj2 (lookup_ge_None _ _)); [done|rewrite length_app; simpl; lia|lia].
Qed.

Lemma pq_pop x : pipe_ok x -> 0 < plen x -> pq x = default 0 (pi_data x !! pslot (pi_nread x)) :: pq (ppop x).
Proof.
  intros Hx Hlt. pose proof (ppop_ok x Hx Hlt) as Hx'. pose proof (plen_pop x Hx Hlt) as Hp.
  pose proof (length_pq _ Hx) as L. pose proof (length_pq _ Hx') as L'.
  apply list_eq. intros [|k]; cbn [lookup list_lookup].
  - rewrite pq_lookup by (done || lia). simpl. by rewrite Z.add_0_r.
  - fold (pq (ppop x) !! k). destruct (decide (k < length (pq (ppop x)))%nat) as [Hk|Hk].
    + change (list_lookup k (pq (ppop x))) with (pq (ppop x) !! k). rewrite !pq_lookup by (done || lia). do 2 f_equal.
      unfold ppop. simpl.
      rewrite <- (pslot_wrap (u32 (pi_nread x + 1) + Z.of_nat k)), <- (pslot_wrap (pi_nread x + Z.of_nat (S k))).
      f_equal. unfold u32, wrap. rewrite Zplus_mod_idemp_l.
      by replace (pi_nread x + Z.of_nat (S k)) with (pi_nread x + 1 + Z.of_nat k) by lia.
    + transitivity (@None Z); [|symmetry]; apply lookup_ge_None; lia.
Qed.

(** [src] pushed in order. *)
Definition ppushes (src : list Z) (x : pipe) : pipe := fold_left (fun x c => ppush c x) src x.
Lemma ppushes_ok src : forall x, pipe_ok x -> plen x + Z.of_nat (length src) <= 512 ->
  pipe_ok (ppushes src x) /\ pq (ppushes src x) = pq x ++ src.
Proof.
  induction src as [|c src IH]; intros x Hx Hl; cbn [ppushes fold_left length] in *; [by rewrite app_nil_r|].
  assert (Hlt : plen x < 512) by lia. destruct (IH (ppush c x)) as [Ho Hq].
  - by apply ppush_ok.
  - rewrite plen_push by done. lia.
  - split; [done|]. change (fold_left (fun x c => ppush c x) src (ppush c x)) with (ppushes src (ppush c x)).
    rewrite Hq, pq_push by done. by rewrite <- app_assoc.
Qed.
Lemma ppushes_readopen src : forall x, pi_readopen (ppushes src x) = pi_readopen x.
Proof. induction src as [|c src IH]; intros x; [done|]. cbn [ppushes fold_left]. apply (IH (ppush c x)). Qed.

(** [k] bytes popped. *)
Definition ppops (k : nat) (x : pipe) : pipe := Nat.iter k ppop x.
Lemma ppops_ok k x : pipe_ok x -> (k <= length (pq x))%nat ->
  pipe_ok (ppops k x) /\ pq (ppops k x) = drop k (pq x).
Proof.
  intros Hx. induction k as [|k IH]; intros Hk; [done|]. destruct IH as [Ho Hq]; [lia|].
  pose proof (length_pq _ Ho) as HL. rewrite Hq, length_drop in HL.
  assert (Hp : 0 < plen (ppops k x)) by lia. change (ppops (S k) x) with (ppop (ppops k x)).
  split; [by apply ppop_ok|]. rewrite (pq_pop _ Ho Hp) in Hq.
  replace (drop (S k) (pq x)) with (drop 1 (drop k (pq x))) by (rewrite drop_drop; f_equal; lia). by rewrite <- Hq.
Qed.

(** One more byte stored after [k]. *)
Lemma wrote_snoc `{KernelImage} m h root T fl L dst src k c m' m'' :
  0 <= dst -> src !! k = Some c -> wrote m h root T fl L dst src k m' ->
  wrote m' h root T fl L (dst + Z.of_nat k) [c] 1 m'' -> wrote m h root T fl L dst src (S k) m''.
Proof.
  intros Hd Hc [Wi Wp Wb Wf] [Xi Xp Xb Xf]. split; [done| | |].
  - intros va. by rewrite Xp, Wp.
  - intros va Hva. rewrite Xb, Wb by done. repeat case_decide; try lia; try done.
    assert (va = dst + Z.of_nat k) as -> by lia. rewrite Z.sub_diag.
    by replace (Z.to_nat (dst + Z.of_nat k - dst)) with k by lia.
  - intros a Ha. rewrite Xf, Wf; done.
Qed.

(** The state with pipe [pi] set to [x]. *)
Definition with_pipe (pi : Z) (x : pipe) (s : kstate) : kstate := set_pipes (<[pi := x]>) s.

Section PipeSpec.
Context `{KI : KernelImage} `{KOK : !KernelImageOk} {R : kstate -> kstate -> Prop} {C : kstate -> Prop}.

Lemma wp_getpipe pi x Q s : k_pipes s !! pi = Some x -> Q x s -> wpc R C (getpipe pi) Q s.
Proof. intros Hx HQ. unfold getpipe. wp_step. wp_step. rewrite Hx. by wp_step. Qed.

Lemma wp_modpipe pi f x Q s : k_pipes s !! pi = Some x -> Q tt (with_pipe pi (f x) s) -> wpc R C (modpipe pi f) Q s.
Proof.
  intros Hx HQ. unfold modpipe. wp_step. unfold with_pipe, set_pipes in *.
  replace (alter f pi (k_pipes s)) with (<[pi := f x]> (k_pipes s)); [done|].
  apply map_eq. intros k. destruct (decide (k = pi)) as [->|].
  - by rewrite lookup_insert_eq, lookup_alter_eq, Hx.
  - by rewrite lookup_insert_ne, lookup_alter_ne by done.
Qed.

Lemma with_pipe_with pi x y s : with_pipe pi x (with_pipe pi y s) = with_pipe pi x s.
Proof. unfold with_pipe, set_pipes. cbn [k_pipes]. by rewrite insert_insert_eq. Qed.
Lemma with_pipe_lookup pi x s : k_pipes (with_pipe pi x s) !! pi = Some x.
Proof. apply lookup_insert_eq. Qed.

(** One byte of the user's memory. *)
Lemma wp_copyin1 root T va b Q s :
  pt_wf (k_mem s) T root -> 0 <= va -> ubyte (k_mem s) root va = Some b -> Q (0, [b]) s ->
  wpc R C (copyin root va 1) Q s.
Proof.
  intros Hw Hva Hb HQ.
  assert (Hmax : va < MAXVA).
  { apply (uaddr_max (k_mem s) root). intros E. unfold ubyte in Hb. by rewrite E in Hb. }
  assert (Hva' : 0 <= va < 2 ^ 64) by (split; [done|]; eapply Z.lt_trans; [exact Hmax|done]).
  assert (Hl' : 0 <= 1 < 2 ^ 64) by (split; done).
  apply wp_wpc. apply (wp_copyin root va 1 T s Hw Hva' Hl').
  - intros [|c [|]] Hl Hu; simpl in Hl; try lia. specialize (Hu 0%nat c eq_refl). rewrite Z.add_0_r in Hu. congruence.
  - intros [|] Hl Hu HN; simpl in Hl; [|lia]. simpl in HN. rewrite Z.add_0_r in HN. congruence.
Qed.

(** ** pipewrite *)
Lemma wp_pipewrite p pi x addr src T Q s :
  k_cur s = Some p -> k_held s = [] -> length (k_proc s) = NPROC ->
  k_pipes s !! pi = Some x -> pipe_ok x -> pi_readopen x = true -> p_killed (proc_of s p) = false ->
  plen x + Z.of_nat (length src) <= 512 -> 0 <= addr ->
  pt_wf (k_mem s) T (p_pagetable (proc_of s p)) ->
  (forall i b, src !! i = Some b -> ubyte (k_mem s) (p_pagetable (proc_of s p)) (addr + Z.of_nat i) = Some b) ->
  Q (Z.of_nat (length src)) (set_proc (imap (woken (Ch_pipe_nread pi) (Some p))) (with_pipe pi (ppushes src x) s)) ->
  wpc R C (pipewrite pi addr (Z.of_nat (length src))) Q s.
Proof.
  intros Hc Hh Hlen Hx Hok Hro Hk Hroom Haddr Hw Hu HQ. unfold pipewrite. wp_step.
  apply (wp_curproc p); [done|]. wp_step. apply wp_acquire; [rewrite Hh; apply not_elem_of_nil|]. wp_step.
  set (s0 := set_held (cons (L_pipe pi)) s). set (n := Z.of_nat (length src)) in *.
  assert (Hpl : 0 <= plen x) by (rewrite <- length_pq by done; lia).
  apply (wp_loop _ (fun i s' => exists k, i = Z.of_nat k /\ (k <= length src)%nat /\
    s' = with_pipe pi (ppushes (take k src) x) s0) (fun i _ => n - i)).
  2: { exists 0%nat. split_and!; [done|lia|]. unfold with_pipe, set_pipes, s0. cbn.
       by rewrite insert_id by done. }
  2: { unfold n. lia. }
  intros i s' (k & -> & Hkl & ->). set (xk := ppushes (take k src) x). unfold pipewrite_round.
  assert (Htk : length (take k src) = k) by (rewrite length_take; lia).
  destruct (ppushes_ok (take k src) x Hok) as [Hok' Hq']; [lia|]. fold xk in Hok', Hq'.
  destruct (Z.ltb_spec (Z.of_nat k) n) as [Hlt|Hge].
  - destruct (lookup_lt_is_Some_2 src k) as [b Hb]; [lia|].
    assert (Hp' : plen xk < 512).
    { rewrite <- length_pq, Hq', length_app, Htk by done. rewrite <- length_pq in Hroom by done. lia. }
    wp_step. apply (wp_getpipe pi xk); [apply with_pipe_lookup|]. unfold getp. wp_step. wp_step.
    change (proc_of (with_pipe pi xk s0) p) with (proc_of s p).
    unfold xk at 1. rewrite ppushes_readopen, Hro, Hk. cbn [negb orb].
    rewrite pfull, (proj2 (Z.eqb_neq _ _)) by (done || lia).
    assert (Hub : ubyte (k_mem s) (p_pagetable (proc_of s p)) (addr + Z.of_nat k) = Some b) by by apply Hu.
    assert (Hva : addr + Z.of_nat k < MAXVA).
    { apply (uaddr_max (k_mem s) (p_pagetable (proc_of s p))). intros E. unfold ubyte in Hub. by rewrite E in Hub. }
    rewrite u64_small by (unfold MAXVA in Hva; lia). wp_step.
    apply (wp_copyin1 _ T _ b); [done|lia|done|]. change (0 =? -1) with false. cbv iota. cbn [head from_option id].
    wp_step. apply (wp_modpipe pi _ xk); [apply with_pipe_lookup|]. rewrite with_pipe_with. wp_step.
    eapply wp_modpipe; [apply with_pipe_lookup|]. rewrite with_pipe_with. wp_step.
    unfold n in Hlt. rewrite s32_small by lia. split; [|lia]. exists (S k). split_and!; [lia|lia|].
    rewrite (take_S_r _ _ _ Hb). unfold ppushes at 1. rewrite fold_left_app. reflexivity.
  - assert (k = length src) as -> by (unfold n in Hge; lia). unfold xk. rewrite firstn_all. do 2 wp_step.
    apply wp_wakeup; [|done|].
    { intros j. unfold s0. simpl. rewrite Hh. rewrite not_elem_of_cons. split; [done|apply not_elem_of_nil]. }
    wp_step. eapply wp_release_last; [simpl; by rewrite Hh|apply not_elem_of_nil|]. wp_step.
    replace (set_held _ _) with (set_proc (imap (woken (Ch_pipe_nread pi) (Some p))) (with_pipe pi (ppushes src x) s)); [done|].
    unfold s0. simpl. rewrite Hc. clear - Hh. by destruct s; simpl in *; subst.
Qed.

(** ** piperead *)
Lemma wp_pipe_wait pi pr x Q s :
  k_pipes s !! pi = Some x -> pipe_ok x -> pq x <> [] \/ pi_writeopen x = false ->
  Q true s -> wpc R C (pipe_wait pi pr) Q s.
Proof.
  intros Hx Hok Hgo HQ. unfold pipe_wait.
  apply (wp_loop _ (fun _ s' => s' = s) (fun _ _ => 0)); [|done|lia].
  intros _ s' ->. wp_step. apply (wp_getpipe pi x); [done|].
  replace ((pi_nread x =? pi_nwrite x) && pi_writeopen x) with false; [by wp_step|].
  symmetry. destruct Hgo as [Hne| ->]; [|apply andb_false_r]. rewrite pempty by done.
  rewrite (proj2 (Z.eqb_neq _ _)); [done|]. intros E. apply Hne, nil_length_inv.
  pose proof (length_pq x Hok). lia.
Qed.

Lemma wp_copyout1 root T fl L va c Q s :
  user_inv (k_mem s) (k_freelist s) root T fl L -> complete (k_mem s) root L ->
  0 <= va -> ubyte (k_mem s) root va <> None -> 0 <= c < 256 ->
  (forall m', wrote (k_mem s) (k_freelist s) root T fl L va [c] 1 m' -> Q 0 (upd s m' (k_freelist s))) ->
  wpc R C (copyout root va [c]) Q s.
Proof.
  intros Hi HU Hva Hb Hc HQ.
  assert (Hmax : va < MAXVA).
  { apply (uaddr_max (k_mem s) root). intros E. unfold ubyte in Hb. by rewrite E in Hb. }
  assert (Hva' : 0 <= va < 2 ^ 64) by (split; [done|]; eapply Z.lt_trans; [exact Hmax|done]).
  apply wp_wpc. apply (wp_copyout root va [c] T fl L s Hi HU Hva'); [done|by apply Forall_singleton|exact HQ|].
  intros m' [|n] Hn HN; simpl in Hn; [|lia]. simpl in HN. rewrite Z.add_0_r in HN. done.
Qed.

Lemma wp_piperead p pi x addr n T fl L Q s :
  k_cur s = Some p -> k_held s = [] -> length (k_proc s) = NPROC ->
  k_pipes s !! pi = Some x -> pipe_ok x -> pq x <> [] \/ pi_writeopen x = false ->
  Forall (fun b => 0 <= b < 256) (pq x) -> 0 <= addr ->
  user_inv (k_mem s) (k_freelist s) (p_pagetable (proc_of s p)) T fl L -> complete (k_mem s) (p_pagetable (proc_of s p)) L ->
  let k := Nat.min (Z.to_nat n) (length (pq x)) in
  (forall i, (i < k)%nat -> ubyte (k_mem s) (p_pagetable (proc_of s p)) (addr + Z.of_nat i) <> None) ->
  (forall m', wrote (k_mem s) (k_freelist s) (p_pagetable (proc_of s p)) T fl L addr (take k (pq x)) k m' ->
    Q (Z.of_nat k) (set_proc (imap (woken (Ch_pipe_nwrite pi) (Some p)))
                     (with_pipe pi (ppops k x) (upd s m' (k_freelist s))))) ->
  wpc R C (piperead pi addr n) Q s.
Proof.
  intros Hc Hh Hlen Hx Hok Hgo Hby Haddr Hi HU k Hu HQ. unfold piperead. wp_step.
  apply (wp_curproc p); [done|]. wp_step. apply wp_acquire; [rewrite Hh; apply not_elem_of_nil|]. wp_step.
  apply (wp_pipe_wait pi p x); [done..|]. cbn [negb]. wp_step.
  set (s0 := set_held (cons (L_pipe pi)) s). set (root := p_pagetable (proc_of s p)) in *.
  set (src := take k (pq x)) in *.
  apply (wp_loop _ (fun i s' => exists j m', i = Z.of_nat j /\ (j <= k)%nat /\
    wrote (k_mem s) (k_freelist s) root T fl L addr src j m' /\
    s' = with_pipe pi (ppops j x) (upd s0 m' (k_freelist s))) (fun i _ => Z.of_nat k - i)).
  2: { exists 0%nat, (k_mem s). split_and!; [done|lia| |].
       - split; try done. intros va Hva. rewrite decide_False by lia. done.
       - unfold with_pipe, set_pipes, s0. cbn. by rewrite insert_id by done. }
  2: { pose proof (length_pq x Hok). destruct Hok. lia. }
  intros i s' (j & m' & -> & Hj & Hwr & ->). unfold piperead_round.
  destruct (ppops_ok j x Hok) as [Hok' Hq']; [lia|]. pose proof (length_pq _ Hok') as HL. rewrite Hq', length_drop in HL.
  destruct (decide (j = k)) as [->|Hne].
  - assert (Hout : forall Q', Q' (inr (Z.of_nat k)) (with_pipe pi (ppops k x) (upd s0 m' (k_freelist s))) ->
      wpc R C (piperead_round pi addr n p (Z.of_nat k)) Q' (with_pipe pi (ppops k x) (upd s0 m' (k_freelist s)))).
    { intros Q' HQ'. unfold piperead_round. destruct (Z.ltb_spec (Z.of_nat k) n); [|by wp_step].
      wp_step. apply (wp_getpipe pi (ppops k x)); [apply with_pipe_lookup|]. rewrite pempty by done.
      rewrite (proj2 (Z.eqb_eq _ _)) by lia. by wp_step. }
    apply Hout. do 1 wp_step. apply wp_wakeup; [|done|].
    { intros q. unfold s0. simpl. rewrite Hh. rewrite not_elem_of_cons. split; [done|apply not_elem_of_nil]. }
    wp_step. eapply wp_release_last; [simpl; by rewrite Hh|apply not_elem_of_nil|]. wp_step.
    specialize (HQ m' Hwr).
    match type of HQ with Q _ ?t => replace (set_held _ _) with t; [done|] end.
    unfold s0. simpl. rewrite Hc. clear - Hh. by destruct s; simpl in *; subst.
  - rewrite (proj2 (Z.ltb_lt _ _)) by lia.
    wp_step. apply (wp_getpipe pi (ppops j x)); [apply with_pipe_lookup|]. rewrite pempty by done.
    rewrite (proj2 (Z.eqb_neq _ _)) by lia.
    set (c := default 0 (pi_data (ppops j x) !! pslot (pi_nread (ppops j x)))).
    assert (Hcj : pq x !! j = Some c).
    { rewrite <- (Nat.add_0_r j), <- lookup_drop, <- Hq', pq_pop by (done || lia). done. }
    wp_step. apply (wp_modpipe pi _ (ppops j x)); [apply with_pipe_lookup|]. rewrite with_pipe_with. unfold getp.
    do 3 wp_step.
    assert (Hub : ubyte m' root (addr + Z.of_nat j) <> None).
    { rewrite (wr_byte _ _ _ _ _ _ _ _ _ _ Hwr), decide_False by lia. apply Hu. lia. }
    assert (Hva : addr + Z.of_nat j < MAXVA).
    { apply (uaddr_max m' root). intros E. unfold ubyte in Hub. by rewrite E in Hub. }
    rewrite u64_small by (unfold MAXVA in Hva; lia).
    apply (wp_copyout1 _ T fl L); [apply Hwr| |lia|done|by apply (proj1 (Forall_lookup _ _) Hby j)|].
    { intros v Hv Hnz. apply HU; [done|]. unfold uaddr in *. by rewrite (wr_pte _ _ _ _ _ _ _ _ _ _ Hwr) in Hnz. }
    intros m'' Hwr'. change (0 =? -1) with false. cbv iota. wp_step.
    pose proof (length_pq x Hok). pose proof (po_n _ Hok). rewrite s32_small by lia. split; [|lia].
    exists (S j), m''. split_and!; [lia|lia| |done].
    eapply (wrote_snoc _ _ _ _ _ _ _ _ _ c); [done| |exact Hwr|exact Hwr'].
    unfold src. rewrite lookup_take_lt by lia. done.
Qed.
End PipeSpec.
