(* ===== verification/PipeTheorems.v ===== *)
(** * What pipewrite and piperead guarantee, with a machine they run on *)
From S2P Require Import Prelude Memory State Kalloc PageTable Vm VmSpec UserMem UserCopy VmTheorems VmWitness Sched SchedSpec Pipe PipeSpec.

Section PipeTheorems.
Context `{KI : KernelImage} `{KOK : !KernelImageOk}.

(** C18: pipewrite of bytes that fit in the pipe returns their number and appends
    them, in order, to the queue the pipe holds, wherever in the ring its
    wrapping counters stand; readers asleep on the pipe become runnable and
    nothing else in the kernel changes. *)
Theorem pipewrite_appends p pi x addr src T s :
  k_cur s = Some p -> k_held s = [] -> length (k_proc s) = NPROC ->
  k_pipes s !! pi = Some x -> pipe_ok x -> pi_readopen x = true -> p_killed (proc_of s p) = false ->
  plen x + Z.of_nat (length src) <= 512 -> 0 <= addr ->
  pt_wf (k_mem s) T (p_pagetable (proc_of s p)) ->
  ubytes (k_mem s) (p_pagetable (proc_of s p)) addr src ->
  exists x', pipe_ok x' /\ pq x' = pq x ++ src /\
    pipewrite pi addr (Z.of_nat (length src)) s =
      Ret (Z.of_nat (length src)) (set_proc (imap (woken (Ch_pipe_nread pi) (Some p))) (with_pipe pi x' s)).
Proof.
  intros Hc Hh Hlen Hx Hok Hro Hk Hroom Ha Hw Hu. destruct (ppushes_ok src x Hok Hroom) as [Hok' Hq'].
  exists (ppushes src x). split_and!; [done..|].
  destruct (wp_elim (pipewrite pi addr (Z.of_nat (length src))) (fun r s' => r = Z.of_nat (length src) /\
    s' = set_proc (imap (woken (Ch_pipe_nread pi) (Some p))) (with_pipe pi (ppushes src x) s)) s)
    as (r & s' & E & -> & ->); [|done].
  by apply (wp_pipewrite p pi x addr src T).
Qed.

(** C17: piperead of a pipe with data, or with no writer left, returns the number
    [k] of bytes there are up to [n] (so 0 at the end of the stream), removes
    them from the front of the queue and leaves them, in order, at the user's
    address; no other user byte, page table or free page changes, and writers
    asleep on the pipe become runnable. *)
Theorem piperead_takes p pi x addr n T fl L s :
  k_cur s = Some p -> k_held s = [] -> length (k_proc s) = NPROC ->
  k_pipes s !! pi = Some x -> pipe_ok x -> pq x <> [] \/ pi_writeopen x = false ->
  Forall (fun b => 0 <= b < 256) (pq x) -> 0 <= addr ->
  user_inv (k_mem s) (k_freelist s) (p_pagetable (proc_of s p)) T fl L ->
  complete (k_mem s) (p_pagetable (proc_of s p)) L ->
  let k := Nat.min (Z.to_nat n) (length (pq x)) in
  (forall i, (i < k)%nat -> ubyte (k_mem s) (p_pagetable (proc_of s p)) (addr + Z.of_nat i) <> None) ->
  exists x' m', pipe_ok x' /\ pq x' = drop k (pq x) /\
    wrote (k_mem s) (k_freelist s) (p_pagetable (proc_of s p)) T fl L addr (take k (pq x)) k m' /\
    piperead pi addr n s =
      Ret (Z.of_nat k) (set_proc (imap (woken (Ch_pipe_nwrite pi) (Some p)))
                         (with_pipe pi x' (upd s m' (k_freelist s)))).
Proof.
  intros Hc Hh Hlen Hx Hok Hgo Hby Ha Hi HU k Hu. destruct (ppops_ok k x Hok) as [Hok' Hq']; [lia|].
  destruct (wp_elim (piperead pi addr n) (fun r s' => exists m',
    wrote (k_mem s) (k_freelist s) (p_pagetable (proc_of s p)) T fl L addr (take k (pq x)) k m' /\
    r = Z.of_nat k /\ s' = set_proc (imap (woken (Ch_pipe_nwrite pi) (Some p)))
      (with_pipe pi (ppops k x) (upd s m' (k_freelist s)))) s) as (r & s' & E & m' & Hw & -> & ->).
  { apply (wp_piperead p pi x addr n T fl L); try done. intros m' Hw. by exists m'. }
  by exists (ppops k x), m'.
Qed.
End PipeTheorems.

(** ** A process with one page of memory and a pipe whose counters are about to wrap *)
#[local] Existing Instance demo_image.
#[local] Existing Instance demo_image_ok.

Definition dpipe : pipe :=
  mkPipe (<[511%nat := 66]> (<[510%nat := 65]> (replicate 512 0))) (2 ^ 32 - 2) 0 true true.
Definition kp : kstate :=
  set_pipes (<[dD := dpipe]>) (set_cur (fun _ => Some 1%nat) (set_proc (alter (set_p_pagetable dR) 1%nat) ks)).

Lemma dpipe_ok : pipe_ok dpipe.
Proof. split; vm_compute; (reflexivity || discriminate || split; discriminate || done). Qed.

Lemma kp_root : p_pagetable (proc_of kp 1) = dR.
Proof. vm_compute. reflexivity. Qed.

Lemma kp_ubytes : ubytes (k_mem kp) dR 0 (replicate 5 0).
Proof.
  intros i b Hb. apply lookup_replicate in Hb as [-> Hi].
  do 5 (destruct i as [|i]; [vm_compute; reflexivity|]). lia.
Qed.

Lemma pipewrite_appends_witness : exists x', pq x' = [65; 66; 0; 0; 0; 0; 0] /\
  pipewrite dD 0 5 kp = Ret 5 (set_proc (imap (woken (Ch_pipe_nread dD) (Some 1%nat))) (with_pipe dD x' kp)).
Proof.
  destruct (pipewrite_appends 1 dD dpipe 0 (replicate 5 0) dT kp) as (x' & _ & Hq & E).
  - reflexivity.
  - reflexivity.
  - vm_compute. reflexivity.
  - apply lookup_insert_eq.
  - apply dpipe_ok.
  - reflexivity.
  - vm_compute. reflexivity.
  - vm_compute. discriminate.
  - done.
  - rewrite kp_root. exact d_wf.
  - rewrite kp_root. exact kp_ubytes.
  - exists x'. split; [exact Hq|exact E].
Defined.

Lemma piperead_takes_witness : exists x' m', pq x' = [66] /\
  piperead dD 100 1 kp = Ret 1 (set_proc (imap (woken (Ch_pipe_nwrite dD) (Some 1%nat)))
                                 (with_pipe dD x' (upd kp m' (k_freelist kp)))).
Proof.
  destruct (piperead_takes 1 dD dpipe 100 1 dT dfl dL kp) as (x' & m' & _ & Hq & _ & E).
  - reflexivity.
  - reflexivity.
  - vm_compute. reflexivity.
  - apply lookup_insert_eq.
  - apply dpipe_ok.
  - left. vm_compute. discriminate.
  - vm_compute. repeat constructor; discriminate.
  - done.
  - rewrite kp_root. exact d_user.
  - rewrite kp_root. exact d_complete.
  - rewrite kp_root. intros i Hi. destruct i as [|i]; [vm_compute; discriminate|vm_compute in Hi; lia].
  - exists x', m'. split; [exact Hq|exact E].
Defined.
