(* ===== verification/ConsoleSpec.v ===== *)
(** * The console is a line editor

    [cq] is the input that is ready for consoleread, [cl] the line being typed.
    consoleintr edits the line and hands it over at a newline, an end-of-file mark
    or a full buffer; consoleread takes from the front. *)
From S2P Require Import Prelude Memory State Kalloc PageTable Vm VmSpec UserMem UserCopy VmTheorems VmWitness Sched SchedSpec Uart Printf Console Pipe PipeSpec.

(** ** The ring buffer *)
Definition cseg (c : console) (i : Z) (n : nat) : list Z := map (fun k => cn_at c (i + Z.of_nat k)) (seq 0 n).
Definition cq (c : console) : list Z := cseg c (cn_r c) (Z.to_nat (u32 (cn_w c - cn_r c))).
Definition cl (c : console) : list Z := cseg c (cn_w c) (Z.to_nat (u32 (cn_e c - cn_w c))).

Record cons_ok (c : console) : Prop := {
  co_len : length (cn_buf c) = 128%nat;
  co_r : 0 <= cn_r c < 2 ^ 32;
  co_w : 0 <= cn_w c < 2 ^ 32;
  co_e : 0 <= cn_e c < 2 ^ 32;
  co_n : u32 (cn_w c - cn_r c) + u32 (cn_e c - cn_w c) <= 128;
  co_nonl : Forall (fun b => b <> 10) (cl c)
}.

Lemma cslot_wrap i : cslot (u32 i) = cslot i.
Proof. unfold cslot, INPUT_BUF, u32, wrap. f_equal. change (2 ^ 32) with 4294967296. zmod. Qed.
Lemma cn_at_wrap c i : cn_at c (u32 i) = cn_at c i.
Proof. unfold cn_at. by rewrite cslot_wrap. Qed.
Lemma length_cseg c i n : length (cseg c i n) = n.
Proof. unfold cseg. by rewrite length_map, length_seq. Qed.
Lemma cseg_lookup c i n k : (k < n)%nat -> cseg c i n !! k = Some (cn_at c (i + Z.of_nat k)).
Proof. intros Hk. unfold cseg. rewrite list_lookup_fmap, lookup_seq_lt by done. done. Qed.
Lemma cseg_ext c c' i j n : (forall k, (k < n)%nat -> cn_at c' (j + Z.of_nat k) = cn_at c (i + Z.of_nat k)) -> cseg c' j n = cseg c i n.
Proof. intros H. unfold cseg. apply map_ext_in. intros k Hk%in_seq. apply H. lia. Qed.
Lemma cseg_app c i n1 n2 : cseg c i (n1 + n2) = cseg c i n1 ++ cseg c (i + Z.of_nat n1) n2.
Proof.
  apply list_eq. intros k. destruct (decide (k < n1 + n2)%nat) as [Hk|Hk]; [|rewrite !(proj2 (lookup_ge_None _ _)); [done|rewrite length_app, !length_cseg; lia|rewrite length_cseg; lia]].
  rewrite cseg_lookup by done. destruct (decide (k < n1)%nat) as [H1|H1]; [by rewrite lookup_app_l, cseg_lookup by (rewrite ?length_cseg; lia)|].
  rewrite lookup_app_r, cseg_lookup by (rewrite ?length_cseg; lia). rewrite length_cseg. do 2 f_equal. lia.
Qed.
Lemma u32_mod i : u32 i = i mod 4294967296.
Proof. done. Qed.


Definition cpop (c : console) : console := set_cn_r (u32 (cn_r c + 1)) c.

(** The lengths as integers. *)
Lemma lens c : Z.of_nat (length (cq c)) = u32 (cn_w c - cn_r c) /\ Z.of_nat (length (cl c)) = u32 (cn_e c - cn_w c).
Proof. unfold cq, cl. rewrite !length_cseg, !u32_mod. pose proof (Z.mod_pos_bound (cn_w c - cn_r c) 4294967296). pose proof (Z.mod_pos_bound (cn_e c - cn_w c) 4294967296). lia. Qed.

Ltac cmod := rewrite ?u32_mod in *; change (2 ^ 32) with 4294967296 in *; zmod.



Lemma cpop_view c : cons_ok c -> cq c <> [] -> exists b, cn_at c (cn_r c) = b /\ cq c = b :: cq (cpop c) /\ cl (cpop c) = cl c /\ cons_ok (cpop c).
Proof.
  intros Hok Hne. exists (cn_at c (cn_r c)). split; [done|]. destruct (lens c) as [L1 L2]. assert (Hlen : (0 < length (cq c))%nat) by (destruct (cq c); [done|cbn; lia]).
  assert (En : Z.to_nat (u32 (cn_w c - cn_r c)) = (1 + Z.to_nat (u32 (cn_w c - u32 (cn_r c + 1))))%nat) by (assert (H0 : 0 < u32 (cn_w c - cn_r c)) by lia; destruct Hok as [_ Hr Hw He Hn _]; clear L1 L2 Hlen Hne; cmod).
  assert (Eq : cq c = cn_at c (cn_r c) :: cq (cpop c)).
  { unfold cq at 1. rewrite En, cseg_app. unfold cseg at 1. cbn [seq map app]. rewrite Z.add_0_r. f_equal. unfold cq. cbn [cpop set_cn_r cn_w cn_r]. symmetry. apply cseg_ext. intros k Hk.
    change (cn_at (cpop c)) with (cn_at c). rewrite <- (cn_at_wrap _ (u32 _ + _)), <- (cn_at_wrap _ (cn_r c + _ + _)). f_equal. cmod. }
  split_and!; [done|done|]. pose proof (lens (cpop c)) as [L3 L4]. pose proof (f_equal length Eq) as El. cbn [length] in El. constructor; [apply Hok| |apply Hok|apply Hok| |apply Hok].
  - cbn. cmod.
  - rewrite <- L3, <- L4. change (cl (cpop c)) with (cl c). pose proof (co_n _ Hok). lia.
Qed.
Lemma cq_empty c : cons_ok c -> (cn_r c =? cn_w c) = bool_decide (cq c = []).
Proof.
  intros Hok. destruct (lens c) as [L1 _]. apply eq_true_iff_eq. rewrite Z.eqb_eq, bool_decide_eq_true. rewrite <- length_zero_iff_nil. destruct Hok as [_ Hr Hw He _ _]. split; intros H; [rewrite H, Z.sub_diag in L1; change (u32 0) with 0 in L1; lia|].
  rewrite H in L1. cmod.
Qed.

(** ** The echo *)
Section Echo.
Context `{KI : KernelImage} {R : kstate -> kstate -> Prop} {C : kstate -> Prop}.









Lemma release_cons Q s : k_held s = [] -> Q tt s -> wpc R C (release L_cons) Q (set_held (cons L_cons) s).
Proof.
  intros Hh HQ. eapply wp_release_last; [cbn; by rewrite Hh|apply not_elem_of_nil|]. replace (set_held _ _) with s; [done|]. clear - Hh. by destruct s; cbn in *; subst.
Qed.


End Echo.



Section Burst.
Context `{KI : KernelImage} {R : kstate -> kstate -> Prop} {C : kstate -> Prop}.





End Burst.

(** ** Reading *)
(** What a read of [n] bytes delivers and leaves of the ready input; [None] when
    it has to wait.  An end-of-file mark ends the read, and is left for the next
    one unless it comes first. *)
Fixpoint reads (first : bool) (n : nat) (q : list Z) : option (list Z * list Z) :=
  match n, q with
  | O, _ => Some ([], q)
  | S _, [] => None
  | S n', b :: q' =>
      if b =? ctrl 68 then Some ([], if first then q' else q)
      else if b =? 10 then Some ([b], q')
      else match reads false n' q' with Some (bs, r) => Some (b :: bs, r) | None => None end
  end.

Lemma reads_length n : forall f q bs q', reads f n q = Some (bs, q') -> (length bs <= n)%nat.
Proof.
  induction n as [|n IH]; intros f q bs q'; cbn [reads]; [by intros [= <- _]|]. destruct q as [|b q]; [done|]. destruct (b =? ctrl 68); [intros [= <- _]; cbn; lia|]. destruct (b =? 10); [intros [= <- _]; cbn; lia|].
  destruct (reads false n q) as [[bs1 r1]|] eqn:E; [|done]. intros [= <- _]. apply IH in E. cbn. lia.
Qed.

Section Reading.
Context `{KI : KernelImage} `{KOK : !KernelImageOk} {R : kstate -> kstate -> Prop} {C : kstate -> Prop}.

Lemma wp_cons_wait Q s : cons_ok (k_cons s) -> cq (k_cons s) <> [] -> Q true s -> wpc R C cons_wait Q s.
Proof.
  intros Hok Hq HQ. unfold cons_wait. apply (wp_loop _ (fun _ s' => s' = s) (fun _ _ => 0)); [|done|lia].
  intros _ s' ->. unfold getc. wp_step. wp_step. rewrite cq_empty, bool_decide_eq_false_2 by done. by wp_step.
Qed.

Lemma cpop_back c : cons_ok c -> set_cn_r (u32 (cn_r (cpop c) - 1)) (cpop c) = c.
Proof.
  intros [_ Hr _ _ _ _]. destruct c as [cb r w e]. unfold cpop, set_cn_r. cbn in *. f_equal. cmod.
Qed.

(** One byte handed to the user. *)
Lemma wp_put1 p root T fl L va b Q s : k_cur s = Some p -> p_pagetable (proc_of s p) = root ->
  user_inv (k_mem s) (k_freelist s) root T fl L -> complete (k_mem s) root L -> 0 <= va -> ubyte (k_mem s) root va <> None -> 0 <= b < 256 ->
  (forall m', wrote (k_mem s) (k_freelist s) root T fl L va [b] 1 m' -> Q 0 (upd s m' (k_freelist s))) -> wpc R C (either_copyout (DUser va) [b]) Q s.
Proof.
  intros Hc Hr Hi HU Hv Hu Hb HQ. unfold either_copyout. wp_step. apply (wp_curproc p); [done|]. unfold getp. wp_step. wp_step. rewrite Hr. by apply (wp_copyout1 root T fl L).
Qed.

(** The console becomes [c]. *)
Definition with_c (c : console) (s : kstate) : kstate := set_cons (fun _ => c) s.

Lemma wp_consoleread p addr n T fl L bs q' Q s :
  k_cur s = Some p -> k_held s = [] -> cons_ok (k_cons s) -> 0 <= addr -> 0 <= n < 2 ^ 31 ->
  reads true (Z.to_nat n) (cq (k_cons s)) = Some (bs, q') ->
  Forall (fun b => 0 <= b < 256) (cq (k_cons s)) ->
  user_inv (k_mem s) (k_freelist s) (p_pagetable (proc_of s p)) T fl L -> complete (k_mem s) (p_pagetable (proc_of s p)) L ->
  (forall i, (i < length bs)%nat -> ubyte (k_mem s) (p_pagetable (proc_of s p)) (addr + Z.of_nat i) <> None) ->
  (forall c' m', cons_ok c' -> cq c' = q' -> cl c' = cl (k_cons s) ->
    wrote (k_mem s) (k_freelist s) (p_pagetable (proc_of s p)) T fl L addr bs (length bs) m' ->
    Q (Z.of_nat (length bs)) (with_c c' (upd s m' (k_freelist s)))) ->
  wpc R C (consoleread (DUser addr) n) Q s.
Proof.
  intros Hc Hh Hok Ha Hn Hrd Hby Hi HU Hu HQ. unfold consoleread. rewrite (u32_small n) by lia. wp_step. apply wp_acquire; [rewrite Hh; apply not_elem_of_nil|]. apply wp_bind.
  set (s0 := set_held (cons L_cons) s). set (root := p_pagetable (proc_of s p)) in *.
  apply (wp_loop _ (fun x s' => exists j c1 m' rest, (j <= length bs)%nat /\ x = (n - Z.of_nat j, DUser (addr + Z.of_nat j)) /\ Z.of_nat j <= n /\ cons_ok c1 /\ cl c1 = cl (k_cons s) /\
      Forall (fun b => 0 <= b < 256) (cq c1) /\ bs = take j bs ++ rest /\ reads (j =? 0)%nat (Z.to_nat (n - Z.of_nat j)) (cq c1) = Some (rest, q') /\
      wrote (k_mem s) (k_freelist s) root T fl L addr bs j m' /\ s' = with_c c1 (upd s0 m' (k_freelist s))) (fun x _ => x.1)).
  - intros x s' (j & c1 & m' & rest & Hj & -> & Hjn & Hok1 & Hcl & Hby1 & Ebs & Hr & Hw & ->). unfold consoleread_round.
    assert (Hfin : forall k c' m'', k = n - Z.of_nat (length bs) -> cons_ok c' -> cq c' = q' -> cl c' = cl (k_cons s) -> wrote (k_mem s) (k_freelist s) root T fl L addr bs (length bs) m'' ->
      wpc R C (release L_cons;;; ret (s32 (n - k))) Q (with_c c' (upd s0 m'' (k_freelist s)))).
    { intros k c' m'' -> F1 F2 F3 F4. wp_step. change (with_c c' (upd s0 m'' (k_freelist s))) with (set_held (cons L_cons) (with_c c' (upd s m'' (k_freelist s)))). apply release_cons; [done|]. wp_step.
      pose proof (reads_length _ _ _ _ _ Hrd). replace (n - (n - Z.of_nat (length bs))) with (Z.of_nat (length bs)) by lia. rewrite s32_small by lia. by apply HQ. }
    assert (Hend : rest = [] -> j = length bs) by (intros ->; apply (f_equal length) in Ebs; rewrite app_nil_r, length_take in Ebs; lia).
    destruct (Z.ltb_spec 0 (n - Z.of_nat j)) as [Hlt|Hge].
    2: { wp_step. replace (Z.to_nat (n - Z.of_nat j)) with 0%nat in Hr by lia. cbn [reads] in Hr. injection Hr as Er Eq. subst rest. pose proof (Hend eq_refl) as Ej. subst j. by apply Hfin. }
    replace (Z.to_nat (n - Z.of_nat j)) with (S (Z.to_nat (n - Z.of_nat j - 1))) in Hr by lia. cbn [reads] in Hr. destruct (cq c1) as [|b q1] eqn:Eq1; [discriminate Hr|].
    destruct (cpop_view c1 Hok1 ltac:(by rewrite Eq1)) as (b' & Eb & V1 & V2 & V3). rewrite Eq1 in V1. injection V1 as <- Vq. apply Forall_cons in Hby1 as [Hb Hby1].
    wp_step. apply wp_cons_wait; [done|change (cq c1 <> []); rewrite Eq1; discriminate|]. cbn [negb]. unfold getc. wp_step. wp_step. change (k_cons (with_c c1 _)) with c1. rewrite Eb. unfold modc. wp_step. wp_step.
    change (set_cons (set_cn_r (u32 (cn_r c1 + 1))) (with_c c1 (upd s0 m' (k_freelist s)))) with (with_c (cpop c1) (upd s0 m' (k_freelist s))).
    destruct (b =? ctrl 68) eqn:ED.
    { injection Hr as Er Eq. subst rest. pose proof (Hend eq_refl) as Ej. rewrite u32_small by lia. wp_step. apply wp_when; intros E.
      - wp_step. wp_step. apply Z.ltb_lt in E. destruct (Nat.eqb_spec j 0) as [E0|E0]; [lia|].
        change (set_cons _ (with_c (cpop c1) (upd s0 m' (k_freelist s)))) with (with_c (set_cn_r (u32 (cn_r (cpop c1) - 1)) (cpop c1)) (upd s0 m' (k_freelist s))). rewrite cpop_back by done. subst j. apply Hfin; [done|done|congruence|done|done].
      - wp_step. apply Z.ltb_ge in E. assert (E0 : j = 0%nat) by lia. rewrite E0 in Eq. cbn in Eq. subst j. apply Hfin; [done|done|congruence|congruence|done]. }
    assert (Hrest : exists rest', rest = b :: rest' /\ (b =? 10 = true -> rest' = [] /\ q1 = q') /\ (b =? 10 = false -> reads false (Z.to_nat (n - Z.of_nat j - 1)) q1 = Some (rest', q'))).
    { destruct (b =? 10); [injection Hr as <- <-; by exists []|]. destruct (reads false _ q1) as [[bs1 r1]|] eqn:E1; [|discriminate Hr]. injection Hr as <- <-. by exists bs1. }
    destruct Hrest as (rest' & -> & Hnl & Hgo). assert (Htk : length (take j bs) = j) by (rewrite length_take; lia).
    assert (Hbj : bs !! j = Some b) by (rewrite Ebs, lookup_app_r, Htk, Nat.sub_diag by lia; done). assert (Hlen : (S j <= length bs)%nat) by (apply lookup_lt_Some in Hbj; lia).
    assert (Htk' : bs = take (S j) bs ++ rest') by (rewrite (take_S_r _ _ _ Hbj), <- app_assoc; exact Ebs).
    assert (Hub : ubyte m' root (addr + Z.of_nat j) <> None) by (rewrite (wr_byte _ _ _ _ _ _ _ _ _ _ Hw), decide_False by lia; by apply Hu).
    assert (Hva : addr + Z.of_nat j < MAXVA) by (apply (uaddr_max m' root); intros E; unfold ubyte in Hub; by rewrite E in Hub).
    wp_step. apply (wp_put1 p root T fl L); [done|done|apply Hw| |lia|done|done|].
    { intros v Hv Hnz. apply HU; [done|]. unfold uaddr in *. by rewrite (wr_pte _ _ _ _ _ _ _ _ _ _ Hw) in Hnz. }
    intros m'' Hw'. change (0 =? -1) with false. cbv iota. assert (Hw2 : wrote (k_mem s) (k_freelist s) root T fl L addr bs (S j) m'') by (eapply wrote_snoc; [done|exact Hbj|exact Hw|exact Hw']).
    change (upd (with_c (cpop c1) (upd s0 m' (k_freelist s))) m'' _) with (with_c (cpop c1) (upd s0 m'' (k_freelist s))).
    destruct (b =? 10) eqn:EN.
    + destruct (Hnl eq_refl) as [-> ->]. wp_step. apply (f_equal length) in Htk' as EL. rewrite app_nil_r, length_take in EL. assert (Ej : length bs = S j) by lia. apply Hfin; [lia|done|congruence|congruence|by rewrite Ej].
    + wp_step. split; [|cbn [fst]; lia]. exists (S j), (cpop c1), m'', rest'. split_and!; try done; [|lia|by rewrite <- Vq|].
      * unfold dst_add. rewrite u64_small by (unfold MAXVA in Hva; lia). f_equal; [lia|]. f_equal. lia.
      * rewrite <- Vq. replace (n - Z.of_nat (S j)) with (n - Z.of_nat j - 1) by lia. by apply Hgo.
  - exists 0%nat, (k_cons s), (k_mem s), bs. cbn [take app]. rewrite Z.sub_0_r, Z.add_0_r. split_and!; try done; [lia|lia|].
    split; try done. intros va Hva. by rewrite decide_False by lia.
  - cbn. lia.
Qed.
End Reading.

(** ** What the interrupt handler and the read guarantee *)
Section ConsoleTheorems.
Context `{KI : KernelImage} `{KOK : !KernelImageOk}.


(** C20: consoleread of ready input returns the number of bytes [reads] delivers:
    at most [n], up to and including the first newline, ending before an
    end-of-file mark, which is taken when it comes first (so the read returns 0)
    and left for the next read otherwise.  The bytes are at the user's address,
    in order, the rest of the input and the line being edited stay, and no other
    user byte, page table or free page changes. *)
Theorem consoleread_takes p addr n T fl L bs q' s :
  k_cur s = Some p -> k_held s = [] -> cons_ok (k_cons s) -> 0 <= addr -> 0 <= n < 2 ^ 31 ->
  reads true (Z.to_nat n) (cq (k_cons s)) = Some (bs, q') ->
  Forall (fun b => 0 <= b < 256) (cq (k_cons s)) ->
  user_inv (k_mem s) (k_freelist s) (p_pagetable (proc_of s p)) T fl L -> complete (k_mem s) (p_pagetable (proc_of s p)) L ->
  (forall i, (i < length bs)%nat -> ubyte (k_mem s) (p_pagetable (proc_of s p)) (addr + Z.of_nat i) <> None) ->
  exists c' m', cons_ok c' /\ cq c' = q' /\ cl c' = cl (k_cons s) /\
    wrote (k_mem s) (k_freelist s) (p_pagetable (proc_of s p)) T fl L addr bs (length bs) m' /\
    consoleread (DUser addr) n s = Ret (Z.of_nat (length bs)) (with_c c' (upd s m' (k_freelist s))).
Proof.
  intros H1 H2 H3 H4 H5 H6 H7 H8 H9 H10.
  destruct (wp_elim (consoleread (DUser addr) n) (fun r s' => exists c' m', cons_ok c' /\ cq c' = q' /\ cl c' = cl (k_cons s) /\
    wrote (k_mem s) (k_freelist s) (p_pagetable (proc_of s p)) T fl L addr bs (length bs) m' /\
    r = Z.of_nat (length bs) /\ s' = with_c c' (upd s m' (k_freelist s))) s) as (r & s' & E & c' & m' & F1 & F2 & F3 & F4 & -> & ->); [|by exists c', m'].
  apply (wp_consoleread p addr n T fl L bs q'); try done. intros c' m' F1 F2 F3 F4. by exists c', m'.
Qed.
End ConsoleTheorems.

(** ** A terminal whose counters are about to wrap *)
#[local] Existing Instance demo_image.
#[local] Existing Instance demo_image_ok.

(** The line "hi" ready, an "a" typed after it; then the user rubs the "a" out
    and types "b" and Enter. *)
Definition dcons : console :=
  mkCons (<[0%nat := 97]> (<[127%nat := 10]> (<[126%nat := 105]> (<[125%nat := 104]> (replicate 128 0))))) (2 ^ 32 - 3) 0 1.
Definition duart : uart := mkUart (replicate 32 0) 7 7 [] [127; 98; 13] [true; false; true].
Definition kc : kstate :=
  set_uart (fun _ => duart) (set_cons (fun _ => dcons) (set_cur (fun _ => Some 1%nat) (set_proc (alter (set_p_pagetable dR) 1%nat) ks))).

Lemma dcons_ok : cons_ok dcons.
Proof. split; vm_compute; (reflexivity || discriminate || (split; (reflexivity || discriminate)) || (repeat constructor; discriminate)). Qed.
Lemma kc_root : p_pagetable (proc_of kc 1) = dR.
Proof. vm_compute. reflexivity. Qed.


Lemma consoleread_takes_witness : exists c' m', cq c' = [] /\ cl c' = [97] /\
  consoleread (DUser 100) 64 kc = Ret 3 (with_c c' (upd kc m' (k_freelist kc))).
Proof.
  destruct (consoleread_takes 1 100 64 dT dfl dL [104; 105; 10] [] kc) as (c' & m' & _ & H1 & H2 & _ & E).
  - reflexivity.
  - reflexivity.
  - exact dcons_ok.
  - done.
  - done.
  - vm_compute. reflexivity.
  - vm_compute. repeat constructor; discriminate.
  - rewrite kc_root. exact d_user.
  - rewrite kc_root. exact d_complete.
  - rewrite kc_root. intros i Hi. do 3 (destruct i as [|i]; [vm_compute; discriminate|]). cbn in Hi. lia.
  - exists c', m'. split_and!; [exact H1|exact H2|exact E].
Defined.
