(* ===== verification/MmapSpec.v ===== *)
(** * Memory-mapped files: what sys_mmap and vma_unmap do to a process's areas

    [vmas_ok sz l] is the layout the page-fault handler, fork and exit rely on:
    the areas in use are page aligned, lie between the heap and the trapframe and
    do not overlap. *)
From S2P Require Import Prelude Fcntl Memory State Kalloc PageTable Vm VmSpec UserMem UserCopy Sched SchedSpec Sleeplock Virtio VirtioSpec Bio BioSpec Codec Log LogSpec LogCrash Txn Fs Pipe File Trapframe Proc Syscall Sysfile FsSpec FsAlloc FsInode.

Record vma_fits (sz : Z) (v : vma) : Prop := {
  vf_addr : v_addr v mod PGSIZE = 0;
  vf_len : v_length v mod PGSIZE = 0;
  vf_pos : 0 < v_length v;
  vf_low : PGROUNDUP sz <= v_addr v;
  vf_high : v_addr v + v_length v <= TRAPFRAME
}.

Definition vma_apart (v w : vma) : Prop :=
  v_addr v + v_length v <= v_addr w \/ v_addr w + v_length w <= v_addr v.

Record vmas_ok (sz : Z) (l : list vma) : Prop := {
  vo_len : length l = NVMA;
  vo_fit i v : l !! i = Some v -> v_used v = true -> vma_fits sz v;
  vo_apart i j v w : l !! i = Some v -> l !! j = Some w -> v_used v = true -> v_used w = true -> i <> j ->
    vma_apart v w
}.

(** ** The lowest area *)
Lemma lowest_vma_spec sz l : (forall v, v ∈ l -> v_used v = true -> vma_fits sz v) -> PGROUNDUP sz <= TRAPFRAME ->
  let lo := lowest_vma l in
  lo mod PGSIZE = 0 /\ PGROUNDUP sz <= lo <= TRAPFRAME /\ (forall v, v ∈ l -> v_used v = true -> lo <= v_addr v).
Proof.
  intros Hf Hsz. unfold lowest_vma.
  assert (G : forall l a, (forall v, v ∈ l -> v_used v = true -> vma_fits sz v) ->
    a mod PGSIZE = 0 -> PGROUNDUP sz <= a <= TRAPFRAME ->
    let lo := fold_left (fun lowest v => if v_used v && (v_addr v <? lowest) then v_addr v else lowest) l a in
    lo mod PGSIZE = 0 /\ PGROUNDUP sz <= lo <= TRAPFRAME /\ lo <= a /\ (forall v, v ∈ l -> v_used v = true -> lo <= v_addr v)).
  { clear. induction l as [|v l IH]; intros a Hf Ha Hr.
    - cbn. split_and!; [done|lia|lia|lia|]. intros v Hv. by apply not_elem_of_nil in Hv.
    - cbn [fold_left]. set (a' := if v_used v && (v_addr v <? a) then v_addr v else a).
      assert (Ha' : a' mod PGSIZE = 0 /\ PGROUNDUP sz <= a' <= TRAPFRAME /\ a' <= a /\ (v_used v = true -> a' <= v_addr v)).
      { unfold a'. destruct (v_used v) eqn:Eu; cbn [andb]; [|split_and!; done || lia].
        destruct (Hf v ltac:(left) Eu). destruct (Z.ltb_spec (v_addr v) a); split_and!; done || lia. }
      destruct Ha' as (H1 & H2 & H3 & H4).
      destruct (IH a') as (G1 & G2 & G3 & G4); [intros w Hw; apply Hf; by right|done|done|].
      split_and!; [done|lia|lia|lia|]. intros w [->|Hw]%elem_of_cons Hu; [specialize (H4 Hu); lia|by apply G4]. }
  destruct (G l TRAPFRAME Hf ltac:(done) ltac:(lia)) as (G1 & G2 & _ & G4). done.
Qed.

(** A new area under all others keeps the layout. *)
Lemma vmas_ok_insert sz l i v :
  vmas_ok sz l -> (i < length l)%nat -> vma_fits sz v ->
  (forall w, w ∈ l -> v_used w = true -> v_addr v + v_length v <= v_addr w) ->
  vmas_ok sz (<[i := v]> l).
Proof.
  intros [H1 H2 H3] Hi Hf Hlo. split; [by rewrite length_insert| |].
  - intros j w. rewrite list_lookup_insert_Some. intros [(-> & -> & _)|[_ Hj]]; [done|by eapply H2].
  - intros j k w x. rewrite !list_lookup_insert_Some.
    intros [(-> & -> & _)|[Hj1 Hj2]] [(-> & -> & _)|[Hk1 Hk2]] Hw Hx Hne; [done| | |by eapply H3].
    + left. apply Hlo; [by eapply list_elem_of_lookup_2|done].
    + right. apply Hlo; [by eapply list_elem_of_lookup_2|done].
Qed.

(** An area that shrinks keeps the layout. *)
Lemma vmas_ok_shrink sz l i v w :
  vmas_ok sz l -> l !! i = Some v -> v_used v = true ->
  (v_used w = true -> vma_fits sz w /\ v_addr v <= v_addr w /\ v_addr w + v_length w <= v_addr v + v_length v) ->
  vmas_ok sz (<[i := w]> l).
Proof.
  intros [H1 H2 H3] Hi Hu Hw. split; [by rewrite length_insert| |].
  - intros j x. rewrite list_lookup_insert_Some. intros [(-> & -> & _)|[_ Hj]]; [by intros [? _]%Hw|by eapply H2].
  - intros j k x y. rewrite !list_lookup_insert_Some.
    intros [(-> & -> & _)|[Hj1 Hj2]] [(-> & -> & _)|[Hk1 Hk2]] Hx Hy Hne; [done| | |by eapply H3].
    + destruct (Hw Hx) as (_ & ? & ?). destruct (H3 _ _ _ _ Hi Hk2 Hu Hy Hne); unfold vma_apart; lia.
    + destruct (Hw Hy) as (_ & ? & ?). destruct (H3 _ _ _ _ Hi Hj2 Hu Hx (not_eq_sym Hne)); unfold vma_apart; lia.
Qed.

Section MmapSpec.
Context `{KI : KernelImage} `{KOK : !KernelImageOk} {R : kstate -> kstate -> Prop} {C : kstate -> Prop}.

(** Argument [n] of the system call of process [p]. *)
Definition sysarg (s : kstate) (p : nat) (n : Z) : Z := ld64 (k_mem s) (p_trapframe (proc_of s p) + (TF_a0 + 8 * n)).

Lemma wp_argraw p n Q s : k_cur s = Some p -> 0 <= n <= 5 -> Q (sysarg s p n) s -> wpc R C (argraw n) Q s.
Proof.
  intros Hc Hn HQ. unfold argraw. wp_step. apply (wp_curproc p); [done|].
  rewrite (proj2 (Z.leb_le 0 n)), (proj2 (Z.leb_le n 5)) by lia. unfold tf_get, getp, ld. cbn [andb]. by wp_steps.
Qed.

Lemma wp_argaddr p n Q s : k_cur s = Some p -> 0 <= n <= 5 -> Q (sysarg s p n) s -> wpc R C (argaddr n) Q s.
Proof. apply wp_argraw. Qed.

Lemma wp_argint p n Q s : k_cur s = Some p -> 0 <= n <= 5 -> Q (s32 (sysarg s p n)) s -> wpc R C (argint n) Q s.
Proof. intros Hc Hn HQ. unfold argint. wp_step. apply (wp_argraw p); [done..|]. by wp_step. Qed.

(** The open file descriptor argument [n] names. *)
Definition arg_file (s : kstate) (p : nat) (n : Z) : option nat :=
  let fd := s32 (sysarg s p n) in
  if (fd <? 0) || (Z.of_nat NOFILE <=? fd) then None else default None (p_ofile (proc_of s p) !! Z.to_nat fd).

Lemma wp_argfd p n Q s :
  k_cur s = Some p -> 0 <= n <= 5 ->
  Q ((fun f => (Z.to_nat (s32 (sysarg s p n)), f)) <$> arg_file s p n) s -> wpc R C (argfd n) Q s.
Proof.
  intros Hc Hn HQ. unfold argfd. wp_step. apply (wp_argint p); [done..|]. unfold arg_file in HQ.
  destruct (_ || _); [by wp_step|]. wp_step. apply (wp_curproc p); [done|]. unfold getp. wp_step. wp_step.
  destruct (default None _); by wp_step.
Qed.

Lemma wp_filedup f Q s :
  L_ftable ∉ k_held s -> 1 <= f_ref (file_of s f) < 2 ^ 31 - 1 ->
  Q f (set_ftable (alter (set_f_ref (f_ref (file_of s f) + 1)) f) s) -> wpc R C (filedup f) Q s.
Proof.
  intros Hh Hr HQ. unfold filedup. wp_step. apply wp_acquire; [done|]. unfold getf, modf.
  do 2 wp_step. change (file_of (set_held _ s) f) with (file_of s f).
  rewrite (proj2 (Z.ltb_ge _ _)) by lia. do 3 wp_step.
  eapply wp_release_last; [done|done|]. wp_step. rewrite s32_small by lia. by destruct s.
Qed.

(** ** sys_mmap *)

(** The area a request for [len] bytes gets, if there is a free slot and room. *)
Definition mmap_slot (pr : proc) (len : Z) : option (nat * Z) :=
  let lowest := lowest_vma (p_vmas pr) in
  match find_vma (fun v => negb (v_used v)) pr with
  | None => None
  | Some i => if (lowest <? len) || (lowest - len <? PGROUNDUP (p_sz pr)) then None else Some (i, lowest - len)
  end.

Lemma mmap_slot_ok pr len prot flags f off i a :
  vmas_ok (p_sz pr) (p_vmas pr) -> PGROUNDUP (p_sz pr) <= TRAPFRAME -> 0 < len -> len mod PGSIZE = 0 ->
  mmap_slot pr len = Some (i, a) ->
  (exists v, p_vmas pr !! i = Some v /\ v_used v = false) /\
  vmas_ok (p_sz pr) (<[i := mkVma true a len prot flags f off]> (p_vmas pr)).
Proof.
  intros Hok Hsz Hl Hm. unfold mmap_slot, find_vma.
  destruct (list_find _ (p_vmas pr)) as [[j v]|] eqn:Ef; [|done]. cbn [fmap option_fmap option_map fst].
  apply list_find_Some in Ef as (Hj & Hu & _). apply negb_true_iff in Hu.
  destruct (lowest_vma_spec (p_sz pr) (p_vmas pr)) as (L1 & L2 & L3); [|done|].
  { intros w [k Hk]%list_elem_of_lookup. by eapply vo_fit. }
  set (lo := lowest_vma (p_vmas pr)) in *.
  destruct (Z.ltb_spec lo len); [done|]. destruct (Z.ltb_spec (lo - len) (PGROUNDUP (p_sz pr))); [done|].
  cbn [orb]. intros [= <- <-]. split; [by exists v|].
  apply vmas_ok_insert; [done|by eapply lookup_lt_Some| |].
  - split; cbn [v_addr v_length]; [|done|done|lia|lia]. unfold PGSIZE in *. zmod.
  - intros w Hw Hwu. cbn [v_addr v_length]. specialize (L3 w Hw Hwu). lia.
Qed.

(** What sys_mmap leaves behind when it succeeds. *)
Definition mmapped (p i f : nat) (v : vma) (s : kstate) : kstate :=
  set_ftable (alter (set_f_ref (f_ref (file_of s f) + 1)) f)
    (set_proc (alter (fun pr => set_p_vmas (<[i := v]> (p_vmas pr)) pr) p) s).

Lemma alter2_vma p i (g h : vma -> vma) v s :
  p_vmas (proc_of s p) !! i = Some v -> (p < length (k_proc s))%nat ->
  forall t, k_proc t = k_proc s ->
  alter (fun pr => set_p_vmas (alter h i (p_vmas pr)) pr) p (alter (fun pr => set_p_vmas (alter g i (p_vmas pr)) pr) p (k_proc t)) =
  alter (fun pr => set_p_vmas (<[i := h (g v)]> (p_vmas pr)) pr) p (k_proc s).
Proof.
  intros Hv Hp t ->. destruct (lookup_lt_is_Some_2 _ _ Hp) as [pr Hpr].
  unfold proc_of in Hv. rewrite Hpr in Hv. cbn in Hv.
  apply list_eq. intros k. destruct (decide (k = p)) as [->|]; [|by rewrite !list_lookup_alter_ne by done].
  rewrite !list_lookup_alter_eq, Hpr. cbn. f_equal. unfold set_p_vmas. cbn. f_equal.
  apply list_eq. intros k. destruct (decide (k = i)) as [->|].
  - rewrite !list_lookup_alter_eq, Hv, list_lookup_insert_eq; [done|by eapply lookup_lt_Some].
  - by rewrite !list_lookup_alter_ne, list_lookup_insert_ne by done.
Qed.

Lemma wp_sys_mmap p Q s :
  k_cur s = Some p -> k_held s = [] -> (p < length (k_proc s))%nat ->
  (forall f, arg_file s p 4 = Some f -> 1 <= f_ref (file_of s f) < 2 ^ 31 - 1) ->
  let pr := proc_of s p in let len := PGROUNDUP (sysarg s p 1) in
  let prot := s32 (sysarg s p 2) in let flags := s32 (sysarg s p 3) in
  match arg_file s p 4 with
  | None => Q (-1) s
  | Some f =>
      if mmap_bad_args (sysarg s p 0) (sysarg s p 1) prot flags (sysarg s p 5) (file_of s f) then Q (-1) s
      else match mmap_slot pr len with
           | None => Q (-1) s
           | Some (i, a) => Q a (mmapped p i f (mkVma true a len prot flags (Some f) (sysarg s p 5)) s)
           end
  end ->
  wpc R C sys_mmap Q s.
Proof.
  intros Hc Hh Hp Hf pr len prot flags. unfold sys_mmap. intros HQ.
  wp_step. apply (wp_curproc p); [done|]. wp_step. apply (wp_argaddr p); [done|lia|].
  wp_step. apply (wp_argaddr p); [done|lia|]. wp_step. apply (wp_argint p); [done|lia|].
  wp_step. apply (wp_argint p); [done|lia|]. wp_step. apply (wp_argfd p); [done|lia|].
  destruct (arg_file s p 4) as [f|] eqn:Ef; cbn [fmap option_fmap option_map]; [|by wp_step].
  wp_step. apply (wp_argaddr p); [done|lia|]. unfold getf, getp. do 2 wp_step. fold prot flags.
  destruct (mmap_bad_args _ _ _ _ _ _); [by wp_step|]. do 2 wp_step. fold pr len. unfold mmap_slot in HQ.
  destruct (find_vma _ pr) as [i|] eqn:Ei; [|by wp_step].
  destruct (_ || _); [by wp_step|]. set (a := lowest_vma (p_vmas pr) - len) in *.
  unfold modvma, modp. do 3 wp_step. unfold find_vma in Ei.
  destruct (list_find _ (p_vmas pr)) as [[j v]|] eqn:El; [|done]. cbn in Ei. injection Ei as ->.
  apply list_find_Some in El as (Hv & _).
  apply wp_filedup; [simpl; rewrite Hh; apply not_elem_of_nil|by apply Hf|]. do 3 wp_step.
  match goal with |- Q _ ?t => replace t with (mmapped p i f (mkVma true a len prot flags (Some f) (sysarg s p 5)) s); [done|] end.
  unfold mmapped, set_ftable, set_proc. cbn. f_equal.
  by rewrite (alter2_vma p i _ _ v s).
Qed.

(** ** vma_unmap *)

(** Dirty pages of [v] are written back to the file. *)
Definition writes_back (v : vma) : bool := (v_flags v =? MAP_SHARED) && has (v_prot v) PROT_WRITE.

(** The address space after the pages there were among the [n] at [va] are gone:
    they are on the free list, and no other translation has changed. *)
Record unmapped (m : mem) root T fl L (va n : Z) (m' : mem) (h' : Z) (freed : list Z) : Prop := {
  um_inv : user_inv m' h' root T (freed ++ fl) (cut L va n);
  um_freed p : p ∈ freed <-> exists i, 0 <= i < n /\ L !! (va + i * PGSIZE) = Some p;
  um_keeps : keeps T (freed ++ fl) m m';
  um_gone v : 0 <= v < MAXVA -> va <= v < va + n * PGSIZE -> has (pte_of m' root v) PTE_V = false;
  um_pte v : 0 <= v < MAXVA -> ~ (va <= v < va + n * PGSIZE) -> pte_of m' root v = pte_of m root v
}.

Lemma unmapped_0 m h root T fl L va : user_inv m h root T fl L -> unmapped m root T fl L va 0 m h [].
Proof.
  intros Hi. split; [by rewrite cut_0| |done|intros; lia|done].
  intros p. rewrite elem_of_nil. split; [done|]. intros (i & ? & _). lia.
Qed.

(** A page that was never faulted in. *)
Lemma unmapped_skip m h root T fl L va k m' h' freed :
  user_inv m h root T fl L -> va mod PGSIZE = 0 -> 0 <= k -> 0 <= va ->
  unmapped m root T fl L va k m' h' freed -> has (pte_of m' root (va + k * PGSIZE)) PTE_V = false ->
  unmapped m root T fl L va (k + 1) m' h' freed.
Proof.
  intros Hi Hal Hk Hva [U1 U2 U3 U4 U5] HV.
  assert (HL : L !! (va + k * PGSIZE) = None).
  { destruct (L !! (va + k * PGSIZE)) as [pa|] eqn:E; [|done].
    assert (Hc : cut L va k !! (va + k * PGSIZE) = Some pa) by (rewrite cut_lookup, decide_False; [done|lia]).
    by rewrite (leaf_pte_V _ _ (ui_pte _ _ _ _ _ _ U1 _ _ Hc)) in HV. }
  split; [| |done| |].
  - rewrite <- (cut_S L va k); [|done|lia|intros v q Hv; by apply (ui_va _ _ _ _ _ _ Hi v q)].
    rewrite delete_id; [done|]. rewrite cut_lookup. by case_decide.
  - intros p. rewrite U2. split; intros (i & Hi' & HLi).
    + exists i. split; [lia|done].
    + exists i. split; [|done]. destruct (Z.eq_dec i k) as [->|]; [congruence|lia].
  - intros v Hm Hv. destruct (decide (v < va + k * PGSIZE)); [apply U4; done || lia|].
    rewrite <- HV. f_equal. apply pte_of_same_page. unfold PGSIZE in *. zmod.
  - intros v Hv Hn. apply U5; [done|]. unfold PGSIZE in *. lia.
Qed.

(** A page that is there. *)
Lemma unmapped_page m h root T fl L va k m' h' freed m1 h1 freed1 :
  user_inv m h root T fl L -> va mod PGSIZE = 0 -> 0 <= k -> 0 <= va ->
  unmapped m root T fl L va k m' h' freed ->
  unmapped m' root T (freed ++ fl) (cut L va k) (va + k * PGSIZE) 1 m1 h1 freed1 ->
  unmapped m root T fl L va (k + 1) m1 h1 (freed1 ++ freed).
Proof.
  intros Hi Hal Hk Hva [U1 U2 U3 U4 U5] [V1 V2 V3 V4 V5]. split.
  - rewrite <- app_assoc. replace (cut L va (k + 1)) with (cut (cut L va k) (va + k * PGSIZE) 1); [done|].
    apply map_eq. intros v. rewrite !cut_lookup. repeat case_decide; try done; unfold PGSIZE in *; lia.
  - intros p. rewrite elem_of_app, V2, U2. split.
    + intros [(i & Hi' & HL)|(i & Hi' & HL)]; [|exists i; split; [lia|done]].
      assert (i = 0) as -> by lia. exists k. split; [lia|]. rewrite cut_lookup, Z.mul_0_l, Z.add_0_r in HL.
      by case_decide.
    + intros (i & Hi' & HL). destruct (Z.eq_dec i k) as [->|]; [left|right; exists i; split; [lia|done]].
      exists 0. split; [lia|]. by rewrite Z.mul_0_l, Z.add_0_r, cut_lookup, decide_False by lia.
  - rewrite <- app_assoc. eapply keeps_grow; [|exact U3|exact V3]. intros p [Hin|Hin]; [left|by right].
    apply elem_of_app. by right.
  - intros v Hm Hv. destruct (decide (v < va + k * PGSIZE)) as [Hlt|]; [|apply V4; unfold PGSIZE in *; done || lia].
    rewrite V5 by (done || lia). apply U4; [done|lia].
  - intros v Hv Hn. rewrite V5, U5; [done|done|unfold PGSIZE in *; lia|done|unfold PGSIZE in *; lia].
Qed.

Lemma wp_vma_unmap_pages p v root addr n T fl L (err : Z) Q s :
  p_pagetable (proc_of s p) = root ->
  user_inv (k_mem s) (k_freelist s) root T fl L -> L_kmem ∉ k_held s -> writes_back v = false ->
  addr mod PGSIZE = 0 -> 0 <= n -> 0 <= addr -> addr + n * PGSIZE <= MAXVA ->
  (forall i, 0 <= i < n -> has (pte_of (k_mem s) root (addr + i * PGSIZE)) PTE_V = true ->
     is_Some (L !! (addr + i * PGSIZE))) ->
  (forall m' h' freed, unmapped (k_mem s) root T fl L addr n m' h' freed -> Q err (upd s m' h')) ->
  wpc R C (loop (vma_unmap_page p v (addr + n * PGSIZE)) (addr, err)) Q s.
Proof.
  intros Hroot Hi Hh Hwb Hal Hn Ha Hend HL HQ.
  apply (wp_loop _ (fun x s' => exists k m' h' freed, s' = upd s m' h' /\ x = (addr + k * PGSIZE, err) /\ 0 <= k <= n /\
    unmapped (k_mem s) root T fl L addr k m' h' freed) (fun x _ => addr + n * PGSIZE - fst x)).
  2: { exists 0, (k_mem s), (k_freelist s), []. rewrite upd_id. split_and!; [done|f_equal; lia|lia|lia|by apply unmapped_0]. }
  2: { cbn [fst]. unfold MAXVA, PGSIZE in *. lia. }
  intros x s' (k & m' & h' & freed & -> & -> & Hk & Hum). unfold vma_unmap_page.
  destruct (Z.eq_dec k n) as [->|Hne].
  { rewrite (proj2 (Z.ltb_ge _ _)) by lia. wp_step. by eapply HQ. }
  set (va := addr + k * PGSIZE) in *.
  assert (Hva : 0 <= va < MAXVA) by (unfold va, PGSIZE in *; lia).
  rewrite (proj2 (Z.ltb_lt _ _)) by (unfold va, PGSIZE; lia). unfold getp. do 3 wp_step.
  change (proc_of (upd s m' h') p) with (proc_of s p). rewrite Hroot.
  apply wp_wpc. apply wp_walk_noalloc; [done|]. change (k_mem (upd s m' h')) with m'. cbn beta.
  assert (He : forall Q' : Z -> kstate -> Prop, Q' (pte_of m' root va) (upd s m' h') ->
    wpc R C (if default 0 (leaf_addr m' root va) =? 0 then ret 0 else ld (default 0 (leaf_addr m' root va))) Q' (upd s m' h')).
  { intros Q' HQ'. destruct (leaf_addr m' root va) as [e|] eqn:El; cbn [from_option id].
    - rewrite (proj2 (Z.eqb_neq _ _)); [|by eapply leaf_addr_nonzero; [apply Hum|exact El]].
      unfold ld. wp_step. rewrite (pte_of_leaf _ _ _ _ El) in HQ'. done.
    - rewrite Z.eqb_refl. wp_step. by rewrite (pte_of_no_leaf _ _ _ El) in HQ'. }
  wp_step. apply He. rewrite u64_small by (unfold va, PGSIZE, MAXVA in *; lia).
  destruct (has (pte_of m' root va) PTE_V) eqn:EV; cbn [negb].
  - unfold writes_back in Hwb. rewrite Hwb. do 3 wp_step. apply wp_wpc.
    apply (wp_uvmunmap root T (freed ++ fl) (cut L addr k)); [apply Hum|done|unfold va, PGSIZE in *; zmod|lia|lia| | |].
    + unfold va, PGSIZE in *. lia.
    + intros i Hi'. assert (i = 0) as -> by lia. rewrite Z.mul_0_l, Z.add_0_r, cut_lookup, decide_False by lia.
      apply HL; [lia|]. rewrite <- EV. f_equal. symmetry. apply (um_pte _ _ _ _ _ _ _ _ _ _ Hum); [done|unfold va; lia].
    + intros m1 h1 freed1 V1 V2 V3 V4. wp_step. split; [|cbn [fst]; unfold va, PGSIZE; lia].
      exists (k + 1), m1, h1, (freed1 ++ freed). split_and!; [done|f_equal; unfold va; lia|lia|lia|].
      eapply unmapped_page; [exact Hi|done|lia|done|exact Hum|]. split; [exact V1|exact V2|exact V3| |].
      * intros w Hw%va_vatop Hr. by rewrite V4, decide_True.
      * intros w Hw%va_vatop Hr. by rewrite V4, decide_False.
  - wp_step. split; [|cbn [fst]; unfold va, PGSIZE; lia].
    exists (k + 1), m', h', freed. split_and!; [done|f_equal; unfold va; lia|lia|lia|]. eapply unmapped_skip; [exact Hi|done|lia|done..].
Qed.

(** The area [v] without the [len] bytes at one of its ends. *)
Definition vma_rest (v : vma) (addr len : Z) : vma :=
  if (addr =? v_addr v) && (len =? v_length v) then vma0
  else if addr =? v_addr v then
    mkVma (v_used v) (addr + len) (v_length v - len) (v_prot v) (v_flags v) (v_file v) (u64 (v_offset v + len))
  else mkVma (v_used v) (v_addr v) (v_length v - len) (v_prot v) (v_flags v) (v_file v) (v_offset v).

Lemma vma_rest_ok sz l i v addr len :
  vmas_ok sz l -> l !! i = Some v -> v_used v = true -> addr mod PGSIZE = 0 -> len mod PGSIZE = 0 -> 0 < len ->
  v_addr v <= addr -> addr + len <= v_addr v + v_length v ->
  addr = v_addr v \/ addr + len = v_addr v + v_length v ->
  vmas_ok sz (<[i := vma_rest v addr len]> l).
Proof.
  intros Hok Hi Hu Ha Hl Hp H1 H2 H3. destruct (vo_fit _ _ Hok _ _ Hi Hu) as [F1 F2 F3 F4 F5].
  eapply vmas_ok_shrink; [done..|]. unfold vma_rest. intros Hw.
  destruct (Z.eqb_spec addr (v_addr v)) as [->|Hne]; cbn [andb] in *.
  - destruct (Z.eqb_spec len (v_length v)) as [->|]; [done|]. cbn [v_addr v_length].
    split; [|lia]. split; cbn [v_addr v_length]; unfold PGSIZE in *; [zmod|zmod|lia|lia|lia].
  - cbn [v_addr v_length]. split; [|lia]. split; cbn [v_addr v_length]; unfold PGSIZE in *; [done|zmod|lia|lia|lia].
Qed.

Lemma wp_fileclose_shared f Q s :
  k_held s = [] -> 2 <= f_ref (file_of s f) < 2 ^ 31 ->
  Q tt (set_ftable (alter (set_f_ref (f_ref (file_of s f) - 1)) f) s) -> wpc R C (fileclose f) Q s.
Proof.
  intros Hh Hr HQ. unfold fileclose. wp_step. apply wp_acquire; [rewrite Hh; apply not_elem_of_nil|]. unfold getf, modf.
  do 2 wp_step. change (file_of (set_held _ s) f) with (file_of s f).
  rewrite (proj2 (Z.ltb_ge _ _)) by lia. do 2 wp_step. rewrite s32_small by lia. rewrite (proj2 (Z.ltb_lt _ _)) by lia.
  eapply wp_release_last; [simpl; by rewrite Hh|apply not_elem_of_nil|].
  clear - HQ Hh. by destruct s; simpl in *; subst.
Qed.

(** The area a request covers, as vma_unmap finds it. *)
Lemma find_area sz pr i v addr lim :
  vmas_ok sz (p_vmas pr) -> PGROUNDUP sz >= 0 -> p_vmas pr !! i = Some v -> v_used v = true ->
  v_addr v <= addr -> addr < lim -> lim <= v_addr v + v_length v ->
  find_vma (fun v => v_used v && (v_addr v <=? addr) && (lim <=? u64 (v_addr v + v_length v))) pr = Some i.
Proof.
  intros Hok Hsz Hi Hu H1 H2 H3.
  assert (E : forall j w, p_vmas pr !! j = Some w -> v_used w = true -> u64 (v_addr w + v_length w) = v_addr w + v_length w).
  { intros j w Hj Hw. destruct (vo_fit _ _ Hok _ _ Hj Hw). apply u64_small. unfold TRAPFRAME, TRAMPOLINE, MAXVA, PGSIZE in *. lia. }
  unfold find_vma. assert (Hf : list_find (fun v => v_used v && (v_addr v <=? addr) && (lim <=? u64 (v_addr v + v_length v)) = true)
    (p_vmas pr) = Some (i, v)); [|by rewrite Hf].
  apply list_find_Some. split_and!; [done| |].
  - rewrite Hu, (E i v) by done. rewrite (proj2 (Z.leb_le _ _)), (proj2 (Z.leb_le _ _)) by lia. done.
  - intros j w Hj Hlt Ht. apply andb_true_iff in Ht as [[Hw1 Hw2%Z.leb_le]%andb_true_iff Hw3%Z.leb_le].
    rewrite (E j w) in Hw3 by done.
    destruct (vo_apart _ _ Hok _ _ _ _ Hi Hj Hu Hw1); lia.
Qed.

(** What vma_unmap leaves behind, apart from memory. *)
Definition area_cut (p i : nat) (v : vma) (addr len : Z) (s : kstate) : kstate :=
  let s := set_proc (alter (fun pr => set_p_vmas (<[i := vma_rest v addr len]> (p_vmas pr)) pr) p) s in
  if (addr =? v_addr v) && (len =? v_length v)
  then match v_file v with Some f => set_ftable (alter (set_f_ref (f_ref (file_of s f) - 1)) f) s | None => s end
  else s.

Lemma alter1_vma p i (g : vma -> vma) v (l : list proc) :
  p_vmas (default proc0 (l !! p)) !! i = Some v ->
  alter (fun pr => set_p_vmas (alter g i (p_vmas pr)) pr) p l = alter (fun pr => set_p_vmas (<[i := g v]> (p_vmas pr)) pr) p l.
Proof.
  intros Hv. apply list_eq. intros k. destruct (decide (k = p)) as [->|]; [|by rewrite !list_lookup_alter_ne by done].
  rewrite !list_lookup_alter_eq. destruct (l !! p) as [pr|]; [|done]. cbn in *. f_equal. unfold set_p_vmas. f_equal.
  apply list_eq. intros k. destruct (decide (k = i)) as [->|].
  - rewrite list_lookup_alter_eq, Hv, list_lookup_insert_eq; [done|by eapply lookup_lt_Some].
  - by rewrite list_lookup_alter_ne, list_lookup_insert_ne by done.
Qed.

Lemma wp_vma_unmap p i v addr length T fl L Q s :
  let pr := proc_of s p in let root := p_pagetable pr in let len := PGROUNDUP length in
  k_held s = [] -> vmas_ok (p_sz pr) (p_vmas pr) -> 0 <= PGROUNDUP (p_sz pr) ->
  user_inv (k_mem s) (k_freelist s) root T fl L ->
  p_vmas pr !! i = Some v -> v_used v = true -> writes_back v = false ->
  0 < length <= MAXVA -> addr mod PGSIZE = 0 -> v_addr v <= addr -> addr + len <= v_addr v + v_length v ->
  addr = v_addr v \/ addr + len = v_addr v + v_length v ->
  (forall va, va mod PGSIZE = 0 -> addr <= va < addr + len -> has (pte_of (k_mem s) root va) PTE_V = true -> is_Some (L !! va)) ->
  (exists f, v_file v = Some f /\ 2 <= f_ref (file_of s f) < 2 ^ 31) ->
  (forall m' h' freed, unmapped (k_mem s) root T fl L addr (len / PGSIZE) m' h' freed ->
     Q 0 (area_cut p i v addr len (upd s m' h'))) ->
  wpc R C (vma_unmap p addr length) Q s.
Proof.
  intros pr root len Hh Hok Hsz Hi Hv Hu Hwb Hlen Hal Ha1 Ha2 Hend HL (f & Hf & Href) HQ. unfold vma_unmap.
  destruct (vo_fit _ _ Hok _ _ Hv Hu) as [F1 F2 F3 F4 F5].
  destruct (PGROUNDUP_le length) as (R1 & R2 & R3); [lia|]. fold len in R1, R2, R3 |- *.
  assert (Hlim : v_addr v + v_length v <= MAXVA) by (unfold TRAPFRAME, TRAMPOLINE, PGSIZE in *; lia).
  rewrite Hal, (proj2 (Z.eqb_neq length 0)), (proj2 (Z.ltb_ge MAXVA length)) by lia. cbn [negb orb Z.eqb].
  rewrite !(u64_small (addr + len)) by (unfold MAXVA in *; lia).
  rewrite (proj2 (Z.ltb_ge _ _)) by lia. unfold getp. do 2 wp_step. fold pr.
  rewrite (find_area (p_sz pr) pr i v) by (done || lia). unfold vma_at. rewrite Hv. cbn [from_option id].
  rewrite (u64_small (v_addr v + v_length v)) by (unfold MAXVA in *; lia).
  destruct (negb (addr =? v_addr v) && negb (addr + len =? v_addr v + v_length v)) eqn:Et.
  { apply andb_true_iff in Et as [E1%negb_true_iff%Z.eqb_neq E2%negb_true_iff%Z.eqb_neq]. lia. }
  assert (Hn : addr + len = addr + len / PGSIZE * PGSIZE) by (unfold PGSIZE in *; zmod).
  rewrite Hn at 1. wp_step.
  apply (wp_vma_unmap_pages p v root addr (len / PGSIZE) T fl L 0); [done|done|by rewrite Hh; apply not_elem_of_nil|done|done|..].
  { unfold PGSIZE in *. zmod. }
  { lia. }
  { unfold PGSIZE, MAXVA in *. zmod. }
  { intros k Hk. apply HL; unfold PGSIZE in *; zmod. }
  intros m' h' freed Hum. specialize (HQ m' h' freed Hum). unfold area_cut, vma_rest in HQ.
  change (k_proc (upd s m' h')) with (k_proc s) in HQ.
  assert (Hv' : p_vmas (default proc0 (k_proc s !! p)) !! i = Some v) by done.
  destruct (Z.eqb_spec addr (v_addr v)) as [->|Hne]; cbn [andb] in *.
  - replace (v_addr v + len =? v_addr v + v_length v) with (len =? v_length v).
    2: { destruct (Z.eqb_spec len (v_length v)), (Z.eqb_spec (v_addr v + len) (v_addr v + v_length v)); done || lia. }
    destruct (len =? v_length v).
    + wp_step. rewrite Hf in HQ |- *. unfold deref. do 3 wp_step. apply wp_fileclose_shared; [done|done|].
      unfold modvma, modp. wp_step. wp_step. unfold set_proc, set_ftable in *. cbn in *.
      by rewrite (alter1_vma p i (fun _ => vma0) v) by done.
    + unfold modvma, modp. do 3 wp_step. unfold set_proc in *. cbn in *. rewrite (alter1_vma p i _ v) by done.
      rewrite u64_small by (unfold MAXVA in *; lia). done.
  - unfold modvma, modp. do 3 wp_step. unfold set_proc in *. cbn in *. rewrite (alter1_vma p i _ v) by done.
    rewrite u64_small by (unfold MAXVA in *; lia). done.
Qed.
End MmapSpec.

(** ** The page-fault handler of memory-mapped files

    vma_fault gives the process a fresh page with the bytes of the file at the
    faulting page, zero beyond the end of the file, and the permissions of the
    area, or fails and gives back what it had allocated. *)
Lemma rest_eq_upd p m h s s' : rest_eq p s s' -> rest_eq p (upd s m h) (upd s' m h).
Proof. intros (ps & vd & bc & dk & E & ->). by exists ps, vd, bc, dk. Qed.

Section MmapFault.
Context `{KI : KernelImage} `{KOK : !KernelImageOk} `{VD : VirtioDevice} `{VDOK : !VirtioDeviceOk}.
Context (start size : Z) (geom : 0 < start /\ 1 < size <= LOGSIZE /\ start + size < 2 ^ 31).
Variable P : gmap Z block -> Prop.
Let C (s : kstate) : Prop := P (k_disk s).

Lemma quiet_upd p dk m h s : quiet start size p dk s -> quiet start size p dk (upd s m h).
Proof. intros [[[? ? ? ? ? ? ?] ?] ? ? ? ? ?]. by split. Qed.

Lemma quiet_sl p dk i x s : quiet start size p dk s -> quiet start size p dk (sl_set (SL_inode i) x s).
Proof. intros [[[? ? ? ? ? ? ?] ?] ? ? ? ? ?]. by split. Qed.

Lemma quiet_woken p dk ch s : quiet start size p dk s -> quiet start size p dk (set_proc (imap (woken ch (Some p))) s).
Proof. intros [Hb ? ? ? ? ?]. split; try done. by apply bio_ok_woken. Qed.

(** ilock, readi into a kernel page, iunlock. *)
Lemma wp_read_page p dk i pg off {A} (k : Z -> KM A) Q s :
  let ip := inode_of s i in
  quiet start size p dk s -> (i < length (k_itable s))%nat -> 1 <= i_ref ip -> i_valid ip = true ->
  i_lock ip = mkSleeplock false 0 -> file_ok dk ip -> 0 <= off -> off + PGSIZE < 2 ^ 32 -> P dk ->
  (forall s', let m := read_len ip off PGSIZE in
     quiet start size p dk s' -> rest_eq p (set_mem (fun m0 => write_bytes m0 pg (fbytes dk ip off m)) s) s' ->
     wpc (seq_rely p) C (k m) Q s') ->
  wpc (seq_rely p) C
    (ilock (Some i);;; let* j := deref (Some i) in let* r := readi j (DKern pg) off PGSIZE in
     iunlock (Some i);;; k r.1) Q s.
Proof.
  intros ip Hq Hi Hr Hv Hl Hok Hoff Hend HP HQ. pose proof (bo_seq _ _ _ (qt_bio _ _ _ _ _ Hq)) as Hs. wp_step.
  apply (wp_ilock_valid p); [done..|by fold ip; rewrite Hl|]. unfold deref. do 3 wp_step.
  set (lk := mkSleeplock true (pid_of p s)). set (s1 := sl_set (SL_inode i) lk s).
  assert (E1 : inode_of s1 i = set_i_lock lk ip) by by apply inode_of_sl.
  assert (Hq1 : quiet start size p dk s1) by by apply quiet_sl.
  eapply (wp_readi start size geom P p); [by apply quiet_view|by rewrite E1; destruct Hok|done|unfold PGSIZE in *; lia|unfold PGSIZE; lia|done|done|].
  rewrite E1. intros s2 m bs Hv2 Hf2. wp_step.
  assert (Hq2 : quiet start size p dk s2).
  { eapply (view_quiet start size p dk (set_mem (delivered (DKern pg) bs) s1)); [|done|done].
    apply (quiet_upd p dk (delivered (DKern pg) bs (k_mem s1)) (k_freelist s1) s1 Hq1). }
  assert (E2 : inode_of s2 i = set_i_lock lk ip) by by rewrite (rest_eq_inode _ _ _ i Hf2).
  pose proof (bo_seq _ _ _ (qt_bio _ _ _ _ _ Hq2)) as Hs2.
  assert (Epid : pid_of p s2 = pid_of p s) by by rewrite (rest_eq_pid _ _ _ Hf2).
  apply (wp_iunlock p); [done|by rewrite E2|by rewrite E2, Epid|]. cbn [fst].
  apply HQ; [by apply quiet_woken, quiet_sl|].
  etrans; [|apply rest_eq_woken]. apply (rest_eq_sl p i (mkSleeplock false 0)) in Hf2.
  etrans; [|exact Hf2].
  change (set_mem (delivered (DKern pg) bs) s1) with (sl_set (SL_inode i) lk (set_mem (delivered (DKern pg) bs) s)).
  by rewrite sl_set_back.
Qed.

(** ** vma_fault *)

(** Byte [o] of the file, zero beyond its end. *)
Definition filled (dk : gmap Z block) (ip : inode) (o : Z) : Z := if o <? i_size ip then u8 (fbyte dk ip o) else 0.

Lemma vma_perm_ok prot : perm_ok (vma_perm prot).
Proof. unfold perm_ok, vma_perm. destruct (has prot PROT_READ), (has prot PROT_WRITE), (has prot PROT_EXEC); vm_compute; split; done. Qed.

Lemma read_fill dk ip off pg m : 0 <= off -> off + PGSIZE < 2 ^ 32 ->
  (forall o, 0 <= o < PGSIZE -> ldb m (pg + o) = 0) ->
  forall o, 0 <= o < PGSIZE ->
  ldb (write_bytes m pg (fbytes dk ip off (read_len ip off PGSIZE))) (pg + o) = filled dk ip (off + o).
Proof.
  intros Hoff Hend Hz o Ho. rewrite ldb_write_bytes, length_fbytes. unfold filled, read_len.
  rewrite u32_small by (unfold PGSIZE in *; lia).
  set (n := if _ || _ then 0 else _).
  assert (Hn : 0 <= n <= PGSIZE /\ (o < n <-> off + o < i_size ip)).
  { unfold n. destruct (Z.ltb_spec (i_size ip) off), (Z.ltb_spec (off + PGSIZE) off), (Z.ltb_spec (i_size ip) (off + PGSIZE));
      cbn [orb]; lia. }
  rewrite Z2Nat.id by lia. unfold inr_. replace (pg + o - pg) with o by lia.
  rewrite (proj2 (Z.leb_le _ _)) by lia. cbn [andb].
  destruct (Z.ltb_spec (pg + o) (pg + n)), (Z.ltb_spec (off + o) (i_size ip)); try lia; [|by apply Hz].
  unfold fbytes. rewrite list_lookup_fmap, lookup_seqZ_lt by lia. cbn. do 2 f_equal. lia.
Qed.

Lemma find_fault sz pr i v va :
  vmas_ok sz (p_vmas pr) -> 0 <= PGROUNDUP sz -> p_vmas pr !! i = Some v -> v_used v = true ->
  v_addr v <= va < v_addr v + v_length v ->
  find_vma (fun v => v_used v && (v_addr v <=? va) && (va <? u64 (v_addr v + v_length v))) pr = Some i.
Proof.
  intros Hok Hsz Hi Hu Hva.
  rewrite <- (find_area sz pr i v va (va + 1)) by (done || lia). unfold find_vma. f_equal.
  apply list_find_ext. intros w. replace (va + 1 <=? u64 (v_addr w + v_length w)) with (va <? u64 (v_addr w + v_length w)); [done|].
  destruct (Z.ltb_spec va (u64 (v_addr w + v_length w))), (Z.leb_spec (va + 1) (u64 (v_addr w + v_length w))); done || lia.
Qed.

(** The page-fault handler's outcome for the page [va] of an area of the file [ip]. *)
Definition faulted (s : kstate) (root va off perm : Z) dk ip T fl L (r : Z) m' h' T' fl' : Prop :=
  (r = 0 /\ exists q, us_step (k_mem s) (k_freelist s) m' h' root T T' fl fl' L (<[va := q]> L) /\
     page_holds m' q (fun o => filled dk ip (off + o)) /\
     (forall v, 0 <= v < VATOP -> pte_of m' root v =
        if decide (va <= v < va + PGSIZE) then mkpte q perm else pte_of (k_mem s) root v)) \/
  (r = -1 /\ us_step (k_mem s) (k_freelist s) m' h' root T T' fl fl' L L /\
     (forall v, 0 <= v < VATOP -> pte_of m' root v = pte_of (k_mem s) root v)).

(** From the fresh, zeroed page on: read the file into it and map it. *)
Lemma wp_fault_page p dk v i q fl1 va T L Q s m2 h1 :
  let root := p_pagetable (proc_of s p) in let ip := inode_of s i in let off := v_offset v + (va - v_addr v) in
  quiet start size p dk s -> (i < length (k_itable s))%nat -> 1 <= i_ref ip -> i_valid ip = true ->
  i_lock ip = mkSleeplock false 0 -> file_ok dk ip -> 0 <= off -> off + PGSIZE < 2 ^ 32 -> P dk ->
  user_inv (k_mem s) (k_freelist s) root T (q :: fl1) L -> page_ok q -> q ∉ fl1 ->
  0 <= va -> va + PGSIZE <= MAXVA -> va mod PGSIZE = 0 -> has (pte_of (k_mem s) root va) PTE_V = false ->
  (forall a, ~ in_page q a -> ldb m2 a = ldb (k_mem s) a) -> page_holds m2 q (fun _ => 0) -> fl_inv m2 h1 fl1 ->
  (forall r m' h' T' fl' s', faulted s root va off (vma_perm (v_prot v)) dk ip T (q :: fl1) L r m' h' T' fl' ->
     quiet start size p dk s' -> rest_eq p (upd s m' h') s' -> Q r s') ->
  wpc (seq_rely p) C
    (ilock (Some i);;; let* j := deref (Some i) in
     let* r := readi j (DKern q) (u32 off) PGSIZE in
     iunlock (Some i);;;
     (if r.1 <? 0 then kfree q;;; ret (-1)
      else let* r := mappages root va PGSIZE q (vma_perm (v_prot v)) in
           if r <? 0 then kfree q;;; ret (-1) else ret 0)) Q (upd s m2 h1).
Proof.
  intros root ip off Hq Hi Hr Hv Hl Hok Hoff Hend HP Hu Hqp Hni Hva Hmax Hal HV He1 Hz2 Hf1 HQ.
  rewrite u32_small by (unfold PGSIZE in *; lia).
  apply (wp_read_page p dk i q off (fun z => if z <? 0 then kfree q;;; ret (-1)
      else let* r := mappages root va PGSIZE q (vma_perm (v_prot v)) in
           if r <? 0 then kfree q;;; ret (-1) else ret 0) Q (upd s m2 h1)); [by apply quiet_upd|done..|].
  change (inode_of (upd s m2 h1) i) with ip. intros s3 m Hq3 Hr3. rewrite set_mem_upd in Hr3.
  set (m3 := write_bytes m2 q (fbytes dk ip off m)) in Hr3.
  assert (Hm : 0 <= m <= PGSIZE).
  { pose proof (fo_size _ _ Hok). unfold m, read_len. rewrite u32_small by (unfold PGSIZE in *; lia).
    destruct (Z.ltb_spec (i_size ip) off), (Z.ltb_spec (off + PGSIZE) off), (Z.ltb_spec (i_size ip) (off + PGSIZE));
      cbn [orb]; unfold PGSIZE in *; lia. }
  rewrite (proj2 (Z.ltb_ge m 0)) by lia.
  assert (He2 : forall a, ~ in_page q a -> ldb m3 a = ldb m2 a).
  { intros a Ha. unfold m3. rewrite ldb_write_bytes, length_fbytes. unfold inr_.
    destruct (Z.leb_spec q a), (Z.ltb_spec a (q + Z.of_nat (Z.to_nat m))); cbn [andb];
      [exfalso; apply Ha; unfold in_page; lia|done..]. }
  assert (He : forall a, ~ in_page q a -> ldb m3 a = ldb (k_mem s) a) by (intros a Ha; by rewrite He2, He1).
  assert (Hf3 : fl_inv m3 h1 fl1) by (by apply (fl_inv_outside m2 _ _ q)).
  destruct (take_page _ _ _ _ _ _ _ m3 h1 Hu Hqp Hni Hf3 He) as (Hu3 & Hno & Hp3).
  assert (Hfill : page_holds m3 q (fun o => filled dk ip (off + o))).
  { intros o Ho. by apply read_fill. }
  pose proof (bo_seq _ _ _ (qt_bio _ _ _ _ _ Hq3)) as Hs3.
  assert (Em : k_mem s3 = m3 /\ k_freelist s3 = h1) by (destruct Hr3 as (ps & vd & bc & dk' & _ & ->); done).
  destruct Em as [Em Eh]. clearbody m3. wp_step. apply wp_wpc.
  assert (HL : L !! va = None).
  { destruct (L !! va) as [pa|] eqn:E; [|done]. apply (ui_pte _ _ _ _ _ _ Hu), leaf_pte_V in E. congruence. }
  rewrite <- Em, <- Eh in Hu3. rewrite <- Em in Hp3.
  apply (wp_map_fresh root T fl1 L va q); [done|rewrite (so_held _ _ Hs3); apply not_elem_of_nil|done..|apply vma_perm_ok|by rewrite Hp3| |].
  - intros m' h' T' fl' Hst Hi' Hp. change (0 <? 0) with false. cbv iota. wp_step.
    apply (HQ 0 m' h' T' fl'); [|by apply quiet_upd|].
    2: { apply (rest_eq_upd p m' h') in Hr3. by rewrite upd_upd in Hr3. }
    left. split; [done|]. exists q. split_and!.
    + eapply us_fresh; [exact Hu|exact He|rewrite <- Em, <- Eh; exact Hst|exact Hi'|exact HL].
    + intros o Ho. rewrite (keeps_page (k_mem s3) (k_freelist s3) root T fl1 m' q);
        [rewrite Em; by apply Hfill|apply Hu3|apply Hst|done|intros Ho'; apply Hno; by left|unfold in_page; lia].
    + intros w Hw. rewrite Hp by done. case_decide; [done|apply Hp3].
  - intros m' h' T' Hst Hi' Hp. change (-1 <? 0) with true. cbv iota. wp_step.
    assert (Hno' : ~ upage T' [] L q).
    { intros [Ho|Ho]; apply Hno; [left | by right]. by apply (pt_step_owned _ _ _ _ _ _ _ _ _ _ Hst). }
    apply wp_wpc. apply (wp_kfree []); [apply Hi'|done|apply not_elem_of_nil|cbn; rewrite (so_held _ _ Hs3); apply not_elem_of_nil|].
    intros m4 Hf4. cbn [k_mem k_freelist] in *. rewrite !upd_upd. wp_step.
    destruct (us_back (k_mem s) (k_freelist s) m3 h1 m' h' m4 q root T T' q fl1 [] L Hu He) as [Hus Hp4];
      [rewrite <- Em, <- Eh; exact Hst|exact Hi'|done|done| |done|].
    { intros b Hb. unfold m4. rewrite ldb_st64 by (unfold in_page, PGSIZE in *; lia). by apply memset_page_out. }
    apply (HQ (-1) m4 q T' [q]); [|by apply quiet_upd|].
    + right. split_and!; [done|done|]. intros w Hw. by rewrite Hp4, Hp, Hp3.
    + apply (rest_eq_upd p m4 q) in Hr3. by rewrite upd_upd in Hr3.
Qed.

Lemma wp_vma_fault p dk i v f ii faultva cause T fl L Q s :
  let pr := proc_of s p in let root := p_pagetable pr in let va := PGROUNDDOWN faultva in
  let ip := inode_of s ii in let off := v_offset v + (va - v_addr v) in
  quiet start size p dk s -> P dk ->
  vmas_ok (p_sz pr) (p_vmas pr) -> 0 <= PGROUNDUP (p_sz pr) -> p_vmas pr !! i = Some v -> v_used v = true ->
  v_addr v <= faultva < v_addr v + v_length v -> vma_denied cause (v_prot v) = false ->
  v_file v = Some f -> f_ip (file_of s f) = Some ii -> (ii < length (k_itable s))%nat ->
  1 <= i_ref ip -> i_valid ip = true -> i_lock ip = mkSleeplock false 0 -> file_ok dk ip ->
  0 <= v_offset v -> off + PGSIZE < 2 ^ 32 ->
  user_inv (k_mem s) (k_freelist s) root T fl L -> has (pte_of (k_mem s) root va) PTE_V = false ->
  (forall r m' h' T' fl' s', faulted s root va off (vma_perm (v_prot v)) dk ip T fl L r m' h' T' fl' ->
     quiet start size p dk s' -> rest_eq p (upd s m' h') s' -> Q r s') ->
  wpc (seq_rely p) C (vma_fault p faultva cause) Q s.
Proof.
  intros pr root va ip off Hq HP Hok Hsz Hi Hu Hva Hden Hf Hip Hii Href Hval Hlk Hfile Hoff Hend Hus HV HQ.
  pose proof (bo_seq _ _ _ (qt_bio _ _ _ _ _ Hq)) as Hs. destruct (vo_fit _ _ Hok _ _ Hi Hu) as [F1 F2 F3 F4 F5].
  unfold vma_fault, getp. wp_step. wp_step. fold pr. rewrite (find_fault (p_sz pr) pr i v) by done.
  unfold vma_at. rewrite Hi. cbn [from_option id]. rewrite Hden. wp_step. fold root va.
  assert (Hva' : va mod PGSIZE = 0 /\ v_addr v <= va /\ va + PGSIZE <= v_addr v + v_length v).
  { unfold va. rewrite PGROUNDDOWN_eq. unfold PGSIZE in *. zmod. }
  assert (Hmax : 0 <= va /\ va + PGSIZE <= MAXVA) by (unfold TRAPFRAME, TRAMPOLINE, PGSIZE in *; lia).
  apply wp_wpc. apply wp_walk_noalloc; [unfold PGSIZE in *; lia|]. cbn beta.
  assert (Hpte : forall Q' : bool -> kstate -> Prop, Q' false s -> wpc (seq_rely p) C
    (if default 0 (leaf_addr (k_mem s) root va) =? 0 then ret false
     else let* e := ld (default 0 (leaf_addr (k_mem s) root va)) in ret (has e PTE_V)) Q' s).
  { intros Q' HQ'. destruct (leaf_addr (k_mem s) root va) as [e|] eqn:El; cbn [from_option id].
    - rewrite (proj2 (Z.eqb_neq _ _)); [|by eapply leaf_addr_nonzero; [apply Hus|exact El]].
      unfold ld. do 3 wp_step. rewrite (pte_of_leaf _ _ _ _ El) in HV. by rewrite HV.
    - rewrite Z.eqb_refl. by wp_step. }
  wp_step. apply Hpte. wp_step. apply wp_wpc.
  apply (wp_kalloc fl); [apply Hus|rewrite (so_held _ _ Hs); apply not_elem_of_nil| |].
  { intros ->. change (0 =? 0) with true. cbv iota. wp_step. apply (HQ (-1) (k_mem s) (k_freelist s) T []); [|done|by rewrite upd_id].
    right. split_and!; [done|by apply us_refl|done]. }
  intros q fl1 -> Hqp Hni m1 h1 Hf1. pose proof (page_ok_pos q Hqp). rewrite (proj2 (Z.eqb_neq q 0)) by lia.
  assert (Hip' : forall (k : option nat -> KM Z) (g : kstate -> kstate), k_ftable (g s) = k_ftable s ->
    wpc (seq_rely p) C (k (Some ii)) Q (g s) -> wpc (seq_rely p) C (let* ip := vma_ip v in k ip) Q (g s)).
  { intros k g Hg Hk. unfold vma_ip, deref, getf. rewrite Hf. wp_step. do 5 wp_step. unfold file_of in *. rewrite Hg, Hip. done. }
  unfold zero_page. wp_step. wp_step.
  apply (Hip' _ (fun s => set_mem (fun m => memset m q 0 PGSZ) (upd s m1 h1))); [done|]. cbn beta. rewrite set_mem_upd.
  assert (Hoff0 : 0 <= off) by (unfold off; lia).
  apply (wp_fault_page p dk v ii q fl1 va T L); [exact Hq|exact Hii|exact Href|exact Hval|exact Hlk|exact Hfile|exact Hoff0|
    exact Hend|exact HP|exact Hus|exact Hqp|exact Hni|apply Hmax|apply Hmax|apply Hva'|exact HV| | | |exact HQ].
  - intros a Ha. unfold m1. by rewrite !memset_page_out.
  - intros o Ho. rewrite ldb_memset. unfold inr_.
    rewrite (proj2 (Z.leb_le _ _)), (proj2 (Z.ltb_lt _ _)) by (unfold PGSIZE in Ho; change (Z.of_nat PGSZ) with 4096; lia). done.
  - apply (fl_inv_outside m1 _ _ q); [done..|]. intros a Ha. by apply memset_page_out.
Qed.
End MmapFault.
