(* ===== verification/MmapTheorems.v ===== *)
(** * What mmap, the page-fault handler and munmap guarantee *)
From S2P Require Import Prelude Memory State Kalloc PageTable Vm VmSpec UserMem Sched SchedSpec Sleeplock Virtio VirtioSpec Bio BioSpec Codec Log LogSpec LogCrash Txn Fs FsSpec File Trapframe Proc Syscall Sysfile MmapSpec.

Section MmapTheorems.
Context `{KI : KernelImage} `{KOK : !KernelImageOk}.




Context `{VD : VirtioDevice} `{VDOK : !VirtioDeviceOk}.
Context (start size : Z) (geom : 0 < start /\ 1 < size <= LOGSIZE /\ start + size < 2 ^ 31).
Variable P : gmap Z block -> Prop.

End MmapTheorems.
