(* ===== verification/MmapWitness.v ===== *)
(** * A process with a mapped file, for the theorems on mmap

    The machine of [FsWitness] with no transaction running, whose process 0 has
    the one-page address space of [VmWitness] and file 0 open. *)
From S2P Require Import Prelude Memory State Kalloc PageTable Vm VmSpec UserMem VmWitness Sched SchedSpec Sleeplock Virtio VirtioSpec Bio BioSpec Codec Log LogSpec LogCrash Txn Fs FsSpec DiskWitness FsWitness File Trapframe Fcntl Proc Syscall Sysfile MmapSpec MmapTheorems.

#[local] Existing Instance demo_image.
#[local] Existing Instance demo_image_ok.
#[local] Existing Instance demo_vdev.
#[local] Existing Instance demo_vdev_ok.

Definition mm_file : file := mkFile FD_INODE 2 true false 0 (Some 0%nat) 0 0.
Definition mm_tf : Z := 0x80036000.

(** [vs] are the areas of process 0, [m] is memory. *)
Definition ks_mm (vs : list vma) (m : mem) : kstate :=
  set_proc (alter (fun pr => set_p_ofile (<[0%nat := Some 0%nat]> (p_ofile pr)) (set_p_trapframe mm_tf
                     (set_p_vmas vs (set_p_pagetable dR pr)))) 0%nat)
    (set_ftable (<[0%nat := mm_file]>) (set_mem (fun _ => m) (set_freelist (fun _ => 0x80040000)
      (set_log (fun _ => mkLog 2 30 0 false ROOTDEV 0 (replicate 30 0)) ks_fs)))).





Lemma mm_root vs m : p_pagetable (proc_of (ks_mm vs m) 0) = dR.
Proof. reflexivity. Qed.



