(* ===== verification/ProcMem.v ===== *)
(** * Address spaces of processes: proc_pagetable, uvmfree, proc_freepagetable

    A page table is made with the trampoline and the trapframe mapped, and
    given back whole: every page of the tree and of user memory returns to
    the free list. *)
From S2P Require Import Prelude Memory State Kalloc Vm PageTable VmSpec UserMem UserCopy FreeWalk VmTheorems Sched SchedSpec Trapframe Proc.

Section Tree.
Context `{KI : KernelImage} `{KOK : !KernelImageOk}.
Implicit Types (m : mem) (T : gmap Z Z) (p q : Z).

(** ** freewalk visits the tree *)

(** Every slot of a table of the lowest level is the leaf entry of an address. *)
Lemma leaf_slot m T root p i : pt_wf m T root -> T !! p = Some 0 -> 0 <= i < 512 ->
  exists va, 0 <= va < VATOP /\ leaf_addr m root va = Some (p + 8 * i).
Proof.
  intros Hw Hp Hi. destruct (wf_reach _ _ _ Hw p 0 Hp ltac:(lia)) as (q1 & i1 & Hq1 & Hi1 & N1).
  destruct (wf_reach _ _ _ Hw q1 (0 + 1) Hq1 ltac:(lia)) as (q2 & i2 & Hq2 & Hi2 & N2).
  apply (wf_root _ _ _ Hw) in Hq2 as ->. exists (i2 * 2 ^ 30 + i1 * 2 ^ 21 + i * 2 ^ 12).
  assert (E : forall a b c, 0 <= a < 512 -> 0 <= b < 512 -> 0 <= c < 512 -> let va := a * 2 ^ 30 + b * 2 ^ 21 + c * 2 ^ 12 in
    PX 2 va = a /\ PX 1 va = b /\ PX 0 va = c).
  { intros a b c Ha Hb Hc va. rewrite !PX_eq by lia. unfold va.
    change (2 ^ (12 + 9 * 2)) with 1073741824. change (2 ^ (12 + 9 * 1)) with 2097152. change (2 ^ (12 + 9 * 0)) with 4096.
    change (2 ^ 30) with 1073741824. change (2 ^ 21) with 2097152. change (2 ^ 12) with 4096.
    split_and!; zmod. }
  destruct (E i2 i1 i Hi2 Hi1 Hi) as (E2 & E1 & E0). split; [unfold VATOP; lia|].
  rewrite <- E0 at 2. apply (leaf_addr_intro _ _ _ q1); [by rewrite E2|by rewrite E1].
Qed.

(** The pages below [p] are tables of lower levels. *)
Lemma elem_of_pages n m p r : r ∈ pages_of (S n) m p <->
  r = p \/ exists i q, 0 <= i < 512 /\ next_pt m p i = Some q /\ r ∈ pages_of n m q.
Proof.
  rewrite pages_of_S, elem_of_app, list_elem_of_singleton. split.
  - intros [H| ->]; [right|by left]. apply list_elem_of_In, in_concat in H as (l & Hl & Hr%list_elem_of_In).
    apply in_map_iff in Hl as (i & <- & Hi%list_elem_of_In%elem_of_slots). unfold kids in Hr.
    destruct (next_pt m p i) as [q|] eqn:E; [by exists i, q|by apply elem_of_nil in Hr].
  - intros [-> |(i & q & Hi & E & Hr)]; [by right|left]. apply (elem_of_kids n m p i); [by apply elem_of_slots|].
    unfold kids. by rewrite E.
Qed.

Section Wf.
Context (m : mem) (T : gmap Z Z) (root : Z) (Hw : pt_wf m T root).
Context (Hleaf : forall p i, T !! p = Some 0 -> 0 <= i < 512 -> next_pt m p i = None).

Lemma pages_level n p r : T !! p = Some (Z.of_nat n) -> r ∈ pages_of (S n) m p -> exists l, T !! r = Some l /\ l <= Z.of_nat n /\ (l = Z.of_nat n -> r = p).
Proof.
  revert p r. induction n as [|n IH]; intros p r Hp [-> |(i & q & Hi & E & Hr)]%elem_of_pages.
  - by exists 0.
  - by rewrite (Hleaf p i Hp Hi) in E.
  - exists (Z.of_nat (S n)). by split_and!.
  - pose proof (wf_next _ _ _ Hw p _ i q Hp ltac:(lia) Hi E) as Hq. replace (Z.of_nat (S n) - 1) with (Z.of_nat n) in Hq by lia.
    destruct (IH q r Hq Hr) as (l & Hl & Hle & _). exists l. split_and!; [done|lia|lia].
Qed.

(** Two trees of one level that share a page are the same. *)
Lemma pages_disjoint n p1 p2 r : T !! p1 = Some (Z.of_nat n) -> T !! p2 = Some (Z.of_nat n) ->
  r ∈ pages_of (S n) m p1 -> r ∈ pages_of (S n) m p2 -> p1 = p2.
Proof.
  revert p1 p2. induction n as [|n IH]; intros p1 p2 H1 H2 R1 R2.
  { destruct (pages_level 0 p1 r H1 R1) as (l & Hl & Hle & E1), (pages_level 0 p2 r H2 R2) as (l' & Hl' & _ & E2). simplify_eq.
    destruct (wf_page _ _ _ Hw r l Hl) as [_ ?]. rewrite <- E1, <- E2 by lia. done. }
  pose proof R1 as [-> |(i & q & Hi & E & Hr)]%elem_of_pages.
  - destruct (pages_level (S n) p2 p1 H2 R2) as (l & Hl & _ & E2). apply E2. congruence.
  - pose proof R2 as [-> |(i' & q' & Hi' & E' & Hr')]%elem_of_pages.
    { destruct (pages_level (S n) p1 p2 H1 R1) as (l & Hl & _ & E2). symmetry. apply E2. congruence. }
    pose proof (wf_next _ _ _ Hw p1 _ i q H1 ltac:(lia) Hi E) as Hq. pose proof (wf_next _ _ _ Hw p2 _ i' q' H2 ltac:(lia) Hi' E') as Hq'.
    replace (Z.of_nat (S n) - 1) with (Z.of_nat n) in * by lia. assert (q = q') as <- by by apply IH.
    by destruct (wf_inj _ _ _ Hw p1 _ i p2 _ i' q H1 ltac:(lia) Hi H2 ltac:(lia) Hi' E E').
Qed.

Lemma NoDup_concat_map {A B} (f : A -> list B) (l : list A) :
  NoDup l -> (forall x, x ∈ l -> NoDup (f x)) -> (forall x y b, x ∈ l -> y ∈ l -> b ∈ f x -> b ∈ f y -> x = y) -> NoDup (concat (map f l)).
Proof.
  induction 1 as [|x l Hx Hl IH]; intros Hn Hd; cbn [map concat]; [constructor|]. apply NoDup_app. split_and!.
  - apply Hn. left.
  - intros b Hb Hc. apply list_elem_of_In, in_concat in Hc as (l' & Hl' & Hb'%list_elem_of_In).
    apply in_map_iff in Hl' as (y & <- & Hy%list_elem_of_In). apply Hx. rewrite (Hd x y b); [done|left|by right|done|done].
  - apply IH; [intros y Hy; apply Hn; by right|]. intros y z b Hy Hz. apply Hd; by right.
Qed.

Lemma kids_below n p r : r ∈ concat (map (kids n m p) slots) -> exists i q, 0 <= i < 512 /\ next_pt m p i = Some q /\ r ∈ pages_of n m q.
Proof.
  intros Hb. apply list_elem_of_In, in_concat in Hb as (l & Hl & Hb%list_elem_of_In).
  apply in_map_iff in Hl as (i & <- & Hi%list_elem_of_In%elem_of_slots). unfold kids in Hb.
  destruct (next_pt m p i) as [q|] eqn:E; [by exists i, q|by apply elem_of_nil in Hb].
Qed.

Lemma pages_nodup n p : T !! p = Some (Z.of_nat n) -> NoDup (pages_of (S n) m p).
Proof.
  revert p. induction n as [|n IH]; intros p Hp; rewrite pages_of_S; apply NoDup_app; (split; [|split; [|apply NoDup_singleton]]).
  1, 3: apply NoDup_concat_map; [unfold slots; apply NoDup_fmap_2; [intros ? ? ?; lia|apply NoDup_seq]|..].
  - intros i _. unfold kids. destruct (next_pt m p i); constructor.
  - intros i j b _ _. unfold kids. destruct (next_pt m p i); by intros Hb%elem_of_nil.
  - intros i Hi%elem_of_slots. unfold kids. destruct (next_pt m p i) as [q|] eqn:E; [|constructor]. apply IH.
    replace (Z.of_nat n) with (Z.of_nat (S n) - 1) by lia. by apply (wf_next _ _ _ Hw p _ i); [|lia|..].
  - intros i j b Hi%elem_of_slots Hj%elem_of_slots. unfold kids. destruct (next_pt m p i) as [q|] eqn:E; [|by intros Hb%elem_of_nil].
    destruct (next_pt m p j) as [q'|] eqn:E'; [|by intros _ Hb%elem_of_nil]. intros Hb Hb'.
    pose proof (wf_next _ _ _ Hw p _ i q Hp ltac:(lia) Hi E) as Hq. pose proof (wf_next _ _ _ Hw p _ j q' Hp ltac:(lia) Hj E') as Hq'.
    replace (Z.of_nat (S n) - 1) with (Z.of_nat n) in * by lia. assert (q = q') as <- by by eapply pages_disjoint.
    by destruct (wf_inj _ _ _ Hw p _ i p _ j q Hp ltac:(lia) Hi Hp ltac:(lia) Hj E E').
  - intros b (i & q & _ & _ & Hb)%kids_below _. by apply elem_of_nil in Hb.
  - intros b (i & q & Hi & E & Hr)%kids_below ->%list_elem_of_singleton.
    pose proof (wf_next _ _ _ Hw p _ i q Hp ltac:(lia) Hi E) as Hq.
    replace (Z.of_nat (S n) - 1) with (Z.of_nat n) in * by lia. destruct (pages_level n q p Hq Hr) as (l & Hl & Hle & _).
    rewrite Hp in Hl. injection Hl as <-. lia.
Qed.

Lemma pages_no_leaf n p : T !! p = Some (Z.of_nat n) -> no_leaf (S n) m p.
Proof.
  revert p. induction n as [|n IH]; intros p Hp i Hi.
  { by rewrite Hleaf. }
  destruct (next_pt m p i) as [q|] eqn:E; [|done]. split.
  - apply (wf_ptr _ _ _ Hw p (Z.of_nat (S n))); [done|lia|done|].
    destruct (has (pte_at m p i) PTE_V) eqn:EV; [done|]. by rewrite next_pt_invalid in E.
  - apply IH. replace (Z.of_nat n) with (Z.of_nat (S n) - 1) by lia. by apply (wf_next _ _ _ Hw p _ i); [|lia|..].
Qed.

Lemma pages_all r : r ∈ pages_of 3 m root <-> is_Some (T !! r).
Proof.
  assert (HR : T !! root = Some (Z.of_nat 2)) by (by apply (wf_root _ _ _ Hw)). split.
  { intros Hr. destruct (pages_level 2 root r HR Hr) as (l & Hl & _). by exists l. }
  intros [l Hl]. destruct (wf_page _ _ _ Hw r l Hl) as [_ Hr]. apply elem_of_pages.
  destruct (decide (l = 2)) as [->|]; [left; by apply (wf_root _ _ _ Hw)|right].
  destruct (wf_reach _ _ _ Hw r l Hl ltac:(lia)) as (q & i & Hq & Hi & E). destruct (decide (l = 1)) as [->|].
  - apply (wf_root _ _ _ Hw) in Hq as ->. exists i, r. split_and!; try done; try lia. apply elem_of_pages. by left.
  - assert (l = 0) as -> by lia. destruct (wf_reach _ _ _ Hw q (0 + 1) Hq ltac:(lia)) as (q' & j & Hq' & Hj & E').
    apply (wf_root _ _ _ Hw) in Hq' as ->. exists j, q. split_and!; try done; try lia.
    apply elem_of_pages. right. exists i, r. split_and!; try done; try lia. apply elem_of_pages. by left.
Qed.
End Wf.
End Tree.

Section Space.
Context `{KI : KernelImage} `{KOK : !KernelImageOk}.
Implicit Types (s : kstate) (m : mem) (h root : Z) (T L : gmap Z Z) (fl : list Z).

(** ** Giving a page table back *)

(** The pages that [fl] and the tree hold are all on the free list. *)
Record returned m m' h' T fl fl' : Prop := {
  re_free : fl_inv m' h' fl';
  re_pages p : p ∈ fl' <-> owned T fl p;
  re_keeps : keeps T fl m m'
}.

(** freewalk on a tree whose leaf entries are all invalid. *)
Lemma wp_freewalk root T fl s (Q : unit -> kstate -> Prop) :
  vm_inv (k_mem s) (k_freelist s) root T fl -> L_kmem ∉ k_held s ->
  (forall va, 0 <= va < VATOP -> has (pte_of (k_mem s) root va) PTE_V = false) ->
  (forall m' h' fl', returned (k_mem s) m' h' T fl fl' -> Q tt (upd s m' h')) ->
  wp (freewalk root) Q s.
Proof.
  intros [Hf Hw Hd] Hh Hno HQ. set (m := k_mem s) in *.
  assert (Hleaf : forall p i, T !! p = Some 0 -> 0 <= i < 512 -> next_pt m p i = None).
  { intros p i Hp Hi. destruct (leaf_slot m T root p i Hw Hp Hi) as (va & Hva & El).
    apply next_pt_invalid. rewrite <- (Hno va Hva). by rewrite (pte_of_leaf _ _ _ _ El). }
  assert (HR : T !! root = Some (Z.of_nat 2)) by (by apply (wf_root _ _ _ Hw)).
  pose proof (pages_all m T root Hw Hleaf) as Hall.
  apply (freewalk_frees 3 64 ltac:(lia) root s fl); fold m; [by eapply pages_no_leaf|by eapply pages_nodup| |done| |done|].
  - apply Forall_forall. intros r [l Hr]%Hall. by apply (wf_page _ _ _ Hw r l).
  - intros q Hq%Hall Hin. rewrite (Hd q Hin) in Hq. by destruct Hq.
  - intros m' h' [H1 H2]. apply (HQ m' h' (rev (pages_of 3 m root) ++ fl)). split; [done| |].
    + intros p. rewrite elem_of_app, elem_of_rev, Hall. unfold owned. tauto.
    + intros a Ha. apply H2. intros q Hq%Hall. apply Ha. by right.
Qed.

(** uvmfree: the user pages are those below [sz], and nothing else is mapped. *)
Lemma wp_uvmfree root sz T fl L s (Q : unit -> kstate -> Prop) :
  user_inv (k_mem s) (k_freelist s) root T fl L -> L_kmem ∉ k_held s -> 0 <= sz <= MAXVA ->
  (forall v, is_Some (L !! v) <-> v mod PGSIZE = 0 /\ 0 <= v < PGROUNDUP sz) ->
  (forall va, 0 <= va < VATOP -> has (pte_of (k_mem s) root va) PTE_V = true -> is_Some (L !! PGROUNDDOWN va)) ->
  (forall m' h' fl', fl_inv m' h' fl' -> (forall p, p ∈ fl' <-> upage T fl L p) ->
     (forall a, (forall p, upage T fl L p -> ~ in_page p a) -> ldb m' a = ldb (k_mem s) a) -> Q tt (upd s m' h')) ->
  wp (uvmfree root sz) Q s.
Proof.
  intros Hi Hh Hsz HL Hc HQ. destruct (PGROUNDUP_le sz Hsz) as (A1 & A2 & A3). unfold uvmfree. wp_step.
  set (n := PGROUNDUP sz / PGSIZE). assert (Hn : PGROUNDUP sz = n * PGSIZE /\ 0 <= n) by (unfold n, PGSIZE in *; zmod). destruct Hn as [Hn Hn0].
  assert (Hgo : forall m1 h1 freed, user_inv m1 h1 root T (freed ++ fl) ∅ -> (forall p, p ∈ freed <-> exists va, L !! va = Some p) ->
    keeps T (freed ++ fl) (k_mem s) m1 -> (forall va, 0 <= va < VATOP -> has (pte_of m1 root va) PTE_V = false) ->
    wp (freewalk root) Q (upd s m1 h1)).
  { intros m1 h1 freed Hi1 Hfr Hk1 Hno. assert (Hup : forall p, owned T (freed ++ fl) p <-> upage T fl L p).
    { intros p. unfold upage, owned. rewrite elem_of_app, Hfr. tauto. }
    apply (wp_freewalk root T (freed ++ fl)); [apply Hi1|done|done|]. intros m' h' fl' [F1 F2 F3]. rewrite upd_upd.
    apply (HQ m' h' fl'); [done|intros p; by rewrite F2|]. intros a Ha. rewrite F3; [apply Hk1|]; intros p Hp; by apply Ha, Hup. }
  destruct (Z.ltb_spec 0 sz) as [Hpos|Hz].
  - unfold when. apply (wp_uvmunmap root T fl L); [done|done|done|lia|lia|unfold PGSIZE in *; lia| |].
    + intros i Hi'. apply HL. unfold PGSIZE in *. zmod.
    + intros m' h' freed Hi' Hfr Hk Hp. rewrite Z.add_0_l in Hp. fold n in Hi', Hfr, Hp.
      assert (Hcut : cut L 0 n = ∅).
      { apply map_eq. intros v. rewrite cut_lookup, lookup_empty. case_decide as Hd; [done|]. destruct (L !! v) as [q|] eqn:E; [|done].
        destruct (proj1 (HL v)) as [_ ?]; [by exists q|]. lia. }
      rewrite Hcut in Hi'. apply (Hgo m' h' freed); [done| |done|].
      * intros p. rewrite Hfr. split; [intros (i & _ & E); by exists (0 + i * PGSIZE)|]. intros (va & E).
        destruct (proj1 (HL va)) as [H1 H2]; [by exists p|]. exists (va / PGSIZE).
        replace (0 + va / PGSIZE * PGSIZE) with va by (unfold PGSIZE in *; zmod). split; [unfold PGSIZE in *; zmod|done].
      * intros va Hva. rewrite Hp by done. case_decide as Hd; [done|]. destruct (has (pte_of (k_mem s) root va) PTE_V) eqn:EV; [|done].
        destruct (proj1 (HL _) (Hc va Hva EV)) as [_ Hr]. rewrite PGROUNDDOWN_eq in Hr. unfold PGSIZE in *. zmod.
  - assert (sz = 0) as -> by lia. unfold when. wp_step. rewrite <- (upd_id s).
    assert (Hempty : forall v, L !! v = None).
    { intros v. destruct (L !! v) as [q|] eqn:E; [|done]. destruct (proj1 (HL v)) as [_ ?]; [by exists q|]. change (PGROUNDUP 0) with 0 in *. lia. }
    assert (HLe : L = ∅) by (apply map_empty; done). apply (Hgo (k_mem s) (k_freelist s) []); [by rewrite <- HLe| |done|].
    + intros p. rewrite elem_of_nil. split; [done|]. intros (va & E). by rewrite Hempty in E.
    + intros va Hva. destruct (has (pte_of (k_mem s) root va) PTE_V) eqn:EV; [|done]. destruct (Hc va Hva EV) as [q E]. by rewrite Hempty in E.
Qed.

(** uvmunmap of one page, without freeing what it maps. *)
Lemma wp_unmap_keep root va pa T fl s (Q : unit -> kstate -> Prop) :
  vm_inv (k_mem s) (k_freelist s) root T fl -> 0 <= va -> va + PGSIZE <= MAXVA -> va mod PGSIZE = 0 ->
  leaf_pte (pte_of (k_mem s) root va) pa ->
  (forall m', pt_step (k_mem s) (k_freelist s) m' (k_freelist s) root T T fl fl ->
     (forall v, 0 <= v < VATOP -> pte_of m' root v = if decide (PGROUNDDOWN v = va) then 0 else pte_of (k_mem s) root v) ->
     Q tt (upd s m' (k_freelist s))) ->
  wp (uvmunmap root va 1 false) Q s.
Proof.
  intros Hv Hva Hend Hal Hl HQ. unfold uvmunmap. rewrite Hal, Z.eqb_refl. cbn [negb].
  rewrite u64_small by (unfold MAXVA, PGSIZE in *; lia). pose proof (leaf_pte_V _ _ Hl) as HV.
  destruct (leaf_addr (k_mem s) root va) as [a|] eqn:Ha; [|exfalso; rewrite (pte_of_no_leaf _ _ _ Ha) in HV; discriminate HV].
  set (m' := st64 (k_mem s) a 0). assert (Hst : pt_step (k_mem s) (k_freelist s) m' (k_freelist s) root T T fl fl).
  { apply (pt_step_store _ _ _ _ _ va); [done|unfold PGSIZE in *; lia|done|lia]. }
  destruct (store_leaf T (k_mem s) root va a 0) as (_ & _ & Hp); [apply Hv|unfold PGSIZE in *; lia|done|lia|].
  apply (wp_loop _ (fun x s' => (x = va /\ s' = s) \/ (x = va + PGSIZE /\ s' = upd s m' (k_freelist s))) (fun x _ => va + PGSIZE - x)).
  - intros x s' [[-> ->]|[-> ->]]; unfold unmap_page.
    + rewrite (proj2 (Z.ltb_lt _ _)) by (unfold PGSIZE; lia). wp_step. apply wp_walk_noalloc; [unfold PGSIZE in *; lia|].
      rewrite Ha. simpl default. rewrite (proj2 (Z.eqb_neq a 0)) by (eapply leaf_addr_nonzero; [apply Hv|done]).
      unfold ld. wp_step. wp_step. rewrite <- (pte_of_leaf _ _ _ _ Ha), HV. cbn [negb].
      rewrite (proj2 (Z.eqb_neq _ _) (leaf_pte_flags _ _ Hl)). unfold when, st. do 4 wp_step.
      rewrite u64_small by (unfold MAXVA, PGSIZE in *; lia). split; [right; split; [done|by destruct s]|unfold PGSIZE; lia].
    + rewrite (proj2 (Z.ltb_ge _ _)) by (unfold PGSIZE; lia). wp_step. apply HQ; [done|]. intros v Hr. unfold m'. rewrite Hp by done.
      rewrite PGROUNDDOWN_eq. clear - Hal. repeat case_decide; try done; exfalso; unfold PGSIZE in *; zmod.
  - by left.
  - unfold PGSIZE. lia.
Qed.

(** ** The address space of a process *)
Definition RX : Z := Z.lor PTE_R PTE_X.
Definition RW : Z := Z.lor PTE_R PTE_W.

(** User pages [L] below the trapframe, the page [tf] and the trampoline above,
    and nothing else. *)
Record space m h root T fl L (tf : Z) : Prop := {
  sp_user : user_inv m h root T fl L;
  sp_tramp : pte_of m root TRAMPOLINE = mkpte trampoline RX;
  sp_frame : pte_of m root TRAPFRAME = mkpte tf RW;
  sp_tf : page_ok tf;
  sp_only va : 0 <= va < VATOP -> has (pte_of m root va) PTE_V = true ->
    is_Some (L !! PGROUNDDOWN va) \/ PGROUNDDOWN va = TRAMPOLINE \/ PGROUNDDOWN va = TRAPFRAME;
  sp_below v : is_Some (L !! v) -> v < TRAPFRAME
}.

(** A write inside a page that no one but [tf] owns. *)
Lemma user_inv_data m h root T fl L q m' :
  user_inv m h root T fl L -> page_ok q -> ~ upage T fl L q -> (forall a, ~ in_page q a -> ldb m' a = ldb m a) ->
  user_inv m' h root T fl L /\ forall va, pte_of m' root va = pte_of m root va.
Proof.
  intros [H1 H2 H3 H4 H5 H6] Hq Hno He. destruct (vm_inv_data m h root T fl q m' H1 Hq) as [Hv Hp]; [intros Ho; apply Hno; by left|done|].
  split; [|done]. split; try done. intros va pa Hl. rewrite Hp. eauto.
Qed.

Lemma space_data m h root T fl L tf q m' :
  space m h root T fl L tf -> page_ok q -> ~ upage T fl L q -> (forall a, ~ in_page q a -> ldb m' a = ldb m a) -> space m' h root T fl L tf.
Proof.
  intros [H1 H2 H3 H4 H5 H6] Hq Hno He. destruct (user_inv_data _ _ _ _ _ _ _ _ H1 Hq Hno He) as [Hu Hp].
  split; rewrite ?Hp; try done. intros va Hva. rewrite Hp. by apply H5.
Qed.

(** A page goes back to the free list. *)
Lemma space_free m h root T fl L tf q m' :
  space m h root T fl L tf -> page_ok q -> ~ upage T fl L q -> fl_inv m' q (q :: fl) ->
  (forall a, ~ in_page q a -> ldb m' a = ldb m a) -> space m' q root T (q :: fl) L tf.
Proof.
  intros [H1 H2 H3 H4 H5 H6] Hq Hno Hf He. destruct (user_inv_data _ _ _ _ _ _ _ _ H1 Hq Hno He) as [[[_ Hw Hd] U2 U3 U4 U5 U6] Hp].
  split; rewrite ?Hp; try done; [|intros va Hva; rewrite Hp; by apply H5]. split; try done.
  - split; [done|done|]. intros p [-> |Hin]%elem_of_cons; [|by apply Hd].
    destruct (T !! q) as [l|] eqn:E; [|done]. exfalso. apply Hno. left. right. by exists l.
  - intros va pa Hl [[-> |Hin]%elem_of_cons|Hin]; [apply Hno; right; by exists va|..]; eapply U5; [exact Hl|by left|exact Hl|by right].
Qed.

Lemma tramp_56 : 0 <= trampoline < 2 ^ 56 /\ trampoline + PGSIZE + PGSIZE <= 2 ^ 56.
Proof.
  destruct trampoline_range as [H1 H2]. destruct etext_range as [_ H3]. destruct kend_range as [_ H4].
  unfold PHYSTOP, KERNBASE, PGSIZE in *. change (2 ^ 56) with 72057594037927936. lia.
Qed.
Lemma tramp_va : 0 <= TRAMPOLINE /\ TRAMPOLINE + PGSIZE <= MAXVA /\ TRAMPOLINE mod PGSIZE = 0 /\ PGROUNDDOWN TRAMPOLINE = TRAMPOLINE.
Proof. by vm_compute. Qed.
Lemma frame_va : 0 <= TRAPFRAME /\ TRAPFRAME + PGSIZE <= MAXVA /\ TRAPFRAME mod PGSIZE = 0 /\ PGROUNDDOWN TRAPFRAME = TRAPFRAME.
Proof. by vm_compute. Qed.
Lemma tramp_leaf : leaf_pte (mkpte trampoline RX) trampoline.
Proof. apply leaf_mkpte_pa; [apply tramp_56|apply trampoline_aligned|by vm_compute|by vm_compute]. Qed.
Lemma frame_leaf tf : page_ok tf -> leaf_pte (mkpte tf RW) tf.
Proof. intros H. apply leaf_mkpte; [done|by vm_compute|by vm_compute]. Qed.

(** The user pages when one of the two special pages goes. *)
Lemma unmap_special m h m' root T fl L va : user_inv m h root T fl L -> (forall v, is_Some (L !! v) -> v < TRAPFRAME) -> TRAPFRAME <= va ->
  pt_step m h m' h root T T fl fl ->
  (forall v, 0 <= v < VATOP -> pte_of m' root v = if decide (PGROUNDDOWN v = va) then 0 else pte_of m root v) ->
  user_inv m' h root T fl L.
Proof.
  intros Hi Hb Hva Hst Hp. eapply user_inv_step; [done|done|]. intros v pa Hv.
  destruct (ui_va _ _ _ _ _ _ Hi _ _ Hv) as [Hr Hal]. rewrite Hp by (by apply va_vatop).
  rewrite decide_False; [done|]. intros E. rewrite PGROUNDDOWN_eq, Hal in E. specialize (Hb v ltac:(by exists pa)). lia.
Qed.

Lemma wp_proc_freepagetable root sz T fl L tf s (Q : unit -> kstate -> Prop) :
  space (k_mem s) (k_freelist s) root T fl L tf -> L_kmem ∉ k_held s -> 0 <= sz <= MAXVA ->
  (forall v, is_Some (L !! v) <-> v mod PGSIZE = 0 /\ 0 <= v < PGROUNDUP sz) ->
  (forall m' h' fl', fl_inv m' h' fl' -> (forall p, p ∈ fl' <-> upage T fl L p) ->
     (forall a, (forall p, upage T fl L p -> ~ in_page p a) -> ldb m' a = ldb (k_mem s) a) -> Q tt (upd s m' h')) ->
  wp (proc_freepagetable root sz) Q s.
Proof.
  intros [Hi Htr Hfr Htf Honly Hbelow] Hh Hsz HL HQ. unfold proc_freepagetable. wp_step.
  destruct tramp_va as (A1 & A2 & A3 & A4), frame_va as (B1 & B2 & B3 & B4).
  apply (wp_unmap_keep root TRAMPOLINE trampoline T fl); [apply Hi|done|done|done|rewrite Htr; apply tramp_leaf|].
  intros m1 Hst1 Hp1. set (s1 := upd s m1 (k_freelist s)). assert (Hlt : TRAPFRAME < TRAMPOLINE) by by vm_compute.
  pose proof (unmap_special _ _ _ _ _ _ _ _ Hi Hbelow (Z.lt_le_incl _ _ Hlt) Hst1 Hp1) as Hi1. wp_step.
  apply (wp_unmap_keep root TRAPFRAME tf T fl); [apply Hst1|done|done|done| |].
  { change (k_mem s1) with m1. rewrite Hp1 by by vm_compute. rewrite B4, decide_False by lia. rewrite Hfr. by apply frame_leaf. }
  intros m2 Hst2 Hp2. change (k_mem s1) with m1 in *. change (k_freelist s1) with (k_freelist s) in *.
  unfold s1. rewrite upd_upd.
  pose proof (unmap_special _ _ _ _ _ _ _ _ Hi1 Hbelow (Z.le_refl _) Hst2 Hp2) as Hi2.
  apply (wp_uvmfree root sz T fl L); [done|done|done|done| |].
  - intros va Hva. change (k_mem (upd s m2 (k_freelist s))) with m2. rewrite Hp2 by done. case_decide; [done|].
    rewrite Hp1 by done. case_decide; [done|]. intros HV. destruct (Honly va Hva HV) as [?|[?|?]]; done.
  - intros m' h' fl' H1 H2 H3. rewrite upd_upd. apply (HQ m' h' fl'); [done|done|]. intros a Ha. rewrite H3 by done.
    change (k_mem (upd s m2 (k_freelist s))) with m2. pose proof (ps_keeps _ _ _ _ _ _ _ _ _ Hst1) as K1. pose proof (ps_keeps _ _ _ _ _ _ _ _ _ Hst2) as K2.
    rewrite K2, K1; [done|intros p Hp; apply Ha; by left..].
Qed.

(** ** Making one *)
Lemma wp_uvmcreate fl s (Q : Z -> kstate -> Prop) :
  fl_inv (k_mem s) (k_freelist s) fl -> L_kmem ∉ k_held s ->
  (fl = [] -> Q 0 s) ->
  (forall root fl' m' h', fl = root :: fl' -> user_inv m' h' root {[root := 2]} fl' ∅ -> (forall va, pte_of m' root va = 0) ->
     (forall a, ~ in_page root a -> ldb m' a = ldb (k_mem s) a) -> Q root (upd s m' h')) ->
  wp uvmcreate Q s.
Proof.
  intros Hf Hh HN HS. unfold uvmcreate. wp_step. apply (wp_kalloc fl); [done|done| |].
  { intros ->. rewrite Z.eqb_refl. wp_step. by apply HN. }
  intros root fl' -> Hok Hni m1 h1 Hf1. pose proof (page_ok_pos root Hok). rewrite (proj2 (Z.eqb_neq root 0)) by lia.
  unfold zero_page. do 3 wp_step. rewrite set_mem_upd. set (m' := memset m1 root 0 PGSZ).
  assert (Hout : forall a, ~ in_page root a -> ldb m' a = ldb (k_mem s) a).
  { intros a Ha. unfold m', m1. by rewrite !memset_page_out. }
  assert (Hz : forall i, 0 <= i < 512 -> pte_at m' root i = 0).
  { intros i Hi. rewrite <- ld64_pte_at. unfold m'. apply ld64_memset_in; [|rewrite PGSZ_Z; unfold PGSIZE; lia]. lia. }
  apply (HS root fl'); [done| | |done].
  - apply empty_root; [|done|done|done]. eapply fl_inv_outside; [exact Hf1|done|done|]. intros a Ha. by apply memset_page_out.
  - intros va. apply pte_of_no_leaf, leaf_addr_none. left. apply next_pt_invalid. by rewrite Hz by by apply PX_range.
Qed.

(** What proc_pagetable maps: one page, at a special address. *)
Lemma wp_map_special root va pa perm T fl s (Q : Z -> kstate -> Prop) :
  user_inv (k_mem s) (k_freelist s) root T fl ∅ -> L_kmem ∉ k_held s ->
  0 <= va -> va + PGSIZE <= MAXVA -> va mod PGSIZE = 0 -> pa mod PGSIZE = 0 -> 0 <= pa -> pa + PGSIZE + PGSIZE <= 2 ^ 56 -> 0 <= perm < 1024 ->
  has (pte_of (k_mem s) root va) PTE_V = false ->
  (forall m' h' T' fl', user_inv m' h' root T' fl' ∅ -> pt_step (k_mem s) (k_freelist s) m' h' root T T' fl fl' ->
     (forall v, 0 <= v < VATOP -> pte_of m' root v = if decide (PGROUNDDOWN v = va) then mkpte pa perm else pte_of (k_mem s) root v) ->
     Q 0 (upd s m' h')) ->
  (forall m' h' T', user_inv m' h' root T' [] ∅ -> pt_step (k_mem s) (k_freelist s) m' h' root T T' fl [] ->
     (forall v, 0 <= v < VATOP -> pte_of m' root v = pte_of (k_mem s) root v) -> Q (-1) (upd s m' h')) ->
  wp (mappages root va PGSIZE pa perm) Q s.
Proof.
  intros Hi Hh Hva Hend Hal Hpal Hpa Hpe Hperm Hno HS HF.
  assert (Hn : num_pages va PGSIZE = 1) by (unfold num_pages; rewrite !PGROUNDDOWN_eq; unfold PGSIZE in *; zmod).
  assert (Ha0 : PGROUNDDOWN va = va) by (rewrite PGROUNDDOWN_eq; unfold PGSIZE in *; zmod).
  apply (wp_mappages root va PGSIZE pa perm T fl s); [apply Hi|done|done|done|done|done|done|done|done| | |].
  - intros b Hb. rewrite Ha0 in Hb. rewrite (pte_of_same_page _ _ b va); [done|]. unfold PGSIZE in *. zmod.
  - rewrite Ha0, Hn. intros m' h' T' fl' [Hst Hp]. apply (HS m' h' T' fl'); [by eapply user_inv_step|done|].
    intros v Hv. rewrite Hp by done. unfold map_range. case_decide as Hd.
    + pose proof (PGROUNDDOWN_eq v) as E. rewrite Hd in E. rewrite (proj2 (Z.leb_le _ _)), (proj2 (Z.ltb_lt _ _)) by (unfold PGSIZE in *; zmod).
      cbn [andb]. f_equal. lia.
    + destruct (Z.leb_spec va v), (Z.ltb_spec v (va + 1 * PGSIZE)); cbn [andb]; try done. exfalso. apply Hd.
      rewrite PGROUNDDOWN_eq. unfold PGSIZE in *. zmod.
  - rewrite Ha0, Hn. intros m' h' T' k Hk [Hst Hp]. replace k with 0 in * by lia. apply (HF m' h' T'); [by eapply user_inv_step|done|].
    intros v Hv. rewrite Hp by done. apply map_range_0.
Qed.

(** All the pages of [fl] are on the free list, in some order, and nothing outside them has changed. *)
Definition refunded m fl m' h' : Prop :=
  exists fl', fl_inv m' h' fl' /\ (forall q, q ∈ fl' <-> q ∈ fl) /\ forall a, (forall q, q ∈ fl -> ~ in_page q a) -> ldb m' a = ldb m a.

(** uvmfree(pagetable, 0) of a table whose pages came from [fl]. *)
Lemma wp_uvmfree_new root T fl fl0 m s (Q : unit -> kstate -> Prop) :
  user_inv (k_mem s) (k_freelist s) root T fl ∅ -> L_kmem ∉ k_held s ->
  (forall va, 0 <= va < VATOP -> has (pte_of (k_mem s) root va) PTE_V = false) ->
  (forall p, owned T fl p <-> p ∈ fl0) -> (forall a, (forall q, q ∈ fl0 -> ~ in_page q a) -> ldb (k_mem s) a = ldb m a) ->
  (forall m' h', refunded m fl0 m' h' -> Q tt (upd s m' h')) ->
  wp (uvmfree root 0) Q s.
Proof.
  intros Hi Hh Hno Ho Hk HQ. apply (wp_uvmfree root 0 T fl ∅); [done|done|unfold MAXVA; lia| | |].
  - intros v. rewrite lookup_empty. split; [by intros []|]. change (PGROUNDUP 0) with 0. lia.
  - intros va Hva HV. by rewrite Hno in HV.
  - intros m' h' fl' H1 H2 H3. assert (Hup : forall p, upage T fl ∅ p <-> p ∈ fl0).
    { intros p. unfold upage. rewrite Ho. split; [|by left]. intros [?|(va & E)]; [done|]. by rewrite lookup_empty in E. }
    apply HQ. exists fl'. split_and!; [done|intros q; by rewrite H2, Hup|]. intros a Ha. rewrite H3; [by apply Hk|].
    intros p Hp%Hup. by apply Ha.
Qed.

Lemma wp_proc_pagetable p fl s (Q : Z -> kstate -> Prop) :
  let tf := p_trapframe (proc_of s p) in
  fl_inv (k_mem s) (k_freelist s) fl -> L_kmem ∉ k_held s -> page_ok tf ->
  (forall m' h', refunded (k_mem s) fl m' h' -> Q 0 (upd s m' h')) ->
  (forall root m' h' T fl', space m' h' root T fl' ∅ tf -> (forall q, owned T fl' q <-> q ∈ fl) ->
     (forall a, (forall q, q ∈ fl -> ~ in_page q a) -> ldb m' a = ldb (k_mem s) a) -> root <> 0 -> Q root (upd s m' h')) ->
  wp (proc_pagetable p) Q s.
Proof.
  intros tf Hf Hh Htf HF HS. unfold proc_pagetable. wp_step. destruct tramp_va as (A1 & A2 & A3 & A4), frame_va as (B1 & B2 & B3 & B4).
  apply (wp_uvmcreate fl); [done|done| |].
  { intros ->. rewrite Z.eqb_refl. wp_step. rewrite <- (upd_id s). apply HF. by exists []. }
  intros root fl1 m1 h1 -> Hi1 Hz1 Hk1. assert (Hroot : page_ok root) by (apply (wf_page _ _ _ (vi_tree _ _ _ _ _ (ui_vm _ _ _ _ _ _ Hi1)) root 2), lookup_singleton_eq).
  pose proof (page_ok_pos root Hroot). rewrite (proj2 (Z.eqb_neq root 0)) by lia.
  assert (Ho1 : forall q, owned {[root := 2]} fl1 q <-> q ∈ root :: fl1).
  { intros q. unfold owned. rewrite elem_of_cons, lookup_singleton_is_Some. split; [intros [?| ->]|intros [-> |?]]; auto. }
  assert (Hz : forall va, has (pte_of m1 root va) PTE_V = false) by (intros va; by rewrite Hz1).
  assert (Hk1' : forall a, (forall q, q ∈ root :: fl1 -> ~ in_page q a) -> ldb m1 a = ldb (k_mem s) a)
    by (intros a Ha; apply Hk1, Ha; left).
  wp_step. apply (wp_map_special root TRAMPOLINE trampoline RX {[root := 2]} fl1); [done|done|done|done|done|apply trampoline_aligned|apply tramp_56..|by vm_compute|apply Hz| |].
  2: { intros m2 h2 T2 Hi2 Hst2 Hp2. cbn [k_mem k_freelist upd] in *. rewrite upd_upd. cbn [Z.ltb Z.compare]. wp_step.
       apply (wp_uvmfree_new root T2 [] (root :: fl1) (k_mem s)); [done|done|intros va Hva; cbn; by rewrite Hp2| | |].
       - intros q. by rewrite <- Ho1, (pt_step_owned _ _ _ _ _ _ _ _ _ _ Hst2).
       - intros a Ha. cbn. rewrite (ps_keeps _ _ _ _ _ _ _ _ _ Hst2); [by apply Hk1'|]. intros q Hq%Ho1. by apply Ha.
       - intros m3 h3 H3. rewrite upd_upd. wp_step. by apply HF. }
  intros m2 h2 T2 fl2 Hi2 Hst2 Hp2. cbn [k_mem k_freelist upd] in *. rewrite upd_upd. cbn [Z.ltb Z.compare]. unfold getp. do 3 wp_step.
  change (proc_of (upd s m2 h2) p) with (proc_of s p). fold tf.
  assert (Ho2 : forall q, owned T2 fl2 q <-> q ∈ root :: fl1) by (intros q; by rewrite <- Ho1, (pt_step_owned _ _ _ _ _ _ _ _ _ _ Hst2)).
  assert (Hk2 : forall a, (forall q, q ∈ root :: fl1 -> ~ in_page q a) -> ldb m2 a = ldb (k_mem s) a).
  { intros a Ha. rewrite (ps_keeps _ _ _ _ _ _ _ _ _ Hst2); [by apply Hk1'|]. intros q Hq%Ho1. by apply Ha. }
  destruct (page_ok_56 tf Htf) as [T1 T3]. assert (Hlt : TRAPFRAME < TRAMPOLINE) by by vm_compute.
  apply (wp_map_special root TRAPFRAME tf RW T2 fl2); [done|done|done|done|done|apply Htf|lia|done|by vm_compute| | |].
  { cbn. rewrite Hp2, B4, decide_False, Hz1 by (lia || by vm_compute). done. }
  - intros m3 h3 T3' fl3 Hi3 Hst3 Hp3. cbn [k_mem k_freelist upd] in *. rewrite upd_upd. cbn [Z.ltb Z.compare]. wp_step.
    assert (Ho3 : forall q, owned T3' fl3 q <-> q ∈ root :: fl1) by (intros q; by rewrite <- Ho2, (pt_step_owned _ _ _ _ _ _ _ _ _ _ Hst3)).
    apply (HS root m3 h3 T3' fl3); [|done| |lia].
    + split; [done| | | | |].
      * rewrite Hp3, A4, decide_False, Hp2, A4, decide_True by (lia || by vm_compute). done.
      * rewrite Hp3, B4, decide_True by (lia || by vm_compute). done.
      * done.
      * intros va Hva. rewrite Hp3 by done. case_decide; [auto|]. rewrite Hp2 by done. case_decide; [auto|]. by rewrite Hz.
      * intros v. rewrite lookup_empty. by intros [].
    + intros a Ha. rewrite (ps_keeps _ _ _ _ _ _ _ _ _ Hst3); [by apply Hk2|]. intros q Hq%Ho2. by apply Ha.
  - intros m3 h3 T3' Hi3 Hst3 Hp3. cbn [k_mem k_freelist upd] in *. rewrite upd_upd. cbn [Z.ltb Z.compare]. wp_step.
    apply (wp_unmap_keep root TRAMPOLINE trampoline T3' []); [apply Hi3|done|done|done| |].
    { cbn. rewrite Hp3, Hp2, A4, decide_True by (done || by vm_compute). apply tramp_leaf. }
    intros m4 Hst4 Hp4. cbn [k_mem k_freelist upd] in *. rewrite upd_upd. wp_step.
    assert (Ho4 : forall q, owned T3' [] q <-> q ∈ root :: fl1) by (intros q; by rewrite <- Ho2, (pt_step_owned _ _ _ _ _ _ _ _ _ _ Hst3)).
    apply (wp_uvmfree_new root T3' [] (root :: fl1) (k_mem s)); [by eapply user_inv_step|done| |done| |].
    + intros va Hva. cbn. rewrite Hp4 by done. case_decide; [done|]. rewrite Hp3, Hp2 by done. by rewrite decide_False.
    + intros a Ha. cbn. rewrite (ps_keeps _ _ _ _ _ _ _ _ _ Hst4) by (intros q Hq%Ho4; by apply Ha).
      rewrite (ps_keeps _ _ _ _ _ _ _ _ _ Hst3); [by apply Hk2|]. intros q Hq%Ho2. by apply Ha.
    + intros m5 h5 H5. rewrite upd_upd. wp_step. by apply HF.
Qed.
End Space.
