(* ===== verification/Fork.v ===== *)
(** * Making a process: allocproc, freeproc, fork *)
From S2P Require Import Prelude Memory State Kalloc Vm PageTable VmSpec UserMem UserCopy FreeWalk VmTheorems Sched SchedSpec Sleeplock Codec Fs FsSpec FsPath File Trapframe Proc ProcMem MmapSpec.

(** The state [s] in which slot [i] of the process table is [c], and locks,
    memory, pids, open files and inodes have changed. *)
Definition forked (s : kstate) (i : nat) (hd : list lockid) (m : mem) (h pid : Z) (ft : list file) (it : list inode) (c : proc) : kstate :=
  set_held (fun _ => hd) (set_nextpid (fun _ => pid) (set_proc (alter (fun _ => c) i) (set_ftable (fun _ => ft) (set_itable (fun _ => it) (upd s m h))))).

Section Fork.
Context `{KI : KernelImage} `{KOK : !KernelImageOk}.
Context (s : kstate) (i : nat) (Hi : (i < length (k_proc s))%nat).
Implicit Types (hd : list lockid) (m : mem) (h pid : Z) (ft : list file) (it : list inode) (c : proc).

Lemma forked_proc hd m h pid ft it c : proc_of (forked s i hd m h pid ft it c) i = c.
Proof. unfold proc_of. cbn. rewrite list_lookup_alter_eq. by destruct (lookup_lt_is_Some_2 _ _ Hi) as [x ->]. Qed.
Lemma forked_other hd m h pid ft it c j : j <> i -> proc_of (forked s i hd m h pid ft it c) j = proc_of s j.
Proof. intros Hj. unfold proc_of. cbn. by rewrite list_lookup_alter_ne. Qed.

Lemma forked_modp hd m h pid ft it c f : set_proc (alter f i) (forked s i hd m h pid ft it c) = forked s i hd m h pid ft it (f c).
Proof. unfold forked, set_proc, set_held, set_nextpid. cbn. f_equal. apply alter_alter. Qed.
Lemma forked_upd hd m h pid ft it c m' h' : upd (forked s i hd m h pid ft it c) m' h' = forked s i hd m' h' pid ft it c.
Proof. done. Qed.
Lemma forked_mem hd m h pid ft it c f : set_mem f (forked s i hd m h pid ft it c) = forked s i hd (f m) h pid ft it c.
Proof. done. Qed.
Lemma forked_held hd m h pid ft it c f : set_held f (forked s i hd m h pid ft it c) = forked s i (f hd) m h pid ft it c.
Proof. done. Qed.

(** Steps of the process being made. *)
Lemma wp_modc hd m h pid ft it c f (Q : unit -> kstate -> Prop) :
  Q tt (forked s i hd m h pid ft it (f c)) -> wp (modp i f) Q (forked s i hd m h pid ft it c).
Proof. intros HQ. unfold modp. wp_step. by rewrite forked_modp. Qed.
Lemma wp_getc hd m h pid ft it c (Q : proc -> kstate -> Prop) :
  Q c (forked s i hd m h pid ft it c) -> wp (getp i) Q (forked s i hd m h pid ft it c).
Proof. intros HQ. unfold getp. wp_step. by rewrite forked_proc. Qed.

(** ** freeproc *)

(** A slot of the process table that is not in use. *)
Definition cleared (c : proc) : proc :=
  mkProc UNUSED Ch_zero false 0 0 None (p_kstack c) 0 0 0 (p_context c) (p_ofile c) (p_vmas c) (p_cwd c) (<[0%nat := 0]> (p_name c)).

(** What the process owns, besides the free list: nothing, its trapframe, or an
    address space too. *)
Definition owns_mem m h (fl : list Z) c (pg : Z -> Prop) : Prop :=
  let tf := p_trapframe c in let root := p_pagetable c in
  (tf = 0 /\ root = 0 /\ fl_inv m h fl /\ (forall q, pg q <-> q ∈ fl)) \/
  (page_ok tf /\ tf ∉ fl /\ root = 0 /\ fl_inv m h fl /\ (forall q, pg q <-> q = tf \/ q ∈ fl)) \/
  (root <> 0 /\ exists T L, space m h root T fl L tf /\ ~ upage T fl L tf /\ 0 <= p_sz c <= MAXVA /\
     (forall v, is_Some (L !! v) <-> v mod PGSIZE = 0 /\ 0 <= v < PGROUNDUP (p_sz c)) /\
     (forall q, pg q <-> q = tf \/ upage T fl L q)).

(** All of [pg] is on the free list. *)
Definition all_free m (pg : Z -> Prop) m' h' : Prop :=
  exists fl', fl_inv m' h' fl' /\ (forall q, q ∈ fl' <-> pg q) /\ forall a, (forall q, pg q -> ~ in_page q a) -> ldb m' a = ldb m a.

Lemma kfree_out m q h a : ~ in_page q a -> ldb (st64 (memset m q 1 PGSZ) q h) a = ldb m a.
Proof. intros Ha. rewrite ldb_st64 by (unfold in_page, PGSIZE in *; lia). by apply memset_page_out. Qed.

Lemma wp_freeproc hd m h pid ft it c fl pg (Q : unit -> kstate -> Prop) :
  owns_mem m h fl c pg -> L_kmem ∉ hd ->
  (forall m' h', all_free m pg m' h' -> Q tt (forked s i hd m' h' pid ft it (cleared c))) ->
  wp (freeproc i) Q (forked s i hd m h pid ft it c).
Proof.
  intros Hown Hh HQ. unfold freeproc. wp_step. apply wp_getc.
  assert (Hrest : forall m1 h1, all_free m pg m1 h1 ->
    wp (modp i (set_p_pagetable 0);;; modp i (set_p_sz 0);;; modp i (set_p_pid 0);;; modp i (set_p_parent None);;;
        modp i (fun p => set_p_name (<[0%nat := 0]> (p_name p)) p);;; modp i (set_p_chan Ch_zero);;;
        modp i (set_p_killed false);;; modp i (set_p_xstate 0);;; modp i (set_p_state UNUSED)) Q (forked s i hd m1 h1 pid ft it (set_p_trapframe 0 c))).
  { intros m1 h1 Hall. do 8 (wp_step; apply wp_modc). apply wp_modc. exact (HQ m1 h1 Hall). }
  destruct Hown as [(E1 & E2 & Hf & Hpg)|[(Htf & Hni & E2 & Hf & Hpg)|(Hroot & T & L & Hsp & Hno & Hsz & HL & Hpg)]].
  - rewrite E1, E2, Z.eqb_refl. cbn [negb]. unfold when at 1. wp_step. wp_step. wp_step. apply wp_modc.
    unfold when. wp_step. wp_step. apply Hrest. exists fl. split_and!; [done|intros q; by rewrite Hpg|done].
  - pose proof (page_ok_pos _ Htf). rewrite (proj2 (Z.eqb_neq (p_trapframe c) 0)) by lia. rewrite E2, Z.eqb_refl. cbn [negb]. unfold when at 1. wp_step.
    apply (wp_kfree fl); [done|done|done|done|]. intros m1 Hf1. rewrite forked_upd. wp_step. apply wp_modc. unfold when. wp_step. wp_step.
    apply Hrest. exists (p_trapframe c :: fl). split_and!; [done|intros q; by rewrite Hpg, elem_of_cons|].
    intros a Ha. apply kfree_out, Ha, Hpg. by left.
  - pose proof (sp_tf _ _ _ _ _ _ _ Hsp) as Htf. pose proof (page_ok_pos _ Htf). rewrite (proj2 (Z.eqb_neq (p_trapframe c) 0)) by lia.
    rewrite (proj2 (Z.eqb_neq (p_pagetable c) 0)) by done. cbn [negb]. unfold when at 1. wp_step.
    apply (wp_kfree fl); [apply Hsp|done|intros Hin; apply Hno; left; by left|done|]. intros m1 Hf1. rewrite forked_upd. wp_step. apply wp_modc. unfold when. wp_step.
    assert (Hout : forall a, ~ in_page (p_trapframe c) a -> ldb m1 a = ldb m a) by (intros a Ha; by apply kfree_out).
    assert (Hup : forall q, upage T (p_trapframe c :: fl) L q <-> pg q).
    { intros q. rewrite Hpg. unfold upage, owned. rewrite elem_of_cons. tauto. }
    eapply (wp_proc_freepagetable _ _ T (p_trapframe c :: fl) L (p_trapframe c)); [by apply (space_free m h)|done|done|done|].
    intros m2 h2 fl2 F1 F2 F3. rewrite forked_upd. apply Hrest. exists fl2. split_and!; [done|intros q; by rewrite F2, Hup|].
    intros a Ha. rewrite F3; [apply Hout, Ha, Hpg; by left|]. intros q Hq%Hup. by apply Ha.
Qed.

(** ** allocproc *)
Definition fresh_vmas : list vma := replicate NVMA vma0.
Definition born (c : proc) (pid tf root : Z) : proc :=
  mkProc USED (p_chan c) (p_killed c) (p_xstate c) pid (p_parent c) (p_kstack c) (p_sz c) root tf
    (mkContext a_forkret (u64 (p_kstack c + PGSIZE)) (replicate 12 0)) (p_ofile c) fresh_vmas (p_cwd c) (p_name c).

(** An address space with no user memory, made from the pages of [fl]. *)
Definition made m (fl : list Z) m' h' (root tf : Z) (T : gmap Z Z) (fl' : list Z) : Prop :=
  space m' h' root T fl' ∅ tf /\ ~ owned T fl' tf /\ root <> 0 /\ (forall q, q ∈ fl <-> q = tf \/ owned T fl' q) /\
  forall a, (forall q, q ∈ fl -> ~ in_page q a) -> ldb m' a = ldb m a.

Lemma upage_empty T fl q : upage T fl ∅ q <-> owned T fl q.
Proof. unfold upage. split; [intros [?|(va & E)]; [done|by rewrite lookup_empty in E]|by left]. Qed.

Lemma wp_allocproc_found m h pid ft it c fl (Q : option nat -> kstate -> Prop) :
  fl_inv m h fl -> p_pagetable c = 0 -> p_sz c = 0 ->
  (forall m' h', all_free m (fun q => q ∈ fl) m' h' ->
     Q None (forked s i [] m' h' (s32 (pid + 1)) ft it (cleared (set_p_vmas fresh_vmas c)))) ->
  (forall m' h' root tf T fl', made m fl m' h' root tf T fl' ->
     Q (Some i) (forked s i [L_proc i] m' h' (s32 (pid + 1)) ft it (born c pid tf root))) ->
  wp (allocproc_found i) Q (forked s i [L_proc i] m h pid ft it c).
Proof.
  intros Hf Hpt Hsz HF HS. assert (Hl : L_pid ∉ [L_proc i] /\ L_kmem ∉ [L_proc i]) by (rewrite !list_elem_of_singleton; done). destruct Hl as [Hl1 Hl2].
  assert (Hfail : forall m1 h1 c1 fl1, owns_mem m1 h1 fl1 c1 (fun q => q ∈ fl) -> cleared c1 = cleared (set_p_vmas fresh_vmas c) ->
    (forall a, (forall q, q ∈ fl -> ~ in_page q a) -> ldb m1 a = ldb m a) ->
    wp (freeproc i;;; release (L_proc i);;; ret None) Q (forked s i [L_proc i] m1 h1 (s32 (pid + 1)) ft it c1)).
  { intros m1 h1 c1 fl1 Hown Hc Hk. wp_step. apply (wp_freeproc _ _ _ _ _ _ _ fl1 (fun q => q ∈ fl)); [done|done|].
    intros m2 h2 (fl2 & F1 & F2 & F3). wp_step. eapply wp_release_last; [reflexivity|apply not_elem_of_nil|]. rewrite forked_held. wp_step. rewrite Hc. apply HF.
    exists fl2. split_and!; [done|done|]. intros a Ha. rewrite F3 by done. by apply Hk. }
  unfold allocproc_found. wp_step. apply wp_allocpid; [done|]. set (F1 := set_nextpid _ _). change F1 with (forked s i [L_proc i] m h (s32 (pid + 1)) ft it c).
  change (k_nextpid (forked s i [L_proc i] m h pid ft it c)) with pid. do 3 (wp_step; apply wp_modc). wp_step.
  set (c1 := set_p_vmas _ _). apply (wp_kalloc fl); [done|done| |].
  - intros ->. wp_step. apply wp_modc. rewrite Z.eqb_refl. apply (Hfail m h _ []); [|done|done]. left. by split_and!.
  - intros tf fl1 -> Htf Hni m1 h1 Hf1. rewrite forked_upd. wp_step. apply wp_modc. pose proof (page_ok_pos _ Htf).
    rewrite (proj2 (Z.eqb_neq tf 0)) by lia. wp_step. set (c2 := set_p_trapframe tf c1).
    assert (Hk1 : forall a, (forall q, q ∈ tf :: fl1 -> ~ in_page q a) -> ldb m1 a = ldb m a) by (intros a Ha; apply memset_page_out, Ha; left).
    apply (wp_proc_pagetable i fl1); rewrite ?forked_proc; [done|done|done| |].
    + intros m2 h2 (fl2 & G1 & G2 & G3). rewrite forked_upd. wp_step. apply wp_modc. rewrite Z.eqb_refl.
      apply (Hfail m2 h2 _ fl2); [|done|]. { right. left. cbn. split_and!; [done|by rewrite G2|done|done|intros q; by rewrite elem_of_cons, G2]. }
      intros a Ha. cbn in G3. rewrite G3; [by apply Hk1|]. intros q Hq. apply Ha. by right.
    + intros root m2 h2 T fl2 Hsp Ho Hk2 Hr. rewrite forked_upd. wp_step. apply wp_modc. rewrite (proj2 (Z.eqb_neq root 0)) by done. wp_step. apply wp_modc. wp_step.
      apply (HS m2 h2 root tf T fl2). split_and!; [done|by rewrite Ho|done|intros q; by rewrite elem_of_cons, Ho|].
      intros a Ha. cbn in Hk2. rewrite Hk2; [by apply Hk1|]. intros q Hq. apply Ha. by right.
Qed.
End Fork.

Section Allocproc.
Context `{KI : KernelImage} `{KOK : !KernelImageOk}.

(** The slot allocproc takes. *)
Definition free_index (s : kstate) : option nat := fst <$> list_find (fun c => p_state c = UNUSED) (k_proc s).

Lemma forked_id s i : (i < length (k_proc s))%nat -> k_held s = [] ->
  forked s i [L_proc i] (k_mem s) (k_freelist s) (k_nextpid s) (k_ftable s) (k_itable s) (proc_of s i) = set_held (cons (L_proc i)) s.
Proof.
  intros Hi Hh. assert (Ep : alter (fun _ => proc_of s i) i (k_proc s) = k_proc s).
  { apply list_eq. intros j. destruct (decide (i = j)) as [<-|]; [|by rewrite list_lookup_alter_ne].
    rewrite list_lookup_alter_eq. unfold proc_of. by destruct (lookup_lt_is_Some_2 _ _ Hi) as [x ->]. }
  transitivity (set_held (fun _ => [L_proc i]) (set_proc (fun _ => alter (fun _ => proc_of s i) i (k_proc s)) s)); [done|].
  rewrite Ep. unfold set_held, set_proc. cbn. by rewrite Hh.
Qed.

Lemma wp_allocproc fl s (Q : option nat -> kstate -> Prop) :
  length (k_proc s) = NPROC -> k_held s = [] -> fl_inv (k_mem s) (k_freelist s) fl ->
  (forall i c, k_proc s !! i = Some c -> p_state c = UNUSED -> p_pagetable c = 0 /\ p_sz c = 0) ->
  match free_index s with
  | None => Q None s
  | Some i => let c := proc_of s i in
      (forall m' h', all_free (k_mem s) (fun q => q ∈ fl) m' h' ->
         Q None (forked s i [] m' h' (s32 (k_nextpid s + 1)) (k_ftable s) (k_itable s) (cleared (set_p_vmas fresh_vmas c)))) /\
      (forall m' h' root tf T fl', made (k_mem s) fl m' h' root tf T fl' ->
         Q (Some i) (forked s i [L_proc i] m' h' (s32 (k_nextpid s + 1)) (k_ftable s) (k_itable s) (born c (k_nextpid s) tf root)))
  end ->
  wp allocproc Q s.
Proof.
  intros Hlen Hh Hf Hfree HQ. unfold allocproc. wp_step.
  apply (wp_scan _ (fun l s' => s' = s /\ exists n, l = seq n (NPROC - n) /\ (n <= NPROC)%nat /\
    forall j c, (j < n)%nat -> k_proc s !! j = Some c -> p_state c <> UNUSED)).
  - split; [done|]. exists 0%nat. split_and!; [done|lia|lia].
  - intros i l s' (-> & n & Hl & Hn & Hbef). destruct (NPROC - n)%nat as [|k] eqn:Ek; [done|]. injection Hl as -> ->.
    destruct (lookup_lt_is_Some_2 (k_proc s) n) as [c Hc]; [lia|]. assert (Ec : proc_of s n = c) by (unfold proc_of; by rewrite Hc).
    wp_step. apply wp_acquire; [rewrite Hh; apply not_elem_of_nil|]. unfold getp. wp_step. wp_step. change (proc_of (set_held _ s) n) with (proc_of s n). rewrite Ec.
    destruct (bool_decide_reflect (p_state c = UNUSED)) as [Hu|Hu].
    + wp_step. assert (Ef : free_index s = Some n).
      { unfold free_index. rewrite (proj2 (list_find_Some _ _ n c)); [done|]. split_and!; [done|done|]. intros j y Hy Hj. by eapply Hbef. }
      rewrite Ef in HQ. cbv zeta in HQ. rewrite Ec in HQ. destruct HQ as [HF HS], (Hfree n c Hc Hu) as [H1 H2].
      rewrite <- forked_id by (done || lia). rewrite Ec. eapply (wp_allocproc_found s n); [lia|exact Hf|done|done|exact HF|exact HS].
    + wp_step. eapply wp_release_last; [reflexivity|rewrite Hh; apply not_elem_of_nil|]. wp_step. split; [by destruct s|].
      exists (S n). split_and!; [f_equal; lia|lia|]. intros j y Hj Hy. destruct (decide (j = n)) as [->|]; [congruence|]. by apply (Hbef j); [lia|].
  - intros s' (-> & n & Hl & Hn & Hbef). wp_step. destruct (NPROC - n)%nat eqn:Ek; [|done].
    assert (Ef : free_index s = None); [|by rewrite Ef in HQ]. unfold free_index. rewrite (proj2 (list_find_None _ _)); [done|].
    apply Forall_forall. intros c [j Hj]%list_elem_of_lookup. apply (Hbef j); [|done]. apply lookup_lt_Some in Hj. lia.
Qed.
End Allocproc.

(** ** The open files a process hands on *)
Definition dup_ref (f : nat) (ft : list file) : list file := alter (fun x => set_f_ref (f_ref x + 1) x) f ft.
Definition dups (l : list nat) (ft : list file) : list file := foldl (fun ft f => dup_ref f ft) ft l.
Definition occ (f : nat) (l : list nat) : Z := Z.of_nat (length (filter (fun g => g = f) l)).

Lemma dups_snoc l f ft : dups (l ++ [f]) ft = dup_ref f (dups l ft).
Proof. unfold dups. by rewrite foldl_app. Qed.
Lemma occ_app f l l' : occ f (l ++ l') = occ f l + occ f l'.
Proof. unfold occ. rewrite filter_app, length_app. lia. Qed.
Lemma occ_one f g : occ f [g] = if decide (g = f) then 1 else 0.
Proof. unfold occ. rewrite filter_cons, filter_nil. by destruct (decide (g = f)). Qed.
Lemma occ_nonneg f l : 0 <= occ f l.
Proof. unfold occ. lia. Qed.

Lemma dups_lookup l ft f : dups l ft !! f = (fun x => set_f_ref (f_ref x + occ f l) x) <$> ft !! f.
Proof.
  induction l as [|g l IH] using rev_ind.
  { cbn. destruct (ft !! f) as [x|]; [|done]. cbn. f_equal. change (occ f []) with 0. rewrite Z.add_0_r. by destruct x. }
  rewrite dups_snoc, occ_app, occ_one. unfold dup_ref. destruct (decide (g = f)) as [->|Hne].
  - rewrite list_lookup_alter_eq, IH. destruct (ft !! f) as [x|]; [|done]. cbn. f_equal. unfold set_f_ref. cbn. f_equal. lia.
  - rewrite list_lookup_alter_ne, IH by done. destruct (ft !! f) as [x|]; [|done]. cbn. by rewrite Z.add_0_r.
Qed.

(** The references a process holds: its descriptors and its mapped files. *)
Definition ofile_refs (l : list (option nat)) : list nat := omap id l.
Definition vma_refs (l : list vma) : list nat := omap (fun v => if v_used v then v_file v else None) l.
Definition vm_child (v : vma) : vma := if v_used v then v else vma0.

Section Loops.
Context `{KI : KernelImage} `{KOK : !KernelImageOk}.
Context (s : kstate) (i p : nat) (Hi : (i < length (k_proc s))%nat) (Hp : p <> i).
Context (m : mem) (h pid : Z) (it : list inode) (ft : list file).
Let pr := proc_of s p.
Let hd := [L_proc i].
Implicit Types (c : proc).

Lemma dup_room l f : (exists x, ft !! f = Some x /\ 1 <= f_ref x /\ f_ref x + occ f l < 2 ^ 31 - 1) ->
  1 <= f_ref (file_of (forked s i hd m h pid (dups l ft) it proc0) f) < 2 ^ 31 - 1.
Proof.
  intros (x & Hx & H1 & H2). unfold file_of. change (k_ftable _) with (dups l ft). rewrite dups_lookup, Hx. cbn.
  pose proof (occ_nonneg f l). lia.
Qed.

Lemma wp_dup l f c (Q : nat -> kstate -> Prop) :
  (exists x, ft !! f = Some x /\ 1 <= f_ref x /\ f_ref x + occ f l < 2 ^ 31 - 1) ->
  Q f (forked s i hd m h pid (dups (l ++ [f]) ft) it c) -> wp (filedup f) Q (forked s i hd m h pid (dups l ft) it c).
Proof.
  intros Hx HQ. apply wp_filedup; [unfold hd; cbn; rewrite list_elem_of_singleton; done|exact (dup_room l f Hx)|].
  rewrite dups_snoc in HQ. set (F := forked s i hd m h pid (dups l ft) it c).
  replace (set_ftable _ _) with (forked s i hd m h pid (dup_ref f (dups l ft)) it c); [done|].
  unfold dup_ref. replace (alter (fun x => set_f_ref (f_ref x + 1) x) f (dups l ft)) with (alter (set_f_ref (f_ref (file_of F f) + 1)) f (dups l ft)); [done|].
  apply alter_ext_at. intros x E. unfold file_of. change (k_ftable F) with (dups l ft). by rewrite E.
Qed.

(** The loop over the descriptors. *)
Lemma wp_fork_ofiles c (Q : unit -> kstate -> Prop) :
  length (p_ofile pr) = NOFILE -> p_ofile c = replicate NOFILE None ->
  (forall f, f ∈ ofile_refs (p_ofile pr) -> exists x, ft !! f = Some x /\ 1 <= f_ref x /\ f_ref x + occ f (ofile_refs (p_ofile pr)) < 2 ^ 31) ->
  Q tt (forked s i hd m h pid (dups (ofile_refs (p_ofile pr)) ft) it (set_p_ofile (p_ofile pr) c)) ->
  wp (for_each (seq 0 NOFILE) (fork_ofile p i)) Q (forked s i hd m h pid ft it c).
Proof.
  intros Hlen Hc Href HQ. set (fs := p_ofile pr) in *.
  apply (wp_for_each _ (fun l s' => exists n, l = seq n (NOFILE - n) /\ (n <= NOFILE)%nat /\
    s' = forked s i hd m h pid (dups (ofile_refs (take n fs)) ft) it (set_p_ofile (take n fs ++ replicate (NOFILE - n) None) c))).
  - exists 0%nat. split_and!; [done|lia|]. rewrite take_0. f_equal. unfold set_p_ofile. cbn. by destruct c; cbn in *; subst.
  - intros fd l s' (n & Hl & Hn & ->). destruct (NOFILE - n)%nat as [|k] eqn:Ek; [done|]. injection Hl as -> ->. unfold fork_ofile, getp. wp_step. wp_step.
    rewrite forked_other by done. fold pr fs. destruct (lookup_lt_is_Some_2 fs n) as [o Ho]; [lia|]. rewrite Ho. cbn [default from_option id].
    pose proof (take_S_r _ _ _ Ho) as ET. assert (Hk : (NOFILE - S n)%nat = k) by lia.
    destruct o as [f|].
    + assert (Hsub : fs = take n fs ++ Some f :: drop (S n) fs) by by rewrite take_drop_middle.
      wp_step. apply wp_dup.
      { destruct (Href f) as (x & Hx & H1 & H2).
        { rewrite Hsub. unfold ofile_refs. rewrite omap_app, elem_of_app. right. cbn. left. }
        exists x. split_and!; [done|done|]. rewrite Hsub in H2. unfold ofile_refs in *. rewrite omap_app, occ_app in H2. cbn in H2.
        change (f :: omap id (drop (S n) fs)) with ([f] ++ omap id (drop (S n) fs)) in H2. rewrite occ_app, occ_one, decide_True in H2 by done.
        pose proof (occ_nonneg f (omap id (drop (S n) fs))). lia. }
      apply wp_modc. exists (S n). rewrite Hk. split_and!; [done|lia|]. f_equal.
      * unfold ofile_refs. by rewrite ET, omap_app.
      * unfold set_p_ofile. cbn. f_equal. rewrite ET, <- app_assoc. cbn. rewrite insert_app_r_alt; rewrite length_take; [|lia].
        by replace (n - n `min` length fs)%nat with 0%nat by lia.
    + wp_step. exists (S n). rewrite Hk. split_and!; [done|lia|]. rewrite ET. f_equal; [|by rewrite <- app_assoc].
      unfold ofile_refs. rewrite omap_app. cbn. by rewrite app_nil_r.
  - intros s' (n & Hl & Hn & ->). destruct (NOFILE - n)%nat eqn:Ek; [|done]. cbn. rewrite app_nil_r, take_ge by lia. done.
Qed.

(** The loop over the mapped areas. *)
Lemma wp_fork_vmas c (Q : unit -> kstate -> Prop) :
  length (p_vmas pr) = NVMA -> p_vmas c = fresh_vmas ->
  (forall v, v ∈ p_vmas pr -> v_used v = true -> is_Some (v_file v)) ->
  (forall f, f ∈ vma_refs (p_vmas pr) -> exists x, ft !! f = Some x /\ 1 <= f_ref x /\ f_ref x + occ f (vma_refs (p_vmas pr)) < 2 ^ 31) ->
  Q tt (forked s i hd m h pid (dups (vma_refs (p_vmas pr)) ft) it (set_p_vmas (vm_child <$> p_vmas pr) c)) ->
  wp (for_each (seq 0 NVMA) (fork_vma p i)) Q (forked s i hd m h pid ft it c).
Proof.
  intros Hlen Hc Hfile Href HQ. set (vs := p_vmas pr) in *.
  apply (wp_for_each _ (fun l s' => exists n, l = seq n (NVMA - n) /\ (n <= NVMA)%nat /\
    s' = forked s i hd m h pid (dups (vma_refs (take n vs)) ft) it (set_p_vmas ((vm_child <$> take n vs) ++ replicate (NVMA - n) vma0) c))).
  - exists 0%nat. split_and!; [done|lia|]. rewrite take_0. f_equal. unfold set_p_vmas. cbn. by destruct c; cbn in *; subst.
  - intros k l s' (n & Hl & Hn & ->). destruct (NVMA - n)%nat as [|r] eqn:Ek; [done|]. injection Hl as -> ->. unfold fork_vma, getp, vma_at. wp_step. wp_step.
    rewrite forked_other by done. fold pr vs. destruct (lookup_lt_is_Some_2 vs n) as [v Hv]; [lia|]. rewrite Hv. cbn [default from_option id].
    pose proof (take_S_r _ _ _ Hv) as ET. assert (Hk : (NVMA - S n)%nat = r) by lia.
    assert (Hput : forall w, <[n := w]> ((vm_child <$> take n vs) ++ vma0 :: replicate r vma0) = (vm_child <$> take n vs) ++ w :: replicate r vma0).
    { intros w. rewrite insert_app_r_alt; rewrite length_fmap, length_take; [|lia]. by replace (n - n `min` length vs)%nat with 0%nat by lia. }
    destruct (v_used v) eqn:Eu; unfold when.
    + destruct (Hfile v) as [f Ef]; [by eapply list_elem_of_lookup_2|done|]. assert (Hsub : vs = take n vs ++ v :: drop (S n) vs) by by rewrite take_drop_middle.
      unfold modvma. wp_step. apply wp_modc. rewrite Ef. cbn [deref]. wp_step. wp_step. wp_step. apply wp_dup.
      { destruct (Href f) as (x & Hx & H1 & H2).
        { rewrite Hsub. unfold vma_refs. rewrite omap_app, elem_of_app. right. cbn. rewrite Eu, Ef. left. }
        exists x. split_and!; [done|done|]. rewrite Hsub in H2. unfold vma_refs in *. rewrite omap_app, occ_app in H2. cbn in H2. rewrite Eu, Ef in H2.
        set (tl := omap _ (drop (S n) vs)) in H2. change (f :: tl) with ([f] ++ tl) in H2. rewrite occ_app, occ_one, decide_True in H2 by done.
        pose proof (occ_nonneg f tl). lia. }
      apply wp_modc. exists (S n). rewrite Hk. split_and!; [done|lia|]. f_equal.
      * rewrite ET. unfold vma_refs. rewrite omap_app. cbn. by rewrite Eu, Ef.
      * unfold set_p_vmas. cbn. f_equal. rewrite ET, fmap_app, <- app_assoc. cbn.
        assert (Ev : vm_child v = v) by (unfold vm_child; by rewrite Eu). rewrite Ev.
        rewrite alter_alter, (alter_insert _ _ _ vma0), Hput; [by destruct v; cbn in *; subst|].
        rewrite list_lookup_middle; [done|]. rewrite length_fmap, length_take. lia.
    + wp_step. exists (S n). rewrite Hk. split_and!; [done|lia|]. rewrite ET. f_equal.
      * unfold vma_refs. rewrite omap_app. cbn. rewrite Eu. by rewrite app_nil_r.
      * rewrite fmap_app, <- app_assoc. cbn. assert (Ev : vm_child v = vma0) by (unfold vm_child; by rewrite Eu). by rewrite Ev.
  - intros s' (n & Hl & Hn & ->). destruct (NVMA - n)%nat eqn:Ek; [|done]. cbn. rewrite app_nil_r, take_ge by lia. done.
Qed.
End Loops.

(** ** fork *)

(** Memory outside the pages of [fl] is as in [m]. *)
Definition outside (fl : list Z) (m m' : mem) : Prop := forall a, (forall q, q ∈ fl -> ~ in_page q a) -> ldb m' a = ldb m a.

Section ForkMem.
Context `{KI : KernelImage} `{KOK : !KernelImageOk}.

Lemma page_outside fl m m' q o : Forall page_ok fl -> outside fl m m' -> page_ok q -> q ∉ fl -> 0 <= o < PGSIZE -> ldb m' (q + o) = ldb m (q + o).
Proof.
  intros Hok Ho [Hq _] Hni Hr. apply Ho. intros q' Hq' Hin. destruct (proj1 (Forall_forall _ _) Hok q' Hq') as [Hq'' _].
  apply (in_page_apart q q' (q + o)); [done|done|by intros ->|unfold in_page; lia|done].
Qed.

(** An address space that has no page of [fl]. *)
Lemma user_outside m h old T0 fl P m' : user_inv m h old T0 fl P -> outside fl m m' ->
  pt_wf m' T0 old /\ forall va, pte_of m' old va = pte_of m old va.
Proof.
  intros Hu Ho. pose proof (ui_vm _ _ _ _ _ _ Hu) as [(_ & _ & Hok) Hw Hd].
  assert (Hst : same_tables T0 m m').
  { intros q l i Hq Hi. apply pte_at_ext; [done|]. intros a Ha. replace a with (q + (a - q)) by lia.
    apply (page_outside fl); [done|done|by apply (wf_page _ _ _ Hw q l)| |unfold in_page in Ha; lia].
    intros Hin. rewrite (Hd q Hin) in Hq. discriminate Hq. }
  split; [by eapply pt_wf_ext, Hw; apply same_tables_interior|]. intros va. by eapply pte_of_ext.
Qed.

Lemma made_parent m h old T0 fl P ptf m1 h1 root tf T fl1 :
  space m h old T0 fl P ptf -> made m fl m1 h1 root tf T fl1 -> parent_ok old T fl1 T0 P m1.
Proof.
  intros [Hu _ _ _ _ _] (_ & _ & _ & Hpg & Hk). destruct (user_outside _ _ _ _ _ _ _ Hu Hk) as [Hw1 Hp1].
  assert (Hin : forall q, owned T fl1 q -> q ∈ fl) by (intros q Hq; apply Hpg; by right). split; [done| |].
  - intros q Hq Ho%Hin. rewrite (vi_disj _ _ _ _ _ (ui_vm _ _ _ _ _ _ Hu) q Ho) in Hq. by destruct Hq.
  - intros va pa Hl. rewrite Hp1. split_and!; [by eapply ui_pte|by eapply ui_ok|]. intros Ho%Hin. eapply (ui_own _ _ _ _ _ _ Hu); [done|by left].
Qed.

Lemma made_empty m fl m1 h1 root tf T fl1 v : made m fl m1 h1 root tf T fl1 -> 0 <= v < TRAPFRAME -> has (pte_of m1 root v) PTE_V = false.
Proof.
  intros (Hsp & _) Hv. destruct (has (pte_of m1 root v) PTE_V) eqn:E; [|done]. exfalso.
  assert (Hr : 0 <= v < VATOP) by (unfold TRAPFRAME, TRAMPOLINE, MAXVA, PGSIZE, VATOP in *; lia).
  assert (Hle : PGROUNDDOWN v <= v) by (rewrite PGROUNDDOWN_eq; unfold PGSIZE; pose proof (Z.mod_pos_bound v 4096 ltac:(lia)); lia).
  assert (Hlt : TRAPFRAME < TRAMPOLINE) by by vm_compute.
  destruct (sp_only _ _ _ _ _ _ _ Hsp v Hr E) as [[q Hq]|[Hq|Hq]]; [by rewrite lookup_empty in Hq|lia|lia].
Qed.

Lemma special_above sz : 0 <= sz <= TRAPFRAME -> 0 <= PGROUNDUP sz <= TRAPFRAME.
Proof.
  intros Hsz. destruct (PGROUNDUP_le sz) as (A1 & A2 & A3); [unfold TRAPFRAME, TRAMPOLINE, MAXVA, PGSIZE in *; lia|].
  unfold TRAPFRAME, TRAMPOLINE, MAXVA, PGSIZE in *. change (2 ^ 38) with 274877906944 in *. zmod.
Qed.

(** The address space of the child once uvmcopy has filled it. *)
Lemma fills_space (s : kstate) root T fl tf sz g perm m' h' T' fl' L' :
  space (k_mem s) (k_freelist s) root T fl ∅ tf -> 0 <= sz <= TRAPFRAME ->
  fills root 0 T fl ∅ s g perm (PGROUNDUP sz / PGSIZE) m' h' T' fl' L' ->
  space m' h' root T' fl' L' tf /\ (forall q, upage T' fl' L' q <-> owned T fl q) /\
  (forall v, is_Some (L' !! v) <-> v mod PGSIZE = 0 /\ 0 <= v < PGROUNDUP sz).
Proof.
  intros [U1 U2 U3 U4 U5 U6] Hsz [F1 F2 _ F4]. pose proof (special_above sz Hsz) as Hup. destruct tramp_va as (A1 & A2 & A3 & A4), frame_va as (B1 & B2 & B3 & B4).
  destruct (PGROUNDUP_le sz) as (C1 & C2 & C3); [unfold TRAPFRAME, TRAMPOLINE, MAXVA, PGSIZE in *; lia|].
  assert (Hlt : TRAPFRAME < TRAMPOLINE) by by vm_compute. set (n := PGROUNDUP sz / PGSIZE) in *.
  assert (Hn : PGROUNDUP sz = n * PGSIZE) by (unfold n, PGSIZE in *; zmod).
  assert (HL : forall v, is_Some (L' !! v) <-> v mod PGSIZE = 0 /\ 0 <= v < PGROUNDUP sz).
  { intros v. rewrite F2, lookup_empty. split.
    - intros [[]|(i & Hi & ->)]; [done|]. rewrite Hn. unfold PGSIZE. zmod.
    - intros [H1 H2]. right. exists (v / PGSIZE). unfold PGSIZE in *. zmod. }
  split_and!; [|intros q; by rewrite (us_pages _ _ _ _ _ _ _ _ _ _ _ F1), upage_empty|done]. split.
  - apply F1.
  - rewrite F4; [done|by vm_compute|lia].
  - rewrite F4; [done|by vm_compute|lia].
  - done.
  - intros va Hva HV. destruct (decide (0 <= va < 0 + n * PGSIZE)) as [Hin|Hout].
    + left. apply HL. rewrite PGROUNDDOWN_eq. unfold PGSIZE in *. zmod.
    + rewrite F4 in HV by done. destruct (U5 va Hva HV) as [[q Hq]|?]; [by rewrite lookup_empty in Hq|by right].
  - intros v [_ Hv]%HL. lia.
Qed.

Lemma unfilled_space (s : kstate) root T fl tf sz m' h' T' fl' :
  space (k_mem s) (k_freelist s) root T fl ∅ tf -> 0 <= sz <= TRAPFRAME ->
  us_step (k_mem s) (k_freelist s) m' h' root T T' fl fl' ∅ ∅ ->
  (forall v, 0 <= v < VATOP -> has (pte_of m' root v) PTE_V = has (pte_of (k_mem s) root v) PTE_V) ->
  (forall v, 0 <= v < VATOP -> PGROUNDUP sz <= v -> pte_of m' root v = pte_of (k_mem s) root v) ->
  space m' h' root T' fl' ∅ tf /\ forall q, owned T' fl' q <-> owned T fl q.
Proof.
  intros [U1 U2 U3 U4 U5 U6] Hsz Hst HV Hp. pose proof (special_above sz Hsz) as Hup. assert (Hlt : TRAPFRAME < TRAMPOLINE) by by vm_compute.
  split; [split|].
  - apply Hst.
  - rewrite Hp; [done|by vm_compute|lia].
  - rewrite Hp; [done|by vm_compute|lia].
  - done.
  - intros va Hva. rewrite HV by done. by apply U5.
  - done.
  - intros q. by rewrite <- !upage_empty, (us_pages _ _ _ _ _ _ _ _ _ _ _ Hst).
Qed.
End ForkMem.

(** What the child gets: a private copy of the parent's pages below [sz], with
    their permissions, and its trapframe with 0 for the value fork returns. *)
Record inherits `{KernelImage} (m : mem) (pr : proc) (fl : list Z) (P : gmap Z Z) (m' : mem) (h' root tf : Z) (T' : gmap Z Z) (fl' : list Z) (L' : gmap Z Z) : Prop := {
  ih_space : space m' h' root T' fl' L' tf;
  ih_tf : ~ upage T' fl' L' tf;
  ih_pages q : q ∈ fl <-> q = tf \/ upage T' fl' L' q;
  ih_dom v : is_Some (L' !! v) <-> v mod PGSIZE = 0 /\ 0 <= v < PGROUNDUP (p_sz pr);
  ih_copy va pa : 0 <= va < p_sz pr -> va mod PGSIZE = 0 -> P !! va = Some pa ->
    exists q, L' !! va = Some q /\ (forall o, 0 <= o < PGSIZE -> ldb m' (q + o) = ldb m (pa + o)) /\
      pte_of m' root va = mkpte q (PTE_FLAGS (pte_of m (p_pagetable pr) va));
  ih_frame o : 0 <= o < Z.of_nat sizeof_trapframe ->
    ldb m' (tf + o) = if (TF_a0 <=? o) && (o <? TF_a0 + 8) then 0 else ldb m (p_trapframe pr + o);
  ih_rest : outside fl m m'
}.

Section Inherit.
Context `{KI : KernelImage} `{KOK : !KernelImageOk}.
Context (m : mem) (h : Z) (pr : proc) (T0 P : gmap Z Z) (fl : list Z).
Let old := p_pagetable pr.
Let ptf := p_trapframe pr.
Let sz := p_sz pr.
Context (Hsp : space m h old T0 fl P ptf) (Hptf : ~ upage T0 fl P ptf) (Hsz : 0 <= sz <= TRAPFRAME).

Definition frame_copy (m2 : mem) (tf : Z) : mem := st64 (memmove m2 tf ptf sizeof_trapframe) (tf + TF_a0) 0.

Lemma frame_copy_out m2 tf a : ~ in_page tf a -> ldb (frame_copy m2 tf) a = ldb m2 a.
Proof.
  intros Ha. unfold frame_copy, TF_a0, in_page, PGSIZE in *. rewrite ldb_st64 by lia. rewrite ldb_memmove. unfold sizeof_trapframe. ranges.
Qed.

Lemma frame_copy_in m2 tf o : 0 <= o < Z.of_nat sizeof_trapframe ->
  ldb (frame_copy m2 tf) (tf + o) = if (TF_a0 <=? o) && (o <? TF_a0 + 8) then 0 else ldb m2 (ptf + o).
Proof.
  intros Ho. change (Z.of_nat sizeof_trapframe) with 288 in Ho. destruct ((TF_a0 <=? o) && (o <? TF_a0 + 8)) eqn:E.
  - unfold frame_copy. apply ldb_st64_0. unfold TF_a0 in *. lia.
  - unfold frame_copy. rewrite ldb_st64 by (unfold TF_a0 in *; lia). rewrite ldb_memmove. change (Z.of_nat sizeof_trapframe) with 288.
    replace (inr_ tf 288 (tf + o)) with true by (symmetry; unfold inr_; lia). f_equal. lia.
Qed.

Lemma inherit_copy s m1 h1 root tf T fl1 g perm m2 h2 T' fl2 L' :
  k_mem s = m1 -> k_freelist s = h1 -> made m fl m1 h1 root tf T fl1 ->
  g = (fun va o => ldb m1 (default 0 (P !! va) + o)) -> perm = (fun va => PTE_FLAGS (pte_of m1 old va)) ->
  fills root 0 T fl1 ∅ s g perm (PGROUNDUP sz / PGSIZE) m2 h2 T' fl2 L' ->
  inherits m pr fl P (frame_copy m2 tf) h2 root tf T' fl2 L'.
Proof.
  intros Em Eh Hmade Eg Ep Hfill. pose proof Hmade as (Hsp1 & Hno1 & _ & Hpg1 & Hk1). rewrite <- Em, <- Eh in Hsp1.
  destruct (fills_space s root T fl1 tf sz g perm m2 h2 T' fl2 L' Hsp1 Hsz Hfill) as (Hsp2 & Hup2 & HL2).
  pose proof (sp_tf _ _ _ _ _ _ _ Hsp1) as Htf. assert (Hntf : ~ upage T' fl2 L' tf) by by rewrite Hup2.
  pose proof (ui_vm _ _ _ _ _ _ (sp_user _ _ _ _ _ _ _ Hsp)) as [(_ & _ & Hok) _ _].
  assert (Hk2 : outside fl m m2).
  { intros a Ha. rewrite (us_keeps _ _ _ _ _ _ _ _ _ _ _ (fi_step _ _ _ _ _ _ _ _ _ _ _ _ _ _ Hfill)); [rewrite Em; by apply Hk1|].
    intros q Hq. apply Ha, Hpg1. by right. }
  assert (Htffl : tf ∈ fl) by (apply Hpg1; by left).
  assert (Hptf' : page_ok ptf /\ ptf ∉ fl) by (split; [apply Hsp|intros Hin; apply Hptf; left; by left]). destruct Hptf' as [Hptf1 Hptf2].
  destruct (user_outside _ _ _ _ _ _ _ (sp_user _ _ _ _ _ _ _ Hsp) Hk1) as [_ Hpte1].
  destruct (user_inv_data _ _ _ _ _ _ tf (frame_copy m2 tf) (sp_user _ _ _ _ _ _ _ Hsp2) Htf Hntf (frame_copy_out m2 tf)) as [_ Hpte3]. split.
  - eapply space_data; [exact Hsp2|exact Htf|exact Hntf|apply frame_copy_out].
  - done.
  - intros q. by rewrite Hpg1, Hup2.
  - done.
  - intros va pa Hva Hal HP. destruct (fi_new _ _ _ _ _ _ _ _ _ _ _ _ _ _ Hfill (va / PGSIZE)) as (_ & q & Hq & Hh & Hpt).
    { destruct (PGROUNDUP_le sz) as (A1 & A2 & _); [unfold TRAPFRAME, TRAMPOLINE, MAXVA, PGSIZE in *; lia|]. fold sz in Hva. unfold PGSIZE in *. zmod. }
    replace (0 + va / PGSIZE * PGSIZE) with va in * by (unfold PGSIZE in *; zmod). exists q. split_and!; [done| |].
    + intros o Ho. rewrite frame_copy_out.
      * rewrite Hh by done. rewrite Eg, HP. cbn. apply (page_outside fl); [done|exact Hk1|by eapply ui_ok; [apply Hsp|]| |done].
        intros Hin. eapply (ui_own _ _ _ _ _ _ (sp_user _ _ _ _ _ _ _ Hsp)); [exact HP|by left].
      * assert (Hqok : page_ok q) by (eapply ui_ok; [apply Hsp2|exact Hq]). apply (in_page_apart q tf); [apply Hqok|apply Htf| |unfold in_page; lia].
        intros ->. apply Hntf. right. by exists va.
    + rewrite Hpte3, Hpt, Ep. by rewrite Hpte1.
  - intros o Ho. rewrite frame_copy_in by done. destruct (_ && _); [done|]. apply (page_outside fl); try done.
    unfold sizeof_trapframe, PGSIZE in *. lia.
  - intros a Ha. rewrite frame_copy_out by (by apply Ha). by apply Hk2.
Qed.
End Inherit.

(** The process fork makes in a free slot [c], for the process [pr] in slot [p]. *)
Definition child `{KernelImage} (c pr : proc) (p : nat) (pid root tf : Z) : proc :=
  mkProc RUNNABLE (p_chan c) (p_killed c) (p_xstate c) pid (Some p) (p_kstack c) (p_sz pr) root tf
    (mkContext a_forkret (u64 (p_kstack c + PGSIZE)) (replicate 12 0)) (p_ofile pr) (vm_child <$> p_vmas pr) (p_cwd pr)
    (safestrcpy_l (p_name c) (cut0 (p_name pr)) 16).
Definition all_refs (pr : proc) : list nat := ofile_refs (p_ofile pr) ++ vma_refs (p_vmas pr).

(** The process [p] as fork finds it. *)
Record fork_pre `{KernelImage} (s : kstate) (p : nat) (fl : list Z) (T0 P : gmap Z Z) : Prop := {
  fk_cur : k_cur s = Some p;
  fk_held : k_held s = [];
  fk_len : length (k_proc s) = NPROC;
  fk_live : p_state (proc_of s p) <> UNUSED;
  fk_space : space (k_mem s) (k_freelist s) (p_pagetable (proc_of s p)) T0 fl P (p_trapframe (proc_of s p));
  fk_tf : ~ upage T0 fl P (p_trapframe (proc_of s p));
  fk_sz : 0 <= p_sz (proc_of s p) <= TRAPFRAME;
  fk_mapped va : 0 <= va < p_sz (proc_of s p) -> va mod PGSIZE = 0 -> is_Some (P !! va);
  fk_files : length (p_ofile (proc_of s p)) = NOFILE;
  fk_vmas : length (p_vmas (proc_of s p)) = NVMA;
  fk_vfile v : v ∈ p_vmas (proc_of s p) -> v_used v = true -> is_Some (v_file v);
  fk_refs f : f ∈ all_refs (proc_of s p) -> exists x, k_ftable s !! f = Some x /\ 1 <= f_ref x /\ f_ref x + occ f (all_refs (proc_of s p)) < 2 ^ 31;
  fk_cwd : is_Some (p_cwd (proc_of s p));
  fk_slot i c : k_proc s !! i = Some c -> p_state c = UNUSED -> p_pagetable c = 0 /\ p_sz c = 0 /\ p_ofile c = replicate NOFILE None
}.

Section ForkMain.
Context `{KI : KernelImage} `{KOK : !KernelImageOk}.
Context (s : kstate) (p : nat) (fl : list Z) (T0 P : gmap Z Z) (Hpre : fork_pre s p fl T0 P).
Let pr := proc_of s p.
Let pid' := s32 (k_nextpid s + 1).

(** The table of inodes with one reference more to the directory of the process. *)
Definition dup_cwd : list inode :=
  match p_cwd pr with Some cw => alter (fun ip => set_i_ref (s32 (i_ref ip + 1)) ip) cw (k_itable s) | None => k_itable s end.

Definition fork_fails (i : nat) (s' : kstate) : Prop :=
  exists m' h' ctx, all_free (k_mem s) (fun q => q ∈ fl) m' h' /\
    s' = forked s i [] m' h' pid' (k_ftable s) (k_itable s) (cleared (set_p_context ctx (set_p_vmas fresh_vmas (proc_of s i)))).
Definition fork_makes (i : nat) (s' : kstate) : Prop :=
  exists m' h' root tf T' fl' L', inherits (k_mem s) pr fl P m' h' root tf T' fl' L' /\
    s' = forked s i [] m' h' pid' (dups (all_refs pr) (k_ftable s)) dup_cwd (child (proc_of s i) pr p (k_nextpid s) root tf).

Lemma dups_app l l' ft : dups (l ++ l') ft = dups l' (dups l ft).
Proof. unfold dups. by rewrite foldl_app. Qed.

(** The end of fork, after the copy of memory. *)
Lemma wp_fork_rest i c root tf m' h' (Q : Z -> kstate -> Prop) :
  (i < length (k_proc s))%nat -> p <> i -> proc_of s i = c -> p_ofile c = replicate NOFILE None ->
  Q (k_nextpid s) (forked s i [] m' h' pid' (dups (all_refs pr) (k_ftable s)) dup_cwd (child c pr p (k_nextpid s) root tf)) ->
  wp (for_each (seq 0 NOFILE) (fork_ofile p i);;;
      for_each (seq 0 NVMA) (fork_vma p i);;;
      let* pr := getp p in
      let* cwd := deref (p_cwd pr) in
      let* cwd := idup cwd in
      modp i (set_p_cwd (Some cwd));;;
      modp i (fun npr => set_p_name (safestrcpy_l (p_name npr) (cut0 (p_name pr)) 16) npr);;;
      let* npr := getp i in
      let pid := p_pid npr in
      release (L_proc i);;;
      acquire L_wait;;;
      modp i (set_p_parent (Some p));;;
      release L_wait;;;
      acquire (L_proc i);;;
      modp i (set_p_state RUNNABLE);;;
      release (L_proc i);;;
      ret pid) Q
    (forked s i [L_proc i] m' h' pid' (k_ftable s) (k_itable s) (set_p_sz (p_sz pr) (born c (k_nextpid s) tf root))).
Proof.
  intros Hi Hne Hc Hof HQ. pose proof Hpre as [_ _ _ _ _ _ _ _ H1 H2 H3 H4 [cw Hcw] _]. fold pr in H1, H2, H3, H4, Hcw.
  wp_step. apply (wp_fork_ofiles s i p Hi Hne); fold pr; [done|done| |].
  { intros f Hf. destruct (H4 f) as (x & Hx & ? & Hr); [apply elem_of_app; by left|]. exists x. split_and!; [done|done|].
    unfold all_refs in Hr. rewrite occ_app in Hr. pose proof (occ_nonneg f (vma_refs (p_vmas pr))). lia. }
  wp_step. apply (wp_fork_vmas s i p Hi Hne); fold pr; [done|done|done| |].
  { intros f Hf. destruct (H4 f) as (x & Hx & ? & Hr); [apply elem_of_app; by right|].
    pose proof (occ_nonneg f (ofile_refs (p_ofile pr))). exists (set_f_ref (f_ref x + occ f (ofile_refs (p_ofile pr))) x).
    rewrite dups_lookup, Hx. split_and!; [done|cbn; lia|]. unfold all_refs in Hr. rewrite occ_app in Hr. cbn. lia. }
  rewrite <- dups_app. fold (all_refs pr). unfold getp at 1. wp_step. wp_step. rewrite forked_other by done. fold pr. rewrite Hcw. cbn [deref]. wp_step. wp_step.
  wp_step. apply wp_idup; [cbn; rewrite list_elem_of_singleton; done|]. set (F := upd_inode _ _ _).
  assert (EF : F = forked s i [L_proc i] m' h' pid' (dups (all_refs pr) (k_ftable s)) dup_cwd
    (set_p_vmas (vm_child <$> p_vmas pr) (set_p_ofile (p_ofile pr) (set_p_sz (p_sz pr) (born c (k_nextpid s) tf root))))) by (unfold dup_cwd; by rewrite Hcw).
  rewrite EF. wp_step. apply (wp_modc s i). wp_step. apply (wp_modc s i). wp_step. apply (wp_getc s i Hi). cbv zeta. wp_step.
  eapply wp_release_last; [reflexivity|apply not_elem_of_nil|]. rewrite forked_held. wp_step. apply wp_acquire; [apply not_elem_of_nil|]. rewrite forked_held. wp_step.
  apply (wp_modc s i). wp_step. eapply wp_release_last; [reflexivity|apply not_elem_of_nil|]. rewrite forked_held. wp_step.
  apply wp_acquire; [apply not_elem_of_nil|]. rewrite forked_held. wp_step. apply (wp_modc s i). wp_step.
  eapply wp_release_last; [reflexivity|apply not_elem_of_nil|]. rewrite forked_held. wp_step.
  unfold child in HQ. rewrite Hcw in HQ. exact HQ.
Qed.

Lemma wp_fork (Q : Z -> kstate -> Prop) :
  (free_index s = None -> Q (-1) s) ->
  (forall i, free_index s = Some i -> (forall s', fork_fails i s' -> Q (-1) s') /\ (forall s', fork_makes i s' -> Q (k_nextpid s) s')) ->
  wp fork Q s.
Proof.
  intros HN HS. pose proof Hpre as [K1 K2 K3 K4 K5 K6 K7 K8 _ _ _ _ _ K9]. fold pr in K4, K5, K6, K7, K8.
  unfold fork. wp_step. apply (wp_curproc p); [done|]. wp_step.
  apply (wp_allocproc fl); [done|done|apply K5|intros i c Hc Hu; by destruct (K9 i c Hc Hu) as (? & ? & _)|].
  destruct (free_index s) as [i|] eqn:Ei; [|wp_step; by apply HN]. destruct (HS i eq_refl) as [HF HM]. clear HS HN.
  assert (Hslot : exists c, k_proc s !! i = Some c /\ p_state c = UNUSED).
  { unfold free_index in Ei. destruct (list_find _ _) as [[j c]|] eqn:El; [|done]. injection Ei as <-. apply list_find_Some in El as (? & ? & _). by exists c. }
  destruct Hslot as (c & Hc & Hu). pose proof (lookup_lt_Some _ _ _ Hc) as Hi. assert (Ec : proc_of s i = c) by (unfold proc_of; by rewrite Hc).
  assert (Hne : p <> i) by (intros E; apply K4; change (p_state (proc_of s p) = UNUSED); by rewrite E, Ec). destruct (K9 i c Hc Hu) as (_ & Hcsz & Hcof). cbv zeta. rewrite Ec. split.
  { intros m' h' Hall. wp_step. apply HF. exists m', h', (p_context c). rewrite Ec. by split; [|destruct c]. }
  intros m1 h1 root tf T fl1 Hmade. unfold getp at 1. wp_step. wp_step. rewrite forked_other by done. fold pr. wp_step. apply wp_getc; [done|].
  set (F := forked s i _ _ _ _ _ _ _). wp_step. change (p_pagetable (born c (k_nextpid s) tf root)) with root.
  pose proof Hmade as (Hsp1 & Hno1 & Hr & Hpg1 & Hk1).
  apply (wp_uvmcopy (p_pagetable pr) root (p_sz pr) T fl1 ∅ F T0 P).
  - apply Hsp1.
  - cbn. rewrite list_elem_of_singleton. done.
  - by eapply made_parent.
  - destruct K7. split; [done|]. etrans; [done|]. by vm_compute.
  - exact K8.
  - intros v Hv. eapply made_empty; [exact Hmade|]. pose proof (special_above (p_sz pr) K7). lia.
  - intros m2 h2 T' fl2 L' Hfill. unfold F. rewrite forked_upd. cbn [Z.ltb Z.compare]. wp_step. apply (wp_modc s i). wp_step. apply wp_getc; [done|].
    wp_step. wp_step. rewrite forked_mem. unfold tf_set, st. wp_step. wp_step. apply wp_getc; [done|]. wp_step. rewrite forked_mem.
    apply wp_fork_rest; [done|done|done|done|]. apply HM. exists (frame_copy pr m2 tf), h2, root, tf, T', fl2, L'.
    split; [|by rewrite Ec]. by eapply (inherit_copy (k_mem s) (k_freelist s) pr T0 P fl K5 K6 K7 F m1 h1).
  - intros m2 h2 T' fl2 Hst HV Hp. destruct (unfilled_space F root T fl1 tf (p_sz pr) m2 h2 T' fl2 Hsp1 K7 Hst HV Hp) as [Hsp2 Ho2].
    unfold F. rewrite forked_upd. cbn [Z.ltb Z.compare]. wp_step. apply (wp_freeproc s i Hi _ _ _ _ _ _ _ fl2 (fun q => q ∈ fl)).
    { right. right. split; [done|]. exists T', ∅. cbn. rewrite Hcsz. split_and!; [done|by rewrite upage_empty, Ho2|lia|by vm_compute| |].
      - intros v. rewrite lookup_empty. change (PGROUNDUP 0) with 0. split; [by intros []|lia].
      - intros q. by rewrite upage_empty, Hpg1, Ho2. }
    { rewrite list_elem_of_singleton. done. }
    intros m3 h3 (fl3 & G1 & G2 & G3). wp_step. eapply wp_release_last; [reflexivity|apply not_elem_of_nil|]. rewrite forked_held. wp_step. apply HF.
    eexists m3, h3, _. rewrite Ec. split; [|reflexivity]. exists fl3. split_and!; [done|done|]. intros a Ha. rewrite G3 by done.
    rewrite (us_keeps _ _ _ _ _ _ _ _ _ _ _ Hst); [by apply Hk1|]. intros q Hq. apply Ha, Hpg1. by right.
Qed.
End ForkMain.
