(* ===== verification/ForkTheorems.v ===== *)
(** * fork and wait *)
From S2P Require Import Prelude Memory State Kalloc Vm PageTable VmSpec UserMem UserCopy FreeWalk VmTheorems Sched SchedSpec Sleeplock Codec Fs FsSpec FsPath File Trapframe Proc ProcMem MmapSpec Fork.

Section ForkTheorems.
Context `{KI : KernelImage} `{KOK : !KernelImageOk}.

(** C4: fork returns the new pid and makes, in the first free slot, a process
    that is runnable, is a child of the caller, has a private copy of the
    caller's memory with the same permissions, the same registers but for the
    0 that fork returns there, the same open files, mapped areas and working
    directory, each with one more reference; the caller and all other
    processes and memory are unchanged. Without a free slot it returns -1 and
    changes nothing; without memory it returns -1, the slot is free again and
    every page taken is back on the free list. *)
Theorem fork_correct s p fl T0 P :
  fork_pre s p fl T0 P ->
  exists r s', fork s = Ret r s' /\
    match free_index s with
    | None => r = -1 /\ s' = s
    | Some i => (r = -1 /\ fork_fails s fl i s') \/ (r = k_nextpid s /\ fork_makes s p fl P i s')
    end.
Proof.
  intros Hpre. destruct (wp_elim fork (fun r s' => match free_index s with
    | None => r = -1 /\ s' = s
    | Some i => (r = -1 /\ fork_fails s fl i s') \/ (r = k_nextpid s /\ fork_makes s p fl P i s')
    end) s) as (r & s' & E & H); [|by exists r, s'].
  apply (wp_fork s p fl T0 P Hpre).
  - by intros ->.
  - intros i ->. split; intros s' H; [by left|by right].
Qed.
End ForkTheorems.

(** ** A machine that forks *)
#[local] Existing Instance demo_image.
#[local] Existing Instance demo_image_ok.

Definition fk_fl : list Z := (fun k => 0x80040000 + k * PGSIZE) <$> seqZ 0 20.
Definition fk_mem : mem := foldr (fun pq m => st64 m pq.1 pq.2) ∅ (zip fk_fl (tail fk_fl ++ [0])).
Definition fk_boot : kstate :=
  set_itable (<[0%nat := mkInode 1 1 1 (mkSleeplock false 0) true 1 0 0 1 32 (46 :: replicate 12 0)]>)
    (set_ftable (<[3%nat := mkFile FD_INODE 1 true true 0 (Some 0%nat) 0 0]>)
      (set_mem (fun _ => fk_mem) (set_freelist (fun _ => 0x80040000) k0))).

Lemma fk_free : fl_inv (k_mem fk_boot) (k_freelist fk_boot) fk_fl.
Proof.
  split; [vm_compute; intuition congruence|]. split; [apply (bool_decide_unpack _); vm_compute; done|].
  apply Forall_forall. intros q (k & -> & Hk%elem_of_seqZ)%list_elem_of_fmap. unfold page_ok, PHYSTOP, KERNBASE, PGSIZE. cbn [kend demo_image]. split; [zmod|lia].
Qed.

(** A first process with one page of memory, the working directory 0 and an open file. *)
Definition fk_make : KM (option nat * Z) :=
  let* o := allocproc in
  match o with
  | Some i => let* c := getp i in let* sz := uvmalloc (p_pagetable c) 0 PGSIZE in ret (o, sz)
  | None => ret (o, 0)
  end.
Definition fk_parent (root tf : Z) : proc :=
  set_p_cwd (Some 0%nat) (set_p_ofile (<[0%nat := Some 3%nat]> (replicate NOFILE None)) (set_p_sz PGSIZE
    (set_p_state RUNNING (born proc0 1 tf root)))).
Definition fk_state (m : mem) (h root tf : Z) : kstate :=
  set_cur (fun _ => Some 0%nat) (forked fk_boot 0 [] m h 2 (k_ftable fk_boot) (k_itable fk_boot) (fk_parent root tf)).

Definition fk_of (s1 : kstate) : kstate :=
  fk_state (k_mem s1) (k_freelist s1) (p_pagetable (proc_of s1 0)) (p_trapframe (proc_of s1 0)).

Lemma fk_forks : exists s1 s2, fk_make fk_boot = Ret (Some 0%nat, PGSIZE) s1 /\ fork (fk_of s1) = Ret 2 s2.
Proof.
  assert (H : match fk_make fk_boot with
    | Ret (Some 0%nat, sz) s1 => (sz =? PGSIZE) && match fork (fk_of s1) with Ret r _ => r =? 2 | _ => false end
    | _ => false end = true) by (vm_compute; reflexivity).
  destruct (fk_make fk_boot) as [[[[|i]|] sz] s1| | |]; try discriminate H. apply andb_prop in H as [H1%Z.eqb_eq H2].
  exists s1. destruct (fork (fk_of s1)) as [r s2| | |]; try discriminate H2. apply Z.eqb_eq in H2 as ->. exists s2. by rewrite H1.
Qed.

Lemma fk_made s1 : fk_make fk_boot = Ret (Some 0%nat, PGSIZE) s1 -> exists fl T L,
  space (k_mem s1) (k_freelist s1) (p_pagetable (proc_of s1 0)) T fl L (p_trapframe (proc_of s1 0)) /\
  ~ upage T fl L (p_trapframe (proc_of s1 0)) /\ is_Some (L !! 0).
Proof.
  intros E1. destruct (wp_elim fk_make (fun r s1 => r = (Some 0%nat, PGSIZE) -> exists fl T L,
    space (k_mem s1) (k_freelist s1) (p_pagetable (proc_of s1 0)) T fl L (p_trapframe (proc_of s1 0)) /\
    ~ upage T fl L (p_trapframe (proc_of s1 0)) /\ is_Some (L !! 0)) fk_boot) as (r & s' & E & H).
  2: { rewrite E1 in E. injection E as <- <-. exact (H eq_refl). }
  clear E1 s1. unfold fk_make. wp_step. apply (wp_allocproc fk_fl); [reflexivity|reflexivity|exact fk_free| |].
  { intros i c Hc _. change (k_proc fk_boot) with (replicate NPROC proc0) in Hc. apply lookup_replicate in Hc as [-> _]. done. }
  assert (Ef : free_index fk_boot = Some 0%nat) by reflexivity. rewrite Ef. cbv zeta. split; [intros; by wp_step|].
  intros m1 h1 root tf T fl1 Hmade. wp_step. apply wp_getc; [cbn; lia|]. set (F := forked _ _ _ _ _ _ _ _ _). wp_step.
  pose proof Hmade as (Hsp & Hno & _). change (p_pagetable (born _ _ tf root)) with root.
  assert (Ep : forall m h, proc_of (upd F m h) 0 = born (proc_of fk_boot 0) (k_nextpid fk_boot) tf root) by reflexivity.
  apply (wp_uvmalloc root 0 PGSIZE T fl1 ∅ F); [apply Hsp|cbn; rewrite list_elem_of_singleton; done|unfold PGSIZE; lia|by vm_compute| | |].
  - intros v Hv. change (PGROUNDUP 0) with 0 in Hv. change (PGROUNDUP PGSIZE) with 0x1000 in Hv. eapply made_empty; [exact Hmade|].
    unfold TRAPFRAME, TRAMPOLINE, MAXVA, PGSIZE. lia.
  - intros m2 h2 T2 fl2 L2 Hfill. wp_step. intros _. rewrite Ep.
    destruct (fills_space F root T fl1 tf PGSIZE _ _ m2 h2 T2 fl2 L2 Hsp ltac:(by vm_compute) Hfill) as (S1 & S2 & S3).
    exists fl2, T2, L2. split_and!; [exact S1|cbn; by rewrite S2|apply S3]. by vm_compute.
  - intros m2 h2 T2 fl2 _ _ _. wp_step. intros [=].
Qed.

Lemma fk_pre s1 : fk_make fk_boot = Ret (Some 0%nat, PGSIZE) s1 -> exists fl T L, fork_pre (fk_of s1) 0 fl T L.
Proof.
  intros E. destruct (fk_made s1 E) as (fl & T & L & Hsp & Htf & [q Hq]). clear E. exists fl, T, L. unfold fk_of in *.
  revert Hsp Htf. generalize (k_mem s1) (k_freelist s1) (p_pagetable (proc_of s1 0)) (p_trapframe (proc_of s1 0)). intros m h root tf Hsp Htf.
  assert (Ep : proc_of (fk_state m h root tf) 0 = fk_parent root tf) by reflexivity.
  split; rewrite ?Ep; try exact Hsp; try exact Htf; try reflexivity.
  - discriminate.
  - split; vm_compute; discriminate.
  - intros va Hva Hal. change (p_sz (fk_parent root tf)) with PGSIZE in Hva. assert (va = 0) as -> by (unfold PGSIZE in *; zmod). by exists q.
  - intros v Hv. change (p_vmas (fk_parent root tf)) with (replicate NVMA vma0) in Hv. apply elem_of_replicate in Hv as [-> _]. done.
  - intros f Hf. change (all_refs (fk_parent root tf)) with [3%nat] in *. apply list_elem_of_singleton in Hf as ->.
    eexists. split; [reflexivity|]. by vm_compute.
  - by exists 0%nat.
  - intros [|i] c; [by intros [= <-]|]. intros Hc _. change (k_proc (fk_state m h root tf)) with (fk_parent root tf :: replicate 63 proc0) in Hc.
    rewrite lookup_cons_ne_0, Nat.pred_succ in Hc by done. apply lookup_replicate in Hc as [-> _]. done.
Qed.

Lemma fork_correct_witness : exists s1 fl L s', fork (fk_of s1) = Ret 2 s' /\ fork_makes (fk_of s1) 0 fl L 1 s'.
Proof.
  destruct fk_forks as (s1 & s2 & E1 & E2). destruct (fk_pre s1 E1) as (fl & T & L & Hpre).
  destruct (fork_correct (fk_of s1) 0 fl T L Hpre) as (r & s' & E & H). rewrite E2 in E. injection E as <- <-.
  exists s1, fl, L, s2. split; [exact E2|]. destruct H as [[H _]|[_ H]]; [discriminate H|exact H].
Defined.
