(* ===== verification/Wait.v ===== *)
(** * wait: reaping a child

    The outcomes of wait: it reaps the first child that is a zombie, gives up
    when there is no child, and goes to sleep otherwise. *)
From S2P Require Import Prelude Memory State Kalloc Vm PageTable VmSpec UserMem UserCopy FreeWalk VmTheorems Sched SchedSpec Sleeplock Codec Fs FsSpec FsPath File Trapframe Proc ProcMem MmapSpec Fork ForkTheorems.

Definition is_kid (p : nat) (c : proc) : bool := bool_decide (p_parent c = Some p).
Definition is_zombie (p : nat) (c : proc) : Prop := p_parent c = Some p /\ p_state c = ZOMBIE.
#[export] Instance is_zombie_dec p c : Decision (is_zombie p c).
Proof. unfold is_zombie. apply _. Defined.

(** The child wait reaps: the first zombie of the table. *)
Definition zombie_index (s : kstate) (p : nat) : option nat := fst <$> list_find (is_zombie p) (k_proc s).

(** [own i] is what the zombie [i] owns, with the free list [fl]; none of it is
    user memory of the process that waits. *)
Record wait_pre `{KernelImage} (s : kstate) (p : nat) (addr : Z) (fl : list Z) (T0 P : gmap Z Z) (own : nat -> Z -> Prop) : Prop := {
  wt_cur : k_cur s = Some p;
  wt_held : k_held s = [];
  wt_len : length (k_proc s) = NPROC;
  wt_p : (p < NPROC)%nat;
  wt_addr : 0 <= addr < 2 ^ 64;
  wt_user : user_inv (k_mem s) (k_freelist s) (p_pagetable (proc_of s p)) T0 fl P;
  wt_all : complete (k_mem s) (p_pagetable (proc_of s p)) P;
  wt_own i c : k_proc s !! i = Some c -> is_zombie p c ->
    owns_mem (k_mem s) (k_freelist s) fl c (own i) /\ forall va q, P !! va = Some q -> ~ own i q
}.

Section Wait.
Context `{KI : KernelImage} `{KOK : !KernelImageOk}.

Lemma space_ext m m' h root T fl L tf : space m h root T fl L tf -> fl_inv m' h fl ->
  (forall q a, upage T fl L q -> in_page q a -> ldb m' a = ldb m a) -> space m' h root T fl L tf.
Proof.
  intros [[[Hf Hw Hd] U2 U3 U4 U5 U6] S2 S3 S4 S5 S6] Hf' He.
  assert (Hst : same_tables T m m').
  { intros q l i Hq Hi. apply pte_at_ext; [done|]. intros a Ha. apply (He q); [|done]. left. right. by exists l. }
  assert (Hp : forall va, pte_of m' root va = pte_of m root va) by (intros va; by eapply pte_of_ext).
  assert (Hw' : pt_wf m' T root) by (by eapply pt_wf_ext, Hw; apply same_tables_interior).
  split; rewrite ?Hp; try done; [|intros va Hva; rewrite Hp; by apply S5]. split; try done. intros va pa Hl. rewrite Hp. eauto.
Qed.

(** Only the pages of [L] are open to the user. *)
Lemma mkpte_flag pa perm f : 0 <= pa < 2 ^ 56 -> pa mod PGSIZE = 0 -> 0 <= perm < 1024 -> 0 <= f < 1024 ->
  has (mkpte pa perm) f = has (Z.lor perm PTE_V) f.
Proof.
  intros Hpa Hal Hp Hf. destruct (mkpte_val pa perm Hpa Hal Hp) as [-> Hr]. unfold has. do 2 f_equal.
  rewrite <- (Z.mod_small f 1024) by done. change 1024 with (2 ^ 10). rewrite <- Z.land_ones by lia. rewrite (Z.land_comm f), !Z.land_assoc. f_equal.
  rewrite !Z.land_ones by lia. change (2 ^ 10) with 1024. zmod.
Qed.

Lemma space_complete m h root T fl L tf : space m h root T fl L tf -> complete m root L.
Proof.
  intros [S1 S2 S3 S4 S5 S6] va Hva Hne. pose proof (uaddr_max _ _ _ Hne). unfold uaddr in Hne. rewrite (proj2 (Z.leb_gt MAXVA va)) in Hne by done.
  destruct (has (pte_of m root va) PTE_V && has (pte_of m root va) PTE_U) eqn:E; [|done]. apply andb_prop in E as [E1 E2].
  destruct (S5 va) as [H1|[H1|H1]]; [by apply va_vatop|done|done|exfalso..]; rewrite <- pte_of_page, H1 in E2.
  - rewrite S2, mkpte_flag in E2; [discriminate E2|apply tramp_56|apply trampoline_aligned|by vm_compute|by vm_compute].
  - rewrite S3, mkpte_flag in E2; [discriminate E2|by apply page_ok_56|apply S4|by vm_compute|by vm_compute].
Qed.

Lemma owns_ext m m' h fl c pg : owns_mem m h fl c pg -> fl_inv m' h fl ->
  (forall q a, pg q -> in_page q a -> ldb m' a = ldb m a) -> owns_mem m' h fl c pg.
Proof.
  intros [(A1 & A2 & A3 & A4)|[(A1 & A2 & A3 & A4 & A5)|(A1 & T & L & A2 & A3 & A4 & A5 & A6)]] Hf He.
  - left. by split_and!.
  - right. left. by split_and!.
  - right. right. split; [done|]. exists T, L. split; [|exact (conj A3 (conj A4 (conj A5 A6)))]. eapply space_ext; [exact A2|done|].
    intros q a Hq. apply He, A6. by right.
Qed.

Lemma owns_ok m h fl c pg q : owns_mem m h fl c pg -> pg q -> page_ok q.
Proof.
  intros [(A1 & A2 & (_ & _ & A3) & A4)|[(A1 & A2 & A3 & (_ & _ & A4) & A5)|(A1 & T & L & A2 & A3 & A4 & A5 & A6)]].
  - rewrite A4. by apply Forall_forall.
  - rewrite A5. intros [-> |Hq]; [done|]. revert q Hq. by apply Forall_forall.
  - rewrite A6. intros [-> |[[Hq|(l & Hq)]|(va & Hq)]].
    + apply A2.
    + revert q Hq. apply Forall_forall. apply A2.
    + eapply wf_page; [apply A2|exact Hq].
    + eapply ui_ok; [apply A2|exact Hq].
Qed.

(** A process whose pages are not those written keeps what it owns. *)
Lemma owns_wrote m h root T0 fl P addr src n m' c pg :
  owns_mem m h fl c pg -> (forall va q, P !! va = Some q -> ~ pg q) -> wrote m h root T0 fl P addr src n m' -> owns_mem m' h fl c pg.
Proof.
  intros Ho Hd [Wi Wp Wb Wf]. eapply owns_ext; [exact Ho|apply Wi|]. intros q a Hq Ha. apply Wf. intros va pa Hl Hin.
  destruct (owns_ok _ _ _ _ _ _ Ho Hq) as [Hq1 _]. destruct (ui_ok _ _ _ _ _ _ Wi _ _ Hl) as [Hp1 _].
  apply (in_page_apart q pa a); try done. intros ->. by apply (Hd va pa).
Qed.

Lemma forked_same s i hd : (i < length (k_proc s))%nat ->
  forked s i hd (k_mem s) (k_freelist s) (k_nextpid s) (k_ftable s) (k_itable s) (proc_of s i) = set_held (fun _ => hd) s.
Proof.
  intros Hi. assert (Ep : alter (fun _ => proc_of s i) i (k_proc s) = k_proc s).
  { apply list_eq. intros j. destruct (decide (i = j)) as [<-|]; [|by rewrite list_lookup_alter_ne].
    rewrite list_lookup_alter_eq. unfold proc_of. by destruct (lookup_lt_is_Some_2 _ _ Hi) as [x ->]. }
  transitivity (set_held (fun _ => hd) (set_proc (fun _ => alter (fun _ => proc_of s i) i (k_proc s)) s)); [done|]. by rewrite Ep.
Qed.

(** ** The scan of the table *)
Section Scan.
Context {R : kstate -> kstate -> Prop} {C : kstate -> Prop}.
Context (s : kstate) (p : nat) (addr : Z) (fl : list Z) (T0 P : gmap Z Z) (own : nat -> Z -> Prop) (Hpre : wait_pre s p addr fl T0 P own).
Let sw := set_held (fun _ => [L_wait]) s.
Let root := p_pagetable (proc_of s p).

(** What a write of the exit status leaves at [addr]. *)
Definition status_out (c : proc) (n : nat) (m' : mem) : Prop :=
  if addr =? 0 then m' = k_mem s
  else wrote (k_mem s) (k_freelist s) (p_pagetable (proc_of s p)) T0 fl P addr (le_enc 4 (p_xstate c)) n m'.
Definition wait_reaps (i : nat) (s' : kstate) : Prop :=
  exists m1 m' h', status_out (proc_of s i) 4 m1 /\ all_free m1 (own i) m' h' /\
    s' = forked s i [] m' h' (k_nextpid s) (k_ftable s) (k_itable s) (cleared (proc_of s i)).
Definition wait_faults (i : nat) (s' : kstate) : Prop :=
  addr <> 0 /\ exists m1 n, (n < 4)%nat /\ ubyte (k_mem s) (p_pagetable (proc_of s p)) (addr + Z.of_nat n) = None /\
    status_out (proc_of s i) n m1 /\ s' = upd s m1 (k_freelist s).

Lemma wp_wait_reap i (Q : nat * bool + (bool + Z) -> kstate -> Prop) b c : k_proc s !! i = Some c -> is_zombie p c ->
  (forall s', wait_reaps i s' -> Q (inr (inr (p_pid c))) s') ->
  (forall s', wait_faults i s' -> Q (inr (inr (-1))) s') ->
  wpc R C (wait_child p addr (i, b)) Q sw.
Proof.
  intros Hc Hz HR HF. destruct Hpre as [W1 W2 W3 W4 W5 W6 W7 W8].
  destruct (W8 i c Hc Hz) as [Ho Hd]. destruct Hz as [Hz1 Hz2].
  assert (Hi : (i < NPROC)%nat) by (rewrite <- W3; by eapply lookup_lt_Some).
  assert (Ec : proc_of s i = c) by (unfold proc_of; by rewrite Hc).
  unfold wait_child. rewrite (proj2 (Nat.ltb_lt i NPROC)) by done. unfold getp. wp_step. wp_step.
  change (proc_of sw i) with (proc_of s i). rewrite Ec, bool_decide_eq_true_2 by done.
  wp_step. apply wp_acquire; [cbn; rewrite list_elem_of_singleton; done|]. wp_step. wp_step.
  set (s1 := set_held _ sw). assert (E1 : s1 = set_held (fun _ => [L_proc i; L_wait]) s) by done.
  change (proc_of s1 i) with (proc_of s i). rewrite Ec, bool_decide_eq_true_2 by done. cbv zeta. wp_step.
  assert (Hfin : forall m1, status_out (proc_of s i) 4 m1 -> owns_mem m1 (k_freelist s) fl c (own i) ->
    wpc R C (freeproc i;;; release (L_proc i);;; release L_wait;;; ret (inr (inr (p_pid c)))) Q (upd s1 m1 (k_freelist s))).
  { intros m1 Hst Ho1. wp_step. apply wp_wpc.
    replace (upd s1 m1 (k_freelist s)) with (forked s i [L_proc i; L_wait] m1 (k_freelist s) (k_nextpid s) (k_ftable s) (k_itable s) c).
    2: { rewrite E1, <- (forked_same s i) by lia. by rewrite Ec, forked_upd. }
    apply (wp_freeproc s i ltac:(lia) _ _ _ _ _ _ _ fl (own i)); [done|set_solver|]. intros m' h' Hall.
    wp_step. eapply wp_release_last; [reflexivity|set_solver|]. rewrite forked_held. wp_step.
    eapply wp_release_last; [reflexivity|apply not_elem_of_nil|]. rewrite forked_held. wp_step.
    apply HR. exists m1, m', h'. split_and!; [exact Hst|exact Hall|by rewrite Ec]. }
  destruct (Z.eqb_spec addr 0) as [Ea|Ea].
  - wp_step. rewrite <- (upd_id s1). apply Hfin; [|done]. unfold status_out. by rewrite (proj2 (Z.eqb_eq addr 0)).
  - unfold status_out in Hfin. wp_step. wp_step. change (proc_of s1 p) with (proc_of s p). fold root. apply wp_wpc.
    assert (Hst : forall n m', status_out (proc_of s i) n m' <-> wrote (k_mem s) (k_freelist s) root T0 fl P addr (le_enc 4 (p_xstate c)) n m').
    { intros n m'. unfold status_out. by rewrite (proj2 (Z.eqb_neq addr 0)), Ec. }
    apply (wp_copyout root addr (le_enc 4 (p_xstate c)) T0 fl P s1); [exact W6|exact W7|exact W5|by rewrite le_enc_length|apply le_enc_bytes| |].
    + intros m' Hw. rewrite le_enc_length in Hw. apply Hfin; [by apply Hst|]. by eapply owns_wrote.
    + intros m' n Hn Hu Hw. rewrite le_enc_length in Hn. change (-1 <? 0) with true. cbv iota. wp_step.
      eapply wp_release_last; [reflexivity|set_solver|]. wp_step. eapply wp_release_last; [reflexivity|apply not_elem_of_nil|]. wp_step. apply HF.
      split; [done|]. exists m', n. split_and!; [done|exact Hu|by apply Hst|]. unfold set_held, upd, set_mem, set_freelist. cbn. by rewrite W2.
Qed.

(** The whole scan. *)
Lemma wp_wait_scan (Q : bool + Z -> kstate -> Prop) :
  (zombie_index s p = None -> Q (inl (existsb (is_kid p) (k_proc s))) sw) ->
  (forall i s', zombie_index s p = Some i -> wait_reaps i s' -> Q (inr (p_pid (proc_of s i))) s') ->
  (forall i s', zombie_index s p = Some i -> wait_faults i s' -> Q (inr (-1)) s') ->
  wpc R C (loop (wait_child p addr) (0%nat, false)) Q sw.
Proof.
  intros HN HR HF. pose proof (wt_len _ _ _ _ _ _ _ Hpre) as Hlen.
  apply (wp_loop _ (fun (x : nat * bool) s' => s' = sw /\ (x.1 <= NPROC)%nat /\ x.2 = existsb (is_kid p) (take x.1 (k_proc s)) /\
    forall j c, (j < x.1)%nat -> k_proc s !! j = Some c -> ~ is_zombie p c) (fun x _ => Z.of_nat NPROC - Z.of_nat x.1)).
  2: { split_and!; [done|cbn; lia|done|cbn; lia]. }
  2: { vm_compute. reflexivity. }
  intros [i b] s' (-> & Hi & Hb & Hno). cbn [fst snd] in *. destruct (decide (i = NPROC)) as [-> |Hne].
  { unfold wait_child. rewrite Nat.ltb_irrefl. wp_step. rewrite <- Hlen, firstn_all in Hb. rewrite Hb. apply HN. unfold zombie_index.
    destruct (list_find _ _) as [[j c]|] eqn:E; [|done]. apply list_find_Some in E as (E1 & E2 & _).
    exfalso. apply (Hno j c); [rewrite <- Hlen; by eapply lookup_lt_Some|done|done]. }
  destruct (lookup_lt_is_Some_2 (k_proc s) i) as [c Hc]; [lia|]. assert (Ec : proc_of s i = c) by (unfold proc_of; by rewrite Hc).
  destruct (decide (is_zombie p c)) as [Hz|Hz].
  - assert (Ez : zombie_index s p = Some i).
    { unfold zombie_index. rewrite (proj2 (list_find_Some (is_zombie p) (k_proc s) i c)); [done|]. split_and!; [done|done|]. intros j y Hy Hj. by apply (Hno j y). }
    eapply wp_wait_reap; [exact Hc|exact Hz| |]; intros s' Hs'; [rewrite <- Ec; by apply HR|by apply (HF i)].
  - assert (Hnext : forall b', b' = existsb (is_kid p) (take (S i) (k_proc s)) -> sw = sw /\ (S i <= NPROC)%nat /\ b' = existsb (is_kid p) (take (S i) (k_proc s)) /\
      forall j c, (j < S i)%nat -> k_proc s !! j = Some c -> ~ is_zombie p c).
    { intros b' ->. split_and!; [done|lia|done|]. intros j c' Hj Hc'. destruct (decide (j = i)) as [-> |]; [congruence|]. apply (Hno j); [lia|done]. }
    assert (Ek : existsb (is_kid p) (take (S i) (k_proc s)) = b || is_kid p c).
    { rewrite (take_S_r _ _ _ Hc), existsb_app, Hb. cbn. by rewrite orb_false_r. }
    unfold wait_child. rewrite (proj2 (Nat.ltb_lt i NPROC)) by lia. unfold getp. wp_step. wp_step.
    change (proc_of sw i) with (proc_of s i). rewrite Ec. unfold is_kid at 2 in Ek. case_bool_decide as Hp.
    + wp_step. apply wp_acquire; [cbn; rewrite list_elem_of_singleton; done|]. wp_step. wp_step. set (s1 := set_held _ sw).
      change (proc_of s1 i) with (proc_of s i). rewrite Ec, bool_decide_eq_false_2 by (intros E; by apply Hz).
      wp_step. eapply wp_release_last; [reflexivity|set_solver|]. wp_step. cbn [fst snd]. split; [|lia]. apply (Hnext true). by rewrite Ek, orb_true_r.
    + wp_step. cbn [fst snd]. split; [|lia]. apply (Hnext b). by rewrite Ek, orb_false_r.
Qed.
End Scan.

(** ** wait *)
Definition wait_sleeps (s : kstate) (p : nat) : kstate := asleep p (Ch_proc p) (set_held (fun _ => [L_wait]) s).

Section WaitMain.
Context (s : kstate) (p : nat) (addr : Z) (fl : list Z) (T0 P : gmap Z Z) (own : nat -> Z -> Prop) (Hpre : wait_pre s p addr fl T0 P own).

Lemma wpc_wait (Q : Z -> kstate -> Prop) (C : kstate -> Prop) :
  (zombie_index s p = None -> if negb (existsb (is_kid p) (k_proc s)) || p_killed (proc_of s p) then Q (-1) s else C (wait_sleeps s p)) ->
  (forall i s', zombie_index s p = Some i -> wait_reaps s p addr fl T0 P own i s' -> Q (p_pid (proc_of s i)) s') ->
  (forall i s', zombie_index s p = Some i -> wait_faults s p addr fl T0 P i s' -> Q (-1) s') ->
  wpc (fun _ _ => False) C (wait addr) Q s.
Proof.
  intros HN HR HF. destruct Hpre as [W1 W2 W3 W4 _ _ _ _]. unfold wait. wp_step. apply (wp_curproc p); [done|]. wp_step.
  apply wp_acquire; [rewrite W2; apply not_elem_of_nil|].
  replace (set_held (cons L_wait) s) with (set_held (fun _ => [L_wait]) s) by (unfold set_held; by rewrite W2).
  apply (wp_loop _ (fun (_ : unit) s' => s' = set_held (fun _ => [L_wait]) s) (fun _ _ => 0)); [|done|lia].
  intros _ s' ->. wp_step. eapply (wp_wait_scan s p addr); [exact Hpre| | |].
  - intros Hz. specialize (HN Hz). unfold getp. wp_step. wp_step. change (proc_of (set_held (fun _ => [L_wait]) s) p) with (proc_of s p).
    destruct (negb _ || _).
    + wp_step. eapply wp_release_last; [reflexivity|apply not_elem_of_nil|]. wp_step.
      change (Q (-1) (set_held (fun _ => []) s)). rewrite set_held_id by done. exact HN.
    + wp_step. apply (wp_sleep p); [done|done|discriminate|cbn; lia|done|]. intros ? [].
  - intros i s' Hz Hr. wp_step. by eapply HR.
  - intros i s' Hz Hr. wp_step. by eapply HF.
Qed.

(** C6: wait reaps the first zombie of the process table that is a child of the
    caller: it returns its pid with the exit status stored at [addr] (nothing is
    stored when [addr] is 0), the slot is cleared, and every page the child
    owned (user memory, page tables, trapframe) is on the free list.  When the
    status cannot be stored, it returns -1 and the child stays.  Without a
    zombie it returns -1 at once if there are no children or the caller is
    killed, the kernel unchanged, and otherwise gives up the CPU asleep on its
    own process with no lock held but its own. *)
Theorem wait_correct :
  match zombie_index s p with
  | Some i => exists r s', wait addr s = Ret r s' /\
      ((r = p_pid (proc_of s i) /\ wait_reaps s p addr fl T0 P own i s') \/ (r = -1 /\ wait_faults s p addr fl T0 P i s'))
  | None => if negb (existsb (is_kid p) (k_proc s)) || p_killed (proc_of s p) then wait addr s = Ret (-1) s
            else exists k, wait addr s = Swtch (wait_sleeps s p) k
  end.
Proof.
  destruct (zombie_index s p) as [i|] eqn:Ei; [|destruct (negb _ || _) eqn:Ek].
  - destruct (wp_elim (wait addr) (fun r s' => (r = p_pid (proc_of s i) /\ wait_reaps s p addr fl T0 P own i s') \/
      (r = -1 /\ wait_faults s p addr fl T0 P i s')) s) as (r & s' & E & H); [|by exists r, s'].
    apply wpc_wait; [by rewrite Ei|intros j s'; rewrite Ei; intros [= <-]; by left|intros j s'; rewrite Ei; intros [= <-]; by right].
  - destruct (wp_elim (wait addr) (fun r s' => r = -1 /\ s' = s) s) as (r & s' & E & -> & ->); [|done].
    apply wpc_wait; [by rewrite Ek|by rewrite Ei|by rewrite Ei].
  - assert (H : wpc (fun _ _ => False) (fun s' => s' = wait_sleeps s p) (wait addr) (fun _ _ => False) s).
    { apply wpc_wait; [by rewrite Ek|by rewrite Ei|by rewrite Ei]. }
    unfold wpc in H. destruct (wait addr s) as [| |s' k|]; [done|done| |done]. destruct H as [-> _]. by exists k.
Qed.
End WaitMain.
End Wait.

(** ** fork, exit, wait *)
Lemma free_slot `{KI : KernelImage} s p fl T0 P i : fork_pre s p fl T0 P -> free_index s = Some i -> (i < length (k_proc s))%nat /\ p <> i.
Proof.
  intros Hpre. pose proof (fk_live _ _ _ _ _ Hpre) as Hl. unfold free_index. destruct (list_find _ _) as [[j x]|] eqn:El; [|done].
  intros [= <-]. apply list_find_Some in El as (E1 & E2 & _). split; [by eapply lookup_lt_Some|].
  intros ->. apply Hl. unfold proc_of. by rewrite E1.
Qed.

Section ForkWait.
Context `{KI : KernelImage} `{KOK : !KernelImageOk}.
Context (s : kstate) (p : nat) (fl : list Z) (T0 P : gmap Z Z) (Hpre : fork_pre s p fl T0 P).
Context (i : nat) (s' : kstate) (Hfree : free_index s = Some i) (Hmakes : fork_makes s p fl P i s').

(** The child after it has exited: a zombie that still owns its memory. *)
Definition exited (c0 c : proc) (p : nat) : Prop :=
  p_state c = ZOMBIE /\ p_parent c = Some p /\ p_pid c = p_pid c0 /\ p_sz c = p_sz c0 /\ p_pagetable c = p_pagetable c0 /\ p_trapframe c = p_trapframe c0.
Context (c : proc) (Hdead : exited (proc_of s' i) c p).
Let z := set_proc (alter (fun _ => c) i) s'.

Lemma fork_wait_pre addr : 0 <= addr < 2 ^ 64 -> (p < NPROC)%nat -> zombie_index s p = None ->
  exists fl', wait_pre z p addr fl' T0 P (fun _ q => q ∈ fl).
Proof.
  intros Ha Hp Hz. destruct (free_slot _ _ _ _ _ _ Hpre Hfree) as [Hi Hne]. destruct Hpre as [K1 K2 K3 K4 K5 K6 K7 K8 _ _ _ _ _ K9].
  destruct Hmakes as (m' & h' & root & tf & T' & fl' & L' & [I1 I2 I3 I4 I5 I6 I7] & Es). exists fl'.
  assert (Ep : proc_of z p = proc_of s p).
  { unfold z, proc_of. cbn. rewrite list_lookup_alter_ne, Es by done. unfold forked. cbn. by rewrite list_lookup_alter_ne. }
  destruct (user_outside _ _ _ _ _ _ m' (sp_user _ _ _ _ _ _ _ K5) I7) as [Hw Hpte].
  destruct Hdead as (D1 & D2 & D3 & D4 & D5 & D6). rewrite Es, forked_proc in D3, D4, D5, D6 by done. cbn in D3, D4, D5, D6.
  destruct (sp_user _ _ _ _ _ _ _ K5) as [[Hf0 Hw0 Hd0] U2 U3 U4 U5 U6].
  assert (Hsub : forall q, q ∈ fl' -> q ∈ fl) by (intros q Hq; apply I3; right; left; by left).
  split; rewrite ?Ep.
  - unfold z. rewrite Es. exact K1.
  - unfold z. by rewrite Es.
  - unfold z. rewrite Es. cbn. by rewrite !length_alter.
  - done.
  - done.
  - unfold z. rewrite Es. cbn. split; [split; [apply I1|done|]|done| |done| |done].
    + intros q Hq. by apply Hd0, Hsub.
    + intros va pa Hl. rewrite Hpte. by apply U3.
    + intros va pa Hl [Hq|Hq]; apply (U5 va pa Hl); [left; by apply Hsub|by right].
  - unfold z. rewrite Es. cbn. intros va Hva. unfold uaddr. rewrite Hpte. by apply (space_complete _ _ _ _ _ _ _ K5).
  - intros j cj Hj Hzj. destruct (decide (j = i)) as [-> |Hji].
    + unfold z in Hj. cbn in Hj. rewrite list_lookup_alter_eq in Hj. destruct (k_proc s' !! i); [|done]. injection Hj as <-.
      split; [|intros va q Hl Hq; apply (U5 va q Hl); by left]. unfold z. rewrite Es. cbn. right. right. rewrite D4, D5, D6. cbn.
      split. { pose proof (wf_page _ _ _ (vi_tree _ _ _ _ _ (ui_vm _ _ _ _ _ _ (sp_user _ _ _ _ _ _ _ I1))) root 2) as Hr.
               destruct Hr as [Hr _]; [by apply (wf_root _ _ _ (vi_tree _ _ _ _ _ (ui_vm _ _ _ _ _ _ (sp_user _ _ _ _ _ _ _ I1))))|]. pose proof (page_ok_pos _ Hr). lia. }
      exists T', L'. split; [done|]. split; [done|]. split; [destruct K7; split; [done|]; etrans; [done|by vm_compute]|]. split; [exact I4|exact I3].
    + exfalso. unfold z in Hj. cbn in Hj. rewrite list_lookup_alter_ne, Es in Hj by done. unfold forked in Hj. cbn in Hj. rewrite list_lookup_alter_ne in Hj by done.
      unfold zombie_index in Hz. apply fmap_None in Hz. rewrite list_find_None in Hz. by eapply (proj1 (Forall_lookup _ _) Hz j cj).
Qed.

Lemma zombie_child : zombie_index s p = None -> zombie_index z p = Some i.
Proof.
  intros Hz. destruct (free_slot _ _ _ _ _ _ Hpre Hfree) as [Hi _]. destruct Hmakes as (m' & h' & root & tf & T' & fl' & L' & _ & Es). destruct Hdead as (D1 & D2 & _).
  unfold zombie_index in *. apply fmap_None in Hz. rewrite list_find_None in Hz.
  assert (Hl : (i < length (k_proc s'))%nat) by (rewrite Es; cbn; by rewrite length_alter).
  rewrite (proj2 (list_find_Some (is_zombie p) (k_proc z) i c)); [done|]. unfold z. cbn. split_and!; [|done|].
  - rewrite list_lookup_alter_eq. by destruct (lookup_lt_is_Some_2 _ _ Hl) as [x ->].
  - intros j y Hy Hj. rewrite list_lookup_alter_ne, Es in Hy by lia. unfold forked in Hy. cbn in Hy. rewrite list_lookup_alter_ne in Hy by lia.
    exact (proj1 (Forall_lookup _ _) Hz j y Hy).
Qed.

End ForkWait.


(** ** The child of the machine that forks, dead *)
#[local] Existing Instance demo_image.
#[local] Existing Instance demo_image_ok.

Definition fk_dead (s2 : kstate) : proc := set_p_state ZOMBIE (set_p_xstate 7 (proc_of s2 1)).
Definition fk_zombie (s2 : kstate) : kstate := set_proc (alter (fun _ => fk_dead s2) 1%nat) s2.

(** The machine in which the child of the first process has exited with 7. *)
Lemma fk_exited : exists s1 s2 fl T L, fork_pre (fk_of s1) 0 fl T L /\ fork (fk_of s1) = Ret 2 s2 /\
  fork_makes (fk_of s1) 0 fl L 1 s2 /\ exited (proc_of s2 1) (fk_dead s2) 0.
Proof.
  destruct fk_forks as (s1 & s2 & E1 & E2). destruct (fk_pre s1 E1) as (fl & T & L & Hpre). exists s1, s2, fl, T, L.
  split; [exact Hpre|]. split; [exact E2|].
  destruct (wp_elim fork (fun r s' => r = -1 \/ fork_makes (fk_of s1) 0 fl L 1 s') (fk_of s1)) as (r & s' & E & H).
  { apply (wp_fork _ _ _ _ _ Hpre); [intros H; discriminate H|]. intros i Hi. change (free_index (fk_of s1)) with (Some 1%nat) in Hi. injection Hi as <-.
    split; intros s' H; [left; reflexivity|right; exact H]. }
  rewrite E2 in E. injection E as <- <-. destruct H as [H|H]; [discriminate H|]. split; [exact H|].
  destruct H as (m' & h' & root & tf & T' & fl' & L' & _ & ->). unfold fk_dead, exited. rewrite forked_proc by (vm_compute; lia). split_and!; reflexivity.
Qed.

Lemma fk_quiet s1 : zombie_index (fk_of s1) 0 = None.
Proof. reflexivity. Qed.

Lemma wait_correct_witness : exists s2 r s' (fl fl' : list Z) T P, wait 0 (fk_zombie s2) = Ret r s' /\
  wait_reaps (fk_zombie s2) 0 0 fl' T P (fun _ q => q ∈ fl) 1 s'.
Proof.
  destruct fk_exited as (s1 & s2 & fl & T & L & Hpre & E2 & Hm & Hd).
  destruct (fork_wait_pre (fk_of s1) 0 fl T L Hpre 1 s2 eq_refl Hm (fk_dead s2) Hd 0 ltac:(lia) ltac:(vm_compute; lia) (fk_quiet s1)) as (fl' & Hw).
  pose proof (wait_correct (fk_zombie s2) 0 0 fl' T L _ Hw) as H. unfold fk_zombie in *.
  rewrite (zombie_child (fk_of s1) 0 fl T L Hpre 1 s2 eq_refl Hm (fk_dead s2) Hd (fk_quiet s1)) in H.
  destruct H as (r & s' & E & [[_ H]|[_ [H _]]]); [|exfalso; apply H; reflexivity].
  exists s2, r, s', fl, fl', T, L. split; [exact E|exact H].
Defined.

