(* ===== verification/ProcTheorems.v ===== *)
(** * kill and wakeup, and a slot that is born killed *)
From S2P Require Import Prelude Memory State Kalloc Vm VmWitness Sched SchedSpec Proc.

Section ProcTheorems.
Context `{KI : KernelImage}.

(** What kill does to its victim. *)
Definition victim (p : proc) : proc :=
  set_p_state (if bool_decide (p_state p = SLEEPING) then RUNNABLE else p_state p) (set_p_killed true p).

(** Kill marks the first process with the given pid as killed, makes it
    runnable if it sleeps, and returns 0; it returns -1, changing nothing,
    exactly when no process has the pid.  No lock stays held and no other process
    changes. *)
Theorem kill_correct pid s :
  no_plock s -> length (k_proc s) = NPROC ->
  (exists i, (i < NPROC)%nat /\ p_pid (proc_of s i) = pid /\ (forall j, (j < i)%nat -> p_pid (proc_of s j) <> pid) /\
     kill pid s = Ret 0 (set_proc (alter victim i) s)) \/
  ((forall j, (j < NPROC)%nat -> p_pid (proc_of s j) <> pid) /\ kill pid s = Ret (-1) s).
Proof.
  intros Hno Hlen.
  destruct (wp_elim (kill pid) (fun r s' =>
    (exists i, (i < NPROC)%nat /\ p_pid (proc_of s i) = pid /\ (forall j, (j < i)%nat -> p_pid (proc_of s j) <> pid) /\
       r = 0 /\ s' = set_proc (alter victim i) s) \/
    ((forall j, (j < NPROC)%nat -> p_pid (proc_of s j) <> pid) /\ r = -1 /\ s' = s)) s) as (r & s' & E & H).
  - apply wp_kill; [done|done| |].
    + intros i Hi Hp Hb. left. by exists i.
    + intros Hall. by right.
  - destruct H as [(i & Hi & Hp & Hb & -> & ->)|(Hall & -> & ->)]; [left; by exists i|by right].
Qed.

(** wakeup makes exactly the processes runnable that sleep on the channel,
    apart from the caller, and changes nothing else. *)
Theorem wakeup_correct ch s :
  no_plock s -> length (k_proc s) = NPROC ->
  wakeup ch s = Ret tt (set_proc (imap (woken ch (k_cur s))) s).
Proof.
  intros Hno Hlen. destruct (wp_elim (wakeup ch) (fun _ s' => s' = set_proc (imap (woken ch (k_cur s))) s) s)
    as ([] & s' & E & ->); [by apply wp_wakeup|done].
Qed.
End ProcTheorems.

#[local] Existing Instance demo_image.
#[local] Existing Instance demo_image_ok.

(** Three processes of which the second sleeps until the clock ticks. *)
Definition ks_procs : kstate :=
  set_proc (fun l => alter (fun p => set_p_pid 3 (set_p_chan Ch_ticks (set_p_state SLEEPING p))) 1%nat
                       (alter (fun p => set_p_pid 2 (set_p_state RUNNING p)) 0%nat l)) ks.

Lemma ks_procs_free : no_plock ks_procs.
Proof. intros i. apply not_elem_of_nil. Qed.

Lemma kill_correct_witness : kill 3 ks_procs = Ret 0 (set_proc (alter victim 1%nat) ks_procs).
Proof.
  destruct (kill_correct 3 ks_procs ks_procs_free eq_refl) as [(i & Hi & Hp & Hb & E)|[Hall _]].
  - destruct i as [|[|i]]; [vm_compute in Hp; discriminate|exact E|]. exfalso. apply (Hb 1%nat); [lia|reflexivity].
  - exfalso. apply (Hall 1%nat); [apply Nat.ltb_lt; reflexivity|reflexivity].
Defined.

Lemma wakeup_correct_witness : exists s', wakeup Ch_ticks ks_procs = Ret tt s' /\ p_state (proc_of s' 1) = RUNNABLE.
Proof.
  eexists. split; [apply (wakeup_correct Ch_ticks ks_procs ks_procs_free eq_refl)|]. vm_compute. reflexivity.
Defined.

