(* ===== verification/Umalloc.v ===== *)
(** * umalloc.c: the allocator of user programs

    Kernighan and Ritchie's malloc: free blocks in a ring sorted by address,
    with a header of a link and a size in units of 16 bytes in front of each
    block.  Memory is a map from the addresses of header fields to their words;
    the link of the header at [p] is at [p], its size at [p + 8]. *)
From S2P Require Import Prelude Memory.

Record uheap := mkUheap { u_mem : gmap Z Z; u_freep : Z; u_brk : Z }.
Definition set_u_mem (f : gmap Z Z -> gmap Z Z) (s : uheap) : uheap := mkUheap (f (u_mem s)) (u_freep s) (u_brk s).
Definition set_u_freep (x : Z) (s : uheap) : uheap := mkUheap (u_mem s) x (u_brk s).
Definition set_u_brk (x : Z) (s : uheap) : uheap := mkUheap (u_mem s) (u_freep s) x.

Abbreviation UM := (K uheap).
Definition sizeof_Header : Z := 16.

Definition uptr (m : gmap Z Z) (p : Z) : Z := default 0 (m !! p).
Definition usize (m : gmap Z Z) (p : Z) : Z := default 0 (m !! (p + 8)).

Definition ptr_of (p : Z) : UM Z := gets (fun s => uptr (u_mem s) p).
Definition size_of (p : Z) : UM Z := gets (fun s => usize (u_mem s) p).
Definition set_ptr (p v : Z) : UM unit := modify (set_u_mem (<[p := v]>)).
Definition set_size (p v : Z) : UM unit := modify (set_u_mem (<[p + 8 := u32 v]>)).
(** [p + n] for a pointer to a header. *)
Definition padd (p n : Z) : Z := u64 (p + sizeof_Header * n).

Section Umalloc.
(** The address of the static header [base], and whether the kernel grants the
    process [n] more bytes beyond the break. *)
Context (base : Z) (room : Z -> Z -> bool).

(** The system call, sys_sbrk and growproc, for a process whose memory ends at
    the break: growproc computes in [uint], sys_sbrk returns an [int]. *)
Definition sbrk (n : Z) : UM Z :=
  let* b := gets (fun s => u_brk s) in
  let addr := u64 (s32 b) in
  let sz := u32 b in
  if 0 <? n then
    if room b n then modify (set_u_brk (u32 (sz + n)));;; ret addr else ret (2 ^ 64 - 1)
  else
    let sz' := u32 (sz + n) in
    modify (set_u_brk (if (n <? 0) && (sz' <? sz) then sz' else sz));;;
    ret addr.

(** One step of the search in free: [inr p] when the block goes after [p]. *)
Definition free_round (bp p : Z) : UM (Z + Z) :=
  let* q := ptr_of p in
  if (p <? bp) && (bp <? q) then ret (inr p)
  else if (q <=? p) && ((p <? bp) || (bp <? q)) then ret (inr p)
  else ret (inl q).

Definition free (ap : Z) : UM unit :=
  let bp := ap - sizeof_Header in
  let* f := gets (fun s => u_freep s) in
  let* p := loop (free_round bp) f in
  let* q := ptr_of p in
  let* bn := size_of bp in
  (if padd bp bn =? q then
     let* qn := size_of q in
     set_size bp (bn + qn);;;
     let* qq := ptr_of q in
     set_ptr bp qq
   else set_ptr bp q);;;
  let* pn := size_of p in
  (if padd p pn =? bp then
     let* bn := size_of bp in
     set_size p (pn + bn);;;
     let* bq := ptr_of bp in
     set_ptr p bq
   else set_ptr p bp);;;
  modify (set_u_freep p).

Definition morecore (nu : Z) : UM Z :=
  let nu := if nu <? 4096 then 4096 else nu in
  let* p := sbrk (s32 (nu * sizeof_Header)) in
  if p =? 2 ^ 64 - 1 then ret 0
  else
    set_size p nu;;;
    free (p + sizeof_Header);;;
    gets (fun s => u_freep s).

(** One round of malloc's search. *)
Definition malloc_round (nunits : Z) (x : Z * Z) : UM (Z * Z + Z) :=
  let '(prevp, p) := x in
  let* n := size_of p in
  if nunits <=? n then
    let* r :=
      (if n =? nunits then
         let* q := ptr_of p in
         set_ptr prevp q;;;
         ret p
       else
         set_size p (n - nunits);;;
         let r := padd p (n - nunits) in
         set_size r nunits;;;
         ret r) in
    modify (set_u_freep prevp);;;
    ret (inr (r + sizeof_Header))
  else
    let* f := gets (fun s => u_freep s) in
    let* r := (if p =? f then let* p' := morecore nunits in ret (if p' =? 0 then None else Some p') else ret (Some p)) in
    match r with
    | None => ret (inr 0)
    | Some p => let* q := ptr_of p in ret (inl (p, q))
    end.

Definition nunits_of (nbytes : Z) : Z := u32 ((nbytes + sizeof_Header - 1) / sizeof_Header + 1).

Definition malloc (nbytes : Z) : UM Z :=
  let nunits := nunits_of nbytes in
  let* f := gets (fun s => u_freep s) in
  when (f =? 0)
    (modify (set_u_freep base);;;
     set_ptr base base;;;
     set_size base 0);;;
  let* prevp := gets (fun s => u_freep s) in
  let* p := ptr_of prevp in
  loop (malloc_round nunits) (prevp, p).
End Umalloc.
