(* ===== verification/UmallocSpec.v ===== *)
(** * malloc and free keep the heap

    [heap base A l s]: the free blocks [l] form a ring sorted by address, no two
    of them adjacent, and the blocks [A] given out are apart from them and from
    each other.  free and malloc move a block between [A] and [l]; no word inside
    a block that stays in [A] changes. *)
From Stdlib Require Import Sorted.
From S2P Require Import Prelude Memory Umalloc.

(** ** Rings *)
Definition hd_addr (l : list (Z * Z)) (e : Z) : Z := match l with [] => e | x :: _ => x.1 end.
Fixpoint chain (m : gmap Z Z) (l : list (Z * Z)) (e : Z) : Prop :=
  match l with
  | [] => True
  | x :: l' => uptr m x.1 = hd_addr l' e /\ usize m x.1 = x.2 /\ chain m l' e
  end.

Lemma hd_addr_app l1 l2 e : hd_addr (l1 ++ l2) e = hd_addr l1 (hd_addr l2 e).
Proof. by destruct l1. Qed.
Lemma chain_app m l1 l2 e : chain m (l1 ++ l2) e <-> chain m l1 (hd_addr l2 e) /\ chain m l2 e.
Proof. induction l1 as [|x l1 IH]; cbn; [tauto|]. rewrite IH, hd_addr_app. tauto. Qed.
Lemma ring_ext m m' l e : (forall x, x ∈ l -> uptr m' x.1 = uptr m x.1 /\ usize m' x.1 = usize m x.1) -> chain m l e -> chain m' l e.
Proof.
  induction l as [|x l IH]; cbn; [done|]. intros Hx (H1 & H2 & H3). destruct (Hx x) as [-> ->]; [left|]. split_and!; [done|done|].
  apply IH; [|done]. intros y Hy. apply Hx. by right.
Qed.

(** Headers apart, blocks apart. *)
Definition hsep (p q : Z) : Prop := p + 16 <= q \/ q + 16 <= p.
Definition apart (x y : Z * Z) : Prop := x.1 + 16 * x.2 <= y.1 \/ y.1 + 16 * y.2 <= x.1.
Definition sep (x y : Z * Z) : Prop := x.1 + 16 * x.2 < y.1 /\ x.1 + 16 <= y.1.

Lemma uptr_ptr m p v b : hsep p b -> uptr (<[p := v]> m) b = uptr m b.
Proof. intros H. unfold uptr. rewrite lookup_insert_ne; [done|]. unfold hsep in H. lia. Qed.
Lemma uptr_size m p v b : hsep p b \/ p = b -> uptr (<[p + 8 := v]> m) b = uptr m b.
Proof. intros H. unfold uptr. rewrite lookup_insert_ne; [done|]. unfold hsep in H. lia. Qed.
Lemma usize_ptr m p v b : hsep p b \/ p = b -> usize (<[p := v]> m) b = usize m b.
Proof. intros H. unfold usize. rewrite lookup_insert_ne; [done|]. unfold hsep in H. lia. Qed.
Lemma usize_size m p v b : hsep p b -> usize (<[p + 8 := v]> m) b = usize m b.
Proof. intros H. unfold usize. rewrite lookup_insert_ne; [done|]. unfold hsep in H. lia. Qed.
Lemma uptr_eq m p v : uptr (<[p := v]> m) p = v.
Proof. unfold uptr. by rewrite lookup_insert_eq. Qed.
Lemma usize_eq m p v : usize (<[p + 8 := v]> m) p = v.
Proof. unfold usize. by rewrite lookup_insert_eq. Qed.
Lemma hsep_sym p q : hsep p q -> hsep q p.
Proof. unfold hsep. tauto. Qed.

(** ** The heap *)
(** Where the memory of a process must end: sbrk returns an [int]. *)
Definition LIM : Z := 2 ^ 31.

(** The blocks: [l] free, [A] given out, all between [base] and the break. *)
Record blocks (base : Z) (A : gmap Z Z) (l : list (Z * Z)) (brk : Z) : Prop := {
  bk_head : exists l', l = (base, 0) :: l' /\ Forall (fun x => 1 <= x.2) l';
  bk_sorted : StronglySorted sep l;
  bk_base : 0 < base /\ base + 16 <= brk <= LIM;
  bk_brk : forall x, x ∈ l -> x.1 + 16 * x.2 <= brk;
  bk_A : forall a n, A !! a = Some n -> 1 <= n /\ base + 16 <= a /\ a + 16 * n <= brk;
  bk_free : forall a n x, A !! a = Some n -> x ∈ l -> apart (a, n) x;
  bk_apart : forall a n b m, A !! a = Some n -> A !! b = Some m -> a <> b -> apart (a, n) (b, m)
}.

(** The blocks in memory: the headers hold the sizes and link the ring. *)
Record heap (base : Z) (A : gmap Z Z) (l : list (Z * Z)) (s : uheap) : Prop := {
  hp_blocks : blocks base A l (u_brk s);
  hp_ring : chain (u_mem s) l base;
  hp_freep : exists x, x ∈ l /\ u_freep s = x.1;
  hp_size : forall a n, A !! a = Some n -> usize (u_mem s) a = n
}.

(** The bytes that are free, and the words the program owns. *)
Definition in_free (l : list (Z * Z)) (w : Z) : Prop := exists x, x ∈ l /\ x.1 <= w < x.1 + 16 * x.2.
Definition same_payload (A : gmap Z Z) (s s' : uheap) : Prop :=
  forall a n w, A !! a = Some n -> a + 16 <= w < a + 16 * n -> u_mem s' !! w = u_mem s !! w.

Lemma in_free_cons x l w : in_free (x :: l) w <-> x.1 <= w < x.1 + 16 * x.2 \/ in_free l w.
Proof. unfold in_free. split; [intros (y & [-> |Hy]%elem_of_cons & Hw); [by left|right; by exists y]|intros [Hw|(y & Hy & Hw)]; [exists x|exists y]; (split; [|done]); [left|by right]]. Qed.
Lemma in_free_app l1 l2 w : in_free (l1 ++ l2) w <-> in_free l1 w \/ in_free l2 w.
Proof. induction l1 as [|x l1 IH]; cbn [app]; [|rewrite !in_free_cons, IH; tauto]. split; [tauto|]. intros [(y & Hy & _)|H]; [by apply not_elem_of_nil in Hy|done]. Qed.

Lemma ss_app (l1 l2 : list (Z * Z)) :
  StronglySorted sep (l1 ++ l2) <-> StronglySorted sep l1 /\ StronglySorted sep l2 /\ forall x y, x ∈ l1 -> y ∈ l2 -> sep x y.
Proof.
  induction l1 as [|x l1 IH]; cbn [app].
  - split; [intros H; split_and!; [constructor|done|intros x y Hx; by apply not_elem_of_nil in Hx]|tauto].
  - split.
    + intros H. apply StronglySorted_inv in H as [H1 H2]. apply IH in H1 as (A1 & A2 & A3). apply Forall_app in H2 as [H2 H3].
      split_and!; [by constructor|done|]. intros a b [-> |Ha]%elem_of_cons Hb; [by apply (proj1 (Forall_forall _ _) H3)|by apply A3].
    + intros (H1 & H2 & H3). apply StronglySorted_inv in H1 as [H1 H4]. constructor.
      * apply IH. split_and!; [done|done|]. intros a b Ha. apply H3. by right.
      * apply Forall_app. split; [done|]. apply Forall_forall. intros b Hb. apply H3; [left|done].
Qed.
Lemma ss_cons x (l : list (Z * Z)) : StronglySorted sep (x :: l) <-> StronglySorted sep l /\ forall y, y ∈ l -> sep x y.
Proof.
  split; [intros H; apply StronglySorted_inv in H as [H1 H2]; rewrite Forall_forall in H2; by split|].
  intros [H1 H2]. constructor; [done|]. by apply Forall_forall.
Qed.
(** A sorted list around one of its blocks. *)
Lemma ss_mid l1 x (l2 : list (Z * Z)) : StronglySorted sep (l1 ++ x :: l2) <->
  StronglySorted sep (l1 ++ l2) /\ (forall y, y ∈ l1 -> sep y x) /\ (forall y, y ∈ l2 -> sep x y).
Proof.
  rewrite !ss_app, ss_cons. split.
  - intros (H1 & (H2 & H3) & H4). split_and!; [done|done| |intros y Hy; apply H4; [done|left]|done]. intros y z Hy Hz. apply H4; [done|by right].
  - intros ((H1 & H2 & H3) & H4 & H5). split_and!; [done|done|done|]. intros y z Hy [-> |Hz]%elem_of_cons; [by apply H4|by apply H3].
Qed.

Section Heap.
Context (base : Z) (A : gmap Z Z) (l : list (Z * Z)) (brk : Z) (HP : blocks base A l brk).

Lemma blocks_ge x : x ∈ l -> base <= x.1 /\ 0 <= x.2 /\ x.1 + 16 <= brk /\ x.1 + 16 * x.2 <= brk /\ (x.1 <> base -> 1 <= x.2 /\ base + 16 <= x.1) /\ (x.1 = base -> x.2 = 0).
Proof.
  intros Hx. pose proof (bk_brk _ _ _ _ HP x Hx) as Hb. pose proof (bk_base _ _ _ _ HP) as H0. revert Hx.
  destruct (bk_head _ _ _ _ HP) as (l' & El & Hf). pose proof (bk_sorted _ _ _ _ HP) as Hs. rewrite El in Hs |- *.
  apply StronglySorted_inv in Hs as [_ Hs]. intros [-> |Hx]%elem_of_cons; [cbn; lia|]. rewrite Forall_forall in Hf, Hs.
  specialize (Hf x Hx). destruct (Hs x Hx) as [_ H]. cbn in *. lia.
Qed.

(** The header of a block given out is apart from those in the ring. *)
Lemma blocks_hsep a n x : A !! a = Some n -> x ∈ l -> hsep a x.1.
Proof.
  intros Ha Hx. destruct (bk_A _ _ _ _ HP a n Ha) as (H1 & H2 & _). pose proof (bk_free _ _ _ _ HP a n x Ha Hx) as H3.
  destruct (blocks_ge x Hx) as (G1 & G2 & _ & _ & G3 & _). unfold hsep, apart in *. cbn in *. destruct (Z.eq_dec x.1 base) as [E|E]; [lia|]. destruct (G3 E). lia.
Qed.
Lemma blocks_hsep_A a n b m : A !! a = Some n -> A !! b = Some m -> a <> b -> hsep a b.
Proof.
  intros Ha Hb Hne. pose proof (bk_apart _ _ _ _ HP a n b m Ha Hb Hne) as H. destruct (bk_A _ _ _ _ HP a n Ha) as (H1 & _), (bk_A _ _ _ _ HP b m Hb) as (H2 & _).
  unfold hsep, apart in *. cbn in *. lia.
Qed.
End Heap.

(** ** The place of a block in the ring *)
Lemma chain_next m l e i x : chain m l e -> l !! i = Some x -> uptr m x.1 = (match l !! S i with Some y => y.1 | None => e end) /\ usize m x.1 = x.2.
Proof.
  revert i. induction l as [|y l IH]; intros i; [done|]. cbn [chain]. intros (H1 & H2 & H3). destruct i as [|i]; cbn.
  - intros [= <-]. split; [|done]. rewrite H1. by destruct l.
  - intros Hi. by apply IH.
Qed.

Lemma ss_lookup l i j x y : StronglySorted sep l -> l !! i = Some x -> l !! j = Some y -> (i < j)%nat -> sep x y.
Proof.
  revert i j. induction l as [|z l IH]; intros i j Hs Hi Hj Hlt; [done|]. apply StronglySorted_inv in Hs as [Hs Hf].
  destruct j as [|j]; [lia|]. destruct i as [|i]; cbn in *.
  - injection Hi as ->. rewrite Forall_forall in Hf. apply Hf. by eapply list_elem_of_lookup_2.
  - eapply IH; [done|exact Hi|exact Hj|lia].
Qed.

(** The last block below [bp]. *)
Lemma ring_place (l : list (Z * Z)) bp x0 l' : l = x0 :: l' -> StronglySorted sep l -> x0.1 < bp -> (forall x, x ∈ l -> x.1 <> bp) ->
  exists l1 x l2, l = l1 ++ x :: l2 /\ x.1 < bp /\ (forall y, y ∈ l2 -> bp < y.1).
Proof.
  revert x0 l'. induction l as [|y l IH]; intros x0 l' E Hs Hb Hne; [done|]. injection E as -> ->. apply StronglySorted_inv in Hs as [Hs Hf].
  destruct l' as [|z l']; [exists [], x0, []; split_and!; [done|done|intros y Hy; by apply not_elem_of_nil in Hy]|].
  destruct (Z.lt_ge_cases z.1 bp) as [Hlt|Hge].
  - destruct (IH z l' eq_refl Hs Hlt) as (l1 & x & l2 & E & H1 & H2); [intros w Hw; apply Hne; by right|]. exists (x0 :: l1), x, l2. by rewrite E.
  - exists [], x0, (z :: l'). split_and!; [done|done|]. apply StronglySorted_inv in Hs as [_ Hs]. rewrite Forall_forall in Hs.
    assert (Hz : z.1 <> bp) by (apply Hne; right; left). intros w [-> |Hw]%elem_of_cons; [lia|]. destruct (Hs w Hw) as [_ H]. lia.
Qed.

(** ** Walking the ring *)
Definition nxt (l : list (Z * Z)) (k : nat) : nat := if decide (S k < length l)%nat then S k else 0%nat.
(** How far the walk from [p] is from [f]. *)
Definition dist (f p : Z) : Z := if p <=? f then f - p else LIM - p + f.
(** The blocks between [f] and [p] on the walk. *)
Definition passed (f p z : Z) : Prop := if f <? p then f < z < p else f < z \/ z < p.

Section Walk.
Context (l : list (Z * Z)) (Hs : StronglySorted sep l) (Hl : forall z, z ∈ l -> 0 <= z.1 < LIM).
Context (k t : nat) (w z x : Z * Z) (Hk : l !! k = Some w) (Hz : l !! nxt l k = Some z) (Ht : l !! t = Some x).

Lemma ss_addr i j u v : l !! i = Some u -> l !! j = Some v -> (i < j)%nat /\ u.1 < v.1 \/ (j < i)%nat /\ v.1 < u.1 \/ i = j /\ u.1 = v.1 /\ u = v.
Proof using Hs.
  intros Hi Hj. destruct (lt_eq_lt_dec i j) as [[Hlt| ->]|Hlt]; [left|right; right; split_and!; congruence|right; left]; (split; [done|]).
  - destruct (ss_lookup l i j u v Hs Hi Hj Hlt). lia.
  - destruct (ss_lookup l j i v u Hs Hj Hi Hlt). lia.
Qed.

(** The next block is the next higher one, or the lowest after the highest. *)
Lemma nxt_cases : (w.1 < z.1 /\ forall y, y ∈ l -> y.1 <= w.1 \/ z.1 <= y.1) \/ (z.1 <= w.1 /\ forall y, y ∈ l -> z.1 <= y.1 <= w.1).
Proof using Hs Hk Hz.
  pose proof (lookup_lt_Some _ _ _ Hk) as Hkl. unfold nxt in Hz. destruct (decide (S k < length l)%nat) as [H|H]; [left|right].
  - split; [destruct (ss_addr k (S k) w z Hk Hz); lia|]. intros y [j Hj]%list_elem_of_lookup_1. destruct (ss_addr k j w y Hk Hj) as [?|[?|(? & ? & _)]], (ss_addr (S k) j z y Hz Hj) as [?|[?|(? & ? & _)]]; lia.
  - assert (Hyz : forall y, y ∈ l -> z.1 <= y.1 <= w.1).
    { intros y [j Hj]%list_elem_of_lookup_1. pose proof (lookup_lt_Some _ _ _ Hj). destruct (ss_addr k j w y Hk Hj) as [?|[?|(? & ? & _)]], (ss_addr 0 j z y Hz Hj) as [?|[?|(? & ? & _)]]; lia. }
    split; [|done]. apply Hyz. by eapply list_elem_of_lookup_2.
Qed.

Lemma dist_next : w.1 <> x.1 -> dist x.1 z.1 < dist x.1 w.1.
Proof using Hs Hl Hk Hz Ht.
  intros Hne. assert (Xin : x ∈ l) by (by eapply list_elem_of_lookup_2). assert (Win : w ∈ l) by (by eapply list_elem_of_lookup_2). assert (Zin : z ∈ l) by (by eapply list_elem_of_lookup_2).
  pose proof (Hl x Xin) as Bx. pose proof (Hl w Win) as Bw. pose proof (Hl z Zin) as Bz. unfold dist. destruct nxt_cases as [[H1 H2]|[H1 H2]]; specialize (H2 x Xin); destruct (Z.leb_spec z.1 x.1), (Z.leb_spec w.1 x.1); lia.
Qed.

Lemma passed_next y : w.1 <> x.1 -> y ∈ l -> passed x.1 z.1 y.1 -> passed x.1 w.1 y.1 \/ y.1 = w.1.
Proof using Hs Hl Hk Hz Ht.
  intros Hne Hy. assert (Xin : x ∈ l) by (by eapply list_elem_of_lookup_2). unfold passed.
  destruct nxt_cases as [[H1 H2]|[H1 H2]]; pose proof (H2 x Xin) as Bx; specialize (H2 y Hy); destruct (Z.ltb_spec x.1 z.1), (Z.ltb_spec x.1 w.1); lia.
Qed.
Lemma passed_start y : y ∈ l -> ~ passed w.1 z.1 y.1.
Proof using Hs Hk Hz. intros Hy. unfold passed. destruct nxt_cases as [[H1 H2]|[H1 H2]]; specialize (H2 y Hy); destruct (Z.ltb_spec w.1 z.1); lia. Qed.
Lemma ss_same y : y ∈ l -> y.1 = w.1 -> y = w.
Proof using Hs Hk. intros [j Hj]%list_elem_of_lookup_1 E. destruct (ss_addr k j w y Hk Hj) as [?|[?|(_ & _ & ?)]]; [lia|lia|done]. Qed.
End Walk.

Section Search.
Context (base : Z) (l1 : list (Z * Z)) (x : Z * Z) (l2 : list (Z * Z)) (m : gmap Z Z) (bp : Z).
Let l := l1 ++ x :: l2.
Context (Hs : StronglySorted sep l) (Hr : chain m l base) (Hhd : exists l', l = (base, 0) :: l') (Hb : base < bp) (Hx : x.1 < bp) (H2 : forall y, y ∈ l2 -> bp < y.1).

Lemma wp_free_round i y (Q : Z + Z -> uheap -> Prop) s : u_mem s = m -> l !! i = Some y ->
  (i = length l1 -> Q (inr x.1) s) ->
  (i <> length l1 -> forall j z, l !! j = Some z -> j = nxt l i -> Q (inl z.1) s) ->
  wp (free_round bp y.1) Q s.
Proof.
  intros Em Hi HQ1 HQ2. destruct (chain_next m l base i y Hr Hi) as [Hn _]. unfold free_round, ptr_of. wp_step. wp_step. rewrite Em, Hn.
  assert (Hlen : length l = (length l1 + S (length l2))%nat) by (unfold l; by rewrite length_app).
  assert (Hxi : l !! length l1 = Some x) by (unfold l; by rewrite lookup_app_r, Nat.sub_diag by lia).
  assert (Hge : forall k z, l !! k = Some z -> base <= z.1).
  { intros k z Hk. destruct Hhd as [l' E]. destruct k as [|k]; [rewrite E in Hk; injection Hk as <-; cbn; lia|].
    assert (S1 : sep (base, 0) z) by (eapply (ss_lookup l 0 (S k)); [done|by rewrite E|done|lia]). destruct S1 as [_ S1]. cbn in S1. lia. }
  assert (Hhi : forall k z, l !! k = Some z -> (length l1 < k)%nat -> bp < z.1).
  { intros k z Hk Hlt. apply H2. unfold l in Hk. rewrite lookup_app_r in Hk by lia. destruct (k - length l1)%nat eqn:Ek; [lia|]. cbn in Hk. by eapply list_elem_of_lookup_2. }
  assert (Hlo : forall k z, l !! k = Some z -> (k <= length l1)%nat -> z.1 < bp).
  { intros k z Hk Hle. destruct (Nat.eq_dec k (length l1)) as [-> |Hne]; [rewrite Hxi in Hk; by injection Hk as <-|].
    destruct (ss_lookup l k (length l1) z x Hs Hk Hxi ltac:(lia)) as [_ S1]. lia. }
  destruct (l !! S i) as [z|] eqn:Ez.
  - pose proof (lookup_lt_Some _ _ _ Ez) as Hsi. destruct (ss_lookup l i (S i) y z Hs Hi Ez ltac:(lia)) as [_ Hyz].
    rewrite (proj2 (Z.leb_gt z.1 y.1)) by lia. cbn [andb]. destruct (Nat.eq_dec i (length l1)) as [E|E].
    + rewrite (proj2 (Z.ltb_lt y.1 bp)), (proj2 (Z.ltb_lt bp z.1)) by (first [eapply Hlo; [exact Hi|lia]|eapply Hhi; [exact Ez|lia]]). cbn [andb]. wp_step.
      rewrite E, Hxi in Hi. injection Hi as <-. by apply HQ1.
    + assert (Hc : (y.1 <? bp) && (bp <? z.1) = false).
      { destruct (Nat.lt_ge_cases i (length l1)); [|rewrite (proj2 (Z.ltb_ge y.1 bp)); [done|]; pose proof (Hhi i y Hi ltac:(lia)); lia].
        rewrite (proj2 (Z.ltb_ge bp z.1)); [apply andb_false_r|]. pose proof (Hlo (S i) z Ez ltac:(lia)). lia. }
      rewrite Hc. wp_step. apply (HQ2 E (S i) z Ez). unfold nxt. by rewrite decide_True.
  - apply lookup_ge_None in Ez. pose proof (lookup_lt_Some _ _ _ Hi) as Hil. pose proof (Hge i y Hi) as Hy. rewrite (proj2 (Z.ltb_ge bp base)) by lia.
    rewrite andb_false_r, orb_false_r, (proj2 (Z.leb_le base y.1)) by lia. cbn [andb]. destruct (Nat.eq_dec i (length l1)) as [E|E].
    + rewrite (proj2 (Z.ltb_lt y.1 bp)) by (eapply Hlo; [exact Hi|lia]). wp_step. rewrite E, Hxi in Hi. injection Hi as <-. by apply HQ1.
    + rewrite (proj2 (Z.ltb_ge y.1 bp)) by (pose proof (Hhi i y Hi ltac:(lia)); lia). wp_step. destruct Hhd as [l' El].
      apply (HQ2 E 0%nat (base, 0)); [by rewrite El|]. unfold nxt. by rewrite decide_False by lia.
Qed.

(** The search walks the ring from any block and stops at the last one below [bp]. *)
Lemma wp_free_search i y (Q : Z -> uheap -> Prop) s : u_mem s = m -> l !! i = Some y -> (forall z, z ∈ l -> 0 <= z.1 < LIM) -> Q x.1 s -> wp (loop (free_round bp) y.1) Q s.
Proof.
  intros Em Hi Hl HQ. assert (Hlen : length l = (length l1 + S (length l2))%nat) by (unfold l; by rewrite length_app).
  assert (Hxi : l !! length l1 = Some x) by (unfold l; by rewrite lookup_app_r, Nat.sub_diag by lia).
  assert (Hin : forall k z, l !! k = Some z -> 0 <= z.1 < LIM) by (intros k z Hk; apply Hl; by eapply list_elem_of_lookup_2). unfold LIM in Hin.
  apply (wp_loop _ (fun p s' => s' = s /\ exists i y, l !! i = Some y /\ p = y.1) (fun p _ => dist x.1 p)).
  - intros p s' (-> & k & w & Hk & ->). apply (wp_free_round k w _ s Em Hk); [by intros _|]. intros Hne j z Hj ->.
    pose proof (Hin _ _ Hk). pose proof (Hin _ _ Hj). pose proof (Hin _ _ Hxi). split; [split; [done|by eexists _, z]|].
    assert (Hd : dist x.1 z.1 < dist x.1 w.1). { apply (dist_next l Hs Hl k (length l1)); [done|done|done|]. destruct (ss_addr l Hs k (length l1) w x Hk Hxi) as [?|[?|(? & ? & _)]]; lia. }
    split; [|exact Hd]. unfold dist, LIM. destruct (Z.leb_spec z.1 x.1); lia.
  - split; [done|by exists i, y].
  - pose proof (Hin _ _ Hi). pose proof (Hin _ _ Hxi). unfold dist, LIM. destruct (y.1 <=? x.1) eqn:E; lia.
Qed.
End Search.

(** ** Moving blocks *)
Lemma mid_cases {T} (l1 l2 : list T) x y : y ∈ l1 ++ x :: l2 <-> y ∈ l1 \/ y = x \/ y ∈ l2.
Proof. by rewrite elem_of_app, elem_of_cons. Qed.

Lemma head_mid (base : Z) l1 (x : Z * Z) l2 l3 x' : (exists l', l1 ++ x :: l2 = (base, 0) :: l' /\ Forall (fun x => 1 <= x.2) l') ->
  (l1 = [] -> x' = x) -> (l1 <> [] -> 1 <= x'.2) -> Forall (fun x => 1 <= x.2) l3 ->
  exists l', l1 ++ x' :: l3 = (base, 0) :: l' /\ Forall (fun x => 1 <= x.2) l'.
Proof.
  intros (l' & E & Hf) H1 H2 H3. destruct l1 as [|y l1]; cbn [app] in *.
  - injection E as -> <-. exists l3. by rewrite H1.
  - injection E as -> <-. exists (l1 ++ x' :: l3). split; [done|]. apply Forall_app in Hf as [Hf _]. apply Forall_app. split; [done|]. constructor; [by apply H2|done].
Qed.

Section Blocks.
Context (base : Z) (A : gmap Z Z) (l1 : list (Z * Z)) (x : Z * Z) (l2 : list (Z * Z)) (brk : Z).

(** A block given out takes the free block behind it. *)
Lemma join_right a n z : blocks base A (l1 ++ x :: z :: l2) brk -> A !! a = Some n -> z.1 = a + 16 * n -> blocks base (<[a := n + z.2]> A) (l1 ++ x :: l2) brk.
Proof.
  intros B Ha Hz. destruct (bk_A _ _ _ _ B a n Ha) as (A1 & A2 & A3).
  assert (Zin : z ∈ l1 ++ x :: z :: l2) by (rewrite mid_cases, elem_of_cons; tauto). destruct (blocks_ge _ _ _ _ B z Zin) as (Z1 & Z2 & Z3 & Z4 & Z5 & _).
  assert (Sub : forall y, y ∈ l1 ++ x :: l2 -> y ∈ l1 ++ x :: z :: l2) by (intros y; rewrite !mid_cases, elem_of_cons; tauto).
  destruct B as [B1 B2 B3 B4 B5 B6 B7].
  assert (Sz : forall y, y ∈ l1 ++ x :: l2 -> sep y z \/ sep z y).
  { change (x :: z :: l2) with ([x] ++ z :: l2) in B2. rewrite app_assoc, ss_mid in B2. destruct B2 as (_ & B2 & B2').
    intros y. rewrite mid_cases. intros [Hy|[-> |Hy]]; [left|left|right]; [apply B2, elem_of_app; by left|apply B2, elem_of_app; right; left|by apply B2']. }
  constructor; [|..].
  - eapply head_mid; [exact B1|done| |].
    + intros Hl. destruct B1 as (l' & E & Hf). destruct l1 as [|y l1']; [done|]. injection E as _ <-. apply Forall_app in Hf as [_ Hf]. by inversion Hf.
    + destruct B1 as (l' & E & Hf). destruct l1 as [|y l1']; cbn in E; [injection E as _ <-; by inversion Hf|]. injection E as _ <-. apply Forall_app in Hf as [_ Hf]. inversion Hf as [|?? _ Hf']. by inversion Hf'.
  - change (x :: z :: l2) with ([x] ++ z :: l2) in B2. rewrite app_assoc, ss_mid, <- app_assoc in B2. apply B2.
  - done.
  - intros y Hy. apply B4. by apply Sub.
  - intros b m. rewrite lookup_insert_Some. intros [[<- <-]|[Hb Hm]]; [lia|by apply B5].
  - intros b m y. rewrite lookup_insert_Some. intros [[<- <-]|[Hb Hm]] Hy; [|by apply B6, Sub].
    pose proof (B6 a n y Ha (Sub y Hy)) as Q1. specialize (Sz y Hy). unfold apart, sep in *. cbn in *. lia.
  - intros b m c k. rewrite !lookup_insert_Some. intros [[<- <-]|[Hb Hm]] [[<- <-]|[Hc Hk]] Hne; [done| | |by apply B7].
    + pose proof (B6 c k z Hk Zin). pose proof (B7 a n c k Ha Hk Hne). destruct (B5 c k Hk). unfold apart in *. cbn in *. lia.
    + pose proof (B6 b m z Hm Zin). pose proof (B7 b m a n Hm Ha Hne). destruct (B5 b m Hm). unfold apart in *. cbn in *. lia.
Qed.

Lemma mid_tail : blocks base A (l1 ++ x :: l2) brk -> Forall (fun y => 1 <= y.2) l2.
Proof.
  intros B. destruct (bk_head _ _ _ _ B) as (l' & E & Hf). destruct l1 as [|y l1']; cbn in E; [by injection E as _ <-|].
  injection E as _ <-. apply Forall_app in Hf as [_ Hf]. by inversion Hf.
Qed.
Lemma mid_base : blocks base A (l1 ++ x :: l2) brk -> l1 = [] <-> x.1 = base.
Proof.
  intros B. destruct (bk_head _ _ _ _ B) as (l' & E & _). pose proof (bk_sorted _ _ _ _ B) as Hs. destruct l1 as [|y l1']; cbn [app] in *.
  - injection E as -> _. done.
  - injection E as -> _. split; [done|]. intros Ex. apply ss_cons in Hs as [_ Hs]. destruct (Hs x) as [_ H]; [rewrite mid_cases; tauto|]. cbn in H. lia.
Qed.
Lemma mid_sep : blocks base A (l1 ++ x :: l2) brk -> (forall y, y ∈ l1 -> sep y x) /\ (forall y, y ∈ l2 -> sep x y).
Proof. intros B. pose proof (bk_sorted _ _ _ _ B) as Hs. apply ss_mid in Hs. tauto. Qed.

(** A free block takes the block given out behind it. *)
Lemma join_left a n : blocks base A (l1 ++ x :: l2) brk -> A !! a = Some n -> a = x.1 + 16 * x.2 -> (forall y, y ∈ l2 -> a + 16 * n < y.1) ->
  blocks base (delete a A) (l1 ++ (x.1, x.2 + n) :: l2) brk.
Proof.
  intros B Ha Ex Hl2. destruct (bk_A _ _ _ _ B a n Ha) as (A1 & A2 & A3). assert (Xin : x ∈ l1 ++ x :: l2) by (rewrite mid_cases; tauto).
  destruct (blocks_ge _ _ _ _ B x Xin) as (X1 & X2 & X3 & X4 & X5 & X6). pose proof (mid_tail B) as Ht. pose proof (mid_base B) as Hb. pose proof (mid_sep B) as [S1 S2].
  assert (Hx : x.1 <> base) by (intros E; specialize (X6 E); lia). destruct (X5 Hx) as [X7 X8]. destruct B as [B1 B2 B3 B4 B5 B6 B7].
  constructor; [eapply head_mid; [exact B1|intros E; tauto|cbn; lia|done]| |done|..].
  - rewrite ss_mid in B2 |- *. split_and!; [tauto|intros y Hy; specialize (S1 y Hy); unfold sep in *; cbn; lia|].
    intros y Hy. specialize (S2 y Hy). specialize (Hl2 y Hy). unfold sep in *. cbn. lia.
  - intros y. rewrite mid_cases. intros [Hy|[-> |Hy]]; [|cbn; lia|]; apply B4; rewrite mid_cases; tauto.
  - intros b m [Hb' Hm]%lookup_delete_Some. by apply B5.
  - intros b m y [Hb' Hm]%lookup_delete_Some. rewrite mid_cases. intros [Hy|[-> |Hy]]; [by apply B6, mid_cases; auto| |by apply B6, mid_cases; auto].
    pose proof (B6 b m x Hm Xin). pose proof (B7 a n b m Ha Hm Hb'). destruct (B5 b m Hm). unfold apart in *. cbn in *. lia.
  - intros b m c k [Hb' Hm]%lookup_delete_Some [Hc' Hk]%lookup_delete_Some. by apply B7.
Qed.

(** A block given out becomes a free block of its own. *)
Lemma put_free a n : blocks base A (l1 ++ x :: l2) brk -> A !! a = Some n -> x.1 < a -> a <> x.1 + 16 * x.2 -> (forall y, y ∈ l2 -> a + 16 * n < y.1) ->
  blocks base (delete a A) (l1 ++ x :: (a, n) :: l2) brk.
Proof.
  intros B Ha Hxa Ex Hl2. destruct (bk_A _ _ _ _ B a n Ha) as (A1 & A2 & A3). assert (Xin : x ∈ l1 ++ x :: l2) by (rewrite mid_cases; tauto).
  destruct (blocks_ge _ _ _ _ B x Xin) as (X1 & X2 & X3 & X4 & X5 & X6). pose proof (mid_tail B) as Ht. pose proof (mid_base B) as Hb. pose proof (mid_sep B) as [S1 S2].
  pose proof (blocks_hsep _ _ _ _ B a n x Ha Xin) as Hh. destruct B as [B1 B2 B3 B4 B5 B6 B7]. pose proof (B6 a n x Ha Xin) as Hax.
  assert (In : forall y, y ∈ l1 ++ x :: (a, n) :: l2 -> y ∈ l1 ++ x :: l2 \/ y = (a, n)) by (intros y; rewrite !mid_cases, elem_of_cons; tauto).
  constructor; [eapply head_mid; [exact B1|done| |by constructor]| |done|..].
  - intros Hne. destruct (Z.eq_dec x.1 base); [tauto|]. by destruct X5.
  - assert (E : l1 ++ x :: (a, n) :: l2 = (l1 ++ [x]) ++ (a, n) :: l2) by (by rewrite <- app_assoc). rewrite E, ss_mid, <- app_assoc. split_and!; [done| |].
    + intros y. rewrite elem_of_app, list_elem_of_singleton. unfold hsep, apart, sep in *. cbn in *. intros [Hy| ->]; [specialize (S1 y Hy)|]; lia.
    + intros y Hy. specialize (Hl2 y Hy). unfold sep. cbn. lia.
  - intros y [Hy| ->]%In; [by apply B4|done].
  - intros b m [Hb' Hm]%lookup_delete_Some. by apply B5.
  - intros b m y [Hb' Hm]%lookup_delete_Some [Hy| ->]%In; [by apply B6|by apply B7].
  - intros b m c k [Hb' Hm]%lookup_delete_Some [Hc' Hk]%lookup_delete_Some. by apply B7.
Qed.

(** A whole free block is given out. *)
Lemma take_whole : blocks base A (l1 ++ x :: l2) brk -> x.1 <> base -> blocks base (<[x.1 := x.2]> A) (l1 ++ l2) brk.
Proof.
  intros B Hx. assert (Xin : x ∈ l1 ++ x :: l2) by (rewrite mid_cases; tauto). destruct (blocks_ge _ _ _ _ B x Xin) as (X1 & X2 & X3 & X4 & X5 & X6).
  pose proof (mid_base B) as Hb. pose proof (mid_sep B) as [S1 S2]. destruct (X5 Hx) as [X7 X8]. destruct B as [B1 B2 B3 B4 B5 B6 B7].
  assert (Sub : forall y, y ∈ l1 ++ l2 -> y ∈ l1 ++ x :: l2) by (intros y; rewrite mid_cases, elem_of_app; tauto).
  assert (Sx : forall y, y ∈ l1 ++ l2 -> apart x y) by (intros y; rewrite elem_of_app; intros [Hy|Hy]; [specialize (S1 y Hy)|specialize (S2 y Hy)]; unfold sep, apart in *; lia).
  constructor; [| |done|..].
  - destruct B1 as (l' & E & Hf). destruct l1 as [|y l1']; [tauto|]. injection E as -> <-. exists (l1' ++ l2). split; [done|]. apply Forall_app in Hf as [Hf1 Hf2]. apply Forall_app. split; [done|]. by inversion Hf2.
  - apply ss_mid in B2. apply B2.
  - intros y Hy. by apply B4, Sub.
  - intros b m [[<- <-]|[Hb' Hm]]%lookup_insert_Some; [lia|by apply B5].
  - intros b m y [[<- <-]|[Hb' Hm]]%lookup_insert_Some Hy; [specialize (Sx y Hy); by destruct x|by apply B6, Sub].
  - intros b m c k. rewrite !lookup_insert_Some. intros [[<- <-]|[Hb' Hm]] [[<- <-]|[Hc' Hk]] Hne; [done| | |by apply B7].
    + pose proof (B6 c k x Hk Xin). unfold apart in *. cbn in *. lia.
    + pose proof (B6 b m x Hm Xin). unfold apart in *. cbn in *. lia.
Qed.

(** The tail of a free block is given out. *)
Lemma take_tail k : blocks base A (l1 ++ x :: l2) brk -> 0 < k < x.2 -> blocks base (<[x.1 + 16 * (x.2 - k) := k]> A) (l1 ++ (x.1, x.2 - k) :: l2) brk.
Proof.
  intros B Hk. assert (Xin : x ∈ l1 ++ x :: l2) by (rewrite mid_cases; tauto). destruct (blocks_ge _ _ _ _ B x Xin) as (X1 & X2 & X3 & X4 & X5 & X6).
  pose proof (mid_tail B) as Ht. pose proof (mid_base B) as Hb. pose proof (mid_sep B) as [S1 S2].
  assert (Hx : x.1 <> base) by (intros E; specialize (X6 E); lia). destruct (X5 Hx) as [X7 X8]. destruct B as [B1 B2 B3 B4 B5 B6 B7].
  assert (Ax : forall b m, A !! b = Some m -> apart (b, m) (x.1, x.2 - k) /\ apart (b, m) (x.1 + 16 * (x.2 - k), k)) by (intros b m Hm; pose proof (B6 b m x Hm Xin); unfold apart in *; cbn in *; lia).
  constructor; [eapply head_mid; [exact B1|intros E; tauto|cbn; lia|done]| |done|..].
  - rewrite ss_mid in B2 |- *. split_and!; [tauto|intros y Hy; specialize (S1 y Hy); unfold sep in *; cbn; lia|].
    intros y Hy. specialize (S2 y Hy). unfold sep in *. cbn. lia.
  - intros y. rewrite mid_cases. intros [Hy|[-> |Hy]]; [|cbn; lia|]; apply B4; rewrite mid_cases; tauto.
  - intros b m [[<- <-]|[Hb' Hm]]%lookup_insert_Some; [lia|by apply B5].
  - intros b m y [[<- <-]|[Hb' Hm]]%lookup_insert_Some; rewrite mid_cases; intros [Hy|[-> |Hy]]; try (by apply Ax); try (by apply B6, mid_cases; auto); try specialize (S1 y Hy); try specialize (S2 y Hy); unfold sep, apart in *; cbn in *; lia.
  - intros b m c j. rewrite !lookup_insert_Some. intros [[<- <-]|[Hb' Hm]] [[<- <-]|[Hc' Hj]] Hne; [done| |by apply Ax|by apply B7].
    destruct (Ax c j Hj). unfold apart in *. cbn in *. lia.
Qed.
End Blocks.

(** The kernel gives a block at the break. *)
Lemma blocks_grow base A l brk n : blocks base A l brk -> 1 <= n -> brk + 16 * n <= LIM -> blocks base (<[brk := n]> A) l (brk + 16 * n).
Proof.
  intros B Hn Hb. pose proof (blocks_ge _ _ _ _ B) as Hg. destruct B as [B1 B2 B3 B4 B5 B6 B7]. constructor; [done|done|lia|..].
  - intros y Hy. specialize (B4 y Hy). lia.
  - intros b m [[<- <-]|[Hb' Hm]]%lookup_insert_Some; [lia|destruct (B5 b m Hm); lia].
  - intros b m y [[<- <-]|[Hb' Hm]]%lookup_insert_Some Hy; [|by apply B6]. specialize (B4 y Hy). unfold apart. cbn. lia.
  - intros b m c k. rewrite !lookup_insert_Some. intros [[<- <-]|[Hb' Hm]] [[<- <-]|[Hc' Hk]] Hne; [done| | |by apply B7].
    + destruct (B5 c k Hk). unfold apart. cbn. lia.
    + destruct (B5 b m Hm). unfold apart. cbn. lia.
Qed.
