(* ===== verification/UmallocTheorems.v ===== *)
(** * free and malloc of umalloc.c on the heap

    [wp_free]: free puts the block at its place in the ring and joins it with
    its neighbours.  [wp_malloc]: malloc finds a large enough block when there
    is one, asks the kernel otherwise, and gives out a block that is apart from
    all others.  The claims are at the end. *)
From S2P Require Import Prelude Memory Umalloc UmallocSpec.

Lemma hdr_ext (m m' : gmap Z Z) p b : (forall w, w <> p -> w <> p + 8 -> m' !! w = m !! w) -> hsep p b -> uptr m' b = uptr m b /\ usize m' b = usize m b.
Proof. intros H Hh. unfold uptr, usize, hsep in *. rewrite !H by lia. done. Qed.

Lemma hd_above (l : list (Z * Z)) e : (exists z l', l = z :: l' /\ hd_addr l e = z.1) \/ (l = [] /\ hd_addr l e = e).
Proof. destruct l as [|z l']; [by right|left; by exists z, l']. Qed.

(** free leaves the block in the ring, at [freep] or right behind it. *)
Record freed (base : Z) (A : gmap Z Z) (l : list (Z * Z)) (a n : Z) (s s' : uheap) (k1 : list (Z * Z)) (y : Z * Z) (k2 : list (Z * Z)) : Prop := {
  fd_heap : heap base (delete a A) (k1 ++ y :: k2) s';
  fd_freep : u_freep s' = y.1;
  fd_brk : u_brk s' = u_brk s;
  fd_large : n <= y.2 \/ exists z k3, k2 = z :: k3 /\ n <= z.2;
  fd_free : forall w, in_free (k1 ++ y :: k2) w <-> in_free l w \/ a <= w < a + 16 * n;
  fd_payload : same_payload (delete a A) s s'
}.

Section Free.
Context (base : Z) (A : gmap Z Z) (l1 : list (Z * Z)) (x : Z * Z) (l2 : list (Z * Z)) (a n : Z).
Let l := l1 ++ x :: l2.
Context (Ha : A !! a = Some n) (Hx : x.1 < a) (H2 : forall y, y ∈ l2 -> a < y.1).

(** What the first half of free makes of the block and the list behind it. *)
Record joined (brk : Z) (nn : Z) (l2' : list (Z * Z)) : Prop := {
  jn_blocks : blocks base (<[a := nn]> A) (l1 ++ x :: l2') brk;
  jn_above : forall y, y ∈ l2' -> a + 16 * nn < y.1;
  jn_sub : forall y, y ∈ l2' -> y ∈ l2;
  jn_n : n <= nn;
  jn_free : forall w, in_free l2' w \/ a <= w < a + 16 * nn <-> in_free l2 w \/ a <= w < a + 16 * n
}.

Lemma joined_same brk : blocks base A l brk -> (forall y, y ∈ l2 -> a + 16 * n < y.1) -> joined brk n l2.
Proof. intros B H. constructor; [by rewrite insert_id|done|done|lia|done]. Qed.

Lemma joined_next brk z l2' : blocks base A l brk -> l2 = z :: l2' -> z.1 = a + 16 * n -> joined brk (n + z.2) l2'.
Proof.
  intros B E Ez. unfold l in B. rewrite E in B. assert (Zin : z ∈ l1 ++ x :: z :: l2') by (rewrite mid_cases, elem_of_cons; tauto).
  destruct (blocks_ge _ _ _ _ B z Zin) as (_ & Z2 & _). pose proof (bk_sorted _ _ _ _ B) as Hs. apply ss_mid in Hs as (Hs & _). apply ss_app in Hs as (_ & Hs & _). apply ss_cons in Hs as [_ Hs].
  constructor; [by apply (join_right base A l1 x l2' brk a n z)| | |lia|].
  - intros y Hy. destruct (Hs y Hy). lia.
  - intros y Hy. rewrite E. by right.
  - intros w. rewrite E, in_free_cons. destruct (bk_A _ _ _ _ B a n Ha) as (? & _). split; [intros [?|?]; [tauto|lia]|]. intros [[?|?]|?]; [right; lia|tauto|right; lia].
Qed.

(** Joining with the block behind. *)
Lemma wp_join (Q : unit -> uheap -> Prop) s : blocks base A l (u_brk s) -> chain (u_mem s) l2 base ->
  (forall nn l2' m1, joined (u_brk s) nn l2' -> uptr m1 a = hd_addr l2' base -> usize m1 a = nn -> (forall w, w <> a -> w <> a + 8 -> m1 !! w = u_mem s !! w) ->
    chain (u_mem s) l2' base -> Q tt (mkUheap m1 (u_freep s) (u_brk s))) ->
  usize (u_mem s) a = n ->
  wp (if padd a n =? hd_addr l2 base then
     let* qn := size_of (hd_addr l2 base) in
     set_size a (n + qn);;;
     let* qq := ptr_of (hd_addr l2 base) in
     set_ptr a qq
   else set_ptr a (hd_addr l2 base)) Q s.
Proof.
  intros B Hc HQ Hn. destruct (bk_A _ _ _ _ B a n Ha) as (A1 & A2 & A3). pose proof (bk_base _ _ _ _ B) as B3. unfold LIM in B3.
  assert (Ep : padd a n = a + 16 * n) by (unfold padd, sizeof_Header; apply u64_small; lia). rewrite Ep. case_match eqn:E.
  - apply Z.eqb_eq in E. destruct (hd_above l2 base) as [(z & l2' & E2 & Eh)|(E2 & Eh)]; [|lia]. rewrite Eh in E |- *. rewrite E2 in Hc. cbn [chain] in Hc. destruct Hc as (C1 & C2 & C3).
    assert (Zin : z ∈ l) by (unfold l; rewrite mid_cases, E2, elem_of_cons; tauto). pose proof (blocks_hsep _ _ _ _ B a n z Ha Zin) as Hh. destruct (blocks_ge _ _ _ _ B z Zin) as (Z1 & Z2 & Z3 & Z4 & _).
    unfold size_of, set_size, ptr_of, set_ptr. repeat wp_step. rewrite C2. unfold set_u_mem. cbn [u_mem u_freep u_brk]. rewrite uptr_size by (left; done). rewrite C1.
    assert (Eu : u32 (n + z.2) = n + z.2) by (apply u32_small; lia). rewrite Eu.
    apply (HQ (n + z.2) l2'); [by apply joined_next|apply uptr_eq|by rewrite usize_ptr, usize_eq by (by right)| |done].
    intros w H1 H3. cbn. by rewrite !lookup_insert_ne by lia.
  - apply Z.eqb_neq in E. unfold set_ptr, set_u_mem. wp_step. apply (HQ n l2); [|apply uptr_eq|by rewrite usize_ptr by (by right)| |done].
    + apply joined_same; [done|]. intros y Hy. assert (Yin : y ∈ l) by (unfold l; rewrite mid_cases; tauto). pose proof (bk_free _ _ _ _ B a n y Ha Yin) as Hap. pose proof (H2 y Hy) as Hay.
      destruct (hd_above l2 base) as [(z & l2' & E2 & Eh)|(E2 & Eh)]; [|rewrite E2 in Hy; by apply not_elem_of_nil in Hy]. rewrite Eh in E. rewrite E2 in Hy. apply elem_of_cons in Hy as [-> |Hy]; [unfold apart in Hap; cbn in Hap; destruct (blocks_ge _ _ _ _ B z Yin) as (_ & ? & _); lia|].
      pose proof (bk_sorted _ _ _ _ B) as Hs. apply ss_mid in Hs as (Hs & _). apply ss_app in Hs as (_ & Hs & _). rewrite E2 in Hs. apply ss_cons in Hs as [_ Hs]. destruct (Hs y Hy) as [Hs1 Hs2].
      unfold apart in Hap. cbn in Hap. assert (Zin : z ∈ l) by (unfold l; rewrite mid_cases, E2, elem_of_cons; tauto). destruct (blocks_ge _ _ _ _ B y Yin) as (_ & ? & _), (blocks_ge _ _ _ _ B z Zin) as (_ & ? & _).
      pose proof (bk_free _ _ _ _ B a n z Ha Zin) as Hap2. assert (Haz : a < z.1) by (apply H2; rewrite E2; left). unfold apart in Hap2. cbn in Hap2. lia.
    + intros w H1 H3. cbn. by rewrite !lookup_insert_ne by lia.
Qed.

(** A ring in which the header of [x] is rewritten. *)
Lemma chain_mid m m' brk nn l2' x' tl : joined brk nn l2' -> chain m l base ->
  (forall w, w <> a -> w <> a + 8 -> w <> x.1 -> w <> x.1 + 8 -> m' !! w = m !! w) ->
  x'.1 = x.1 -> uptr m' x.1 = hd_addr tl base -> usize m' x.1 = x'.2 -> chain m l2' base -> tl = l2' \/ (exists y, tl = y :: l2' /\ y.1 = a /\ uptr m' a = hd_addr l2' base /\ usize m' a = y.2) ->
  chain m' (l1 ++ x' :: tl) base.
Proof.
  intros J Hc Hm Ex Eu Es Hc2 Htl. pose proof (jn_blocks _ _ _ J) as B. assert (Han : (<[a := nn]> A) !! a = Some nn) by apply lookup_insert_eq.
  assert (Hext : forall y, y ∈ l1 \/ y ∈ l2' -> uptr m' y.1 = uptr m y.1 /\ usize m' y.1 = usize m y.1).
  { intros y Hy. assert (Yin : y ∈ l1 ++ x :: l2') by (rewrite mid_cases; tauto). pose proof (blocks_hsep _ _ _ _ B a nn y Han Yin) as Hh.
    assert (Hxy : hsep x.1 y.1). { pose proof (bk_sorted _ _ _ _ B) as Hs. apply ss_mid in Hs as (_ & S1 & S2). unfold hsep. destruct Hy as [Hy|Hy]; [destruct (S1 y Hy)|destruct (S2 y Hy)]; lia. }
    unfold uptr, usize, hsep in *. rewrite !Hm by lia. done. }
  apply chain_app in Hc as [Hc1 _]. apply chain_app. split; [|cbn [chain]; split_and!].
  - eapply ring_ext; [|cbn [hd_addr] in *; rewrite Ex; exact Hc1]. intros y Hy. apply Hext. by left.
  - by rewrite Ex.
  - by rewrite Ex.
  - assert (C2 : chain m' l2' base) by (eapply ring_ext; [|exact Hc2]; intros y Hy; apply Hext; by right).
    destruct Htl as [-> |(y & -> & Ey & E1 & E2)]; [done|]. cbn [chain]. rewrite Ey. by split_and!.
Qed.

(** The memory of free changes at the two headers only. *)
Lemma freed_intro s m' nn l2' x' tl :
  heap base A l s -> joined (u_brk s) nn l2' -> blocks base (delete a A) (l1 ++ x' :: tl) (u_brk s) -> chain m' (l1 ++ x' :: tl) base -> x'.1 = x.1 ->
  (forall w, w <> a -> w <> a + 8 -> w <> x.1 -> w <> x.1 + 8 -> m' !! w = u_mem s !! w) ->
  n <= x'.2 \/ (exists z k3, tl = z :: k3 /\ n <= z.2) ->
  (forall w, in_free (x' :: tl) w <-> in_free (x :: l2') w \/ a <= w < a + 16 * nn) ->
  freed base A l a n s (mkUheap m' x.1 (u_brk s)) l1 x' tl.
Proof.
  intros HP J B Hc Ex Hm Hl Hf. pose proof (hp_blocks _ _ _ _ HP) as B0. assert (Xin : x ∈ l) by (unfold l; rewrite mid_cases; tauto).
  assert (Hout : forall b k, delete a A !! b = Some k -> hsep a b /\ hsep x.1 b).
  { intros b k [Hne Hb]%lookup_delete_Some. split; [by eapply (blocks_hsep_A _ _ _ _ B0 a n b k)|apply hsep_sym; by eapply (blocks_hsep _ _ _ _ B0 b k x)]. }
  constructor; cbn [u_freep u_brk]; [|done|done|done| |].
  - constructor; cbn [u_brk u_mem u_freep]; [done|done|exists x'; by rewrite mid_cases; auto|]. intros b k Hb. destruct (Hout b k Hb) as [O1 O2]. apply lookup_delete_Some in Hb as [_ Hb].
    rewrite <- (hp_size _ _ _ _ HP b k Hb). unfold usize, hsep in *. by rewrite Hm by lia.
  - intros w. unfold l. rewrite !in_free_app, Hf, !in_free_cons. pose proof (jn_free _ _ _ J w). tauto.
  - intros b k w Hb Hw. destruct (Hout b k Hb) as [O1 O2]. pose proof (bk_A _ _ _ _ B b k Hb) as (Hk & _). apply lookup_delete_Some in Hb as [Hne Hb]. cbn [u_mem].
    pose proof (bk_apart _ _ _ _ B0 a n b k Ha Hb Hne). pose proof (bk_free _ _ _ _ B0 b k x Hb Xin). destruct (bk_A _ _ _ _ B0 a n Ha) as (? & ? & _).
    destruct (blocks_ge _ _ _ _ B0 x Xin) as (? & ? & _ & _ & X5 & X6). unfold hsep, apart in *. cbn in *. apply Hm; lia.
Qed.

(** Joining with the block in front. *)
Lemma wp_link (Q : unit -> uheap -> Prop) s nn l2' m1 : heap base A l s -> joined (u_brk s) nn l2' ->
  uptr m1 a = hd_addr l2' base -> usize m1 a = nn -> (forall w, w <> a -> w <> a + 8 -> m1 !! w = u_mem s !! w) -> chain (u_mem s) l2' base ->
  (forall s' k1 y k2, freed base A l a n s s' k1 y k2 -> Q tt s') ->
  wp (let* pn := size_of x.1 in
  (if padd x.1 pn =? a then
     let* bn := size_of a in
     set_size x.1 (pn + bn);;;
     let* bq := ptr_of a in
     set_ptr x.1 bq
   else set_ptr x.1 a);;;
  modify (set_u_freep x.1)) Q (mkUheap m1 (u_freep s) (u_brk s)).
Proof.
  intros HP J E1 E2 Hm Hc2 HQ. pose proof (hp_blocks _ _ _ _ HP) as B0. assert (Xin : x ∈ l) by (unfold l; rewrite mid_cases; tauto).
  pose proof (blocks_hsep _ _ _ _ B0 a n x Ha Xin) as Hh. destruct (blocks_ge _ _ _ _ B0 x Xin) as (X1 & X2 & X3 & X4 & _). pose proof (bk_base _ _ _ _ B0) as B3. unfold LIM in B3.
  assert (Han : (<[a := nn]> A) !! a = Some nn) by apply lookup_insert_eq. pose proof (jn_blocks _ _ _ J) as B. destruct (bk_A _ _ _ _ B a nn Han) as (N1 & N2 & N3).
  destruct (hdr_ext (u_mem s) m1 a x.1 Hm Hh) as [Ux Sx]. assert (Ex : usize (u_mem s) x.1 = x.2) by (pose proof (hp_ring _ _ _ _ HP) as Hc; apply chain_app in Hc as [_ Hc]; apply Hc). rewrite Ex in Sx.
  pose proof (jn_above _ _ _ J) as Hab. pose proof (jn_n _ _ _ J) as Hn.
  unfold size_of, set_size, ptr_of, set_ptr. wp_step. wp_step. cbn [u_mem]. rewrite Sx. assert (Ep : padd x.1 x.2 = x.1 + 16 * x.2) by (unfold padd, sizeof_Header; apply u64_small; lia). rewrite Ep.
  case_match eqn:E; repeat wp_step; unfold set_u_mem, set_u_freep; cbn [u_mem u_freep u_brk].
  - apply Z.eqb_eq in E. rewrite E2, uptr_size, E1 by (left; by apply hsep_sym). rewrite (u32_small (x.2 + nn)) by lia.
    apply (HQ _ l1 (x.1, x.2 + nn) l2'). eapply freed_intro; [done|exact J| | |done| |left; cbn; lia|].
    + rewrite <- (delete_insert_eq A a nn). by apply join_left.
    + eapply (chain_mid (u_mem s)); [exact J|apply (hp_ring _ _ _ _ HP)| |done|apply uptr_eq|by rewrite usize_ptr, usize_eq by (by right)|done|by left].
      intros w W1 W2 W3 W4. rewrite !lookup_insert_ne by lia. by apply Hm.
    + intros w W1 W2 W3 W4. rewrite !lookup_insert_ne by lia. by apply Hm.
    + intros w. rewrite !in_free_cons. cbn. split; [intros [?|?]; [lia|tauto]|]. intros [[?|?]|?]; [left; lia|tauto|left; lia].
  - apply Z.eqb_neq in E. apply (HQ _ l1 x ((a, nn) :: l2')). eapply freed_intro; [done|exact J| | |done| |right; exists (a, nn), l2'; split; [done|cbn; lia]|].
    + rewrite <- (delete_insert_eq A a nn). apply put_free; [done|done|done|lia|done].
    + eapply (chain_mid (u_mem s)); [exact J|apply (hp_ring _ _ _ _ HP)| |done|apply uptr_eq|by rewrite usize_ptr by (by right)|done|].
      * intros w W1 W2 W3 W4. rewrite !lookup_insert_ne by lia. by apply Hm.
      * right. exists (a, nn). split_and!; [done|done|by rewrite uptr_ptr by (by apply hsep_sym)|by rewrite usize_ptr by (left; by apply hsep_sym)].
    + intros w W1 W2 W3 W4. rewrite !lookup_insert_ne by lia. by apply Hm.
    + intros w. rewrite !in_free_cons. cbn. tauto.
Qed.
End Free.

(** The whole of free. *)
Lemma wp_free base A l a n (Q : unit -> uheap -> Prop) s : heap base A l s -> A !! a = Some n ->
  (forall s' k1 y k2, freed base A l a n s s' k1 y k2 -> Q tt s') -> wp (free (a + 16)) Q s.
Proof.
  intros HP Ha HQ. pose proof (hp_blocks _ _ _ _ HP) as B. destruct (bk_A _ _ _ _ B a n Ha) as (A1 & A2 & A3).
  assert (Hne : forall y, y ∈ l -> y.1 <> a) by (intros y Hy; pose proof (blocks_hsep _ _ _ _ B a n y Ha Hy); unfold hsep in *; lia).
  destruct (bk_head _ _ _ _ B) as (l' & El & _). destruct (ring_place l a (base, 0) l' El (bk_sorted _ _ _ _ B) ltac:(cbn; lia) Hne) as (l1 & x & l2 & E & Hx & H2).
  destruct (hp_freep _ _ _ _ HP) as (f & Hf & Ef). apply list_elem_of_lookup_1 in Hf as [i Hi]. rewrite E in HP, B, HQ, Hi. assert (Hhd : exists l', l1 ++ x :: l2 = (base, 0) :: l') by (exists l'; congruence). clear El E.
  pose proof (hp_ring _ _ _ _ HP) as Hc. unfold free. change (a + 16 - sizeof_Header) with (a + 16 - 16). rewrite Z.add_simpl_r. wp_step. wp_step. rewrite Ef. apply wp_bind.
  eapply (wp_free_search base l1 x l2 (u_mem s) a (bk_sorted _ _ _ _ B) Hc); [done|lia|done|done|done|exact Hi| |].
  { intros z Hz. destruct (blocks_ge _ _ _ _ B z Hz) as (? & _ & ? & _). pose proof (bk_base _ _ _ _ B). lia. }
  assert (Hcx : uptr (u_mem s) x.1 = hd_addr l2 base /\ chain (u_mem s) l2 base) by (apply chain_app in Hc as [_ Hc]; split; apply Hc). destruct Hcx as [Cx C2].
  unfold ptr_of at 1, size_of at 1. wp_step. wp_step. rewrite Cx. wp_step. wp_step. rewrite (hp_size _ _ _ _ HP a n Ha). apply wp_bind.
  eapply (wp_join base A l1 x l2 a n); [done|done|done|done| |by apply (hp_size _ _ _ _ HP)].
  intros nn l2' m1 J E1 E2 Hm C2'. cbn beta. eapply (wp_link base A l1 x l2 a n); eauto.
Qed.

(** ** malloc *)
(** Writes to the headers of blocks that are not given out keep those that are. *)
Lemma heap_keep base A l s m' : heap base A l s -> (forall a n w, A !! a = Some n -> a <= w < a + 16 * n -> m' !! w = u_mem s !! w) ->
  (forall a n, A !! a = Some n -> usize m' a = n) /\ forall f b, same_payload A s (mkUheap m' f b).
Proof.
  intros HP Hm. split.
  - intros a n Ha. rewrite <- (hp_size _ _ _ _ HP a n Ha). destruct (bk_A _ _ _ _ (hp_blocks _ _ _ _ HP) a n Ha) as (? & _). unfold usize. rewrite (Hm a n); [done|done|lia].
  - intros f b a n w Ha Hw. cbn. apply (Hm a n); [done|lia].
Qed.
Lemma same_payload_trans A s s1 s2 : same_payload A s s1 -> same_payload A s1 s2 -> same_payload A s s2.
Proof. intros H1 H2 a n w Ha Hw. rewrite (H2 a n w Ha Hw). by apply (H1 a n). Qed.

(** No header of a free block lies in a block that is given out. *)
Lemma free_out base A l brk a n x w : blocks base A l brk -> A !! a = Some n -> x ∈ l -> a <= w < a + 16 * n -> w <> x.1 /\ w <> x.1 + 8.
Proof.
  intros B Ha Hx Hw. pose proof (bk_free _ _ _ _ B a n x Ha Hx) as H. destruct (blocks_ge _ _ _ _ B x Hx) as (G1 & G2 & _ & _ & G3 & _). destruct (bk_A _ _ _ _ B a n Ha) as (H1 & H2 & _).
  unfold apart in H. cbn in H. destruct (Z.eq_dec x.1 base) as [E|E]; [lia|]. destruct (G3 E). lia.
Qed.

Lemma nxt_mid (k1 : list (Z * Z)) y z k3 : (k1 ++ y :: z :: k3) !! nxt (k1 ++ y :: z :: k3) (length k1) = Some z.
Proof.
  unfold nxt. rewrite length_app. cbn [length]. rewrite decide_True by lia. rewrite lookup_app_r by lia. by replace (S (length k1) - length k1)%nat with 1%nat by lia.
Qed.

Section Malloc.
Context (base : Z) (room : Z -> Z -> bool) (Hroom : forall b n, room b n = true -> b + n <= LIM) (A : gmap Z Z) (k : Z) (Hk : 1 <= k /\ 16 * k < 2 ^ 31).
Let nu := if k <? 4096 then 4096 else k.

Lemma nu_ok : 1 <= nu /\ k <= nu /\ 16 * nu < 2 ^ 31.
Proof. unfold nu. destruct (Z.ltb_spec k 4096); lia. Qed.

(** The kernel grants a block: the ring gets it. *)
Lemma wp_morecore l (Q : Z -> uheap -> Prop) s : heap base A l s ->
  (room (u_brk s) (16 * nu) = false -> Q 0 s) ->
  (forall s' k1 y k2, heap base A (k1 ++ y :: k2) s' -> u_freep s' = y.1 -> u_brk s' = u_brk s + 16 * nu ->
    nu <= y.2 \/ (exists z k3, k2 = z :: k3 /\ nu <= z.2) ->
    (forall w, in_free (k1 ++ y :: k2) w <-> in_free l w \/ u_brk s <= w < u_brk s') -> same_payload A s s' -> Q y.1 s') ->
  wp (morecore room k) Q s.
Proof.
  intros HP HQ0 HQ1. pose proof nu_ok as (N1 & N2 & N3). pose proof (hp_blocks _ _ _ _ HP) as B. pose proof (bk_base _ _ _ _ B) as B3. unfold morecore. fold nu.
  assert (En : s32 (nu * sizeof_Header) = 16 * nu) by (unfold sizeof_Header; rewrite s32_small; lia). rewrite En. unfold sbrk. wp_step. wp_step. wp_step. rewrite (proj2 (Z.ltb_lt 0 (16 * nu))) by lia.
  destruct (room (u_brk s) (16 * nu)) eqn:Er; [|repeat wp_step; by apply HQ0]. specialize (Hroom _ _ Er). repeat wp_step. unfold LIM in *.
  rewrite s32_small, u64_small, (u32_small (u_brk s)), u32_small by lia.
  rewrite (proj2 (Z.eqb_neq (u_brk s) (2 ^ 64 - 1))) by lia. unfold set_size at 1. wp_step. wp_step. apply wp_bind. rewrite (u32_small nu) by lia.
  set (s1 := set_u_mem _ _). assert (HA : A !! u_brk s = None) by (destruct (A !! u_brk s) as [n|] eqn:E; [destruct (bk_A _ _ _ _ B _ _ E); lia|done]).
  assert (H1 : heap base (<[u_brk s := nu]> A) l s1).
  { destruct HP as [_ P1 P2 P3]. assert (Hlow : forall b, b + 16 <= u_brk s -> uptr (u_mem s1) b = uptr (u_mem s) b /\ usize (u_mem s1) b = usize (u_mem s) b)
      by (intros b Hb; cbn; rewrite uptr_size, usize_size by (unfold hsep; lia); done). constructor.
    - cbn. apply blocks_grow; [done|lia|unfold LIM; lia].
    - eapply ring_ext; [|exact P1]. intros x Hx. apply Hlow. destruct (blocks_ge _ _ _ _ B x Hx); lia.
    - done.
    - intros b n [[<- <-]|[Hb Hn]]%lookup_insert_Some; [apply usize_eq|]. rewrite (proj2 (Hlow b ltac:(destruct (bk_A _ _ _ _ B b n Hn); lia))). by apply P3. }
  eapply wp_free; [exact H1|apply lookup_insert_eq|]. intros s' k1 y k2 [F1 F2 F3 F4 F5 F6]. wp_step. rewrite F2. rewrite delete_insert_id in F1, F6 by done.
  apply (HQ1 s' k1 y k2); [done|done|done|done| |].
  - intros w. rewrite F5, F3. done.
  - eapply same_payload_trans; [|exact F6]. apply (heap_keep base A l s); [done|]. intros b n w Hb Hw. cbn. destruct (bk_A _ _ _ _ B b n Hb) as (? & ? & ?). by rewrite lookup_insert_ne by lia.
Qed.

(** The block a round gives out of the ring. *)
Record given (l : list (Z * Z)) (s s' : uheap) (a : Z) (l' : list (Z * Z)) : Prop := {
  gv_new : A !! a = None;
  gv_heap : heap base (<[a := k]> A) l' s';
  gv_free : forall w, in_free l' w \/ a <= w < a + 16 * k <-> in_free l w;
  gv_payload : same_payload A s s';
  gv_brk : u_brk s' = u_brk s
}.

(** A free block is not given out. *)
Lemma free_new l brk q a : blocks base A l brk -> q ∈ l -> q.1 <= a < q.1 + 16 * q.2 -> A !! a = None.
Proof.
  intros B Hq Ha. destruct (A !! a) as [n|] eqn:E; [|done]. pose proof (bk_free _ _ _ _ B a n q E Hq) as H. destruct (bk_A _ _ _ _ B a n E) as (H1 & _). unfold apart in H. cbn in H. lia.
Qed.

Lemma given_whole l1 pv q l2 s : heap base A (l1 ++ pv :: q :: l2) s -> q.2 = k -> 
  given (l1 ++ pv :: q :: l2) s (mkUheap (<[pv.1 := uptr (u_mem s) q.1]> (u_mem s)) pv.1 (u_brk s)) q.1 (l1 ++ pv :: l2).
Proof.
  intros HP Hq. pose proof (hp_blocks _ _ _ _ HP) as B. set (l := l1 ++ pv :: q :: l2) in *.
  assert (Qin : q ∈ l) by (unfold l; rewrite mid_cases, elem_of_cons; tauto). assert (Pin : pv ∈ l) by (unfold l; rewrite mid_cases; tauto).
  destruct (blocks_ge _ _ _ _ B q Qin) as (_ & _ & _ & _ & _ & Q6). assert (Hqb : q.1 <> base) by (intros E; specialize (Q6 E); lia).
  assert (El : l = (l1 ++ [pv]) ++ q :: l2) by (unfold l; by rewrite <- app_assoc).
  assert (B' : blocks base (<[q.1 := k]> A) (l1 ++ pv :: l2) (u_brk s)).
  { rewrite <- Hq. pose proof (take_whole base A (l1 ++ [pv]) q l2 (u_brk s)) as T. rewrite <- El, <- app_assoc in T. by apply T. }
  destruct (heap_keep base A l s (<[pv.1 := uptr (u_mem s) q.1]> (u_mem s)) HP) as [K1 K2].
  { intros a n w Ha Hw. destruct (free_out base A l (u_brk s) a n pv w B Ha Pin Hw). by rewrite lookup_insert_ne by lia. }
  pose proof (bk_sorted _ _ _ _ B) as Hs. apply ss_mid in Hs as (_ & S1 & S2). assert (Hpq : hsep pv.1 q.1) by (destruct (S2 q); [left|unfold hsep; lia]).
  pose proof (hp_ring _ _ _ _ HP) as Hc. apply chain_app in Hc as [C1 C2]. cbn [chain hd_addr] in C1, C2. destruct C2 as (C2 & C3 & C4 & C5 & C6).
  constructor; [eapply free_new; [exact B|exact Qin|lia]| | |apply K2|done].
  - constructor; cbn [u_brk u_mem u_freep]; [done| |exists pv; split; [rewrite mid_cases; tauto|done]|].
    + apply chain_app. split; [eapply ring_ext; [|exact C1]|cbn [chain]; split_and!].
      * intros y Hy. destruct (S1 y Hy). rewrite uptr_ptr, usize_ptr by (unfold hsep; lia). done.
      * by rewrite uptr_eq.
      * by rewrite usize_ptr by (by right).
      * eapply ring_ext; [|exact C6]. intros y Hy. destruct (S2 y); [by right|]. rewrite uptr_ptr, usize_ptr by (unfold hsep; lia). done.
    + intros a n [[<- <-]|[Ha Hn]]%lookup_insert_Some; [|by apply K1]. rewrite usize_ptr by (by left). congruence.
  - intros w. unfold l. rewrite !in_free_app, !in_free_cons. rewrite Hq. tauto.
Qed.

Lemma given_tail l1 q l2 s pv : heap base A (l1 ++ q :: l2) s -> k < q.2 -> pv ∈ l1 ->
  let a := q.1 + 16 * (q.2 - k) in
  given (l1 ++ q :: l2) s (mkUheap (<[a + 8 := k]> (<[q.1 + 8 := q.2 - k]> (u_mem s))) pv.1 (u_brk s)) a (l1 ++ (q.1, q.2 - k) :: l2).
Proof.
  intros HP Hq Hpv a. pose proof (hp_blocks _ _ _ _ HP) as B. set (l := l1 ++ q :: l2) in *. assert (Qin : q ∈ l) by (unfold l; rewrite mid_cases; tauto).
  destruct (blocks_ge _ _ _ _ B q Qin) as (_ & _ & _ & Q4 & _). assert (B' : blocks base (<[a := k]> A) (l1 ++ (q.1, q.2 - k) :: l2) (u_brk s)) by (apply take_tail; [done|lia]).
  destruct (heap_keep base A l s (<[a + 8 := k]> (<[q.1 + 8 := q.2 - k]> (u_mem s))) HP) as [K1 K2].
  { intros b n w Hb Hw. destruct (free_out base A l (u_brk s) b n q w B Hb Qin Hw). pose proof (bk_free _ _ _ _ B b n q Hb Qin) as Hap. unfold apart in Hap. cbn in Hap.
    rewrite !lookup_insert_ne by (unfold a; lia). done. }
  pose proof (bk_sorted _ _ _ _ B) as Hs. apply ss_mid in Hs as (_ & S1 & S2). pose proof (hp_ring _ _ _ _ HP) as Hc. apply chain_app in Hc as [C1 C2]. cbn [chain hd_addr] in C1, C2. destruct C2 as (C2 & C3 & C4).
  assert (Hext : forall y, hsep q.1 y -> hsep a y -> uptr (<[a + 8 := k]> (<[q.1 + 8 := q.2 - k]> (u_mem s))) y = uptr (u_mem s) y /\ usize (<[a + 8 := k]> (<[q.1 + 8 := q.2 - k]> (u_mem s))) y = usize (u_mem s) y)
    by (intros y Y1 Y2; rewrite !uptr_size, !usize_size by tauto; done).
  assert (Haq : hsep a q.1) by (unfold a, hsep; lia).
  constructor; [eapply free_new; [exact B|exact Qin|unfold a; lia]| | |apply K2|done].
  - constructor; cbn [u_brk u_mem u_freep]; [done| |exists pv; split; [rewrite mid_cases; tauto|done]|].
    + apply chain_app. split; [eapply ring_ext; [|exact C1]|cbn [chain fst snd]; split_and!].
      * intros y Hy. destruct (S1 y Hy). apply Hext; unfold hsep, a; lia.
      * by rewrite !uptr_size by tauto.
      * by rewrite usize_size, usize_eq.
      * eapply ring_ext; [|exact C4]. intros y Hy. destruct (S2 y Hy). apply Hext; unfold hsep, a; lia.
    + intros b n [[<- <-]|[Hb Hn]]%lookup_insert_Some; [|by apply K1]. apply usize_eq.
  - intros w. unfold l. rewrite !in_free_app, !in_free_cons. cbn [fst snd]. unfold a. split; [intros [[?|[?|?]]|?]; [tauto|right; left; lia|tauto|right; left; lia]|].
    intros [?|[?|?]]; [tauto| |tauto]. destruct (Z.lt_ge_cases w (q.1 + 16 * (q.2 - k))); [left; right; left; lia|right; lia].
Qed.

(** *** The search *)
Lemma ring_next l s i w : heap base A l s -> l !! i = Some w -> exists z, l !! nxt l i = Some z /\ uptr (u_mem s) w.1 = z.1.
Proof.
  intros HP Hi. destruct (chain_next _ _ _ i w (hp_ring _ _ _ _ HP) Hi) as [E _]. unfold nxt. destruct (decide (S i < length l)%nat) as [H|H].
  - destruct (lookup_lt_is_Some_2 l (S i) H) as [z Hz]. exists z. by rewrite Hz in E.
  - destruct (bk_head _ _ _ _ (hp_blocks _ _ _ _ HP)) as (l' & El & _). rewrite (proj2 (lookup_ge_None l (S i))) in E by lia. exists (base, 0). by rewrite El.
Qed.
Lemma heap_bounds l s : heap base A l s -> forall z, z ∈ l -> 0 <= z.1 < LIM.
Proof. intros HP z Hz. pose proof (hp_blocks _ _ _ _ HP) as B. destruct (blocks_ge _ _ _ _ B z Hz) as (? & _ & ? & _). pose proof (bk_base _ _ _ _ B). lia. Qed.

Record grown (l0 : list (Z * Z)) (s0 : uheap) (l : list (Z * Z)) (s : uheap) : Prop := {
  gr_none : forall z, z ∈ l0 -> z.2 < k;
  gr_brk : u_brk s = u_brk s0 + 16 * nu;
  gr_free : forall w, in_free l w <-> in_free l0 w \/ u_brk s0 <= w < u_brk s;
  gr_payload : same_payload A s0 s
}.

(** What malloc does: nothing, when no free block is large enough and the kernel
    refuses; otherwise a new block is given out of the free bytes, to which a
    grant of the kernel is added when no free block was large enough. *)
Definition malloced (l0 : list (Z * Z)) (s0 : uheap) (r : Z) (s' : uheap) : Prop :=
  (r = 0 /\ s' = s0 /\ (forall z, z ∈ l0 -> z.2 < k) /\ room (u_brk s0) (16 * nu) = false) \/
  (exists a l', r = a + 16 /\ A !! a = None /\ heap base (<[a := k]> A) l' s' /\ same_payload A s0 s' /\
    (forall w, in_free l' w \/ a <= w < a + 16 * k <-> in_free l0 w \/ u_brk s0 <= w < u_brk s') /\
    (u_brk s' = u_brk s0 \/ (forall z, z ∈ l0 -> z.2 < k) /\ u_brk s' = u_brk s0 + 16 * nu)).

Record at_block (l : list (Z * Z)) (x : Z * Z) (s : uheap) (i t : nat) (pv q f : Z * Z) : Prop := {
  ab_heap : heap base A l s;
  ab_prev : l !! i = Some pv;
  ab_cur : l !! nxt l i = Some q;
  ab_x : x = (pv.1, q.1);
  ab_f : l !! t = Some f;
  ab_freep : u_freep s = f.1;
  ab_passed : forall y, y ∈ l -> passed f.1 q.1 y.1 -> y.2 < k
}.
Definition searching l0 s0 (x : Z * Z) (s : uheap) : Prop :=
  exists l i t pv q f, at_block l x s i t pv q f /\ ((s = s0 /\ l = l0) \/ ((k <= f.2 \/ k <= q.2) /\ grown l0 s0 l s)).
Definition search_mu (x : Z * Z) (s : uheap) : Z :=
  (if (k <=? usize (u_mem s) (u_freep s)) || (k <=? usize (u_mem s) x.2) then 0 else 2 ^ 40) + dist (u_freep s) x.2.

Lemma heap_size l s i z : heap base A l s -> l !! i = Some z -> usize (u_mem s) z.1 = z.2.
Proof. intros HP Hz. by destruct (chain_next _ _ _ i z (hp_ring _ _ _ _ HP) Hz). Qed.

Lemma given_malloced l0 s0 l s s' a l' : given l s s' a l' -> (s = s0 /\ l = l0) \/ grown l0 s0 l s -> malloced l0 s0 (a + 16) s'.
Proof.
  intros [G1 G2 G3 G4 G5] H. right. exists a, l'. destruct H as [[-> ->]|[R1 R2 R3 R4]]; split_and!; try done.
  - intros w. rewrite G3, G5. split; [tauto|]. intros [?|?]; [done|lia].
  - by left.
  - by eapply same_payload_trans.
  - intros w. rewrite G3, G5. apply R3.
  - right. split; [done|lia].
Qed.

(** The current block is large enough. *)
Lemma wp_round_take l0 s0 l x s i t pv q f (Q : Z * Z + Z -> uheap -> Prop) : at_block l x s i t pv q f -> (s = s0 /\ l = l0) \/ grown l0 s0 l s -> k <= q.2 ->
  (forall r s', malloced l0 s0 r s' -> Q (inr r) s') -> wp (malloc_round room k x) Q s.
Proof.
  intros [HP Hi Hq -> Hf Ef _] Hg Hkq HQ. pose proof (heap_size l s _ q HP Hq) as Es. pose proof (hp_blocks _ _ _ _ HP) as B. pose proof (bk_base _ _ _ _ B) as B3. unfold LIM in B3.
  assert (El : exists l1 l2, l = l1 ++ pv :: q :: l2).
  { destruct (bk_head _ _ _ _ B) as (l' & E & _). unfold nxt in Hq. destruct (decide (S i < length l)%nat); [|rewrite E in Hq; injection Hq as <-; cbn in Hkq; lia].
    exists (take i l), (drop (S (S i)) l). by rewrite <- (drop_S _ _ _ Hq), <- (drop_S _ _ _ Hi), take_drop. }
  destruct El as (l1 & l2 & El). assert (Qin : q ∈ l) by (by eapply list_elem_of_lookup_2). destruct (blocks_ge _ _ _ _ B q Qin) as (? & _ & _ & ? & _).
  unfold malloc_round, size_of, ptr_of, set_ptr, set_size. wp_step. wp_step. rewrite Es, (proj2 (Z.leb_le k q.2)) by done. destruct (Z.eqb_spec q.2 k) as [E|E]; repeat wp_step; apply HQ; unfold set_u_mem, set_u_freep; cbn [u_mem u_freep u_brk].
  - eapply given_malloced; [|exact Hg]. subst l. by apply given_whole.
  - unfold padd, sizeof_Header. rewrite u64_small, !u32_small by lia. eapply given_malloced; [|exact Hg]. subst l. change (pv :: q :: l2) with ([pv] ++ q :: l2) in *. rewrite app_assoc in *.
    apply given_tail; [done|lia|]. apply elem_of_app. right. left.
Qed.

(** The search starts behind [freep]. *)
Lemma at_block_start l s t f z : heap base A l s -> l !! t = Some f -> u_freep s = f.1 -> l !! nxt l t = Some z -> at_block l (f.1, z.1) s t t f z f.
Proof.
  intros HP Hf Ef Hz. constructor; try done. intros y Hy Hp. exfalso. eapply (passed_start l (bk_sorted _ _ _ _ (hp_blocks _ _ _ _ HP)) t f z Hf Hz y Hy Hp).
Qed.

Lemma mu_bounds l x s i t pv q f : at_block l x s i t pv q f -> 0 <= dist (u_freep s) x.2 < 2 ^ 37.
Proof.
  intros [HP Hi Hq -> Hf Ef _]. assert (Qin : q ∈ l) by (by eapply list_elem_of_lookup_2). assert (Fin : f ∈ l) by (by eapply list_elem_of_lookup_2).
  pose proof (heap_bounds l s HP q Qin). pose proof (heap_bounds l s HP f Fin). rewrite Ef. unfold dist, LIM in *. cbn. destruct (Z.leb_spec q.1 f.1); lia.
Qed.

Lemma wp_malloc_round l0 s0 x s : searching l0 s0 x s ->
  wp (malloc_round room k x) (fun r s' => match r with inl x' => searching l0 s0 x' s' /\ 0 <= search_mu x' s' < search_mu x s | inr v => malloced l0 s0 v s' end) s.
Proof.
  intros (l & i & t & pv & q & f & AB & Hg). destruct (Z.le_gt_cases k q.2) as [Hkq|Hkq].
  { eapply wp_round_take; [exact AB| |done|done]. tauto. }
  pose proof (mu_bounds _ _ _ _ _ _ _ _ AB) as Hmu. pose proof AB as [HP Hi Hq -> Hf Ef Hps]. cbn [snd] in Hmu. pose proof (hp_blocks _ _ _ _ HP) as B. pose proof (bk_sorted _ _ _ _ B) as Hs.
  pose proof (heap_size l s _ q HP Hq) as Es. pose proof (heap_size l s _ f HP Hf) as Esf. assert (Qin : q ∈ l) by (by eapply list_elem_of_lookup_2).
  unfold malloc_round, size_of. wp_step. wp_step. rewrite Es, (proj2 (Z.leb_gt k q.2)) by lia. wp_step. wp_step. wp_step. rewrite Ef. destruct (Z.eqb_spec q.1 f.1) as [E|E].
  - assert (Hqf : q = f) by (symmetry in E; pose proof (ss_same l Hs _ q Hq f ltac:(by eapply list_elem_of_lookup_2) E); done). subst f.
    destruct Hg as [[-> ->]|[[?|?] _]]; [|lia|lia].
    assert (Hall : forall z, z ∈ l0 -> z.2 < k). { intros z Hz. destruct (Z.eq_dec z.1 q.1) as [Ez|Ez]; [by rewrite (ss_same l0 Hs _ q Hq z Hz Ez)|]. apply (Hps z Hz). unfold passed. rewrite Z.ltb_irrefl. lia. }
    wp_step. apply (wp_morecore l0); [done|intros Hr; repeat wp_step; by left|]. intros s' k1 y k2 HP' Ef' Eb Hl Hfr Hpl.
    assert (Yin : y ∈ k1 ++ y :: k2) by (rewrite mid_cases; tauto). destruct (blocks_ge _ _ _ _ (hp_blocks _ _ _ _ HP') y Yin) as (Y1 & _). pose proof (bk_base _ _ _ _ B) as [B3 _].
    wp_step. rewrite (proj2 (Z.eqb_neq y.1 0)) by lia. unfold ptr_of. repeat wp_step. assert (Hy : (k1 ++ y :: k2) !! length k1 = Some y) by (by rewrite lookup_app_r, Nat.sub_diag by lia).
    destruct (ring_next _ s' _ y HP' Hy) as (z & Hz & Ez). rewrite Ez. pose proof (at_block_start _ s' _ y z HP' Hy Ef' Hz) as AB'. pose proof nu_ok as (N1 & N2 & N3).
    assert (Hbig : k <= y.2 \/ k <= z.2). { destruct Hl as [?|(z' & k3 & -> & ?)]; [lia|]. right. rewrite nxt_mid in Hz. injection Hz as <-. lia. }
    split; [exists (k1 ++ y :: k2), (length k1), (length k1), y, z, y; split; [done|]; right; by split|]. pose proof (mu_bounds _ _ _ _ _ _ _ _ AB') as Hmu'. unfold search_mu. cbn [snd] in *.
    rewrite Ef', (heap_size _ s' _ y HP' Hy), (heap_size _ s' _ z HP' Hz), Ef, Es, (proj2 (Z.leb_gt k q.2)) by lia. cbn [orb]. rewrite Ef' in Hmu'. rewrite Ef in Hmu.
    assert (Hb : (k <=? y.2) || (k <=? z.2) = true) by (apply orb_true_iff; rewrite !Z.leb_le; tauto). rewrite Hb. lia.
  - unfold ptr_of. repeat wp_step. destruct (ring_next _ s _ q HP Hq) as (z & Hz & Ez). rewrite Ez.
    assert (AB' : at_block l (q.1, z.1) s (nxt l i) t q z f).
    { constructor; try done. intros y Hy Hp. destruct (passed_next l Hs (heap_bounds l s HP) _ t q z f Hq Hz Hf y E Hy Hp) as [Hp'|Ey]; [by apply Hps|]. by rewrite (ss_same l Hs _ q Hq y Hy Ey). }
    split; [exists l, (nxt l i), t, q, z, f; split; [done|]; destruct Hg as [?|[[?|?] ?]]; [by left|right; split; [by left|done]|lia]|].
    pose proof (mu_bounds _ _ _ _ _ _ _ _ AB') as Hmu'. pose proof (dist_next l Hs (heap_bounds l s HP) _ t q z f Hq Hz Hf E) as Hd. unfold search_mu. cbn [snd] in *. rewrite Ef in *. rewrite Es, (proj2 (Z.leb_gt k q.2)) by lia.
    destruct (k <=? usize (u_mem s) f.1); cbn [orb]; [lia|]. destruct (k <=? usize (u_mem s) z.1); lia.
Qed.

Lemma wp_malloc_loop l s x (Q : Z -> uheap -> Prop) : searching l s x s -> (forall r s', malloced l s r s' -> Q r s') -> wp (loop (malloc_round room k) x) Q s.
Proof.
  intros H HQ. apply (wp_loop _ (searching l s) search_mu); [|done|].
  - intros x' s' HS. eapply wp_mono; [by apply wp_malloc_round|]. intros [x2|r] s2; [tauto|apply HQ].
  - destruct H as (l' & i & t & pv & q & f & AB & _). pose proof (mu_bounds _ _ _ _ _ _ _ _ AB). unfold search_mu. case_match; lia.
Qed.
End Malloc.

(** *** The first call *)
Definition unused (base : Z) (s : uheap) : Prop := u_freep s = 0 /\ 0 < base /\ base + 16 <= u_brk s <= LIM.
(** The heap malloc starts its search in. *)
Definition opened (base : Z) (s : uheap) : uheap :=
  if u_freep s =? 0 then mkUheap (<[base + 8 := 0]> (<[base := base]> (u_mem s))) base (u_brk s) else s.

Lemma opened_first base s : unused base s -> heap base ∅ [(base, 0)] (opened base s).
Proof.
  intros (E & H1 & H2). unfold opened. rewrite E. cbn [Z.eqb]. assert (Hin : forall x, x ∈ [(base, 0)] -> x = (base, 0)) by (intros x; by rewrite list_elem_of_singleton).
  constructor; cbn [u_brk u_mem u_freep]; [constructor|..]; try (intros *; by rewrite lookup_empty).
  - by exists [].
  - repeat constructor.
  - done.
  - intros x ->%Hin. cbn. lia.
  - cbn [chain hd_addr]. rewrite uptr_size, uptr_eq, usize_eq by (by right). done.
  - exists (base, 0). by rewrite list_elem_of_singleton.
Qed.
Lemma heap_freep base A l s : heap base A l s -> 0 < u_freep s.
Proof.
  intros HP. pose proof (hp_blocks _ _ _ _ HP) as B. destruct (hp_freep _ _ _ _ HP) as (f & Hf & ->). destruct (blocks_ge _ _ _ _ B f Hf). pose proof (bk_base _ _ _ _ B). lia.
Qed.
Lemma opened_heap base A l s : heap base A l s -> opened base s = s.
Proof. intros HP%heap_freep. unfold opened. by rewrite (proj2 (Z.eqb_neq (u_freep s) 0)) by lia. Qed.

Lemma wp_malloc base room A l s nbytes (Q : Z -> uheap -> Prop) : (forall b n, room b n = true -> b + n <= LIM) -> 0 <= nbytes < 2 ^ 31 - 64 -> heap base A l (opened base s) ->
  (forall r s', malloced base room A (nunits_of nbytes) l (opened base s) r s' -> Q r s') -> wp (malloc base room nbytes) Q s.
Proof.
  intros Hr Hn HP HQ. assert (Hk : 1 <= nunits_of nbytes /\ 16 * nunits_of nbytes < 2 ^ 31) by (unfold nunits_of, sizeof_Header; rewrite u32_small by zmod; zmod).
  destruct (hp_freep _ _ _ _ HP) as (f & [t Ht]%list_elem_of_lookup_1 & Ef).
  unfold malloc. wp_step. wp_step. apply wp_bind. apply (wp_mono _ (fun _ s1 => s1 = opened base s)).
  { unfold opened. destruct (u_freep s =? 0); cbn [when]; unfold set_ptr, set_size; repeat wp_step; done. }
  intros [] s1 ->. unfold ptr_of. repeat wp_step. destruct (ring_next base A (nunits_of nbytes) l _ t f HP Ht) as (z & Hz & Ez). rewrite Ef, Ez.
  eapply (wp_malloc_loop base room Hr A (nunits_of nbytes) Hk l); [|exact HQ]. exists l, t, t, f, z, f. split; [by apply at_block_start|by left].
Qed.

(** ** Programs on the heap *)
(** The states a program gets to by calls of malloc and free and by stores into
    the blocks it has. *)
Inductive client (base : Z) (room : Z -> Z -> bool) : gmap Z Z -> uheap -> Prop :=
| cl_start s : unused base s -> client base room ∅ s
| cl_malloc A s n r s' : client base room A s -> 0 <= n < 2 ^ 31 - 64 -> malloc base room n s = Ret r s' ->
    client base room (if r =? 0 then A else <[r - 16 := nunits_of n]> A) s'
| cl_free A s a n s' : client base room A s -> A !! a = Some n -> free (a + 16) s = Ret tt s' -> client base room (delete a A) s'
| cl_store A s a n w v : client base room A s -> A !! a = Some n -> a + 16 <= w -> w + 8 <= a + 16 * n -> client base room A (set_u_mem (<[w := v]>) s).

Lemma heap_store base A l s a n w v : heap base A l s -> A !! a = Some n -> a + 16 <= w < a + 16 * n -> heap base A l (set_u_mem (<[w := v]>) s).
Proof.
  intros HP Ha Hw. pose proof (hp_blocks _ _ _ _ HP) as B. destruct (bk_A _ _ _ _ B a n Ha) as (A1 & A2 & A3). destruct HP as [P1 P2 P3 P4]. constructor; [done| |done|].
  - eapply ring_ext; [|exact P2]. intros x Hx. destruct (free_out base A l _ a n x w B Ha Hx ltac:(lia)). unfold uptr, usize. cbn. by rewrite !lookup_insert_ne by lia.
  - intros b m Hb. rewrite <- (P4 b m Hb). unfold usize. cbn. rewrite lookup_insert_ne; [done|]. destruct (Z.eq_dec a b) as [-> |Hne]; [lia|].
    pose proof (bk_apart _ _ _ _ B a n b m Ha Hb Hne) as H. destruct (bk_A _ _ _ _ B b m Hb). unfold apart in H. cbn in H. lia.
Qed.

(** Every state of a program is a heap. *)
Definition uinv (base : Z) (A : gmap Z Z) (s : uheap) : Prop := (A = ∅ /\ unused base s) \/ exists l, heap base A l s.
Lemma uinv_opened base A s : uinv base A s -> exists l, heap base A l (opened base s).
Proof. intros [[-> Hu]|[l HP]]; [exists [(base, 0)]; by apply opened_first|exists l; by rewrite (opened_heap base A l)]. Qed.

Lemma uinv_malloc base room A s n : (forall b n, room b n = true -> b + n <= LIM) -> uinv base A s -> 0 <= n < 2 ^ 31 - 64 ->
  wp (malloc base room n) (fun r s' => uinv base (if r =? 0 then A else <[r - 16 := nunits_of n]> A) s') s.
Proof.
  intros Hr [l HP]%uinv_opened Hn. eapply (wp_malloc base room A l); [done|done|done|]. intros r1 s1 [(-> & -> & _)|(a & l' & -> & Ha & HP' & _)]; right; [by exists l|].
  destruct (bk_A _ _ _ _ (hp_blocks _ _ _ _ HP') a _ (lookup_insert_eq _ _ _)) as (_ & A2 & _). pose proof (bk_base _ _ _ _ (hp_blocks _ _ _ _ HP')).
  rewrite (proj2 (Z.eqb_neq (a + 16) 0)), Z.add_simpl_r by lia. by exists l'.
Qed.
Lemma uinv_free base A s a n : uinv base A s -> A !! a = Some n -> wp (free (a + 16)) (fun _ s' => uinv base (delete a A) s' /\ same_payload (delete a A) s s') s.
Proof.
  intros [[-> Hu]|[l HP]] Ha; [rewrite lookup_empty in Ha; discriminate Ha|]. eapply wp_free; [exact HP|exact Ha|]. intros s' k1 y k2 [F1 _ _ _ _ F6]. split; [right; exists (k1 ++ y :: k2); exact F1|exact F6].
Qed.

Lemma client_uinv base room A s : (forall b n, room b n = true -> b + n <= LIM) -> client base room A s -> uinv base A s.
Proof.
  intros Hr. induction 1 as [s Hu|A s n r s' HC HI Hn E|A s a n s' HC HI Ha E|A s a n w v HC HI Ha Hw1 Hw2].
  - by left.
  - pose proof (uinv_malloc base room A s n Hr HI Hn) as W. apply wp_elim in W as (r1 & s1 & E1 & W). rewrite E in E1. by injection E1 as <- <-.
  - pose proof (uinv_free base A s a n HI Ha) as W. apply wp_elim in W as (r1 & s1 & E1 & W & _). rewrite E in E1. injection E1 as _ <-. exact W.
  - destruct HI as [[-> Hu]|[l HP]]; [rewrite lookup_empty in Ha; discriminate Ha|]. right. exists l. eapply heap_store; [done|exact Ha|lia].
Qed.

(** ** A concrete heap *)
Definition ex_room (b n : Z) : bool := b + n <=? 2 ^ 30.
Definition ex_start : uheap := mkUheap ∅ 0 16384.
Definition ex_malloc (n : Z) (s : uheap) : uheap := match malloc 4096 ex_room n s with Ret _ s' => s' | _ => s end.
Definition ex_heap : uheap := ex_malloc 100 ex_start.

Lemma ex_room_ok b n : ex_room b n = true -> b + n <= LIM.
Proof. unfold ex_room, LIM. rewrite Z.leb_le. lia. Qed.
Lemma ex_unused : unused 4096 ex_start.
Proof. unfold unused, LIM. cbn. lia. Qed.
Lemma ex_malloced : malloc 4096 ex_room 100 ex_start = Ret 81808 ex_heap.
Proof. vm_compute. reflexivity. Qed.
Lemma ex_malloced2 : malloc 4096 ex_room 1000 ex_heap = Ret 80784 (ex_malloc 1000 ex_heap).
Proof. vm_compute. reflexivity. Qed.

Lemma ex_heap_ok : heap 4096 {[81792 := 8]} [(4096, 0); (16384, 4088)] ex_heap.
Proof.
  assert (Hin : forall x, x ∈ [(4096, 0); (16384, 4088)] -> x = (4096, 0) \/ x = (16384, 4088)) by (intros x; rewrite !elem_of_cons, elem_of_nil; tauto).
  constructor; [constructor|..].
  - exists [(16384, 4088)]. split; [done|]. by repeat constructor.
  - repeat constructor; unfold sep; cbn; lia.
  - unfold LIM. vm_compute. intuition congruence.
  - intros x [-> | ->]%Hin; vm_compute; congruence.
  - intros a n [<- <-]%lookup_singleton_Some. vm_compute. intuition congruence.
  - intros a n x [<- <-]%lookup_singleton_Some [-> | ->]%Hin; unfold apart; cbn; lia.
  - intros a n b m [<- <-]%lookup_singleton_Some [<- <-]%lookup_singleton_Some; congruence.
  - vm_compute. intuition congruence.
  - exists (4096, 0). split; [left|vm_compute; reflexivity].
  - intros a n [<- <-]%lookup_singleton_Some. vm_compute. reflexivity.
Qed.
Lemma ex_client : client 4096 ex_room (<[80768 := 64]> (<[81792 := 8]> ∅)) (ex_malloc 1000 ex_heap).
Proof.
  change (<[80768 := 64]> (<[81792 := 8]> ∅)) with (if 80784 =? 0 then <[81792 := 8]> ∅ else <[80784 - 16 := nunits_of 1000]> (<[81792 := 8]> (∅ : gmap Z Z))).
  apply (cl_malloc _ _ _ ex_heap 1000 80784); [|lia|apply ex_malloced2].
  change (<[81792 := 8]> ∅) with (if 81808 =? 0 then ∅ else <[81808 - 16 := nunits_of 100]> (∅ : gmap Z Z)).
  apply (cl_malloc _ _ _ ex_start 100 81808); [apply cl_start, ex_unused|lia|apply ex_malloced].
Qed.

(** ** The claims *)
(** C24: free gives a block back: afterwards the bytes of the block are free and
    no other byte has become free or been lost, the blocks still given out keep
    their sizes and every word the program stored in them, and the free list is
    again a ring sorted by address in which no two neighbours touch. *)
Theorem free_correct base A l a n s : heap base A l s -> A !! a = Some n ->
  exists s' l', free (a + 16) s = Ret tt s' /\ heap base (delete a A) l' s' /\ u_brk s' = u_brk s /\
    (forall w, in_free l' w <-> in_free l w \/ a <= w < a + 16 * n) /\ same_payload (delete a A) s s'.
Proof.
  intros HP Ha. assert (W : wp (free (a + 16)) (fun _ s' => exists k1 y k2, freed base A l a n s s' k1 y k2) s) by (eapply wp_free; eauto).
  apply wp_elim in W as ([] & s' & E & k1 & y & k2 & [F1 F2 F3 F4 F5 F6]). exists s', (k1 ++ y :: k2). done.
Qed.

Lemma free_correct_witness : exists s' l', free (81792 + 16) ex_heap = Ret tt s' /\ heap 4096 (delete 81792 {[81792 := 8]}) l' s' /\ u_brk s' = u_brk ex_heap /\
  (forall w, in_free l' w <-> in_free [(4096, 0); (16384, 4088)] w \/ 81792 <= w < 81792 + 16 * 8) /\ same_payload (delete 81792 {[81792 := 8]}) ex_heap s'.
Proof. apply (free_correct 4096 {[81792 := 8]} [(4096, 0); (16384, 4088)] 81792 8 ex_heap); [apply ex_heap_ok|apply lookup_singleton_eq]. Defined.

(** C23: malloc returns, for any request below 2 GB on any heap.  It returns 0, and
    changes nothing, only when no free block is large enough and the kernel
    refuses to grow the process.  Otherwise it returns the address behind the
    header of a new block of at least the bytes asked for, taken from the free
    bytes, to which the kernel adds at least 64 KB only when no free block was
    large enough; the other blocks keep their place and what is stored in them. *)
Theorem malloc_correct base room A l s nbytes :
  (forall b n, room b n = true -> b + n <= LIM) -> 0 <= nbytes < 2 ^ 31 - 64 -> heap base A l (opened base s) ->
  nbytes <= 16 * (nunits_of nbytes - 1) < nbytes + 16 /\
  exists r s', malloc base room nbytes s = Ret r s' /\ malloced base room A (nunits_of nbytes) l (opened base s) r s'.
Proof.
  intros Hr Hn HP. split; [unfold nunits_of, sizeof_Header; rewrite u32_small by zmod; zmod|].
  assert (W : wp (malloc base room nbytes) (malloced base room A (nunits_of nbytes) l (opened base s)) s) by (eapply wp_malloc; eauto). by apply wp_elim in W.
Qed.

Lemma malloc_correct_witness : exists r s', malloc 4096 ex_room 1000 ex_heap = Ret r s' /\ malloced 4096 ex_room {[81792 := 8]} (nunits_of 1000) [(4096, 0); (16384, 4088)] (opened 4096 ex_heap) r s'.
Proof. apply (malloc_correct 4096 ex_room {[81792 := 8]} [(4096, 0); (16384, 4088)] ex_heap 1000); [apply ex_room_ok|lia|rewrite (opened_heap _ _ _ _ ex_heap_ok); apply ex_heap_ok]. Defined.

(** C25: a program that uses only blocks it was given, and frees a block at most
    once, is safe with this allocator: in every state it can reach, the blocks
    it holds lie below the break and do not overlap, malloc and free both return,
    and free leaves what is stored in the other blocks alone. *)
Theorem umalloc_safe base room A s : (forall b n, room b n = true -> b + n <= LIM) -> client base room A s ->
  (forall a n, A !! a = Some n -> base + 16 <= a /\ a + 16 * n <= u_brk s) /\
  (forall a n b m, A !! a = Some n -> A !! b = Some m -> a <> b -> a + 16 * n <= b \/ b + 16 * m <= a) /\
  (forall n, 0 <= n < 2 ^ 31 - 64 -> exists r s', malloc base room n s = Ret r s') /\
  (forall a n, A !! a = Some n -> exists s', free (a + 16) s = Ret tt s' /\ same_payload (delete a A) s s').
Proof.
  intros Hr HC%client_uinv; [|done]. split_and!.
  - intros a n Ha. destruct HC as [[-> _]|[l HP]]; [rewrite lookup_empty in Ha; discriminate Ha|]. by apply (bk_A _ _ _ _ (hp_blocks _ _ _ _ HP)).
  - intros a n b m Ha Hb Hne. destruct HC as [[-> _]|[l HP]]; [rewrite lookup_empty in Ha; discriminate Ha|]. by apply (bk_apart _ _ _ _ (hp_blocks _ _ _ _ HP)).
  - intros n Hn. pose proof (uinv_malloc base room A s n Hr HC Hn) as W. apply wp_elim in W as (r & s' & E & _). eauto.
  - intros a n Ha. pose proof (uinv_free base A s a n HC Ha) as W. apply wp_elim in W as ([] & s' & E & _ & H). eauto.
Qed.

Lemma umalloc_safe_witness : client 4096 ex_room (<[80768 := 64]> (<[81792 := 8]> ∅)) (ex_malloc 1000 ex_heap) /\
  exists s', free (80768 + 16) (ex_malloc 1000 ex_heap) = Ret tt s' /\ same_payload (delete 80768 (<[80768 := 64]> (<[81792 := 8]> ∅))) (ex_malloc 1000 ex_heap) s'.
Proof. split; [apply ex_client|]. apply (umalloc_safe 4096 ex_room _ _ ex_room_ok ex_client) with (n := 64). apply lookup_insert_eq. Defined.

