(* ===== verification/Ulib.v ===== *)
(** * user/ulib.c: string functions of the user library

    Strings are lists of bytes without their NUL.  [gets] takes the bytes the
    reads of file 0 deliver. *)
From S2P Require Import Prelude.

(** The position of the first [c]; a NUL is never found. *)
Fixpoint strchr (s : list Z) (c : Z) : option nat :=
  match s with
  | [] => None
  | x :: s' => if x =? 0 then None else if x =? c then Some 0%nat else S <$> strchr s' c
  end.

Fixpoint strcmp (p q : list Z) : Z :=
  match p, q with
  | [], [] => 0
  | [], y :: _ => - y
  | x :: _, [] => x
  | x :: p', y :: q' => if x =? y then strcmp p' q' else x - y
  end.

Fixpoint atoi_from (n : Z) (s : list Z) : Z :=
  match s with
  | x :: s' => if (48 <=? x) && (x <=? 57) then atoi_from (s32 (n * 10 + x - 48)) s' else n
  | [] => n
  end.
Definition atoi (s : list Z) : Z := atoi_from 0 s.

(** At most [max - 1] bytes, up to and with the first newline or carriage return. *)
Fixpoint gets_from (n : nat) (inp : list Z) : list Z :=
  match n, inp with
  | S n', c :: inp' => if (c =? 10) || (c =? 13) then [c] else c :: gets_from n' inp'
  | _, _ => []
  end.
Definition gets (max : nat) (inp : list Z) : list Z := gets_from (max - 1) inp.
