(* ===== verification/Grep.v ===== *)
(** * user/grep.c

    The matcher, and the search of a buffer for lines.  Strings are lists of bytes
    without their NUL.  What a pattern means is defined apart from the matcher,
    which is proved to agree with it; the program itself is in UserProgs. *)
From S2P Require Import Prelude Ulib.

Definition star : Z := 42.
Definition dot : Z := 46.
Definition dollar : Z := 36.
Definition caret : Z := 94.
Definition nl : Z := 10.

(** ** The matcher *)

(** matchstar's loop, with matchhere of the rest of the pattern as a parameter. *)
Fixpoint matchstar (c : Z) (here : list Z -> bool) (text : list Z) : bool :=
  if here text then true
  else
    match text with
    | [] => false
    | x :: text' => if (x =? c) || (c =? dot) then matchstar c here text' else false
    end.

Fixpoint matchhere (re text : list Z) {struct re} : bool :=
  match re with
  | [] => true
  | r0 :: re1 =>
      let next :=
        match text with
        | x :: text' => if (r0 =? dot) || (r0 =? x) then matchhere re1 text' else false
        | [] => false
        end in
      match re1 with
      | r1 :: re2 => if r1 =? star then matchstar r0 (matchhere re2) text else next
      | [] => if r0 =? dollar then match text with [] => true | _ => false end else next
      end
  end.

(** match's loop over the suffixes of the text. *)
Fixpoint matchany (re text : list Z) : bool :=
  if matchhere re text then true
  else match text with [] => false | _ :: text' => matchany re text' end.

Definition match_ (re text : list Z) : bool :=
  match re with
  | r0 :: re' => if r0 =? caret then matchhere re' text else matchany re text
  | [] => matchany re text
  end.

(** ** Lines *)

(** The inner loop of grep from [p] on: what is written, and what is left. *)
Fixpoint grep_lines (n : nat) (pattern p : list Z) : list Z * list Z :=
  match n with
  | O => ([], p)
  | S n' =>
      match strchr p nl with
      | None => ([], p)
      | Some q =>
          let out := if match_ pattern (take q p) then take (S q) p else [] in
          let r := grep_lines n' pattern (drop (S q) p) in
          (out ++ r.1, r.2)
      end
  end.

(** ** What a pattern means *)

Inductive item := One (c : Z) | Many (c : Z).

(** The items of a pattern without its caret, and whether it ends in a dollar. *)
Fixpoint parse (re : list Z) : list item * bool :=
  match re with
  | [] => ([], false)
  | r0 :: re1 =>
      match re1 with
      | [] => if r0 =? dollar then ([], true) else ([One r0], false)
      | r1 :: re2 =>
          if r1 =? star then let r := parse re2 in (Many r0 :: r.1, r.2)
          else let r := parse re1 in (One r0 :: r.1, r.2)
      end
  end.

(** [c] stands for the byte [x]. *)
Definition covers (c x : Z) : Prop := c = dot \/ c = x.

Inductive denotes : list item -> list Z -> Prop :=
| denotes_nil : denotes [] []
| denotes_one c x l w : covers c x -> denotes l w -> denotes (One c :: l) (x :: w)
| denotes_many c l u w : Forall (covers c) u -> denotes l w -> denotes (Many c :: l) (u ++ w).

(** Some part of the line is in the pattern's language: at the start of the line
    for a caret, at its end for a dollar. *)
Definition selects (re line : list Z) : Prop :=
  let anchored := bool_decide (head re = Some caret) in
  let r := parse (if anchored then tail re else re) in
  exists pre w post, line = pre ++ w ++ post /\ denotes r.1 w /\
    (anchored = true -> pre = []) /\ (r.2 = true -> post = []).

(** The complete lines of a text, and what follows the last newline. *)
Fixpoint lines (l : list Z) : list (list Z) * list Z :=
  match l with
  | [] => ([], [])
  | x :: l' =>
      let r := lines l' in
      if x =? nl then ([] :: r.1, r.2)
      else match r.1 with
           | [] => ([], x :: r.2)
           | li :: ls => ((x :: li) :: ls, r.2)
           end
  end.

(** ** The matcher agrees with the meaning *)
Lemma matchstar_spec c here text :
  matchstar c here text = true <-> exists u v, text = u ++ v /\ Forall (covers c) u /\ here v = true.
Proof.
  induction text as [|x text IH]; simpl.
  - destruct (here []) eqn:E; split; try done.
    + intros _. by exists [], [].
    + intros (u & v & Ht & _ & Hh). destruct u; [|done]. simpl in Ht. subst. congruence.
  - destruct (here (x :: text)) eqn:E.
    { split; [|done]. intros _. by exists [], (x :: text). }
    destruct ((x =? c) || (c =? dot)) eqn:Ec.
    + rewrite IH. split.
      * intros (u & v & -> & Hu & Hh). exists (x :: u), v. split_and!; [done| |done]. constructor; [|done].
        unfold covers. apply orb_true_iff in Ec as [->%Z.eqb_eq| ->%Z.eqb_eq]; tauto.
      * intros ([|y u] & v & Ht & Hu & Hh); simpl in Ht; [subst; congruence|]. injection Ht as <- ->.
        apply Forall_cons in Hu as [_ Hu]. by exists u, v.
    + split; [done|]. intros ([|y u] & v & Ht & Hu & Hh); simpl in Ht; [subst; congruence|]. injection Ht as <- ->.
      apply Forall_cons in Hu as [Hx _]. apply orb_false_iff in Ec as [E1%Z.eqb_neq E2%Z.eqb_neq].
      destruct Hx; congruence.
Qed.

(** [text] starts with a word of the items [r.1], up to its end if [r.2]. *)
Definition starts (r : list item * bool) (text : list Z) : Prop :=
  exists w post, text = w ++ post /\ denotes r.1 w /\ (r.2 = true -> post = []).

Lemma starts_one c l d text :
  starts (One c :: l, d) text <-> exists x text', text = x :: text' /\ covers c x /\ starts (l, d) text'.
Proof.
  split.
  - intros (w & post & -> & Hd & He). inversion Hd; subst. simpl. do 2 eexists. split_and!; [done|done|].
    by eexists _, post.
  - intros (x & text' & -> & Hc & w & post & -> & Hd & He). exists (x :: w), post. split_and!; [done| |done].
    by constructor.
Qed.

Lemma starts_many c l d text :
  starts (Many c :: l, d) text <-> exists u v, text = u ++ v /\ Forall (covers c) u /\ starts (l, d) v.
Proof.
  split.
  - intros (w & post & -> & Hd & He). inversion Hd as [| |c' l' u w' Hu Hw]; subst.
    exists u, (w' ++ post). split_and!; [by rewrite app_assoc|done|]. by exists w', post.
  - intros (u & v & -> & Hu & w & post & -> & Hd & He). exists (u ++ w), post. split_and!; [by rewrite app_assoc| |done].
    by constructor.
Qed.

Lemma covers_spec c x : (c =? dot) || (c =? x) = true <-> covers c x.
Proof. rewrite orb_true_iff, !Z.eqb_eq. done. Qed.

(** One more byte of text. *)
Lemma next_spec r0 re1 text :
  (forall t, matchhere re1 t = true <-> starts (parse re1) t) ->
  match text with x :: text' => if (r0 =? dot) || (r0 =? x) then matchhere re1 text' else false | [] => false end = true <->
  starts (One r0 :: (parse re1).1, (parse re1).2) text.
Proof.
  intros IH. rewrite starts_one, <- surjective_pairing. destruct text as [|x text'].
  - split; [done|]. by intros (x & text' & ? & _).
  - pose proof (covers_spec r0 x) as Hc. destruct (_ || _).
    + rewrite IH. split; [intros H; exists x, text'; split_and!; [done|by apply Hc|done]|].
      by intros (y & t & [= <- <-] & _ & H).
    + split; [done|]. intros (y & t & [= <- <-] & H & _). by apply Hc in H.
Qed.

Lemma matchhere_spec re : forall text, matchhere re text = true <-> starts (parse re) text.
Proof.
  induction re as [re IH] using (induction_ltof1 _ (@length Z)). unfold ltof in IH. intros text.
  destruct re as [|r0 [|r1 re2]].
  - split; [|done]. intros _. exists [], text. split_and!; [done|constructor|done].
  - cbn [matchhere parse]. destruct (r0 =? dollar) eqn:E.
    + split.
      * destruct text; [|done]. intros _. exists [], []. split_and!; [done|constructor|done].
      * intros (w & post & -> & Hd & He). inversion Hd; subst. by rewrite He.
    + apply (next_spec r0 [] text). apply IH. simpl. lia.
  - cbn [matchhere parse]. fold (matchhere (r1 :: re2)). destruct (r1 =? star) eqn:E.
    + rewrite matchstar_spec, starts_many, <- surjective_pairing.
      split; intros (u & v & -> & Hu & Hv); exists u, v; (split_and!; [done|done|]); by apply (IH re2 ltac:(simpl; lia)).
    + apply (next_spec r0 (r1 :: re2) text). apply IH. simpl. lia.
Qed.

Lemma matchany_spec re text :
  matchany re text = true <-> exists pre t, text = pre ++ t /\ matchhere re t = true.
Proof.
  induction text as [|x text IH]; cbn [matchany].
  - destruct (matchhere re []) eqn:E; split; try done.
    + intros _. by exists [], [].
    + intros ([|] & t & Ht & H); [|done]. simpl in Ht. subst. congruence.
  - destruct (matchhere re (x :: text)) eqn:E; [split; [|done]; intros _; by exists [], (x :: text)|].
    rewrite IH. split.
    + intros (pre & t & -> & H). by exists (x :: pre), t.
    + intros ([|y pre] & t & Ht & H); simpl in Ht; [subst; congruence|]. injection Ht as <- ->. by exists pre, t.
Qed.

Lemma match_spec re line : match_ re line = true <-> selects re line.
Proof.
  assert (Hany : forall re', matchany re' line = true <->
    exists pre w post, line = pre ++ w ++ post /\ denotes (parse re').1 w /\ (false = true -> pre = []) /\ ((parse re').2 = true -> post = [])).
  { intros re'. rewrite matchany_spec. split.
    - intros (pre & t & -> & (w & post & -> & Hd & He)%matchhere_spec). by exists pre, w, post.
    - intros (pre & w & post & -> & Hd & _ & He). exists pre, (w ++ post). split; [done|]. apply matchhere_spec. by exists w, post. }
  unfold match_, selects. destruct re as [|r0 re']; [apply Hany|]. cbn [head tail].
  destruct (Z.eqb_spec r0 caret) as [->|Hne].
  - rewrite bool_decide_eq_true_2 by done. rewrite matchhere_spec. split.
    + intros (w & post & -> & Hd & He). by exists [], w, post.
    + intros (pre & w & post & -> & Hd & Hp & He). rewrite Hp by done. by exists w, post.
  - rewrite bool_decide_eq_false_2 by congruence. apply Hany.
Qed.

(** ** Lines and reads *)
Lemma lines_cons x l :
  lines (x :: l) = if x =? nl then ([] :: (lines l).1, (lines l).2)
    else match (lines l).1 with [] => ([], x :: (lines l).2) | li :: ls => ((x :: li) :: ls, (lines l).2) end.
Proof. reflexivity. Qed.

Lemma lines_app a b : lines (a ++ b) = ((lines a).1 ++ (lines ((lines a).2 ++ b)).1, (lines ((lines a).2 ++ b)).2).
Proof.
  induction a as [|x a IH]; [cbn [app lines fst snd]; by destruct (lines b)|]. cbn [app]. rewrite !lines_cons, IH.
  destruct (x =? nl) eqn:E; [done|]. cbn [fst snd]. destruct (lines a) as [[|li ls] t]; cbn [fst snd app] in *; [|done].
  rewrite lines_cons, E. by destruct (lines (t ++ b)) as [[|] ?].
Qed.

(** What follows the last newline has no newline. *)
Lemma lines_tail l : lines (lines l).2 = ([], (lines l).2).
Proof.
  induction l as [|x l IH]; [done|]. rewrite lines_cons. destruct (x =? nl) eqn:E; [done|].
  destruct (lines l) as [[|li ls] t] eqn:El; cbn [fst snd] in *; [|done]. by rewrite lines_cons, IH, E.
Qed.

Lemma lines_none_app a b : lines a = ([], a) ->
  lines (a ++ b) = match (lines b).1 with [] => ([], a ++ (lines b).2) | li :: ls => ((a ++ li) :: ls, (lines b).2) end.
Proof.
  induction a as [|x a IH]; intros Ha; [cbn [app]; by destruct (lines b) as [[|]]|]. rewrite lines_cons in Ha. cbn [app]. rewrite lines_cons.
  destruct (x =? nl); [done|]. destruct (lines a) as [[|] t]; [|done]. injection Ha as ->. rewrite IH by done.
  by destruct (lines b) as [[|]].
Qed.

Lemma strchr_lines p : Forall (fun c => c <> 0) p ->
  match strchr p nl with
  | None => lines p = ([], p)
  | Some q => p = take q p ++ nl :: drop (S q) p /\
      lines p = (take q p :: (lines (drop (S q) p)).1, (lines (drop (S q) p)).2)
  end.
Proof.
  induction p as [|x p IH]; intros Hp; [done|]. apply Forall_cons in Hp as [Hx Hp]. cbn [strchr].
  rewrite (proj2 (Z.eqb_neq _ _)) by done. rewrite lines_cons. destruct (Z.eqb_spec x nl) as [->|Hne]; [done|].
  specialize (IH Hp). destruct (strchr p nl) as [q|]; cbn [fmap option_fmap option_map].
  - destruct IH as [E1 E2]. split; [cbn [take drop app]; by f_equal|]. by rewrite E2.
  - by rewrite IH.
Qed.

(** The lines a pattern selects, with their newlines. *)
Definition selected (pattern : list Z) (ls : list (list Z)) : list Z :=
  flat_map (fun l => if match_ pattern l then l ++ [nl] else []) ls.

Lemma grep_lines_spec pattern n : forall p, Forall (fun c => c <> 0) p -> (length p <= n)%nat ->
  grep_lines n pattern p = (selected pattern (lines p).1, (lines p).2).
Proof.
  induction n as [|n IH]; intros p Hp Hn; [by destruct p; [|simpl in Hn; lia]|]. cbn [grep_lines].
  pose proof (strchr_lines p Hp) as Hs. destruct (strchr p nl) as [q|]; [|by rewrite Hs].
  destruct Hs as [E1 E2]. pose proof (f_equal length E1) as EL. rewrite length_app, length_take in EL. cbn [length] in EL.
  rewrite length_drop in EL.
  rewrite IH by (by apply Forall_drop || (rewrite length_drop; lia)). rewrite E2. cbn [fst snd selected flat_map]. f_equal. f_equal.
  destruct (match_ pattern (take q p)); [|done]. rewrite E1 at 1.
  assert (Hq : length (take q p) = q).
  { rewrite length_take. lia. }
  rewrite take_app. rewrite Hq. rewrite take_take, Nat.min_r by lia.
  replace (S q - q)%nat with 1%nat by lia. done.
Qed.

(** Every line, also the unterminated last one, is shorter than the buffer. *)
Definition short (l : list Z) : Prop :=
  Forall (fun li => (length li <= 1022)%nat) (lines l).1 /\ (length (lines l).2 <= 1022)%nat.

Lemma short_buf buf inp : lines buf = ([], buf) -> short (buf ++ inp) -> (length buf <= 1022)%nat.
Proof.
  intros Hb [H1 H2]. rewrite lines_none_app in H1, H2 by done.
  destruct (lines inp) as [[|li ls] t]; cbn [fst snd] in *.
  - rewrite length_app in H2. lia.
  - apply Forall_cons in H1 as [H1 _]. rewrite length_app in H1. lia.
Qed.

Lemma lines_nonzero l : Forall (fun c => c <> 0) l -> Forall (fun c => c <> 0) (lines l).2.
Proof.
  induction l as [|x l IH]; [done|]. intros [Hx Hl]%Forall_cons. rewrite lines_cons.
  destruct (x =? nl); [by apply IH|]. destruct (lines l) as [[|] t]; cbn [fst snd] in *; [constructor; [done|]|]; by apply IH.
Qed.
