(* ===== verification/Shell.v ===== *)
(** * user/sh.c: the shell's parser

    The line is a list of bytes without its NUL.  A pointer into it is the rest
    of the line from there on; where the parser keeps one in a command, as the
    start or the end of a word, it is the distance to the end [es] of the line. *)
From S2P Require Import Prelude Fcntl Ulib.

Definition whitespace : list Z := [32; 9; 13; 10; 11].
Definition symbols : list Z := [60; 124; 62; 38; 59; 40; 41].
Definition MAXARGS : nat := 10.

(** [strchr(l, c)] as a truth value. *)
Definition among (l : list Z) (c : Z) : bool := match strchr l c with Some _ => true | None => false end.

(** ** Commands

    [A] is what words are: first pointers to their start and end, then strings. *)
Inductive cmd (A : Type) :=
| EXEC (argv : list A)
| REDIR (c : cmd A) (file : A) (mode fd : Z)
| PIPE (left right : cmd A)
| LIST (left right : cmd A)
| BACK (c : cmd A).
Arguments EXEC {A} argv.
Arguments REDIR {A} c file mode fd.
Arguments PIPE {A} left right.
Arguments LIST {A} left right.
Arguments BACK {A} c.

(** [q] and [eq]. *)
Abbreviation word := (nat * nat)%type.

(** ** Tokens *)
Fixpoint skip_ws (s : list Z) : list Z :=
  match s with
  | c :: s' => if among whitespace c then skip_ws s' else s
  | [] => []
  end.

Fixpoint skip_word (s : list Z) : list Z :=
  match s with
  | c :: s' => if negb (among whitespace c) && negb (among symbols c) then skip_word s' else s
  | [] => []
  end.

(** The token at a character that is not white space, and where it ends. *)
Definition token (s : list Z) : Z * list Z :=
  match s with
  | [] => (0, [])
  | c :: s1 =>
      if among [124; 40; 41; 59; 38; 60] c then (c, s1)
      else if c =? 62 then
        match s1 with
        | d :: s2 => if d =? 62 then (43, s2) else (c, s1)
        | [] => (c, s1)
        end
      else (97, skip_word s)
  end.

(** The token, its [q] and [eq], and where [*ps] is left. *)
Definition gettoken (ps : list Z) : Z * word * list Z :=
  let s := skip_ws ps in
  let '(ret, s1) := token s in
  (ret, (length s, length s1), skip_ws s1).

(** The truth value, and where [*ps] is left. *)
Definition peek (ps : list Z) (toks : list Z) : bool * list Z :=
  let s := skip_ws ps in
  (match s with c :: _ => among toks c | [] => false end, s).

(** ** The parser *)

(** A result with the new [*ps], a panic, or fuel used up. *)
Inductive parsed (A : Type) := POk (a : A) (ps : list Z) | PPanic (msg : string) | PFuel.
Arguments POk {A} a ps.
Arguments PPanic {A} msg.
Arguments PFuel {A}.
Definition pbind {A B : Type} (m : parsed A) (k : A -> list Z -> parsed B) : parsed B :=
  match m with POk a ps => k a ps | PPanic msg => PPanic msg | PFuel => PFuel end.

(** File, mode and descriptor of a redirection. *)
Definition redir : Type := word * Z * Z.
Definition redirected (r : redir) (c : cmd word) : cmd word := REDIR c r.1.1 r.1.2 r.2.

(** The loop of parseredirs: the redirections, innermost first. *)
Fixpoint redirs (n : nat) (ps : list Z) : parsed (list redir) :=
  match n with
  | O => PFuel
  | S n' =>
      let '(b, ps) := peek ps [60; 62] in
      if b then
        let '(tok, _, ps) := gettoken ps in
        let '(a, w, ps) := gettoken ps in
        if negb (a =? 97) then PPanic "missing file for redirection"
        else
          let r := if tok =? 60 then [(w, O_RDONLY, 0)]
                   else if tok =? 62 then [(w, Z.lor (Z.lor O_WRONLY O_CREATE) O_TRUNC, 1)]
                   else if tok =? 43 then [(w, Z.lor O_WRONLY O_CREATE, 1)] else [] in
          pbind (redirs n' ps) (fun l ps => POk (r ++ l) ps)
      else POk [] ps
  end.

Definition parseredirs (n : nat) (c : cmd word) (ps : list Z) : parsed (cmd word) :=
  pbind (redirs n ps) (fun l ps => POk (fold_left (fun c r => redirected r c) l c) ps).

(** The loop of parseexec.  The command whose argv it fills is already inside the
    redirections met so far, so these are kept apart until argv is complete. *)
Fixpoint args (n : nat) (argv : list word) (rs : list redir) (ps : list Z) : parsed (cmd word) :=
  match n with
  | O => PFuel
  | S n' =>
      let '(b, ps) := peek ps [124; 41; 38; 59] in
      let done := fun ps => POk (fold_left (fun c r => redirected r c) rs (EXEC argv)) ps in
      if b then done ps
      else
        let '(tok, w, ps) := gettoken ps in
        if tok =? 0 then done ps
        else if negb (tok =? 97) then PPanic "syntax"
        else
          let argv := argv ++ [w] in
          if (MAXARGS <=? length argv)%nat then PPanic "too many args"
          else pbind (redirs n' ps) (fun l ps => args n' argv (rs ++ l) ps)
  end.

(** The loop of parseline over [&]. *)
Fixpoint backs (n : nat) (c : cmd word) (ps : list Z) : parsed (cmd word) :=
  match n with
  | O => PFuel
  | S n' =>
      let '(b, ps) := peek ps [38] in
      if b then let '(_, _, ps) := gettoken ps in backs n' (BACK c) ps else POk c ps
  end.

Fixpoint parseline (n : nat) (ps : list Z) : parsed (cmd word) :=
  match n with
  | O => PFuel
  | S n' =>
      pbind (parsepipe n' ps) (fun c ps =>
      pbind (backs n' c ps) (fun c ps =>
      let '(b, ps) := peek ps [59] in
      if b then
        let '(_, _, ps) := gettoken ps in
        pbind (parseline n' ps) (fun r ps => POk (LIST c r) ps)
      else POk c ps))
  end
with parsepipe (n : nat) (ps : list Z) : parsed (cmd word) :=
  match n with
  | O => PFuel
  | S n' =>
      pbind (parseexec n' ps) (fun c ps =>
      let '(b, ps) := peek ps [124] in
      if b then
        let '(_, _, ps) := gettoken ps in
        pbind (parsepipe n' ps) (fun r ps => POk (PIPE c r) ps)
      else POk c ps)
  end
with parseexec (n : nat) (ps : list Z) : parsed (cmd word) :=
  match n with
  | O => PFuel
  | S n' =>
      let '(b, ps) := peek ps [40] in
      if b then parseblock n' ps
      else pbind (redirs n' ps) (fun l ps => args n' [] l ps)
  end
with parseblock (n : nat) (ps : list Z) : parsed (cmd word) :=
  match n with
  | O => PFuel
  | S n' =>
      let '(b, ps) := peek ps [40] in
      if negb b then PPanic "parseblock"
      else
        let '(_, _, ps) := gettoken ps in
        pbind (parseline n' ps) (fun c ps =>
        let '(b, ps) := peek ps [41] in
        if negb b then PPanic "syntax - missing )"
        else
          let '(_, _, ps) := gettoken ps in
          parseredirs n' c ps)
  end.

(** nulterminate writes a NUL at the end of every word. *)
Definition put0 (d : nat) (buf : list Z) : list Z := <[(length buf - d)%nat := 0]> buf.
Fixpoint nulterminate (c : cmd word) (buf : list Z) : list Z :=
  match c with
  | EXEC argv => fold_left (fun buf w => put0 w.2 buf) argv buf
  | REDIR c w _ _ => put0 w.2 (nulterminate c buf)
  | PIPE l r | LIST l r => nulterminate r (nulterminate l buf)
  | BACK c => nulterminate c buf
  end.

(** The command and the line after nulterminate. *)
Definition parsecmd (s : list Z) : parsed (cmd word) :=
  pbind (parseline (4 * length s + 4) s) (fun c ps =>
  let '(_, ps) := peek ps [] in
  match ps with [] => POk c (nulterminate c s) | _ :: _ => PPanic "syntax" end).

(** The string a pointer to the line's bytes stands for. *)
Fixpoint cstring (s : list Z) : list Z :=
  match s with c :: s' => if c =? 0 then [] else c :: cstring s' | [] => [] end.
Definition string_at (buf : list Z) (w : word) : list Z := cstring (drop (length buf - w.1) buf).

Fixpoint cmd_map {A B : Type} (f : A -> B) (c : cmd A) : cmd B :=
  match c with
  | EXEC argv => EXEC (map f argv)
  | REDIR c w m fd => REDIR (cmd_map f c) (f w) m fd
  | PIPE l r => PIPE (cmd_map f l) (cmd_map f r)
  | LIST l r => LIST (cmd_map f l) (cmd_map f r)
  | BACK c => BACK (cmd_map f c)
  end.

Lemma among_spec l c : Forall (fun x => x <> 0) l -> among l c = true <-> c ∈ l.
Proof.
  unfold among. induction l as [|x l IH]; intros Hl; cbn [strchr]; [by rewrite elem_of_nil|].
  apply Forall_cons in Hl as [Hx Hl]. rewrite (proj2 (Z.eqb_neq x 0)) by done. rewrite elem_of_cons, <- IH by done.
  destruct (Z.eqb_spec x c) as [->|]; [tauto|]. destruct (strchr l c); simpl; naive_solver.
Qed.

(** A character of a word. *)
Definition wchar (c : Z) : bool := negb (among whitespace c) && negb (among symbols c).

Lemma symbols_split c : among [124; 40; 41; 59; 38; 60] c = false -> c =? 62 = false -> among symbols c = false.
Proof.
  intros H1 H2%Z.eqb_neq. apply not_true_iff_false in H1. apply not_true_iff_false. rewrite among_spec in * by (repeat constructor; done).
  unfold symbols. set_solver.
Qed.

(** ** Every line is parsed: the fuel is enough *)
Definition within {A : Type} (k : nat) (m : parsed A) : Prop :=
  match m with POk _ ps => (length ps <= k)%nat | PPanic _ => True | PFuel => False end.

Lemma within_bind {A B : Type} k k' (m : parsed A) (f : A -> list Z -> parsed B) :
  within k m -> (forall a ps, (length ps <= k)%nat -> within k' (f a ps)) -> within k' (pbind m f).
Proof. destruct m; simpl; auto. Qed.

Lemma skip_ws_le s : (length (skip_ws s) <= length s)%nat.
Proof. induction s as [|c s IH]; simpl; [lia|]. destruct (among whitespace c); simpl; lia. Qed.

Lemma skip_word_le s : (length (skip_word s) <= length s)%nat.
Proof. induction s as [|c s IH]; simpl; [lia|]. destruct (_ && _); simpl; lia. Qed.

Lemma skip_ws_head s c s' : skip_ws s = c :: s' -> among whitespace c = false.
Proof. induction s as [|x s IH]; simpl; [done|]. destruct (among whitespace x) eqn:E; [done|]. by intros [= <- <-]. Qed.

Lemma skip_ws_id s : skip_ws (skip_ws s) = skip_ws s.
Proof.
  induction s as [|c s IH]; simpl; [done|]. destruct (among whitespace c) eqn:E; [done|]. simpl. by rewrite E.
Qed.

(** A token is at least one character. *)
Lemma token_lt c s : among whitespace c = false -> (length (token (c :: s)).2 < S (length s))%nat.
Proof.
  intros Hc. unfold token. destruct (among [124; 40; 41; 59; 38; 60] c) eqn:E1; [simpl; lia|].
  destruct (c =? 62) eqn:E2; [destruct s as [|d s]; [simpl; lia|]; destruct (d =? 62); simpl; lia|].
  cbn [skip_word snd]. rewrite Hc. replace (among symbols c) with false.
  - cbn [negb andb]. pose proof (skip_word_le s). lia.
  - symmetry. by apply symbols_split.
Qed.

Lemma gettoken_le s : (length (gettoken s).2 <= length s)%nat.
Proof.
  unfold gettoken. pose proof (skip_ws_le s) as H1. destruct (skip_ws s) as [|c s1] eqn:E; [simpl; lia|].
  pose proof (token_lt c s1 (skip_ws_head _ _ _ E)) as H2. destruct (token (c :: s1)) as [t s2]. cbn [snd] in *.
  pose proof (skip_ws_le s2). simpl in H1. lia.
Qed.

Lemma gettoken_lt s c s1 : skip_ws s = c :: s1 -> (length (gettoken s).2 < length s)%nat.
Proof.
  unfold gettoken. intros E. rewrite E. pose proof (skip_ws_le s) as H1. rewrite E in H1.
  pose proof (token_lt c s1 (skip_ws_head _ _ _ E)) as H2. destruct (token (c :: s1)) as [t s2]. cbn [snd] in *.
  pose proof (skip_ws_le s2). simpl in H1. lia.
Qed.

Lemma peek_gettoken s toks : (peek s toks).1 = true -> (length (gettoken (peek s toks).2).2 < length s)%nat.
Proof.
  unfold peek. cbn [fst snd]. destruct (skip_ws s) as [|c s1] eqn:E; [done|]. intros _.
  pose proof (skip_ws_le s). rewrite E in H. pose proof (gettoken_lt (c :: s1) c s1) as G.
  rewrite <- E, skip_ws_id in G. specialize (G eq_refl). rewrite E in G. lia.
Qed.

(** A token that is not 0 has consumed something. *)
Lemma gettoken_nonzero s : (gettoken s).1.1 =? 0 = false -> (length (gettoken s).2 < length s)%nat.
Proof.
  intros H. destruct (skip_ws s) as [|c s1] eqn:E; [unfold gettoken in H; by rewrite E in H|]. by eapply gettoken_lt.
Qed.

Lemma redirs_within n : forall s, (length s < n)%nat -> within (length s) (redirs n s).
Proof.
  induction n as [|n IH]; intros s Hn; [lia|]. cbn [redirs]. pose proof (peek_gettoken s [60; 62]) as Hp.
  pose proof (skip_ws_le s). destruct (peek s [60; 62]) as [b s1] eqn:E. cbn [fst snd] in Hp.
  assert (Hs1 : s1 = skip_ws s) by (unfold peek in E; congruence). destruct b; [|subst; done]. specialize (Hp eq_refl).
  destruct (gettoken s1) as [[tok w0] s2]. cbn [snd] in Hp. pose proof (gettoken_le s2) as H2.
  destruct (gettoken s2) as [[a w] s3]. cbn [snd] in H2. destruct (negb (a =? 97)); [done|].
  eapply within_bind; [apply IH; lia|]. intros l ps Hl. simpl. lia.
Qed.

Lemma args_within n : forall argv rs s, (length s < n)%nat -> within (length s) (args n argv rs s).
Proof.
  induction n as [|n IH]; intros argv rs s Hn; [lia|]. cbn [args]. unfold peek. pose proof (skip_ws_le s) as H1.
  destruct (match skip_ws s with c :: _ => among [124; 41; 38; 59] c | [] => false end); [simpl; lia|].
  pose proof (gettoken_le (skip_ws s)) as H2. pose proof (gettoken_nonzero (skip_ws s)) as H3.
  destruct (gettoken (skip_ws s)) as [[tok w] s2]. cbn [fst snd] in *.
  destruct (tok =? 0); [simpl; lia|]. specialize (H3 eq_refl). destruct (negb (tok =? 97)); [done|].
  destruct (MAXARGS <=? _)%nat; [done|]. eapply within_bind; [apply redirs_within; lia|].
  intros l ps Hl. assert (G : within (length ps) (args n (argv ++ [w]) (rs ++ l) ps)) by (apply IH; lia).
  destruct (args n (argv ++ [w]) (rs ++ l) ps); simpl in *; [lia|done|done].
Qed.

Lemma backs_within n : forall c s, (length s < n)%nat -> within (length s) (backs n c s).
Proof.
  induction n as [|n IH]; intros c s Hn; [lia|]. cbn [backs]. pose proof (peek_gettoken s [38]) as Hp.
  pose proof (skip_ws_le s). destruct (peek s [38]) as [b s1] eqn:E. cbn [fst snd] in Hp.
  assert (Hs1 : s1 = skip_ws s) by (unfold peek in E; congruence). destruct b; [|subst; done]. specialize (Hp eq_refl).
  destruct (gettoken s1) as [[tok w0] s2]. cbn [snd] in Hp.
  assert (G : within (length s2) (backs n (BACK c) s2)) by (apply IH; lia).
  destruct (backs n (BACK c) s2); simpl in *; [lia|done|done].
Qed.

Lemma parse_within n :
  (forall s, (4 * length s + 4 <= n)%nat -> within (length s) (parseline n s)) /\
  (forall s, (4 * length s + 3 <= n)%nat -> within (length s) (parsepipe n s)) /\
  (forall s, (4 * length s + 2 <= n)%nat -> within (length s) (parseexec n s)) /\
  (forall s, (4 * length s + 1 <= n)%nat -> within (length s) (parseblock n s)).
Proof.
  induction n as [|n (IL & IP & IE & IB)]; [split_and!; intros; lia|]. split_and!; intros s Hn.
  - cbn [parseline]. eapply within_bind; [apply IP; lia|]. intros c ps Hps.
    eapply within_bind; [apply (backs_within n c ps); lia|]. intros c' ps' Hps'.
    pose proof (peek_gettoken ps' [59]) as Hp. pose proof (skip_ws_le ps') as Hs. destruct (peek ps' [59]) as [b s1] eqn:E.
    cbn [fst snd] in Hp. assert (Hs1 : s1 = skip_ws ps') by (unfold peek in E; congruence).
    destruct b; [|subst; simpl; lia]. specialize (Hp eq_refl). destruct (gettoken s1) as [[tok w] s2]. cbn [snd] in Hp.
    eapply within_bind; [apply IL; lia|]. intros r ps2 Hps2. simpl. lia.
  - cbn [parsepipe]. eapply within_bind; [apply IE; lia|]. intros c ps' Hps'.
    pose proof (peek_gettoken ps' [124]) as Hp. pose proof (skip_ws_le ps') as Hs. destruct (peek ps' [124]) as [b s1] eqn:E.
    cbn [fst snd] in Hp. assert (Hs1 : s1 = skip_ws ps') by (unfold peek in E; congruence).
    destruct b; [|subst; simpl; lia]. specialize (Hp eq_refl). destruct (gettoken s1) as [[tok w] s2]. cbn [snd] in Hp.
    eapply within_bind; [apply IP; lia|]. intros r ps2 Hps2. simpl. lia.
  - cbn [parseexec]. unfold peek. pose proof (skip_ws_le s) as Hs.
    destruct (match skip_ws s with c :: _ => among [40] c | [] => false end).
    + assert (G : within (length (skip_ws s)) (parseblock n (skip_ws s))) by (apply IB; lia).
      destruct (parseblock n (skip_ws s)); simpl in *; [lia|done|done].
    + eapply within_bind; [apply redirs_within; lia|]. intros l ps Hps.
      assert (G : within (length ps) (args n [] l ps)) by (apply args_within; lia).
      destruct (args n [] l ps); simpl in *; [lia|done|done].
  - cbn [parseblock]. pose proof (peek_gettoken s [40]) as Hp. destruct (peek s [40]) as [b s1].
    cbn [fst snd] in Hp. destruct b; [|done]. specialize (Hp eq_refl). destruct (gettoken s1) as [[tok w] s2]. cbn [snd negb] in *.
    eapply within_bind; [apply IL; lia|]. intros c ps Hps.
    pose proof (peek_gettoken ps [41]) as Hp'. destruct (peek ps [41]) as [b' s3]. cbn [fst snd] in Hp'.
    destruct b'; [|done]. specialize (Hp' eq_refl). destruct (gettoken s3) as [[tok' w'] s4]. cbn [snd negb] in *.
    unfold parseredirs. eapply within_bind; [apply redirs_within; lia|]. intros l ps' Hps'. simpl. lia.
Qed.

(** ** Words *)
Fixpoint words {A : Type} (c : cmd A) : list A :=
  match c with
  | EXEC argv => argv
  | REDIR c w _ _ => words c ++ [w]
  | PIPE l r | LIST l r => words l ++ words r
  | BACK c => words c
  end.

(** The word starts somewhere in the line and extends as far as it can. *)
Definition word_ok (s0 : list Z) (w : word) : Prop :=
  exists u, u `suffix_of` s0 /\ w = (length u, length (skip_word u)).
Definition text (s0 : list Z) (w : word) : list Z := take (w.1 - w.2) (drop (length s0 - w.1) s0).

Lemma nulterminate_fold c : forall buf, nulterminate c buf = fold_left (fun b w => put0 w.2 b) (words c) buf.
Proof.
  induction c as [argv|c IH w m fd|l IHl r IHr|l IHl r IHr|c IH]; intros buf; cbn [nulterminate words];
    rewrite ?fold_left_app; cbn [fold_left]; congruence.
Qed.

Lemma put0s_length ws : forall buf, length (fold_left (fun b (w : word) => put0 w.2 b) ws buf) = length buf.
Proof. induction ws as [|w ws IH]; intros buf; cbn [fold_left]; [done|]. rewrite IH. apply length_insert. Qed.

Lemma put0s_lookup n ws i : forall buf : list Z, length buf = n -> (i < n)%nat ->
  fold_left (fun b (w : word) => put0 w.2 b) ws buf !! i =
  if decide (Exists (fun w : word => (n - w.2)%nat = i) ws) then Some 0 else buf !! i.
Proof.
  induction ws as [|w ws IH]; intros buf Hn Hi; cbn [fold_left].
  - rewrite decide_False; [done|]. by intros ?%Exists_nil.
  - rewrite IH by (unfold put0; by rewrite ?length_insert).
    destruct (decide (Exists _ ws)) as [H|Hne].
    + rewrite decide_True; [done|]. apply Exists_cons. by right.
    + unfold put0. rewrite Hn. destruct (decide ((n - w.2)%nat = i)) as [E|E].
      * rewrite decide_True by (apply Exists_cons; by left). rewrite E. rewrite list_lookup_insert_eq; [done|lia].
      * rewrite decide_False; [by rewrite list_lookup_insert_ne|]. intros [?|?]%Exists_cons; done.
Qed.

Lemma skip_word_spec u :
  let k := (length u - length (skip_word u))%nat in
  skip_word u = drop k u /\ Forall (fun c => wchar c = true) (take k u) /\
  match skip_word u with c :: _ => wchar c = false | [] => True end.
Proof.
  induction u as [|c u IH]; [done|]. cbn [skip_word]. fold (wchar c). destruct (wchar c) eqn:E.
  - destruct IH as (H1 & H2 & H3). pose proof (skip_word_le u).
    replace (length (c :: u) - length (skip_word u))%nat with (S (length u - length (skip_word u))) by (simpl; lia).
    split_and!; [done|by constructor|done].
  - rewrite Nat.sub_diag. split_and!; [done|constructor|done].
Qed.

(** The end of a word is not inside a word. *)
Lemma word_end s0 w c : word_ok s0 w -> s0 !! (length s0 - w.2)%nat = Some c -> wchar c = false.
Proof.
  intros (u & [pre ->] & ->). cbn [snd]. destruct (skip_word_spec u) as (H1 & _ & H3). pose proof (skip_word_le u).
  rewrite length_app. rewrite lookup_app_r by lia.
  replace (length pre + length u - length (skip_word u) - length pre)%nat with (length u - length (skip_word u))%nat by lia.
  rewrite <- (Nat.add_0_r (_ - _)), <- lookup_drop, <- H1. destruct (skip_word u); [done|]. by intros [= <-].
Qed.

Lemma cstring_take k : forall l, Forall (fun c => c <> 0) (take k l) -> l !! k = None \/ l !! k = Some 0 ->
  cstring l = take k l.
Proof.
  induction k as [|k IH]; intros [|c l]; try done.
  - intros _ [H|H]; [done|]. by injection H as ->.
  - cbn [take lookup list_lookup cstring]. intros [Hc Hl]%Forall_cons Hk. rewrite (proj2 (Z.eqb_neq _ _)) by done. f_equal. by apply IH.
Qed.

Lemma string_text s0 c w :
  Forall (fun x => x <> 0) s0 -> Forall (word_ok s0) (words c) -> w ∈ words c ->
  string_at (nulterminate c s0) w = text s0 w.
Proof.
  intros Hz Hw Hin. rewrite nulterminate_fold. set (b := fold_left _ _ _).
  assert (Hb : length b = length s0) by apply put0s_length. unfold string_at, text. rewrite Hb.
  pose proof (proj1 (Forall_forall _ _) Hw w Hin) as (u & [pre E] & ->). cbn [fst snd] in *.
  destruct (skip_word_spec u) as (H1 & H2 & _). set (k := (length u - length (skip_word u))%nat) in *. pose proof (skip_word_le u).
  assert (Ed : drop (length s0 - length u) s0 = u).
  { rewrite E, length_app. replace (length pre + length u - length u)%nat with (length pre) by lia. apply drop_app_length. }
  assert (Hlen : length s0 = (length pre + length u)%nat) by (by rewrite E, length_app).
  assert (Et : take k (drop (length s0 - length u) b) = take k u).
  { apply list_eq. intros j. destruct (decide (j < k)%nat) as [Hj|Hj].
    2: { rewrite !lookup_take_ge by lia. done. }
    rewrite !lookup_take_lt, lookup_drop by lia. unfold b. rewrite (put0s_lookup (length s0)) by (done || lia).
    assert (Eu : u !! j = s0 !! (length s0 - length u + j)%nat) by (rewrite <- lookup_drop; by rewrite Ed).
    rewrite decide_False; [done|]. intros (w' & Hw' & Hpos)%Exists_exists.
    pose proof (proj1 (Forall_forall _ _) Hw w' Hw') as Hok. destruct (lookup_lt_is_Some_2 u j) as [x Hx]; [lia|].
    rewrite Eu, <- Hpos in Hx. pose proof (word_end s0 w' x Hok Hx) as Hf. rewrite Hpos, <- Eu in Hx.
    assert (Hy : take k u !! j = Some x) by by rewrite lookup_take_lt.
    pose proof (Forall_lookup_1 _ _ _ _ H2 Hy). congruence. }
  rewrite Ed. rewrite (cstring_take k); [done| |].
  - rewrite Et. apply Forall_take. rewrite E in Hz. by apply Forall_app in Hz as [_ ?].
  - rewrite lookup_drop. destruct (decide (length s0 - length u + k < length s0)%nat) as [Hlt|Hge].
    + right. unfold b. rewrite (put0s_lookup (length s0)) by (done || lia). rewrite decide_True; [done|]. apply Exists_exists.
      exists (length u, length (skip_word u)). split; [done|]. cbn [snd]. lia.
    + left. apply lookup_ge_None_2. lia.
Qed.

(** ** The words of a parsed command are words of the line *)
Section Sound.
Context (s0 : list Z).

Definition sound {A : Type} (P : A -> Prop) (m : parsed A) : Prop :=
  match m with POk a ps => ps `suffix_of` s0 /\ P a | _ => True end.

Lemma sound_bind {A B : Type} (P : A -> Prop) (P' : B -> Prop) (m : parsed A) (f : A -> list Z -> parsed B) :
  sound P m -> (forall a ps, ps `suffix_of` s0 -> P a -> sound P' (f a ps)) -> sound P' (pbind m f).
Proof. destruct m; simpl; naive_solver. Qed.

Lemma suffix_skip_ws s : skip_ws s `suffix_of` s.
Proof. induction s as [|c s IH]; simpl; [done|]. destruct (among whitespace c); [by apply suffix_cons_r|done]. Qed.
Lemma suffix_skip_word s : skip_word s `suffix_of` s.
Proof. induction s as [|c s IH]; simpl; [done|]. destruct (_ && _); [by apply suffix_cons_r|done]. Qed.

Lemma suffix_token s : (token s).2 `suffix_of` s.
Proof.
  destruct s as [|c s]; [done|]. unfold token. destruct (among _ c); [by apply suffix_cons_r|].
  destruct (c =? 62); [|apply suffix_skip_word]. destruct s as [|d s]; [by apply suffix_cons_r|].
  destruct (d =? 62); [do 2 apply suffix_cons_r; done|by apply suffix_cons_r].
Qed.

Lemma peek_sound s toks : s `suffix_of` s0 -> (peek s toks).2 `suffix_of` s0.
Proof. intros Hs. etrans; [apply suffix_skip_ws|done]. Qed.

Lemma gettoken_sound s : s `suffix_of` s0 ->
  (gettoken s).2 `suffix_of` s0 /\ ((gettoken s).1.1 = 97 -> word_ok s0 (gettoken s).1.2).
Proof.
  intros Hs. unfold gettoken. pose proof (suffix_token (skip_ws s)) as Ht.
  assert (Hq : skip_ws s `suffix_of` s0) by (etrans; [apply suffix_skip_ws|done]).
  destruct (token (skip_ws s)) as [t s1] eqn:E. cbn [fst snd] in *. split.
  - etrans; [apply suffix_skip_ws|]. by etrans.
  - intros ->. exists (skip_ws s). split; [done|]. f_equal. f_equal. revert E. unfold token.
    destruct (skip_ws s) as [|c s2] eqn:Es; [done|]. pose proof (among_spec [124; 40; 41; 59; 38; 60] c ltac:(by repeat constructor)) as Ha.
    destruct (among _ c); [intros [= -> _]; exfalso; assert (H : (97 : Z) ∈ [124; 40; 41; 59; 38; 60]) by (by apply Ha); set_solver|].
    destruct (Z.eqb_spec c 62) as [->|]; [|by intros [= <-]]. destruct s2 as [|d s3]; [done|]. by destruct (d =? 62).
Qed.

(** Destructs the next peek or gettoken. *)
Ltac next_token :=
  match goal with
  | Hs : ?s `suffix_of` s0 |- context [peek ?s ?t] =>
      let b := fresh "b" in let ps := fresh "ps" in let H := fresh "Hs" in
      pose proof (peek_sound s t Hs) as H; destruct (peek s t) as [b ps]; cbn [snd] in H
  | Hs : ?s `suffix_of` s0 |- context [gettoken ?s] =>
      let tok := fresh "tok" in let w := fresh "w" in let ps := fresh "ps" in let H := fresh "Hs" in let Hw := fresh "Hw" in
      pose proof (gettoken_sound s Hs) as [H Hw]; destruct (gettoken s) as [[tok w] ps]; cbn [fst snd] in H, Hw
  end.

Definition redirs_ok (l : list redir) : Prop := Forall (fun r : redir => word_ok s0 r.1.1) l.
Definition cmd_ok (c : cmd word) : Prop := Forall (word_ok s0) (words c).

Lemma redirs_sound n : forall s, s `suffix_of` s0 -> sound redirs_ok (redirs n s).
Proof.
  induction n as [|n IH]; intros s Hs; [done|]. cbn [redirs]. next_token. destruct b; [|by split; [|constructor]].
  do 2 next_token. destruct (Z.eqb_spec tok0 97) as [->|]; [|done]. cbn [negb].
  eapply sound_bind; [by apply IH|]. intros l ps3 Hps3 Hl. split; [done|]. apply Forall_app. split; [|done].
  destruct (tok =? 60), (tok =? 62), (tok =? 43); repeat constructor; by apply Hw0.
Qed.

Lemma redirected_ok l : forall c, redirs_ok l -> cmd_ok c -> cmd_ok (fold_left (fun c r => redirected r c) l c).
Proof.
  induction l as [|r l IH]; intros c Hl Hc; [done|]. apply Forall_cons in Hl as [Hr Hl]. cbn [fold_left]. apply IH; [done|].
  apply Forall_app. split; [done|]. by repeat constructor.
Qed.

Lemma args_sound n : forall argv rs s, s `suffix_of` s0 -> Forall (word_ok s0) argv -> redirs_ok rs ->
  sound cmd_ok (args n argv rs s).
Proof.
  induction n as [|n IH]; intros argv rs s Hs Ha Hr; [done|]. cbn [args]. next_token.
  destruct b; [split; [done|by apply redirected_ok]|]. next_token.
  destruct (tok =? 0); [split; [done|by apply redirected_ok]|]. destruct (Z.eqb_spec tok 97) as [->|]; [|done]. cbn [negb].
  destruct (MAXARGS <=? _)%nat; [done|]. eapply sound_bind; [by apply redirs_sound|]. intros l ps2 Hps2 Hl. apply IH; [done| |].
  - apply Forall_app. split; [done|]. constructor; [by apply Hw|constructor].
  - by apply Forall_app.
Qed.

Lemma backs_sound n : forall c s, s `suffix_of` s0 -> cmd_ok c -> sound cmd_ok (backs n c s).
Proof.
  induction n as [|n IH]; intros c s Hs Hc; [done|]. cbn [backs]. next_token. destruct b; [|done]. next_token. by apply IH.
Qed.

Lemma parse_sound n :
  (forall s, s `suffix_of` s0 -> sound cmd_ok (parseline n s)) /\ (forall s, s `suffix_of` s0 -> sound cmd_ok (parsepipe n s)) /\
  (forall s, s `suffix_of` s0 -> sound cmd_ok (parseexec n s)) /\ (forall s, s `suffix_of` s0 -> sound cmd_ok (parseblock n s)).
Proof.
  induction n as [|n (IL & IP & IE & IB)]; [done|]. split_and!; intros s Hs.
  - cbn [parseline]. eapply sound_bind; [by apply IP|]. intros c ps Hps Hc. eapply sound_bind; [by apply backs_sound|].
    intros c' ps' Hps' Hc'. next_token. destruct b; [|done]. next_token. eapply sound_bind; [by apply IL|].
    intros r ps3 Hps3 Hr. split; [done|]. by apply Forall_app.
  - cbn [parsepipe]. eapply sound_bind; [by apply IE|]. intros c ps Hps Hc. next_token. destruct b; [|done]. next_token.
    eapply sound_bind; [by apply IP|]. intros r ps3 Hps3 Hr. split; [done|]. by apply Forall_app.
  - cbn [parseexec]. next_token. destruct b; [by apply IB|]. eapply sound_bind; [by apply redirs_sound|].
    intros l ps2 Hps2 Hl. apply args_sound; [done|constructor|done].
  - cbn [parseblock]. next_token. destruct b; [|done]. cbn [negb]. next_token. eapply sound_bind; [by apply IL|].
    intros c ps2 Hps2 Hc. next_token. destruct b; [|done]. cbn [negb]. next_token. unfold parseredirs.
    eapply sound_bind; [by apply redirs_sound|]. intros l ps5 Hps5 Hl. split; [done|]. by apply redirected_ok.
Qed.
End Sound.

(** ** Printing *)

(** A command's text where a line, a command before [&], a pipeline or a simple
    command is expected. *)
Record levels := mkLevels { lv_line : list Z; lv_back : list Z; lv_pipe : list Z; lv_exec : list Z }.

Definition pr_word (w : list Z) : list Z := 32 :: w.
Definition pr_redir (r : list Z * Z * Z) : list Z :=
  (if r.2 =? 0 then [32; 60] else if has r.1.2 O_TRUNC then [32; 62] else [32; 62; 62]) ++ pr_word r.1.1.
Definition paren (s : list Z) : list Z := 32 :: 40 :: s ++ [32; 41].

Fixpoint pr (c : cmd (list Z)) : levels :=
  match c with
  | EXEC argv => let e := concat (map pr_word argv) in mkLevels e e e e
  | REDIR c f m fd => let e := lv_exec (pr c) ++ pr_redir (f, m, fd) in mkLevels e e e e
  | PIPE l r => let p := lv_exec (pr l) ++ 32 :: 124 :: lv_pipe (pr r) in mkLevels p p p (paren p)
  | BACK c => let b := lv_back (pr c) ++ [32; 38] in mkLevels b b (paren b) (paren b)
  | LIST l r => let s := lv_back (pr l) ++ 32 :: 59 :: lv_line (pr r) in mkLevels s (paren s) (paren s) (paren s)
  end.
Definition print (c : cmd (list Z)) : list Z := lv_line (pr c).

(** Commands the shell can represent: words of word characters, fewer than
    MAXARGS arguments, and the three kinds of redirection. *)
Definition good_word (w : list Z) : Prop := w <> [] /\ Forall (fun c => wchar c = true /\ c <> 0) w.
Definition good_redir (r : list Z * Z * Z) : Prop :=
  good_word r.1.1 /\ (r.1.2, r.2) ∈ [(O_RDONLY, 0); (Z.lor (Z.lor O_WRONLY O_CREATE) O_TRUNC, 1); (Z.lor O_WRONLY O_CREATE, 1)].
Fixpoint good (c : cmd (list Z)) : Prop :=
  match c with
  | EXEC argv => Forall good_word argv /\ (length argv < MAXARGS)%nat
  | REDIR c f m fd => good c /\ good_redir (f, m, fd)
  | PIPE l r | LIST l r => good l /\ good r
  | BACK c => good c
  end.

(** ** Parsing what was printed *)

(** What follows ends a word; what follows starts, after white space, with one of [T]. *)
Definition ends (t : list Z) : Prop := match t with c :: _ => wchar c = false | [] => True end.
Definition stop (T t : list Z) : Prop := match skip_ws t with c :: _ => c ∈ T | [] => True end.

Lemma wchar_ws c : wchar c = true -> among whitespace c = false.
Proof. unfold wchar. by destruct (among whitespace c). Qed.
Lemma wchar_sym c : wchar c = true -> c ∉ symbols.
Proof.
  unfold wchar. intros [_ H]%andb_true_iff Hin. apply negb_true_iff in H.
  rewrite (proj2 (among_spec symbols c ltac:(by repeat constructor)) Hin) in H. done.
Qed.
Lemma wchar_among T c : wchar c = true -> Forall (fun x => x <> 0) T -> T ⊆ symbols -> among T c = false.
Proof. intros Hc Hz HT. apply not_true_iff_false. rewrite among_spec by done. intros H%HT. by apply (wchar_sym c). Qed.

Lemma stop_ends T t : T ⊆ symbols -> stop T t -> ends t.
Proof.
  intros HT Hs. destruct t as [|c t]; [done|]. unfold stop in Hs. simpl in *. unfold wchar.
  destruct (among whitespace c); [done|]. simpl.
  by rewrite (proj2 (among_spec symbols c ltac:(by repeat constructor)) (HT _ Hs)).
Qed.

Lemma skip_word_app w t : Forall (fun c => wchar c = true) w -> ends t -> skip_word (w ++ t) = t.
Proof.
  intros Hw Ht. induction Hw as [|c w Hc _ IH]; simpl; [|fold (wchar c); by rewrite Hc].
  destruct t as [|c t]; [done|]. simpl in *. fold (wchar c). by rewrite Ht.
Qed.

Lemma good_chars w : good_word w -> Forall (fun c => wchar c = true) w.
Proof. intros [_ H]. eapply Forall_impl; [exact H|]. naive_solver. Qed.

Lemma skip_word_head w t : good_word w -> skip_ws (w ++ t) = w ++ t /\ exists c w', w = c :: w' /\ wchar c = true.
Proof.
  intros Hg. pose proof (good_chars w Hg) as Hw. destruct Hg as [Hn _]. destruct w as [|c w]; [done|].
  apply Forall_cons in Hw as [Hc _]. split; [|by exists c, w]. simpl. by rewrite (wchar_ws c Hc).
Qed.

Lemma gettoken_word w t : good_word w -> ends t ->
  gettoken (w ++ t) = (97, (length (w ++ t), length t), skip_ws t).
Proof.
  intros Hg Ht. destruct (skip_word_head w t Hg) as [Hs (c & w' & -> & Hc)]. unfold gettoken.
  rewrite Hs.
  assert (Etok : token ((c :: w') ++ t) = (97, t)); [|by rewrite Etok].
  unfold token. cbn [app]. rewrite (wchar_among [124; 40; 41; 59; 38; 60] c Hc) by first [by repeat constructor | unfold symbols; set_solver].
  rewrite (proj2 (Z.eqb_neq c 62)) by (intros ->; by apply (wchar_sym 62 Hc); unfold symbols; set_solver).
  f_equal. change (c :: w' ++ t) with ((c :: w') ++ t). apply skip_word_app; [by apply good_chars|done].
Qed.

(** A pointer before white space is as good as one after it. *)
Lemma peek_skip s T : peek (skip_ws s) T = peek s T.
Proof. unfold peek. by rewrite skip_ws_id. Qed.
Lemma gettoken_skip s : gettoken (skip_ws s) = gettoken s.
Proof. unfold gettoken. by rewrite skip_ws_id. Qed.
Lemma redirs_skip n s : redirs n (skip_ws s) = redirs n s.
Proof. destruct n; [done|]. cbn [redirs]. by rewrite peek_skip. Qed.
Lemma args_skip n argv rs s : args n argv rs (skip_ws s) = args n argv rs s.
Proof. destruct n; [done|]. cbn [args]. by rewrite peek_skip. Qed.
Lemma backs_skip n c s : backs n c (skip_ws s) = backs n c s.
Proof. destruct n; [done|]. cbn [backs]. by rewrite peek_skip. Qed.
Lemma parse_skip n s : parseline n (skip_ws s) = parseline n s /\ parsepipe n (skip_ws s) = parsepipe n s /\
  parseexec n (skip_ws s) = parseexec n s.
Proof.
  induction n as [|n (IL & IP & IE)]; [done|].
  assert (HE : parseexec (S n) (skip_ws s) = parseexec (S n) s) by (cbn [parseexec]; by rewrite peek_skip).
  cbn [parseline parsepipe]. by rewrite IP, IE.
Qed.

Lemma peek_stop T T' t : stop T t -> Forall (fun x => x <> 0) T' -> (forall c, c ∈ T -> c ∉ T') -> peek t T' = (false, skip_ws t).
Proof.
  intros Hs Hz Hd. unfold peek, stop in *. destruct (skip_ws t) as [|c s]; [done|]. f_equal.
  apply not_true_iff_false. rewrite among_spec by done. by apply Hd.
Qed.

Lemma peek_sym c t T : c ∈ symbols -> c ∈ T -> Forall (fun x => x <> 0) T -> peek (32 :: c :: t) T = (true, c :: t).
Proof.
  intros Hc HT Hz. unfold peek. assert (E : skip_ws (32 :: c :: t) = c :: t).
  { change (skip_ws (c :: t) = c :: t). unfold symbols in Hc. repeat (apply elem_of_cons in Hc as [->|Hc]; [done|]). by apply not_elem_of_nil in Hc. }
  rewrite E. f_equal. by apply among_spec.
Qed.

Lemma gettoken_sym c t : c ∈ [124; 40; 41; 59; 38; 60] -> exists w, gettoken (c :: t) = (c, w, skip_ws t).
Proof.
  intros Hc. eexists. unfold gettoken.
  repeat (apply elem_of_cons in Hc as [->|Hc]; [reflexivity|]). by apply not_elem_of_nil in Hc.
Qed.

Section Reparse.
Context (s0 : list Z).

Definition redir_text (r : redir) : list Z * Z * Z := (text s0 r.1.1, r.1.2, r.2).
Definition redirs_text (rs : list (list Z * Z * Z)) : list Z := concat (map pr_redir rs).
Definition apply_redirs {A : Type} (rs : list (A * Z * Z)) (c : cmd A) : cmd A :=
  fold_left (fun c r => REDIR c r.1.1 r.1.2 r.2) rs c.

Lemma cmd_map_redirs rs : forall c, cmd_map (text s0) (fold_left (fun c r => redirected r c) rs c) =
  apply_redirs (map redir_text rs) (cmd_map (text s0) c).
Proof. induction rs as [|r rs IH]; intros c; [done|]. cbn [fold_left]. by rewrite IH. Qed.

Lemma text_word w t : (w ++ t) `suffix_of` s0 -> text s0 (length (w ++ t), length t) = w.
Proof.
  intros [pre ->]. unfold text. cbn [fst snd].
  replace (length (pre ++ w ++ t) - length (w ++ t))%nat with (length pre) by (rewrite !length_app; lia).
  rewrite drop_app_length. replace (length (w ++ t) - length t)%nat with (length w) by (rewrite length_app; lia).
  apply take_app_length.
Qed.

Lemma suffix_app_l (a b : list Z) : (a ++ b) `suffix_of` s0 -> b `suffix_of` s0.
Proof. intros H. etrans; [|exact H]. by exists a. Qed.

(** The symbols that end a simple command. *)
Definition enders : list Z := [124; 41; 38; 59].
Lemma enders_symbols : enders ⊆ symbols.
Proof. unfold enders, symbols. set_solver. Qed.

Lemma ends_redirs rs t : ends t -> ends (redirs_text rs ++ t).
Proof. intros Ht. destruct rs as [|[[f m] fd] rs]; [done|]. unfold redirs_text, pr_redir. cbn [map concat fst snd]. destruct (fd =? 0), (has m O_TRUNC); done. Qed.

(** One redirection operator. *)
Lemma peek_redir r t : good_redir r -> exists c s, peek (pr_redir r ++ t) [60; 62] = (true, c :: s) /\
  exists tok w, gettoken (c :: s) = (tok, w, r.1.1 ++ t) /\ 
  (if tok =? 60 then (O_RDONLY, 0)
   else if tok =? 62 then (Z.lor (Z.lor O_WRONLY O_CREATE) O_TRUNC, 1) else (Z.lor O_WRONLY O_CREATE, 1)) = (r.1.2, r.2) /\
  (tok = 60 \/ tok = 62 \/ tok = 43).
Proof.
  destruct r as [[f m] fd]. intros [Hf Hm]. cbn [fst snd] in *. destruct (skip_word_head f t Hf) as [Hs _].
  assert (Hs' : skip_ws (32 :: f ++ t) = f ++ t) by exact Hs.
  repeat (apply elem_of_cons in Hm as [[= -> ->]|Hm];
    [eexists _, _; split; [reflexivity|]; eexists _, _; split; [apply (f_equal2 pair); [reflexivity|exact Hs]|]; split; [reflexivity|by auto]|]).
  by apply not_elem_of_nil in Hm.
Qed.

Lemma redirs_print n : forall rs t, Forall good_redir rs -> stop enders t ->
  (redirs_text rs ++ t) `suffix_of` s0 -> (length (redirs_text rs ++ t) < n)%nat ->
  exists l, redirs n (redirs_text rs ++ t) = POk l (skip_ws t) /\ map redir_text l = rs.
Proof.
  induction n as [|n IH]; intros rs t Hrs Ht Hsuf Hn; [lia|]. cbn [redirs]. destruct rs as [|r rs].
  - exists []. split; [|done]. cbn [redirs_text map concat app]. rewrite (peek_stop enders) by (done || (by repeat constructor) || (unfold enders; set_solver)). done.
  - apply Forall_cons in Hrs as [Hr Hrs]. set (u := redirs_text rs ++ t) in *.
    assert (E : redirs_text (r :: rs) ++ t = pr_redir r ++ u) by (unfold redirs_text, u; cbn [map concat]; by rewrite <- app_assoc).
    rewrite E in *. destruct (peek_redir r u Hr) as (c & s & Hp & tok & w & Hg & Htok & Hk). rewrite Hp, Hg.
    destruct Hr as [Hf Hm]. assert (Hu : ends u) by (apply ends_redirs; by eapply stop_ends; [apply enders_symbols|]).
    rewrite gettoken_word by done. cbn [negb Z.eqb]. rewrite redirs_skip.
    assert (Hsuf' : (r.1.1 ++ u) `suffix_of` s0).
    { unfold pr_redir, pr_word in Hsuf. rewrite <- app_assoc in Hsuf. apply suffix_app_l in Hsuf. by apply (suffix_app_l [32]). }
    assert (Hlen : (length u < length (pr_redir r ++ u))%nat) by (unfold pr_redir, pr_word; rewrite !length_app; simpl; lia).
    destruct (IH rs t Hrs Ht (suffix_app_l _ _ Hsuf') ltac:(fold u; lia)) as (l & Hl & Em). fold u in Hl. rewrite Hl. cbn [pbind].
    eexists. split; [reflexivity|]. destruct r as [[f m] fd]. cbn [fst snd] in *.
    destruct Hk as [-> | [-> | ->]]; cbn [Z.eqb Pos.eqb] in *; injection Htok as <- <-; cbn [app map]; unfold redir_text at 1; cbn [fst snd];
      rewrite text_word by done; by rewrite Em.
Qed.

(** No symbol before a word. *)
Lemma peek_word T w t : good_word w -> Forall (fun x => x <> 0) T -> T ⊆ symbols -> peek (pr_word w ++ t) T = (false, w ++ t).
Proof.
  intros Hw Hz HT. destruct (skip_word_head w t Hw) as [Hs (c & w' & -> & Hc)]. unfold peek.
  change (skip_ws (pr_word (c :: w') ++ t)) with (skip_ws ((c :: w') ++ t)). rewrite Hs. cbn [app].
  by rewrite (wchar_among T c Hc).
Qed.
Lemma redirs_none n w t : good_word w -> redirs (S n) (pr_word w ++ t) = POk [] (w ++ t).
Proof. intros Hw. cbn [redirs]. rewrite peek_word; [done|done|by repeat constructor|unfold symbols; set_solver]. Qed.

Lemma args_stop n argv rs t : stop enders t ->
  args (S n) argv rs t = POk (fold_left (fun c r => redirected r c) rs (EXEC argv)) (skip_ws t).
Proof.
  intros Ht. cbn [args]. unfold peek, stop in *. destruct (skip_ws t) as [|c s] eqn:E; [done|].
  change [124; 41; 38; 59] with enders. by rewrite (proj2 (among_spec enders c ltac:(by repeat constructor)) Ht).
Qed.

Definition words_text (ws : list (list Z)) : list Z := concat (map pr_word ws).

Lemma args_print n : forall ws argv rs t, Forall good_word ws -> ws <> [] -> Forall good_redir rs -> stop enders t ->
  (length argv + length ws < MAXARGS)%nat ->
  (words_text ws ++ redirs_text rs ++ t) `suffix_of` s0 -> (length (words_text ws ++ redirs_text rs ++ t) < n)%nat ->
  exists c, args n argv [] (words_text ws ++ redirs_text rs ++ t) = POk c (skip_ws t) /\
            cmd_map (text s0) c = apply_redirs rs (EXEC (map (text s0) argv ++ ws)).
Proof.
  induction n as [|n IH]; intros ws argv rs t Hws Hne Hrs Ht Hlen Hsuf Hn; [lia|]. destruct ws as [|w ws]; [done|]. clear Hne.
  apply Forall_cons in Hws as [Hw Hws]. set (u := words_text ws ++ redirs_text rs ++ t).
  assert (E : words_text (w :: ws) ++ redirs_text rs ++ t = pr_word w ++ u) by (unfold words_text, u; cbn [map concat]; by rewrite <- app_assoc).
  rewrite E in *. assert (Hte : ends t) by (by eapply stop_ends; [apply enders_symbols|]).
  assert (Hu : ends u) by (destruct ws; [by apply ends_redirs|done]).
  assert (Hsw : (w ++ u) `suffix_of` s0) by by apply (suffix_app_l [32]).
  cbn [args]. rewrite (peek_word [124; 41; 38; 59] w u Hw) by first [by repeat constructor | unfold symbols; set_solver].
  rewrite gettoken_word by done. cbn [Z.eqb negb]. simpl in Hlen.
  rewrite (proj2 (Nat.leb_gt MAXARGS _)) by (rewrite length_app; simpl; lia).
  assert (Hlu : (length u < n)%nat) by (unfold pr_word in Hn; rewrite length_app in Hn; simpl in Hn; lia).
  rewrite redirs_skip. pose proof (suffix_app_l _ _ Hsw) as Hus. destruct ws as [|w2 ws].
  - change u with (redirs_text rs ++ t) in *. destruct (redirs_print n rs t Hrs Ht Hus Hlu) as (l & -> & El). cbn [pbind app].
    destruct n as [|n]; [lia|]. rewrite args_skip, args_stop by done. eexists. split; [done|].
    rewrite cmd_map_redirs, El. cbn [cmd_map]. rewrite map_app. cbn [map]. by rewrite text_word.
  - apply Forall_cons in Hws as [Hw2 Hws2]. destruct n as [|n]; [lia|].
    assert (Eu : u = pr_word w2 ++ words_text ws ++ redirs_text rs ++ t) by (unfold u, words_text; cbn [map concat]; by rewrite <- app_assoc).
    assert (Hr : redirs (S n) u = POk [] (skip_ws u)).
    { rewrite Eu, redirs_none by done. f_equal. symmetry. by apply (skip_word_head w2). }
    rewrite Hr. cbn [pbind app]. rewrite args_skip.
    destruct (IH (w2 :: ws) (argv ++ [(length (w ++ u), length u)]) rs t) as (c' & Hc' & Em);
      [by constructor|done|done|done|rewrite length_app; simpl in *; lia|done|done|].
    exists c'. split; [exact Hc'|]. rewrite Em, map_app. cbn [map]. rewrite text_word by done. by rewrite <- app_assoc.
Qed.


(** The parse stops before [t], with command [c]. *)
Definition yields (m : parsed (cmd word)) (t : list Z) (c : cmd (list Z)) : Prop :=
  exists c', m = POk c' (skip_ws t) /\ cmd_map (text s0) c' = c.

Lemma exec_words n argv rs t : Forall good_word argv -> (length argv < MAXARGS)%nat -> Forall good_redir rs -> stop enders t ->
  (words_text argv ++ redirs_text rs ++ t) `suffix_of` s0 -> (length (words_text argv ++ redirs_text rs ++ t) + 1 < n)%nat ->
  yields (parseexec n (words_text argv ++ redirs_text rs ++ t)) t (apply_redirs rs (EXEC argv)).
Proof.
  intros Hargv Hlen Hrs Ht Hsuf Hn. destruct n as [|[|n]]; [lia|lia|]. cbn [parseexec]. destruct argv as [|w ws].
  - change (words_text [] ++ redirs_text rs ++ t) with (redirs_text rs ++ t) in *.
    assert (Hp : peek (redirs_text rs ++ t) [40] = (false, skip_ws (redirs_text rs ++ t))).
    { destruct rs as [|[[f m] fd] rs]; [apply (peek_stop enders); [done|by repeat constructor|unfold enders; set_solver]|].
      unfold redirs_text, pr_redir. cbn [map concat fst snd]. by destruct (fd =? 0), (has m O_TRUNC). }
    rewrite Hp, redirs_skip. destruct (redirs_print (S n) rs t Hrs Ht Hsuf ltac:(lia)) as (l & -> & El). cbn [pbind].
    rewrite args_skip, args_stop by done. eexists. split; [done|]. by rewrite cmd_map_redirs, El.
  - set (s := words_text (w :: ws) ++ redirs_text rs ++ t) in *.
    assert (Es : s = pr_word w ++ words_text ws ++ redirs_text rs ++ t) by (unfold s, words_text; cbn [map concat]; by rewrite <- app_assoc).
    pose proof Hargv as [Hw _]%Forall_cons. pose proof (proj1 (skip_word_head w (words_text ws ++ redirs_text rs ++ t) Hw)) as Hs.
    rewrite Es at 1. rewrite peek_word by first [done | by repeat constructor | unfold symbols; set_solver].
    rewrite <- Hs. change (skip_ws (w ++ ?x)) with (skip_ws (pr_word w ++ x)). rewrite <- Es, redirs_skip.
    rewrite Es at 1. rewrite redirs_none by done. cbn [pbind]. rewrite <- Hs. change (skip_ws (w ++ ?x)) with (skip_ws (pr_word w ++ x)).
    rewrite <- Es, args_skip. apply (args_print (S n) (w :: ws) [] rs t); first [done | fold s; lia].
Qed.

Definition PE (c : cmd (list Z)) : Prop := forall n rs t, Forall good_redir rs -> stop enders t ->
  (lv_exec (pr c) ++ redirs_text rs ++ t) `suffix_of` s0 -> (4 * length (lv_exec (pr c) ++ redirs_text rs ++ t) + 2 <= n)%nat ->
  yields (parseexec n (lv_exec (pr c) ++ redirs_text rs ++ t)) t (apply_redirs rs c).
Definition PP (c : cmd (list Z)) : Prop := forall n t, stop [41; 38; 59] t ->
  (lv_pipe (pr c) ++ t) `suffix_of` s0 -> (4 * length (lv_pipe (pr c) ++ t) + 3 <= n)%nat ->
  yields (parsepipe n (lv_pipe (pr c) ++ t)) t c.
Definition PB (c : cmd (list Z)) : Prop := forall n t, stop [41; 38; 59] t ->
  (lv_back (pr c) ++ t) `suffix_of` s0 -> (4 * length (lv_back (pr c) ++ t) + 3 <= n)%nat ->
  exists c' m, (length t < m)%nat /\ cmd_map (text s0) c' = c /\
    pbind (parsepipe n (lv_back (pr c) ++ t)) (backs n) = backs m c' (skip_ws t).
Definition PL (c : cmd (list Z)) : Prop := forall n t, stop [41] t ->
  (lv_line (pr c) ++ t) `suffix_of` s0 -> (4 * length (lv_line (pr c) ++ t) + 4 <= n)%nat ->
  yields (parseline n (lv_line (pr c) ++ t)) t c.

Lemma stop_mono (T T' t : list Z) : T ⊆ T' -> stop T t -> stop T' t.
Proof. unfold stop. intros HT. destruct (skip_ws t); [done|]. apply HT. Qed.

(** Side conditions on sets of symbols. *)
Ltac syms := first [done | by repeat constructor | unfold enders, symbols; set_solver].

Lemma PE_PP c : lv_pipe (pr c) = lv_exec (pr c) -> PE c -> PP c.
Proof.
  intros E HE n t Ht Hsuf Hn. rewrite E in *. destruct n as [|n]; [lia|]. cbn [parsepipe].
  destruct (HE n [] t) as (c' & Hc' & Em); [constructor|eapply stop_mono; [|exact Ht]; syms|done|simpl; lia|].
  cbn [redirs_text map concat app] in Hc'. rewrite Hc'. cbn [pbind]. rewrite peek_skip, (peek_stop [41; 38; 59]) by syms.
  by exists c'.
Qed.

Lemma PP_PB c : lv_back (pr c) = lv_pipe (pr c) -> PP c -> PB c.
Proof.
  intros E HP n t Ht Hsuf Hn. rewrite E in *. destruct (HP n t Ht Hsuf Hn) as (c' & -> & Em).
  exists c', n. split_and!; [rewrite length_app in Hn; lia|done|done].
Qed.

Lemma backs_stop m c T t : stop T t -> 38 ∉ T -> (length t < m)%nat -> backs m c t = POk c (skip_ws t).
Proof. intros Ht HT Hm. destruct m as [|m]; [lia|]. cbn [backs]. rewrite (peek_stop T); [done|done|by repeat constructor|set_solver]. Qed.

Lemma pbind_assoc {A B C : Type} (m : parsed A) (f : A -> list Z -> parsed B) (g : B -> list Z -> parsed C) :
  pbind m (fun a ps => pbind (f a ps) g) = pbind (pbind m f) g.
Proof. by destruct m. Qed.

Lemma PB_PL c : lv_line (pr c) = lv_back (pr c) -> PB c -> PL c.
Proof.
  intros E HB n t Ht Hsuf Hn. rewrite E in *. destruct n as [|n]; [lia|]. cbn [parseline]. rewrite pbind_assoc.
  destruct (HB n t) as (c' & m & Hm & Em & Hb); [eapply stop_mono; [|exact Ht]; syms|done|lia|].
  rewrite Hb, backs_skip, (backs_stop m c' [41]) by syms. cbn [pbind]. rewrite peek_skip, (peek_stop [41]) by syms. by exists c'.
Qed.

Lemma PL_PE c : lv_exec (pr c) = paren (lv_line (pr c)) -> PL c -> PE c.
Proof.
  intros E HL n rs t Hrs Ht. set (t' := 32 :: 41 :: redirs_text rs ++ t).
  assert (Es : lv_exec (pr c) ++ redirs_text rs ++ t = 32 :: 40 :: lv_line (pr c) ++ t').
  { rewrite E. unfold paren, t'. cbn [app]. by rewrite <- app_assoc. }
  rewrite Es. intros Hsuf Hn. destruct n as [|[|n]]; [simpl in Hn; lia|simpl in Hn; lia|]. cbn [length] in Hn.
  cbn [parseexec parseblock]. rewrite peek_sym by syms. change (peek (40 :: ?x) [40]) with (true, 40 :: x). cbn [negb].
  destruct (gettoken_sym 40 (lv_line (pr c) ++ t')) as [w ->]; [syms|]. rewrite (proj1 (parse_skip n _)).
  apply (suffix_app_l [32; 40]) in Hsuf. destruct (HL n t') as (c' & -> & Em); [unfold stop; change (skip_ws t') with (41 :: redirs_text rs ++ t); syms|done|lia|].
  cbn [pbind]. rewrite peek_skip. unfold t' at 1. rewrite peek_sym by syms. cbn [negb].
  destruct (gettoken_sym 41 (redirs_text rs ++ t)) as [w' ->]; [syms|]. unfold parseredirs. rewrite redirs_skip.
  destruct (redirs_print n rs t Hrs Ht) as (l & -> & El).
  - apply suffix_app_l in Hsuf. by apply (suffix_app_l [32; 41]).
  - rewrite length_app in Hn. unfold t' in Hn. simpl in Hn. lia.
  - eexists. split; [done|]. by rewrite cmd_map_redirs, El, Em.
Qed.

Lemma PE_REDIR c f m fd : good_redir (f, m, fd) -> PE c -> PE (REDIR c f m fd).
Proof.
  intros Hr HE n rs t Hrs Ht. cbn [pr lv_exec]. rewrite <- app_assoc.
  replace (pr_redir (f, m, fd) ++ redirs_text rs ++ t) with (redirs_text ((f, m, fd) :: rs) ++ t)
    by (unfold redirs_text; cbn [map concat]; by rewrite <- app_assoc).
  intros Hsuf Hn. apply (HE n ((f, m, fd) :: rs) t); [by constructor|done..].
Qed.

Lemma PP_PIPE l r : PE l -> PP r -> PP (PIPE l r).
Proof.
  intros HE HP n t Ht. cbn [pr lv_pipe]. rewrite <- app_assoc. cbn [app]. set (t' := 32 :: 124 :: lv_pipe (pr r) ++ t).
  intros Hsuf Hn. destruct n as [|n]; [lia|]. cbn [parsepipe].
  destruct (HE n [] t') as (l' & Hl & El); [constructor|unfold stop; change (skip_ws t') with (124 :: lv_pipe (pr r) ++ t); syms|done|simpl in *; lia|].
  cbn [redirs_text map concat app] in Hl. rewrite Hl. cbn [pbind]. rewrite peek_skip. unfold t' at 1. rewrite peek_sym by syms.
  destruct (gettoken_sym 124 (lv_pipe (pr r) ++ t)) as [w ->]; [syms|]. rewrite (proj1 (proj2 (parse_skip n _))).
  destruct (HP n t Ht) as (r' & -> & Er).
  - apply suffix_app_l in Hsuf. by apply (suffix_app_l [32; 124]).
  - rewrite length_app in Hn. unfold t' in Hn. simpl in Hn. lia.
  - exists (PIPE l' r'). split; [done|]. cbn [cmd_map]. by rewrite El, Er.
Qed.

Lemma PB_BACK c : PB c -> PB (BACK c).
Proof.
  intros HB n t Ht. cbn [pr lv_back]. rewrite <- app_assoc. cbn [app]. set (t' := 32 :: 38 :: t). intros Hsuf Hn.
  destruct (HB n t') as (c' & m & Hm & Em & Hb); [unfold stop; change (skip_ws t') with (38 :: t); syms|done|done|].
  destruct m as [|m]; [lia|]. exists (BACK c'), m. split_and!; [unfold t' in Hm; simpl in Hm; lia|simpl; by rewrite Em|].
  rewrite Hb. cbn [backs]. rewrite peek_skip. unfold t' at 1. rewrite peek_sym by syms.
  by destruct (gettoken_sym 38 t) as [w ->]; [syms|].
Qed.

Lemma PL_LIST l r : PB l -> PL r -> PL (LIST l r).
Proof.
  intros HB HL n t Ht. cbn [pr lv_line]. rewrite <- app_assoc. cbn [app]. set (t' := 32 :: 59 :: lv_line (pr r) ++ t).
  intros Hsuf Hn. destruct n as [|n]; [lia|]. cbn [parseline]. rewrite pbind_assoc.
  assert (Ht' : stop [59] t') by (unfold stop; change (skip_ws t') with (59 :: lv_line (pr r) ++ t); syms).
  destruct (HB n t') as (l' & m & Hm & El & Hb); [eapply stop_mono; [|exact Ht']; syms|done|lia|].
  rewrite Hb, backs_skip, (backs_stop m l' [59]) by syms. cbn [pbind]. rewrite peek_skip. unfold t' at 1. rewrite peek_sym by syms.
  destruct (gettoken_sym 59 (lv_line (pr r) ++ t)) as [w ->]; [syms|]. rewrite (proj1 (parse_skip n _)).
  destruct (HL n t Ht) as (r' & -> & Er).
  - apply suffix_app_l in Hsuf. by apply (suffix_app_l [32; 59]).
  - rewrite length_app in Hn. unfold t' in Hn. simpl in Hn. lia.
  - exists (LIST l' r'). split; [done|]. cbn [cmd_map]. by rewrite El, Er.
Qed.

Lemma reparse c : good c -> PE c /\ PP c /\ PB c /\ PL c.
Proof.
  induction c as [argv|c IH f m fd|l IHl r IHr|l IHl r IHr|c IH]; intros Hg; cbn [good] in Hg.
  - assert (HE : PE (EXEC argv)).
    { intros n rs t Hrs Ht Hsuf Hn. destruct Hg as [Hw Hl]. apply exec_words; [done..|]. change (lv_exec (pr (EXEC argv))) with (words_text argv) in Hn. lia. }
    pose proof (PE_PP (EXEC argv) eq_refl HE) as HP. pose proof (PP_PB (EXEC argv) eq_refl HP) as HB.
    split_and!; [done..|by apply PB_PL].
  - destruct Hg as [Hg Hr]. pose proof (PE_REDIR c f m fd Hr (proj1 (IH Hg))) as HE.
    pose proof (PE_PP (REDIR c f m fd) eq_refl HE) as HP. pose proof (PP_PB (REDIR c f m fd) eq_refl HP) as HB.
    split_and!; [done..|by apply PB_PL].
  - pose proof (PP_PIPE l r (proj1 (IHl (proj1 Hg))) (proj1 (proj2 (IHr (proj2 Hg))))) as HP.
    pose proof (PP_PB (PIPE l r) eq_refl HP) as HB. pose proof (PB_PL (PIPE l r) eq_refl HB) as HL.
    split_and!; [by apply PL_PE|done..].
  - destruct (IHl (proj1 Hg)) as (_ & _ & HB & _), (IHr (proj2 Hg)) as (_ & _ & _ & HL).
    pose proof (PL_LIST l r HB HL) as HL'. pose proof (PL_PE (LIST l r) eq_refl HL') as HE.
    pose proof (PE_PP (LIST l r) eq_refl HE) as HP. split_and!; [done|done|by apply PP_PB|done].
  - destruct (IH Hg) as (_ & _ & HB & _). pose proof (PB_BACK c HB) as HB'. pose proof (PB_PL (BACK c) eq_refl HB') as HL.
    pose proof (PL_PE (BACK c) eq_refl HL) as HE. split_and!; [done|by apply PE_PP|done|done].
Qed.
End Reparse.

Abbreviation nonzero := (Forall (fun c : Z => c <> 0)).

Lemma pr_word_nonzero w : good_word w -> nonzero (pr_word w).
Proof. intros [_ H]. constructor; [done|]. eapply Forall_impl; [exact H|]. naive_solver. Qed.
Lemma pr_redir_nonzero r : good_redir r -> nonzero (pr_redir r).
Proof.
  intros [Hw _]. apply Forall_app. split; [|by apply pr_word_nonzero].
  destruct (r.2 =? 0); [|destruct (has r.1.2 O_TRUNC)]; by repeat constructor.
Qed.
Lemma paren_nonzero s : nonzero s -> nonzero (paren s).
Proof. intros H. unfold paren. do 2 (constructor; [done|]). apply Forall_app. split; [done|]. by repeat constructor. Qed.

Lemma pr_nonzero c : good c ->
  nonzero (lv_line (pr c)) /\ nonzero (lv_back (pr c)) /\ nonzero (lv_pipe (pr c)) /\ nonzero (lv_exec (pr c)).
Proof.
  assert (Hop : forall a x b, x <> 0 -> nonzero a -> nonzero b -> nonzero (a ++ 32 :: x :: b))
    by (intros a x b Hx Ha Hb; apply Forall_app; split; [done|]; by do 2 (constructor; [done|])).
  induction c as [argv|c IH f m fd|l IHl r IHr|l IHl r IHr|c IH]; intros Hg; cbn [good] in Hg.
  - assert (H : nonzero (concat (map pr_word argv))); [|done]. destruct Hg as [Hw _].
    induction Hw as [|w ws Hw _ IH]; [constructor|]. apply Forall_app. split; [by apply pr_word_nonzero|done].
  - destruct Hg as [Hg Hr]. assert (H : nonzero (lv_exec (pr c) ++ pr_redir (f, m, fd))); [|done].
    apply Forall_app. split; [by apply IH|by apply pr_redir_nonzero].
  - destruct (IHl (proj1 Hg)) as (_ & _ & _ & H1), (IHr (proj2 Hg)) as (_ & _ & H2 & _).
    pose proof (Hop _ 124 _ ltac:(done) H1 H2) as H. by split_and!; [..|apply paren_nonzero].
  - destruct (IHl (proj1 Hg)) as (_ & H1 & _ & _), (IHr (proj2 Hg)) as (H2 & _ & _ & _).
    pose proof (Hop _ 59 _ ltac:(done) H1 H2) as H. by split_and!; [|apply paren_nonzero..].
  - destruct (IH Hg) as (_ & H1 & _ & _). pose proof (Hop _ 38 [] ltac:(done) H1 ltac:(constructor)) as H.
    by split_and!; [..|apply paren_nonzero|apply paren_nonzero].
Qed.

Lemma cmd_map_ext {A B : Type} (f g : A -> B) (c : cmd A) : (forall w, w ∈ words c -> f w = g w) -> cmd_map f c = cmd_map g c.
Proof.
  induction c as [argv|c IH w m fd|l IHl r IHr|l IHl r IHr|c IH]; cbn [words cmd_map]; intros H.
  - f_equal. apply map_ext_in. intros w Hw. apply H. by apply list_elem_of_In.
  - rewrite IH, (H w) by set_solver. done.
  - rewrite IHl, IHr by set_solver. done.
  - rewrite IHl, IHr by set_solver. done.
  - by rewrite IH.
Qed.

(** ** Theorems *)

(** Parsecmd returns on every line, a command or a panic: the fuel that stands
    for its recursion and loops never runs out.  Every word of the command starts
    and ends inside the line, so the NULs written at the ends stay inside it (or hit
    its own NUL), and the line keeps its length. *)
Theorem parsecmd_total (s : list Z) :
  match parsecmd s with
  | POk c buf => Forall (fun w : word => (w.2 <= w.1 <= length s)%nat) (words c) /\ length buf = length s
  | PPanic msg => True
  | PFuel => False
  end.
Proof.
  unfold parsecmd. pose proof (proj1 (parse_within (4 * length s + 4)) s ltac:(lia)) as H.
  pose proof (proj1 (parse_sound s (4 * length s + 4)) s ltac:(done)) as HS.
  destruct (parseline _ s) as [c ps|msg|]; cbn [pbind]; [|done|done]. unfold peek. destruct (skip_ws ps); [|done]. split.
  - destruct HS as [_ HS]. eapply Forall_impl; [exact HS|]. intros w (u & Hu & ->). cbn [fst snd].
    pose proof (skip_word_le u). apply suffix_length in Hu. lia.
  - rewrite nulterminate_fold. apply put0s_length.
Qed.

Lemma parsecmd_printed (c : cmd (list Z)) (Hc : good c) :
  exists c' buf, parsecmd (print c) = POk c' buf /\ cmd_map (string_at buf) c' = c.
Proof.
  destruct (reparse (print c) c Hc) as (_ & _ & _ & HL).
  destruct (HL (4 * length (print c) + 4)%nat []) as (c' & Hp & Em); [done|by rewrite app_nil_r|by rewrite app_nil_r|].
  rewrite app_nil_r in Hp. change (lv_line (pr c)) with (print c) in Hp. exists c', (nulterminate c' (print c)). unfold parsecmd. rewrite Hp. split; [done|].
  transitivity (cmd_map (text (print c)) c'); [|exact Em]. apply cmd_map_ext. intros w Hw. apply string_text; [by apply pr_nonzero| |done].
  pose proof (proj1 (parse_sound (print c) (4 * length (print c) + 4)) (print c) ltac:(done)) as HS.
  rewrite Hp in HS. by destruct HS.
Qed.

(** C26: Parsing undoes printing.  For every command tree with word-character
    words, fewer than MAXARGS arguments per simple command and the three kinds of
    redirection, parsecmd accepts the printed line, and the strings found in the
    line after nulterminate at the pointers of the command it builds give the same
    tree: precedence of |, & and ;, right nesting, parentheses, order of
    redirections, open modes and descriptors included. *)
Theorem parsecmd_print (c : cmd (list Z)) (Hc : good c) :
  exists c' buf, parsecmd (print c) = POk c' buf /\ cmd_map (string_at buf) c' = c.
Proof. by apply parsecmd_printed. Qed.

(** [(ls > f ; a b) | wc &] *)
Definition sample : cmd (list Z) :=
  BACK (PIPE (LIST (REDIR (EXEC [[108; 115]]) [102] 0x601 1) (EXEC [[97]; [98]])) (EXEC [[119; 99]])).
Lemma parsecmd_print_witness : exists c' buf, parsecmd (print sample) = POk c' buf /\ cmd_map (string_at buf) c' = sample.
Proof.
  apply parsecmd_print. cbn. unfold good_redir, good_word. cbn.
  repeat split; try done; repeat constructor; done.
Defined.
