(* ===== verification/UserSys.v ===== *)
(** * The system calls as user programs see them

    A user program is an interaction tree whose events are system calls
    (user/user.h); buffers are passed by value.  [must]: whatever the kernel may
    answer, the program gets to an end of which the postcondition holds.  What a
    program relies on is stated as classes on the kernel's answers: [Streams] for
    programs that read and write, [Tables] for those that arrange descriptors. *)
From ITree Require Import Basics.Basics Core.ITreeDefinition.
From S2P Require Import Prelude Memory Ulib.

(** kernel/stat.h *)
Record stat := mkStat { st_dev : Z; st_ino : Z; st_type : Z; st_nlink : Z; st_size : Z }.

(** user/user.h.  An answer [None] is the return value -1. *)
Inductive sysE : Type -> Type :=
| Fork : sysE Z
| Exit (status : Z) : sysE Empty_set
| Wait : sysE Z
| Pipe : sysE (option (Z * Z))
| Write (fd : Z) (buf : list Z) : sysE Z
| Read (fd n : Z) : sysE (option (list Z))
| Close (fd : Z) : sysE Z
| Kill (pid : Z) : sysE Z
| Exec (path : list Z) (argv : list (list Z)) : sysE Z
| Open (path : list Z) (mode : Z) : sysE Z
| Mknod (path : list Z) (major minor : Z) : sysE Z
| Unlink (path : list Z) : sysE Z
| Fstat (fd : Z) : sysE (option stat)
| Link (old new : list Z) : sysE Z
| Mkdir (path : list Z) : sysE Z
| Chdir (path : list Z) : sysE Z
| Dup (fd : Z) : sysE Z
| Sleep (n : Z) : sysE Z
(** A step with no defined meaning. *)
| Undefined : sysE Empty_set.

Abbreviation prog := (itree sysE).
Declare Scope prog_scope.
Delimit Scope prog_scope with prog.
Notation "'let!' x := m 'in' k" := (ITree.bind m (fun x => k)) (at level 200, x name, m at level 100, k at level 200, right associativity) : prog_scope.
Notation "m ';!' k" := (ITree.bind m (fun _ => k)) (at level 199, k at level 200, right associativity) : prog_scope.
Global Open Scope prog_scope.

Definition pret {A} (a : A) : prog A := go (RetF a).
Definition sys {A} (e : sysE A) : prog A := ITree.trigger e.
Definition exit {A} (status : Z) : prog A := Vis (Exit status) (fun v : Empty_set => match v with end).
Definition undefined {A} : prog A := Vis Undefined (fun v : Empty_set => match v with end).
Definition pwhen (b : bool) (m : prog unit) : prog unit := if b then m else pret tt.
Fixpoint pfor_each {A} (l : list A) (f : A -> prog unit) : prog unit :=
  match l with [] => pret tt | x :: l' => f x;! pfor_each l' f end.

(** ** How a program ends *)
Inductive ending := Exits (status : Z) | Execs (path : list Z) (argv : list (list Z)).

(** The ending a call can be. *)
Definition ends_with {A} (e : sysE A) : option ending :=
  match e with Exit n => Some (Exits n) | Exec path argv => Some (Execs path argv) | _ => None end.
(** The calls that return. *)
Definition returns {A} (e : sysE A) : bool := match e with Exit _ | Undefined => false | _ => true end.
Definition defined {A} (e : sysE A) : bool := match e with Undefined => false | _ => true end.

Section Must.
Context {W : Type} (answers : forall A, sysE A -> W -> A -> W -> Prop) (X : ending -> W -> Prop).

Inductive must {R : Type} (Q : R -> W -> Prop) (t : prog R) (w : W) : Prop :=
| must_ret r : observe t = RetF r -> Q r w -> must Q t w
| must_tau t' : observe t = TauF t' -> must Q t' w -> must Q t w
| must_vis A (e : sysE A) k : observe t = VisF e k -> defined e = true ->
    (forall en, ends_with e = Some en -> X en w) ->
    (returns e = true -> exists a w', answers A e w a w') ->
    (forall a w', answers A e w a w' -> returns e = true -> must Q (k a) w') -> must Q t w.

Lemma observe_bind {R S} (t : prog R) (k : R -> prog S) : observe (ITree.bind t k) =
  observe (match observe t with RetF r => k r | TauF t' => Tau (ITree.bind t' k) | VisF e h => Vis e (fun x => ITree.bind (h x) k) end).
Proof. reflexivity. Qed.
Lemma observe_iter {I R} (body : I -> prog (I + R)) x : observe (ITree.iter body x) =
  observe (ITree.bind (body x) (fun lr => match lr with inl l => Tau (ITree.iter body l) | inr r => pret r end)).
Proof. reflexivity. Qed.

Lemma must_observe {R} (Q : R -> W -> Prop) t t' w : observe t = observe t' -> must Q t w -> must Q t' w.
Proof. intros E [r H1 H2|u H1 H2|A e k H1 H2 H3 H4 H5]; [eapply must_ret|eapply must_tau|eapply must_vis]; rewrite <- ?E; eauto. Qed.

Lemma must_return {R} (Q : R -> W -> Prop) r w : Q r w -> must Q (pret r) w.
Proof. by apply must_ret. Qed.
Lemma must_bind {R S} (Q : S -> W -> Prop) (t : prog R) (k : R -> prog S) w : must (fun r w' => must Q (k r) w') t w -> must Q (ITree.bind t k) w.
Proof.
  induction 1 as [t w r E H|t w t' E H IH|t w A e h E H1 H2 H3 H4 IH].
  - eapply must_observe; [|exact H]. by rewrite observe_bind, E.
  - eapply must_tau; [|exact IH]. by rewrite observe_bind, E.
  - eapply must_vis; [by rewrite observe_bind, E|done|done|done|]. exact IH.
Qed.
Lemma must_mono {R} (Q Q' : R -> W -> Prop) t w : must Q t w -> (forall r w', Q r w' -> Q' r w') -> must Q' t w.
Proof.
  intros H HQ. induction H as [t w r E H|t w t' E H IH|t w A e h E H1 H2 H3 H4 IH]; [eapply must_ret|eapply must_tau|eapply must_vis]; eauto.
Qed.
Lemma must_sys {A} (Q : A -> W -> Prop) (e : sysE A) w : defined e = true -> (forall en, ends_with e = Some en -> X en w) ->
  (exists a w', answers A e w a w') -> (forall a w', answers A e w a w' -> Q a w') -> must Q (sys e) w.
Proof. intros H1 H2 H3 H4. eapply must_vis; [done|done|done|done|]. intros a w' Ha _. apply must_return. by apply H4. Qed.
Lemma must_exit {R} (Q : R -> W -> Prop) n w : X (Exits n) w -> must Q (exit n) w.
Proof. intros H. eapply must_vis; [done|done| |done|done]. by intros en [= <-]. Qed.

(** A loop: the invariant holds at each round and the measure falls. *)
Lemma must_iter {I R} (Q : R -> W -> Prop) (Inv : I -> W -> Prop) (mu : I -> W -> nat) (body : I -> prog (I + R)) x w :
  (forall x w, Inv x w -> must (fun r w' => match r with inl x' => Inv x' w' /\ (mu x' w' < mu x w)%nat | inr b => Q b w' end) (body x) w) ->
  Inv x w -> must Q (ITree.iter body x) w.
Proof.
  intros HB. remember (mu x w) as n eqn:En. revert x w En. induction n as [n IH] using (well_founded_induction lt_wf). intros x w -> HI.
  eapply must_observe; [symmetry; apply observe_iter|]. apply must_bind. eapply must_mono; [by apply HB|].
  intros [x'|b] w'; [|by apply must_return]. intros [HI' Hlt]. eapply must_tau; [done|]. by eapply IH.
Qed.
Lemma must_for_each {A} (Q : unit -> W -> Prop) (Inv : list A -> W -> Prop) (l : list A) (f : A -> prog unit) w :
  (forall x l1 w, Inv (x :: l1) w -> must (fun _ w' => Inv l1 w') (f x) w) -> Inv l w -> (forall w', Inv [] w' -> Q tt w') -> must Q (pfor_each l f) w.
Proof.
  intros Hf HI HQ. revert w HI. induction l as [|x l IH]; intros w HI; cbn [pfor_each]; [by apply must_return, HQ|].
  apply must_bind. eapply must_mono; [by apply Hf|]. intros r w' H. by apply IH.
Qed.
End Must.

(** ** Programs that read and write *)
(** What is left to be read from the descriptors, what has been written to them,
    and the files by name.  A descriptor in [out] takes all it is given. *)
Class Streams (W : Type) := {
  answers : forall A, sysE A -> W -> A -> W -> Prop;
  inp : W -> gmap Z (list Z);
  out : W -> gmap Z (list Z);
  content : W -> gmap (list Z) (list Z)
}.

Class StreamLaws (W : Type) `{Streams W} : Prop := {
  answer_ex A (e : sysE A) w : returns e = true -> exists a w', answers A e w a w';
  (** A read gives a part of what is left, nothing only at the end. *)
  read_law fd n w a w' l : answers _ (Read fd n) w a w' -> inp w !! fd = Some l -> 0 < n ->
    exists bs rest, a = Some bs /\ l = bs ++ rest /\ Z.of_nat (length bs) <= n /\ (bs = [] -> l = []) /\
      inp w' = <[fd := rest]> (inp w) /\ out w' = out w /\ content w' = content w;
  write_law fd bs w a w' l : answers _ (Write fd bs) w a w' -> out w !! fd = Some l ->
    a = Z.of_nat (length bs) /\ out w' = <[fd := l ++ bs]> (out w) /\ inp w' = inp w /\ content w' = content w;
  (** open for reading gives a new descriptor of an existing file, or fails. *)
  open_law path w a w' : answers _ (Open path 0) w a w' -> out w' = out w /\ content w' = content w /\
    ((a < 0 /\ inp w' = inp w) \/
     (exists l, content w !! path = Some l /\ 0 <= a /\ inp w !! a = None /\ out w !! a = None /\ inp w' = <[a := l]> (inp w)));
  close_law fd w a w' : answers _ (Close fd) w a w' -> out w !! fd = None -> out w' = out w /\ content w' = content w /\ inp w' = delete fd (inp w)
}.

(** ** user/printf.c and the rest of user/ulib.c

    Formatted output, one byte per write; the functions of ulib.c that make
    system calls, and those that copy, fill and compare memory. *)
(** The bytes of a string literal. *)
Fixpoint lit (s : string) : list Z :=
  match s with
  | EmptyString => []
  | String c s' => Z.of_N (Ascii.N_of_ascii c) :: lit s'
  end.
Definition newline : list Z := [10].

(** ** printf.c *)
Definition udigits : list Z := lit "0123456789ABCDEF".
Definition udigit (x : Z) : Z := default 0 (udigits !! Z.to_nat x).

Definition putc (fd c : Z) : prog unit := sys (Write fd [c]);! pret tt.

(** The do-while loop of printint: [buf], least significant digit first; a [uint]
    has at most 32 digits. *)
Fixpoint uprintint_digits (fuel : nat) (x base : Z) : list Z :=
  match fuel with
  | O => []
  | S fuel' => udigit (x mod base) :: (if x / base =? 0 then [] else uprintint_digits fuel' (x / base) base)
  end.
Definition uprintint_bytes (xx base : Z) (sgn : bool) : list Z :=
  let neg := sgn && (xx <? 0) in
  let x := if neg then u32 (- xx) else u32 xx in
  reverse (uprintint_digits 32 x base ++ (if neg then [45] else [])).
Definition uprintint (fd xx base : Z) (sgn : bool) : prog unit :=
  pfor_each (uprintint_bytes xx base sgn) (putc fd).

Fixpoint uprintptr_digits (n : nat) (x : Z) : list Z :=
  match n with O => [] | S n' => udigit (Z.shiftr x 60) :: uprintptr_digits n' (u64 (Z.shiftl x 4)) end.
Definition uprintptr (fd x : Z) : prog unit :=
  putc fd 48;! putc fd 120;! pfor_each (uprintptr_digits 16 x) (putc fd).

(** The variable arguments: an int or uint, a uint64, a string or null. *)
Inductive uarg := UInt (v : Z) | ULong (v : Z) | UStr (o : option (list Z)).

(** What va_arg for an int gives: on RISC-V the low half of a 64-bit argument. *)
Definition int_arg (a : uarg) : option Z := match a with UInt v => Some v | ULong v => Some (s32 v) | UStr _ => None end.

(** The loop of vprintf; [pct] is [state == '%'].  An argument of another type
    than the one taken, or one too many, has no defined meaning. *)
Fixpoint vprintf (fd : Z) (pct : bool) (fmt : list Z) (args : list uarg) : prog unit :=
  match fmt with
  | [] => pret tt
  | c :: fmt' =>
      if negb pct then
        if c =? 37 then vprintf fd true fmt' args else putc fd c;! vprintf fd false fmt' args
      else if c =? 100 then
        match args with a :: args' => match int_arg a with Some v => uprintint fd v 10 true;! vprintf fd false fmt' args' | None => undefined end | [] => undefined end
      else if c =? 108 then
        match args with ULong v :: args' => uprintint fd (s32 v) 10 false;! vprintf fd false fmt' args' | _ => undefined end
      else if c =? 120 then
        match args with UInt v :: args' => uprintint fd v 16 false;! vprintf fd false fmt' args' | _ => undefined end
      else if c =? 112 then
        match args with ULong v :: args' => uprintptr fd v;! vprintf fd false fmt' args' | _ => undefined end
      else if c =? 115 then
        match args with UStr o :: args' => pfor_each (default (lit "(null)") o) (putc fd);! vprintf fd false fmt' args' | _ => undefined end
      else if c =? 99 then
        match args with UInt v :: args' => putc fd (u8 v);! vprintf fd false fmt' args' | _ => undefined end
      else if c =? 37 then putc fd c;! vprintf fd false fmt' args
      else putc fd 37;! putc fd c;! vprintf fd false fmt' args
  end.
Definition fprintf (fd : Z) (fmt : list Z) (args : list uarg) : prog unit := vprintf fd false fmt args.
Definition uprintf (fmt : list Z) (args : list uarg) : prog unit := vprintf 1 false fmt args.

(** ** ulib.c: calls *)
(** gets reads byte by byte; [acc] is [buf] up to [i]. *)
Fixpoint ugets_from (n : nat) (acc : list Z) : prog (list Z) :=
  match n with
  | O => pret acc
  | S n' =>
      let! r := sys (Read 0 1) in
      match r with
      | Some (c :: _) => if (c =? 10) || (c =? 13) then pret (acc ++ [c]) else ugets_from n' (acc ++ [c])
      | _ => pret acc
      end
  end.
Definition ugets (max : nat) : prog (list Z) := ugets_from (max - 1) [].

Definition ustat (path : list Z) : prog (option stat) :=
  let! fd := sys (Open path 0) in
  if fd <? 0 then pret None
  else
    let! r := sys (Fstat fd) in
    sys (Close fd);!
    pret r.

(** ** ulib.c: memory *)
Fixpoint umemset (m : mem) (dst c : Z) (n : nat) : mem :=
  match n with O => m | S n' => umemset (stb m dst c) (dst + 1) c n' end.
Definition umemmove (m : mem) (dst src : Z) (n : nat) : mem :=
  if dst <? src then copy_fwd m dst src n else copy_bwd m (dst + Z.of_nat n) (src + Z.of_nat n) n.
Definition umemcpy (m : mem) (dst src : Z) (n : nat) : mem := umemmove m dst src n.
(** [char] is unsigned on RISC-V. *)
Fixpoint umemcmp (m : mem) (s1 s2 : Z) (n : nat) : Z :=
  match n with
  | O => 0
  | S n' => if negb (ldb m s1 =? ldb m s2) then ldb m s1 - ldb m s2 else umemcmp m (s1 + 1) (s2 + 1) n'
  end.
(** strcpy's loop; [fuel] bounds the string. *)
Fixpoint ustrcpy (fuel : nat) (m : mem) (s t : Z) : option mem :=
  match fuel with
  | O => None
  | S f => let c := ldb m t in let m' := stb m s c in if c =? 0 then Some m' else ustrcpy f m' (s + 1) (t + 1)
  end.
Fixpoint ustrlen (fuel : nat) (m : mem) (s : Z) : option Z :=
  match fuel with
  | O => None
  | S f => if ldb m s =? 0 then Some 0 else (fun n => n + 1) <$> ustrlen f m (s + 1)
  end.

(** memmove copies the source block as it was, whichever way the blocks overlap. *)
Lemma ldb_umemmove m dst src n a : ldb (umemmove m dst src n) a = if (dst <=? a) && (a <? dst + Z.of_nat n) then ldb m (src + (a - dst)) else ldb m a.
Proof. unfold umemmove. destruct (Z.ltb_spec dst src); [apply ldb_copy_fwd|apply ldb_copy_bwd]; lia. Qed.

(** ** Formatted text *)
(** The bytes vprintf writes; [None] when an argument does not fit. *)
Fixpoint format (pct : bool) (fmt : list Z) (args : list uarg) : option (list Z) :=
  match fmt with
  | [] => Some []
  | c :: fmt' =>
      if negb pct then
        if c =? 37 then format true fmt' args else cons c <$> format false fmt' args
      else if c =? 100 then
        match args with a :: args' => match int_arg a with Some v => app (uprintint_bytes v 10 true) <$> format false fmt' args' | None => None end | [] => None end
      else if c =? 108 then
        match args with ULong v :: args' => app (uprintint_bytes (s32 v) 10 false) <$> format false fmt' args' | _ => None end
      else if c =? 120 then
        match args with UInt v :: args' => app (uprintint_bytes v 16 false) <$> format false fmt' args' | _ => None end
      else if c =? 112 then
        match args with ULong v :: args' => app (48 :: 120 :: uprintptr_digits 16 v) <$> format false fmt' args' | _ => None end
      else if c =? 115 then
        match args with UStr o :: args' => app (default (lit "(null)") o) <$> format false fmt' args' | _ => None end
      else if c =? 99 then
        match args with UInt v :: args' => cons (u8 v) <$> format false fmt' args' | _ => None end
      else if c =? 37 then cons c <$> format false fmt' args
      else (fun l => 37 :: c :: l) <$> format false fmt' args
  end.

(** A message around a string. *)
Definition plain (l : list Z) : bool := forallb (fun c => negb (c =? 37)) l.
Lemma format_plain l args : plain l = true -> format false l args = Some l.
Proof. induction l as [|c l IH]; [done|]. cbn [plain forallb]. intros [Hc Hp]%andb_true_iff. apply negb_true_iff in Hc. cbn [format negb]. by rewrite Hc, (IH Hp). Qed.
Lemma format_string pre post p : plain pre = true -> plain post = true -> format false (pre ++ lit "%s" ++ post) [UStr (Some p)] = Some (pre ++ p ++ post).
Proof.
  intros Hpre Hpost. induction pre as [|c pre IH]; [cbn [app]; cbn; by rewrite format_plain|]. cbn [plain forallb] in Hpre. apply andb_true_iff in Hpre as [Hc Hp].
  apply negb_true_iff in Hc. cbn [app format negb]. by rewrite Hc, (IH Hp).
Qed.
Lemma format_msg pre p : plain pre = true -> format false (pre ++ lit "%s" ++ newline) [UStr (Some p)] = Some (pre ++ p ++ newline).
Proof. intros Hp. by apply format_string. Qed.

Section Text.
Context {W : Type} (answers : forall A, sysE A -> W -> A -> W -> Prop) (X : ending -> W -> Prop) (fd : Z).
(** [I bs]: after [bs] has been put out byte by byte. *)
Context (I : list Z -> W -> Prop) (HI : forall c bs w, I bs w -> must answers X (fun _ w' => I (bs ++ [c]) w') (putc fd c) w).

Lemma must_chars l : forall bs w, I bs w -> must answers X (fun _ w' => I (bs ++ l) w') (pfor_each l (putc fd)) w.
Proof.
  induction l as [|c l IH]; intros bs w H; cbn [pfor_each]; [rewrite app_nil_r; by apply must_return|].
  apply must_bind. eapply must_mono; [by apply HI|]. intros u w1 H1. cbn beta in H1. eapply must_mono; [by apply IH|]. intros u' w2 H2. by rewrite <- app_assoc in H2.
Qed.
(** Some bytes and then the rest of the text. *)
Lemma must_emit (m k : prog unit) b fmt args bs bs0 w :
  (forall bs w, I bs w -> must answers X (fun _ w' => I (bs ++ b) w') m w) ->
  (forall bs bs0 w, format false fmt args = Some bs -> I bs0 w -> must answers X (fun _ w' => I (bs0 ++ bs) w') k w) ->
  app b <$> format false fmt args = Some bs -> I bs0 w -> must answers X (fun _ w' => I (bs0 ++ bs) w') (m;! k) w.
Proof.
  intros Hm Hk (bs' & Hf & ->)%fmap_Some H. apply must_bind. eapply must_mono; [by apply Hm|]. intros u w1 H1. cbn beta in H1.
  eapply must_mono; [by apply (Hk bs')|]. intros u' w2 H2. by rewrite <- app_assoc in H2.
Qed.
#[local] Hint Resolve must_chars HI : core.

(** vprintf writes the formatted text. *)
Lemma must_text fmt : forall pct args bs bs0 w, format pct fmt args = Some bs -> I bs0 w -> must answers X (fun _ w' => I (bs0 ++ bs) w') (vprintf fd pct fmt args) w.
Proof.
  induction fmt as [|c fmt IH]; intros pct args bs bs0 w Hf H; cbn [vprintf format] in *.
  { injection Hf as <-. rewrite app_nil_r. by apply must_return. }
  destruct pct; cbn [negb] in *; [|destruct (c =? 37); [by apply IH|eapply (must_emit _ _ [c]); eauto]].
  destruct (c =? 100). { destruct args as [|a args]; [done|]. destruct (int_arg a); [|done]. eapply must_emit; unfold uprintint; eauto. }
  destruct (c =? 108). { destruct args as [|[|v|] args]; try done. eapply must_emit; unfold uprintint; eauto. }
  destruct (c =? 120). { destruct args as [|[v| |] args]; try done. eapply must_emit; unfold uprintint; eauto. }
  destruct (c =? 112). { destruct args as [|[|v|] args]; try done. eapply (must_emit _ _ (48 :: 120 :: uprintptr_digits 16 v)); eauto. }
  destruct (c =? 115). { destruct args as [|[| |o] args]; try done. eapply must_emit; eauto. }
  destruct (c =? 99). { destruct args as [|[v| |] args]; try done. eapply (must_emit _ _ [u8 v]); eauto. }
  destruct (c =? 37); [eapply (must_emit _ _ [c]); eauto|].
  apply fmap_Some in Hf as (bs' & Hf & ->). apply must_bind. eapply must_mono; [by apply HI|]. intros u w1 H1. cbn beta in H1.
  eapply must_mono; [eapply (must_emit _ _ [c] _ _ (c :: bs')); [eauto|eauto|by rewrite Hf|exact H1]|]. intros u' w2 H2. by rewrite <- app_assoc in H2.
Qed.
End Text.
