(* ===== verification/UserProgs.v ===== *)
(** * The user programs

    main of each program takes the arguments after argv[0]; it ends in exit.
    A path is the list of its bytes without the NUL. *)
From ITree Require Import Basics.Basics Core.ITreeDefinition.
From S2P Require Import Prelude Fcntl Ulib Grep UserSys.

Abbreviation repeat_ body := (ITree.iter (fun _ : unit => body) tt).

(** ** cat.c *)
Definition cat (fd : Z) : prog unit :=
  repeat_
    (let! n := sys (Read fd 512) in
     match n with
     | None => fprintf 2 (lit "cat: read error" ++ newline) [];! exit 1
     | Some [] => pret (inr tt)
     | Some buf =>
         let! r := sys (Write 1 buf) in
         if negb (r =? Z.of_nat (length buf)) then fprintf 2 (lit "cat: write error" ++ newline) [];! exit 1
         else pret (inl tt)
     end).

Definition cat_file (path : list Z) : prog unit :=
  let! fd := sys (Open path 0) in
  if fd <? 0 then fprintf 2 (lit "cat: cannot open %s" ++ newline) [UStr (Some path)];! exit 1
  else cat fd;! sys (Close fd);! pret tt.

Definition cat_main (args : list (list Z)) : prog unit :=
  match args with
  | [] => cat 0;! exit 0
  | _ => pfor_each args cat_file;! exit 0
  end.

(** ** wc.c *)
Record wcs := mkWcs { wc_l : Z; wc_w : Z; wc_c : Z; wc_inword : bool }.
Definition wc_white : list Z := [32; 13; 9; 10; 11].
Definition wc_byte (s : wcs) (b : Z) : wcs :=
  let c := s32 (wc_c s + 1) in
  let l := if b =? 10 then s32 (wc_l s + 1) else wc_l s in
  match strchr wc_white b with
  | Some _ => mkWcs l (wc_w s) c false
  | None => if wc_inword s then mkWcs l (wc_w s) c true else mkWcs l (s32 (wc_w s + 1)) c true
  end.

Definition wc (fd : Z) (name : list Z) : prog unit :=
  let! s := ITree.iter (fun s =>
    let! n := sys (Read fd 512) in
    match n with
    | None => uprintf (lit "wc: read error" ++ newline) [];! exit 1
    | Some [] => pret (inr s)
    | Some buf => pret (inl (fold_left wc_byte buf s))
    end) (mkWcs 0 0 0 false) in
  uprintf (lit "%d %d %d %s" ++ newline) [UInt (wc_l s); UInt (wc_w s); UInt (wc_c s); UStr (Some name)].

Definition wc_file (path : list Z) : prog unit :=
  let! fd := sys (Open path 0) in
  if fd <? 0 then uprintf (lit "wc: cannot open %s" ++ newline) [UStr (Some path)];! exit 1
  else wc fd path;! sys (Close fd);! pret tt.

Definition wc_main (args : list (list Z)) : prog unit :=
  match args with
  | [] => wc 0 [];! exit 0
  | _ => pfor_each args wc_file;! exit 0
  end.

(** ** echo.c *)
Fixpoint echo_args (args : list (list Z)) : prog unit :=
  match args with
  | [] => pret tt
  | a :: args' =>
      sys (Write 1 a);!
      sys (Write 1 (match args' with _ :: _ => [32] | [] => newline end));!
      echo_args args'
  end.
Definition echo_main (args : list (list Z)) : prog unit := echo_args args;! exit 0.

(** ** grep.c: the search of the lines in the buffer, of a file, and main *)
Fixpoint grep_buf (n : nat) (pattern p : list Z) : prog (list Z) :=
  match n with
  | O => pret p
  | S n' =>
      match strchr p nl with
      | None => pret p
      | Some q =>
          (if match_ pattern (take q p) then sys (Write 1 (take (S q) p));! pret tt else pret tt);!
          grep_buf n' pattern (drop (S q) p)
      end
  end.
Definition grep_fd (pattern : list Z) (fd : Z) : prog unit :=
  ITree.iter (fun buf : list Z =>
    let! n := sys (Read fd (1024 - Z.of_nat (length buf) - 1)) in
    match n with
    | None | Some [] => pret (inr tt)
    | Some bs =>
        let data := buf ++ bs in
        let! rest := grep_buf (length data) pattern data in
        pret (inl rest)
    end) [].

Definition grep_file (pattern path : list Z) : prog unit :=
  let! fd := sys (Open path 0) in
  if fd <? 0 then uprintf (lit "grep: cannot open %s" ++ newline) [UStr (Some path)];! exit 1
  else grep_fd pattern fd;! sys (Close fd);! pret tt.

Definition grep_main (args : list (list Z)) : prog unit :=
  match args with
  | [] => fprintf 2 (lit "usage: grep pattern [file ...]" ++ newline) [];! exit 1
  | [pattern] => grep_fd pattern 0;! exit 0
  | pattern :: files => pfor_each files (grep_file pattern);! exit 0
  end.

(** ** kill.c, ln.c, zombie.c *)
Definition kill_main (args : list (list Z)) : prog unit :=
  match args with
  | [] => fprintf 2 (lit "usage: kill pid..." ++ newline) [];! exit 1
  | _ => pfor_each args (fun a => sys (Kill (atoi a));! pret tt);! exit 0
  end.
Definition ln_main (args : list (list Z)) : prog unit :=
  match args with
  | [old; new] =>
      let! r := sys (Link old new) in
      pwhen (r <? 0) (fprintf 2 (lit "link %s %s: failed" ++ newline) [UStr (Some old); UStr (Some new)]);!
      exit 0
  | _ => fprintf 2 (lit "Usage: ln old new" ++ newline) [];! exit 1
  end.
Definition zombie_main : prog unit :=
  let! pid := sys Fork in
  pwhen (0 <? pid) (sys (Sleep 5);! pret tt);!
  exit 0.

(** ** mkdir.c and rm.c: the loop ends at the first failure *)
Fixpoint mkdir_all (args : list (list Z)) : prog unit :=
  match args with
  | [] => pret tt
  | a :: args' =>
      let! r := sys (Mkdir a) in
      if r <? 0 then fprintf 2 (lit "mkdir: %s failed to create" ++ newline) [UStr (Some a)] else mkdir_all args'
  end.
Definition mkdir_main (args : list (list Z)) : prog unit :=
  match args with
  | [] => fprintf 2 (lit "Usage: mkdir files..." ++ newline) [];! exit 1
  | _ => mkdir_all args;! exit 0
  end.
Fixpoint rm_all (args : list (list Z)) : prog unit :=
  match args with
  | [] => pret tt
  | a :: args' =>
      let! r := sys (Unlink a) in
      if r <? 0 then fprintf 2 (lit "rm: %s failed to delete" ++ newline) [UStr (Some a)] else rm_all args'
  end.
Definition rm_main (args : list (list Z)) : prog unit :=
  match args with
  | [] => fprintf 2 (lit "Usage: rm files..." ++ newline) [];! exit 1
  | _ => rm_all args;! exit 0
  end.

(** ** ls.c *)
Definition UDIRSIZ : nat := 14.
(** The scan of fmtname, back from the end of the path to a slash. *)
Fixpoint until_slash (l : list Z) : list Z :=
  match l with [] => [] | c :: l' => if c =? 47 then [] else c :: until_slash l' end.
Definition basename (path : list Z) : list Z := reverse (until_slash (reverse path)).
Definition fmtname (path : list Z) : list Z :=
  let p := basename path in
  if (UDIRSIZ <=? length p)%nat then p else p ++ replicate (UDIRSIZ - length p) 32.

(** The name in a directory entry, up to a NUL. *)
Fixpoint until_nul (l : list Z) : list Z :=
  match l with [] => [] | c :: l' => if c =? 0 then [] else c :: until_nul l' end.
Definition ls_line (sizef : string) (name : list Z) (st : stat) : prog unit :=
  uprintf (lit "%s %d %d " ++ lit sizef ++ newline) [UStr (Some name); UInt (st_type st); UInt (st_ino st); ULong (st_size st)].

(** The loop over the entries of an open directory. *)
Definition ls_entries (fd : Z) (path : list Z) : prog unit :=
  repeat_
    (let! r := sys (Read fd 16) in
     match r with
     | Some de =>
         if negb (length de =? 16)%nat then pret (inr tt)
         else if nth 0 de 0 + 256 * nth 1 de 0 =? 0 then pret (inl tt)
         else
           let buf := path ++ [47] ++ until_nul (take UDIRSIZ (drop 2 de)) in
           let! st := ustat buf in
           match st with
           | None => uprintf (lit "ls: cannot stat %s" ++ newline) [UStr (Some buf)];! pret (inl tt)
           | Some st => ls_line "%d" (fmtname buf) st;! pret (inl tt)
           end
     | None => pret (inr tt)
     end).

Definition ls (path : list Z) : prog unit :=
  let! fd := sys (Open path 0) in
  if fd <? 0 then fprintf 2 (lit "ls: cannot open %s" ++ newline) [UStr (Some path)]
  else
    let! r := sys (Fstat fd) in
    match r with
    | None =>
        fprintf 2 (lit "ls: cannot stat %s" ++ newline) [UStr (Some path)];!
        sys (Close fd);! pret tt
    | Some st =>
        (if st_type st =? 2 then ls_line "%l" (fmtname path) st
         else if st_type st =? 1 then
           if (512 <? length path + 1 + UDIRSIZ + 1)%nat then uprintf (lit "ls: path too long" ++ newline) []
           else ls_entries fd path
         else pret tt);!
        sys (Close fd);! pret tt
    end.

Definition ls_main (args : list (list Z)) : prog unit :=
  match args with
  | [] => ls [46];! exit 0
  | _ => pfor_each args ls;! exit 0
  end.

(** ** init.c *)
Definition init_wait (pid : Z) : prog unit :=
  repeat_
    (let! wpid := sys Wait in
     if wpid =? pid then pret (inr tt)
     else if wpid <? 0 then uprintf (lit "init: wait returned an error" ++ newline) [];! exit 1
     else pret (inl tt)).
(** One round of the outer loop: a shell is started and waited for. *)
Definition init_round : prog unit :=
  uprintf (lit "init: starting sh" ++ newline) [];!
  let! pid := sys Fork in
  pwhen (pid <? 0) (uprintf (lit "init: fork failed" ++ newline) [];! exit 1);!
  pwhen (pid =? 0) (
    sys (Exec (lit "sh") [lit "sh"]);!
    uprintf (lit "init: exec sh failed" ++ newline) [];!
    exit 1);!
  init_wait pid.
Definition init_main : prog unit :=
  let! fd := sys (Open (lit "console") O_RDWR) in
  pwhen (fd <? 0) (
    sys (Mknod (lit "console") 1 0);!
    sys (Open (lit "console") O_RDWR);!
    pret tt);!
  sys (Dup 0);!
  sys (Dup 0);!
  repeat_ (init_round;! pret (inl tt)).

(** ** stressfs.c *)
(** The loop that forks until a parent breaks out of it; the value of [i]. *)
Fixpoint stressfs_forks (n : nat) (i : Z) : prog Z :=
  match n with
  | O => pret i
  | S n' => let! pid := sys Fork in if 0 <? pid then pret i else stressfs_forks n' (i + 1)
  end.
Definition stressfs_main : prog unit :=
  uprintf (lit "stressfs starting" ++ newline) [];!
  let! i := stressfs_forks 4 0 in
  uprintf (lit "write %d" ++ newline) [UInt i];!
  let path := lit "stressfs" ++ [u8 (48 + i)] in
  let! fd := sys (Open path (Z.lor O_CREATE O_RDWR)) in
  pfor_each (seq 0 20) (fun _ => sys (Write fd (replicate 512 97));! pret tt);!
  sys (Close fd);!
  uprintf (lit "read" ++ newline) [];!
  let! fd := sys (Open path O_RDONLY) in
  pfor_each (seq 0 20) (fun _ => sys (Read fd 512);! pret tt);!
  sys (Close fd);!
  sys Wait;!
  exit 0.

(** ** forktest.c *)
Definition ft_print (s : list Z) : prog unit := sys (Write 1 s);! pret tt.
(** The first loop: how many children were made, at most [n] more. *)
Fixpoint ft_forks (left : nat) (n : nat) : prog nat :=
  match left with
  | O => pret n
  | S left' =>
      let! pid := sys Fork in
      if pid <? 0 then pret n else if pid =? 0 then exit 0 else ft_forks left' (S n)
  end.
Definition FT_N : nat := 1000.
Definition forktest : prog unit :=
  ft_print (lit "fork test" ++ newline);!
  let! n := ft_forks FT_N 0 in
  pwhen (n =? FT_N)%nat (ft_print (lit "fork claimed to work N times!" ++ newline);! exit 1);!
  pfor_each (seq 0 n) (fun _ =>
    let! r := sys Wait in
    pwhen (r <? 0) (ft_print (lit "wait stopped early" ++ newline);! exit 1));!
  let! r := sys Wait in
  pwhen (negb (r =? -1)) (ft_print (lit "wait got too many" ++ newline);! exit 1);!
  ft_print (lit "fork test OK" ++ newline).
Definition forktest_main : prog unit := forktest;! exit 0.
