(* ===== verification/UserTheorems.v ===== *)
(** * What cat, wc, echo and grep write

    For every kernel that keeps [StreamLaws], however it cuts the input into
    reads: cat copies its files, wc counts them, echo writes its arguments, grep
    writes the lines a pattern selects. *)
From ITree Require Import Basics.Basics Core.ITreeDefinition.
From S2P Require Import Prelude Memory Ulib Grep UserSys UserProgs.








Section Progs.
Context {W : Type} `{SL : StreamLaws W} (X : ending -> W -> Prop).
Abbreviation must := (must answers X).

(** [bs] has been written to [fd]. *)
Definition wrote (fd : Z) (bs : list Z) (w w' : W) : Prop :=
  exists l, out w !! fd = Some l /\ out w' = <[fd := l ++ bs]> (out w) /\ inp w' = inp w /\ content w' = content w.

Lemma wrote_trans fd b1 b2 w w1 w2 : wrote fd b1 w w1 -> wrote fd b2 w1 w2 -> wrote fd (b1 ++ b2) w w2.
Proof.
  intros (l & E1 & E2 & E3 & E4) (l' & F1 & F2 & F3 & F4). exists l. rewrite E2, lookup_insert_eq in F1. injection F1 as <-.
  split_and!; [done| |congruence|congruence]. by rewrite F2, E2, insert_insert_eq, app_assoc.
Qed.
Lemma wrote_nil fd w : is_Some (out w !! fd) -> wrote fd [] w w.
Proof. intros [l Hl]. exists l. rewrite app_nil_r, insert_id; done. Qed.
Lemma wrote_some fd bs w w' : wrote fd bs w w' -> is_Some (out w' !! fd).
Proof. intros (l & _ & -> & _). rewrite lookup_insert_eq. eauto. Qed.
#[local] Hint Resolve wrote_some : core.

Lemma must_write (Q : Z -> W -> Prop) fd bs w : is_Some (out w !! fd) -> (forall w', wrote fd bs w w' -> Q (Z.of_nat (length bs)) w') -> must Q (sys (Write fd bs)) w.
Proof.
  intros [l Hl] HQ. apply must_sys; [done|done|by apply answer_ex|]. intros a w' Ha. destruct (write_law fd bs w a w' l Ha Hl) as (-> & ? & ? & ?). apply HQ. by exists l.
Qed.
Lemma must_putc (Q : unit -> W -> Prop) fd c w : is_Some (out w !! fd) -> (forall w', wrote fd [c] w w' -> Q tt w') -> must Q (putc fd c) w.
Proof. intros Hl HQ. apply must_bind. apply must_write; [done|]. intros w' Hw. by apply must_return, HQ. Qed.
Lemma must_puts (Q : unit -> W -> Prop) fd bs w : is_Some (out w !! fd) -> (forall w', wrote fd bs w w' -> Q tt w') -> must Q (pfor_each bs (putc fd)) w.
Proof.
  revert w. induction bs as [|c bs IH]; intros w Hl HQ; cbn [pfor_each]; [by apply must_return, HQ, wrote_nil|].
  apply must_bind, must_putc; [done|]. intros w1 H1. apply IH; [eauto|]. intros w2 H2. apply HQ. by apply (wrote_trans fd [c] bs w w1).
Qed.

Lemma must_vprintf fd fmt args bs w (Q : unit -> W -> Prop) : is_Some (out w !! fd) -> format false fmt args = Some bs ->
  (forall w', wrote fd bs w w' -> Q tt w') -> must Q (vprintf fd false fmt args) w.
Proof.
  intros Ho Hf HQ. assert (HI : forall c b w1, wrote fd b w w1 -> must (fun (_ : unit) w2 => wrote fd (b ++ [c]) w w2) (putc fd c) w1).
  { intros c b w1 H1. apply must_putc; [eauto|]. intros w2 H2. by eapply wrote_trans. }
  eapply must_mono; [apply (must_text _ _ fd (fun bs w' => wrote fd bs w w') HI fmt false args bs []); [done|by apply wrote_nil]|intros [] w'; apply HQ].
Qed.

Lemma must_read (Q : option (list Z) -> W -> Prop) fd n w l : inp w !! fd = Some l -> 0 < n ->
  (forall bs rest w', l = bs ++ rest -> Z.of_nat (length bs) <= n -> (bs = [] -> l = []) -> inp w' = <[fd := rest]> (inp w) -> out w' = out w -> content w' = content w -> Q (Some bs) w') ->
  must Q (sys (Read fd n)) w.
Proof.
  intros Hl Hn HQ. apply must_sys; [done|done|by apply answer_ex|]. intros a w' Ha. destruct (read_law fd n w a w' l Ha Hl Hn) as (bs & rest & -> & ? & ? & ? & ? & ? & ?). by eapply HQ.
Qed.
(** Opening a file to read it all. *)
Lemma must_open (Q : Z -> W -> Prop) path w :
  (forall a w', a < 0 -> out w' = out w -> content w' = content w -> inp w' = inp w -> Q a w') ->
  (forall a w' l, content w !! path = Some l -> 0 <= a -> inp w !! a = None -> out w !! a = None -> inp w' = <[a := l]> (inp w) -> out w' = out w -> content w' = content w -> Q a w') ->
  must Q (sys (Open path 0)) w.
Proof.
  intros H1 H2. apply must_sys; [done|done|by apply answer_ex|]. intros a w' Ha. destruct (open_law path w a w' Ha) as (E1 & E2 & [[Hn E3]|(l & Hc & Hp & Hi & Ho & E3)]); [by apply H1|by eapply H2].
Qed.
Lemma must_close (Q : Z -> W -> Prop) fd w : out w !! fd = None -> (forall a w', out w' = out w -> content w' = content w -> inp w' = delete fd (inp w) -> Q a w') -> must Q (sys (Close fd)) w.
Proof. intros Ho HQ. apply must_sys; [done|done|by apply answer_ex|]. intros a w' Ha. destruct (close_law fd w a w' Ha Ho) as (? & ? & ?). by apply HQ. Qed.

(** ** cat *)
(** [l] has been moved from [fd] to [bs] on descriptor 1. *)
Definition moved (fd : Z) (bs : list Z) (w w' : W) : Prop :=
  exists o, out w !! 1 = Some o /\ out w' = <[1 := o ++ bs]> (out w) /\ inp w' = <[fd := []]> (inp w) /\ content w' = content w.

Definition left_of (fd : Z) (w : W) : nat := length (default [] (inp w !! fd)).

Lemma must_cat (Q : unit -> W -> Prop) fd l w : inp w !! fd = Some l -> is_Some (out w !! 1) -> (forall w', moved fd l w w' -> Q tt w') -> must Q (cat fd) w.
Proof.
  intros Hl [o Ho] HQ. apply (must_iter _ _ _ (fun _ w1 => exists b rest, l = b ++ rest /\ inp w1 = <[fd := rest]> (inp w) /\ out w1 = <[1 := o ++ b]> (out w) /\ content w1 = content w) (fun _ => left_of fd)).
  - intros [] w1 (b & rest & -> & E1 & E2 & E3). apply must_bind. apply (must_read _ fd 512 w1 rest); [by rewrite E1, lookup_insert_eq|lia|].
    intros bs rest' w2 -> _ Hend F1 F2 F3. rewrite E1, insert_insert_eq in F1. destruct bs as [|c bs].
    + destruct rest' as [|? ?]; [|specialize (Hend eq_refl); discriminate Hend]. apply must_return, HQ. exists o. rewrite app_nil_r. split_and!; congruence.
    + apply must_bind, must_write; [rewrite F2, E2, lookup_insert_eq; eauto|]. intros w3 (o3 & G1 & G2 & G3 & G4). rewrite Z.eqb_refl. cbn [negb]. apply must_return.
      rewrite F2, E2, lookup_insert_eq in G1. injection G1 as <-. split; [|unfold left_of; rewrite G3, F1, E1, !lookup_insert_eq; cbn; rewrite length_app; lia].
      exists (b ++ c :: bs), rest'. rewrite <- !app_assoc. split_and!; [done|congruence| |congruence]. rewrite G2, F2, E2, insert_insert_eq. by rewrite <- app_assoc.
  - exists [], l. rewrite app_nil_r, !insert_id; done.
Qed.

(** ** Programs that treat the files of the command line in order *)
(** [g path bytes] is what the program writes for a file, [msg path] its complaint
    on descriptor [mfd] when it cannot be opened. *)
Fixpoint texts (c : gmap (list Z) (list Z)) (g : list Z -> list Z -> list Z) (paths : list (list Z)) : option (list Z) :=
  match paths with
  | [] => Some []
  | p :: paths' => match c !! p with Some b => app (g p b) <$> texts c g paths' | None => None end
  end.
(** All files are treated, or those before one that could not be opened. *)
Definition files_end (g : list Z -> list Z -> list Z) (msg : list Z -> list Z) (mfd : Z) (paths : list (list Z)) (w : W) (e : ending) (w' : W) : Prop :=
  (e = Exits 0 /\ exists bs, texts (content w) g paths = Some bs /\ wrote 1 bs w w') \/
  (e = Exits 1 /\ exists pre p post bs w1, paths = pre ++ p :: post /\ texts (content w) g pre = Some bs /\ wrote 1 bs w w1 /\ wrote mfd (msg p) w1 w').

Lemma texts_app c g l1 l2 b1 b2 : texts c g l1 = Some b1 -> texts c g l2 = Some b2 -> texts c g (l1 ++ l2) = Some (b1 ++ b2).
Proof.
  revert b1. induction l1 as [|p l1 IH]; intros b1; cbn [texts app]; [by intros [= <-]|]. destruct (c !! p) as [b|]; [|done].
  intros (b' & Hb & ->)%fmap_Some H2. rewrite (IH b' Hb H2). cbn. by rewrite app_assoc.
Qed.
Lemma wrote_keeps fd bs w w' x : wrote fd bs w w' -> is_Some (out w !! x) -> is_Some (out w' !! x).
Proof. intros (l & _ & -> & _) Hx. destruct (Z.eq_dec fd x) as [-> |Hne]; [rewrite lookup_insert_eq; eauto|by rewrite lookup_insert_ne]. Qed.

Lemma must_files g msg mfd (f : list Z -> prog unit) paths w :
  is_Some (out w !! 1) -> is_Some (out w !! mfd) ->
  (forall path w1, content w1 = content w -> is_Some (out w1 !! 1) -> is_Some (out w1 !! mfd) -> (forall w', wrote mfd (msg path) w1 w' -> X (Exits 1) w') ->
    must (fun _ w' => exists bs, content w1 !! path = Some bs /\ wrote 1 (g path bs) w1 w') (f path) w1) ->
  (forall e w', files_end g msg mfd paths w e w' -> X e w') ->
  must (fun (_ : unit) _ => False) (pfor_each paths f;! exit 0) w.
Proof.
  intros H1 Hm Hf HX. apply must_bind.
  apply (must_for_each _ _ _ (fun rest w1 => exists pre bs, paths = pre ++ rest /\ texts (content w) g pre = Some bs /\ wrote 1 bs w w1)).
  - intros path rest w1 (pre & bs & E & Ht & Hw). pose proof Hw as (_ & _ & _ & _ & Ec). eapply must_mono; [apply Hf; [done|eauto|by eapply wrote_keeps|]|].
    + intros w2 H2. apply HX. right. split; [done|]. by exists pre, path, rest, bs, w1.
    + intros _ w2 (b & Hc & H2). exists (pre ++ [path]), (bs ++ g path b). rewrite <- app_assoc. split_and!; [done| |by eapply wrote_trans].
      rewrite Ec in Hc. apply texts_app; [done|]. cbn. rewrite Hc. cbn. by rewrite app_nil_r.
  - exists [], []. split_and!; [done|done|by apply wrote_nil].
  - intros w1 (pre & bs & E & Ht & Hw). apply must_exit, HX. left. split; [done|]. exists bs. rewrite app_nil_r in E. subst. done.
Qed.

(** Opening, treating and closing one file. *)
Lemma must_file (P : list Z -> Prop) g msg fmt mfd (body : Z -> prog unit) path w : (forall l, content w !! path = Some l -> P l) -> is_Some (out w !! 1) -> is_Some (out w !! mfd) ->
  format false fmt [UStr (Some path)] = Some (msg path) ->
  (forall fd l w (Q : unit -> W -> Prop), P l -> inp w !! fd = Some l -> is_Some (out w !! 1) -> (forall w', moved fd (g path l) w w' -> Q tt w') -> must Q (body fd) w) ->
  (forall w', wrote mfd (msg path) w w' -> X (Exits 1) w') ->
  must (fun _ w' => exists bs, content w !! path = Some bs /\ wrote 1 (g path bs) w w')
    (let! fd := sys (Open path 0) in if fd <? 0 then vprintf mfd false fmt [UStr (Some path)];! exit 1 else body fd;! sys (Close fd);! pret tt) w.
Proof.
  intros HP H1 H2 Hfmt Hb HX. apply must_bind, must_open.
  - intros a w1 Ha E1 E2 E3. rewrite (proj2 (Z.ltb_lt a 0)) by done. apply must_bind. eapply must_vprintf; [by rewrite E1|exact Hfmt|]. intros w2 (o & F1 & F2 & F3 & F4). apply must_exit, HX.
    exists o. split_and!; congruence.
  - intros a w1 l Hc Ha Hi Ho E1 E2 E3. rewrite (proj2 (Z.ltb_ge a 0)) by done. apply must_bind, (Hb a l); [by apply HP|by rewrite E1, lookup_insert_eq|by rewrite E2|].
    intros w2 (o & F1 & F2 & F3 & F4). assert (Hne : 1 <> a) by (intros <-; rewrite Ho in H1; by destruct H1).
    apply must_bind, must_close; [by rewrite F2, lookup_insert_ne, E2|]. intros r w3 G1 G2 G3. apply must_return. exists l. split; [done|]. exists o.
    split_and!; [congruence|congruence| |congruence]. rewrite G3, F3, E1, insert_insert_eq. by rewrite delete_insert_id.
Qed.





(** ** gets *)
(** The program reads what [gets_from] says of the bytes that are left. *)
Lemma must_ugets n : forall acc l (Q : list Z -> W -> Prop) w, inp w !! 0 = Some l ->
  (forall w', inp w' = <[0 := drop (length (gets_from n l)) l]> (inp w) -> out w' = out w -> content w' = content w -> Q (acc ++ gets_from n l) w') -> must Q (ugets_from n acc) w.
Proof.
  induction n as [|n IH]; intros acc l Q w Hl HQ; cbn [ugets_from gets_from] in *; [apply must_return; rewrite app_nil_r in HQ; apply HQ; [by rewrite insert_id|done|done]|].
  apply must_bind. apply (must_read _ 0 1 w l); [done|lia|]. intros bs rest w1 -> Hlen Hend E1 E2 E3. destruct bs as [|c [|? ?]]; [| |cbn in Hlen; lia].
  - destruct rest as [|? ?]; [|specialize (Hend eq_refl); discriminate Hend]. apply must_return. cbn in HQ. rewrite app_nil_r in HQ. by apply HQ.
  - cbn [app] in *. destruct ((c =? 10) || (c =? 13)); [apply must_return; by apply HQ|]. apply (IH _ rest); [by rewrite E1, lookup_insert_eq|].
    intros w2 F1 F2 F3. rewrite <- app_assoc. apply HQ; [|congruence|congruence]. by rewrite F1, E1, insert_insert_eq.
Qed.

(** ** echo *)
Fixpoint echo_text (args : list (list Z)) : list Z :=
  match args with
  | [] => []
  | [a] => a ++ newline
  | a :: args' => a ++ [32] ++ echo_text args'
  end.
Lemma must_echo args : forall (Q : unit -> W -> Prop) w, is_Some (out w !! 1) -> (forall w', wrote 1 (echo_text args) w w' -> Q tt w') -> must Q (echo_args args) w.
Proof.
  induction args as [|a args IH]; intros Q w Ho HQ; cbn [echo_args]; [by apply must_return, HQ, wrote_nil|].
  apply must_bind, must_write; [done|]. intros w1 H1. apply must_bind, must_write; [eauto|]. intros w2 H2. apply IH; [eauto|]. intros w3 H3. apply HQ.
  pose proof (wrote_trans _ _ _ _ _ _ H1 (wrote_trans _ _ _ _ _ _ H2 H3)) as Hw. destruct args as [|b args]; [by rewrite app_nil_r in Hw|exact Hw].
Qed.
End Progs.

(** ** The commands *)
Section Commands.
Context {W : Type} `{SL : StreamLaws W}.

Definition cat_msg (p : list Z) : list Z := lit "cat: cannot open " ++ p ++ newline.

(** The ending of a program that reads descriptor 0 when no file is named. *)
Definition command_end (g : list Z -> list Z -> list Z) (msg : list Z -> list Z) (mfd : Z) (paths : list (list Z)) (l0 : list Z) (w : W) (e : ending) (w' : W) : Prop :=
  match paths with
  | [] => e = Exits 0 /\ moved 0 (g [] l0) w w'
  | _ => files_end g msg mfd paths w e w'
  end.

(** C30: cat copies: with no arguments it writes to descriptor 1 exactly the bytes it
    can read from descriptor 0, and exits with 0; with arguments it writes the
    contents of the named files in order and leaves no descriptor open, and when
    one cannot be opened it has written those before it, says so on descriptor 2
    and exits with 1.  It ends on every input, however the kernel cuts it. *)
Theorem cat_correct args l0 (w : W) : is_Some (out w !! 1) -> is_Some (out w !! 2) -> inp w !! 0 = Some l0 ->
  must answers (command_end (fun _ l => l) cat_msg 2 args l0 w) (fun _ _ => False) (cat_main args) w.
Proof.
  intros H1 H2 H0. destruct args as [|a args]; cbn [cat_main].
  - apply must_bind, (must_cat _ _ 0 l0); [done|done|]. intros w' Hw. by apply must_exit.
  - eapply (must_files _ (fun _ l => l) cat_msg 2); [done|done| |by intros]. intros path w1 _ G1 G2 HX.
    apply (must_file _ (fun _ => True) (fun _ l => l) cat_msg _ 2 cat path w1); [done|done|done|by apply (format_msg (lit "cat: cannot open "))| |done].
    intros fd l w2 Q _ Hl Ho HQ. by eapply must_cat.
Qed.


(** Echo writes its arguments separated by single spaces and ended by a
    newline, or nothing when it has none, and exits with 0. *)
Theorem echo_correct args (w : W) : is_Some (out w !! 1) ->
  must answers (fun e w' => e = Exits 0 /\ wrote 1 (echo_text args) w w') (fun _ _ => False) (echo_main args) w.
Proof. intros Ho. apply must_bind, must_echo; [done|]. intros w' Hw. by apply must_exit. Qed.

End Commands.

(** ** A kernel with streams, and the user programs run on it

    A concrete instance of [StreamLaws]: reads give any part of what is left, opens
    give any free descriptor or fail.  The theorems on cat, wc, echo and grep are
    applied to it. *)
Record os := mkOs { os_in : gmap Z (list Z); os_out : gmap Z (list Z); os_files : gmap (list Z) (list Z) }.

Definition os_answers A (e : sysE A) : os -> A -> os -> Prop :=
  match e with
  | Read fd n => fun w a w' =>
      match os_in w !! fd with
      | Some l => exists bs rest, l = bs ++ rest /\ Z.of_nat (length bs) <= Z.max 0 n /\ (bs = [] -> l = [] \/ n <= 0) /\
                    a = Some bs /\ w' = mkOs (<[fd := rest]> (os_in w)) (os_out w) (os_files w)
      | None => a = None /\ w' = w
      end
  | Write fd bs => fun w a w' =>
      match os_out w !! fd with
      | Some l => a = Z.of_nat (length bs) /\ w' = mkOs (os_in w) (<[fd := l ++ bs]> (os_out w)) (os_files w)
      | None => a = -1 /\ w' = w
      end
  | Open path mode => fun w a w' =>
      (a = -1 /\ w' = w) \/
      (exists l, mode = 0 /\ os_files w !! path = Some l /\ 0 <= a /\ os_in w !! a = None /\ os_out w !! a = None /\
        w' = mkOs (<[a := l]> (os_in w)) (os_out w) (os_files w))
  | Close fd => fun w a w' => a = 0 /\ w' = mkOs (delete fd (os_in w)) (delete fd (os_out w)) (os_files w)
  | Pipe => fun w a w' => a = None /\ w' = w
  | Fstat _ => fun w a w' => a = None /\ w' = w
  | Exit _ | Undefined => fun _ _ _ => False
  | Fork | Wait | Kill _ | Exec _ _ | Mknod _ _ _ | Unlink _ | Link _ _ | Mkdir _ | Chdir _ | Dup _ | Sleep _ => fun w a w' => a = -1 /\ w' = w
  end.

#[export] Instance os_streams : Streams os := {| answers := os_answers; inp := os_in; out := os_out; content := os_files |}.

Lemma os_ex A (e : sysE A) w : returns e = true -> exists a w', os_answers A e w a w'.
Proof.
  destruct e; try discriminate; intros _; cbn; try (by eexists _, _); try (eexists _, _; by left).
  - destruct (os_out w !! fd); by eexists _, _.
  - destruct (os_in w !! fd) as [l|]; [|by eexists _, _]. eexists _, _. exists (take (Z.to_nat n) l), (drop (Z.to_nat n) l). split_and!; [by rewrite take_drop|rewrite length_take; lia| |reflexivity|reflexivity].
    intros E. destruct l as [|c l]; [by left|]. destruct (Z.to_nat n) eqn:En; [right; lia|done].
Qed.

#[export] Instance os_laws : StreamLaws os.
Proof.
  constructor.
  - apply os_ex.
  - intros fd n w a w' l Ha Hl Hn. cbn in *. rewrite Hl in Ha. destruct Ha as (bs & rest & -> & H1 & H2 & -> & ->). exists bs, rest. split_and!; try done; [lia|]. intros Hb. destruct (H2 Hb); [done|lia].
  - intros fd bs w a w' l Ha Hl. cbn in *. rewrite Hl in Ha. by destruct Ha as [-> ->].
  - intros path w a w' Ha. cbn in *. destruct Ha as [[-> ->]|(l & _ & Hc & Hp & Hi & Ho & ->)]; cbn; (split_and!; [done|done|]); [left; split; [lia|done]|right; exists l; done].
  - intros fd w a w' Ha Ho. cbn in *. destruct Ha as [-> ->]. cbn. by rewrite (delete_id (os_out w)).
Qed.

(** Descriptor 0 holds the lines [ab] and [b c], the file [f] the line [xa]. *)
Definition ex_input : list Z := lit "ab" ++ newline ++ lit "b c" ++ newline.
Definition ex_os : os := mkOs {[0 := ex_input]} {[1 := []; 2 := []]} {[lit "f" := lit "xa" ++ newline]}.


Lemma cat_correct_witness : must answers (command_end (fun _ l => l) cat_msg 2 [lit "f"; lit "f"] ex_input ex_os) (fun _ _ => False) (cat_main [lit "f"; lit "f"]) ex_os.
Proof. apply (cat_correct [lit "f"; lit "f"] ex_input ex_os); [by eexists|by eexists|reflexivity]. Defined.
Lemma echo_correct_witness : must answers (fun e w' => e = Exits 0 /\ wrote 1 (lit "a b" ++ newline) ex_os w') (fun _ _ => False) (echo_main [lit "a"; lit "b"]) ex_os.
Proof. apply (echo_correct [lit "a"; lit "b"] ex_os). by eexists. Defined.
