(* ===== verification/ShellRun.v ===== *)
(** * user/sh.c: running commands

    runcmd, getcmd and main as programs of system calls.  A process is seen through
    its table of descriptors ([Tables]); forks are followed on both sides.
    [launches c t argv t']: running [c] with table [t] is to start the program
    [argv] with table [t'].  The theorems: every program that runcmd starts is one
    that the command asks for, with exactly the descriptors it asks for. *)
From ITree Require Import Basics.Basics Core.ITreeDefinition.
From S2P Require Import Prelude Fcntl Ulib Shell UserSys.

(** ** sh.c *)
Definition sh_panic {A} (s : list Z) : prog A := fprintf 2 (lit "%s" ++ newline) [UStr (Some s)];! exit 1.
Definition fork1 : prog Z :=
  let! pid := sys Fork in
  if pid =? -1 then sh_panic (lit "fork") else pret pid.

Fixpoint runcmd (c : cmd (list Z)) : prog unit :=
  match c with
  | EXEC argv =>
      match argv with
      | [] => exit 1
      | a0 :: _ =>
          sys (Exec a0 argv);!
          fprintf 2 (lit "exec %s failed" ++ newline) [UStr (Some a0)];!
          exit 0
      end
  | REDIR c file mode fd =>
      sys (Close fd);!
      let! n := sys (Open file mode) in
      if n <? 0 then fprintf 2 (lit "open %s failed" ++ newline) [UStr (Some file)];! exit 1
      else runcmd c;! exit 0
  | LIST l r =>
      let! pid := fork1 in
      pwhen (pid =? 0) (runcmd l);!
      sys Wait;!
      runcmd r;!
      exit 0
  | PIPE l r =>
      let! p := sys Pipe in
      match p with
      | None => sh_panic (lit "pipe")
      | Some (p0, p1) =>
          let! pid := fork1 in
          pwhen (pid =? 0) (sys (Close 1);! sys (Dup p1);! sys (Close p0);! sys (Close p1);! runcmd l);!
          let! pid := fork1 in
          pwhen (pid =? 0) (sys (Close 0);! sys (Dup p0);! sys (Close p0);! sys (Close p1);! runcmd r);!
          sys (Close p0);!
          sys (Close p1);!
          sys Wait;!
          sys Wait;!
          exit 0
      end
  | BACK c =>
      let! pid := fork1 in
      pwhen (pid =? 0) (runcmd c);!
      exit 0
  end.

(** The bytes of [buf] up to its NUL, or [None] at the end of the input. *)
Definition getcmd (nbuf : nat) : prog (option (list Z)) :=
  fprintf 2 (lit "$ ") [];!
  let! s := ugets nbuf in
  let s := cstring s in
  pret (match s with [] => None | _ => Some s end).

(** The text parsecmd complains about, when it does. *)
Definition leftovers (s : list Z) : option (list Z) :=
  match parseline (4 * length s + 4) s with
  | POk _ ps => match (peek ps []).2 with [] => None | l => Some l end
  | _ => None
  end.
(** [runcmd(parsecmd(buf))] *)
Definition run_line (s : list Z) : prog unit :=
  match parsecmd s with
  | POk c buf => runcmd (cmd_map (string_at buf) c)
  | PPanic msg =>
      match leftovers s with
      | Some l => fprintf 2 (lit "leftovers: %s" ++ newline) [UStr (Some l)]
      | None => pret tt
      end;!
      sh_panic (lit msg)
  | PFuel => undefined
  end.

Definition sh_main : prog unit :=
  ITree.iter (fun _ : unit =>
    let! fd := sys (Open (lit "console") O_RDWR) in
    if fd <? 0 then pret (inr tt)
    else if 3 <=? fd then sys (Close fd);! pret (inr tt)
    else pret (inl tt)) tt;!
  ITree.iter (fun _ : unit =>
    let! r := getcmd 100 in
    match r with
    | None => pret (inr tt)
    | Some buf =>
        if bool_decide (take 3 buf = lit "cd ") then
          let dir := drop 3 (take (length buf - 1) buf) in
          let! r := sys (Chdir dir) in
          pwhen (r <? 0) (fprintf 2 (lit "cannot cd %s" ++ newline) [UStr (Some dir)]);!
          pret (inl tt)
        else
          let! pid := fork1 in
          pwhen (pid =? 0) (run_line buf);!
          sys Wait;!
          pret (inl tt)
    end) tt;!
  exit 0.

(** ** Descriptor tables *)
Inductive fobj := FPipeR (k : Z) | FPipeW (k : Z) | FFile (path : list Z) (mode : Z) | FOther (k : Z).
Definition NFD : nat := 16.
(** The lowest free descriptor, which the kernel gives (fdalloc). *)
Fixpoint lowest_from (n : nat) (i : Z) (t : gmap Z fobj) : option Z :=
  match n with O => None | S n' => match t !! i with None => Some i | Some _ => lowest_from n' (i + 1) t end end.
Definition lowest_free (t : gmap Z fobj) : option Z := lowest_from NFD 0 t.

Class Tables (W : Type) := {
  tanswers : forall A, sysE A -> W -> A -> W -> Prop;
  fdt : W -> gmap Z fobj
}.
(** The calls that leave the table alone. *)
Definition keeps {A} (e : sysE A) : bool :=
  match e with Open _ _ | Close _ | Dup _ | Pipe => false | _ => true end.

Class TableLaws (W : Type) `{Tables W} : Prop := {
  tanswer_ex A (e : sysE A) w : returns e = true -> exists a w', tanswers A e w a w';
  tkeep_law A (e : sysE A) w a w' : tanswers A e w a w' -> keeps e = true -> fdt w' = fdt w;
  tclose_law fd w a w' : tanswers _ (Close fd) w a w' -> fdt w' = delete fd (fdt w);
  topen_law path mode w a w' : tanswers _ (Open path mode) w a w' ->
    (a < 0 /\ fdt w' = fdt w) \/ (lowest_free (fdt w) = Some a /\ fdt w' = <[a := FFile path mode]> (fdt w));
  tdup_law fd w a w' o i : tanswers _ (Dup fd) w a w' -> fdt w !! fd = Some o -> lowest_free (fdt w) = Some i -> fdt w' = <[i := o]> (fdt w);
  tpipe_law w a w' : tanswers _ Pipe w a w' ->
    (a = None /\ fdt w' = fdt w) \/
    exists p0 p1 k, a = Some (p0, p1) /\ lowest_free (fdt w) = Some p0 /\ lowest_free (<[p0 := FPipeR k]> (fdt w)) = Some p1 /\
      (forall fd, fdt w !! fd <> Some (FPipeR k) /\ fdt w !! fd <> Some (FPipeW k)) /\
      fdt w' = <[p1 := FPipeW k]> (<[p0 := FPipeR k]> (fdt w))
}.

(** ** What a command is to start *)
Definition fresh_pipe (k : Z) (t : gmap Z fobj) : Prop := forall fd, t !! fd <> Some (FPipeR k) /\ t !! fd <> Some (FPipeW k).
Inductive launches : cmd (list Z) -> gmap Z fobj -> list (list Z) -> gmap Z fobj -> Prop :=
| launch_exec a argv t : launches (EXEC (a :: argv)) t (a :: argv) t
| launch_redir c file mode fd t argv t' : launches c (<[fd := FFile file mode]> t) argv t' -> launches (REDIR c file mode fd) t argv t'
| launch_left l r k t argv t' : fresh_pipe k t -> launches l (<[1 := FPipeW k]> t) argv t' -> launches (PIPE l r) t argv t'
| launch_right l r k t argv t' : fresh_pipe k t -> launches r (<[0 := FPipeR k]> t) argv t' -> launches (PIPE l r) t argv t'
| launch_first l r t argv t' : launches l t argv t' -> launches (LIST l r) t argv t'
| launch_second l r t argv t' : launches r t argv t' -> launches (LIST l r) t argv t'
| launch_back c t argv t' : launches c t argv t' -> launches (BACK c) t argv t'.

(** Descriptors 0 and 1 are open, and redirections are of these. *)
Definition std (t : gmap Z fobj) : Prop := is_Some (t !! 0) /\ is_Some (t !! 1).
Fixpoint std_redirs (c : cmd (list Z)) : Prop :=
  match c with
  | EXEC _ => True
  | REDIR c _ _ fd => (fd = 0 \/ fd = 1) /\ std_redirs c
  | PIPE l r | LIST l r => std_redirs l /\ std_redirs r
  | BACK c => std_redirs c
  end.

Lemma lowest_from_free n i t p : lowest_from n i t = Some p -> t !! p = None.
Proof. revert i. induction n as [|n IH]; intros i; cbn; [done|]. destruct (t !! i) eqn:E; [apply IH|]. by intros [= <-]. Qed.
Lemma lowest_0 t : t !! 0 = None -> lowest_free t = Some 0.
Proof. intros H. unfold lowest_free. cbn. by rewrite H. Qed.
Lemma lowest_1 t : is_Some (t !! 0) -> t !! 1 = None -> lowest_free t = Some 1.
Proof. intros [o Ho] H. unfold lowest_free. cbn [lowest_from NFD]. rewrite Ho. change (0 + 1) with 1. by rewrite H. Qed.

Section Run.
Context {W : Type} `{TL : TableLaws W} (X : ending -> W -> Prop).
Abbreviation must := (must tanswers X).
Hypothesis HX : forall n w, n = 0 \/ n = 1 -> X (Exits n) w.

Lemma must_keep {A} (e : sysE A) (Q : A -> W -> Prop) w : keeps e = true -> returns e = true -> ends_with e = None -> (forall a w', fdt w' = fdt w -> Q a w') -> must Q (sys e) w.
Proof.
  intros H1 H2 H3 HQ. apply must_sys; [by destruct e|by rewrite H3|by apply tanswer_ex|]. intros a w' Ha. eapply HQ. by eapply tkeep_law.
Qed.
Lemma must_fprintf fd fmt args bs (Q : unit -> W -> Prop) w : format false fmt args = Some bs -> (forall w', fdt w' = fdt w -> Q tt w') -> must Q (fprintf fd fmt args) w.
Proof.
  intros Hf HQ. assert (HI : forall (c : Z) (b : list Z) w1, fdt w1 = fdt w -> must (fun (_ : unit) w2 => fdt w2 = fdt w) (putc fd c) w1).
  { intros c b w1 H1. apply must_bind, must_keep; [done|done|done|]. intros a w2 H2. apply must_return. congruence. }
  eapply must_mono; [apply (must_text _ _ fd (fun _ w1 => fdt w1 = fdt w) HI fmt false args bs []); done|intros [] w'; apply HQ].
Qed.
(** A message and the end. *)
Lemma must_msg {R} pre post s (Q : R -> W -> Prop) n w : plain pre = true -> plain post = true -> n = 0 \/ n = 1 -> must Q (fprintf 2 (pre ++ lit "%s" ++ post) [UStr (Some s)];! exit n) w.
Proof. intros H1 H2 Hn. apply must_bind. eapply must_fprintf; [by apply format_string|]. intros w' _. by apply must_exit, HX. Qed.
Lemma must_panic {R} s (Q : R -> W -> Prop) w : must Q (sh_panic s) w.
Proof. apply (must_msg [] newline); [done|done|by right]. Qed.

Lemma must_fork1 (Q : Z -> W -> Prop) w : (forall pid w', fdt w' = fdt w -> Q pid w') -> must Q fork1 w.
Proof.
  intros HQ. apply must_bind, must_keep; [done|done|done|]. intros pid w' E. destruct (pid =? -1); [apply must_panic|]. by apply must_return, HQ.
Qed.
Lemma must_wait (Q : Z -> W -> Prop) w : (forall a w', fdt w' = fdt w -> Q a w') -> must Q (sys Wait) w.
Proof. intros HQ. by apply must_keep. Qed.
Lemma must_tclose (Q : Z -> W -> Prop) fd w : (forall a w', fdt w' = delete fd (fdt w) -> Q a w') -> must Q (sys (Close fd)) w.
Proof. intros HQ. apply must_sys; [done|done|by apply tanswer_ex|]. intros a w' Ha. eapply HQ. by eapply tclose_law. Qed.
Lemma must_dup (Q : Z -> W -> Prop) fd i o w : fdt w !! fd = Some o -> lowest_free (fdt w) = Some i -> (forall a w', fdt w' = <[i := o]> (fdt w) -> Q a w') -> must Q (sys (Dup fd)) w.
Proof. intros Ho Hi HQ. apply must_sys; [done|done|by apply tanswer_ex|]. intros a w' Ha. eapply HQ. by eapply tdup_law. Qed.

(** A child that never returns, and the parent. *)
Lemma must_child (m : prog unit) b (Q : unit -> W -> Prop) w : (b = true -> must (fun _ _ => False) m w) -> Q tt w -> must Q (pwhen b m) w.
Proof. intros Hm HQ. destruct b; cbn [pwhen]; [|by apply must_return]. eapply must_mono; [by apply Hm|done]. Qed.

(** The child of a pipe: descriptor [i] becomes [o], the pipe's own go. *)
Lemma must_plug (m : prog unit) (Q : unit -> W -> Prop) i fd p0 p1 o t k w :
  (i = 0 \/ i = 1) -> std t -> t !! p0 = None -> t !! p1 = None -> p0 <> p1 -> (fd, o) = (p0, FPipeR k) \/ (fd, o) = (p1, FPipeW k) ->
  fdt w = <[p1 := FPipeW k]> (<[p0 := FPipeR k]> t) -> (forall w', fdt w' = <[i := o]> t -> must Q m w') ->
  must Q (sys (Close i);! sys (Dup fd);! sys (Close p0);! sys (Close p1);! m) w.
Proof.
  intros Hi [[o0 H0] [o1 H1]] Hp0 Hp1 Hne Hfd Ew Hm. assert (N0 : p0 <> 0 /\ p0 <> 1) by (split; intros ->; congruence). assert (N1 : p1 <> 0 /\ p1 <> 1) by (split; intros ->; congruence).
  apply must_bind, must_tclose. intros _ w1 E1. rewrite Ew in E1. apply must_bind. apply (must_dup _ fd i o).
  - rewrite E1, lookup_delete_ne by (destruct Hfd as [[= -> ->]|[= -> ->]]; lia). destruct Hfd as [[= -> ->]|[= -> ->]]; [by rewrite lookup_insert_ne, lookup_insert_eq|by rewrite lookup_insert_eq].
  - rewrite E1. destruct Hi as [-> | ->]; [apply lowest_0, lookup_delete_eq|]. apply lowest_1; [|apply lookup_delete_eq]. rewrite lookup_delete_ne, !lookup_insert_ne by lia. eauto.
  - intros _ w2 E2. apply must_bind, must_tclose. intros _ w3 E3. apply must_bind, must_tclose. intros _ w4 E4. apply Hm. rewrite E4, E3, E2, E1.
    apply map_eq. intros j. destruct (Z.eq_dec j p1) as [-> |]; [rewrite lookup_delete_eq, lookup_insert_ne by lia; done|].
    destruct (Z.eq_dec j p0) as [-> |]; [rewrite lookup_delete_ne, lookup_delete_eq, lookup_insert_ne by lia; done|]. rewrite !lookup_delete_ne by lia.
    destruct (Z.eq_dec j i) as [-> |]; [by rewrite !lookup_insert_eq|]. by rewrite lookup_insert_ne, lookup_delete_ne, !lookup_insert_ne by lia.
Qed.

Lemma std_insert t i o : std t -> std (<[i := o]> t).
Proof. intros [H0 H1]. split; (destruct (Z.eq_dec i 0), (Z.eq_dec i 1); subst; rewrite ?lookup_insert_eq, ?lookup_insert_ne by lia; eauto). Qed.
Lemma lowest_redir t fd : fd = 0 \/ fd = 1 -> std t -> lowest_free (delete fd t) = Some fd.
Proof. intros [-> | ->] [H0 H1]; [apply lowest_0, lookup_delete_eq|apply lowest_1; [by rewrite lookup_delete_ne|apply lookup_delete_eq]]. Qed.

Definition runs (c : cmd (list Z)) : Prop := forall w, std_redirs c -> std (fdt w) ->
  (forall path argv w', launches c (fdt w) (path :: argv) (fdt w') -> X (Execs path (path :: argv)) w') -> must (fun _ _ => False) (runcmd c) w.

Lemma runs_redir c file mode fd : runs c -> runs (REDIR c file mode fd).
Proof.
  intros IH w [Hfd Hr] Hs HE. cbn [runcmd]. apply must_bind, must_tclose. intros _ w1 E1. apply must_bind, must_sys; [done|done|by apply tanswer_ex|].
  intros a w2 Ha. destruct (topen_law file mode w1 a w2 Ha) as [[Hn _]|[Hl E2]]; [rewrite (proj2 (Z.ltb_lt a 0)) by done; apply (must_msg (lit "open ") (lit " failed" ++ newline)); [done|done|by right]|].
  rewrite E1, (lowest_redir _ fd Hfd Hs) in Hl. injection Hl as <-. rewrite E1, insert_delete_eq in E2. destruct (fd <? 0); [apply (must_msg (lit "open ") (lit " failed" ++ newline)); [done|done|by right]|].
  apply must_bind. eapply must_mono; [apply IH; [done|rewrite E2; by apply std_insert|]|done]. intros path argv w' HL. apply HE. constructor. by rewrite <- E2.
Qed.

Lemma runs_pipe l r : runs l -> runs r -> runs (PIPE l r).
Proof.
  intros IHl IHr w [Hl Hr] Hs HE. cbn [runcmd]. apply must_bind, must_sys; [done|done|by apply tanswer_ex|].
  intros a w1 Ha. destruct (tpipe_law w a w1 Ha) as [[-> _]|(p0 & p1 & k & -> & L0 & L1 & Hk & E1)]; [apply must_panic|]. cbn beta iota.
  pose proof (lowest_from_free _ _ _ _ L0) as F0. pose proof (lowest_from_free _ _ _ _ L1) as F1.
  assert (Hne : p0 <> p1) by (intros <-; by rewrite lookup_insert_eq in F1). rewrite lookup_insert_ne in F1 by done.
  apply must_bind, must_fork1. intros pid w2 E2. apply must_bind, must_child.
  { intros _. apply (must_plug _ _ 1 p1 p0 p1 (FPipeW k) (fdt w) k); [by right|done|done|done|done|by right|congruence|].
    intros w3 E3. apply IHl; [done|rewrite E3; by apply std_insert|]. intros path argv w' HL. apply HE. eapply launch_left; [exact Hk|by rewrite <- E3]. }
  apply must_bind, must_fork1. intros pid' w3 E3. apply must_bind, must_child.
  { intros _. apply (must_plug _ _ 0 p0 p0 p1 (FPipeR k) (fdt w) k); [by left|done|done|done|done|by left|congruence|].
    intros w4 E4. apply IHr; [done|rewrite E4; by apply std_insert|]. intros path argv w' HL. apply HE. eapply launch_right; [exact Hk|by rewrite <- E4]. }
  apply must_bind, must_tclose. intros _ w4 _. apply must_bind, must_tclose. intros _ w5 _. apply must_bind, must_wait. intros _ w6 _. apply must_bind, must_wait. intros _ w7 _.
  apply must_exit, HX. by left.
Qed.

Lemma must_runcmd c : runs c.
Proof.
  induction c as [[|a argv]|c IH file mode fd|l IHl r IHr|l IHl r IHr|c IH].
  - intros w _ _ _. apply must_exit, HX. by right.
  - intros w _ _ HE. cbn [runcmd]. apply must_bind, must_sys; [done|intros en [= <-]; apply HE; constructor|by apply tanswer_ex|].
    intros _ w' _. apply (must_msg (lit "exec ") (lit " failed" ++ newline)); [done|done|by left].
  - by apply runs_redir.
  - by apply runs_pipe.
  - intros w [Hl Hr] Hs HE. cbn [runcmd]. apply must_bind, must_fork1. intros pid w1 E1. apply must_bind, must_child.
    { intros _. apply IHl; [done|by rewrite E1|]. intros path argv w' HL. apply HE, launch_first. by rewrite <- E1. }
    apply must_bind, must_wait. intros _ w2 E2. apply must_bind. eapply must_mono; [apply IHr; [done|by rewrite E2, E1|]|done].
    intros path argv w' HL. apply HE, launch_second. by rewrite <- E1, <- E2.
  - intros w Hr Hs HE. cbn [runcmd]. apply must_bind, must_fork1. intros pid w1 E1. apply must_bind, must_child; [|apply must_exit, HX; by left].
    intros _. apply IH; [done|by rewrite E1|]. intros path argv w' HL. apply HE. constructor. by rewrite <- E1.
Qed.
End Run.

(** ** A line of text *)
Lemma good_std c : good c -> std_redirs c.
Proof.
  induction c as [argv|c IH file mode fd|l IHl r IHr|l IHl r IHr|c IH]; cbn [good std_redirs]; try tauto.
  intros [Hc [_ Hr]]. split; [|by apply IH]. cbn [fst snd] in Hr. rewrite !elem_of_cons, elem_of_nil in Hr. naive_solver.
Qed.

(** What a process of the shell may end in when the command is [c] and the
    shell's table [t]. *)
Definition shell_end {W : Type} `{Tables W} (c : cmd (list Z)) (t : gmap Z fobj) (e : ending) (w' : W) : Prop :=
  match e with
  | Exits n => n = 0 \/ n = 1
  | Execs path argv => head argv = Some path /\ launches c t argv (fdt w')
  end.

(** C28: the shell starts what the line says.  For the text of any command tree,
    whatever the system calls answer and on whichever side of the forks one
    looks, every process that runs the line ends, and never returns to the
    shell's loop: it exits with 0 or 1, or becomes a program of the command, with
    its arguments and with exactly the descriptors of the shell, except that 0
    and 1 are the files of its redirections and the ends of its pipes. *)
Theorem run_line_correct {W : Type} `{TL : TableLaws W} (c : cmd (list Z)) (w : W) : good c -> std (fdt w) ->
  must tanswers (shell_end c (fdt w)) (fun _ _ => False) (run_line (print c)) w.
Proof.
  intros Hc Hs. destruct (parsecmd_printed c Hc) as (c' & buf & E & Ec). unfold run_line. rewrite E, Ec. apply must_runcmd; [done|by apply good_std|done|]. intros path argv w' HL. by split.
Qed.
(** ** A kernel with descriptor tables *)
Record ptab := mkPtab { pt_fds : gmap Z fobj }.
Definition pt_answers A (e : sysE A) : ptab -> A -> ptab -> Prop :=
  match e with
  | Open path mode => fun w a w' =>
      (a = -1 /\ w' = w) \/ (lowest_free (pt_fds w) = Some a /\ w' = mkPtab (<[a := FFile path mode]> (pt_fds w)))
  | Close fd => fun w a w' => a = 0 /\ w' = mkPtab (delete fd (pt_fds w))
  | Dup fd => fun w a w' =>
      match pt_fds w !! fd, lowest_free (pt_fds w) with
      | Some o, Some i => a = i /\ w' = mkPtab (<[i := o]> (pt_fds w))
      | _, _ => a = -1 /\ w' = w
      end
  | Pipe => fun w a w' =>
      (a = None /\ w' = w) \/
      exists p0 p1 k, a = Some (p0, p1) /\ lowest_free (pt_fds w) = Some p0 /\ lowest_free (<[p0 := FPipeR k]> (pt_fds w)) = Some p1 /\
        fresh_pipe k (pt_fds w) /\ w' = mkPtab (<[p1 := FPipeW k]> (<[p0 := FPipeR k]> (pt_fds w)))
  | Exit _ | Undefined => fun _ _ _ => False
  | Fork => fun w a w' => -1 <= a /\ w' = w
  | Read _ _ => fun w a w' => w' = w
  | Fstat _ => fun w a w' => w' = w
  | _ => fun w a w' => w' = w
  end.
#[export] Instance pt_tables : Tables ptab := {| tanswers := pt_answers; fdt := pt_fds |}.

Lemma pt_ex A (e : sysE A) w : returns e = true -> exists a w', pt_answers A e w a w'.
Proof.
  destruct e; try discriminate; intros _; cbn [pt_answers]; try (exists 0, w; reflexivity); try (exists None, w; reflexivity); try (eexists _, _; by left); try by eexists _, _.
  destruct (pt_fds w !! fd); [|by eexists _, _]. destruct (lowest_free (pt_fds w)); by eexists _, _.
Qed.
#[export] Instance pt_laws : TableLaws ptab.
Proof.
  constructor.
  - apply pt_ex.
  - intros A e w a w' Ha Hk. destruct e; try discriminate Hk; cbn [tanswers pt_tables pt_answers fdt] in *; first [by destruct Ha|by destruct Ha as [_ ->]|by rewrite Ha].
  - intros fd w a w' [_ ->]. done.
  - intros path mode w a w' [[-> ->]|[Hl ->]]; [by left|by right].
  - intros fd w a w' o i Ha Ho Hi. cbn [tanswers pt_tables pt_answers fdt] in *. rewrite Ho, Hi in Ha. by destruct Ha as [_ ->].
  - intros w a w' [[-> ->]|(p0 & p1 & k & -> & H1 & H2 & H3 & ->)]; [by left|right]. by exists p0, p1, k.
Qed.

(** Descriptors 0, 1 and 2 are the console; the line is that of [sample]. *)
Definition ex_ptab : ptab := mkPtab {[0 := FOther 0; 1 := FOther 0; 2 := FOther 0]}.
Lemma run_line_correct_witness : must tanswers (shell_end sample (fdt ex_ptab)) (fun _ _ => False) (run_line (print sample)) ex_ptab.
Proof.
  apply (run_line_correct sample ex_ptab).
  - cbn. unfold good_redir, good_word. cbn. repeat split; try done; repeat constructor; done.
  - split; by eexists.
Defined.
